(* ===== verification/_CoqProject ===== *)
-Q . S2P
Prelude.v
Unicode.v
GoStrings.v
Effects.v
GoStd.v
GoText.v
Json.v
Threading.v
RateLimit.v
MessageIds.v
Provision.v
Models.v
Users.v
Sessions.v
Mfa.v
MailAccounts.v
Host.v
FeatureFlags.v
Identity.v
MailModels.v
Drafts.v
MailSenders.v
DraftSend.v
Auth.v
Admin.v
Reset.v
Lifecycle.v
StoreRefinement.v
ServiceRefinement.v
Sample.v
PamHelper.v
Middleware.v
Routes.v
Safety.v
AuthFacts.v
MfaFacts.v
RegistrationFacts.v
ResetFacts.v
ServiceFacts.v
SenderFacts.v
ScheduledFacts.v
OutboundStore.v
Outbound.v
GoFmt.v
OutboundSenders.v
OutboundDispatch.v
OutboundReplies.v
OutboundLaunch.v
OutboundFacts.v
OutboundRules.v
OutboundTypes.v
FileSystem.v
GoTime.v
UpdateHost.v
UpdateModels.v
UpdateRuntime.v
UpdateFiles.v
UpdateVerify.v
UpdateApply.v
UpdateManager.v
UpdateWorker.v
UpdateTree.v
UpdateConfined.v
UpdateRollback.v
UpdateRestore.v
UpdateUndo.v
UpdateStage.v
UpdateSafety.v
UpdateQueue.v
UpdateAtomic.v
UpdateServer.v
UpdateCases.v
MailIndex.v
MailSearch.v
MailTriage.v
MailIndexFacts.v
SignIn.v
SecondFactors.v
SignInFacts.v
