(* ===== verification/Prelude.v ===== *)
(** * Despatch: a verification development of the Go control plane

    Despatch is a webmail control plane: a Go server (src/cmd/server,
    src/internal) over SQLite that signs users in against a mail server, keeps
    accounts, sessions, second factors and registrations, indexes and sends
    mail through IMAP and SMTP, and provisions mailboxes.  This development
    models the server's own logic and proves what it promises.  All names of
    Go files below are relative to src/internal.

    ** How the program is put together

    HTTP requests pass the guards of middleware/http.go on the routes of
    api/router.go and reach a handler, which calls the service
    (service/*.go); the service calls the store (store/*.go), whose functions
    are SQL statements on one SQLite database, and the outside world: clock,
    random sources, mail servers, the PAM helper.  Background workers
    (workers/*.go) call the same service and store.

    ** How it is modelled

    The foundations, used by every component:
    - Prelude: record update, tactics, the hint database [despatch].
    - Unicode, GoStrings, GoStd, GoText, Json: the parts of Go's
      language and standard library the code uses, executable: UTF-8, the
      [strings] functions, SHA-256, base64, [strconv], encoding/json, and the
      leftmost-first matcher of [regexp].
    - Effects: Go errors as [GoErr], and the monad [M DB A] of the handlers: a
      [World] holds the database, a schedule of driver faults consumed by each
      statement, and counters into the oracles of [Env] (clock, UUIDs, random
      bytes, answers of outside services).  A Go function that returns
      [(T, error)] is an [M DB T]; [transaction] rolls back on any error.
      [spec] says that a handler moves the database along a relation, under
      every fault schedule; [keeps] and [runs] are Hoare-style rules for runs
      without faults.

    The account database ([Models.Database], thirteen tables of
    src/migrations) and the store on it:
    - Models: rows as records, tables as lists in insertion order, SQL
      statements as list functions that check the schema's unique keys, and the
      scalar functions of SQLite.
    - Users (with settings and registrations), Sessions (with audit log, rate
      counters and reset tokens), Mfa, MailAccounts: the functions of
      store/store.go and store/v2_store.go, one definition per Go function,
      under the Go name.

    The service on it (service/service.go unless named):
    - Host: the configuration and the code the service links against, with
      auth/ and util/crypto.go.
    - FeatureFlags (feature_flags.go and mfa_stage.go), Identity (normalisers
      and checks), Auth (sign-in, sessions, mail_accounts.go), Admin
      (registration, administration and first-run setup), Reset (password
      reset).

    The mail side, on [MailModels.MailDB], which adds the tables of drafts,
    queue, identities and indexed messages and a log of the calls made to mail
    servers:
    - MessageIds (mail/id.go), Threading (mail/threading.go), Provision
      (mail/provision_sql.go): pure functions and generated statements.
    - Drafts (store/v2_store.go: indexed messages, drafts and their queue),
      MailSenders (service/mail_sender.go), DraftSend (service/draft_send.go
      and the scheduled sends of workers/mail_workers.go): from a stored draft
      to the message that leaves, with its retries.

    The mail index, on [MailIndex.IndexDB], which adds to [OutboundDB] the
    tables of threads, attachments and sync states:
    - MailIndex (store/v2_store.go and sync_state.go): upserts, attachments,
      deletion and renaming of mailboxes, the rebuilding and refreshing of
      threads from messages.  MailSearch: the listings, filters and orders of
      one and of several accounts, and the search; the class
      [MailSearch.FullText] stands for SQLite's FTS5.
    - MailTriage (store/mail_triage.go, api/mail_triage.go,
      api/indexed_filters.go), on [MailTriage.TriageDB]: categories, tags,
      snoozes and reminders of conversations, and the listings of indexed and
      live messages that show, filter and order by them.

    Outbound campaigns, on [MailModels.OutboundDB], which adds the tables
    of campaigns, steps, enrollments, events, recipients, threads, suppressions
    and what is read of contacts and reply funnels:
    - OutboundStore: every statement of store/outbound.go.
    - Outbound: policies, templates, the classification of replies, steps and
      branches; GoFmt: [fmt], encoding/json of maps, SHA-1.
    - OutboundSenders, OutboundDispatch, OutboundReplies, OutboundLaunch: the
      rest of service/outbound.go, function by function: who sends, the
      dispatch of an enrollment and the worker's loop, incoming replies and
      actions by hand, preflight, launch and the playbooks.

    The software updater (update/*.go).  The server checks for releases and
    queues requests as files; a privileged worker serves them: it downloads,
    verifies and unpacks a release, moves its parts into the installation and
    puts the old ones back when the machine does not come up on them.
    - FileSystem: a tree of entries with kinds, modes and owners, and the
      system calls on it with their errors; GoTime: RFC 3339 and the instants
      it can write.  UpdateHost: [UpdateDB] (settings, files, calls made), the
      [Machine] of commands, HTTP answers, archives and signatures, and the
      functions of [os] as operations of the monad, each of which may fail.
    - UpdateModels (types.go, paths.go, dir_contract.go, state.go,
      request_queue.go), UpdateRuntime (runtime_probe.go, github.go),
      UpdateManager (manager.go): the server's side.
    - UpdateFiles (copies, swaps, extraction, the migration of .env),
      UpdateVerify (assets, checksums, signatures, the prepared payload),
      UpdateApply (applyRelease with its rollback, part by part), UpdateWorker
      (runWorker and the loop of workers/update_workers.go): the worker's side,
      all of worker.go.

    The edges:
    - RateLimit (rate/memory.go), Middleware (middleware/), Routes (the whole
      route table of api/router.go with the guards of every route).
    - SignIn (api/router.go, router_v2.go, json_decode.go): requests, answers
      and cookies; the handlers of password and passkey sign-in, of sign-out and
      of password reset; trusted devices.  SecondFactors (api/router_v2.go):
      verifying and setting up second factors, approvals by another device, the
      devices and sessions of a user.  The mail security service, otp, qrcode
      and url.Parse are the class [Outside].
    - PamHelper (pamreset/helper.go): both ends of the socket protocol of the
      privileged helper that changes system passwords.

    ** What is proved

    - Lifecycle states the abstract machine: how each table may change in one
      step.  StoreRefinement and ServiceRefinement prove that every store
      function and every handler refines it under every fault schedule;
      ServiceRefinement also composes handlers into request histories, and
      Safety draws the
      consequences for all histories: setup is final, no privilege escalation,
      tokens are single use, suspension and (once the session was looked up)
      logout are final, decisions are final, keys stay unique, the audit log
      only grows.
    - AuthFacts, MfaFacts, RegistrationFacts, ResetFacts, ServiceFacts: the
      functional behaviour of single handlers, on success and on every refusal.
    - SignInFacts: every handler of SignIn and SecondFactors moves the database
      along steps of the same abstract machine; a session becomes verified only
      with the evidence its endpoint asks for, a passkey opens sessions of its
      owner only, mailed codes can be guessed five times and recovery codes spent
      once.  [password_is_enough] runs the gap: a session at mfa_required gets
      past the guards by acknowledging its recovery codes.
    - SenderFacts, ScheduledFacts: a message leaves only under an address of
      its user's own; the worker sends a queued draft at most three times
      while no statement on the database fails.
    - OutboundFacts, OutboundRules, OutboundTypes: the worker writes to nobody
      who is suppressed, an unsubscribe is for good while nobody lifts a
      suppression, replies halt a sequence, blocked launches change nothing,
      steps cannot be put in another order, and every request keeps the tables
      typed: kinds, statuses and all unique keys.
    - MailIndexFacts, MailTriage: refreshing threads agrees with rebuilding
      them; a change of conversations touches no other and can be cleared
      without a trace; a reminder is reported once; a listing of the index ends
      after its first batch.
    - UpdateTree, UpdateConfined: an operation is [confined] to areas of the
      file system when it changes nothing outside them, under any faults;
      UpdateRollback, UpdateRestore, UpdateUndo, UpdateStage: what every step of
      applyRelease leaves, from which UpdateSafety proves that an update that is
      rolled back has restored every part, and that preparing a release writes
      only in the work directory, whatever the archive holds.  UpdateServer:
      the server writes only in the updater's base directory, and what it
      accepts lies in the queue.  UpdateQueue: a served request leaves the
      queue; the lock excludes and is released; nothing is
      unpacked that was not verified; the health check ends.  UpdateAtomic: a
      JSON file is the old or the new one, whatever fails, and the worker reads
      the request that the server wrote.
    - In the component files: round trips of identifiers, frames and JSON;
      the limiter's equivalence with counters that are never collected, and
      its bound; the policy every route enforces; termination of the subject
      normaliser; statements that carry values only as arguments.
    - Facts the code refutes are proved as examples next to the theorems.
    Sample is a concrete deployment, OutboundFacts holds a concrete campaign and
    UpdateCases a concrete machine with a release, on which the witnesses run.

    ** Fuel

    [Threading.strip_loop] answers [None] when its fuel runs out; it gets one
    turn more than the subject has runes, and [subject_loop_terminates] proves
    that this and any greater fuel ends it.  The JSON parser gets
    twice the length of its input plus one, and [json_struct_back] that it
    reads what was written; [GoText.iterate] gets the length of the text, as
    an iteration that matches nothing stops the repetition.
    [UpdateApply.poll_health] gets 34 rounds of 1.2 s for its 40 s, and
    [health_check_ends] that they are enough while the clock keeps up with the
    pauses; following symbolic links has the 40 steps of Linux.  One round is
    enough for [MailTriage.queryIndexedMessages], which
    [index_listing_ends_after_one_batch] proves.

    ** What is not modelled

    - Foreign keys, their checks and their cascades: the server opens its
      database without them, and the migrations it runs at every start switch
      them on for the one pooled connection they run on, until it is replaced;
      the statements modelled are those of the other connections.
    - Failures of RowsAffected, cancellation of contexts and log lines.  Each
      statement is atomic and a handler runs without another one between its
      statements; histories interleave whole requests.  The deadlines of the
      sockets of the password helper.
    - Inside library parameters: argon2, AES-GCM, net/mail, MIME words, the
      time zone database, gzip, tar, ed25519; path matching of the router is
      the library's.  Commands and HTTP servers answer as the [Machine] says.
    - File system: intermediate symbolic links are not resolved, hard links and
      file descriptors that outlive a rename do not occur; other programs write
      only at the paths called [foreign].  Times are written in UTC and the
      texts of JSON and time parsing errors are not kept.
    - Times are instants in nanoseconds without a bound.
    - Previews of messages, [CreateDraft] and [UpdateDraft] (which store JSON
      snapshots), the HTTP handlers of mail, contacts, campaigns, setup and
      administration, IMAP and SMTP connections, mail rules,
      the writing of contacts and reply funnels, reading the configuration,
      database bootstrap, the Rust services and the web client.  [EnsureAdmin],
      called at startup, is not one of the requests of a history.

    Planned next: the synchronisation of the mail index, contacts, rules and
    reply funnels. *)

From stdpp Require Export relations base list strings option numbers.
From Stdlib Require Export ZArith Lia Bool.
From Stdlib Require Import Permutation.

#[global] Set Default Goal Selector "!".

(** ** Record update

    [r <| f := v |>] is the record [r] with field [f] replaced by [v].  A
    record type opts in by giving its eta-expansion as an instance of [Eta];
    the setter of a field is then derived from it by pattern abstraction. *)
Class Eta (R : Type) := eta_expand : R -> R.
Class FieldSetter {R T : Type} (proj : R -> T) := set_field : (T -> T) -> R -> R.
#[global] Hint Mode FieldSetter + + + : typeclass_instances.

Ltac derive_setter :=
  match goal with
  | |- @FieldSetter ?R ?T ?proj =>
      let e := constr:(_ : Eta R) in
      let e := eval red in e in
      let upd := fresh "upd" in let r := fresh "r" in
      refine (fun (upd : T -> T) (r : R) => _);
      let body := eval cbv beta in (e r) in
      let abs := eval pattern (proj r) in body in
      match abs with
      | ?fn ?arg => let out := eval cbv beta in (fn (upd arg)) in exact out
      end
  end.
#[global] Hint Extern 1 (FieldSetter _) => derive_setter : typeclass_instances.

Declare Scope despatch_scope.
Delimit Scope despatch_scope with despatch.
Notation "r <| f := v |>" := (set_field (proj := f) (fun _ => v) r)
  (at level 12, f at next level, left associativity) : despatch_scope.
#[global] Open Scope despatch_scope.

(** ** Shared automation *)

(** Case analysis on the scrutinee of the first [match] or [if] in the goal. *)
Ltac split_match :=
  match goal with
  | |- context [match ?x with _ => _ end] =>
      lazymatch x with
      | context [match _ with _ => _ end] => fail
      | _ => let E := fresh "E" in destruct x eqn:E
      end
  end.

(** The same in a hypothesis. *)
Ltac split_match_in H :=
  match type of H with
  | context [match ?x with _ => _ end] =>
      lazymatch x with
      | context [match _ with _ => _ end] => fail
      | _ => let E := fresh "E" in destruct x eqn:E
      end
  end.

(** Reflect boolean hypotheses and goals built from [&&], [||], [negb], [=?]. *)
Ltac breflect :=
  repeat match goal with
  | H : andb _ _ = true |- _ => apply andb_true_iff in H as [? ?]
  | H : orb _ _ = false |- _ => apply orb_false_iff in H as [? ?]
  | H : negb _ = true |- _ => apply negb_true_iff in H
  | H : negb _ = false |- _ => apply negb_false_iff in H
  | H : String.eqb _ _ = true |- _ => apply String.eqb_eq in H
  | H : String.eqb _ _ = false |- _ => apply String.eqb_neq in H
  | H : Z.ltb _ _ = true |- _ => apply Z.ltb_lt in H
  | H : Z.ltb _ _ = false |- _ => apply Z.ltb_ge in H
  | H : Z.leb _ _ = true |- _ => apply Z.leb_le in H
  | H : Z.leb _ _ = false |- _ => apply Z.leb_gt in H
  | H : Z.eqb _ _ = true |- _ => apply Z.eqb_eq in H
  | H : Z.eqb _ _ = false |- _ => apply Z.eqb_neq in H
  | H : Nat.eqb _ _ = true |- _ => apply Nat.eqb_eq in H
  | H : Nat.eqb _ _ = false |- _ => apply Nat.eqb_neq in H
  | H : bool_decide _ = true |- _ => apply bool_decide_eq_true_1 in H
  | H : bool_decide _ = false |- _ => apply bool_decide_eq_false_1 in H
  end.

Create HintDb despatch discriminated.
#[global] Hint Constants Opaque : despatch.

(** ** Lists *)

Section Lists.
Context {A B : Type}.
Implicit Types (l : list A) (p : A -> bool).

(** [l] is [k] with some elements left out, order kept, as a filter does. *)
Lemma filter_In_iff p l x : In x (List.filter p l) <-> In x l /\ p x = true.
Proof. apply filter_In. Qed.

Lemma find_In p l x : List.find p l = Some x -> In x l /\ p x = true.
Proof. apply List.find_some. Qed.

Lemma NoDup_map_filter (f : A -> B) p l :
  List.NoDup (map f l) -> List.NoDup (map f (List.filter p l)).
Proof.
  induction l as [|x l IH]; simpl; [done|].
  rewrite List.NoDup_cons_iff. intros [Hx Hl].
  destruct (p x); simpl; [|by apply IH].
  constructor; [|by apply IH].
  intros Hin. apply Hx. apply in_map_iff in Hin as (y & <- & Hy).
  apply filter_In in Hy as [Hy _]. by apply in_map.
Qed.

Lemma NoDup_map_inj (f : A -> B) l x y :
  List.NoDup (map f l) -> In x l -> In y l -> f x = f y -> x = y.
Proof.
  induction l as [|z l IH]; simpl; [done|].
  rewrite List.NoDup_cons_iff. intros [Hz Hl] [->|Hx] [->|Hy] Hf; try done.
  - exfalso. apply Hz. rewrite Hf. by apply in_map.
  - exfalso. apply Hz. rewrite <- Hf. by apply in_map.
  - by apply IH.
Qed.

Lemma existsb_same p q l : (forall x, p x = q x) -> existsb p l = existsb q l.
Proof. intros H. induction l as [|x l IH]; simpl; [done|]. by rewrite H, IH. Qed.

Lemma find_unique p l x :
  In x l -> p x = true -> (forall y, In y l -> p y = true -> y = x) ->
  List.find p l = Some x.
Proof.
  induction l as [|z l IH]; simpl; [done|].
  intros Hin Hp Hu. destruct (p z) eqn:Ez.
  - f_equal. apply Hu; auto.
  - destruct Hin as [->|Hin]; [congruence|].
    apply IH; auto.
Qed.

Lemma find_none_iff p l :
  List.find p l = None <-> forall x, In x l -> p x = false.
Proof.
  split; [apply List.find_none|].
  induction l as [|z l IH]; simpl; [done|].
  intros H. rewrite (H z) by auto. apply IH. auto.
Qed.
End Lists.
