(* ===== verification/Unicode.v ===== *)
(** * Unicode: what the program uses of Go's [unicode] and [unicode/utf8]

    Runes are code points as [Z], bytes are [Z] in [0, 256).  [decode_runes]
    is what [for _, r := range s] yields (an ill-formed byte is [RuneError]),
    [encode_rune] is [utf8.AppendRune], [rune_lower] is [unicode.ToLower] and
    [rune_fold] picks one representative of each orbit of
    [unicode.SimpleFold].  The case tables are the simple mappings of the
    Unicode character database, as ranges [(lo, hi, stride, delta)]. *)

From S2P Require Import Prelude.
Local Open Scope Z_scope.

(** Simple lowercase mapping of every code point above U+007F that has one. *)
Definition lower_ranges : list (Z * Z * Z * Z) :=
  [(192,214,1,32); (216,222,1,32); (256,302,2,1); (304,304,1,(-199)); (306,310,2,1); 
   (313,327,2,1); (330,374,2,1); (376,376,1,(-121)); (377,381,2,1); (385,385,1,210); 
   (386,388,2,1); (390,390,1,206); (391,391,1,1); (393,394,1,205); (395,395,1,1); (398,398,1,79); 
   (399,399,1,202); (400,400,1,203); (401,401,1,1); (403,403,1,205); (404,404,1,207); 
   (406,406,1,211); (407,407,1,209); (408,408,1,1); (412,412,1,211); (413,413,1,213); 
   (415,415,1,214); (416,420,2,1); (422,422,1,218); (423,423,1,1); (425,425,1,218); (428,428,1,1); 
   (430,430,1,218); (431,431,1,1); (433,434,1,217); (435,437,2,1); (439,439,1,219); (440,440,1,1); 
   (444,444,1,1); (452,452,1,2); (453,453,1,1); (455,455,1,2); (456,456,1,1); (458,458,1,2); 
   (459,475,2,1); (478,494,2,1); (497,497,1,2); (498,500,2,1); (502,502,1,(-97)); 
   (503,503,1,(-56)); (504,542,2,1); (544,544,1,(-130)); (546,562,2,1); (570,570,1,10795); 
   (571,571,1,1); (573,573,1,(-163)); (574,574,1,10792); (577,577,1,1); (579,579,1,(-195)); 
   (580,580,1,69); (581,581,1,71); (582,590,2,1); (880,882,2,1); (886,886,1,1); (895,895,1,116); 
   (902,902,1,38); (904,906,1,37); (908,908,1,64); (910,911,1,63); (913,929,1,32); (931,939,1,32); 
   (975,975,1,8); (984,1006,2,1); (1012,1012,1,(-60)); (1015,1015,1,1); (1017,1017,1,(-7)); 
   (1018,1018,1,1); (1021,1023,1,(-130)); (1024,1039,1,80); (1040,1071,1,32); (1120,1152,2,1); 
   (1162,1214,2,1); (1216,1216,1,15); (1217,1229,2,1); (1232,1326,2,1); (1329,1366,1,48); 
   (4256,4293,1,7264); (4295,4295,1,7264); (4301,4301,1,7264); (5024,5103,1,38864); 
   (5104,5109,1,8); (7312,7354,1,(-3008)); (7357,7359,1,(-3008)); (7680,7828,2,1); 
   (7838,7838,1,(-7615)); (7840,7934,2,1); (7944,7951,1,(-8)); (7960,7965,1,(-8)); 
   (7976,7983,1,(-8)); (7992,7999,1,(-8)); (8008,8013,1,(-8)); (8025,8031,2,(-8)); 
   (8040,8047,1,(-8)); (8072,8079,1,(-8)); (8088,8095,1,(-8)); (8104,8111,1,(-8)); 
   (8120,8121,1,(-8)); (8122,8123,1,(-74)); (8124,8124,1,(-9)); (8136,8139,1,(-86)); 
   (8140,8140,1,(-9)); (8152,8153,1,(-8)); (8154,8155,1,(-100)); (8168,8169,1,(-8)); 
   (8170,8171,1,(-112)); (8172,8172,1,(-7)); (8184,8185,1,(-128)); (8186,8187,1,(-126)); 
   (8188,8188,1,(-9)); (8486,8486,1,(-7517)); (8490,8490,1,(-8383)); (8491,8491,1,(-8262)); 
   (8498,8498,1,28); (8544,8559,1,16); (8579,8579,1,1); (9398,9423,1,26); (11264,11311,1,48); 
   (11360,11360,1,1); (11362,11362,1,(-10743)); (11363,11363,1,(-3814)); (11364,11364,1,(-10727)); 
   (11367,11371,2,1); (11373,11373,1,(-10780)); (11374,11374,1,(-10749)); 
   (11375,11375,1,(-10783)); (11376,11376,1,(-10782)); (11378,11378,1,1); (11381,11381,1,1); 
   (11390,11391,1,(-10815)); (11392,11490,2,1); (11499,11501,2,1); (11506,11506,1,1); 
   (42560,42604,2,1); (42624,42650,2,1); (42786,42798,2,1); (42802,42862,2,1); (42873,42875,2,1); 
   (42877,42877,1,(-35332)); (42878,42886,2,1); (42891,42891,1,1); (42893,42893,1,(-42280)); 
   (42896,42898,2,1); (42902,42920,2,1); (42922,42922,1,(-42308)); (42923,42923,1,(-42319)); 
   (42924,42924,1,(-42315)); (42925,42925,1,(-42305)); (42926,42926,1,(-42308)); 
   (42928,42928,1,(-42258)); (42929,42929,1,(-42282)); (42930,42930,1,(-42261)); 
   (42931,42931,1,928); (42932,42946,2,1); (42948,42948,1,(-48)); (42949,42949,1,(-42307)); 
   (42950,42950,1,(-35384)); (42951,42953,2,1); (42960,42960,1,1); (42966,42968,2,1); 
   (42997,42997,1,1); (65313,65338,1,32); (66560,66599,1,40); (66736,66771,1,40); 
   (66928,66938,1,39); (66940,66954,1,39); (66956,66962,1,39); (66964,66965,1,39); 
   (68736,68786,1,64); (71840,71871,1,32); (93760,93791,1,32); (125184,125217,1,34)]%Z.

(** Simple case folding, likewise. *)
Definition fold_ranges : list (Z * Z * Z * Z) :=
  [(181,181,1,775); (192,214,1,32); (216,222,1,32); (256,302,2,1); (306,310,2,1); (313,327,2,1); 
   (330,374,2,1); (376,376,1,(-121)); (377,381,2,1); (383,383,1,(-268)); (385,385,1,210); 
   (386,388,2,1); (390,390,1,206); (391,391,1,1); (393,394,1,205); (395,395,1,1); (398,398,1,79); 
   (399,399,1,202); (400,400,1,203); (401,401,1,1); (403,403,1,205); (404,404,1,207); 
   (406,406,1,211); (407,407,1,209); (408,408,1,1); (412,412,1,211); (413,413,1,213); 
   (415,415,1,214); (416,420,2,1); (422,422,1,218); (423,423,1,1); (425,425,1,218); (428,428,1,1); 
   (430,430,1,218); (431,431,1,1); (433,434,1,217); (435,437,2,1); (439,439,1,219); (440,440,1,1); 
   (444,444,1,1); (452,452,1,2); (453,453,1,1); (455,455,1,2); (456,456,1,1); (458,458,1,2); 
   (459,475,2,1); (478,494,2,1); (497,497,1,2); (498,500,2,1); (502,502,1,(-97)); 
   (503,503,1,(-56)); (504,542,2,1); (544,544,1,(-130)); (546,562,2,1); (570,570,1,10795); 
   (571,571,1,1); (573,573,1,(-163)); (574,574,1,10792); (577,577,1,1); (579,579,1,(-195)); 
   (580,580,1,69); (581,581,1,71); (582,590,2,1); (837,837,1,116); (880,882,2,1); (886,886,1,1); 
   (895,895,1,116); (902,902,1,38); (904,906,1,37); (908,908,1,64); (910,911,1,63); 
   (913,929,1,32); (931,939,1,32); (962,962,1,1); (975,975,1,8); (976,976,1,(-30)); 
   (977,977,1,(-25)); (981,981,1,(-15)); (982,982,1,(-22)); (984,1006,2,1); (1008,1008,1,(-54)); 
   (1009,1009,1,(-48)); (1012,1012,1,(-60)); (1013,1013,1,(-64)); (1015,1015,1,1); 
   (1017,1017,1,(-7)); (1018,1018,1,1); (1021,1023,1,(-130)); (1024,1039,1,80); (1040,1071,1,32); 
   (1120,1152,2,1); (1162,1214,2,1); (1216,1216,1,15); (1217,1229,2,1); (1232,1326,2,1); 
   (1329,1366,1,48); (4256,4293,1,7264); (4295,4295,1,7264); (4301,4301,1,7264); 
   (5112,5117,1,(-8)); (7296,7296,1,(-6222)); (7297,7297,1,(-6221)); (7298,7298,1,(-6212)); 
   (7299,7300,1,(-6210)); (7301,7301,1,(-6211)); (7302,7302,1,(-6204)); (7303,7303,1,(-6180)); 
   (7304,7304,1,35267); (7312,7354,1,(-3008)); (7357,7359,1,(-3008)); (7680,7828,2,1); 
   (7835,7835,1,(-58)); (7838,7838,1,(-7615)); (7840,7934,2,1); (7944,7951,1,(-8)); 
   (7960,7965,1,(-8)); (7976,7983,1,(-8)); (7992,7999,1,(-8)); (8008,8013,1,(-8)); 
   (8025,8031,2,(-8)); (8040,8047,1,(-8)); (8072,8079,1,(-8)); (8088,8095,1,(-8)); 
   (8104,8111,1,(-8)); (8120,8121,1,(-8)); (8122,8123,1,(-74)); (8124,8124,1,(-9)); 
   (8126,8126,1,(-7173)); (8136,8139,1,(-86)); (8140,8140,1,(-9)); (8152,8153,1,(-8)); 
   (8154,8155,1,(-100)); (8168,8169,1,(-8)); (8170,8171,1,(-112)); (8172,8172,1,(-7)); 
   (8184,8185,1,(-128)); (8186,8187,1,(-126)); (8188,8188,1,(-9)); (8486,8486,1,(-7517)); 
   (8490,8490,1,(-8383)); (8491,8491,1,(-8262)); (8498,8498,1,28); (8544,8559,1,16); 
   (8579,8579,1,1); (9398,9423,1,26); (11264,11311,1,48); (11360,11360,1,1); 
   (11362,11362,1,(-10743)); (11363,11363,1,(-3814)); (11364,11364,1,(-10727)); (11367,11371,2,1); 
   (11373,11373,1,(-10780)); (11374,11374,1,(-10749)); (11375,11375,1,(-10783)); 
   (11376,11376,1,(-10782)); (11378,11378,1,1); (11381,11381,1,1); (11390,11391,1,(-10815)); 
   (11392,11490,2,1); (11499,11501,2,1); (11506,11506,1,1); (42560,42604,2,1); (42624,42650,2,1); 
   (42786,42798,2,1); (42802,42862,2,1); (42873,42875,2,1); (42877,42877,1,(-35332)); 
   (42878,42886,2,1); (42891,42891,1,1); (42893,42893,1,(-42280)); (42896,42898,2,1); 
   (42902,42920,2,1); (42922,42922,1,(-42308)); (42923,42923,1,(-42319)); 
   (42924,42924,1,(-42315)); (42925,42925,1,(-42305)); (42926,42926,1,(-42308)); 
   (42928,42928,1,(-42258)); (42929,42929,1,(-42282)); (42930,42930,1,(-42261)); 
   (42931,42931,1,928); (42932,42946,2,1); (42948,42948,1,(-48)); (42949,42949,1,(-42307)); 
   (42950,42950,1,(-35384)); (42951,42953,2,1); (42960,42960,1,1); (42966,42968,2,1); 
   (42997,42997,1,1); (43888,43967,1,(-38864)); (65313,65338,1,32); (66560,66599,1,40); 
   (66736,66771,1,40); (66928,66938,1,39); (66940,66954,1,39); (66956,66962,1,39); 
   (66964,66965,1,39); (68736,68786,1,64); (71840,71871,1,32); (93760,93791,1,32); 
   (125184,125217,1,34)]%Z.

(** Simple uppercase mapping, likewise. *)
Definition upper_ranges : list (Z * Z * Z * Z) :=
  [(181,181,1,743); (224,246,1,(-32)); (248,254,1,(-32)); (255,255,1,121); (257,303,2,(-1)); 
   (305,305,1,(-232)); (307,311,2,(-1)); (314,328,2,(-1)); (331,375,2,(-1)); (378,382,2,(-1)); 
   (383,383,1,(-300)); (384,384,1,195); (387,389,2,(-1)); (392,392,1,(-1)); (396,396,1,(-1)); 
   (402,402,1,(-1)); (405,405,1,97); (409,409,1,(-1)); (410,410,1,163); (414,414,1,130); 
   (417,421,2,(-1)); (424,424,1,(-1)); (429,429,1,(-1)); (432,432,1,(-1)); (436,438,2,(-1)); 
   (441,441,1,(-1)); (445,445,1,(-1)); (447,447,1,56); (453,453,1,(-1)); (454,454,1,(-2)); 
   (456,456,1,(-1)); (457,457,1,(-2)); (459,459,1,(-1)); (460,460,1,(-2)); (462,476,2,(-1)); 
   (477,477,1,(-79)); (479,495,2,(-1)); (498,498,1,(-1)); (499,499,1,(-2)); (501,501,1,(-1)); 
   (505,543,2,(-1)); (547,563,2,(-1)); (572,572,1,(-1)); (575,576,1,10815); (578,578,1,(-1)); 
   (583,591,2,(-1)); (592,592,1,10783); (593,593,1,10780); (594,594,1,10782); (595,595,1,(-210)); 
   (596,596,1,(-206)); (598,599,1,(-205)); (601,601,1,(-202)); (603,603,1,(-203)); 
   (604,604,1,42319); (608,608,1,(-205)); (609,609,1,42315); (611,611,1,(-207)); 
   (613,613,1,42280); (614,614,1,42308); (616,616,1,(-209)); (617,617,1,(-211)); 
   (618,618,1,42308); (619,619,1,10743); (620,620,1,42305); (623,623,1,(-211)); (625,625,1,10749); 
   (626,626,1,(-213)); (629,629,1,(-214)); (637,637,1,10727); (640,640,1,(-218)); 
   (642,642,1,42307); (643,643,1,(-218)); (647,647,1,42282); (648,648,1,(-218)); 
   (649,649,1,(-69)); (650,651,1,(-217)); (652,652,1,(-71)); (658,658,1,(-219)); 
   (669,669,1,42261); (670,670,1,42258); (837,837,1,84); (881,883,2,(-1)); (887,887,1,(-1)); 
   (891,893,1,130); (940,940,1,(-38)); (941,943,1,(-37)); (945,961,1,(-32)); (962,962,1,(-31)); 
   (963,971,1,(-32)); (972,972,1,(-64)); (973,974,1,(-63)); (976,976,1,(-62)); (977,977,1,(-57)); 
   (981,981,1,(-47)); (982,982,1,(-54)); (983,983,1,(-8)); (985,1007,2,(-1)); (1008,1008,1,(-86)); 
   (1009,1009,1,(-80)); (1010,1010,1,7); (1011,1011,1,(-116)); (1013,1013,1,(-96)); 
   (1016,1016,1,(-1)); (1019,1019,1,(-1)); (1072,1103,1,(-32)); (1104,1119,1,(-80)); 
   (1121,1153,2,(-1)); (1163,1215,2,(-1)); (1218,1230,2,(-1)); (1231,1231,1,(-15)); 
   (1233,1327,2,(-1)); (1377,1414,1,(-48)); (4304,4346,1,3008); (4349,4351,1,3008); 
   (5112,5117,1,(-8)); (7296,7296,1,(-6254)); (7297,7297,1,(-6253)); (7298,7298,1,(-6244)); 
   (7299,7300,1,(-6242)); (7301,7301,1,(-6243)); (7302,7302,1,(-6236)); (7303,7303,1,(-6181)); 
   (7304,7304,1,35266); (7545,7545,1,35332); (7549,7549,1,3814); (7566,7566,1,35384); 
   (7681,7829,2,(-1)); (7835,7835,1,(-59)); (7841,7935,2,(-1)); (7936,7943,1,8); (7952,7957,1,8); 
   (7968,7975,1,8); (7984,7991,1,8); (8000,8005,1,8); (8017,8023,2,8); (8032,8039,1,8); 
   (8048,8049,1,74); (8050,8053,1,86); (8054,8055,1,100); (8056,8057,1,128); (8058,8059,1,112); 
   (8060,8061,1,126); (8064,8071,1,8); (8080,8087,1,8); (8096,8103,1,8); (8112,8113,1,8); 
   (8115,8115,1,9); (8126,8126,1,(-7205)); (8131,8131,1,9); (8144,8145,1,8); (8160,8161,1,8); 
   (8165,8165,1,7); (8179,8179,1,9); (8526,8526,1,(-28)); (8560,8575,1,(-16)); (8580,8580,1,(-1)); 
   (9424,9449,1,(-26)); (11312,11359,1,(-48)); (11361,11361,1,(-1)); (11365,11365,1,(-10795)); 
   (11366,11366,1,(-10792)); (11368,11372,2,(-1)); (11379,11379,1,(-1)); (11382,11382,1,(-1)); 
   (11393,11491,2,(-1)); (11500,11502,2,(-1)); (11507,11507,1,(-1)); (11520,11557,1,(-7264)); 
   (11559,11559,1,(-7264)); (11565,11565,1,(-7264)); (42561,42605,2,(-1)); (42625,42651,2,(-1)); 
   (42787,42799,2,(-1)); (42803,42863,2,(-1)); (42874,42876,2,(-1)); (42879,42887,2,(-1)); 
   (42892,42892,1,(-1)); (42897,42899,2,(-1)); (42900,42900,1,48); (42903,42921,2,(-1)); 
   (42933,42947,2,(-1)); (42952,42954,2,(-1)); (42961,42961,1,(-1)); (42967,42969,2,(-1)); 
   (42998,42998,1,(-1)); (43859,43859,1,(-928)); (43888,43967,1,(-38864)); (65345,65370,1,(-32)); 
   (66600,66639,1,(-40)); (66776,66811,1,(-40)); (66967,66977,1,(-39)); (66979,66993,1,(-39)); 
   (66995,67001,1,(-39)); (67003,67004,1,(-39)); (68800,68850,1,(-64)); (71872,71903,1,(-32)); 
   (93792,93823,1,(-32)); (125218,125251,1,(-34))]%Z.

(** ** Case mapping *)

Definition in_range (r : Z) (e : Z * Z * Z * Z) : bool :=
  let '(lo, hi, st, _) := e in (lo <=? r) && (r <=? hi) && ((r - lo) mod st =? 0).

Definition map_rune (table : list (Z * Z * Z * Z)) (r : Z) : Z :=
  match List.find (in_range r) table with
  | Some (_, _, _, d) => r + d
  | None => r
  end.

Definition rune_lower (r : Z) : Z :=
  if r <? 128 then (if (65 <=? r) && (r <=? 90) then r + 32 else r)
  else map_rune lower_ranges r.

Definition rune_fold (r : Z) : Z :=
  if r <? 128 then (if (65 <=? r) && (r <=? 90) then r + 32 else r)
  else map_rune fold_ranges r.

Definition rune_upper (r : Z) : Z :=
  if r <? 128 then (if (97 <=? r) && (r <=? 122) then r - 32 else r)
  else map_rune upper_ranges r.

(** [unicode.IsSpace]. *)
Definition rune_is_space (r : Z) : bool :=
  ((9 <=? r) && (r <=? 13)) || (r =? 32) || (r =? 133) || (r =? 160) || (r =? 5760)
  || ((8192 <=? r) && (r <=? 8202)) || (r =? 8232) || (r =? 8233) || (r =? 8239)
  || (r =? 8287) || (r =? 12288).

(** [unicode.IsControl]: category Cc. *)
Definition rune_is_control (r : Z) : bool :=
  ((0 <=? r) && (r <? 32)) || ((127 <=? r) && (r <? 160)).

(** ** UTF-8 *)

(** The categories L and N of Unicode 15: first and last runes. *)
Definition letter_number_ranges : list (Z * Z) :=
  [(48,57); (65,90); (97,122); (170,170); (178,179); (181,181); (185,186); (188,190); (192,214);
   (216,246); (248,705); (710,721); (736,740); (748,748); (750,750); (880,884); (886,887);
   (890,893); (895,895); (902,902); (904,906); (908,908); (910,929); (931,1013); (1015,1153);
   (1162,1327); (1329,1366); (1369,1369); (1376,1416); (1488,1514); (1519,1522); (1568,1610);
   (1632,1641); (1646,1647); (1649,1747); (1749,1749); (1765,1766); (1774,1788); (1791,1791);
   (1808,1808); (1810,1839); (1869,1957); (1969,1969); (1984,2026); (2036,2037); (2042,2042);
   (2048,2069); (2074,2074); (2084,2084); (2088,2088); (2112,2136); (2144,2154); (2160,2183);
   (2185,2190); (2208,2249); (2308,2361); (2365,2365); (2384,2384); (2392,2401); (2406,2415);
   (2417,2432); (2437,2444); (2447,2448); (2451,2472); (2474,2480); (2482,2482); (2486,2489);
   (2493,2493); (2510,2510); (2524,2525); (2527,2529); (2534,2545); (2548,2553); (2556,2556);
   (2565,2570); (2575,2576); (2579,2600); (2602,2608); (2610,2611); (2613,2614); (2616,2617);
   (2649,2652); (2654,2654); (2662,2671); (2674,2676); (2693,2701); (2703,2705); (2707,2728);
   (2730,2736); (2738,2739); (2741,2745); (2749,2749); (2768,2768); (2784,2785); (2790,2799);
   (2809,2809); (2821,2828); (2831,2832); (2835,2856); (2858,2864); (2866,2867); (2869,2873);
   (2877,2877); (2908,2909); (2911,2913); (2918,2927); (2929,2935); (2947,2947); (2949,2954);
   (2958,2960); (2962,2965); (2969,2970); (2972,2972); (2974,2975); (2979,2980); (2984,2986);
   (2990,3001); (3024,3024); (3046,3058); (3077,3084); (3086,3088); (3090,3112); (3114,3129);
   (3133,3133); (3160,3162); (3165,3165); (3168,3169); (3174,3183); (3192,3198); (3200,3200);
   (3205,3212); (3214,3216); (3218,3240); (3242,3251); (3253,3257); (3261,3261); (3293,3294);
   (3296,3297); (3302,3311); (3313,3314); (3332,3340); (3342,3344); (3346,3386); (3389,3389);
   (3406,3406); (3412,3414); (3416,3425); (3430,3448); (3450,3455); (3461,3478); (3482,3505);
   (3507,3515); (3517,3517); (3520,3526); (3558,3567); (3585,3632); (3634,3635); (3648,3654);
   (3664,3673); (3713,3714); (3716,3716); (3718,3722); (3724,3747); (3749,3749); (3751,3760);
   (3762,3763); (3773,3773); (3776,3780); (3782,3782); (3792,3801); (3804,3807); (3840,3840);
   (3872,3891); (3904,3911); (3913,3948); (3976,3980); (4096,4138); (4159,4169); (4176,4181);
   (4186,4189); (4193,4193); (4197,4198); (4206,4208); (4213,4225); (4238,4238); (4240,4249);
   (4256,4293); (4295,4295); (4301,4301); (4304,4346); (4348,4680); (4682,4685); (4688,4694);
   (4696,4696); (4698,4701); (4704,4744); (4746,4749); (4752,4784); (4786,4789); (4792,4798);
   (4800,4800); (4802,4805); (4808,4822); (4824,4880); (4882,4885); (4888,4954); (4969,4988);
   (4992,5007); (5024,5109); (5112,5117); (5121,5740); (5743,5759); (5761,5786); (5792,5866);
   (5870,5880); (5888,5905); (5919,5937); (5952,5969); (5984,5996); (5998,6000); (6016,6067);
   (6103,6103); (6108,6108); (6112,6121); (6128,6137); (6160,6169); (6176,6264); (6272,6276);
   (6279,6312); (6314,6314); (6320,6389); (6400,6430); (6470,6509); (6512,6516); (6528,6571);
   (6576,6601); (6608,6618); (6656,6678); (6688,6740); (6784,6793); (6800,6809); (6823,6823);
   (6917,6963); (6981,6988); (6992,7001); (7043,7072); (7086,7141); (7168,7203); (7232,7241);
   (7245,7293); (7296,7304); (7312,7354); (7357,7359); (7401,7404); (7406,7411); (7413,7414);
   (7418,7418); (7424,7615); (7680,7957); (7960,7965); (7968,8005); (8008,8013); (8016,8023);
   (8025,8025); (8027,8027); (8029,8029); (8031,8061); (8064,8116); (8118,8124); (8126,8126);
   (8130,8132); (8134,8140); (8144,8147); (8150,8155); (8160,8172); (8178,8180); (8182,8188);
   (8304,8305); (8308,8313); (8319,8329); (8336,8348); (8450,8450); (8455,8455); (8458,8467);
   (8469,8469); (8473,8477); (8484,8484); (8486,8486); (8488,8488); (8490,8493); (8495,8505);
   (8508,8511); (8517,8521); (8526,8526); (8528,8585); (9312,9371); (9450,9471); (10102,10131);
   (11264,11492); (11499,11502); (11506,11507); (11517,11517); (11520,11557); (11559,11559);
   (11565,11565); (11568,11623); (11631,11631); (11648,11670); (11680,11686); (11688,11694);
   (11696,11702); (11704,11710); (11712,11718); (11720,11726); (11728,11734); (11736,11742);
   (11823,11823); (12293,12295); (12321,12329); (12337,12341); (12344,12348); (12353,12438);
   (12445,12447); (12449,12538); (12540,12543); (12549,12591); (12593,12686); (12690,12693);
   (12704,12735); (12784,12799); (12832,12841); (12872,12879); (12881,12895); (12928,12937);
   (12977,12991); (13312,19903); (19968,42124); (42192,42237); (42240,42508); (42512,42539);
   (42560,42606); (42623,42653); (42656,42735); (42775,42783); (42786,42888); (42891,42954);
   (42960,42961); (42963,42963); (42965,42969); (42994,43009); (43011,43013); (43015,43018);
   (43020,43042); (43056,43061); (43072,43123); (43138,43187); (43216,43225); (43250,43255);
   (43259,43259); (43261,43262); (43264,43301); (43312,43334); (43360,43388); (43396,43442);
   (43471,43481); (43488,43492); (43494,43518); (43520,43560); (43584,43586); (43588,43595);
   (43600,43609); (43616,43638); (43642,43642); (43646,43695); (43697,43697); (43701,43702);
   (43705,43709); (43712,43712); (43714,43714); (43739,43741); (43744,43754); (43762,43764);
   (43777,43782); (43785,43790); (43793,43798); (43808,43814); (43816,43822); (43824,43866);
   (43868,43881); (43888,44002); (44016,44025); (44032,55203); (55216,55238); (55243,55291);
   (63744,64109); (64112,64217); (64256,64262); (64275,64279); (64285,64285); (64287,64296);
   (64298,64310); (64312,64316); (64318,64318); (64320,64321); (64323,64324); (64326,64433);
   (64467,64829); (64848,64911); (64914,64967); (65008,65019); (65136,65140); (65142,65276);
   (65296,65305); (65313,65338); (65345,65370); (65382,65470); (65474,65479); (65482,65487);
   (65490,65495); (65498,65500); (65536,65547); (65549,65574); (65576,65594); (65596,65597);
   (65599,65613); (65616,65629); (65664,65786); (65799,65843); (65856,65912); (65930,65931);
   (66176,66204); (66208,66256); (66273,66299); (66304,66339); (66349,66378); (66384,66421);
   (66432,66461); (66464,66499); (66504,66511); (66513,66517); (66560,66717); (66720,66729);
   (66736,66771); (66776,66811); (66816,66855); (66864,66915); (66928,66938); (66940,66954);
   (66956,66962); (66964,66965); (66967,66977); (66979,66993); (66995,67001); (67003,67004);
   (67072,67382); (67392,67413); (67424,67431); (67456,67461); (67463,67504); (67506,67514);
   (67584,67589); (67592,67592); (67594,67637); (67639,67640); (67644,67644); (67647,67669);
   (67672,67702); (67705,67742); (67751,67759); (67808,67826); (67828,67829); (67835,67867);
   (67872,67897); (67968,68023); (68028,68047); (68050,68096); (68112,68115); (68117,68119);
   (68121,68149); (68160,68168); (68192,68222); (68224,68255); (68288,68295); (68297,68324);
   (68331,68335); (68352,68405); (68416,68437); (68440,68466); (68472,68497); (68521,68527);
   (68608,68680); (68736,68786); (68800,68850); (68858,68899); (68912,68921); (69216,69246);
   (69248,69289); (69296,69297); (69376,69415); (69424,69445); (69457,69460); (69488,69505);
   (69552,69579); (69600,69622); (69635,69687); (69714,69743); (69745,69746); (69749,69749);
   (69763,69807); (69840,69864); (69872,69881); (69891,69926); (69942,69951); (69956,69956);
   (69959,69959); (69968,70002); (70006,70006); (70019,70066); (70081,70084); (70096,70106);
   (70108,70108); (70113,70132); (70144,70161); (70163,70187); (70208,70208); (70272,70278);
   (70280,70280); (70282,70285); (70287,70301); (70303,70312); (70320,70366); (70384,70393);
   (70405,70412); (70415,70416); (70419,70440); (70442,70448); (70450,70451); (70453,70457);
   (70461,70461); (70480,70480); (70493,70497); (70656,70708); (70727,70730); (70736,70745);
   (70751,70753); (70784,70831); (70852,70853); (70855,70855); (70864,70873); (71040,71086);
   (71128,71131); (71168,71215); (71236,71236); (71248,71257); (71296,71338); (71352,71352);
   (71360,71369); (71424,71450); (71472,71483); (71488,71494); (71680,71723); (71840,71922);
   (71935,71942); (71945,71945); (71948,71955); (71957,71958); (71960,71983); (71999,71999);
   (72001,72001); (72016,72025); (72096,72103); (72106,72144); (72161,72161); (72163,72163);
   (72192,72192); (72203,72242); (72250,72250); (72272,72272); (72284,72329); (72349,72349);
   (72368,72440); (72704,72712); (72714,72750); (72768,72768); (72784,72812); (72818,72847);
   (72960,72966); (72968,72969); (72971,73008); (73030,73030); (73040,73049); (73056,73061);
   (73063,73064); (73066,73097); (73112,73112); (73120,73129); (73440,73458); (73474,73474);
   (73476,73488); (73490,73523); (73552,73561); (73648,73648); (73664,73684); (73728,74649);
   (74752,74862); (74880,75075); (77712,77808); (77824,78894); (78913,78918); (82944,83526);
   (92160,92728); (92736,92766); (92768,92777); (92784,92862); (92864,92873); (92880,92909);
   (92928,92975); (92992,92995); (93008,93017); (93019,93025); (93027,93047); (93053,93071);
   (93760,93846); (93952,94026); (94032,94032); (94099,94111); (94176,94177); (94179,94179);
   (94208,100343); (100352,101589); (101632,101640); (110576,110579); (110581,110587);
   (110589,110590); (110592,110882); (110898,110898); (110928,110930); (110933,110933);
   (110948,110951); (110960,111355); (113664,113770); (113776,113788); (113792,113800);
   (113808,113817); (119488,119507); (119520,119539); (119648,119672); (119808,119892);
   (119894,119964); (119966,119967); (119970,119970); (119973,119974); (119977,119980);
   (119982,119993); (119995,119995); (119997,120003); (120005,120069); (120071,120074);
   (120077,120084); (120086,120092); (120094,120121); (120123,120126); (120128,120132);
   (120134,120134); (120138,120144); (120146,120485); (120488,120512); (120514,120538);
   (120540,120570); (120572,120596); (120598,120628); (120630,120654); (120656,120686);
   (120688,120712); (120714,120744); (120746,120770); (120772,120779); (120782,120831);
   (122624,122654); (122661,122666); (122928,122989); (123136,123180); (123191,123197);
   (123200,123209); (123214,123214); (123536,123565); (123584,123627); (123632,123641);
   (124112,124139); (124144,124153); (124896,124902); (124904,124907); (124909,124910);
   (124912,124926); (124928,125124); (125127,125135); (125184,125251); (125259,125259);
   (125264,125273); (126065,126123); (126125,126127); (126129,126132); (126209,126253);
   (126255,126269); (126464,126467); (126469,126495); (126497,126498); (126500,126500);
   (126503,126503); (126505,126514); (126516,126519); (126521,126521); (126523,126523);
   (126530,126530); (126535,126535); (126537,126537); (126539,126539); (126541,126543);
   (126545,126546); (126548,126548); (126551,126551); (126553,126553); (126555,126555);
   (126557,126557); (126559,126559); (126561,126562); (126564,126564); (126567,126570);
   (126572,126578); (126580,126583); (126585,126588); (126590,126590); (126592,126601);
   (126603,126619); (126625,126627); (126629,126633); (126635,126651); (127232,127244);
   (130032,130041); (131072,173791); (173824,177976); (177984,178205); (178208,183969);
   (183984,191456); (194560,195101); (196608,201546); (201552,205743)].

Definition rune_is_letter_or_number (r : Z) : bool :=
  existsb (fun e => (fst e <=? r) && (r <=? snd e)) letter_number_ranges.

Definition RuneError : Z := 65533.

Definition cont (b : Z) : bool := (128 <=? b) && (b <=? 191).

(** The range the second byte must be in, by leading byte ([acceptRanges]). *)
Definition second_ok (b0 b1 : Z) : bool :=
  if b0 =? 224 then (160 <=? b1) && (b1 <=? 191)
  else if b0 =? 237 then (128 <=? b1) && (b1 <=? 159)
  else if b0 =? 240 then (144 <=? b1) && (b1 <=? 191)
  else if b0 =? 244 then (128 <=? b1) && (b1 <=? 143)
  else cont b1.

(** [bad] is what an ill-formed byte is reported as. *)
Fixpoint decode_with (bad : Z) (l : list Z) : list Z :=
  match l with
  | [] => []
  | b0 :: l1 =>
      if b0 <? 128 then b0 :: decode_with bad l1
      else match l1 with
      | [] => [bad]
      | b1 :: l2 =>
          if (194 <=? b0) && (b0 <=? 223) && cont b1
          then ((b0 - 192) * 64 + (b1 - 128)) :: decode_with bad l2
          else match l2 with
          | [] => bad :: decode_with bad l1
          | b2 :: l3 =>
              if (224 <=? b0) && (b0 <=? 239) && second_ok b0 b1 && cont b2
              then ((b0 - 224) * 4096 + (b1 - 128) * 64 + (b2 - 128)) :: decode_with bad l3
              else match l3 with
              | [] => bad :: decode_with bad l1
              | b3 :: l4 =>
                  if (240 <=? b0) && (b0 <=? 244) && second_ok b0 b1 && cont b2 && cont b3
                  then ((b0 - 240) * 262144 + (b1 - 128) * 4096 + (b2 - 128) * 64 + (b3 - 128))
                       :: decode_with bad l4
                  else bad :: decode_with bad l1
              end
          end
      end
  end.

Abbreviation decode_runes := (decode_with RuneError).

(** A Unicode scalar value: not a surrogate, at most U+10FFFF. *)
Definition valid_rune (r : Z) : bool :=
  ((0 <=? r) && (r <? 55296)) || ((57344 <=? r) && (r <=? 1114111)).

Definition encode_rune (r0 : Z) : list Z :=
  let r := if valid_rune r0 then r0 else RuneError in
  if r <? 128 then [r]
  else if r <? 2048 then [192 + r / 64; 128 + r mod 64]
  else if r <? 65536 then [224 + r / 4096; 128 + (r / 64) mod 64; 128 + r mod 64]
  else [240 + r / 262144; 128 + (r / 4096) mod 64; 128 + (r / 64) mod 64; 128 + r mod 64].

Definition encode_runes (rs : list Z) : list Z := flat_map encode_rune rs.

(** ** Laws of the case tables, by exhaustive check of their points *)

(** Points of the entry [(lo, hi, st, _)]: [lo, lo + st, ...] up to [hi]. *)
Definition range_points (e : Z * Z * Z * Z) : list Z :=
  let '(lo, hi, st, _) := e in
  map (fun k => lo + Z.of_nat k * st) (List.seq 0 (Z.to_nat ((hi - lo) / st + 1))).

Definition strides_pos (table : list (Z * Z * Z * Z)) : bool :=
  forallb (fun '(_, _, st, _) => 0 <? st) table.

Lemma in_range_points r e :
  (let '(_, _, st, _) := e in 0 < st) -> in_range r e = true -> In r (range_points e).
Proof.
  destruct e as [[[lo hi] st] d]. unfold in_range, range_points. intros Hst H.
  breflect. apply in_map_iff. exists (Z.to_nat ((r - lo) / st)).
  pose proof (Z.div_mod (r - lo) st ltac:(lia)) as Hdm.
  assert (0 <= (r - lo) / st) by (apply Z.div_pos; lia).
  assert ((r - lo) / st <= (hi - lo) / st) by (apply Z.div_le_mono; lia).
  split; [rewrite Z2Nat.id by lia; lia|].
  apply in_seq. lia.
Qed.

Lemma map_rune_cases table r :
  strides_pos table = true ->
  map_rune table r = r \/ In r (flat_map range_points table).
Proof.
  intros Hs. unfold map_rune.
  destruct (List.find _ _) as [e|] eqn:E; [right|by left].
  apply find_some in E as [Hin He]. apply in_flat_map. exists e. split; [done|].
  apply in_range_points; [|done].
  unfold strides_pos in Hs. rewrite forallb_forall in Hs. specialize (Hs e Hin).
  destruct e as [[[? ?] ?] ?]. by breflect.
Qed.

Lemma rune_lower_table_ok :
  forallb (fun r => (rune_lower (rune_lower r) =? rune_lower r) && valid_rune (rune_lower r)
                    && negb (rune_is_space (rune_lower r)))
    (flat_map range_points lower_ranges) = true.
Proof. vm_compute. reflexivity. Qed.

Lemma lower_strides : strides_pos lower_ranges = true.
Proof. vm_compute. reflexivity. Qed.

Lemma rune_lower_idem r : rune_lower (rune_lower r) = rune_lower r.
Proof.
  destruct (map_rune_cases lower_ranges r lower_strides) as [Hid|Hin].
  - unfold rune_lower at 2 3. destruct (r <? 128) eqn:E1.
    + destruct ((65 <=? r) && (r <=? 90)) eqn:E2; unfold rune_lower.
      * breflect. destruct (r + 32 <? 128) eqn:E3; breflect; [|lia].
        destruct (65 <=? r + 32) eqn:E4; destruct (r + 32 <=? 90) eqn:E5;
          simpl; breflect; lia.
      * by rewrite E1, E2.
    + rewrite Hid. unfold rune_lower. by rewrite E1, Hid.
  - pose proof rune_lower_table_ok as H. rewrite forallb_forall in H.
    specialize (H r Hin). breflect. done.
Qed.

Lemma rune_lower_valid r : valid_rune r = true -> valid_rune (rune_lower r) = true.
Proof.
  intros Hv. destruct (map_rune_cases lower_ranges r lower_strides) as [Hid|Hin].
  - unfold rune_lower. destruct (r <? 128) eqn:E1; [|by rewrite Hid].
    destruct ((65 <=? r) && (r <=? 90)) eqn:E2; [|done].
    breflect. unfold valid_rune.
    apply orb_true_iff. left. apply andb_true_iff.
    split; [apply Z.leb_le; lia | apply Z.ltb_lt; lia].
  - pose proof rune_lower_table_ok as H. rewrite forallb_forall in H.
    specialize (H r Hin). breflect. done.
Qed.

(** ** Round trip of UTF-8 *)

(** Decide the comparisons of the goal that linear arithmetic settles. *)
Ltac zdecide :=
  repeat match goal with
  | |- context [Z.ltb ?a ?b] =>
      first [ rewrite (proj2 (Z.ltb_lt a b)) by lia | rewrite (proj2 (Z.ltb_ge a b)) by lia ]
  | |- context [Z.leb ?a ?b] =>
      first [ rewrite (proj2 (Z.leb_le a b)) by lia | rewrite (proj2 (Z.leb_gt a b)) by lia ]
  end.

Lemma cont_true b : 128 <= b <= 191 -> cont b = true.
Proof. intros. unfold cont. zdecide. done. Qed.

Lemma second_ok_true b0 b1 :
  128 <= b1 <= 191 -> (b0 = 224 -> 160 <= b1) -> (b0 = 237 -> b1 <= 159) ->
  (b0 = 240 -> 144 <= b1) -> (b0 = 244 -> b1 <= 143) -> second_ok b0 b1 = true.
Proof.
  intros. unfold second_ok.
  destruct (Z.eqb_spec b0 224); [zdecide; done|].
  destruct (Z.eqb_spec b0 237); [zdecide; done|].
  destruct (Z.eqb_spec b0 240); [zdecide; done|].
  destruct (Z.eqb_spec b0 244); [zdecide; done|].
  by apply cont_true.
Qed.

Section DecodeForms.
Variables (b0 b1 b2 b3 : Z) (l : list Z).

Lemma decode_ascii : b0 < 128 -> decode_runes (b0 :: l) = b0 :: decode_runes l.
Proof. intros. cbn [decode_with]. zdecide. done. Qed.

Lemma decode_2 :
  194 <= b0 <= 223 -> cont b1 = true ->
  decode_runes (b0 :: b1 :: l) = ((b0 - 192) * 64 + (b1 - 128)) :: decode_runes l.
Proof. intros ? H1. cbn [decode_with]. rewrite H1. zdecide. done. Qed.

Lemma decode_3 :
  224 <= b0 <= 239 -> second_ok b0 b1 = true -> cont b2 = true ->
  decode_runes (b0 :: b1 :: b2 :: l) =
  ((b0 - 224) * 4096 + (b1 - 128) * 64 + (b2 - 128)) :: decode_runes l.
Proof.
  intros ? H1 H2. cbn [decode_with]. rewrite H1, H2.
  zdecide. cbn [andb]. by rewrite ?andb_false_r.
Qed.

Lemma decode_4 :
  240 <= b0 <= 244 -> second_ok b0 b1 = true -> cont b2 = true -> cont b3 = true ->
  decode_runes (b0 :: b1 :: b2 :: b3 :: l) =
  ((b0 - 240) * 262144 + (b1 - 128) * 4096 + (b2 - 128) * 64 + (b3 - 128)) :: decode_runes l.
Proof.
  intros ? H1 H2 H3. cbn [decode_with]. rewrite H1, H2, H3.
  zdecide. cbn [andb]. by rewrite ?andb_false_r.
Qed.
End DecodeForms.

Lemma decode_encode_cons r l :
  valid_rune r = true -> decode_runes (encode_rune r ++ l) = r :: decode_runes l.
Proof.
  intros Hv. unfold encode_rune. rewrite Hv.
  assert (Hr : 0 <= r < 55296 \/ 57344 <= r <= 1114111).
  { unfold valid_rune in Hv. apply orb_true_iff in Hv as [Hv|Hv]; breflect; lia. }
  pose proof (Z.div_mod r 64 ltac:(lia)). pose proof (Z.mod_pos_bound r 64 ltac:(lia)).
  pose proof (Z.div_mod (r / 64) 64 ltac:(lia)).
  pose proof (Z.mod_pos_bound (r / 64) 64 ltac:(lia)).
  pose proof (Z.div_mod (r / 4096) 64 ltac:(lia)).
  pose proof (Z.mod_pos_bound (r / 4096) 64 ltac:(lia)).
  rewrite !Z.div_div in * by lia.
  change (64 * 64) with 4096 in *. change (4096 * 64) with 262144 in *.
  generalize dependent (r / 262144). generalize dependent ((r / 4096) mod 64).
  generalize dependent ((r / 64) mod 64). generalize dependent (r mod 64).
  generalize dependent (r / 4096). generalize dependent (r / 64). intros.
  destruct (Z.ltb_spec r 128); [by apply decode_ascii|].
  destruct (Z.ltb_spec r 2048); [|destruct (Z.ltb_spec r 65536)]; cbn [app].
  - rewrite decode_2; [f_equal; lia|lia|apply cont_true; lia].
  - rewrite decode_3; [f_equal; lia|lia|apply second_ok_true; lia|apply cont_true; lia].
  - rewrite decode_4;
      [f_equal; lia|lia|apply second_ok_true; lia|apply cont_true; lia|apply cont_true; lia].
Qed.

Lemma decode_encode rs :
  forallb valid_rune rs = true -> decode_runes (encode_runes rs) = rs.
Proof.
  induction rs as [|r rs IH]; [done|]. simpl. intros H. breflect.
  rewrite decode_encode_cons by done. by rewrite IH.
Qed.


(** What decoding yields is always a scalar value. *)
Lemma decode_valid l :
  Forall (fun b => 0 <= b < 256) l -> forallb valid_rune (decode_runes l) = true.
Proof.
  remember (length l) as n eqn:Hn. revert l Hn.
  induction n as [n IH] using lt_wf_ind. intros l -> Hl.
  assert (Hrec : forall k, (length k < length l)%nat -> Forall (fun b => 0 <= b < 256) k ->
                           forallb valid_rune (decode_runes k) = true).
  { intros k Hk Hb. by eapply IH. }
  clear IH. destruct l as [|b0 l1]; [done|].
  apply Forall_cons_1 in Hl as [H0 Hl1]. cbn [decode_with].
  destruct (b0 <? 128) eqn:E0.
  { cbn [forallb]. rewrite Hrec by (simpl; auto with lia). breflect.
    unfold valid_rune. zdecide. done. }
  assert (Herr : forallb valid_rune (RuneError :: decode_runes l1) = true).
  { cbn [forallb]. rewrite Hrec by (simpl; auto with lia). done. }
  destruct l1 as [|b1 l2]; [done|]. apply Forall_cons_1 in Hl1 as [H1 Hl2].
  destruct (_ && cont b1) eqn:E1.
  { cbn [forallb]. rewrite Hrec by (simpl; auto with lia). unfold cont in *. breflect.
    unfold valid_rune. zdecide. done. }
  destruct l2 as [|b2 l3]; [done|]. apply Forall_cons_1 in Hl2 as [H2 Hl3].
  destruct (_ && cont b2) eqn:E2.
  { cbn [forallb]. rewrite Hrec by (simpl; auto with lia). unfold cont in *. breflect.
    assert (b0 = 237 -> b1 <= 159).
    { intros ->. unfold second_ok in *. simpl in *. by breflect. }
    assert (128 <= b1 <= 191).
    { unfold second_ok, cont in *. repeat case_match; breflect; lia. }
    apply andb_true_iff; split; [|done]. unfold valid_rune.
    apply orb_true_iff. destruct (Z.eq_dec b0 237); [left|].
    { zdecide. done. }
    destruct (Z.ltb_spec b0 237); [left|right]; zdecide; done. }
  destruct l3 as [|b3 l4]; [done|]. apply Forall_cons_1 in Hl3 as [H3 Hl4].
  destruct (_ && cont b3) eqn:E3; [|done].
  cbn [forallb]. rewrite Hrec by (simpl; auto with lia). unfold cont in *. breflect.
  assert (b0 = 240 -> 144 <= b1).
  { intros ->. unfold second_ok in *. simpl in *. by breflect. }
  assert (b0 = 244 -> b1 <= 143).
  { intros ->. unfold second_ok in *. simpl in *. by breflect. }
  assert (128 <= b1 <= 191).
  { unfold second_ok, cont in *. repeat case_match; breflect; lia. }
  apply andb_true_iff; split; [|done]. unfold valid_rune.
  apply orb_true_iff. right. zdecide. done.
Qed.
