(* ===== verification/GoStrings.v ===== *)
(** * GoStrings: the functions of Go's [strings] package the program calls

    A Go string is a byte string, here Rocq's [string].  Functions that look
    at runes go through the UTF-8 decoder of [Unicode]; on pure ASCII text
    [ToLower] works bytewise, as Go's does. *)

From S2P Require Import Prelude Unicode.
Local Open Scope Z_scope.

(** ** Bytes *)

Definition byte_of (a : Ascii.ascii) : Z := Z.of_N (Ascii.N_of_ascii a).
Definition ascii_of (b : Z) : Ascii.ascii := Ascii.ascii_of_N (Z.to_N b).

Definition bytes (s : string) : list Z := map byte_of (String.list_ascii_of_string s).
Definition of_bytes (l : list Z) : string := String.string_of_list_ascii (map ascii_of l).

(** [len(s)], the number of bytes. *)
Definition go_len (s : string) : Z := Z.of_nat (String.length s).

Definition runes (s : string) : list Z := decode_runes (bytes s).
Definition of_runes (rs : list Z) : string := of_bytes (encode_runes rs).

Definition is_ascii (l : list Z) : bool := forallb (fun b => b <? 128) l.

(** ** Case *)

Definition map_runes (f : Z -> Z) (s : string) : string :=
  if is_ascii (bytes s) then of_bytes (map f (bytes s)) else of_runes (map f (runes s)).

Definition ToLower (s : string) : string := map_runes rune_lower s.
Definition ToUpper (s : string) : string := map_runes rune_upper s.

Definition EqualFold (s t : string) : bool :=
  bool_decide (map rune_fold (runes s) = map rune_fold (runes t)).

(** ** White space *)

Definition space2 (b c : Z) : bool := (b =? 194) && ((c =? 133) || (c =? 160)).

Definition space3 (b c d : Z) : bool :=
  ((b =? 225) && (c =? 154) && (d =? 128))
  || ((b =? 226) && (c =? 128)
      && (((128 <=? d) && (d <=? 138)) || (d =? 168) || (d =? 169) || (d =? 175)))
  || ((b =? 226) && (c =? 129) && (d =? 159))
  || ((b =? 227) && (c =? 128) && (d =? 128)).

(** One space at the front, [s2] and [s3] recognising its longer encodings. *)
Fixpoint trim_front (s2 : Z -> Z -> bool) (s3 : Z -> Z -> Z -> bool) (l : list Z) : list Z :=
  match l with
  | [] => []
  | b :: l1 =>
      if (b <? 128) && rune_is_space b then trim_front s2 s3 l1
      else match l1 with
      | [] => l
      | c :: l2 =>
          if s2 b c then trim_front s2 s3 l2
          else match l2 with
          | [] => l
          | d :: l3 => if s3 b c d then trim_front s2 s3 l3 else l
          end
      end
  end.

Definition trim_left (l : list Z) : list Z := trim_front space2 space3 l.
Definition trim_right (l : list Z) : list Z :=
  rev (trim_front (fun b c => space2 c b) (fun b c d => space3 d c b) (rev l)).

Definition TrimSpace (s : string) : string := of_bytes (trim_right (trim_left (bytes s))).

(** [strings.ToLower(strings.TrimSpace(s))], the program's usual normal form. *)
Definition fold_trim (s : string) : string := ToLower (TrimSpace s).

(** ** Searching and cutting *)

Definition HasPrefix (s p : string) : bool := String.prefix p s.

Definition HasSuffix (s x : string) : bool :=
  (go_len x <=? go_len s)
  && String.eqb (String.substring (String.length s - String.length x) (String.length x) s) x.

Definition TrimPrefix (s p : string) : string :=
  if HasPrefix s p
  then String.substring (String.length p) (String.length s - String.length p) s else s.

Definition TrimSuffix (s x : string) : string :=
  if HasSuffix s x then String.substring 0 (String.length s - String.length x) s else s.

(** [strings.Index]: [None] is Go's [-1]. *)
Definition Index (s sub : string) : option nat := String.index 0 sub s.
Definition Contains (s sub : string) : bool := bool_decide (is_Some (Index s sub)).

Definition Join (sep : string) (l : list string) : string := String.concat sep l.

(** [strings.Split] on a one-byte separator. *)
Fixpoint split_ascii (sep : Ascii.ascii) (l : list Ascii.ascii) : list (list Ascii.ascii) :=
  match l with
  | [] => [[]]
  | a :: l' =>
      if Ascii.eqb a sep then [] :: split_ascii sep l'
      else match split_ascii sep l' with
           | [] => [[a]]
           | w :: ws => (a :: w) :: ws
           end
  end.

Definition Split (s : string) (sep : Ascii.ascii) : list string :=
  map String.string_of_list_ascii (split_ascii sep (String.list_ascii_of_string s)).

(** [strings.ReplaceAll] of one byte by another. *)
Definition ReplaceByte (s : string) (x y : Ascii.ascii) : string :=
  String.string_of_list_ascii
    (map (fun a => if Ascii.eqb a x then y else a) (String.list_ascii_of_string s)).

(** ** Laws *)

Lemma ascii_of_byte_of a : ascii_of (byte_of a) = a.
Proof. unfold ascii_of, byte_of. by rewrite N2Z.id, Ascii.ascii_N_embedding. Qed.

Lemma byte_of_range a : 0 <= byte_of a < 256.
Proof. unfold byte_of. pose proof (Ascii.N_ascii_bounded a). lia. Qed.

Lemma byte_of_ascii_of b : 0 <= b < 256 -> byte_of (ascii_of b) = b.
Proof. intros. unfold ascii_of, byte_of. rewrite Ascii.N_ascii_embedding; lia. Qed.

Definition is_bytes (l : list Z) : Prop := Forall (fun b => 0 <= b < 256) l.

Lemma bytes_is_bytes s : is_bytes (bytes s).
Proof.
  unfold bytes. induction (String.list_ascii_of_string s); simpl; constructor.
  - apply byte_of_range.
  - done.
Qed.

Lemma bytes_of_bytes l : is_bytes l -> bytes (of_bytes l) = l.
Proof.
  intros H. unfold bytes, of_bytes. rewrite String.list_ascii_of_string_of_list_ascii.
  induction H; simpl; [done|]. by rewrite byte_of_ascii_of, IHForall.
Qed.

Lemma of_bytes_bytes s : of_bytes (bytes s) = s.
Proof.
  unfold bytes, of_bytes. rewrite map_map.
  rewrite (map_ext _ id ascii_of_byte_of), map_id.
  apply String.string_of_list_ascii_of_string.
Qed.

Lemma encode_rune_bytes r : is_bytes (encode_rune r).
Proof.
  unfold encode_rune. set (r' := if valid_rune r then r else RuneError).
  assert (0 <= r' <= 1114111).
  { subst r'. destruct (valid_rune r) eqn:E; [|unfold RuneError; lia].
    unfold valid_rune in E. apply orb_true_iff in E as [E|E]; breflect; lia. }
  clearbody r'. unfold is_bytes.
  pose proof (Z.mod_pos_bound r' 64 ltac:(lia)).
  pose proof (Z.mod_pos_bound (r' / 64) 64 ltac:(lia)).
  pose proof (Z.mod_pos_bound (r' / 4096) 64 ltac:(lia)).
  destruct (Z.ltb_spec r' 128); [repeat constructor; lia|].
  destruct (Z.ltb_spec r' 2048).
  { assert (0 <= r' / 64 < 32)
      by (split; [apply Z.div_pos|apply Z.div_lt_upper_bound]; lia).
    repeat constructor; lia. }
  destruct (Z.ltb_spec r' 65536).
  { assert (0 <= r' / 4096 < 16)
      by (split; [apply Z.div_pos|apply Z.div_lt_upper_bound]; lia).
    repeat constructor; lia. }
  assert (0 <= r' / 262144 < 8)
    by (split; [apply Z.div_pos|apply Z.div_lt_upper_bound]; lia).
  repeat constructor; lia.
Qed.

Lemma encode_runes_bytes rs : is_bytes (encode_runes rs).
Proof.
  induction rs; simpl; [constructor|]. apply Forall_app_2; [apply encode_rune_bytes|done].
Qed.

Lemma decode_is_ascii l :
  is_ascii l = true -> is_bytes l -> decode_runes l = l /\ encode_runes l = l.
Proof.
  unfold is_ascii. induction l as [|b l IH]; simpl; [done|].
  intros H Hb. breflect. apply Forall_cons_1 in Hb as [Hb Hl].
  destruct IH as [IH1 IH2]; [done|done|]. zdecide.
  split; [by rewrite IH1|]. unfold encode_rune, valid_rune. zdecide. simpl.
  zdecide. simpl. by rewrite IH2.
Qed.

(** Lowering is the same function through runes and, on ASCII, through bytes. *)
Lemma ToLower_runes s : ToLower s = of_runes (map rune_lower (runes s)).
Proof.
  unfold ToLower, map_runes. destruct (is_ascii (bytes s)) eqn:E; [|done].
  unfold of_runes, runes.
  destruct (decode_is_ascii _ E (bytes_is_bytes s)) as [-> _].
  assert (is_ascii (map rune_lower (bytes s)) = true /\ is_bytes (map rune_lower (bytes s)))
    as [Ha Hb].
  { pose proof (bytes_is_bytes s) as Hs. revert Hs E. unfold is_ascii.
    induction (bytes s) as [|b l IH]; simpl; [repeat constructor|].
    intros Hs H. breflect. apply Forall_cons_1 in Hs as [Hb Hl].
    destruct IH as [IH1 IH2]; [done|done|].
    assert (0 <= rune_lower b < 128).
    { unfold rune_lower. zdecide. destruct (_ && _) eqn:E; breflect; lia. }
    zdecide. split; [done|]. constructor; [lia|done]. }
  by destruct (decode_is_ascii _ Ha Hb) as [_ ->].
Qed.

Lemma runes_of_runes rs : forallb valid_rune rs = true -> runes (of_runes rs) = rs.
Proof.
  intros H. unfold runes, of_runes.
  rewrite bytes_of_bytes by apply encode_runes_bytes. by apply decode_encode.
Qed.

Lemma runes_ToLower s : runes (ToLower s) = map rune_lower (runes s).
Proof.
  rewrite ToLower_runes. apply runes_of_runes.
  pose proof (decode_valid _ (bytes_is_bytes s)) as H. fold (runes s) in H.
  induction (runes s) as [|r rs IH]; simpl in *; [done|]. breflect.
  rewrite rune_lower_valid by done. simpl. by apply IH.
Qed.

Lemma ToLower_idem s : ToLower (ToLower s) = ToLower s.
Proof.
  rewrite (ToLower_runes (ToLower s)), runes_ToLower, ToLower_runes.
  f_equal. rewrite map_map. apply map_ext. apply rune_lower_idem.
Qed.

(** *** Trimming *)

Section Trim.
Variables (s2 : Z -> Z -> bool) (s3 : Z -> Z -> Z -> bool).

Lemma trim_front_idem l : trim_front s2 s3 (trim_front s2 s3 l) = trim_front s2 s3 l.
Proof.
  remember (length l) as n eqn:Hn. revert l Hn.
  induction n as [n IH] using lt_wf_ind. intros l ->.
  assert (Hrec : forall k, (length k < length l)%nat ->
            trim_front s2 s3 (trim_front s2 s3 k) = trim_front s2 s3 k).
  { intros k Hk. by eapply IH. }
  clear IH. destruct l as [|b l1]; [done|]. cbn [trim_front].
  destruct ((b <? 128) && rune_is_space b) eqn:E1; [apply Hrec; simpl; lia|].
  destruct l1 as [|c l2]; [cbn [trim_front]; by rewrite E1|].
  destruct (s2 b c) eqn:E2; [apply Hrec; simpl; lia|].
  destruct l2 as [|d l3]; [cbn [trim_front]; by rewrite E1, E2|].
  destruct (s3 b c d) eqn:E3; [apply Hrec; simpl; lia|].
  cbn [trim_front]. by rewrite E1, E2, E3.
Qed.

Lemma trim_front_suffix l : exists k, l = k ++ trim_front s2 s3 l.
Proof.
  remember (length l) as n eqn:Hn. revert l Hn.
  induction n as [n IH] using lt_wf_ind. intros l ->.
  destruct l as [|b l1]; [by exists []|]. cbn [trim_front].
  destruct ((b <? 128) && rune_is_space b).
  { destruct (IH (length l1)) with (l := l1) as [k Hk]; [simpl; lia|done|].
    exists (b :: k). simpl. by rewrite <- Hk. }
  destruct l1 as [|c l2]; [by exists []|].
  destruct (s2 b c).
  { destruct (IH (length l2)) with (l := l2) as [k Hk]; [simpl; lia|done|].
    exists (b :: c :: k). simpl. by rewrite <- Hk. }
  destruct l2 as [|d l3]; [by exists []|].
  destruct (s3 b c d); [|by exists []].
  destruct (IH (length l3)) with (l := l3) as [k Hk]; [simpl; lia|done|].
  exists (b :: c :: d :: k). simpl. by rewrite <- Hk.
Qed.

(** A prefix of a trimmed text is trimmed. *)
Lemma trim_front_prefix p q :
  trim_front s2 s3 (p ++ q) = p ++ q -> trim_front s2 s3 p = p.
Proof.
  intros H.
  assert (Hlen : forall k, (length (trim_front s2 s3 k) <= length k)%nat).
  { intros k. destruct (trim_front_suffix k) as [x Hx].
    rewrite Hx at 2. rewrite length_app. lia. }
  destruct p as [|b p]; [done|]. cbn [app trim_front] in *.
  destruct ((b <? 128) && rune_is_space b) eqn:E1.
  { specialize (Hlen (p ++ q)). rewrite H in Hlen. simpl in Hlen. lia. }
  destruct p as [|c p]; [done|]. cbn [app] in *.
  destruct (s2 b c) eqn:E2.
  { specialize (Hlen (p ++ q)). rewrite H in Hlen. simpl in Hlen. lia. }
  destruct p as [|d p]; [done|]. cbn [app] in *.
  destruct (s3 b c d) eqn:E3; [|done].
  specialize (Hlen (p ++ q)). rewrite H in Hlen. simpl in Hlen. lia.
Qed.
End Trim.

Lemma trim_right_prefix l : exists q, l = trim_right l ++ q.
Proof.
  unfold trim_right.
  destruct (trim_front_suffix (fun b c => space2 c b) (fun b c d => space3 d c b) (rev l))
    as [k Hk].
  exists (rev k). rewrite <- rev_app_distr, <- Hk. by rewrite rev_involutive.
Qed.

Lemma trim_is_bytes l : is_bytes l -> is_bytes (trim_right (trim_left l)).
Proof.
  intros H. destruct (trim_front_suffix space2 space3 l) as [k Hk].
  destruct (trim_right_prefix (trim_left l)) as [q Hq].
  unfold is_bytes in *. rewrite Hk in H. apply Forall_app in H as [_ H].
  fold (trim_left l) in H. rewrite Hq in H. by apply Forall_app in H as [H _].
Qed.

Lemma bytes_TrimSpace s : bytes (TrimSpace s) = trim_right (trim_left (bytes s)).
Proof. apply bytes_of_bytes, trim_is_bytes, bytes_is_bytes. Qed.

Lemma TrimSpace_idem s : TrimSpace (TrimSpace s) = TrimSpace s.
Proof.
  unfold TrimSpace at 1. rewrite bytes_TrimSpace. unfold TrimSpace. f_equal.
  set (l := trim_left (bytes s)).
  assert (Hl : trim_left (trim_right l) = trim_right l).
  { destruct (trim_right_prefix l) as [q Hq].
    apply (trim_front_prefix _ _ _ q). rewrite <- Hq. apply trim_front_idem. }
  rewrite Hl. unfold trim_right. by rewrite rev_involutive, trim_front_idem.
Qed.

Lemma TrimSpace_empty : TrimSpace "" = "".
Proof. done. Qed.

Lemma ToLower_empty_iff s : ToLower s = "" -> s = "".
Proof.
  intros H. assert (Hr : runes (ToLower s) = []) by (by rewrite H).
  rewrite runes_ToLower in Hr. apply map_eq_nil in Hr. unfold runes in Hr.
  rewrite <- (of_bytes_bytes s). destruct (bytes s) as [|b l]; [done|].
  cbn [decode_with] in Hr. repeat (case_match; try done).
Qed.

#[export] Hint Rewrite ToLower_idem TrimSpace_idem : despatch.
