(* ===== verification/Effects.v ===== *)
(** * Effects: Go errors, the outside world and the monad of the handlers

    A handler of the program runs against a [World]: the SQLite database, a
    schedule of driver faults, and counters into the oracles of [Env] that
    stand for the clock, the random sources and the services outside the
    process.  [M A] is the state-and-error monad the store and service layers
    are written in; a Go function returning [(T, error)] is an [M T]. *)

From S2P Require Import Prelude GoStrings.

(** ** Errors *)

(** The numbers of system calls. *)
Inductive Errno : Type :=
| ENOENT | EEXIST | ENOTDIR | EISDIR | ENOTEMPTY | EINVAL | EXDEV | EROFS | EPERM | EACCES
| ELOOP | ENOSPC | EIO.

#[export] Instance Errno_eq_dec : EqDecision Errno.
Proof. solve_decision. Defined.

Definition errno_text (e : Errno) : string :=
  match e with
  | ENOENT => "no such file or directory"
  | EEXIST => "file exists"
  | ENOTDIR => "not a directory"
  | EISDIR => "is a directory"
  | ENOTEMPTY => "directory not empty"
  | EINVAL => "invalid argument"
  | EXDEV => "invalid cross-device link"
  | EROFS => "read-only file system"
  | EPERM => "operation not permitted"
  | EACCES => "permission denied"
  | ELOOP => "too many levels of symbolic links"
  | ENOSPC => "no space left on device"
  | EIO => "input/output error"
  end.

(** The sentinel errors of internal/store, internal/service, internal/mail and
    internal/update, the typed error of PAM verification, and the errors built on
    the spot. *)
Inductive GoErr : Type :=
| ErrNotFound | ErrConflict | ErrUserStateConflict
| ErrInvalidCredentials | ErrPendingApproval | ErrSuspended | ErrForbidden
| ErrPAMVerifierDown
| ErrPasswordResetUnavailable | ErrPasswordResetDelivery
| ErrPasswordResetHelperDown | ErrPasswordResetHelperFailed
| ErrInvalidRecoveryEmail | ErrRecoveryEmailRequired | ErrRecoveryEmailMatchesLogin
| ErrRecoveryEmailMFAUnavailable | ErrRecoveryEmailMFADelivery
| ErrFeatureFlagNotFound | ErrFeatureFlagReadOnly
| ErrSMTPSenderRejected | ErrSMTPAuthFailed
| ErrHelperUnavailable | ErrHelperRejected
| ErrUpdaterNotConfigured | ErrUpdateInProgress | ErrInvalidTargetVersion | ErrUpdateRequestFailed
| PAMCredentialsInvalidError (attempts : list string)
| ErrOS (what : string) (e : Errno)   (* an *os.PathError, *os.LinkError or the like *)
| ErrPayload (msg : string)  (* a syntax or type error of encoding/json, or io.EOF *)
| ErrConstraint            (* a UNIQUE or PRIMARY KEY violation *)
| ErrDriver                (* any other failure of the database driver *)
| ErrText (msg : string)   (* errors.New, or fmt.Errorf without %w *)
| ErrWrap (e : GoErr) (msg : string).  (* fmt.Errorf("%w: %v", e, ...) *)

#[export] Instance GoErr_eq_dec : EqDecision GoErr.
Proof. solve_decision. Defined.

(** [err.Error()]. *)
Fixpoint err_text (e : GoErr) : string :=
  match e with
  | ErrNotFound => "not found"
  | ErrConflict => "conflict"
  | ErrUserStateConflict => "registration user state conflict"
  | ErrInvalidCredentials => "invalid credentials"
  | ErrPendingApproval => "pending approval"
  | ErrSuspended => "account suspended"
  | ErrForbidden => "forbidden"
  | ErrPAMVerifierDown => "cannot reach Dovecot IMAP for PAM verification"
  | ErrPasswordResetUnavailable => "password reset is currently unavailable"
  | ErrPasswordResetDelivery => "password_reset_delivery_failed"
  | ErrPasswordResetHelperDown => "password_reset_helper_unavailable"
  | ErrPasswordResetHelperFailed => "password_reset_helper_failed"
  | ErrInvalidRecoveryEmail => "invalid recovery email"
  | ErrRecoveryEmailRequired => "recovery email is required"
  | ErrRecoveryEmailMatchesLogin => "recovery email must differ from login email"
  | ErrRecoveryEmailMFAUnavailable => "recovery email verification is currently unavailable"
  | ErrRecoveryEmailMFADelivery => "recovery_email_mfa_delivery_failed"
  | ErrFeatureFlagNotFound => "feature_flag_not_found"
  | ErrFeatureFlagReadOnly => "feature_flag_read_only"
  | ErrSMTPSenderRejected => "smtp sender rejected by policy"
  | ErrSMTPAuthFailed => "smtp auth failed"
  | ErrHelperUnavailable => "pam reset helper unavailable"
  | ErrHelperRejected => "pam reset helper rejected request"
  | PAMCredentialsInvalidError attempts =>
      match attempts with
      | [] => "admin credentials are not valid for Dovecot/PAM"
      | _ => "admin credentials are not valid for Dovecot/PAM (attempted logins: "
             +:+ Join ", " attempts +:+ ")"
      end
  | ErrUpdaterNotConfigured => "updater is not configured on this host"
  | ErrUpdateInProgress => "an update is already in progress"
  | ErrInvalidTargetVersion => "invalid target version"
  | ErrUpdateRequestFailed => "failed to queue update request"
  | ErrOS what e => what +:+ ": " +:+ errno_text e
  | ErrPayload msg => msg
  | ErrConstraint => "constraint failed: UNIQUE constraint failed"
  | ErrDriver => "driver error"
  | ErrText msg => msg
  | ErrWrap e' msg => err_text e' +:+ ": " +:+ msg
  end.

(** [errors.Is(e, target)]. *)
Fixpoint errors_Is (e target : GoErr) : bool :=
  bool_decide (e = target)
  || match e with ErrWrap e' _ => errors_Is e' target | _ => false end.

Inductive Res (A : Type) : Type :=
| Ok (a : A)
| Fail (e : GoErr).
Arguments Ok {A} a.
Arguments Fail {A} e.

Definition is_ok {A} (r : Res A) : bool := match r with Ok _ => true | Fail _ => false end.

#[export] Instance Res_eq_dec {A} `{EqDecision A} : EqDecision (Res A).
Proof. solve_decision. Defined.

(** ** What happens outside the process *)

(** Calls that leave the process through one of the service's interfaces, in
    the order they are made. *)
Inductive Effect : Type :=
| ProvisionUpsert (email passwordHash : string)   (* mail.AuthProvisioner *)
| ProvisionDisable (email : string)
| IMAPListMailboxes (login password : string)     (* mail.Client *)
| PAMReset (login newPassword : string)           (* pamPasswordResetter *)
| HelperReset (login newPassword : string)        (* pamreset.Client *)
| SendReset (to_email token : string)             (* notify.Sender *)
| SendCode (to_email code : string)
| ProbeSender.

#[export] Instance Effect_eq_dec : EqDecision Effect.
Proof. solve_decision. Defined.

(** Durations and instants are in nanoseconds. *)
Definition Second : Z := 1000000000.
Definition Minute : Z := 60 * Second.
Definition Hour : Z := 60 * Minute.

(** ** The monad *)

Section Monad.
Context {DB : Type}.

Record World : Type := mkWorld {
  w_db : DB;
  w_faults : list bool;    (* whether each coming statement fails in the driver *)
  w_tick : nat;            (* readings of the clock so far *)
  w_fresh : nat;           (* UUIDs and random strings drawn so far *)
  w_trace : list Effect    (* calls that left the process, oldest first *)
}.

Definition M (A : Type) : Type := World -> Res A * World.

Definition ret {A} (a : A) : M A := fun w => (Ok a, w).
Definition throw {A} (e : GoErr) : M A := fun w => (Fail e, w).

Definition bind {A B} (m : M A) (k : A -> M B) : M B := fun w =>
  match m w with
  | (Ok a, w') => k a w'
  | (Fail e, w') => (Fail e, w')
  end.

(** [v, err := m]: the caller looks at the error itself. *)
Definition attempt {A} (m : M A) : M (Res A) := fun w =>
  let (r, w') := m w in (Ok r, w').

(** [_ = m]. *)
Definition ignore {A} (m : M A) : M unit := bind (attempt m) (fun _ => ret tt).

Definition of_res {A} (r : Res A) : M A := fun w => (r, w).

Definition when (b : bool) (m : M unit) : M unit := if b then m else ret tt.

(** One SQL statement: it fails in the driver if the schedule says so, and
    otherwise yields a result and the new database, or fails leaving the
    database as it was. *)
Definition statement {A} (f : DB -> Res (A * DB)) : M A := fun w =>
  let '(mkWorld d fs t u tr) := w in
  let fault := match fs with [] => false | b :: _ => b end in
  if fault then (Fail ErrDriver, mkWorld d (tail fs) t u tr)
  else match f d with
       | Ok (a, d') => (Ok a, mkWorld d' (tail fs) t u tr)
       | Fail e => (Fail e, mkWorld d (tail fs) t u tr)
       end.

Definition query {A} (f : DB -> Res A) : M A :=
  statement (fun d => match f d with Ok a => Ok (a, d) | Fail e => Fail e end).

Definition exec (f : DB -> DB) : M unit := statement (fun d => Ok (tt, f d)).

(** [BeginTx], the body, [Commit]; an error of any of them rolls back. *)
Definition transaction {A} (m : M A) : M A := fun w =>
  match bind (query (fun _ => Ok tt)) (fun _ => bind m (fun a =>
        bind (query (fun _ => Ok tt)) (fun _ => ret a))) w with
  | (Ok a, w') => (Ok a, w')
  | (Fail e, mkWorld _ fs t u tr) => (Fail e, mkWorld (w_db w) fs t u tr)
  end.
End Monad.
Arguments World DB : clear implicits.
Arguments M DB A : clear implicits.

Notation "'let!' x := m 'in' k" := (bind m (fun x => k))
  (at level 10, x pattern, m at level 100, k at level 200) : despatch_scope.
Notation "'do!' m 'in' k" := (bind m (fun _ => k))
  (at level 10, m at level 100, k at level 200) : despatch_scope.

#[export] Instance eta_World {DB} : Eta (World DB) := fun w =>
  mkWorld (w_db w) (w_faults w) (w_tick w) (w_fresh w) (w_trace w).

(** ** Oracles *)

(** What the process reads from its surroundings: the clock, [uuid.NewString],
    crypto/rand, and the replies of the services it calls (by position in the
    trace).  Every theorem holds for all of them. *)
Class Env : Type := {
  env_now : nat -> Z;
  env_uuid : nat -> string;
  env_rand : nat -> Res string;
  env_reply : nat -> Effect -> option GoErr
}.

Section Oracles.
Context {DB : Type} {env : Env}.

(** [time.Now().UTC()]. *)
Definition time_Now : M DB Z := fun w =>
  (Ok (env_now (w_tick w)), w <| w_tick := S (w_tick w) |>).

Definition uuid_NewString : M DB string := fun w =>
  (Ok (env_uuid (w_fresh w)), w <| w_fresh := S (w_fresh w) |>).

(** Bytes of crypto/rand, which may fail. *)
Definition rand_Read : M DB string := fun w =>
  (env_rand (w_fresh w), w <| w_fresh := S (w_fresh w) |>).

Definition call (e : Effect) : M DB unit := fun w =>
  (match env_reply (length (w_trace w)) e with None => Ok tt | Some err => Fail err end,
   w <| w_trace := w_trace w ++ [e] |>).
End Oracles.

Lemma rtc_collapse {A} (R : A -> A -> Prop) `{!PreOrder R} a b : rtc R a b -> R a b.
Proof. induction 1; [done|by etrans]. Qed.

(** ** Reasoning about handlers

    [spec step k D m Q]: whatever statements fail and whatever the oracles
    answer, running [m] in a world that has drawn at least [k] random values
    and whose database satisfies [D] takes the database along [step]s; if [m]
    succeeds with [a], then [Q a] holds of the database it leaves.  [step] is
    a transition relation on databases: [spec] says that a handler refines it. *)
Definition spec {DB A} (step : DB -> DB -> Prop) (k : nat) (D : DB -> Prop) (m : M DB A)
    (Q : A -> DB -> Prop) : Prop :=
  forall w, (k <= w_fresh w)%nat -> D (w_db w) ->
    (k <= w_fresh (snd (m w)))%nat
    /\ rtc step (w_db w) (w_db (snd (m w)))
    /\ match fst (m w) with Ok a => Q a (w_db (snd (m w))) | Fail _ => True end.

Definition any {A DB} (a : A) (d : DB) : Prop := True.
Definition anydb {DB} (d : DB) : Prop := True.

Section Spec.
Context {DB : Type} (step : DB -> DB -> Prop) (k : nat).
Context {env : Env}.

(** Actions that leave the database alone. *)
Lemma spec_pure {A} (D : DB -> Prop) (m : M DB A) :
  (forall w, w_db (snd (m w)) = w_db w /\ (w_fresh w <= w_fresh (snd (m w)))%nat) ->
  spec step k D m (fun _ d => D d).
Proof.
  intros H w Hk HD. destruct (H w) as [Hdb Hf]. rewrite Hdb.
  split_and!; [lia|done|by destruct (fst (m w))].
Qed.

Lemma spec_weaken {A} D D' (m : M DB A) Q Q' :
  spec step k D m Q -> (forall d, D' d -> D d) -> (forall a d, Q a d -> Q' a d) ->
  spec step k D' m Q'.
Proof.
  intros Hm HD HQ w Hk Hw. destruct (Hm w Hk (HD _ Hw)) as (? & ? & Hpost).
  split_and!; [done|done|]. destruct (fst (m w)); auto.
Qed.

(** The precondition may be dropped for a handler that refines [step] anyway. *)
Lemma spec_any {A} D (m : M DB A) Q : spec step k anydb m Q -> spec step k D m any.
Proof. intros Hm. eapply spec_weaken; [exact Hm|done|done]. Qed.

Lemma spec_ret {A} D (a : A) (Q : A -> DB -> Prop) :
  (forall d, D d -> Q a d) -> spec step k D (ret a) Q.
Proof. intros H w Hk HD. simpl. split_and!; [done|done|by apply H]. Qed.

Lemma spec_throw {A} D e (Q : A -> DB -> Prop) : spec step k D (throw e) Q.
Proof. intros w Hk HD. simpl. by split_and!. Qed.

Lemma spec_of_res {A} D (r : Res A) (Q : A -> DB -> Prop) :
  (forall a d, r = Ok a -> D d -> Q a d) -> spec step k D (of_res r) Q.
Proof.
  intros H w Hk HD. simpl. split_and!; [done|done|]. destruct r; [by apply H|done].
Qed.

Lemma spec_bind {A B} D (m : M DB A) (f : A -> M DB B) Q R :
  spec step k D m Q -> (forall a, spec step k (Q a) (f a) R) ->
  spec step k D (bind m f) R.
Proof.
  intros Hm Hf w Hk HD. unfold bind.
  destruct (Hm w Hk HD) as (Hk' & Hs & Hpost).
  destruct (m w) as [[a|e] w']; simpl in *; [|by split_and!].
  destruct (Hf a w' Hk' Hpost) as (? & ? & ?).
  split_and!; [done|by etrans|done].
Qed.

(** A step of the handler about which nothing need be remembered. *)
Lemma spec_seq {A B} D (m : M DB A) (f : A -> M DB B) R :
  spec step k anydb m any -> (forall a, spec step k anydb (f a) R) ->
  spec step k D (bind m f) R.
Proof.
  intros Hm Hf. eapply (spec_bind _ _ _ (fun _ => anydb)); [|exact Hf].
  eapply spec_weaken; [exact Hm|done|done].
Qed.

Lemma spec_attempt {A} D (m : M DB A) Q :
  spec step k D m Q ->
  spec step k D (attempt m) (fun r d => match r with Ok a => Q a d | Fail _ => True end).
Proof.
  intros Hm w Hk HD. unfold attempt. destruct (Hm w Hk HD) as (? & ? & ?).
  by destruct (m w) as [[a|e] w'].
Qed.

Lemma spec_attempt_any {A} D (m : M DB A) :
  spec step k anydb m any -> spec step k D (attempt m) any.
Proof.
  intros Hm. eapply spec_weaken; [by apply spec_attempt|done|done].
Qed.

Lemma spec_ignore {A} D (m : M DB A) :
  spec step k anydb m any -> spec step k D (ignore m) any.
Proof.
  intros Hm. apply spec_seq; [by apply spec_attempt_any|]. intros r. by apply spec_ret.
Qed.

Lemma spec_when D b m : spec step k anydb m any -> spec step k D (when b m) any.
Proof. destruct b; intros Hm; [by eapply spec_any|by apply spec_ret]. Qed.

Lemma spec_statement {A} D (f : DB -> Res (A * DB)) (Q : A -> DB -> Prop) :
  (forall d a d', D d -> f d = Ok (a, d') -> rtc step d d' /\ Q a d') ->
  spec step k D (statement f) Q.
Proof.
  intros H [d fs t u tr] Hk HD. unfold statement. simpl in *.
  destruct (match fs with [] => false | b :: _ => b end); simpl; [by split_and!|].
  destruct (f d) as [[a d']|e] eqn:E; simpl; [|by split_and!].
  by destruct (H d a d' HD E).
Qed.

Lemma spec_query {A} D (f : DB -> Res A) :
  spec step k D (query f) (fun a d => D d /\ f d = Ok a).
Proof.
  apply spec_statement. intros d a d' HD. destruct (f d) eqn:E; [|done].
  by intros [= <- <-].
Qed.

Lemma spec_query_any {A} D (f : DB -> Res A) : spec step k D (query f) any.
Proof. eapply spec_weaken; [apply spec_query|done|done]. Qed.

Lemma spec_exec D (f : DB -> DB) (D' : DB -> Prop) :
  (forall d, D d -> rtc step d (f d) /\ D' (f d)) -> spec step k D (exec f) (fun _ => D').
Proof. intros H. apply spec_statement. intros d a d' HD [= _ <-]. by apply H. Qed.

Lemma spec_exec_any D (f : DB -> DB) :
  (forall d, rtc step d (f d)) -> spec step k D (exec f) any.
Proof. intros H. apply spec_statement. by intros d a d' _ [= _ <-]. Qed.

Lemma spec_transaction {A} D (m : M DB A) Q :
  spec step k D m Q -> spec step k D (transaction m) Q.
Proof.
  intros Hm.
  assert (Hb : spec step k D (bind (query (fun _ => Ok tt)) (fun _ => bind m (fun a =>
                 bind (query (fun _ => Ok tt)) (fun _ => ret a)))) Q).
  { eapply spec_bind; [apply spec_query|intros []].
    eapply spec_bind; [eapply spec_weaken; [exact Hm|intros d Hd; apply Hd|intros ? ? HQ; exact HQ]|intros r].
    eapply spec_bind; [apply spec_query|intros ?]. apply spec_ret. intros d Hd. apply Hd. }
  intros w Hk HD. unfold transaction. specialize (Hb w Hk HD).
  destruct (bind _ _ w) as [[a|e] [d fs t u tr]]; simpl in *; [done|].
  destruct Hb as (? & _ & _). by split_and!.
Qed.

Lemma spec_now D : spec step k D time_Now (fun _ => D).
Proof. by apply spec_pure. Qed.
Lemma spec_call D e : spec step k D (call e) (fun _ => D).
Proof. by apply spec_pure. Qed.

Lemma spec_uuid D :
  spec step k D uuid_NewString (fun id d => D d /\ exists n, (k <= n)%nat /\ env_uuid n = id).
Proof. intros w Hk HD. simpl. split_and!; [lia|done|done|eauto]. Qed.

Lemma spec_rand D :
  spec step k D rand_Read (fun b d => D d /\ exists n, (k <= n)%nat /\ env_rand n = Ok b).
Proof.
  intros w Hk HD. simpl. split_and!; [lia|done|].
  destruct (env_rand (w_fresh w)) eqn:E; [|done]. eauto.
Qed.

Lemma spec_now_any D : spec step k D time_Now any.
Proof. by eapply spec_any, (spec_now anydb). Qed.
Lemma spec_call_any D e : spec step k D (call e) any.
Proof. by eapply spec_any, (spec_call anydb). Qed.
Lemma spec_uuid_any D : spec step k D uuid_NewString any.
Proof. by eapply spec_any, (spec_uuid anydb). Qed.
Lemma spec_rand_any D : spec step k D rand_Read any.
Proof. by eapply spec_any, (spec_rand anydb). Qed.
End Spec.

#[export] Hint Resolve spec_throw spec_query_any spec_now_any spec_call_any spec_uuid_any
  spec_rand_any : despatch.
#[export] Hint Extern 1 (spec _ _ _ (ret _) any) => apply spec_ret; done : despatch.
#[export] Hint Extern 1 (spec _ _ _ (of_res _) any) => apply spec_of_res; done : despatch.

(** Walk through a handler whose calls are known to the [despatch] database. *)
Ltac spec_step :=
  match goal with
  | |- spec _ _ _ (bind _ _) any => apply spec_seq; [|intros ?]
  | |- spec _ _ _ (attempt _) any => apply spec_attempt_any
  | |- spec _ _ _ (ignore _) any => apply spec_ignore
  | |- spec _ _ _ (when _ _) any => apply spec_when
  | |- spec _ _ _ (transaction _) any => apply spec_transaction
  | |- spec _ _ _ (match ?x with _ => _ end) any => destruct x
  | |- spec _ _ _ (let _ := _ in _) any => cbv zeta
  | |- spec _ _ _ _ any => solve [eauto 2 with despatch | eapply spec_any; eauto 2 with despatch]
  end.
Ltac spec_walk := intros; repeat spec_step.

(** A failed transaction leaves the database as it found it. *)
Lemma transaction_rollback {DB A} (m : M DB A) w e w' :
  transaction m w = (Fail e, w') -> w_db w' = w_db w.
Proof.
  unfold transaction. destruct (bind _ _ w) as [[a|e'] [d fs t u tr]]; [done|].
  by intros [= _ <-].
Qed.

(** ** Running single statements *)

#[global] Arguments statement : simpl never.
#[global] Arguments query : simpl never.
#[global] Arguments exec : simpl never.

Definition faulty {DB} (w : World DB) : bool := hd false (w_faults w).
Definition next {DB} (w : World DB) : World DB := w <| w_faults := tail (w_faults w) |>.

Section Running.
Context {DB : Type}.
Implicit Types (w : World DB).

Lemma statement_eq {A} (f : DB -> Res (A * DB)) w :
  statement f w =
  if faulty w then (Fail ErrDriver, next w)
  else match f (w_db w) with
       | Ok (a, d') => (Ok a, next w <| w_db := d' |>)
       | Fail e => (Fail e, next w)
       end.
Proof. by destruct w as [d [|[] fs] t u tr]. Qed.

Lemma query_eq {A} (f : DB -> Res A) w :
  query f w = (if faulty w then Fail ErrDriver else f (w_db w), next w).
Proof.
  unfold query. rewrite statement_eq. destruct (faulty w); [done|].
  by destruct (f (w_db w)), w as [d [|[] fs] t u tr].
Qed.

Lemma exec_eq (f : DB -> DB) w :
  exec f w = if faulty w then (Fail ErrDriver, next w)
             else (Ok tt, next w <| w_db := f (w_db w) |>).
Proof. unfold exec. by rewrite statement_eq. Qed.

Lemma next_db w : w_db (next w) = w_db w.
Proof. done. Qed.

Lemma bind_ok {A B} (m : M DB A) (f : A -> M DB B) w b w' :
  bind m f w = (Ok b, w') -> exists a w1, m w = (Ok a, w1) /\ f a w1 = (Ok b, w').
Proof. unfold bind. destruct (m w) as [[a|e] w1]; [eauto|done]. Qed.

Lemma statement_ok {A} (f : DB -> Res (A * DB)) w a w' :
  statement f w = (Ok a, w') -> f (w_db w) = Ok (a, w_db w').
Proof.
  rewrite statement_eq. destruct (faulty w); [done|].
  destruct (f (w_db w)) as [[b d]|e]; [|done]. by intros [= -> <-].
Qed.

Lemma exec_ok (f : DB -> DB) w w' : exec f w = (Ok tt, w') -> w_db w' = f (w_db w).
Proof. intros H. apply statement_ok in H. by injection H. Qed.

Lemma query_done {A} (f : DB -> Res A) w a w' :
  query f w = (Ok a, w') -> f (w_db w) = Ok a /\ w_db w' = w_db w.
Proof. rewrite query_eq. destruct (faulty w); [done|]. by intros [= -> <-]. Qed.

Lemma bind_eq {A B} (m : M DB A) (f : A -> M DB B) w a w1 :
  m w = (Ok a, w1) -> bind m f w = f a w1.
Proof. unfold bind. by intros ->. Qed.

Lemma bind_fail {A B} (m : M DB A) (f : A -> M DB B) w e w1 :
  m w = (Fail e, w1) -> bind m f w = (Fail e, w1).
Proof. unfold bind. by intros ->. Qed.

Lemma attempt_eq {A} (m : M DB A) w : attempt m w = (Ok (fst (m w)), snd (m w)).
Proof. unfold attempt. by destruct (m w). Qed.

Lemma bind_attempt {A B} (m : M DB A) (f : Res A -> M DB B) w :
  bind (attempt m) f w = f (fst (m w)) (snd (m w)).
Proof. unfold bind. by rewrite attempt_eq. Qed.

Lemma ignore_eq {A} (m : M DB A) w : ignore m w = (Ok tt, snd (m w)).
Proof. unfold ignore. by rewrite bind_attempt. Qed.
End Running.

(** ** Running without faults *)

Section NoFaults.
Context {DB : Type}.
Implicit Types (w : World DB).

Lemma next_none w : w_faults w = [] -> next w = w.
Proof. destruct w as [d fs t u tr]. simpl. by intros ->. Qed.

Lemma statement_run {A} (f : DB -> Res (A * DB)) w :
  w_faults w = [] ->
  statement f w = match f (w_db w) with
                  | Ok (a, d') => (Ok a, w <| w_db := d' |>)
                  | Fail e => (Fail e, w)
                  end.
Proof. intros Hf. rewrite statement_eq, next_none by done. unfold faulty. by rewrite Hf. Qed.

Lemma query_run {A} (f : DB -> Res A) w : w_faults w = [] -> query f w = (f (w_db w), w).
Proof. intros Hf. rewrite query_eq, next_none by done. unfold faulty. by rewrite Hf. Qed.

Lemma exec_run (f : DB -> DB) w :
  w_faults w = [] -> exec f w = (Ok tt, w <| w_db := f (w_db w) |>).
Proof. intros Hf. rewrite exec_eq, next_none by done. unfold faulty. by rewrite Hf. Qed.

Lemma transaction_run {A} (m : M DB A) w a w' :
  w_faults w = [] -> m w = (Ok a, w') -> w_faults w' = [] -> transaction m w = (Ok a, w').
Proof.
  intros Hf Hm Hf'. unfold transaction, bind. rewrite query_run by done. rewrite Hm.
  by rewrite query_run.
Qed.

(** Sequencing, one step at a time. *)
Lemma bind_exec {A} (f : DB -> DB) (k : unit -> M DB A) w :
  w_faults w = [] -> bind (exec f) k w = k tt (w <| w_db := f (w_db w) |>).
Proof. intros Hf. unfold bind. by rewrite exec_run. Qed.

Lemma bind_query {A B} (f : DB -> Res A) (k : A -> M DB B) w :
  w_faults w = [] ->
  bind (query f) k w = match f (w_db w) with Ok a => k a w | Fail e => (Fail e, w) end.
Proof. intros Hf. unfold bind. rewrite query_run by done. by destruct (f (w_db w)). Qed.

Lemma bind_assoc {A B C} (m : M DB A) (f : A -> M DB B) (g : B -> M DB C) w :
  bind (bind m f) g w = bind m (fun a => bind (f a) g) w.
Proof. unfold bind. by destruct (m w) as [[a|e] w']. Qed.
End NoFaults.

(** A handler run without scheduled faults leaves none. *)
Definition calm {DB A} (m : M DB A) : Prop :=
  forall w, w_faults w = [] -> w_faults (snd (m w)) = [].

Section Calm.
Context {DB : Type} {env : Env}.

Lemma calm_ret {A} (a : A) : calm (DB := DB) (ret a).
Proof. by intros w. Qed.
Lemma calm_throw {A} e : calm (DB := DB) (throw (A := A) e).
Proof. by intros w. Qed.
Lemma calm_of_res {A} (r : Res A) : calm (DB := DB) (of_res r).
Proof. by intros w. Qed.
Lemma calm_bind {A B} (m : M DB A) (f : A -> M DB B) :
  calm m -> (forall a, calm (f a)) -> calm (bind m f).
Proof.
  intros Hm Hf w Hw. unfold bind. specialize (Hm w Hw).
  destruct (m w) as [[a|e] w']; [by apply Hf|done].
Qed.
Lemma calm_attempt {A} (m : M DB A) : calm m -> calm (attempt m).
Proof. intros Hm w Hw. rewrite attempt_eq. by apply Hm. Qed.
Lemma calm_ignore {A} (m : M DB A) : calm m -> calm (ignore m).
Proof. intros Hm w Hw. rewrite ignore_eq. by apply Hm. Qed.
Lemma calm_when b (m : M DB unit) : calm m -> calm (when b m).
Proof. destruct b; [done|]. intros _. apply calm_ret. Qed.
Lemma calm_statement {A} (f : DB -> Res (A * DB)) : calm (statement f).
Proof. intros w Hw. rewrite statement_run by done. by destruct (f (w_db w)) as [[a d]|e]. Qed.
Lemma calm_query {A} (f : DB -> Res A) : calm (query f).
Proof. intros w Hw. by rewrite query_run. Qed.
Lemma calm_exec (f : DB -> DB) : calm (exec f).
Proof. intros w Hw. by rewrite exec_run. Qed.
Lemma calm_now : calm (DB := DB) time_Now.
Proof. by intros w. Qed.
Lemma calm_uuid : calm (DB := DB) uuid_NewString.
Proof. by intros w. Qed.
Lemma calm_rand : calm (DB := DB) rand_Read.
Proof. by intros w. Qed.
Lemma calm_call e : calm (DB := DB) (call e).
Proof. by intros w. Qed.
End Calm.

Ltac calm_walk :=
  intros;
  repeat match goal with
  | |- calm (bind _ _) => apply calm_bind; [|intros ?]
  | |- calm (attempt _) => apply calm_attempt
  | |- calm (ignore _) => apply calm_ignore
  | |- calm (when _ _) => apply calm_when
  | |- calm (match ?x with _ => _ end) => destruct x
  | |- calm (let _ := _ in _) => cbv zeta
  | |- calm _ => first [apply calm_ret|apply calm_throw|apply calm_of_res|apply calm_query
                       |apply calm_exec|apply calm_statement|apply calm_now|apply calm_uuid
                       |apply calm_rand|apply calm_call]
  end.

(** * Keeps: handlers that leave a predicate of the database alone

    [keeps J m] says that [m], run without driver faults from a database that
    satisfies [J], leaves such a database and schedules no faults, whether it
    succeeds or fails; [runs J m Q] adds what it answers.  The rules follow the
    handlers' structure, so [keeps_walk] proves most instances. *)

Section Keeps.
Context {DB : Type}.

Definition good (J : DB -> Prop) (w : World DB) : Prop := w_faults w = [] /\ J (w_db w).

Definition keeps {A} (J : DB -> Prop) (m : M DB A) : Prop :=
  forall w, good J w -> good J (snd (m w)).

(** [Q] of the answer and of the database left. *)
Definition runs {A} (J : DB -> Prop) (m : M DB A) (Q : Res A -> DB -> Prop) : Prop :=
  forall w, good J w -> w_faults (snd (m w)) = [] /\ Q (fst (m w)) (w_db (snd (m w))).

Implicit Types J : DB -> Prop.

Lemma keeps_ret {A} J (a : A) : keeps J (ret a).
Proof. by intros w Hw. Qed.
Lemma keeps_throw {A} J e : keeps (A := A) J (throw e).
Proof. by intros w Hw. Qed.
Lemma keeps_of_res {A} J (r : Res A) : keeps J (of_res r).
Proof. by intros w Hw. Qed.
Lemma keeps_bind {A B} J (m : M DB A) (f : A -> M DB B) :
  keeps J m -> (forall a, keeps J (f a)) -> keeps J (bind m f).
Proof.
  intros Hm Hf w Hw. unfold bind. specialize (Hm w Hw).
  destruct (m w) as [[a|e] w']; [by apply Hf|done].
Qed.
Lemma keeps_attempt {A} J (m : M DB A) : keeps J m -> keeps J (attempt m).
Proof. intros Hm w Hw. rewrite attempt_eq. by apply Hm. Qed.
Lemma keeps_ignore {A} J (m : M DB A) : keeps J m -> keeps J (ignore m).
Proof. intros Hm w Hw. rewrite ignore_eq. by apply Hm. Qed.
Lemma keeps_when J b (m : M DB unit) : keeps J m -> keeps J (when b m).
Proof. destruct b; [done|]. intros _. apply keeps_ret. Qed.
Lemma keeps_statement {A} J (f : DB -> Res (A * DB)) :
  (forall d a d', J d -> f d = Ok (a, d') -> J d') -> keeps J (statement f).
Proof.
  intros H w [Hf HJ]. rewrite statement_run by done.
  destruct (f (w_db w)) as [[a d]|e] eqn:E; [|done]. split; [done|]. by eapply H.
Qed.
Lemma keeps_query {A} J (f : DB -> Res A) : keeps J (query f).
Proof. intros w [Hf HJ]. by rewrite query_run. Qed.
Lemma keeps_exec J (f : DB -> DB) : (forall d, J d -> J (f d)) -> keeps J (exec f).
Proof. intros H w [Hf HJ]. rewrite exec_run by done. split; [done|]. by apply H. Qed.
Lemma keeps_transaction {A} J (m : M DB A) : keeps J m -> keeps J (transaction m).
Proof.
  intros Hm w Hw.
  assert (Hb : keeps J (bind (query (fun _ => Ok tt)) (fun _ => bind m (fun a =>
                 bind (query (fun _ => Ok tt)) (fun _ => ret a))))).
  { apply keeps_bind; [apply keeps_query|intros _].
    apply keeps_bind; [exact Hm|intros a].
    apply keeps_bind; [apply keeps_query|intros _]. apply keeps_ret. }
  specialize (Hb w Hw). unfold transaction.
  destruct (bind _ _ w) as [[a|e] [d fs t u tr]]; simpl in *; [done|].
  destruct Hb as [? _]. split; [done|]. apply Hw.
Qed.

Context {env : Env}.
Lemma keeps_now J : keeps J time_Now.
Proof. by intros w Hw. Qed.
Lemma keeps_uuid J : keeps J uuid_NewString.
Proof. by intros w Hw. Qed.
Lemma keeps_rand J : keeps J rand_Read.
Proof. by intros w Hw. Qed.
Lemma keeps_call J e : keeps J (call e).
Proof. by intros w Hw. Qed.

(** ** Answers *)

Lemma runs_keeps {A} J (m : M DB A) : keeps J m -> runs J m (fun _ d => J d).
Proof. intros Hm w Hw. by apply Hm. Qed.

Lemma runs_weaken {A} J (m : M DB A) (Q R : Res A -> DB -> Prop) :
  runs J m Q -> (forall r d, Q r d -> R r d) -> runs J m R.
Proof. intros Hm H w Hw. destruct (Hm w Hw). auto. Qed.

Lemma runs_ret {A} J (a : A) (Q : Res A -> DB -> Prop) :
  (forall d, J d -> Q (Ok a) d) -> runs J (ret a) Q.
Proof. intros H w [Hf HJ]. split; [done|]. by apply H. Qed.
Lemma runs_throw {A} J e (Q : Res A -> DB -> Prop) :
  (forall d, J d -> Q (Fail e) d) -> runs J (throw e) Q.
Proof. intros H w [Hf HJ]. split; [done|]. by apply H. Qed.
Lemma runs_of_res {A} J (r : Res A) (Q : Res A -> DB -> Prop) :
  (forall d, J d -> Q r d) -> runs J (of_res r) Q.
Proof. intros H w [Hf HJ]. split; [done|]. by apply H. Qed.

Lemma runs_bind {A B} J (m : M DB A) (f : A -> M DB B) (R : A -> DB -> Prop) Q :
  runs J m (fun r d => match r with Ok a => R a d | Fail e => Q (Fail e) d end) ->
  (forall a, runs (R a) (f a) Q) -> runs J (bind m f) Q.
Proof.
  intros Hm Hf w Hw. unfold bind. destruct (Hm w Hw) as [Hfs HQ].
  destruct (m w) as [[a|e] w']; [|done]. by apply Hf.
Qed.

(** A first action that keeps the precondition, and whose failure ends the run. *)
Lemma runs_then {A B} J (m : M DB A) (f : A -> M DB B) (Q : Res B -> DB -> Prop) :
  keeps J m -> (forall e d, J d -> Q (Fail e) d) -> (forall a, runs J (f a) Q) ->
  runs J (bind m f) Q.
Proof.
  intros Hm He Hf. eapply runs_bind; [|exact Hf].
  eapply runs_weaken; [by apply runs_keeps|]. intros [a|e] d HJ; [done|by apply He].
Qed.

Lemma runs_attempt {A} J (m : M DB A) Q :
  runs J m Q -> runs J (attempt m) (fun r d => match r with Ok r' => Q r' d | Fail _ => False end).
Proof. intros Hm w Hw. rewrite attempt_eq. by apply Hm. Qed.

Lemma runs_statement {A} J (f : DB -> Res (A * DB)) (Q : Res A -> DB -> Prop) :
  (forall d, J d -> match f d with Ok (a, d') => Q (Ok a) d' | Fail e => Q (Fail e) d end) ->
  runs J (statement f) Q.
Proof.
  intros H w [Hf HJ]. rewrite statement_run by done. specialize (H _ HJ).
  by destruct (f (w_db w)) as [[a d]|e].
Qed.

Lemma runs_query {A} J (f : DB -> Res A) (Q : Res A -> DB -> Prop) :
  (forall d, J d -> Q (f d) d) -> runs J (query f) Q.
Proof. intros H w [Hf HJ]. rewrite query_run by done. split; [done|]. by apply H. Qed.

Lemma runs_exec J (f : DB -> DB) (Q : Res unit -> DB -> Prop) :
  (forall d, J d -> Q (Ok tt) (f d)) -> runs J (exec f) Q.
Proof. intros H w [Hf HJ]. rewrite exec_run by done. split; [done|]. by apply H. Qed.
End Keeps.

Create HintDb keeps.
#[export] Hint Resolve keeps_ret keeps_throw keeps_of_res keeps_query keeps_now keeps_uuid
  keeps_rand keeps_call : keeps.

(** Walk through a handler; calls are looked up in the [keeps] database. *)
Ltac keeps_step :=
  match goal with
  | |- keeps _ _ => solve [eauto 3 with keeps]
  | |- keeps _ (bind _ _) => apply keeps_bind; [|intros ?]
  | |- keeps _ (attempt _) => apply keeps_attempt
  | |- keeps _ (ignore _) => apply keeps_ignore
  | |- keeps _ (when _ _) => apply keeps_when
  | |- keeps _ (transaction _) => apply keeps_transaction
  | |- keeps _ (match ?x with _ => _ end) => destruct x
  | |- keeps _ (let _ := _ in _) => cbv zeta
  | |- keeps _ (exec _) => apply keeps_exec; intros ? ?
  | |- keeps _ (statement _) => apply keeps_statement; intros ? ? ? ? ?
  end.
Ltac keeps_walk := intros; repeat keeps_step.
