(* ===== verification/GoStd.v ===== *)
(** * GoStd: SHA-256, base64, decimal and JSON, as the program calls them

    [sha256_hex] is [hex.EncodeToString] of [sha256.Sum256] (FIPS 180-4),
    [base64_encode] and [base64_decode] are the unpadded standard alphabet
    ([base64.RawStdEncoding]), [json_object] is [json.Marshal] of a string-keyed
    map, [itoa] and [take_digits] are [%d] of [Sprintf] and [Sscanf]. *)

From S2P Require Import Prelude Unicode GoStrings.
Local Open Scope Z_scope.

(** ** SHA-256 *)

Module Sha256.
Definition w32 (x : Z) : Z := Z.land x 4294967295.
Definition add32 (x y : Z) : Z := w32 (x + y).
Definition rotr (n x : Z) : Z := Z.lor (Z.shiftr x n) (w32 (Z.shiftl x (32 - n))).

Definition K : list Z :=
[1116352408; 1899447441; 3049323471; 3921009573; 961987163; 1508970993; 2453635748;
 2870763221; 3624381080; 310598401; 607225278; 1426881987; 1925078388; 2162078206;
 2614888103; 3248222580; 3835390401; 4022224774; 264347078; 604807628; 770255983;
 1249150122; 1555081692; 1996064986; 2554220882; 2821834349; 2952996808; 3210313671;
 3336571891; 3584528711; 113926993; 338241895; 666307205; 773529912; 1294757372;
 1396182291; 1695183700; 1986661051; 2177026350; 2456956037; 2730485921; 2820302411;
 3259730800; 3345764771; 3516065817; 3600352804; 4094571909; 275423344; 430227734;
 506948616; 659060556; 883997877; 958139571; 1322822218; 1537002063; 1747873779;
 1955562222; 2024104815; 2227730452; 2361852424; 2428436474; 2756734187; 3204031479;
 3329325298].

Definition H0 : list Z :=
[1779033703; 3144134277; 1013904242; 2773480762; 1359893119; 2600822924; 528734635;
 1541459225].

Definition word_of (l : list Z) : Z := fold_left (fun acc b => acc * 256 + b) l 0.
Definition bytes_of_word (n : nat) (w : Z) : list Z :=
map (fun i => Z.land (Z.shiftr w (8 * Z.of_nat i)) 255) (rev (List.seq 0 n)).

Definition pad (msg : list Z) : list Z :=
let n := Z.of_nat (length msg) in
msg ++ [128] ++ repeat 0 (Z.to_nat ((55 - n) mod 64)) ++ bytes_of_word 8 (8 * n).

Fixpoint words (fuel : nat) (l : list Z) : list Z :=
match fuel, l with
| S fuel', _ :: _ => word_of (take 4 l) :: words fuel' (drop 4 l)
| _, _ => []
end.

Definition sigma0 (x : Z) := Z.lxor (Z.lxor (rotr 7 x) (rotr 18 x)) (Z.shiftr x 3).
Definition sigma1 (x : Z) := Z.lxor (Z.lxor (rotr 17 x) (rotr 19 x)) (Z.shiftr x 10).
Definition Sigma0 (x : Z) := Z.lxor (Z.lxor (rotr 2 x) (rotr 13 x)) (rotr 22 x).
Definition Sigma1 (x : Z) := Z.lxor (Z.lxor (rotr 6 x) (rotr 11 x)) (rotr 25 x).
Definition Ch (x y z : Z) := Z.lxor (Z.land x y) (Z.land (4294967295 - x) z).
Definition Maj (x y z : Z) := Z.lxor (Z.lxor (Z.land x y) (Z.land x z)) (Z.land y z).

(** The message schedule, latest word first. *)
Fixpoint extend (n : nat) (ws : list Z) : list Z :=
match n with
| O => ws
| S n' =>
    let w i := nth i ws 0 in
    extend n' (w32 (sigma1 (w 1%nat) + w 6%nat + sigma0 (w 14%nat) + w 15%nat) :: ws)
end.

Definition round (st : list Z) (kw : Z * Z) : list Z :=
match st with
| [a; b; c; d; e; f; g; h] =>
    let t1 := h + Sigma1 e + Ch e f g + fst kw + snd kw in
    let t2 := Sigma0 a + Maj a b c in
    [w32 (t1 + t2); a; b; c; add32 d t1; e; f; g]
| _ => st
end.

Definition compress (h : list Z) (block : list Z) : list Z :=
let ws := rev (extend 48 (rev (words 16 block))) in
zip_with add32 h (fold_left round (zip K ws) h).

Fixpoint blocks (fuel : nat) (h : list Z) (l : list Z) : list Z :=
match fuel, l with
| S fuel', _ :: _ => blocks fuel' (compress h (take 64 l)) (drop 64 l)
| _, _ => h
end.

Definition sum (msg : list Z) : list Z :=
let p := pad msg in flat_map (bytes_of_word 4) (blocks (length p) H0 p).
End Sha256.

Definition hex_digit (n : Z) : Z := if n <? 10 then 48 + n else 87 + n.
Definition hex_encode (l : list Z) : string :=
  of_bytes (flat_map (fun b => [hex_digit (b / 16); hex_digit (b mod 16)]) l).

Definition sha256_hex (s : string) : string := hex_encode (Sha256.sum (bytes s)).

Example sha256_abc :
  sha256_hex "abc" = "ba7816bf8f01cfea414140de5dae2223b00361a396177a9cb410ff61f20015ad".
Proof. vm_compute. reflexivity. Qed.
Example sha256_56_bytes :
  sha256_hex "abcdbcdecdefdefgefghfghighijhijkijkljklmklmnlmnomnopnopq"
  = "248d6a61d20638b8e5c026930c3e6039a33ce45964ff2167f6ecedd419db06c1".
Proof. vm_compute. reflexivity. Qed.
#[global] Opaque sha256_hex.

(** ** Decimal numbers *)

Fixpoint digits (fuel : nat) (n : Z) : list Z :=
  match fuel with
  | O => []
  | S fuel' => if n <? 10 then [48 + n] else digits fuel' (n / 10) ++ [48 + n mod 10]
  end.

(** [%d] of a non-negative number below 10^20. *)
Definition itoa (n : Z) : string := of_bytes (digits 20 n).

Definition is_digit (b : Z) : bool := (48 <=? b) && (b <=? 57).

(** The digits at the front of a text, and what follows them. *)
Fixpoint take_digits (acc : Z) (l : list Z) : Z * list Z :=
  match l with
  | b :: l' => if is_digit b then take_digits (acc * 10 + (b - 48)) l' else (acc, l)
  | [] => (acc, [])
  end.

(** [time.RFC3339] of an instant in UTC, in a year of four digits: the date by
    counting from 0000-03-01 in cycles of 400 years. *)
Definition civil_date (days : Z) : Z * Z * Z :=
  let z := days + 719468 in
  let era := z / 146097 in
  let doe := z mod 146097 in
  let yoe := (doe - doe / 1460 + doe / 36524 - doe / 146096) / 365 in
  let doy := doe - (365 * yoe + yoe / 4 - yoe / 100) in
  let mp := (5 * doy + 2) / 153 in
  let d := doy - (153 * mp + 2) / 5 + 1 in
  let m := if mp <? 10 then mp + 3 else mp - 9 in
  (yoe + era * 400 + (if m <=? 2 then 1 else 0), m, d).

(** Days since 1970-01-01; a day beyond its month runs into the next. *)
Definition days_of (y m d : Z) : Z :=
  let y' := if m <=? 2 then y - 1 else y in
  let era := y' / 400 in
  let yoe := y' mod 400 in
  let doy := (153 * (if 2 <? m then m - 3 else m + 9) + 2) / 5 in
  era * 146097 + yoe * 365 + yoe / 4 - yoe / 100 + doy - 719468 + (d - 1).

Definition two_digits (n : Z) : list Z := [48 + n / 10; 48 + n mod 10].

Definition rfc3339 (ns : Z) : string :=
  let secs := ns / 1000000000 in
  let '(y, m, d) := civil_date (secs / 86400) in
  let s := secs mod 86400 in
  of_bytes (two_digits (y / 100) ++ two_digits (y mod 100) ++ [45] ++ two_digits m ++ [45]
    ++ two_digits d ++ [84] ++ two_digits (s / 3600) ++ [58] ++ two_digits (s / 60 mod 60)
    ++ [58] ++ two_digits (s mod 60) ++ [90]).

Example rfc3339_ex1 : rfc3339 1709210096000000000 = "2024-02-29T12:34:56Z".
Proof. vm_compute. reflexivity. Qed.
Example rfc3339_ex2 : rfc3339 946684799000000000 = "1999-12-31T23:59:59Z".
Proof. vm_compute. reflexivity. Qed.
#[global] Opaque rfc3339.

(** ** Base64, unpadded *)

Definition b64_char (v : Z) : Z :=
  if v <? 26 then 65 + v else if v <? 52 then 71 + v else if v <? 62 then v - 4
  else if v =? 62 then 43 else 47.

Definition b64_value (c : Z) : option Z :=
  if (65 <=? c) && (c <=? 90) then Some (c - 65)
  else if (97 <=? c) && (c <=? 122) then Some (c - 71)
  else if (48 <=? c) && (c <=? 57) then Some (c + 4)
  else if c =? 43 then Some 62 else if c =? 47 then Some 63 else None.

Fixpoint b64_encode (l : list Z) : list Z :=
  match l with
  | [] => []
  | [a] => [b64_char (a / 4); b64_char ((a mod 4) * 16)]
  | [a; b] => [b64_char (a / 4); b64_char ((a mod 4) * 16 + b / 16); b64_char ((b mod 16) * 4)]
  | a :: b :: c :: l' =>
      b64_char (a / 4) :: b64_char ((a mod 4) * 16 + b / 16)
      :: b64_char ((b mod 16) * 4 + c / 64) :: b64_char (c mod 64) :: b64_encode l'
  end.

Fixpoint b64_decode (l : list Z) : option (list Z) :=
  match l with
  | [] => Some []
  | [_] => None
  | [w; x] =>
      w ← b64_value w; x ← b64_value x; Some [w * 4 + x / 16]
  | [w; x; y] =>
      w ← b64_value w; x ← b64_value x; y ← b64_value y;
      Some [w * 4 + x / 16; (x mod 16) * 16 + y / 4]
  | w :: x :: y :: z :: l' =>
      w ← b64_value w; x ← b64_value x; y ← b64_value y; z ← b64_value z;
      r ← b64_decode l';
      Some (w * 4 + x / 16 :: (x mod 16) * 16 + y / 4 :: (y mod 4) * 64 + z :: r)
  end.

Definition base64_encode (l : list Z) : string := of_bytes (b64_encode l).

(** [base64.RawURLEncoding]: [-] and [_] for [+] and [/]. *)
Definition base64url_encode (l : list Z) : string :=
  of_bytes (map (fun c => if c =? 43 then 45 else if c =? 47 then 95 else c) (b64_encode l)).

(** Carriage returns and newlines are skipped, as Go's decoder does. *)
Definition base64_decode (s : string) : option (list Z) :=
  b64_decode (List.filter (fun b => negb ((b =? 10) || (b =? 13))) (bytes s)).

(** *** Decoding undoes encoding *)

Lemma b64_value_char v : 0 <= v < 64 -> b64_value (b64_char v) = Some v.
Proof.
  intros H. unfold b64_char, b64_value.
  destruct (Z.ltb_spec v 26); [zdecide; cbn; f_equal; lia|].
  destruct (Z.ltb_spec v 52); [zdecide; cbn; f_equal; lia|].
  destruct (Z.ltb_spec v 62); [zdecide; cbn; f_equal; lia|].
  destruct (Z.eqb_spec v 62); subst; [done|]. assert (v = 63) as -> by lia. done.
Qed.

(** Three bytes are four digits and back. *)
Lemma b64_quad a b c :
  0 <= a < 256 -> 0 <= b < 256 -> 0 <= c < 256 ->
  let w := a / 4 in let x := (a mod 4) * 16 + b / 16 in
  let y := (b mod 16) * 4 + c / 64 in let z := c mod 64 in
  (0 <= w < 64 /\ 0 <= x < 64 /\ 0 <= y < 64 /\ 0 <= z < 64) /\
  w * 4 + x / 16 = a /\ (x mod 16) * 16 + y / 4 = b /\ (y mod 4) * 64 + z = c.
Proof. cbv zeta. intros. Z.to_euclidean_division_equations. nia. Qed.

Lemma list_ind3 {A} (P : list A -> Prop) :
  P [] -> (forall a, P [a]) -> (forall a b, P [a; b]) ->
  (forall a b c l, P l -> P (a :: b :: c :: l)) -> forall l, P l.
Proof.
  intros H0 H1 H2 H3. fix IH 1. intros [|a [|b [|c l]]]; [apply H0|apply H1|apply H2|].
  apply H3, IH.
Qed.

Lemma b64_decode_encode l : is_bytes l -> b64_decode (b64_encode l) = Some l.
Proof.
  unfold is_bytes. induction l as [|a|a b|a b c l IH] using list_ind3; intros Hl.
  - done.
  - apply Forall_cons_1 in Hl as [Ha _].
    pose proof (b64_quad a 0 0 Ha ltac:(lia) ltac:(lia)) as (Hr & Hw & _).
    rewrite Z.add_0_r in *. cbn [b64_encode b64_decode].
    rewrite !b64_value_char by lia. cbn. by rewrite Hw.
  - apply Forall_cons_1 in Hl as [Ha Hl]. apply Forall_cons_1 in Hl as [Hb _].
    pose proof (b64_quad a b 0 Ha Hb ltac:(lia)) as (Hr & Hw & Hx & _).
    rewrite Z.add_0_r in *. cbn [b64_encode b64_decode].
    rewrite !b64_value_char by lia. cbn. by rewrite Hw, Hx.
  - apply Forall_cons_1 in Hl as [Ha Hl]. apply Forall_cons_1 in Hl as [Hb Hl].
    apply Forall_cons_1 in Hl as [Hc Hl].
    pose proof (b64_quad a b c Ha Hb Hc) as (Hr & Hw & Hx & Hy).
    cbn [b64_encode b64_decode]. rewrite !b64_value_char by lia. cbn.
    rewrite IH by done. cbn. by rewrite Hw, Hx, Hy.
Qed.

(** The alphabet: letters, digits, [+] and [/]. *)
Definition b64_alphabet (c : Z) : Prop := 43 <= c <= 122.

Lemma b64_char_alphabet v : 0 <= v < 64 -> b64_alphabet (b64_char v).
Proof.
  intros. unfold b64_char, b64_alphabet. repeat (case_match; breflect); lia.
Qed.

Lemma b64_encode_alphabet l : is_bytes l -> Forall b64_alphabet (b64_encode l).
Proof.
  unfold is_bytes. induction l as [|a|a b|a b c l IH] using list_ind3; intros Hl.
  - constructor.
  - apply Forall_cons_1 in Hl as [Ha _].
    pose proof (b64_quad a 0 0 Ha ltac:(lia) ltac:(lia)) as (Hr & _).
    rewrite Z.add_0_r in *. repeat constructor; apply b64_char_alphabet; lia.
  - apply Forall_cons_1 in Hl as [Ha Hl]. apply Forall_cons_1 in Hl as [Hb _].
    pose proof (b64_quad a b 0 Ha Hb ltac:(lia)) as (Hr & _).
    rewrite Z.add_0_r in *. repeat constructor; apply b64_char_alphabet; lia.
  - apply Forall_cons_1 in Hl as [Ha Hl]. apply Forall_cons_1 in Hl as [Hb Hl].
    apply Forall_cons_1 in Hl as [Hc Hl].
    pose proof (b64_quad a b c Ha Hb Hc) as (Hr & _). cbn [b64_encode].
    repeat apply Forall_cons_2; [apply b64_char_alphabet; lia..|by apply IH].
Qed.

Lemma alphabet_bytes l : Forall b64_alphabet l -> is_bytes l.
Proof. unfold is_bytes. apply Forall_impl. unfold b64_alphabet. lia. Qed.

Lemma base64_roundtrip l : is_bytes l -> base64_decode (base64_encode l) = Some l.
Proof.
  intros Hl. pose proof (b64_encode_alphabet l Hl) as Ha.
  unfold base64_decode, base64_encode. rewrite bytes_of_bytes by by apply alphabet_bytes.
  assert (List.filter (fun b => negb ((b =? 10) || (b =? 13))) (b64_encode l) = b64_encode l)
    as ->.
  { induction Ha as [|c k Hc Hk IH]; simpl; [done|]. unfold b64_alphabet in Hc.
    destruct (Z.eqb_spec c 10); [lia|]. destruct (Z.eqb_spec c 13); [lia|]. simpl.
    by rewrite IH. }
  by apply b64_decode_encode.
Qed.

(** ** JSON objects *)

Inductive JSONValue := JString (s : string) | JBool (b : bool) | JInt (n : Z).

Definition hex4 (r : Z) : list Z :=
  [hex_digit (r / 4096); hex_digit (r / 256 mod 16); hex_digit (r / 16 mod 16);
   hex_digit (r mod 16)].

(** One rune of a string literal; [-1] is an ill-formed byte. *)
Definition json_rune (r : Z) : list Z :=
  if (r =? 34) || (r =? 92) then [92; r]
  else if r =? 8 then [92; 98] else if r =? 12 then [92; 102]
  else if r =? 10 then [92; 110] else if r =? 13 then [92; 114] else if r =? 9 then [92; 116]
  else if r =? -1 then [92; 117] ++ hex4 RuneError
  else if (r <? 32) || (r =? 60) || (r =? 62) || (r =? 38) || (r =? 8232) || (r =? 8233)
  then [92; 117] ++ hex4 r
  else encode_rune r.

Definition json_string (s : string) : list Z :=
  [34] ++ flat_map json_rune (decode_with (-1) (bytes s)) ++ [34].

Definition json_value (v : JSONValue) : list Z :=
  match v with
  | JString s => json_string s
  | JBool true => bytes "true"
  | JBool false => bytes "false"
  | JInt n => (if n <? 0 then [45] else []) ++ digits 20 (Z.abs n)
  end.

Definition key_leb (a b : string) : bool :=
  match String.compare a b with Gt => false | _ => true end.

Fixpoint insert_key {A} (kv : string * A) (l : list (string * A)) : list (string * A) :=
  match l with
  | [] => [kv]
  | kv' :: l' => if key_leb (fst kv) (fst kv') then kv :: l else kv' :: insert_key kv l'
  end.

(** [json.Marshal] writes the keys of a map in order. *)
Definition json_object (fields : list (string * JSONValue)) : string :=
  let sorted := fold_right insert_key [] fields in
  let field kv := json_string (fst kv) ++ [58] ++ json_value (snd kv) in
  of_bytes ([123] ++
    match sorted with
    | [] => []
    | kv :: rest => field kv ++ flat_map (fun kv => [44] ++ field kv) rest
    end ++ [125]).

Example json_object_ex :
  map (fun b => if b =? 34 then 39 else b)
    (bytes (json_object [("user_id", JString "a<b"); ("mode", JBool true)]))
  = bytes "{'mode':true,'user_id':'a\u003cb'}".
Proof. vm_compute. reflexivity. Qed.
#[global] Opaque json_object.
