(* ===== verification/GoText.v ===== *)
(** * GoText: more of Go's strings, strconv and encoding/base64

    The functions the mail components need beyond those of [GoStrings] and
    [GoStd], with their laws. *)

From S2P Require Import Prelude Unicode GoStrings GoStd.
Local Open Scope Z_scope.

(** ** Cutting *)

(** [strings.SplitN(s, sep, 2)] for a one-byte separator. *)
Fixpoint cut_ascii (sep : Ascii.ascii) (l : list Ascii.ascii) :
    option (list Ascii.ascii * list Ascii.ascii) :=
  match l with
  | [] => None
  | a :: l' =>
      if Ascii.eqb a sep then Some ([], l')
      else '(p, q) ← cut_ascii sep l'; Some (a :: p, q)
  end.

Definition Cut (s : string) (sep : Ascii.ascii) : option (string * string) :=
  '(p, q) ← cut_ascii sep (String.list_ascii_of_string s);
  Some (String.string_of_list_ascii p, String.string_of_list_ascii q).

(** [strings.ReplaceAll] of a two-byte text by nothing. *)
Fixpoint remove_pair (x y : Ascii.ascii) (l : list Ascii.ascii) : list Ascii.ascii :=
  match l with
  | [] => []
  | a :: l1 =>
      match l1 with
      | b :: l2 =>
          if Ascii.eqb a x && Ascii.eqb b y then remove_pair x y l2 else a :: remove_pair x y l1
      | [] => [a]
      end
  end.

(** [strings.TrimRight(s, c)] for one byte. *)
Definition TrimRightByte (s : string) (c : Ascii.ascii) : string :=
  let fix drop l := match l with
                    | a :: l' => if Ascii.eqb a c then drop l' else l
                    | [] => []
                    end in
  String.string_of_list_ascii (rev (drop (rev (String.list_ascii_of_string s)))).

(** ** Numbers *)

Definition decimal (l : list Z) : Z := fold_left (fun acc b => acc * 10 + (b - 48)) l 0.

(** [strconv.ParseUint(s, 10, bits)]. *)
Definition ParseUint (s : string) (bits : Z) : option Z :=
  let l := bytes s in
  if negb (Nat.eqb (length l) 0) && forallb is_digit l && (decimal l <? 2 ^ bits)
  then Some (decimal l) else None.

(** [strconv.Atoi], on 64 bits. *)
Definition Atoi (s : string) : option Z :=
  let digits_of l := if negb (Nat.eqb (length l) 0) && forallb is_digit l
                     then Some (decimal l) else None in
  match bytes s with
  | 45 :: l => n ← digits_of l; if n <=? 2 ^ 63 then Some (- n) else None
  | 43 :: l | l => n ← digits_of l; if n <? 2 ^ 63 then Some n else None
  end.

(** ** Replacing *)

(** [strings.Replace] of every occurrence of a text that is not empty. *)
Fixpoint replace_all (fuel : nat) (old new l : list Z) : list Z :=
  match fuel, l with
  | S n, b :: l' =>
      if bool_decide (take (length old) l = old) then new ++ replace_all n old new (drop (length old) l)
      else b :: replace_all n old new l'
  | _, _ => l
  end.
Definition ReplaceAll (s old new : string) : string :=
  let l := bytes s in of_bytes (replace_all (length l) (bytes old) (bytes new) l).

(** [strings.Fields] *)
Definition text_fields (s : string) : list string :=
  map of_bytes ((fix go (fuel : nat) (word l : list Z) : list (list Z) :=
    let flush := if Nat.eqb (length word) 0 then [] else [word] in
    match fuel, l with
    | O, _ | _, [] => flush
    | S n, b :: l' =>
        let rest := trim_left l in
        if Nat.eqb (length rest) (length l) then go n (word ++ [b]) l' else flush ++ go n [] rest
    end) (S (length (bytes s))) [] (bytes s)).

(** An [int64] that has wrapped around. *)
Definition int64 (n : Z) : Z := (n + 2 ^ 63) mod 2 ^ 64 - 2 ^ 63.

(** ** base64.RawURLEncoding *)

Definition url_char (c : Z) : Z := if c =? 43 then 45 else if c =? 47 then 95 else c.
Definition from_url (c : Z) : Z :=
  if c =? 45 then 43 else if c =? 95 then 47
  else if (c =? 43) || (c =? 47) then -1 else c.

Definition base64url_decode (s : string) : option (list Z) :=
  b64_decode (map from_url
    (List.filter (fun b => negb ((b =? 10) || (b =? 13))) (bytes s))).

(** ** Laws *)

Lemma list_ascii_of_app s t :
  String.list_ascii_of_string (s +:+ t)
  = String.list_ascii_of_string s ++ String.list_ascii_of_string t.
Proof. induction s; simpl; [done|]. by f_equal. Qed.

Lemma bytes_app s t : bytes (s +:+ t) = bytes s ++ bytes t.
Proof. unfold bytes. by rewrite list_ascii_of_app, map_app. Qed.

Lemma of_bytes_app l k : of_bytes (l ++ k) = of_bytes l +:+ of_bytes k.
Proof.
  unfold of_bytes. rewrite map_app.
  induction (map ascii_of l) as [|a m IH]; simpl; [done|]. by rewrite IH.
Qed.

Definition free_of (sep : Ascii.ascii) (s : string) : Prop :=
  ~ In sep (String.list_ascii_of_string s).

#[global] Instance free_of_dec sep s : Decision (free_of sep s).
Proof. unfold free_of. destruct (in_dec Ascii.ascii_dec sep (String.list_ascii_of_string s)); [right|left]; tauto. Defined.

(** Cutting undoes gluing when the left part is free of the separator. *)
Lemma Cut_app sep s t :
  free_of sep s -> Cut (s +:+ String sep t) sep = Some (s, t).
Proof.
  unfold free_of, Cut. rewrite list_ascii_of_app. cbn [String.list_ascii_of_string].
  intros H. assert (cut_ascii sep (String.list_ascii_of_string s
      ++ sep :: String.list_ascii_of_string t)
    = Some (String.list_ascii_of_string s, String.list_ascii_of_string t)) as ->.
  { induction (String.list_ascii_of_string s) as [|a l IH]; simpl.
    - by rewrite Ascii.eqb_refl.
    - destruct (Ascii.eqb_spec a sep); [subst; exfalso; apply H; by left|].
      rewrite IH; [done|]. intros Hin. apply H. by right. }
  simpl. by rewrite !String.string_of_list_ascii_of_string.
Qed.

(** What [Cut] finds glues back to the text. *)
Lemma Cut_glue sep s p q : Cut s sep = Some (p, q) -> s = p +:+ String sep q /\ free_of sep p.
Proof.
  unfold Cut, free_of. destruct (cut_ascii _ _) as [[x y]|] eqn:E; [|done]. intros [= <- <-].
  rewrite !String.list_ascii_of_string_of_list_ascii.
  assert (String.list_ascii_of_string s = x ++ sep :: y /\ ~ In sep x) as [Hs Hx].
  { revert x E. induction (String.list_ascii_of_string s) as [|a l IH]; simpl; intros x; [done|].
    destruct (Ascii.eqb_spec a sep) as [->|Hne]; [intros [= <- <-]; split; [done|by intros []]|].
    destruct (cut_ascii sep l) as [[x' y']|]; [|done]. intros [= <- <-].
    destruct (IH x' eq_refl) as [-> Hn]. split; [done|]. simpl. intuition. }
  split; [|done].
  rewrite <- (String.string_of_list_ascii_of_string s), Hs.
  clear. induction x as [|a x IH]; simpl; [done|]. by rewrite IH.
Qed.

Lemma decimal_snoc l b : decimal (l ++ [b]) = decimal l * 10 + (b - 48).
Proof. unfold decimal. by rewrite fold_left_app. Qed.

Lemma digits_decimal fuel : forall n, 0 <= n < 10 ^ Z.of_nat fuel ->
  decimal (digits fuel n) = n /\ forallb is_digit (digits fuel n) = true
  /\ (fuel <> 0%nat -> length (digits fuel n) <> 0%nat).
Proof.
  induction fuel as [|fuel IH]; intros n Hn.
  { change (10 ^ Z.of_nat 0) with 1 in Hn. cbn. split_and!; [lia|done|done]. }
  cbn [digits]. destruct (Z.ltb_spec n 10).
  - unfold decimal. simpl. unfold is_digit. zdecide. split_and!; [lia|done|done].
  - rewrite Nat2Z.inj_succ, Z.pow_succ_r in Hn by lia.
    destruct (IH (n / 10)) as (Hd & Hf & Hl).
    { split; [apply Z.div_pos; lia|apply Z.div_lt_upper_bound; lia]. }
    rewrite decimal_snoc, Hd, forallb_app, Hf, length_app.
    pose proof (Z.mod_pos_bound n 10 ltac:(lia)). pose proof (Z.div_mod n 10 ltac:(lia)).
    unfold is_digit. cbn [forallb length]. zdecide. split_and!; [lia|done|lia].
Qed.

Lemma bytes_itoa n : 0 <= n < 10 ^ 20 -> bytes (itoa n) = digits 20 n.
Proof.
  intros Hn. unfold itoa. apply bytes_of_bytes. unfold is_bytes.
  destruct (digits_decimal 20 n) as (_ & Hf & _); [exact Hn|].
  apply List.Forall_forall. rewrite forallb_forall in Hf. intros b Hb. specialize (Hf b Hb).
  unfold is_digit in Hf. breflect. lia.
Qed.

Lemma ParseUint_itoa n bits : 0 <= n < 2 ^ bits -> n < 10 ^ 20 -> ParseUint (itoa n) bits = Some n.
Proof.
  intros Hn Hn'. unfold ParseUint. rewrite bytes_itoa by lia.
  destruct (digits_decimal 20 n) as (Hd & Hf & Hl); [lia|]. rewrite Hd, Hf.
  replace (n <? 2 ^ bits) with true by (symmetry; apply Z.ltb_lt; lia).
  destruct (Nat.eqb_spec (length (digits 20 n)) 0); [by exfalso; apply Hl|done].
Qed.

Lemma Atoi_itoa n : 0 <= n < 2 ^ 63 -> Atoi (itoa n) = Some n.
Proof.
  intros Hn. unfold Atoi. rewrite bytes_itoa by lia.
  destruct (digits_decimal 20 n) as (Hd & Hf & Hl); [lia|].
  assert (Hne : Nat.eqb (length (digits 20 n)) 0 = false).
  { apply Nat.eqb_neq. by apply Hl. }
  destruct (digits 20 n) as [|b l] eqn:E; [done|].
  assert (48 <= b <= 57) as Hb.
  { cbn [forallb] in Hf. unfold is_digit in Hf. breflect. lia. }
  assert (Hdo : (if negb (Nat.eqb (length (b :: l)) 0) && forallb is_digit (b :: l)
                 then Some (decimal (b :: l)) else None) = Some n) by (by rewrite Hne, Hf, Hd).
  assert (Hfin : (n0 ← Some n; if n0 <? 2 ^ 63 then Some n0 else None) = Some n).
  { simpl. by replace (n <? 2 ^ 63) with true by (symmetry; apply Z.ltb_lt; lia). }
  rewrite <- Hfin, <- Hdo.
  destruct (Z.eq_dec b 45); [lia|]. destruct (Z.eq_dec b 43); [lia|].
  destruct b as [|p|p]; try lia. repeat (destruct p as [p|p|]; try reflexivity; try lia).
Qed.

Lemma b64_char_image v : 0 <= v < 64 ->
  from_url (url_char (b64_char v)) = b64_char v /\ 45 <= url_char (b64_char v) <= 122.
Proof.
  intros H. unfold b64_char, url_char, from_url.
  repeat (case_match; breflect; try lia); try (repeat match goal with
    | H : (_ || _)%bool = true |- _ => apply orb_true_iff in H as [H|H] end; breflect; lia);
    lia.
Qed.

Lemma b64_encode_image l :
  is_bytes l -> Forall (fun c => exists v, 0 <= v < 64 /\ c = b64_char v) (b64_encode l).
Proof.
  unfold is_bytes. induction l as [|a|a b|a b c l IH] using list_ind3; intros Hl.
  - constructor.
  - apply Forall_cons_1 in Hl as [Ha _].
    pose proof (b64_quad a 0 0 Ha ltac:(lia) ltac:(lia)) as (Hr & _).
    rewrite Z.add_0_r in *. repeat constructor; eexists; (split; [|done]); lia.
  - apply Forall_cons_1 in Hl as [Ha Hl]. apply Forall_cons_1 in Hl as [Hb _].
    pose proof (b64_quad a b 0 Ha Hb ltac:(lia)) as (Hr & _).
    rewrite Z.add_0_r in *. repeat constructor; eexists; (split; [|done]); lia.
  - apply Forall_cons_1 in Hl as [Ha Hl]. apply Forall_cons_1 in Hl as [Hb Hl].
    apply Forall_cons_1 in Hl as [Hc Hl].
    pose proof (b64_quad a b c Ha Hb Hc) as (Hr & _). cbn [b64_encode].
    repeat apply Forall_cons_2; [eexists; (split; [|done]); lia..|by apply IH].
Qed.

(** The text of an encoding: letters, digits, [-] and [_]. *)
Lemma bytes_base64url l :
  is_bytes l -> bytes (base64url_encode l) = map url_char (b64_encode l)
  /\ Forall (fun c => 45 <= c <= 122) (map url_char (b64_encode l)).
Proof.
  intros Hl. pose proof (b64_encode_image l Hl) as Hi.
  assert (Hf : Forall (fun c => 45 <= c <= 122) (map url_char (b64_encode l))).
  { induction Hi as [|c k (v & Hv & ->) _ IH]; simpl; [constructor|].
    constructor; [by apply b64_char_image|done]. }
  split; [|done]. unfold base64url_encode. change (fun c => _) with url_char.
  apply bytes_of_bytes. unfold is_bytes. eapply List.Forall_impl; [|exact Hf]. simpl. lia.
Qed.

Lemma base64url_roundtrip l : is_bytes l -> base64url_decode (base64url_encode l) = Some l.
Proof.
  intros Hl. destruct (bytes_base64url l Hl) as [Hb _]. unfold base64url_decode. rewrite Hb.
  assert (map from_url (List.filter (fun b => negb ((b =? 10) || (b =? 13)))
            (map url_char (b64_encode l))) = b64_encode l) as ->;
    [|by apply b64_decode_encode].
  clear Hb. pose proof (b64_encode_image l Hl) as Hi. clear Hl.
  induction Hi as [|c k (v & Hv & ->) _ IH]; [done|]. cbn [map List.filter].
  destruct (b64_char_image v Hv) as [Hf Hr].
  destruct (Z.eqb_spec (url_char (b64_char v)) 10); [lia|].
  destruct (Z.eqb_spec (url_char (b64_char v)) 13); [lia|]. cbn [orb negb map]. by rewrite Hf, IH.
Qed.

Lemma base64url_string s : base64url_decode (base64url_encode (bytes s)) = Some (bytes s).
Proof. apply base64url_roundtrip, bytes_is_bytes. Qed.

(** A byte above [z] or below [-] does not occur in an encoding. *)
Lemma base64url_free_of s c :
  ~ (45 <= byte_of c <= 122) -> free_of c (base64url_encode (bytes s)).
Proof.
  intros Hc Hin. apply (in_map byte_of) in Hin.
  destruct (bytes_base64url (bytes s) (bytes_is_bytes s)) as [Hb Hf].
  change (map byte_of (String.list_ascii_of_string (base64url_encode (bytes s))))
    with (bytes (base64url_encode (bytes s))) in Hin.
  rewrite Hb in Hin. rewrite List.Forall_forall in Hf. by apply Hc, Hf.
Qed.

Lemma Cut_none sep s : Cut s sep = None <-> free_of sep s.
Proof.
  unfold Cut, free_of. split.
  - destruct (cut_ascii sep _) as [[x y]|] eqn:E; [done|]. intros _. revert E.
    induction (String.list_ascii_of_string s) as [|a l IH]; simpl; [by intros _ []|].
    destruct (Ascii.eqb_spec a sep) as [->|Hne]; [done|].
    destruct (cut_ascii sep l) as [[x y]|]; [done|]. intros _ [->|H]; [done|by apply IH].
  - intros H. replace (cut_ascii sep _) with (@None (list Ascii.ascii * list Ascii.ascii)); [done|].
    induction (String.list_ascii_of_string s) as [|a l IH]; simpl; [done|].
    destruct (Ascii.eqb_spec a sep) as [->|Hne]; [by exfalso; apply H; left|].
    rewrite <- IH; [done|]. intros Hin. apply H. by right.
Qed.

(** What a text is cut into when its left part holds the separator: the right
    part then holds the separator too. *)
Lemma Cut_first sep s t : In sep (String.list_ascii_of_string s) ->
  exists p q, Cut (s +:+ String sep t) sep = Some (p, q)
    /\ free_of sep p /\ ~ free_of sep q.
Proof.
  intros Hin. destruct (Cut (s +:+ String sep t) sep) as [[p q]|] eqn:E.
  - exists p, q. destruct (Cut_glue _ _ _ _ E) as [Hs Hp]. split_and!; [done|done|].
    intros Hq. apply (f_equal String.list_ascii_of_string) in Hs.
    rewrite !list_ascii_of_app in Hs. cbn [String.list_ascii_of_string] in Hs.
    clear E. revert Hs Hp Hin. unfold free_of in *.
    generalize (String.list_ascii_of_string p) as p'.
    induction (String.list_ascii_of_string s) as [|a l IH]; simpl; intros p'; [done|].
    destruct p' as [|b p']; simpl.
    + intros [= -> Hs] _ _. apply Hq. rewrite <- Hs. apply in_or_app. right. by left.
    + intros [= -> Hs] Hp [->|Hin]; [apply Hp; by left|].
      apply (IH p'); [done| |done]. intros H. apply Hp. by right.
  - exfalso. unfold Cut in E. rewrite list_ascii_of_app in E. cbn [String.list_ascii_of_string] in E.
    destruct (cut_ascii sep _) as [[x y]|] eqn:E'; [done|]. clear E Hin. revert E'.
    generalize (String.list_ascii_of_string s) as l. induction l as [|a l IH]; simpl.
    + by rewrite Ascii.eqb_refl.
    + destruct (Ascii.eqb a sep); [done|].
      destruct (cut_ascii sep (l ++ _)) as [[x y]|]; [done|]. intros _. by apply IH.
Qed.

(** Printable ASCII other than the space is not white space, at either end. *)
Lemma trim_front_solid s2 s3 b l :
  33 <= b <= 126 -> (forall c, s2 b c = false) -> (forall c d, s3 b c d = false) ->
  trim_front s2 s3 (b :: l) = b :: l.
Proof.
  intros Hb H2 H3. cbn [trim_front]. unfold rune_is_space. zdecide.
  assert (forall k, k = 32 \/ 126 < k -> (b =? k) = false) as He
    by (intros; apply Z.eqb_neq; lia).
  rewrite !He by lia. cbn [andb orb].
  destruct l as [|c l2]; [done|]. rewrite H2. destruct l2 as [|d l3]; [done|]. by rewrite H3.
Qed.

Lemma TrimSpace_solid s :
  Forall (fun b => 33 <= b <= 126) (bytes s) -> TrimSpace s = s.
Proof.
  intros H. unfold TrimSpace. rewrite <- (of_bytes_bytes s) at 2. f_equal.
  assert (Hlow : forall b k, 33 <= b <= 126 -> 126 < k -> (b =? k) = false)
    by (intros; apply Z.eqb_neq; lia).
  assert (trim_left (bytes s) = bytes s) as ->.
  { unfold trim_left. destruct H as [|b l Hb Hl]; [done|]. apply trim_front_solid; [done|..].
    - intros c. unfold space2. by rewrite Hlow by lia.
    - intros c d. unfold space3. by rewrite !(Hlow b) by lia. }
  unfold trim_right. rewrite <- (rev_involutive (bytes s)) at 2. f_equal.
  assert (Forall (fun b => 33 <= b <= 126) (rev (bytes s))) as H' by by apply List.Forall_rev.
  destruct H' as [|b l Hb Hl]; [done|]. apply trim_front_solid; [done|..].
  - intros c. unfold space2. rewrite !(Hlow b) by lia. by rewrite andb_false_r.
  - intros c d. unfold space3.
    assert (forall k k', 126 < k' -> (k <=? b) && (b <=? k') = (k <=? b)) by (intros; zdecide; apply andb_true_r).
    rewrite !(Hlow b) by lia. zdecide. by rewrite !andb_false_r.
Qed.

(** The longest run of digits is not negative. *)
Lemma decimal_nonneg l : forallb is_digit l = true -> 0 <= decimal l.
Proof.
  induction l as [|b l IH] using rev_ind; [by unfold decimal|].
  rewrite forallb_app, decimal_snoc. intros [Hl Hb]%andb_true_iff. simpl in Hb.
  unfold is_digit in Hb. breflect. specialize (IH Hl). lia.
Qed.

Lemma ParseUint_range s bits n : ParseUint s bits = Some n -> 0 <= n < 2 ^ bits.
Proof.
  unfold ParseUint. destruct (_ && _) eqn:E; [|done]. intros [= <-].
  apply andb_true_iff in E as [E H]. apply andb_true_iff in E as [_ E]. breflect.
  split; [by apply decimal_nonneg|done].
Qed.

Lemma HasPrefix_app s t : HasPrefix (s +:+ t) s = true.
Proof. unfold HasPrefix. induction s as [|a s IH]; simpl; [by destruct t|]. by destruct (Ascii.ascii_dec a a). Qed.

Lemma substring_app s t : String.substring (String.length s) (String.length t) (s +:+ t) = t.
Proof.
  induction s as [|a s IH]; [|done]. change ("" +:+ t) with t. simpl.
  induction t as [|b t IH]; simpl; [done|]. by rewrite IH.
Qed.

Lemma str_append_assoc s t r : (s +:+ t) +:+ r = s +:+ (t +:+ r).
Proof.
  induction s as [|a s IH]; [done|].
  change (String a ((s +:+ t) +:+ r) = String a (s +:+ (t +:+ r))). by rewrite IH.
Qed.

Lemma length_app_string s t : String.length (s +:+ t) = (String.length s + String.length t)%nat.
Proof. induction s; simpl; [done|]. by f_equal. Qed.

Lemma HasSuffix_app s t : HasSuffix (s +:+ t) t = true.
Proof.
  unfold HasSuffix, go_len. rewrite length_app_string.
  replace (String.length s + String.length t - String.length t)%nat with (String.length s) by lia.
  rewrite substring_app, String.eqb_refl, andb_true_r. apply Z.leb_le. lia.
Qed.

Lemma TrimPrefix_app s t : TrimPrefix (s +:+ t) s = t.
Proof.
  unfold TrimPrefix. rewrite HasPrefix_app, length_app_string.
  replace (_ + _ - _)%nat with (String.length t) by lia. apply substring_app.
Qed.

(** ** Go's regular expressions, leftmost first

    The expressions of the program as trees over predicates on runes, and the
    matcher of Go's [regexp] package: among the matches at the leftmost
    position the one a backtracking search finds first.  A matcher takes the
    rest of the text and a continuation; a repetition stops when an iteration
    matches the empty text. *)

Inductive Re : Type :=
| Eps
| One (p : Z -> bool)         (* a rune of a class *)
| Cat (r s : Re)
| Or (r s : Re)               (* the first alternative is tried first *)
| Many (r : Re)               (* greedy *)
| AtBegin                     (* ^ *)
| AtEnd.                      (* $ *)

Definition Some1 (r : Re) : Re := Cat r (Many r).
Definition Opt (r : Re) : Re := Or r Eps.
Fixpoint UpTo (n : nat) (r : Re) : Re :=
  match n with O => Eps | S n' => Opt (Cat r (UpTo n' r)) end.
(** [r{1,n}] *)
Definition Between1 (n : nat) (r : Re) : Re := Cat r (UpTo (n - 1) r).

(** A literal under [(?i)]. *)
Definition fold_lit (c : Z) : Re := One (fun r => rune_fold r =? rune_fold c).
Definition lit (c : Z) : Re := One (Z.eqb c).
Fixpoint word (f : Z -> Re) (l : list Z) : Re :=
  match l with
  | [] => Eps
  | [c] => f c
  | c :: l' => Cat (f c) (word f l')
  end.
Fixpoint any_of (rs : list Re) : Re :=
  match rs with [] => One (fun _ => false) | [r] => r | r :: rs' => Or r (any_of rs') end.

(** [\s] and [[:space:]]. *)
Definition perl_space (r : Z) : bool :=
  (r =? 9) || (r =? 10) || (r =? 12) || (r =? 13) || (r =? 32).
Definition posix_space (r : Z) : bool := perl_space r || (r =? 11).

(** Iterations of a matcher [m], as long as they consume. *)
Fixpoint iterate (m : list Z -> (list Z -> option (list Z)) -> option (list Z)) (n : nat)
    (s : list Z) (k : list Z -> option (list Z)) : option (list Z) :=
  match n with
  | O => k s
  | S n' =>
      match m s (fun s' => if Nat.ltb (length s') (length s) then iterate m n' s' k else None) with
      | Some rest => Some rest
      | None => k s
      end
  end.

(** [total] is the length of the whole text. *)
Fixpoint match_re (total : nat) (r : Re) (s : list Z) (k : list Z -> option (list Z)) :
    option (list Z) :=
  match r with
  | Eps => k s
  | One p => match s with c :: s' => if p c then k s' else None | [] => None end
  | Cat r1 r2 => match_re total r1 s (fun s' => match_re total r2 s' k)
  | Or r1 r2 => match match_re total r1 s k with Some x => Some x | None => match_re total r2 s k end
  | Many r1 => iterate (match_re total r1) (length s) s k
  | AtBegin => if Nat.eqb (length s) total then k s else None
  | AtEnd => match s with [] => k [] | _ => None end
  end.

(** What follows the match that starts here. *)
Definition match_at (total : nat) (r : Re) (s : list Z) : option (list Z) :=
  match_re total r s Some.

(** The leftmost match: the text before it, the match, the text after it. *)
Fixpoint find_from (total : nat) (r : Re) (s : list Z) : option (list Z * list Z * list Z) :=
  match match_at total r s with
  | Some rest => Some ([], take (length s - length rest) s, rest)
  | None =>
      match s with
      | c :: s' => '(before, m, rest) ← find_from total r s'; Some (c :: before, m, rest)
      | [] => None
      end
  end.

(** [FindString], [MatchString]. *)
Definition Find (r : Re) (s : list Z) : option (list Z * list Z * list Z) :=
  find_from (length s) r s.
Definition FindString (r : Re) (s : list Z) : list Z :=
  match Find r s with Some (_, m, _) => m | None => [] end.
Definition MatchString (r : Re) (s : list Z) : bool := bool_decide (is_Some (Find r s)).

(** [ReplaceAllString] by nothing of an expression that can only match once:
    at the beginning or at the end of the text. *)
Definition RemoveMatch (r : Re) (s : list Z) : list Z :=
  match Find r s with Some (before, _, rest) => before ++ rest | None => s end.

(** [FindAllString] of an expression that never matches the empty text. *)
Fixpoint find_all (fuel total : nat) (r : Re) (s : list Z) : list (list Z) :=
  match fuel with
  | O => []
  | S fuel' =>
      match find_from total r s with
      | Some (_, m, rest) => m :: find_all fuel' total r rest
      | None => []
      end
  end.
Definition FindAllString (r : Re) (s : list Z) : list (list Z) :=
  find_all (S (length s)) (length s) r s.

(** ** Laws: a match is a part of the text *)

(** [s] ends with [x]. *)
Definition suffix_of (x s : list Z) : Prop := exists p, s = p ++ x.

Lemma suffix_refl s : suffix_of s s.
Proof. by exists []. Qed.
Lemma suffix_trans x y z : suffix_of x y -> suffix_of y z -> suffix_of x z.
Proof. intros [p ->] [q ->]. exists (q ++ p). by rewrite app_assoc. Qed.
Lemma suffix_cons c s : suffix_of s (c :: s).
Proof. by exists [c]. Qed.

(** A matcher hands its continuation only suffixes of the text, so it answers
    one if its continuation does. *)
Definition suffixing (m : list Z -> (list Z -> option (list Z)) -> option (list Z)) : Prop :=
  forall t k, (forall s x, suffix_of s t -> k s = Some x -> suffix_of x t) ->
    forall s x, suffix_of s t -> m s k = Some x -> suffix_of x t.

Lemma iterate_suffixing m n : suffixing m -> suffixing (iterate m n).
Proof.
  intros Hm. induction n as [|n IH]; intros t k Hk s x Hs; simpl; [by apply Hk|].
  destruct (m s _) as [y|] eqn:E; [|by apply Hk].
  intros [= <-]. eapply Hm; [|exact Hs|exact E]. intros s' x' Hs'. simpl.
  destruct (Nat.ltb _ _); [|done]. by apply IH.
Qed.

Lemma match_re_suffixing total r : suffixing (match_re total r).
Proof.
  induction r as [|p|r1 IH1 r2 IH2|r1 IH1 r2 IH2|r1 IH1| |]; intros t k Hk s x Hs; simpl.
  - by apply Hk.
  - destruct s as [|c s]; [done|]. destruct (p c); [|done]. apply Hk.
    eapply suffix_trans; [apply suffix_cons|exact Hs].
  - apply IH1; [|done]. intros s' x' Hs'. by apply IH2.
  - destruct (match_re total r1 s k) as [y|] eqn:E.
    + intros [= <-]. by eapply IH1.
    + by apply IH2.
  - by apply (iterate_suffixing _ _ IH1).
  - destruct (Nat.eqb _ _); [by apply Hk|done].
  - destruct s; [by apply Hk|done].
Qed.

Lemma match_at_suffix total r s rest : match_at total r s = Some rest -> suffix_of rest s.
Proof.
  intros H. eapply match_re_suffixing; [|apply suffix_refl|exact H].
  by intros s' x Hs [= <-].
Qed.

Lemma take_before_suffix (x s : list Z) :
  suffix_of x s -> s = take (length s - length x) s ++ x.
Proof.
  intros [p ->]. rewrite length_app.
  replace (_ + _ - _)%nat with (length p) by lia. by rewrite take_app_length.
Qed.

(** Finding splits the text in three. *)
Lemma find_from_split total r s before m rest :
  find_from total r s = Some (before, m, rest) -> s = before ++ m ++ rest.
Proof.
  revert before. induction s as [|c s IH]; intros before; cbn [find_from].
  - destruct (match_at total r []) as [x|] eqn:E; [|done]. intros [= <- <- <-].
    apply match_at_suffix in E. exact (take_before_suffix _ _ E).
  - destruct (match_at total r (c :: s)) as [x|] eqn:E.
    + intros [= <- <- <-]. apply match_at_suffix in E. exact (take_before_suffix _ _ E).
    + destruct (find_from total r s) as [[[b m'] rest']|]; [|done].
      intros [= <- <- <-]. simpl. f_equal. by apply IH.
Qed.

Lemma RemoveMatch_length r s : (length (RemoveMatch r s) <= length s)%nat.
Proof.
  unfold RemoveMatch, Find. destruct (find_from _ r s) as [[[b m] rest]|] eqn:E; [|done].
  rewrite (find_from_split _ _ _ _ _ _ E), !length_app. lia.
Qed.

(** Removing a match changes nothing or shortens the text. *)
Lemma RemoveMatch_shorter r s :
  RemoveMatch r s = s \/ (length (RemoveMatch r s) < length s)%nat.
Proof.
  unfold RemoveMatch, Find. destruct (find_from _ r s) as [[[b m] rest]|] eqn:E; [|by left].
  rewrite (find_from_split _ _ _ _ _ _ E). destruct m as [|c m]; [by left|right].
  rewrite !length_app. simpl. lia.
Qed.

(** A matcher run on a text all of whose runes are in a class ends at its end. *)
Lemma iterate_class p s : forallb p s = true ->
  forall n, (length s <= n)%nat ->
  iterate (fun s k => match s with c :: s' => if p c then k s' else None | [] => None end) n s Some
  = Some [].
Proof.
  induction s as [|c s IH]; simpl; intros Hp n Hn.
  - destruct n; [done|]. simpl. done.
  - apply andb_true_iff in Hp as [Hc Hp]. destruct n as [|n]; [lia|]. simpl. rewrite Hc.
    destruct (Nat.ltb_spec (length s) (S (length s))); [|lia]. rewrite IH by (done || lia). done.
Qed.
