(* ===== verification/Json.v ===== *)
(** * Json: what the program uses of encoding/json

    [Marshal] of a struct of strings and booleans, the parser behind
    [Unmarshal] and [Decoder.Decode], and the decoding of struct fields.  The
    parser works on the runes of its input: inside a string an ill-formed byte
    is U+FFFD, as Go's unquoting makes it, and outside it is a syntax error
    either way.  Numbers keep their text. *)

From S2P Require Import Prelude Unicode GoStrings GoStd GoText.
Local Open Scope Z_scope.

Inductive Json : Type :=
| JNull
| JBoolean (b : bool)
| JNumber (text : string)
| JText (s : string)
| JArray (l : list Json)
| JObject (fields : list (string * Json)).

(** ** Marshal *)

(** The fields of a struct, in declaration order. *)
Definition json_struct (fields : list (string * JSONValue)) : string :=
  let field kv := json_string (fst kv) ++ [58] ++ json_value (snd kv) in
  of_bytes ([123] ++
    match fields with
    | [] => []
    | kv :: rest => field kv ++ flat_map (fun kv => [44] ++ field kv) rest
    end ++ [125]).

(** ** Parsing *)

Fixpoint skip_blanks (l : list Z) : list Z :=
  match l with
  | b :: l' => if (b =? 32) || (b =? 9) || (b =? 10) || (b =? 13) then skip_blanks l' else l
  | [] => []
  end.

Definition hex_value (b : Z) : option Z :=
  if (48 <=? b) && (b <=? 57) then Some (b - 48)
  else if (97 <=? b) && (b <=? 102) then Some (b - 87)
  else if (65 <=? b) && (b <=? 70) then Some (b - 55)
  else None.

Definition hex4_value (a b c d : Z) : option Z :=
  a ← hex_value a; b ← hex_value b; c ← hex_value c; d ← hex_value d;
  Some (((a * 16 + b) * 16 + c) * 16 + d).

Definition high_surrogate (r : Z) : bool := (55296 <=? r) && (r <? 56320).
Definition low_surrogate (r : Z) : bool := (56320 <=? r) && (r <? 57344).

Definition simple_escape (b : Z) : option Z :=
  if (b =? 34) || (b =? 92) || (b =? 47) then Some b
  else if b =? 98 then Some 8 else if b =? 102 then Some 12
  else if b =? 110 then Some 10 else if b =? 114 then Some 13
  else if b =? 116 then Some 9 else None.

(** The runes of a string after its opening quote, and what follows it.  A
    surrogate that does not start a pair becomes U+FFFD. *)
Fixpoint string_runes (l : list Z) : option (list Z * list Z) :=
  match l with
  | [] => None
  | 34 :: l' => Some ([], l')
  | 92 :: 117 :: a :: b :: c :: d :: l' =>
      r ← hex4_value a b c d;
      if high_surrogate r then
        match l' with
        | 92 :: 117 :: e :: f :: g :: h :: l'' =>
            r2 ← hex4_value e f g h;
            if low_surrogate r2 then
              '(rs, rest) ← string_runes l'';
              Some (65536 + (r - 55296) * 1024 + (r2 - 56320) :: rs, rest)
            else '(rs, rest) ← string_runes l'; Some (RuneError :: rs, rest)
        | _ => '(rs, rest) ← string_runes l'; Some (RuneError :: rs, rest)
        end
      else
        '(rs, rest) ← string_runes l';
        Some ((if low_surrogate r then RuneError else r) :: rs, rest)
  | 92 :: e :: l' =>
      r ← simple_escape e; '(rs, rest) ← string_runes l'; Some (r :: rs, rest)
  | r :: l' =>
      if (r <? 32) || (r =? 92) then None
      else '(rs, rest) ← string_runes l'; Some (r :: rs, rest)
  end.

(** [-? (0 | [1-9][0-9]* ) (. [0-9]+)? ([eE] [+-]? [0-9]+)?] *)
Fixpoint digit_run (l : list Z) : list Z * list Z :=
  match l with
  | b :: l' => if is_digit b then let (ds, rest) := digit_run l' in (b :: ds, rest) else ([], l)
  | [] => ([], [])
  end.

Definition some_digits (l : list Z) : option (list Z * list Z) :=
  match digit_run l with ([], _) => None | p => Some p end.

Definition number_text (l : list Z) : option (list Z * list Z) :=
  let (sign, l) := match l with 45 :: l' => ([45], l') | _ => ([], l) end in
  '(int, l) ← match l with
             | 48 :: l' => Some ([48], l')
             | _ => some_digits l
             end;
  '(frac, l) ← match l with
              | 46 :: l' => '(ds, l) ← some_digits l'; Some (46 :: ds, l)
              | _ => Some ([], l)
              end;
  '(exp, l) ← match l with
             | e :: l' =>
                 if (e =? 101) || (e =? 69) then
                   let (s, l') := match l' with
                                  | 43 :: l'' => ([43], l'') | 45 :: l'' => ([45], l'')
                                  | _ => ([], l') end in
                   '(ds, l) ← some_digits l'; Some (e :: s ++ ds, l)
                 else Some ([], l)
             | [] => Some ([], l)
             end;
  Some (sign ++ int ++ frac ++ exp, l).

Fixpoint literal (lit l : list Z) : option (list Z) :=
  match lit, l with
  | [], _ => Some l
  | a :: lit', b :: l' => if a =? b then literal lit' l' else None
  | _ :: _, [] => None
  end.

(** Every level of nesting takes at least one rune, so the length of the input
    is enough fuel. *)
Fixpoint parse_value (fuel : nat) (l : list Z) : option (Json * list Z) :=
  match fuel with
  | O => None
  | S n =>
      match skip_blanks l with
      | 110 :: l' => rest ← literal (bytes "ull") l'; Some (JNull, rest)
      | 116 :: l' => rest ← literal (bytes "rue") l'; Some (JBoolean true, rest)
      | 102 :: l' => rest ← literal (bytes "alse") l'; Some (JBoolean false, rest)
      | 34 :: l' => '(rs, rest) ← string_runes l'; Some (JText (of_runes rs), rest)
      | 91 :: l' =>
          match skip_blanks l' with
          | 93 :: rest => Some (JArray [], rest)
          | _ => '(items, rest) ← parse_items n l'; Some (JArray items, rest)
          end
      | 123 :: l' =>
          match skip_blanks l' with
          | 125 :: rest => Some (JObject [], rest)
          | _ => '(fields, rest) ← parse_fields n l'; Some (JObject fields, rest)
          end
      | l => '(text, rest) ← number_text l; Some (JNumber (of_bytes text), rest)
      end
  end
with parse_items (fuel : nat) (l : list Z) : option (list Json * list Z) :=
  match fuel with
  | O => None
  | S n =>
      '(v, l) ← parse_value n l;
      match skip_blanks l with
      | 44 :: l' => '(vs, rest) ← parse_items n l'; Some (v :: vs, rest)
      | 93 :: rest => Some ([v], rest)
      | _ => None
      end
  end
with parse_fields (fuel : nat) (l : list Z) : option (list (string * Json) * list Z) :=
  match fuel with
  | O => None
  | S n =>
      match skip_blanks l with
      | 34 :: l' =>
          '(rs, l) ← string_runes l';
          match skip_blanks l with
          | 58 :: l' =>
              '(v, l) ← parse_value n l';
              let kv := (of_runes rs, v) in
              match skip_blanks l with
              | 44 :: l' => '(kvs, rest) ← parse_fields n l'; Some (kv :: kvs, rest)
              | 125 :: rest => Some ([kv], rest)
              | _ => None
              end
          | _ => None
          end
      | _ => None
      end
  end.

Definition json_fuel (l : list Z) : nat := S (2 * length l).

(** [Decoder.Decode] reads one value and leaves the rest of the stream. *)
Definition json_decode (s : string) : option Json :=
  let l := runes s in fst <$> parse_value (json_fuel l) l.

(** [Unmarshal] wants nothing but blanks after it. *)
Definition json_unmarshal (s : string) : option Json :=
  let l := runes s in
  '(v, rest) ← parse_value (json_fuel l) l;
  match skip_blanks rest with [] => Some v | _ => None end.

(** ** Fields of structs

    Names match without regard to case, the last value counts, [null] leaves
    the field alone, and a value of another type is an error. *)

Fixpoint decode_text_field (name : string) (acc : string) (fields : list (string * Json)) :
    option string :=
  match fields with
  | [] => Some acc
  | (k, v) :: fields' =>
      if EqualFold k name then
        match v with
        | JText s => decode_text_field name s fields'
        | JNull => decode_text_field name acc fields'
        | _ => None
        end
      else decode_text_field name acc fields'
  end.

Fixpoint decode_bool_field (name : string) (acc : bool) (fields : list (string * Json)) :
    option bool :=
  match fields with
  | [] => Some acc
  | (k, v) :: fields' =>
      if EqualFold k name then
        match v with
        | JBoolean b => decode_bool_field name b fields'
        | JNull => decode_bool_field name acc fields'
        | _ => None
        end
      else decode_bool_field name acc fields'
  end.

(** [int] and [int64]: the literal must be an integer of 64 bits. *)
Definition int64_text (s : string) : option Z :=
  let '(sign, digits) := match bytes s with 45 :: l => (-1, l) | l => (1, l) end in
  let n := sign * decimal digits in
  if negb (Nat.eqb (length digits) 0) && forallb is_digit digits && (- 2 ^ 63 <=? n) && (n <? 2 ^ 63)
  then Some n else None.

Fixpoint decode_int_field (name : string) (acc : Z) (fields : list (string * Json)) : option Z :=
  match fields with
  | [] => Some acc
  | (k, v) :: fields' =>
      if EqualFold k name then
        match v with
        | JNumber s => n ← int64_text s; decode_int_field name n fields'
        | JNull => decode_int_field name acc fields'
        | _ => None
        end
      else decode_int_field name acc fields'
  end.

(** The dates [time.Time] accepts: RFC 3339, strictly. *)
Definition days_in (y m : Z) : Z :=
  if (m =? 2)
  then (if (y mod 4 =? 0) && (negb (y mod 100 =? 0) || (y mod 400 =? 0)) then 29 else 28)
  else if (m =? 4) || (m =? 6) || (m =? 9) || (m =? 11) then 30 else 31.

Fixpoint drop_digits (l : list Z) : list Z :=
  match l with b :: l' => if is_digit b then drop_digits l' else l | [] => [] end.

Definition zone_ok (l : list Z) : bool :=
  match l with
  | [z] => z =? 90
  | [sign; h1; h2; colon; m1; m2] =>
      ((sign =? 43) || (sign =? 45)) && forallb is_digit [h1; h2; m1; m2] && (colon =? 58)
      && (decimal [h1; h2] <? 24) && (decimal [m1; m2] <? 60)
  | _ => false
  end.

Definition fraction_ok (l : list Z) : bool :=
  match l with
  | 46 :: d :: l' => is_digit d && zone_ok (drop_digits l')
  | _ => zone_ok l
  end.

Definition rfc3339_ok (s : string) : bool :=
  let l := bytes s in
  let part i n := take n (drop i l) in
  let sep i b := nth i l 0 =? b in
  (19 <=? Z.of_nat (length l))
  && forallb is_digit (part 0%nat 4%nat ++ part 5%nat 2%nat ++ part 8%nat 2%nat
                       ++ part 11%nat 2%nat ++ part 14%nat 2%nat ++ part 17%nat 2%nat)
  && sep 4%nat 45 && sep 7%nat 45 && sep 10%nat 84 && sep 13%nat 58 && sep 16%nat 58
  && (1 <=? decimal (part 5%nat 2%nat)) && (decimal (part 5%nat 2%nat) <=? 12)
  && (1 <=? decimal (part 8%nat 2%nat))
  && (decimal (part 8%nat 2%nat)
      <=? days_in (decimal (part 0%nat 4%nat)) (decimal (part 5%nat 2%nat)))
  && (decimal (part 11%nat 2%nat) <? 24) && (decimal (part 14%nat 2%nat) <? 60)
  && (decimal (part 17%nat 2%nat) <? 60) && fraction_ok (drop 19 l).

(** Whether every value of a date field can be read. *)
Definition time_field_ok (name : string) (fields : list (string * Json)) : bool :=
  forallb (fun kv => negb (EqualFold (fst kv) name)
                     || match snd kv with JText s => rfc3339_ok s | JNull => true | _ => false end)
    fields.

Example rfc3339_ex :
  map rfc3339_ok ["2024-02-29T23:59:59Z"; "2024-02-29T23:59:59.123+01:30"; "0001-01-01T00:00:00Z";
                  "2023-02-29T00:00:00Z"; "2024-01-01 00:00:00Z"; "2024-01-01T00:00:00.Z"; ""]
  = [true; true; true; false; false; false; false].
Proof. vm_compute. reflexivity. Qed.

(** [DisallowUnknownFields]. *)
Definition known_fields (names : list string) (fields : list (string * Json)) : bool :=
  forallb (fun kv => existsb (EqualFold (fst kv)) names) fields.

Example json_ex1 :
  json_unmarshal (of_bytes (map (fun b => if b =? 39 then 34 else b)
     (bytes " {'a' : [1, -2.5e3, true], 'b':{'c':null}, 'd':'x\u0041\ud83d\ude00'} ")))
  = Some (JObject [("a", JArray [JNumber "1"; JNumber "-2.5e3"; JBoolean true]);
                   ("b", JObject [("c", JNull)]);
                   ("d", JText (of_runes [120; 65; 128512]))]).
Proof. vm_compute. reflexivity. Qed.
Example json_ex2 : json_unmarshal "[1,]" = None.
Proof. vm_compute. reflexivity. Qed.
Example json_ex3 : json_unmarshal "01" = None /\ json_decode "1 x" = Some (JNumber "1").
Proof. vm_compute. split; reflexivity. Qed.

(** ** Strings come back *)

(** The runes of the literal [json_rune] writes for a rune. *)
Definition rune_literal (r : Z) : list Z :=
  if (r =? 34) || (r =? 92) then [92; r]
  else if r =? 8 then [92; 98] else if r =? 12 then [92; 102]
  else if r =? 10 then [92; 110] else if r =? 13 then [92; 114] else if r =? 9 then [92; 116]
  else if r =? -1 then [92; 117] ++ hex4 RuneError
  else if (r <? 32) || (r =? 60) || (r =? 62) || (r =? 38) || (r =? 8232) || (r =? 8233)
  then [92; 117] ++ hex4 r
  else [r].

Definition scalar (r : Z) : bool := (r =? -1) || valid_rune r.

Lemma scalar_range r : scalar r = true -> -1 <= r <= 1114111.
Proof.
  unfold scalar, valid_rune. intros H. apply orb_true_iff in H as [H|H]; [breflect; lia|].
  apply orb_true_iff in H as [H|H]; breflect; lia.
Qed.

Lemma encode_ascii b : 0 <= b < 128 -> encode_rune b = [b].
Proof. intros. unfold encode_rune, valid_rune. zdecide. simpl. by zdecide. Qed.

Lemma encode_ascii_list l : Forall (fun b => 0 <= b < 128) l -> encode_runes l = l.
Proof.
  induction 1 as [|b l Hb _ IH]; [done|]. simpl. by rewrite encode_ascii, IH.
Qed.

Lemma hex_digit_range n : 0 <= n < 16 -> 48 <= hex_digit n < 103.
Proof. intros. unfold hex_digit. destruct (Z.ltb_spec n 10); lia. Qed.

Lemma hex_value_digit n : 0 <= n < 16 -> hex_value (hex_digit n) = Some n.
Proof.
  intros. unfold hex_value, hex_digit. destruct (Z.ltb_spec n 10).
  - zdecide. simpl. f_equal. lia.
  - destruct ((48 <=? 87 + n) && (87 + n <=? 57)) eqn:E; [breflect; lia|].
    zdecide. simpl. f_equal. lia.
Qed.

Section Hex4.
Variable r : Z.
Hypothesis Hr : 0 <= r < 65536.

Lemma hex4_digits :
  0 <= r / 4096 < 16 /\ 0 <= r / 256 mod 16 < 16 /\ 0 <= r / 16 mod 16 < 16 /\ 0 <= r mod 16 < 16.
Proof. Z.to_euclidean_division_equations. lia. Qed.

Lemma hex4_ascii : Forall (fun b => 0 <= b < 128) (hex4 r).
Proof.
  destruct hex4_digits as (Ha & Hb & Hc & Hd). unfold hex4.
  pose proof (hex_digit_range _ Ha). pose proof (hex_digit_range _ Hb).
  pose proof (hex_digit_range _ Hc). pose proof (hex_digit_range _ Hd).
  repeat constructor; lia.
Qed.

Lemma hex4_value_digits :
  hex4_value (hex_digit (r / 4096)) (hex_digit (r / 256 mod 16)) (hex_digit (r / 16 mod 16))
    (hex_digit (r mod 16)) = Some r.
Proof.
  destruct hex4_digits as (Ha & Hb & Hc & Hd). unfold hex4_value.
  rewrite !hex_value_digit by lia. simpl. f_equal. Z.to_euclidean_division_equations. lia.
Qed.
End Hex4.

(** The cases of a literal, one per branch. *)
Ltac literal_cases r :=
  destruct (Z.eqb_spec r 34); [subst|];
  [|destruct (Z.eqb_spec r 92); [subst|]];
  [| |destruct (Z.eqb_spec r 8); [subst|]];
  [| | |destruct (Z.eqb_spec r 12); [subst|]];
  [| | | |destruct (Z.eqb_spec r 10); [subst|]];
  [| | | | |destruct (Z.eqb_spec r 13); [subst|]];
  [| | | | | |destruct (Z.eqb_spec r 9); [subst|]];
  [| | | | | | |destruct (Z.eqb_spec r (-1)); [subst|]].

Lemma json_rune_literal r : scalar r = true -> json_rune r = encode_runes (rune_literal r).
Proof.
  intros Hs. pose proof (scalar_range r Hs). unfold json_rune, rune_literal.
  literal_cases r; [done..|]. cbn [orb].
  destruct ((r <? 32) || _ || _ || _ || _ || _) eqn:E; [|simpl; by rewrite app_nil_r].
  rewrite encode_ascii_list; [done|].
  assert (0 <= r < 65536).
  { repeat (apply orb_true_iff in E as [E|E]; [|breflect; lia]). breflect. lia. }
  repeat (apply Forall_cons_2; [lia|]). by apply hex4_ascii.
Qed.

Lemma rune_literal_valid r : scalar r = true -> forallb valid_rune (rune_literal r) = true.
Proof.
  intros Hs. pose proof (scalar_range r Hs). unfold rune_literal.
  literal_cases r; [done..|]. cbn [orb].
  destruct ((r <? 32) || _ || _ || _ || _ || _) eqn:E.
  - assert (0 <= r < 65536) as Hr.
    { repeat (apply orb_true_iff in E as [E|E]; [|breflect; lia]). breflect. lia. }
    apply forallb_forall. intros b Hb. simpl in Hb.
    pose proof (hex4_ascii r Hr) as Ha. rewrite List.Forall_forall in Ha.
    assert (0 <= b < 128) as Hb'.
    { destruct Hb as [<-|[<-|Hb]]; [lia|lia|]. by apply Ha. }
    unfold valid_rune. zdecide. done.
  - simpl. unfold scalar in Hs. apply orb_true_iff in Hs as [Hs| ->]; [breflect; lia|done].
Qed.

Definition decoded (r : Z) : Z := if r =? -1 then RuneError else r.

Lemma string_runes_hex4 r l :
  0 <= r < 55296 \/ 57344 <= r < 65536 ->
  string_runes (92 :: 117 :: hex4 r ++ l)
  = '(rs, rest) ← string_runes l; Some (r :: rs, rest).
Proof.
  intros Hr. unfold hex4. cbn [app string_runes].
  rewrite hex4_value_digits by lia. cbn.
  unfold high_surrogate, low_surrogate.
  replace ((55296 <=? r) && (r <? 56320)) with false by (symmetry; apply andb_false_iff; lia).
  by replace ((56320 <=? r) && (r <? 57344)) with false by (symmetry; apply andb_false_iff; lia).
Qed.

(** Any rune but the quote, the backslash and the controls stands for itself. *)
Lemma string_runes_plain r l :
  32 <= r -> r <> 34 -> r <> 92 ->
  string_runes (r :: l) = '(rs, rest) ← string_runes l; Some (r :: rs, rest).
Proof.
  intros H32 H34 H92. cbn [string_runes].
  replace ((r <? 32) || (r =? 92)) with false
    by (symmetry; apply orb_false_iff; split; [apply Z.ltb_ge|apply Z.eqb_neq]; lia).
  destruct r as [|p|p]; try lia.
  repeat (destruct p as [p|p|]; try reflexivity; try lia).
Qed.

Lemma string_runes_literal r l :
  scalar r = true ->
  string_runes (rune_literal r ++ l)
  = '(rs, rest) ← string_runes l; Some (decoded r :: rs, rest).
Proof.
  intros Hs. pose proof (scalar_range r Hs) as Hr. unfold rune_literal, decoded.
  literal_cases r; try done.
  cbn [orb].
  destruct ((r <? 32) || _ || _ || _ || _ || _) eqn:E.
  - rewrite <- app_assoc. apply string_runes_hex4.
    repeat (apply orb_true_iff in E as [E|E]; [|breflect; lia]). breflect. lia.
  - breflect. by apply string_runes_plain.
Qed.

Lemma string_runes_literals rs l :
  forallb scalar rs = true ->
  string_runes (flat_map rune_literal rs ++ 34 :: l) = Some (map decoded rs, l).
Proof.
  induction rs as [|r rs IH]; simpl; [done|]. intros H. breflect.
  rewrite <- app_assoc, string_runes_literal by done. by rewrite IH.
Qed.

(** Decoding an ill-formed byte as [-1] or as U+FFFD only differs there. *)
Lemma decoded_decode l : is_bytes l -> map decoded (decode_with (-1) l) = decode_runes l.
Proof.
  remember (length l) as n eqn:Hn. revert l Hn.
  induction n as [n IH] using lt_wf_ind. intros l -> Hl.
  assert (Hrec : forall k, (length k < length l)%nat -> is_bytes k ->
                   map decoded (decode_with (-1) k) = decode_runes k)
    by (intros k Hk Hb; by eapply IH).
  clear IH.
  assert (Hpos : forall x k, 0 <= x -> (length k < length l)%nat -> is_bytes k ->
            map decoded (x :: decode_with (-1) k) = x :: decode_runes k).
  { intros x k Hx Hk Hb. cbn [map]. rewrite Hrec by done. unfold decoded.
    destruct (Z.eqb_spec x (-1)); [lia|done]. }
  destruct l as [|b0 l1]; [done|]. apply Forall_cons_1 in Hl as [H0 Hl1]. cbn [decode_with].
  destruct (b0 <? 128) eqn:E0; [apply Hpos; [lia|simpl; lia|done]|].
  assert (Herr : map decoded (-1 :: decode_with (-1) l1) = RuneError :: decode_runes l1).
  { cbn [map]. rewrite Hrec; [done|simpl; lia|done]. }
  destruct l1 as [|b1 l2]; [done|]. apply Forall_cons_1 in Hl1 as [H1 Hl2].
  destruct (_ && cont b1) eqn:E1.
  { unfold cont in *. breflect. apply Hpos; [lia|simpl; lia|done]. }
  destruct l2 as [|b2 l3]; [exact Herr|]. apply Forall_cons_1 in Hl2 as [H2 Hl3].
  destruct (_ && cont b2) eqn:E2.
  { unfold cont, second_ok in *. breflect.
    apply Hpos; [|simpl; lia|done]. repeat case_match; unfold cont in *; breflect; lia. }
  destruct l3 as [|b3 l4]; [exact Herr|]. apply Forall_cons_1 in Hl3 as [H3 Hl4].
  destruct (_ && cont b3) eqn:E3; [|exact Herr].
  unfold cont, second_ok in *. breflect.
  apply Hpos; [|simpl; lia|done]. repeat case_match; unfold cont in *; breflect; lia.
Qed.

Lemma decode_scalar l : is_bytes l -> forallb scalar (decode_with (-1) l) = true.
Proof.
  intros Hl. pose proof (decode_valid l Hl) as Hv. rewrite <- decoded_decode in Hv by done.
  induction (decode_with (-1) l) as [|r rs IH]; simpl in *; [done|]. breflect.
  rewrite IH by done. rewrite andb_true_r. unfold scalar, decoded in *.
  by destruct (r =? -1).
Qed.

(** ** Structs come back

    [clean s] is [s] with every ill-formed byte replaced by U+FFFD. *)

Definition clean (s : string) : string := of_runes (runes s).

Definition text_runes (s : string) : list Z :=
  34 :: flat_map rune_literal (decode_with (-1) (bytes s)) ++ [34].
Definition value_runes (v : JSONValue) : list Z :=
  match v with
  | JString s => text_runes s
  | JBool b => bytes (if b then "true" else "false")
  | JInt _ => json_value v
  end.
Definition field_runes (kv : string * JSONValue) : list Z :=
  text_runes (fst kv) ++ 58 :: value_runes (snd kv).
Definition struct_runes (kv : string * JSONValue) (kvs : list (string * JSONValue)) : list Z :=
  field_runes kv ++ flat_map (fun kv => 44 :: field_runes kv) kvs ++ [125].

Definition read_back (kv : string * JSONValue) : string * Json :=
  (clean (fst kv), match snd kv with
                   | JString s => JText (clean s)
                   | JBool b => JBoolean b
                   | JInt _ => JNumber (of_bytes (json_value (snd kv)))
                   end).

(** The integers the lemmas are about, and where a number ends. *)
Definition readable (v : JSONValue) : bool :=
  match v with JInt n => (0 <=? n) && (n <? 10 ^ 20) | _ => true end.
Definition number_ends (l : list Z) : bool :=
  match l with b :: _ => negb (is_digit b) && negb (b =? 46) && negb (b =? 101) && negb (b =? 69) | [] => true end.

Lemma digits_are_digits fuel : forall n, 0 <= n -> forallb is_digit (digits fuel n) = true.
Proof.
  induction fuel as [|fuel IH]; intros n Hn; [done|]. cbn [digits].
  destruct (Z.ltb_spec n 10); [cbn; unfold is_digit; zdecide; done|].
  pose proof (Z.mod_pos_bound n 10 ltac:(lia)).
  rewrite forallb_app, IH by (apply Z.div_pos; lia). cbn. unfold is_digit. zdecide. done.
Qed.

Lemma digits_leading fuel : forall n, 0 < n < 10 ^ Z.of_nat fuel ->
  exists b l, digits fuel n = b :: l /\ 49 <= b <= 57.
Proof.
  induction fuel as [|fuel IH]; intros n Hn; [change (10 ^ Z.of_nat 0) with 1 in Hn; lia|].
  cbn [digits]. destruct (Z.ltb_spec n 10); [exists (48 + n), []; split; [done|lia]|].
  rewrite Nat2Z.inj_succ, Z.pow_succ_r in Hn by lia.
  destruct (IH (n / 10)) as (b & l & -> & Hb); [|by exists b, (l ++ [48 + n mod 10])].
  split; [apply Z.div_str_pos; lia|apply Z.div_lt_upper_bound; lia].
Qed.

Lemma digit_run_number ds l : forallb is_digit ds = true -> number_ends l = true -> digit_run (ds ++ l) = (ds, l).
Proof.
  intros Hd Hl. induction ds as [|d ds IH]; cbn [app digit_run forallb] in *.
  - destruct l as [|b l]; [done|]. cbn in Hl |- *. by destruct (is_digit b).
  - apply andb_true_iff in Hd as [-> Hd]. by rewrite IH.
Qed.

(** Pattern matching on a rune that is none of the patterns. *)
Ltac other_rune b := destruct b as [|b|b]; try lia; try done; repeat (destruct b as [b|b|]; try lia; try done).

Lemma number_text_int n l : 0 <= n < 10 ^ 20 -> number_ends l = true ->
  number_text (digits 20 n ++ l) = Some (digits 20 n, l).
Proof.
  intros Hn Hl.
  assert (Hrest : forall int,
    ('(frac, l) ← match l with 46 :: l' => '(ds, l) ← some_digits l'; Some (46 :: ds, l) | _ => Some ([], l) end;
     '(exp, l) ← match l with
               | e :: l' =>
                   if (e =? 101) || (e =? 69) then
                     let (s, l') := match l' with 43 :: l'' => ([43], l'') | 45 :: l'' => ([45], l'') | _ => ([], l') end in
                     '(ds, l) ← some_digits l'; Some (e :: s ++ ds, l)
                   else Some ([], l)
               | [] => Some ([], l)
               end;
     Some ([] ++ int ++ frac ++ exp, l)) = Some (int, l)).
  { intros int. destruct l as [|b l].
    - cbn. by rewrite app_nil_r.
    - cbn [number_ends] in Hl. breflect.
      assert (match b :: l with 46 :: l' => '(ds, l) ← some_digits l'; Some (46 :: ds, l) | _ => Some ([], b :: l) end
              = Some ([], b :: l)) as -> by other_rune b.
      cbn [mbind option_bind]. rewrite (proj2 (Z.eqb_neq b 101)), (proj2 (Z.eqb_neq b 69)) by done.
      cbn. by rewrite app_nil_r. }
  destruct (Z.eq_dec n 0) as [->|Hz]; [exact (Hrest [48])|].
  destruct (digits_leading 20 n) as (b & ds & E & Hb); [lia|].
  assert (Hrun : some_digits (digits 20 n ++ l) = Some (digits 20 n, l)).
  { unfold some_digits. rewrite digit_run_number by (done || (apply digits_are_digits; lia)). by rewrite E. }
  rewrite E in *. cbn [app] in *. unfold number_text.
  assert (match b :: ds ++ l with 45 :: l' => ([45], l') | _ => ([], b :: ds ++ l) end = ([], b :: ds ++ l))
    as -> by other_rune b.
  assert (match b :: ds ++ l with 48 :: l' => Some ([48], l') | _ => some_digits (b :: ds ++ l) end
          = Some (b :: ds, l)) as -> by (rewrite <- Hrun; other_rune b).
  exact (Hrest (b :: ds)).
Qed.

Lemma json_int n : 0 <= n -> json_value (JInt n) = digits 20 n.
Proof. intros. unfold json_value. zdecide. by rewrite Z.abs_eq by done. Qed.

Lemma json_int_ascii n : Forall (fun b => 0 <= b < 128) (json_value (JInt n)).
Proof.
  unfold json_value. apply Forall_app. split; [destruct (n <? 0); repeat constructor; lia|].
  apply List.Forall_forall. intros b Hb.
  assert (Hd : forallb is_digit (digits 20 (Z.abs n)) = true) by (apply digits_are_digits; lia).
  rewrite forallb_forall in Hd. specialize (Hd b Hb). unfold is_digit in Hd. breflect. lia.
Qed.

Lemma encode_runes_app l k : encode_runes (l ++ k) = encode_runes l ++ encode_runes k.
Proof. apply flat_map_app. Qed.

Lemma encode_runes_flat_map {A} (f g : A -> list Z) l :
  (forall a, In a l -> encode_runes (f a) = g a) -> encode_runes (flat_map f l) = flat_map g l.
Proof.
  induction l as [|a l IH]; simpl; [done|]. intros H.
  rewrite encode_runes_app, H, IH by auto. done.
Qed.

Lemma encode_text_runes s : encode_runes (text_runes s) = json_string s.
Proof.
  unfold text_runes, json_string. change (34 :: ?l) with ([34] ++ l).
  rewrite !encode_runes_app. f_equal. f_equal. apply encode_runes_flat_map.
  intros r Hr. symmetry. apply json_rune_literal.
  pose proof (decode_scalar _ (bytes_is_bytes s)) as H. rewrite forallb_forall in H. auto.
Qed.

Lemma encode_value_runes v : encode_runes (value_runes v) = json_value v.
Proof. destruct v as [s|[]|n]; [apply encode_text_runes|done|done|apply encode_ascii_list, json_int_ascii]. Qed.

Lemma encode_field_runes kv :
  encode_runes (field_runes kv) = json_string (fst kv) ++ [58] ++ json_value (snd kv).
Proof.
  unfold field_runes. change (58 :: ?l) with ([58] ++ l).
  by rewrite !encode_runes_app, encode_text_runes, encode_value_runes.
Qed.

Lemma encode_struct_runes kv kvs :
  of_bytes (encode_runes (123 :: struct_runes kv kvs)) = json_struct (kv :: kvs).
Proof.
  unfold json_struct, struct_runes. f_equal. change (123 :: ?l) with ([123] ++ l).
  rewrite !encode_runes_app, encode_field_runes.
  erewrite encode_runes_flat_map; [by rewrite <- !app_assoc|]. intros kv' _.
  change (44 :: ?l) with ([44] ++ l). rewrite encode_runes_app, encode_field_runes. reflexivity.
Qed.

Lemma text_runes_valid s : forallb valid_rune (text_runes s) = true.
Proof.
  unfold text_runes. cbn [forallb]. rewrite forallb_app. simpl. rewrite andb_true_r.
  pose proof (decode_scalar _ (bytes_is_bytes s)) as H.
  induction (decode_with (-1) (bytes s)) as [|r rs IH]; simpl in *; [done|]. breflect.
  rewrite forallb_app, rune_literal_valid by done. by apply IH.
Qed.

Lemma value_runes_valid v : forallb valid_rune (value_runes v) = true.
Proof.
  destruct v as [s|[]|n]; [apply text_runes_valid|done|done|]. cbn [value_runes].
  apply forallb_forall. intros b Hb. pose proof (json_int_ascii n) as H. rewrite List.Forall_forall in H.
  specialize (H b Hb). unfold valid_rune. zdecide. done.
Qed.

Lemma field_runes_valid kv : forallb valid_rune (field_runes kv) = true.
Proof.
  unfold field_runes. rewrite forallb_app, text_runes_valid. cbn [forallb].
  by rewrite value_runes_valid.
Qed.

Lemma struct_runes_valid kv kvs : forallb valid_rune (123 :: struct_runes kv kvs) = true.
Proof.
  unfold struct_runes. cbn [forallb]. rewrite forallb_app, field_runes_valid, forallb_app.
  cbn [forallb]. rewrite andb_true_r. cbn [andb]. induction kvs as [|kv' kvs IH]; [done|].
  cbn [flat_map app forallb]. rewrite forallb_app, field_runes_valid. exact IH.
Qed.

Lemma string_runes_text s l :
  string_runes (tail (text_runes s) ++ l) = Some (runes s, l).
Proof.
  unfold text_runes. cbn [tail]. rewrite <- app_assoc. cbn [app].
  rewrite string_runes_literals by apply decode_scalar, bytes_is_bytes.
  by rewrite decoded_decode by apply bytes_is_bytes.
Qed.

Lemma parse_value_back n v l :
  readable v = true -> number_ends l = true ->
  parse_value (S n) (value_runes v ++ l) = Some (snd (read_back ("", v)), l).
Proof.
  intros Hv Hl. destruct v as [s|[]|m]; [|done|done|].
  - change (value_runes (JString s) ++ l) with (34 :: (tail (text_runes s) ++ l)).
    cbn [parse_value skip_blanks]. cbn -[string_runes text_runes]. by rewrite string_runes_text.
  - unfold readable in Hv. breflect. cbn [value_runes read_back snd]. rewrite json_int by done.
    pose proof (number_text_int m l ltac:(lia) Hl) as Ht.
    assert (Hd : forallb is_digit (digits 20 m) = true) by (by apply digits_are_digits).
    assert (exists b ds, digits 20 m = b :: ds /\ is_digit b = true) as (b & ds & E & Hb).
    { destruct (digits_decimal 20 m) as (_ & _ & Hne); [lia|]. specialize (Hne ltac:(done)).
      destruct (digits 20 m) as [|b ds]; [done|]. exists b, ds. split; [done|]. cbn in Hd. by apply andb_true_iff in Hd as [? _]. }
    rewrite E in *. cbn [app] in *. unfold is_digit in Hb. breflect.
    assert (parse_value (S n) (b :: ds ++ l)
            = '(text, rest) ← number_text (b :: ds ++ l); Some (JNumber (of_bytes text), rest)) as -> by other_rune b.
    by rewrite Ht.
Qed.

Lemma parse_fields_back kvs : forall kv n l,
  (length kvs < n)%nat -> forallb (fun kv => readable (snd kv)) (kv :: kvs) = true ->
  parse_fields (S n) (struct_runes kv kvs ++ l) = Some (map read_back (kv :: kvs), l).
Proof.
  induction kvs as [|kv' kvs IH]; intros kv n l Hn Hr; cbn [forallb] in Hr; apply andb_true_iff in Hr as [Hv Hr].
  - destruct n as [|n]; [simpl in Hn; lia|]. unfold struct_runes, field_runes.
    rewrite <- !app_assoc.
    change (text_runes (fst kv) ++ ?k) with (34 :: (tail (text_runes (fst kv)) ++ k)).
    cbn [parse_fields skip_blanks Z.eqb Pos.eqb orb]. rewrite string_runes_text.
    cbn [mbind option_bind app flat_map skip_blanks Z.eqb Pos.eqb orb].
    rewrite parse_value_back by done. done.
  - destruct n as [|n]; [simpl in Hn; lia|]. unfold struct_runes, field_runes at 1.
    rewrite <- !app_assoc.
    change (text_runes (fst kv) ++ ?k) with (34 :: (tail (text_runes (fst kv)) ++ k)).
    cbn [parse_fields skip_blanks Z.eqb Pos.eqb orb]. rewrite string_runes_text.
    cbn [mbind option_bind app flat_map skip_blanks Z.eqb Pos.eqb orb].
    rewrite parse_value_back by done. cbn [mbind option_bind skip_blanks Z.eqb Pos.eqb orb].
    specialize (IH kv' n l ltac:(simpl in Hn; lia) Hr). unfold struct_runes in IH.
    rewrite <- !app_assoc in IH. rewrite <- !app_assoc.
    cbn [parse_fields app] in IH. cbn [app]. rewrite IH. done.
Qed.

(** A marshalled struct is parsed to its fields, and nothing is left. *)
Lemma parse_struct_back kv kvs :
  forallb (fun kv => readable (snd kv)) (kv :: kvs) = true ->
  let l := runes (json_struct (kv :: kvs)) in
  parse_value (json_fuel l) l = Some (JObject (map read_back (kv :: kvs)), []).
Proof.
  intros Hr. cbv zeta. rewrite <- encode_struct_runes.
  change (runes (of_bytes (encode_runes ?l))) with (runes (of_runes l)).
  rewrite runes_of_runes by apply struct_runes_valid.
  assert (Hlen : (length kvs + 2 < 2 * length (123%Z :: struct_runes kv kvs))%nat).
  { unfold struct_runes. rewrite length_cons, !length_app.
    clear Hr. generalize (length (field_runes kv)) as m. intros m.
    induction kvs as [|k kvs IH]; simpl in *; [lia|]. rewrite ?length_app. simpl. lia. }
  unfold json_fuel. destruct (2 * _)%nat as [|[|n]]; [lia|lia|].
  cbn [parse_value skip_blanks Z.eqb Pos.eqb orb].
  pose proof (parse_fields_back kvs kv (S n) [] ltac:(lia) Hr) as H. rewrite app_nil_r in H.
  rewrite H. done.
Qed.

(** [Decode] and [Unmarshal] of it give its fields back. *)
Lemma json_struct_back kv kvs :
  forallb (fun kv => readable (snd kv)) (kv :: kvs) = true ->
  json_decode (json_struct (kv :: kvs)) = Some (JObject (map read_back (kv :: kvs))).
Proof. intros Hr. unfold json_decode. cbv zeta. by rewrite parse_struct_back. Qed.
Lemma json_struct_unmarshal kv kvs :
  forallb (fun kv => readable (snd kv)) (kv :: kvs) = true ->
  json_unmarshal (json_struct (kv :: kvs)) = Some (JObject (map read_back (kv :: kvs))).
Proof. intros Hr. unfold json_unmarshal. cbv zeta. by rewrite parse_struct_back. Qed.
