(* ===== verification/Threading.v ===== *)
(** * Threading: conversations, from internal/mail/threading.go

    Which thread a message belongs to: the normal form of its subject, of its
    participants and of the message identifiers in its headers, and the thread
    identifier derived from them.  Texts are handled as runes where the code
    runs regular expressions over them: it lower-cases first, so they are
    well-formed UTF-8.  Address parsing and the decoding of encoded words are
    those of the [net/mail] and [mime] packages and are parameters.  The
    preview of a message body is not modelled. *)

From stdpp Require Import sorting.
From S2P Require Import Prelude Unicode GoStrings GoStd GoText.
Local Open Scope Z_scope.

(** ** Text as runes *)

Fixpoint drop_spaces (l : list Z) : list Z :=
  match l with
  | r :: l' => if rune_is_space r then drop_spaces l' else l
  | [] => []
  end.

(** [strings.TrimSpace]. *)
Definition trim_space (l : list Z) : list Z := rev (drop_spaces (rev (drop_spaces l))).

(** [strings.Fields]; [acc] is the field being read, backwards. *)
Fixpoint fields_from (acc l : list Z) : list (list Z) :=
  match l with
  | [] => match acc with [] => [] | _ => [rev acc] end
  | r :: l' =>
      if rune_is_space r
      then match acc with [] => fields_from [] l' | _ => rev acc :: fields_from [] l' end
      else fields_from (r :: acc) l'
  end.
Definition Fields (l : list Z) : list (list Z) := fields_from [] l.

Fixpoint join_runes (sep : list Z) (l : list (list Z)) : list Z :=
  match l with
  | [] => []
  | [w] => w
  | w :: l' => w ++ sep ++ join_runes sep l'
  end.

(** ** Subjects *)

Definition spaces : Re := Many (One perl_space).
Definition reply_word : Re :=
  any_of (map (fun w => word fold_lit (bytes w)) ["re"; "aw"; "sv"; "wg"; "fw"; "fwd"]).
Definition cjk_word : Re :=
  any_of (map (word lit) [[22238; 22797]; [31572; 22797]; [36716; 21457]]).
Definition counter : Re := Cat (lit 91) (Cat (Some1 (One is_digit)) (lit 93)).
Definition list_tag : Re :=
  Cat (lit 91) (Cat (Between1 40 (One (fun r => negb (r =? 91) && negb (r =? 93))))
                    (Cat (lit 93) spaces)).
Definition prefix_mark : Re :=
  Or (Cat reply_word (Cat spaces (Cat (Opt counter) (Cat spaces (lit 58)))))
     (Cat cjk_word (Cat spaces (lit 58))).
Definition trailer_mark : Re :=
  Cat (lit 40) (Cat (Or (word fold_lit (bytes "fwd")) (word fold_lit (bytes "fw"))) (lit 41)).

Definition threadPrefixPattern : Re := Cat AtBegin (Cat prefix_mark spaces).
Definition threadListTagPattern : Re := Cat AtBegin (Some1 list_tag).
Definition threadTrailerPattern : Re := Cat spaces (Cat trailer_mark (Cat spaces AtEnd)).
Definition threadReplyLikePattern : Re :=
  Or (Cat AtBegin (Cat spaces (Cat (Many list_tag) prefix_mark)))
     (Cat trailer_mark (Cat spaces AtEnd)).

(** The body of the loop of [NormalizeThreadSubject]. *)
Definition strip_subject (l : list Z) : list Z :=
  let next := trim_space (RemoveMatch threadListTagPattern l) in
  let next := trim_space (RemoveMatch threadPrefixPattern next) in
  trim_space (RemoveMatch threadTrailerPattern next).

(** The loop itself: [None] when the fuel runs out before the loop has ended. *)
Fixpoint strip_loop (fuel : nat) (normalized : list Z) : option (list Z) :=
  match fuel with
  | O => None
  | S fuel' =>
      match normalized with
      | [] => Some []
      | _ =>
          let next := strip_subject normalized in
          if decide (next = normalized) then Some normalized else strip_loop fuel' next
      end
  end.

(** The text the loop starts from; one turn more than it has runes is enough. *)
Definition lowered (subject : string) : list Z := trim_space (map rune_lower (runes subject)).

Definition NormalizeThreadSubject (subject : string) : string :=
  let normalized := lowered subject in
  let stripped := default [] (strip_loop (S (length normalized)) normalized) in
  of_runes (join_runes [32] (Fields stripped)).

Definition ThreadSubjectLooksReply (subject : string) : bool :=
  MatchString threadReplyLikePattern (trim_space (runes subject)).

(** ** Message identifiers *)

Definition id_rune (r : Z) : bool :=
  negb (r =? 60) && negb (r =? 62) && negb (r =? 44) && negb (posix_space r).

Definition messageIDTokenPattern : Re :=
  Or (Cat (lit 60) (Cat (Some1 (One (fun r => negb (r =? 62)))) (lit 62)))
     (Cat (Some1 (One id_rune)) (Cat (lit 64) (Some1 (One id_rune)))).

Definition trim_prefix_rune (c : Z) (l : list Z) : list Z :=
  match l with r :: l' => if r =? c then l' else l | [] => [] end.
Definition trim_suffix_rune (c : Z) (l : list Z) : list Z :=
  rev (trim_prefix_rune c (rev l)).

Definition normalizeMessageIDToken (value : list Z) : list Z :=
  let normalized := trim_space (map rune_lower value) in
  trim_space (trim_suffix_rune 62 (trim_prefix_rune 60 normalized)).

Definition normalize_id (value : list Z) : list Z :=
  let token := trim_space (FindString messageIDTokenPattern (trim_space value)) in
  match token with
  | [] => normalizeMessageIDToken value
  | _ => normalizeMessageIDToken token
  end.

Definition NormalizeMessageIDHeader (value : string) : string :=
  of_runes (normalize_id (runes value)).

(** The values that are not blank, each once, in the order they come up. *)
Fixpoint distinct_from (seen : list string) (l : list string) : list string :=
  match l with
  | [] => []
  | v :: l' =>
      if String.eqb v "" || existsb (String.eqb v) seen then distinct_from seen l'
      else v :: distinct_from (v :: seen) l'
  end.

Definition NormalizeMessageIDHeaders (values : list string) : list string :=
  distinct_from [] (map NormalizeMessageIDHeader values).

Definition ParseMessageIDList (raw : string) : list string :=
  NormalizeMessageIDHeaders (map of_runes (FindAllString messageIDTokenPattern (runes raw))).

Definition FormatMessageIDList (values : list string) : string :=
  Join " " (NormalizeMessageIDHeaders values).

Definition BuildReplyHeaders (parentMessageID parentInReplyTo : string)
    (parentReferences : list string) : string * list string :=
  let inReplyTo := NormalizeMessageIDHeader parentMessageID in
  let references := NormalizeMessageIDHeaders parentReferences in
  let references :=
    match references with
    | [] =>
        let seeded := NormalizeMessageIDHeader parentInReplyTo in
        if String.eqb seeded "" then [] else [seeded]
    | _ => references
    end in
  let references := if String.eqb inReplyTo "" then references else references ++ [inReplyTo] in
  (inReplyTo, NormalizeMessageIDHeaders references).

(** ** Conversation indexes *)

Definition hex_value (c : Z) : option Z :=
  if is_digit c then Some (c - 48)
  else if (97 <=? c) && (c <=? 102) then Some (c - 87)
  else if (65 <=? c) && (c <=? 70) then Some (c - 55) else None.

(** [hex.DecodeString] *)
Fixpoint hex_decode (l : list Z) : option (list Z) :=
  match l with
  | [] => Some []
  | x :: y :: l' =>
      a ← hex_value x; b ← hex_value y; r ← hex_decode l'; Some (a * 16 + b :: r)
  | [_] => None
  end.

Fixpoint drop_pads (l : list Z) : list Z :=
  match l with c :: l' => if c =? 61 then drop_pads l' else l | [] => [] end.

(** [base64.StdEncoding] and [URLEncoding]: at most two pads, which fill the
    last group of four. *)
Definition padded_decode (l : list Z) : option (list Z) :=
  let body := rev (drop_pads (rev l)) in
  let pads := (length l - length body)%nat in
  if Nat.eqb (Nat.modulo (length l) 4) 0 && Nat.leb pads 2 then b64_decode body else None.

Definition NormalizeConversationIndexRoot (raw : string) : string :=
  let value := bytes (of_runes (concat (Fields (runes raw)))) in
  let long d := match d with Some d => if Nat.leb 22 (length d) then Some d else None | None => None end in
  match value with
  | [] => ""
  | _ =>
      match List.find (fun d => bool_decide (is_Some (long d)))
              [hex_decode value; padded_decode value; b64_decode value;
               padded_decode (map from_url value); b64_decode (map from_url value)] with
      | Some (Some d) => hex_encode (take 22 d)
      | _ => ""
      end
  end.

(** ** Participants and thread identifiers *)

(** The parsers of [net/mail] and [mime]: the addresses of a list, the address
    of a single value, a decoded header. *)
Class MailParsers : Type := {
  parse_address_list : string -> option (list string);
  parse_address : string -> option string;
  decode_words : string -> option string
}.

Fixpoint insert_string (s : string) (l : list string) : list string :=
  match l with
  | [] => [s]
  | t :: l' => if key_leb s t then s :: l else t :: insert_string s l'
  end.
(** [sort.Strings]. *)
Definition sort_strings (l : list string) : list string := fold_right insert_string [] l.

(** [strings.FieldsFunc] at commas and semicolons. *)
Definition split_tokens (s : string) : list string :=
  List.filter (fun t => negb (String.eqb t ""))
    (Split (ReplaceByte s (ascii_of 59) (ascii_of 44)) (ascii_of 44)).

(** [strings.Trim] of spaces, angle brackets and the three quotes. *)
Definition trim_quotes (s : string) : string :=
  let fix drop l := match l with
    | b :: l' => if existsb (Z.eqb b) [32; 60; 62; 34; 39; 96] then drop l' else l
    | [] => [] end in
  of_bytes (rev (drop (rev (drop (bytes s))))).

Section Threads.
Context {parsers : MailParsers}.

Definition DecodeHeaderText (raw : string) : string :=
  let value := TrimSpace raw in
  if String.eqb value "" then ""
  else match decode_words value with Some d => TrimSpace d | None => value end.

(** The addresses [add] takes from one value, before duplicates are dropped. *)
Definition participant_addresses (raw : string) : list string :=
  let raw := TrimSpace raw in
  if String.eqb raw "" then []
  else
    let emails l := List.filter (fun e => negb (String.eqb e "")) (map fold_trim l) in
    match parse_address_list raw with
    | Some (a :: l) => emails (a :: l)
    | _ =>
        match parse_address raw with
        | Some a => emails [a]
        | None =>
            List.filter (fun e => negb (String.eqb e "") && Contains e "@")
              (map (fun t => fold_trim (trim_quotes t)) (split_tokens raw))
        end
    end.

Definition NormalizeThreadParticipants (values : list string) : list string :=
  sort_strings (distinct_from [] (flat_map participant_addresses values)).

Definition ThreadParticipantsOverlap (a b : list string) : Z :=
  match a, b with
  | [], _ => 0
  | _, [] => 0
  | _, _ =>
      let seen := NormalizeThreadParticipants [Join ", " a] in
      Z.of_nat (length (List.filter (fun item => existsb (String.eqb item) seen)
                          (NormalizeThreadParticipants [Join ", " b])))
  end.

Definition NormalizeThreadTopic (value : string) : string :=
  NormalizeThreadSubject (DecodeHeaderText value).

(** [hex.EncodeToString(sum[:10])] *)
Definition short_sum (payload : string) : string := hex_encode (take 10 (Sha256.sum (bytes payload))).

Definition deriveHintThreadID (subject : string) (participants : list string) (listID : string) :
    string :=
  let baseSubject := NormalizeThreadSubject subject in
  let baseSubject := if String.eqb baseSubject "" then "untitled" else baseSubject in
  let normalizedParticipants := NormalizeThreadParticipants [Join ", " participants] in
  let payload := "hint:" +:+ baseSubject in
  let payload := match normalizedParticipants with
                 | [] => payload
                 | _ => payload +:+ "|" +:+ Join "," normalizedParticipants
                 end in
  let listID := fold_trim listID in
  let payload := if String.eqb listID "" then payload else payload +:+ "|list:" +:+ listID in
  "hint:" +:+ short_sum payload.

Definition header_thread (id : string) : string := "hdr:" +:+ short_sum ("hdr:" +:+ id).

Definition firstNonEmptyThreadValue (values : list string) : string :=
  default "" (List.find (fun v => negb (String.eqb v "")) (map TrimSpace values)).

Definition DeriveIndexedThreadIDWithHints (messageID inReplyTo : string)
    (references : list string) (subject from : string) (participants : list string)
    (threadTopic conversationIndexRoot listID : string) : string :=
  let root := NormalizeConversationIndexRoot conversationIndexRoot in
  if negb (String.eqb root "") then "cidx:" +:+ short_sum ("cidx:" +:+ root)
  else
    match NormalizeMessageIDHeaders references with
    | first :: _ => header_thread first
    | [] =>
        let normalizedInReplyTo := NormalizeMessageIDHeader inReplyTo in
        if negb (String.eqb normalizedInReplyTo "") then header_thread normalizedInReplyTo
        else
          let hintSubject := firstNonEmptyThreadValue
                               [NormalizeThreadTopic threadTopic; NormalizeThreadSubject subject] in
          if negb (String.eqb hintSubject "")
             && (ThreadSubjectLooksReply subject || negb (String.eqb (TrimSpace threadTopic) "")
                 || negb (String.eqb (TrimSpace listID) ""))
          then deriveHintThreadID hintSubject (from :: participants) listID
          else
            let normalizedMessageID := NormalizeMessageIDHeader messageID in
            if negb (String.eqb normalizedMessageID "") then header_thread normalizedMessageID
            else deriveHintThreadID subject (from :: participants) listID
    end.

Definition DeriveIndexedThreadID (messageID inReplyTo : string) (references : list string)
    (subject from : string) : string :=
  DeriveIndexedThreadIDWithHints messageID inReplyTo references subject from [] "" "" "".

Definition DeriveThreadID (subject from : string) : string :=
  let normalized := NormalizeThreadSubject subject in
  let normalized := if String.eqb normalized "" then fold_trim from else normalized in
  let normalized := if String.eqb normalized "" then "untitled" else normalized in
  "conv:" +:+ short_sum normalized.

Definition DeriveLiveThreadID (messageID inReplyTo : string) (references : list string)
    (subject from : string) : string :=
  if String.eqb (NormalizeMessageIDHeader messageID) ""
     && String.eqb (NormalizeMessageIDHeader inReplyTo) ""
     && match NormalizeMessageIDHeaders references with [] => true | _ => false end
  then DeriveThreadID subject from
  else DeriveIndexedThreadID messageID inReplyTo references subject from.
End Threads.

(** ** The subject loop ends *)

Lemma drop_spaces_shorter l : drop_spaces l = l \/ (length (drop_spaces l) < length l)%nat.
Proof.
  destruct l as [|r l]; [by left|]. simpl. destruct (rune_is_space r); [right|by left].
  induction l as [|x l IH]; simpl; [lia|]. destruct (rune_is_space x); simpl; lia.
Qed.

Lemma trim_space_shorter l : trim_space l = l \/ (length (trim_space l) < length l)%nat.
Proof.
  unfold trim_space. rewrite length_rev.
  destruct (drop_spaces_shorter l) as [->|H].
  - destruct (drop_spaces_shorter (rev l)) as [->|H']; [left; apply rev_involutive|right].
    by rewrite length_rev in H'.
  - right. destruct (drop_spaces_shorter (rev (drop_spaces l))) as [->|H'];
      rewrite length_rev in *; lia.
Qed.

(** A function on texts that leaves its argument alone or shortens it. *)
Definition shrinking (f : list Z -> list Z) : Prop :=
  forall l, f l = l \/ (length (f l) < length l)%nat.

Lemma shrinking_compose f g : shrinking f -> shrinking g -> shrinking (fun l => g (f l)).
Proof.
  intros Hf Hg l. destruct (Hf l) as [->|H]; [apply Hg|right].
  destruct (Hg (f l)) as [->|H']; lia.
Qed.

Lemma strip_subject_shrinking : shrinking strip_subject.
Proof.
  assert (Hr : forall r, shrinking (fun l => trim_space (RemoveMatch r l))).
  { intros r. apply (shrinking_compose (RemoveMatch r) trim_space);
      [intros l; apply RemoveMatch_shorter|exact trim_space_shorter]. }
  pose proof (shrinking_compose _ _ (Hr threadListTagPattern) (Hr threadPrefixPattern)) as H.
  exact (shrinking_compose _ _ H (Hr threadTrailerPattern)).
Qed.

Lemma strip_loop_turns l :
  exists k, (k <= length l)%nat
    /\ (forall fuel, (length l < fuel)%nat -> strip_loop fuel l = Some (Nat.iter k strip_subject l))
    /\ (Nat.iter k strip_subject l = []
        \/ strip_subject (Nat.iter k strip_subject l) = Nat.iter k strip_subject l)
    /\ forall i, (i < k)%nat ->
         (length (Nat.iter (S i) strip_subject l) < length (Nat.iter i strip_subject l))%nat.
Proof.
  induction l as [l IH] using (induction_ltof1 _ (@length Z)); unfold ltof in IH.
  destruct l as [|c l0].
  { exists 0%nat. split_and!; [done| |by left|lia].
    intros [|fuel] Hf; [simpl in Hf; lia|done]. }
  set (l := c :: l0) in *. destruct (decide (strip_subject l = l)) as [He|Hne].
  { exists 0%nat. split_and!; [lia| |by right|lia]. intros [|fuel] Hf; [lia|].
    cbn [strip_loop Nat.iter nat_rect]. unfold l in *. by rewrite decide_True. }
  destruct (strip_subject_shrinking l) as [He|Hlt]; [done|].
  destruct (IH _ Hlt) as (k & Hk & Heq & Hfix & Hdec).
  exists (S k). rewrite Nat.iter_succ_r. split_and!; [lia| |exact Hfix|].
  - intros [|fuel] Hf; [lia|]. cbn [strip_loop]. unfold l in *. rewrite decide_False by done.
    apply Heq. lia.
  - intros [|i] Hi; [exact Hlt|]. specialize (Hdec i ltac:(lia)).
    by rewrite !Nat.iter_succ_r in *.
Qed.

(** ** Identifiers in lists *)

Lemma NormalizeMessageIDHeaders_head x l :
  NormalizeMessageIDHeader x = x -> x <> "" ->
  exists l', NormalizeMessageIDHeaders (x :: l) = x :: l'.
Proof.
  intros Hx Hne. unfold NormalizeMessageIDHeaders. cbn [map distinct_from]. rewrite Hx.
  destruct (String.eqb_spec x ""); [done|]. simpl. by eexists.
Qed.

Lemma distinct_from_In seen l x : In x (distinct_from seen l) -> In x l /\ x <> "" /\ ~ In x seen.
Proof.
  revert seen. induction l as [|v l IH]; intros seen; simpl; [done|].
  destruct (String.eqb_spec v ""); simpl.
  { intros H. apply IH in H as (? & ? & ?). auto. }
  destruct (existsb (String.eqb v) seen) eqn:E; simpl.
  { intros H. apply IH in H as (? & ? & ?). auto. }
  intros [<-|H].
  - split_and!; [by left|done|]. intros Hin.
    assert (existsb (String.eqb v) seen = true) as H; [|congruence].
    apply existsb_exists. exists v. by rewrite String.eqb_refl.
  - apply IH in H as (? & ? & Hs). split_and!; [by right|done|]. intros Hin. apply Hs. by right.
Qed.

Lemma distinct_from_complete seen l x : In x l -> x <> "" -> ~ In x seen -> In x (distinct_from seen l).
Proof.
  revert seen. induction l as [|v l IH]; intros seen; simpl; [done|].
  intros Hin Hne Hs. destruct (String.eqb_spec v "") as [->|Hv]; simpl.
  { destruct Hin as [<-|Hin]; [done|by apply IH]. }
  destruct (existsb (String.eqb v) seen) eqn:E; simpl.
  - apply existsb_exists in E as (y & Hy & ->%String.eqb_eq).
    destruct Hin as [->|Hin]; [done|by apply IH].
  - destruct Hin as [->|Hin]; [by left|]. destruct (String.eqb_spec x v) as [->|Hxv]; [by left|right].
    apply IH; [done|done|]. intros [->|H]; done.
Qed.

Lemma distinct_from_NoDup seen l : List.NoDup (distinct_from seen l).
Proof.
  revert seen. induction l as [|v l IH]; intros seen; simpl; [constructor|].
  destruct (_ || _); [apply IH|]. constructor; [|apply IH].
  intros H. apply distinct_from_In in H as (_ & _ & H). apply H. by left.
Qed.

(** ** Sorting *)

Lemma string_compare_cons x y a b : String.compare (String x a) (String y b)
  = match N.compare (Ascii.N_of_ascii x) (Ascii.N_of_ascii y) with
    | Eq => String.compare a b | c => c end.
Proof. reflexivity. Qed.

Lemma string_compare_trans_lt a : forall b c,
  String.compare a b = Lt -> String.compare b c = Lt -> String.compare a c = Lt.
Proof.
  induction a as [|x a IH]; intros [|y b] [|z c]; try done.
  rewrite !string_compare_cons.
  destruct (N.compare_spec (Ascii.N_of_ascii x) (Ascii.N_of_ascii y)) as [H|H|H];
    intros Hab; [|clear Hab|done];
    destruct (N.compare_spec (Ascii.N_of_ascii y) (Ascii.N_of_ascii z)) as [H'|H'|H'];
    intros Hbc; try done;
    destruct (N.compare_spec (Ascii.N_of_ascii x) (Ascii.N_of_ascii z)); try done; try lia.
  by apply (IH b).
Qed.

Lemma key_leb_total a b : key_leb a b = false -> key_leb b a = true.
Proof.
  unfold key_leb. rewrite (String.compare_antisym a b). destruct (String.compare b a); done.
Qed.

Lemma key_leb_trans a b c : key_leb a b = true -> key_leb b c = true -> key_leb a c = true.
Proof.
  unfold key_leb.
  destruct (String.compare a b) eqn:E1; [apply String.compare_eq_iff in E1 as ->; done| |done].
  destruct (String.compare b c) eqn:E2; [apply String.compare_eq_iff in E2 as ->; by rewrite E1| |done].
  by rewrite (string_compare_trans_lt a b c).
Qed.

Lemma key_leb_antisym a b : key_leb a b = true -> key_leb b a = true -> a = b.
Proof.
  unfold key_leb. rewrite (String.compare_antisym b a).
  destruct (String.compare a b) eqn:E; [intros _ _; by apply String.compare_eq_iff|done|done].
Qed.

Definition le_str (a b : string) : Prop := key_leb a b = true.

Lemma insert_string_perm s l : Permutation.Permutation (insert_string s l) (s :: l).
Proof.
  induction l as [|t l IH]; simpl; [done|]. destruct (key_leb s t); [done|].
  rewrite IH. apply Permutation.perm_swap.
Qed.

Lemma sort_strings_perm l : Permutation.Permutation (sort_strings l) l.
Proof. induction l; simpl; [done|]. rewrite insert_string_perm. by constructor. Qed.

Lemma insert_string_sorted s l :
  StronglySorted le_str l -> StronglySorted le_str (insert_string s l).
Proof.
  induction 1 as [|t l Hl IH Ht]; simpl; [repeat constructor|].
  destruct (key_leb s t) eqn:E.
  - constructor; [by constructor|]. constructor; [done|].
    eapply List.Forall_impl; [|exact Ht]. intros x. by apply key_leb_trans.
  - constructor; [done|]. apply key_leb_total in E.
    apply List.Forall_forall. intros x Hx.
    apply (Permutation.Permutation_in _ (insert_string_perm s l)) in Hx as [<-|Hx]; [done|].
    by apply (proj1 (List.Forall_forall _ _) Ht).
Qed.

Lemma sort_strings_sorted l : StronglySorted le_str (sort_strings l).
Proof. induction l; simpl; [constructor|]. by apply insert_string_sorted. Qed.

(** Sorting sees only which texts a list without duplicates holds. *)
Lemma sort_strings_same l k :
  Permutation.Permutation l k -> sort_strings l = sort_strings k.
Proof.
  intros H. apply (StronglySorted_unique_strong le_str).
  - intros x y _ _. by apply key_leb_antisym.
  - apply sort_strings_sorted.
  - apply sort_strings_sorted.
  - by rewrite !sort_strings_perm.
Qed.

(** ** Properties *)

Section Properties.
Context {parsers : MailParsers}.

(** C38. The loop of [NormalizeThreadSubject] ends: whatever the subject, there
    is a number of turns, no more than the subject has runes, after which the
    loop returns; more fuel than the subject has runes always reaches that return,
    with the text of that turn. There the text is empty or another turn would
    leave it as it is; until then every turn shortens it; and what the loop
    returns is what the function goes on with. *)
Theorem subject_loop_terminates subject :
  let turns i := Nat.iter i strip_subject (lowered subject) in
  exists k, (k <= length (lowered subject))%nat
    /\ (forall fuel, (length (lowered subject) < fuel)%nat ->
          strip_loop fuel (lowered subject) = Some (turns k))
    /\ (turns k = [] \/ strip_subject (turns k) = turns k)
    /\ (forall i, (i < k)%nat -> (length (turns (S i)) < length (turns i))%nat)
    /\ NormalizeThreadSubject subject = of_runes (join_runes [32] (Fields (turns k))).
Proof.
  intros turns. destruct (strip_loop_turns (lowered subject)) as (k & Hk & Heq & Hfix & Hdec).
  exists k. unfold turns. split_and!; [done|done|exact Hfix|exact Hdec|].
  unfold NormalizeThreadSubject. rewrite Heq by lia. reflexivity.
Qed.

(** The identifier a conversation starts from: the first reference of its
    message, else what it replies to, else its own. *)
Definition conversation_root (messageID inReplyTo : string) (references : list string) : string :=
  match NormalizeMessageIDHeaders references with
  | first :: _ => first
  | [] =>
      let r := NormalizeMessageIDHeader inReplyTo in
      if negb (String.eqb r "") then r else NormalizeMessageIDHeader messageID
  end.

(** The message falls back to its subject for want of references. *)
Definition hinted (inReplyTo : string) (references : list string)
    (subject threadTopic listID : string) : bool :=
  match NormalizeMessageIDHeaders references with
  | _ :: _ => false
  | [] =>
      String.eqb (NormalizeMessageIDHeader inReplyTo) ""
      && negb (String.eqb (firstNonEmptyThreadValue
                  [NormalizeThreadTopic threadTopic; NormalizeThreadSubject subject]) "")
      && (ThreadSubjectLooksReply subject || negb (String.eqb (TrimSpace threadTopic) "")
          || negb (String.eqb (TrimSpace listID) ""))
  end.

Lemma derived_from_root m r refs subject from participants topic idx listID :
  NormalizeConversationIndexRoot idx = "" -> conversation_root m r refs <> "" ->
  hinted r refs subject topic listID = false ->
  DeriveIndexedThreadIDWithHints m r refs subject from participants topic idx listID
  = header_thread (conversation_root m r refs).
Proof.
  intros Hidx Hroot Hhint. unfold DeriveIndexedThreadIDWithHints, conversation_root, hinted in *.
  rewrite Hidx. cbn [String.eqb negb].
  destruct (NormalizeMessageIDHeaders refs) as [|x l]; [|done].
  destruct (String.eqb_spec (NormalizeMessageIDHeader r) ""); cbn [negb] in *; [|done].
  rewrite andb_true_l in Hhint. rewrite Hhint.
  by destruct (String.eqb_spec (NormalizeMessageIDHeader m) "").
Qed.

(** A reply's references start at the root of the conversation. *)
Lemma reply_references m r refs :
  NormalizeMessageIDHeader (conversation_root m r refs) = conversation_root m r refs ->
  conversation_root m r refs <> "" ->
  exists l, snd (BuildReplyHeaders m r refs) = conversation_root m r refs :: l.
Proof.
  unfold BuildReplyHeaders, conversation_root. cbn [snd].
  destruct (NormalizeMessageIDHeaders refs) as [|x l] eqn:E.
  - destruct (String.eqb_spec (NormalizeMessageIDHeader r) ""); cbn [negb].
    + intros Hs Hne. destruct (String.eqb_spec (NormalizeMessageIDHeader m) ""); [done|].
      by apply NormalizeMessageIDHeaders_head.
    + intros Hs Hne. destruct (String.eqb (NormalizeMessageIDHeader m) "");
        by apply NormalizeMessageIDHeaders_head.
  - intros Hs Hne. destruct (String.eqb (NormalizeMessageIDHeader m) "");
      by apply NormalizeMessageIDHeaders_head.
Qed.

(** A reply joins the thread of the message it answers: when that message
    is threaded by its headers (no conversation index, not by its subject) and
    the identifier its conversation starts from is in normal form, every
    message sent with the headers [BuildReplyHeaders] makes derives the same
    thread identifier, whatever its own identifier, subject and people; the
    references it carries are distinct, and hold the identifier it answers. *)
Theorem reply_joins_thread m r refs subject from participants topic idx listID
    (Hidx : NormalizeConversationIndexRoot idx = "")
    (Hhint : hinted r refs subject topic listID = false)
    (Hne : conversation_root m r refs <> "")
    (Hstable : NormalizeMessageIDHeader (conversation_root m r refs) = conversation_root m r refs) :
  let (inReplyTo, references) := BuildReplyHeaders m r refs in
  List.NoDup references
  /\ (NormalizeMessageIDHeader inReplyTo = inReplyTo -> inReplyTo <> "" -> In inReplyTo references)
  /\ forall m' subject' from' participants' topic' listID',
       DeriveIndexedThreadIDWithHints m' inReplyTo references subject' from' participants' topic' ""
         listID'
       = DeriveIndexedThreadIDWithHints m r refs subject from participants topic idx listID.
Proof.
  destruct (reply_references m r refs Hstable Hne) as [l Hl].
  destruct (BuildReplyHeaders m r refs) as [inReplyTo references] eqn:E. cbn [snd] in Hl.
  split_and!.
  - unfold BuildReplyHeaders in E. injection E as _ <-. apply distinct_from_NoDup.
  - unfold BuildReplyHeaders in E. injection E as <- <-. intros Hi Hn.
    destruct (String.eqb_spec (NormalizeMessageIDHeader m) "") as [|_]; [done|].
    apply distinct_from_complete; [|done|by intros []].
    rewrite <- Hi at 1. apply in_map, in_or_app. right. by left.
  - intros. rewrite (derived_from_root m r refs) by done.
    unfold DeriveIndexedThreadIDWithHints.
    change (NormalizeConversationIndexRoot "") with "". cbn [String.eqb negb]. rewrite Hl.
    destruct (NormalizeMessageIDHeaders_head (conversation_root m r refs) l Hstable Hne) as [l' ->].
    done.
Qed.

(** The order in which people are listed does not matter: the participants are
    the distinct addresses in order. *)
Lemma participants_in_any_order values values' :
  Permutation.Permutation values values' ->
  NormalizeThreadParticipants values = NormalizeThreadParticipants values'
  /\ List.NoDup (NormalizeThreadParticipants values)
  /\ StronglySorted le_str (NormalizeThreadParticipants values).
Proof.
  intros H. unfold NormalizeThreadParticipants. split_and!.
  - apply sort_strings_same. apply Permutation.NoDup_Permutation; [apply distinct_from_NoDup..|].
    assert (Hin : forall vs x, In x (distinct_from [] (flat_map participant_addresses vs))
              <-> In x (flat_map participant_addresses vs) /\ x <> "").
    { intros vs x. split.
      - intros Hx. by apply distinct_from_In in Hx as (? & ? & _).
      - intros [Hx Hn]. apply distinct_from_complete; [done|done|by intros []]. }
    intros x. rewrite !Hin. rewrite !in_flat_map.
    split; intros [(v & Hv & Hx) Hn]; (split; [exists v; split; [|done]|done]);
      [by apply (Permutation.Permutation_in _ H)|].
    by apply (Permutation.Permutation_in _ (Permutation.Permutation_sym H)).
  - eapply Permutation.Permutation_NoDup;
      [apply Permutation.Permutation_sym, sort_strings_perm|apply distinct_from_NoDup].
  - apply sort_strings_sorted.
Qed.
End Properties.

(** ** Witnesses *)

Definition sample_parsers : MailParsers := {|
  parse_address_list s := None; parse_address s := None; decode_words s := Some s |}.

Lemma reply_joins_thread_witness :
  BuildReplyHeaders "<B@x.org>" "" ["<A@x.org>"] = ("b@x.org", ["a@x.org"; "b@x.org"])
  /\ DeriveIndexedThreadIDWithHints (parsers := sample_parsers) "<C@x.org>" "b@x.org"
       ["a@x.org"; "b@x.org"] "Re: plan" "bob" [] "" "" ""
     = DeriveIndexedThreadIDWithHints (parsers := sample_parsers) "<B@x.org>" "" ["<A@x.org>"]
         "plan" "alice" [] "" "" "".
Proof.
  pose proof (reply_joins_thread (parsers := sample_parsers) "<B@x.org>" "" ["<A@x.org>"] "plan"
    "alice" [] "" "" "" ltac:(vm_compute; reflexivity) ltac:(vm_compute; reflexivity)
    ltac:(vm_compute; discriminate) ltac:(vm_compute; reflexivity)) as H.
  assert (E : BuildReplyHeaders "<B@x.org>" "" ["<A@x.org>"] = ("b@x.org", ["a@x.org"; "b@x.org"]))
    by (vm_compute; reflexivity).
  rewrite E in H. split; [exact E|]. exact (proj2 (proj2 H) "<C@x.org>" "Re: plan" "bob" [] "" "").
Defined.

(** A subject that is not in normal form after one pass: Unicode spaces are
    only made plain at the end. *)
Example normal_form_is_not_stable :
  let s := of_runes (bytes "re" ++ [160] ++ bytes ": plan") in
  NormalizeThreadSubject (NormalizeThreadSubject s) = "plan"
  /\ NormalizeThreadSubject s = "re : plan".
Proof. split; vm_compute; reflexivity. Qed.

(** The normal form of an identifier need not be one. *)
Example identifier_is_not_stable :
  NormalizeMessageIDHeader (NormalizeMessageIDHeader "<<a@b>") <> NormalizeMessageIDHeader "<<a@b>".
Proof. vm_compute. discriminate. Qed.
