(* ===== verification/RateLimit.v ===== *)
(** * RateLimit: internal/rate/memory.go

    The in-memory limiter of the HTTP routes: one counter per key, restarted
    when its window is over, and a garbage collection that any caller may
    trigger.  [fixed_window] is the same counter without the collection. *)

From S2P Require Import Prelude Effects.
From stdpp Require Import gmap.
Local Open Scope Z_scope.

Record bucket : Type := mkBucket { count : Z; start : Z }.

Record Limiter : Type := mkLimiter { buckets : gmap string bucket; lastGC : Z }.

Definition NewLimiter (now : Z) : Limiter := mkLimiter ∅ now.

(** The loop over [l.buckets]. *)
Definition collect (now window : Z) (bs : gmap string bucket) : gmap string bucket :=
  filter (fun kb => now - start (snd kb) <= 3 * window) bs.

(** What [Allow] does with the bucket of its key. *)
Definition admit_one (limit window now : Z) (b : option bucket) : bool * bucket :=
  match b with
  | None => (true, mkBucket 1 now)
  | Some b =>
      if window <=? now - start b then (true, mkBucket 1 now)
      else if limit <=? count b then (false, b)
      else (true, mkBucket (count b + 1) (start b))
  end.

Definition Allow (key : string) (limit window now : Z) (l : Limiter) : bool * Limiter :=
  let l := if Minute <? now - lastGC l
           then mkLimiter (collect now window (buckets l)) now else l in
  let (ok, b) := admit_one limit window now (buckets l !! key) in
  (ok, mkLimiter (<[key := b]> (buckets l)) (lastGC l)).

(** ** Runs *)

Record Call : Type := mkCall { c_key : string; c_limit : Z; c_window : Z; c_now : Z }.

Fixpoint answers (l : Limiter) (cs : list Call) : list bool :=
  match cs with
  | [] => []
  | c :: cs' =>
      let (ok, l') := Allow (c_key c) (c_limit c) (c_window c) (c_now c) l in
      ok :: answers l' cs'
  end.

(** The reference: every key has a counter of its own that is never dropped. *)
Definition fixed_window (c : Call) (m : gmap string bucket) : bool * gmap string bucket :=
  let (ok, b) := admit_one (c_limit c) (c_window c) (c_now c) (m !! c_key c) in
  (ok, <[c_key c := b]> m).

Fixpoint fixed_window_answers (m : gmap string bucket) (cs : list Call) : list bool :=
  match cs with
  | [] => []
  | c :: cs' => let (ok, m') := fixed_window c m in ok :: fixed_window_answers m' cs'
  end.

(** Calls in the order of the clock, from [t] on. *)
Fixpoint clocked (t : Z) (cs : list Call) : Prop :=
  match cs with [] => True | c :: cs' => t <= c_now c /\ clocked (c_now c) cs' end.

(** Each key has one window, and no window is longer than three others. *)
Definition compatible (window_of : string -> Z) (cs : list Call) : Prop :=
  forall c, In c cs -> c_window c = window_of (c_key c)
    /\ forall key, window_of key <= 3 * c_window c.

(** How many calls for [key] were let through. *)
Definition admitted (key : string) (cs : list Call) (oks : list bool) : Z :=
  Z.of_nat (length (List.filter (fun co => String.eqb (c_key (fst co)) key && snd co)
                      (combine cs oks))).

(** ** The collection is invisible *)

Section Collection.
Variable window_of : string -> Z.

(** At [now], the limiter only misses counters whose window is over. *)
Definition agree (now : Z) (bs m : gmap string bucket) : Prop :=
  forall key, bs !! key = m !! key
    \/ bs !! key = None /\ exists b, m !! key = Some b /\ window_of key <= now - start b.

Lemma agree_later now now' bs m : now <= now' -> agree now bs m -> agree now' bs m.
Proof.
  intros Ht H key. destruct (H key) as [|(Hb & b & Hm & Hw)]; [by left|].
  right. split; [done|]. exists b. split; [done|lia].
Qed.

Lemma agree_collect now w bs m :
  (forall key, window_of key <= 3 * w) -> agree now bs m -> agree now (collect now w bs) m.
Proof.
  intros Hw H key. destruct (H key) as [He|(Hb & b & Hm & Hexp)].
  - destruct (bs !! key) as [b|] eqn:Eb.
    + destruct (decide (now - start b <= 3 * w)) as [Hle|Hgt].
      * left. unfold collect. rewrite <- He. by apply map_lookup_filter_Some_2.
      * right. split.
        { unfold collect. apply map_lookup_filter_None. right. intros b' Hb'. simpl.
          assert (b' = b) as -> by congruence. lia. }
        exists b. specialize (Hw key). split; [done|lia].
    + left. unfold collect. rewrite <- He. apply map_lookup_filter_None. by left.
  - right. split; [|by exists b]. unfold collect. apply map_lookup_filter_None. by left.
Qed.

Lemma agree_admit key limit now bs m :
  agree now bs m ->
  admit_one limit (window_of key) now (bs !! key) = admit_one limit (window_of key) now (m !! key).
Proof.
  intros H. destruct (H key) as [->|(-> & b & -> & Hexp)]; [done|]. simpl.
  destruct (Z.leb_spec (window_of key) (now - start b)); [done|lia].
Qed.

Lemma agree_insert now key b bs m :
  agree now bs m -> agree now (<[key := b]> bs) (<[key := b]> m).
Proof.
  intros H key'. destruct (decide (key = key')) as [->|Hne].
  - left. by rewrite !lookup_insert_eq.
  - rewrite !lookup_insert_ne by done. apply H.
Qed.

Lemma Allow_agrees c l m :
  c_window c = window_of (c_key c) -> (forall key, window_of key <= 3 * c_window c) ->
  agree (c_now c) (buckets l) m ->
  fst (Allow (c_key c) (c_limit c) (c_window c) (c_now c) l) = fst (fixed_window c m)
  /\ agree (c_now c) (buckets (snd (Allow (c_key c) (c_limit c) (c_window c) (c_now c) l)))
       (snd (fixed_window c m)).
Proof.
  intros Hw H3 H. unfold Allow, fixed_window.
  set (l' := if Minute <? _ then _ else l).
  assert (H' : agree (c_now c) (buckets l') m).
  { subst l'. destruct (Minute <? _); [by apply agree_collect|done]. }
  clearbody l'. rewrite Hw. rewrite (agree_admit _ _ _ _ _ H').
  destruct (admit_one _ _ _ _) as [ok b]. simpl. split; [done|by apply agree_insert].
Qed.

Lemma answers_agree cs : forall t l m,
  clocked t cs -> compatible window_of cs -> agree t (buckets l) m ->
  answers l cs = fixed_window_answers m cs.
Proof.
  induction cs as [|c cs IH]; intros t l m Hc Hw H; [done|]. destruct Hc as [Ht Hc].
  destruct (Hw c (or_introl eq_refl)) as [Hwc H3].
  destruct (Allow_agrees c l m Hwc H3 (agree_later _ _ _ _ Ht H)) as [Hok H'].
  cbn [answers fixed_window_answers].
  destruct (Allow _ _ _ _ l) as [ok l'], (fixed_window c m) as [ok' m']. simpl in *.
  subst ok'. f_equal. apply (IH (c_now c)); [done| |done].
  intros c' Hin. apply Hw. by right.
Qed.
End Collection.

(** ** How much a window lets through *)

Section Bound.
Variables (key : string) (limit window t : Z).
Hypothesis Hlimit : 1 <= limit.

(** What [key] may still be granted in [[t, t + window)]. *)
Definition allowance (m : gmap string bucket) : Z :=
  match m !! key with
  | None => limit
  | Some b => Z.max 0 (limit - count b) + (if t <=? start b then 0 else limit)
  end.

Definition in_window (c : Call) : Prop :=
  t <= c_now c < t + window /\ (c_key c = key -> c_limit c = limit /\ c_window c = window).

Lemma allowance_step c m :
  in_window c ->
  (if String.eqb (c_key c) key && fst (fixed_window c m) then 1 else 0)
    + allowance (snd (fixed_window c m)) <= allowance m.
Proof.
  intros [Ht Hk]. unfold fixed_window.
  destruct (String.eqb_spec (c_key c) key) as [Hkey|Hne].
  - destruct (Hk Hkey) as [-> ->]. rewrite Hkey. unfold allowance, admit_one.
    destruct (m !! key) as [b|].
    + destruct (Z.leb_spec window (c_now c - start b)).
      * simpl. rewrite lookup_insert_eq. simpl.
        destruct (Z.leb_spec t (c_now c)), (Z.leb_spec t (start b)); lia.
      * destruct (Z.leb_spec limit (count b)); simpl;
          rewrite lookup_insert_eq; simpl;
          destruct (Z.leb_spec t (start b)); lia.
    + simpl. rewrite lookup_insert_eq. simpl.
      destruct (Z.leb_spec t (c_now c)); lia.
  - destruct (admit_one _ _ _ _) as [ok b]. simpl. unfold allowance.
    rewrite lookup_insert_ne by done. lia.
Qed.

Lemma admitted_cons c ok cs oks :
  admitted key (c :: cs) (ok :: oks)
  = (if String.eqb (c_key c) key && ok then 1 else 0) + admitted key cs oks.
Proof.
  unfold admitted. simpl. destruct (_ && _); simpl; lia.
Qed.

Lemma admitted_allowance cs : forall m,
  Forall in_window cs -> admitted key cs (fixed_window_answers m cs) <= allowance m.
Proof.
  induction cs as [|c cs IH]; intros m Hin.
  - unfold admitted, allowance. simpl. destruct (m !! key) as [b|]; [|lia].
    destruct (Z.leb_spec t (start b)); lia.
  - apply Forall_cons_1 in Hin as [Hc Hin]. pose proof (allowance_step c m Hc).
    cbn [fixed_window_answers]. destruct (fixed_window c m) as [ok m'].
    rewrite admitted_cons. simpl in *. specialize (IH m' Hin). lia.
Qed.
End Bound.

(** Counters are never negative. *)
Definition counted (m : gmap string bucket) : Prop := map_Forall (fun _ b => 0 <= count b) m.

Lemma counted_step c m : counted m -> counted (snd (fixed_window c m)).
Proof.
  intros H. unfold fixed_window. destruct (admit_one _ _ _ _) as [ok b] eqn:E. simpl.
  apply map_Forall_insert_2; [|done]. revert E. unfold admit_one.
  destruct (m !! c_key c) as [b0|] eqn:Eb; [|intros [= _ <-]; simpl; lia].
  pose proof (H _ _ Eb). repeat case_match; intros [= _ <-]; simpl in *; lia.
Qed.

Fixpoint fixed_window_after (m : gmap string bucket) (cs : list Call) : gmap string bucket :=
  match cs with [] => m | c :: cs' => fixed_window_after (snd (fixed_window c m)) cs' end.

Lemma fixed_window_answers_app cs1 : forall m cs2,
  fixed_window_answers m (cs1 ++ cs2)
  = fixed_window_answers m cs1 ++ fixed_window_answers (fixed_window_after m cs1) cs2.
Proof.
  induction cs1 as [|c cs1 IH]; intros m cs2; [done|]. simpl.
  destruct (fixed_window c m) as [ok m']. simpl. by rewrite IH.
Qed.

Lemma counted_after cs : forall m, counted m -> counted (fixed_window_after m cs).
Proof. induction cs; simpl; intros; [done|]. by apply IHcs, counted_step. Qed.

Lemma length_answers cs : forall l, length (answers l cs) = length cs.
Proof. induction cs; intros; [done|]. simpl. destruct (Allow _ _ _ _ _). simpl. by rewrite IHcs. Qed.

Lemma length_fixed_window cs : forall m, length (fixed_window_answers m cs) = length cs.
Proof.
  induction cs; intros; [done|]. simpl. destruct (fixed_window _ _). simpl. by rewrite IHcs.
Qed.

(** ** Properties *)

(** C39. Equivalence: while every key keeps its window and no window is more than
    three times another, the limiter answers every run of calls as the counters
    that are never collected do: the garbage collection is invisible. *)
Theorem collection_is_invisible window_of t0 cs :
  clocked t0 cs -> compatible window_of cs ->
  answers (NewLimiter t0) cs = fixed_window_answers ∅ cs.
Proof.
  intros Hc Hw. apply (answers_agree window_of cs t0); [done|done|]. intros key. by left.
Qed.

(** Bound: under the same conditions, in any stretch of the run shorter than
    the window of a key at most twice its limit of calls is let through. *)
Theorem at_most_twice_the_limit window_of t0 before during key limit t :
  clocked t0 (before ++ during) -> compatible window_of (before ++ during) -> 1 <= limit ->
  Forall (in_window key limit (window_of key) t) during ->
  admitted key during
    (drop (length before) (answers (NewLimiter t0) (before ++ during))) <= 2 * limit.
Proof.
  intros Hc Hw Hl Hin.
  rewrite (answers_agree window_of _ t0 _ ∅ Hc Hw) by (intros k; by left).
  rewrite fixed_window_answers_app, drop_app_length' by (symmetry; apply length_fixed_window).
  etrans; [by eapply admitted_allowance|].
  assert (counted (fixed_window_after ∅ before)) as Hct
    by (apply counted_after; apply map_Forall_empty).
  unfold allowance. destruct (_ !! key) as [b|] eqn:E; [|lia].
  specialize (Hct _ _ E). simpl in Hct. destruct (t <=? start b); lia.
Qed.

(** ** Witnesses *)

Definition login_call (now : Z) : Call := mkCall "login:10.0.0.1" 2 Minute now.

Lemma login_compatible cs :
  Forall (fun c => c_window c = Minute) cs -> compatible (fun _ => Minute) cs.
Proof.
  intros H c Hin. rewrite List.Forall_forall in H. rewrite (H c Hin).
  split; [done|]. intros _. unfold Minute, Second. lia.
Qed.

Definition login_burst : list Call :=
  map login_call [0; Second; 2 * Second; 59 * Second; Minute; Minute + Second].

Lemma login_burst_clocked : clocked 0 login_burst.
Proof. vm_compute. intuition discriminate. Qed.

Theorem collection_is_invisible_witness :
  answers (NewLimiter 0) login_burst = [true; true; false; false; true; true].
Proof.
  rewrite (collection_is_invisible (fun _ => Minute) 0 login_burst).
  - vm_compute. reflexivity.
  - exact login_burst_clocked.
  - apply login_compatible. repeat constructor.
Defined.

Theorem at_most_twice_the_limit_witness :
  admitted "login:10.0.0.1" (drop 2 login_burst)
    (drop 2 (answers (NewLimiter 0) (take 2 login_burst ++ drop 2 login_burst))) <= 2 * 2.
Proof.
  apply (at_most_twice_the_limit (fun _ => Minute) 0 (take 2 login_burst) (drop 2 login_burst)
           "login:10.0.0.1" 2 (2 * Second)).
  - exact login_burst_clocked.
  - apply login_compatible. repeat constructor.
  - lia.
  - cbn. repeat (apply Forall_cons_2; [split; [vm_compute; split; [intros H|]; done|done]|]).
    apply Forall_nil_2.
Defined.

(** ** The windows the router uses are too far apart

    The routes of router.go use windows of one and of ten minutes.  A call with
    the short window collects counters of the long one that are still running:
    fifteen verification codes are sent in less than seven minutes, with a limit
    of five in ten. *)

Definition code_call (now : Z) : Call :=
  mkCall "mfa_recovery_email_send_v2:10.0.0.1" 5 (10 * Minute) now.

Definition code_flood : list Call :=
  repeat (code_call 0) 6 ++ [login_call (190 * Second)]
  ++ repeat (code_call (191 * Second)) 6 ++ [login_call (382 * Second)]
  ++ repeat (code_call (383 * Second)) 6.

Lemma short_windows_collect_long_ones :
  clocked 0 code_flood
  /\ Forall (fun c => 0 <= c_now c < 7 * Minute) code_flood
  /\ admitted "mfa_recovery_email_send_v2:10.0.0.1" code_flood
       (answers (NewLimiter 0) code_flood) = 15
  /\ admitted "mfa_recovery_email_send_v2:10.0.0.1" code_flood
       (fixed_window_answers ∅ code_flood) = 5.
Proof.
  split_and!; [vm_compute; intuition discriminate| |vm_compute; reflexivity..].
  repeat constructor; vm_compute; intuition discriminate.
Qed.
