(* ===== verification/MessageIds.v ===== *)
(** * MessageIds: the identifiers the mail API hands out

    [src/internal/mail/id.go].  A message is named by its mailbox and UID, an
    attachment by its message and part number; the index scopes both message
    and thread identifiers by the account they belong to.  A decoder answers
    [inl] with the text of its error or [inr] with what it read. *)

From S2P Require Import Prelude Unicode GoStrings GoStd GoText.
Local Open Scope Z_scope.

(** ** Mailbox and UID *)

Definition bar : Ascii.ascii := ascii_of 124.
Definition NUL : Ascii.ascii := ascii_of 0.

(** [%d] of a signed number of 64 bits. *)
Definition format_int (n : Z) : string := if n <? 0 then "-" +:+ itoa (- n) else itoa n.

Definition EncodeMessageID (mailbox : string) (uid : Z) : string :=
  base64url_encode (bytes (mailbox +:+ String bar (format_int uid))).

Definition DecodeMessageID (id : string) : string + string * Z :=
  match base64url_decode id with
  | None => inl "invalid message id"
  | Some b =>
      match Cut (of_bytes b) bar with
      | None => inl "invalid message id"
      | Some (mailbox, digits) =>
          match ParseUint digits 32 with
          | None => inl "invalid message id"
          | Some u => inr (mailbox, u)
          end
      end
  end.

Definition EncodeAttachmentID (messageID : string) (part : Z) : string :=
  base64url_encode (bytes (messageID +:+ String bar (format_int part))).

Definition DecodeAttachmentID (attachmentID : string) : string + string * Z :=
  match base64url_decode attachmentID with
  | None => inl "invalid attachment id"
  | Some b =>
      match Cut (of_bytes b) bar with
      | None => inl "invalid attachment id"
      | Some (messageID, digits) =>
          match Atoi digits with
          | None => inl "invalid attachment id"
          | Some n => if n <? 0 then inl "invalid attachment id" else inr (messageID, n)
          end
      end
  end.

(** ** Identifiers scoped by an account *)

Definition scopedIndexedMessageIDPrefix : string := "v2m_".
Definition scopedIndexedThreadIDPrefix : string := "v2t_".

Definition isScopedIndexedID (prefix id : string) : bool :=
  let id := TrimSpace id in
  if negb (HasPrefix id prefix) then false
  else
    let raw := TrimPrefix id prefix in
    if String.eqb raw "" then false
    else match base64url_decode raw with
    | None => false
    | Some decoded =>
        match Cut (of_bytes decoded) NUL with
        | None => false
        | Some (account, legacy) =>
            negb (String.eqb (TrimSpace account) "") && negb (String.eqb (TrimSpace legacy) "")
        end
    end.

Definition scopeIndexedID (prefix accountID legacyID : string) : string :=
  let legacyID := TrimSpace legacyID in
  if String.eqb legacyID "" then ""
  else if isScopedIndexedID prefix legacyID then legacyID
  else
    let accountID := TrimSpace accountID in
    if String.eqb accountID "" then legacyID
    else prefix +:+ base64url_encode (bytes (accountID +:+ String NUL legacyID)).

Definition unscopeIndexedID (prefix id : string) : string :=
  let id := TrimSpace id in
  if negb (isScopedIndexedID prefix id) then id
  else match base64url_decode (TrimPrefix id prefix) with
  | None => id
  | Some decoded =>
      match Cut (of_bytes decoded) NUL with
      | None => id
      | Some (_, legacy) => if String.eqb (TrimSpace legacy) "" then id else legacy
      end
  end.

Definition ScopeIndexedMessageID := scopeIndexedID scopedIndexedMessageIDPrefix.
Definition IsScopedIndexedMessageID := isScopedIndexedID scopedIndexedMessageIDPrefix.
Definition UnscopeIndexedMessageID := unscopeIndexedID scopedIndexedMessageIDPrefix.
Definition NormalizeIndexedMessageID (accountID id : string) : string :=
  if IsScopedIndexedMessageID id then TrimSpace id else ScopeIndexedMessageID accountID id.

Definition ScopeIndexedThreadID := scopeIndexedID scopedIndexedThreadIDPrefix.
Definition IsScopedIndexedThreadID := isScopedIndexedID scopedIndexedThreadIDPrefix.
Definition UnscopeIndexedThreadID := unscopeIndexedID scopedIndexedThreadIDPrefix.
Definition NormalizeIndexedThreadID (accountID id : string) : string :=
  if IsScopedIndexedThreadID id then TrimSpace id else ScopeIndexedThreadID accountID id.

(** ** Glued texts read back *)

(** A text glued by a separator and encoded decodes and cuts to what it was
    made of. *)
Lemma cut_decoded sep s t :
  free_of sep s ->
  exists b, base64url_decode (base64url_encode (bytes (s +:+ String sep t))) = Some b
    /\ Cut (of_bytes b) sep = Some (s, t).
Proof.
  intros H. eexists. split; [apply base64url_string|]. rewrite of_bytes_bytes. by apply Cut_app.
Qed.

Lemma of_bytes_bytes_cut sep s p q :
  Cut s sep = Some (p, q) -> Cut (of_bytes (bytes s)) sep = Some (p, q).
Proof. by rewrite of_bytes_bytes. Qed.

Lemma itoa_no_bar_digits n : 0 <= n < 10 ^ 20 -> forallb is_digit (bytes (itoa n)) = true.
Proof. intros. rewrite bytes_itoa by lia. by apply digits_decimal. Qed.

Lemma format_int_nonneg n : 0 <= n -> format_int n = itoa n.
Proof. intros. unfold format_int. zdecide. done. Qed.

Lemma digits_free_of_bar s : forallb is_digit (bytes s) = true -> free_of bar s.
Proof.
  intros H Hin. apply (in_map byte_of) in Hin. rewrite forallb_forall in H.
  specialize (H _ Hin). done.
Qed.

(** *** What the decoders answer on encoded identifiers *)

Lemma decode_encoded_message mailbox uid :
  0 <= uid < 2 ^ 32 ->
  DecodeMessageID (EncodeMessageID mailbox uid)
  = match Cut mailbox bar with
    | None => inr (mailbox, uid)
    | Some _ => inl "invalid message id"
    end.
Proof.
  intros Hu. unfold DecodeMessageID, EncodeMessageID. rewrite base64url_string, of_bytes_bytes.
  rewrite format_int_nonneg by lia. destruct (Cut mailbox bar) as [[x y]|] eqn:E.
  - assert (In bar (String.list_ascii_of_string mailbox)) as Hin.
    { destruct (Cut_glue _ _ _ _ E) as [-> _]. rewrite list_ascii_of_app. apply in_or_app. right. by left. }
    destruct (Cut_first bar mailbox (itoa uid) Hin) as (p & q & -> & _ & Hq).
    destruct (ParseUint q 32) eqn:Ep; [|done]. exfalso. apply Hq, digits_free_of_bar.
    unfold ParseUint in Ep. destruct (_ && _) eqn:Eb; [|done]. by breflect.
  - apply Cut_none in E. rewrite Cut_app by done. by rewrite ParseUint_itoa by lia.
Qed.

(** A message identifier is made of letters, digits, [-] and [_]. *)
Lemma encoded_free_of_bar mailbox uid : free_of bar (EncodeMessageID mailbox uid).
Proof. apply base64url_free_of. by vm_compute; intros [_ H]; apply H. Qed.

Lemma Atoi_format n : - 2 ^ 63 <= n < 2 ^ 63 -> Atoi (format_int n) = Some n.
Proof.
  intros Hn. destruct (Z.ltb_spec n 0).
  - unfold format_int. zdecide. unfold Atoi.
    change (bytes ("-" +:+ itoa (- n))) with (45 :: bytes (itoa (- n))).
    rewrite bytes_itoa by lia. destruct (digits_decimal 20 (- n)) as (Hd & Hf & Hl); [lia|].
    rewrite Hf, Hd. destruct (Nat.eqb_spec (length (digits 20 (- n))) 0); [by exfalso; apply Hl|].
    simpl. zdecide. f_equal. lia.
  - rewrite format_int_nonneg by lia. apply Atoi_itoa. lia.
Qed.

Lemma decode_encoded_attachment id part :
  free_of bar id -> - 2 ^ 63 <= part < 2 ^ 63 ->
  DecodeAttachmentID (EncodeAttachmentID id part)
  = if part <? 0 then inl "invalid attachment id" else inr (id, part).
Proof.
  intros Hid Hp. unfold DecodeAttachmentID, EncodeAttachmentID.
  rewrite base64url_string, of_bytes_bytes, Cut_app, Atoi_format by done. done.
Qed.

(** *** Scoped identifiers *)

Section Scoped.
Context (prefix : string).
Hypothesis prefix_solid : Forall (fun b => 33 <= b <= 126) (bytes prefix).

(** A scoped identifier, spelled out. *)
Definition scoped (a l : string) : string :=
  prefix +:+ base64url_encode (bytes (a +:+ String NUL l)).

Lemma encoded_not_empty a l : base64url_encode (bytes (a +:+ String NUL l)) <> "".
Proof.
  intros H. pose proof (base64url_string (a +:+ String NUL l)) as Hd. rewrite H in Hd.
  vm_compute (base64url_decode "") in Hd. injection Hd as Hd. apply (f_equal length) in Hd.
  unfold bytes in Hd. rewrite map_length, list_ascii_of_app, length_app in Hd. simpl in Hd. lia.
Qed.

Lemma TrimSpace_scoped a l : TrimSpace (scoped a l) = scoped a l.
Proof.
  apply TrimSpace_solid. unfold scoped. rewrite bytes_app. apply Forall_app. split; [done|].
  destruct (bytes_base64url (bytes (a +:+ String NUL l)) (bytes_is_bytes _)) as [-> H].
  eapply List.Forall_impl; [|exact H]. simpl. lia.
Qed.

(** What the tests on an identifier find in a scoped one. *)
Lemma read_scoped a l :
  free_of NUL a -> TrimSpace a <> "" -> TrimSpace l <> "" ->
  isScopedIndexedID prefix (scoped a l) = true /\ unscopeIndexedID prefix (scoped a l) = l.
Proof.
  intros Hn Ha Hl.
  assert (isScopedIndexedID prefix (scoped a l) = true) as Hs.
  { unfold isScopedIndexedID. rewrite TrimSpace_scoped. unfold scoped.
    rewrite HasPrefix_app, TrimPrefix_app. cbn [negb].
    destruct (String.eqb_spec (base64url_encode (bytes (a +:+ String NUL l))) "") as [He|_];
      [by apply encoded_not_empty in He|].
    rewrite base64url_string, of_bytes_bytes, Cut_app by done.
    destruct (String.eqb_spec (TrimSpace a) ""); [done|].
    destruct (String.eqb_spec (TrimSpace l) ""); [done|]. done. }
  split; [done|]. unfold unscopeIndexedID. rewrite TrimSpace_scoped, Hs. cbn [negb].
  unfold scoped. rewrite TrimPrefix_app, base64url_string, of_bytes_bytes, Cut_app by done.
  destruct (String.eqb_spec (TrimSpace l) ""); [done|]. done.
Qed.

Lemma scopeIndexedID_scoped a l :
  TrimSpace a <> "" -> TrimSpace l <> "" -> isScopedIndexedID prefix l = false ->
  scopeIndexedID prefix a l = scoped (TrimSpace a) (TrimSpace l).
Proof.
  intros Ha Hl Hs. unfold scopeIndexedID.
  assert (isScopedIndexedID prefix (TrimSpace l) = false) as ->.
  { unfold isScopedIndexedID in *. by rewrite TrimSpace_idem. }
  destruct (String.eqb_spec (TrimSpace l) ""); [done|].
  destruct (String.eqb_spec (TrimSpace a) ""); done.
Qed.

Lemma scope_reads_back a l :
  free_of NUL (TrimSpace a) -> TrimSpace a <> "" -> TrimSpace l <> "" ->
  isScopedIndexedID prefix l = false ->
  isScopedIndexedID prefix (scopeIndexedID prefix a l) = true
  /\ unscopeIndexedID prefix (scopeIndexedID prefix a l) = TrimSpace l
  /\ TrimSpace (scopeIndexedID prefix a l) = scopeIndexedID prefix a l.
Proof.
  intros Hn Ha Hl Hs. rewrite scopeIndexedID_scoped by done.
  destruct (read_scoped (TrimSpace a) (TrimSpace l)) as [H1 H2];
    [done|by rewrite TrimSpace_idem..|]. split_and!; [done|done|apply TrimSpace_scoped].
Qed.

Lemma scope_injective a l a' l' :
  free_of NUL (TrimSpace a) -> free_of NUL (TrimSpace a') ->
  TrimSpace a <> "" -> TrimSpace a' <> "" -> TrimSpace l <> "" -> TrimSpace l' <> "" ->
  isScopedIndexedID prefix l = false -> isScopedIndexedID prefix l' = false ->
  scopeIndexedID prefix a l = scopeIndexedID prefix a' l' ->
  TrimSpace a = TrimSpace a' /\ TrimSpace l = TrimSpace l'.
Proof.
  intros Hn Hn' Ha Ha' Hl Hl' Hs Hs'. rewrite !scopeIndexedID_scoped by done. unfold scoped.
  intros H. apply (f_equal (fun s => TrimPrefix s prefix)) in H. rewrite !TrimPrefix_app in H.
  apply (f_equal base64url_decode) in H. rewrite !base64url_string in H. injection H as H.
  apply (f_equal (fun b => Cut (of_bytes b) NUL)) in H. rewrite !of_bytes_bytes, !Cut_app in H by done.
  by injection H as -> ->.
Qed.
End Scoped.

Lemma message_prefix_solid : Forall (fun b => 33 <= b <= 126) (bytes scopedIndexedMessageIDPrefix).
Proof. repeat constructor; by vm_compute. Qed.
Lemma thread_prefix_solid : Forall (fun b => 33 <= b <= 126) (bytes scopedIndexedThreadIDPrefix).
Proof. repeat constructor; by vm_compute. Qed.

(** An identifier of one kind is not scoped for the other. *)
Lemma message_not_thread a l : isScopedIndexedID scopedIndexedThreadIDPrefix
  (scoped scopedIndexedMessageIDPrefix a l) = false.
Proof. unfold isScopedIndexedID. by rewrite (TrimSpace_scoped _ message_prefix_solid). Qed.

(** ** Properties *)

(** C35. A message identifier decodes to the mailbox and UID it was made from
    exactly when the mailbox's name holds no vertical bar, and is otherwise
    refused; what any identifier decodes to is a 32-bit UID and encodes to an
    identifier that decodes alike; an attachment identifier of a message
    decodes to that message's identifier and the part number, and to nothing
    when the part number is negative. *)
Theorem message_ids_read_back :
  (forall mailbox uid, 0 <= uid < 2 ^ 32 ->
     DecodeMessageID (EncodeMessageID mailbox uid)
     = if decide (free_of bar mailbox) then inr (mailbox, uid) else inl "invalid message id")
  /\ (forall id mailbox uid, DecodeMessageID id = inr (mailbox, uid) ->
        0 <= uid < 2 ^ 32 /\ DecodeMessageID (EncodeMessageID mailbox uid) = inr (mailbox, uid))
  /\ (forall mailbox uid part, - 2 ^ 63 <= part < 2 ^ 63 ->
        let id := EncodeMessageID mailbox uid in
        DecodeAttachmentID (EncodeAttachmentID id part)
        = if part <? 0 then inl "invalid attachment id" else inr (id, part)).
Proof.
  split_and!.
  - intros m u Hu. rewrite decode_encoded_message by done.
    destruct (decide _) as [H|H]; [by apply Cut_none in H as ->|].
    destruct (Cut m bar) as [[? ?]|] eqn:E; [done|]. by apply Cut_none in E.
  - intros id m u. unfold DecodeMessageID at 1.
    destruct (base64url_decode id) as [b|]; [|done].
    destruct (Cut (of_bytes b) bar) as [[p q]|] eqn:Ec; [|done].
    destruct (ParseUint q 32) eqn:Ep; [|done]. intros [= -> ->].
    apply ParseUint_range in Ep. split; [done|].
    destruct (Cut_glue _ _ _ _ Ec) as [_ Hf]. rewrite decode_encoded_message by done.
    by apply Cut_none in Hf as ->.
  - intros m u part Hp. apply decode_encoded_attachment; [apply encoded_free_of_bar|done].
Qed.

(** The identifier the index scopes by an account (whose name holds no
    NUL) is recognised as scoped, unscopes to the trimmed identifier it was
    made from, is left alone by every later normalisation, differs for
    different accounts and different identifiers, and is not mistaken for a
    scoped identifier of a thread. *)
Theorem scoped_ids_read_back accountID id :
  free_of NUL (TrimSpace accountID) -> TrimSpace accountID <> "" -> TrimSpace id <> "" ->
  IsScopedIndexedMessageID id = false ->
  let scopedID := ScopeIndexedMessageID accountID id in
  NormalizeIndexedMessageID accountID id = scopedID
  /\ IsScopedIndexedMessageID scopedID = true
  /\ UnscopeIndexedMessageID scopedID = TrimSpace id
  /\ (forall other, NormalizeIndexedMessageID other scopedID = scopedID)
  /\ IsScopedIndexedThreadID scopedID = false
  /\ (forall accountID' id',
        free_of NUL (TrimSpace accountID') -> TrimSpace accountID' <> "" -> TrimSpace id' <> "" ->
        IsScopedIndexedMessageID id' = false -> ScopeIndexedMessageID accountID' id' = scopedID ->
        TrimSpace accountID' = TrimSpace accountID /\ TrimSpace id' = TrimSpace id).
Proof.
  intros Hn Ha Hi Hs. cbv zeta.
  destruct (scope_reads_back _ message_prefix_solid _ _ Hn Ha Hi Hs) as (H1 & H2 & H3).
  split_and!; [|exact H1|exact H2| | |].
  - unfold NormalizeIndexedMessageID. by rewrite Hs.
  - intros other. unfold NormalizeIndexedMessageID, IsScopedIndexedMessageID, ScopeIndexedMessageID.
    by rewrite H1.
  - unfold ScopeIndexedMessageID. rewrite scopeIndexedID_scoped by done. apply message_not_thread.
  - intros a' i' Hn' Ha' Hi' Hs' He.
    by apply (scope_injective scopedIndexedMessageIDPrefix a' i' accountID id).
Qed.

(** ** Witnesses *)

Lemma free_of_decide sep s : Cut s sep = None -> free_of sep s.
Proof. apply Cut_none. Qed.

Lemma scoped_ids_read_back_witness :
  UnscopeIndexedMessageID (ScopeIndexedMessageID " acct-1 " "SU5CT1h8Nw") = "SU5CT1h8Nw".
Proof.
  refine (proj1 (proj2 (proj2 (scoped_ids_read_back " acct-1 " "SU5CT1h8Nw" _ _ _ _)))).
  - apply free_of_decide. vm_compute. reflexivity.
  - vm_compute. discriminate.
  - vm_compute. discriminate.
  - vm_compute. reflexivity.
Defined.

Lemma message_ids_read_back_witness :
  DecodeMessageID (EncodeMessageID "INBOX" 42) = inr ("INBOX", 42)
  /\ DecodeAttachmentID (EncodeAttachmentID (EncodeMessageID "INBOX" 42) 2)
     = inr (EncodeMessageID "INBOX" 42, 2).
Proof.
  split.
  - refine (eq_trans (proj1 message_ids_read_back "INBOX" 42 _) _); [lia|].
    vm_compute. reflexivity.
  - refine (proj2 (proj2 message_ids_read_back) "INBOX" 42 2 _). lia.
Defined.

(** A mailbox named with a bar: its messages cannot be addressed. *)
Example barred_mailbox : DecodeMessageID (EncodeMessageID "Clients|2024" 7) = inl "invalid message id".
Proof. vm_compute. reflexivity. Qed.
