(* ===== verification/Provision.v ===== *)
(** * Provision: internal/mail/provision_sql.go

    The accounts of the mail server, kept in a table of its own database.  The
    identifiers of the statements come from the configuration and are checked
    when the provisioner is made; addresses and hashes only travel as
    arguments.  The database is a parameter: it answers a statement text and
    its arguments. *)

From S2P Require Import Prelude Unicode GoStrings GoStd GoText.
Local Open Scope Z_scope.

(** ** The database, a parameter *)

Inductive Arg : Type := ArgText (s : string) | ArgInt (n : Z).

(** What [ExecContext] and then [RowsAffected] answer. *)
Inductive ExecResult : Type :=
| ExecOk (rows : Z)
| ExecNoRows (err : string)   (* executed, but RowsAffected fails *)
| ExecErr (err : string).

(** ** Making a provisioner *)

Record ProvisionConfig : Type := mkProvisionConfig {
  AuthMode : string; DBDriver : string; DBDSN : string; Table : string; EmailColumn : string;
  PassColumn : string; ActiveColumn : string; MaildirColumn : string; MaildirBase : string
}.

Record SQLProvisioner : Type := mkSQLProvisioner {
  driver : string; table : string; emailCol : string; passCol : string; activeCol : string;
  maildirCol : string; maildirBase : string
}.

Inductive AuthProvisioner : Type := NoopProvisioner | Provisioner (p : SQLProvisioner).

Definition ident_start (b : Z) : bool :=
  ((65 <=? b) && (b <=? 90)) || ((97 <=? b) && (b <=? 122)) || (b =? 95).
Definition ident_rest (b : Z) : bool := ident_start b || is_digit b.

(** [^[A-Za-z_][A-Za-z0-9_]*$] *)
Definition identRx_match (s : string) : bool :=
  match bytes s with
  | b :: l => ident_start b && forallb ident_rest l
  | [] => false
  end.

Inductive ProvisionError : Type := InvalidIdentifier (ident : string) | OpenFailed (err : string).

(** [opens] is what [sql.Open] and [Ping] answer: the text of an error. *)
Definition NewProvisioner (opens : option string) (c : ProvisionConfig) :
    ProvisionError + AuthProvisioner :=
  if EqualFold (TrimSpace (AuthMode c)) "pam" then inr NoopProvisioner
  else if String.eqb (TrimSpace (DBDriver c)) "" || String.eqb (TrimSpace (DBDSN c)) ""
  then inr NoopProvisioner
  else
    match List.find (fun ident => negb (String.eqb ident "") && negb (identRx_match ident))
            [Table c; EmailColumn c; PassColumn c; ActiveColumn c; MaildirColumn c] with
    | Some ident => inl (InvalidIdentifier ident)
    | None =>
        match opens with
        | Some err => inl (OpenFailed err)
        | None => inr (Provisioner {|
            driver := DBDriver c; table := Table c; emailCol := EmailColumn c;
            passCol := PassColumn c; activeCol := ActiveColumn c; maildirCol := MaildirColumn c;
            maildirBase := TrimRightByte (MaildirBase c) (ascii_of 47) |})
        end
    end.

(** ** Mail directories *)

Definition slash : Ascii.ascii := ascii_of 47.
Definition backslash : Ascii.ascii := ascii_of 92.
Definition dot : Ascii.ascii := ascii_of 46.

(** [strings.ReplaceAll(v, "..", "")]. *)
Definition drop_dots (v : string) : string :=
  String.string_of_list_ascii (remove_pair dot dot (String.list_ascii_of_string v)).

Definition sanitizePathPart (v : string) : string :=
  let v := fold_trim v in
  if String.eqb v "" then "default"
  else ReplaceByte (ReplaceByte (drop_dots v) slash (ascii_of 95)) backslash (ascii_of 95).

Definition buildMaildir (p : SQLProvisioner) (email : string) : string :=
  match Cut email (ascii_of 64) with
  | None => maildirBase p +:+ "/local/default/Maildir"
  | Some (local, domain) =>
      maildirBase p +:+ "/" +:+ sanitizePathPart domain +:+ "/" +:+ sanitizePathPart local
        +:+ "/Maildir"
  end.

(** ** Statements *)

Definition dollar_driver (p : SQLProvisioner) : bool :=
  Contains (ToLower (driver p)) "pgx" || Contains (ToLower (driver p)) "postgres".

Definition ph (p : SQLProvisioner) (i : Z) : string :=
  if dollar_driver p then "$" +:+ itoa i else "?".

Definition has (col : string) : bool := negb (String.eqb col "").

(** The assignments of the update and their values, numbered from 1. *)
Definition set_columns (p : SQLProvisioner) (email passwordHash : string) :
    list (string * Arg) :=
  [(passCol p, ArgText passwordHash)]
  ++ (if has (activeCol p) then [(activeCol p, ArgInt 1)] else [])
  ++ (if has (maildirCol p) then [(maildirCol p, ArgText (buildMaildir p email))] else []).

Definition numbered {A} (l : list A) : list (Z * A) :=
  combine (map Z.of_nat (List.seq 1 (length l))) l.

Definition update_statement (p : SQLProvisioner) (email passwordHash : string) :
    string * list Arg :=
  let cols := set_columns p email passwordHash in
  ("UPDATE " +:+ table p +:+ " SET "
     +:+ Join "," (map (fun ic => fst (snd ic) +:+ "=" +:+ ph p (fst ic)) (numbered cols))
     +:+ " WHERE " +:+ emailCol p +:+ "=" +:+ ph p (Z.of_nat (length cols) + 1),
   map snd cols ++ [ArgText email]).

Definition insert_columns (p : SQLProvisioner) (email passwordHash : string) :
    list (string * Arg) :=
  (emailCol p, ArgText email) :: set_columns p email passwordHash.

Definition insert_statement (p : SQLProvisioner) (email passwordHash : string) :
    string * list Arg :=
  let cols := insert_columns p email passwordHash in
  ("INSERT INTO " +:+ table p +:+ " (" +:+ Join "," (map fst cols) +:+ ") VALUES ("
     +:+ Join "," (map (fun ic => ph p (fst ic)) (numbered cols)) +:+ ")",
   map snd cols).

Definition disable_statement (p : SQLProvisioner) (email : string) : string * list Arg :=
  ("UPDATE " +:+ table p +:+ " SET " +:+ activeCol p +:+ "=" +:+ ph p 1 +:+ " WHERE "
     +:+ emailCol p +:+ "=" +:+ ph p 2,
   [ArgInt 0; ArgText email]).

Section Exec.
Context {DB : Type} (exec : string * list Arg -> DB -> ExecResult * DB).

Definition duplicate_key (err : string) : bool :=
  Contains (ToLower err) "duplicate" || Contains (ToLower err) "unique".

(** The error is [None] for nil. *)
Definition UpsertActiveUser (p : SQLProvisioner) (email passwordHash : string) (db : DB) :
    option string * DB :=
  let update := update_statement p email passwordHash in
  let (res, db) := exec update db in
  match res with
  | ExecErr err => (Some err, db)
  | ExecNoRows err => (Some err, db)
  | ExecOk rows =>
      if 0 <? rows then (None, db)
      else
        let (res, db) := exec (insert_statement p email passwordHash) db in
        match res with
        | ExecErr err =>
            if duplicate_key err then
              let (res, db) := exec update db in
              (match res with ExecErr err' => Some err' | _ => None end, db)
            else (Some err, db)
        | _ => (None, db)
        end
  end.

Definition DisableUser (p : SQLProvisioner) (email : string) (db : DB) : option string * DB :=
  if negb (has (activeCol p)) then (None, db)
  else
    let (res, db) := exec (disable_statement p email) db in
    (match res with ExecErr err => Some err | _ => None end, db).
End Exec.

(** ** Placeholders of a statement *)

(** The placeholders of a text in order: the number of a [$n], 0 for a [?]. *)
Fixpoint placeholders (l : list Z) : list Z :=
  match l with
  | [] => []
  | b :: l' =>
      if b =? 63 then 0 :: placeholders l'
      else if b =? 36 then fst (take_digits 0 l') :: placeholders l'
      else placeholders l'
  end.

(** A text that holds none. *)
Definition plain (l : list Z) : Prop := Forall (fun b => b <> 63 /\ b <> 36) l.

Lemma placeholders_plain l k : plain l -> placeholders (l ++ k) = placeholders k.
Proof.
  induction 1 as [|b l [H1 H2] _ IH]; simpl; [done|].
  destruct (Z.eqb_spec b 63), (Z.eqb_spec b 36); done.
Qed.

Lemma placeholders_app l k :
  match k with b :: _ => is_digit b = false | [] => True end ->
  placeholders (l ++ k) = placeholders l ++ placeholders k.
Proof.
  intros Hk. induction l as [|b l IH]; simpl; [done|]. rewrite IH.
  destruct (b =? 63); [done|]. destruct (b =? 36); [|done]. simpl. f_equal.
  clear IH. generalize 0. induction l as [|c l IH]; simpl; intros n.
  - destruct k as [|c k]; simpl; [done|]. by rewrite Hk.
  - destruct (is_digit c); [apply IH|done].
Qed.

Lemma digits_plain l : forallb is_digit l = true -> plain l.
Proof.
  rewrite forallb_forall. intros H. apply List.Forall_forall. intros b Hb.
  specialize (H b Hb). unfold is_digit in H. breflect. lia.
Qed.

Lemma take_digits_all l : forall acc, forallb is_digit l = true ->
  fst (take_digits acc l) = fold_left (fun acc b => acc * 10 + (b - 48)) l acc.
Proof.
  induction l as [|b l IH]; simpl; intros acc; [done|].
  destruct (is_digit b); [apply IH|done].
Qed.

Lemma identRx_plain s : s = "" \/ identRx_match s = true -> plain (bytes s).
Proof.
  intros [->|H]; [constructor|]. unfold identRx_match in H.
  assert (Hr : forall b, ident_rest b = true -> b <> 63 /\ b <> 36).
  { intros b Hb. unfold ident_rest, ident_start, is_digit in Hb.
    repeat match goal with
    | H : (_ || _)%bool = true |- _ => apply orb_true_iff in H as [H|H] end; breflect; lia. }
  destruct (bytes s) as [|b l]; [done|]. apply andb_true_iff in H as [Hb Hl]. constructor.
  - apply Hr. unfold ident_rest. by rewrite Hb.
  - rewrite forallb_forall in Hl. apply List.Forall_forall. auto.
Qed.

(** What the placeholders of a statement with [n] arguments should be. *)
Definition numbers (p : SQLProvisioner) (n : nat) : list Z :=
  map (fun i => if dollar_driver p then Z.of_nat i else 0) (List.seq 1 n).

Lemma ph_placeholder p i :
  0 <= i < 10 ^ 20 -> placeholders (bytes (ph p i)) = [if dollar_driver p then i else 0].
Proof.
  intros Hi. unfold ph. destruct (dollar_driver p); [|done].
  change (bytes ("$" +:+ itoa i)) with (36 :: bytes (itoa i)). rewrite bytes_itoa by done.
  destruct (digits_decimal 20 i Hi) as (Hd & Hf & _). cbn [placeholders Z.eqb Pos.eqb].
  rewrite take_digits_all by done. unfold decimal in Hd. rewrite Hd.
  f_equal. rewrite <- (app_nil_r (digits 20 i)). by rewrite placeholders_plain by by apply digits_plain.
Qed.

Lemma placeholders_comma l k : placeholders (l ++ 44 :: k) = placeholders l ++ placeholders k.
Proof. by rewrite placeholders_app. Qed.

Lemma placeholders_join l :
  placeholders (bytes (Join "," l)) = flat_map (fun s => placeholders (bytes s)) l.
Proof.
  induction l as [|s l IH]; [done|]. cbn [flat_map]. rewrite <- IH.
  destruct l as [|t l]; [by rewrite app_nil_r|].
  change (Join "," (s :: t :: l)) with (s +:+ "," +:+ Join "," (t :: l)).
  rewrite !bytes_app. change (bytes ",") with [44]. apply placeholders_comma.
Qed.

Lemma numbered_placeholders {A} p (f : Z * A -> string) (l : list A) :
  Z.of_nat (length l) < 10 ^ 18 ->
  (forall i a, In a l -> 0 <= i < 10 ^ 20 ->
     placeholders (bytes (f (i, a))) = [if dollar_driver p then i else 0]) ->
  flat_map (fun s => placeholders (bytes s)) (map f (numbered l)) = numbers p (length l).
Proof.
  intros Hlen Hf. unfold numbered, numbers. revert Hlen.
  assert (forall k, Z.of_nat (k + length l) < 10 ^ 19 ->
    flat_map (fun s => placeholders (bytes s))
      (map f (combine (map Z.of_nat (List.seq k (length l))) l))
    = map (fun i => if dollar_driver p then Z.of_nat i else 0) (List.seq k (length l))) as H.
  { induction l as [|a l IH]; intros k Hk; [done|]. cbn [length List.seq map combine flat_map] in *.
    rewrite Hf by (by left || lia). rewrite IH; [done| |lia]. intros; apply Hf; [by right|done]. }
  intros Hlen. apply H. lia.
Qed.

Section Checked.
Context (p : SQLProvisioner).

(** What [NewProvisioner] has checked of the identifiers. *)
Definition checked : Prop :=
  Forall (fun s => s = "" \/ identRx_match s = true)
    [table p; emailCol p; passCol p; activeCol p; maildirCol p].

Hypothesis Hchecked : checked.

Lemma checked_plain s :
  In s [table p; emailCol p; passCol p; activeCol p; maildirCol p] -> plain (bytes s).
Proof. intros H. apply identRx_plain. by apply (proj1 (List.Forall_forall _ _) Hchecked). Qed.

Lemma placeholders_ident s t :
  plain (bytes s) -> placeholders (bytes (s +:+ t)) = placeholders (bytes t).
Proof. intros H. rewrite bytes_app. by apply placeholders_plain. Qed.

Lemma placeholders_literal s t :
  forallb (fun b => negb (b =? 63) && negb (b =? 36)) (bytes s) = true ->
  placeholders (bytes (s +:+ t)) = placeholders (bytes t).
Proof.
  intros H. apply placeholders_ident. rewrite forallb_forall in H.
  apply List.Forall_forall. intros b Hb. specialize (H b Hb). breflect. done.
Qed.

Lemma set_columns_idents email hash :
  Forall (fun ca => plain (bytes (fst ca))) (set_columns p email hash).
Proof.
  unfold set_columns. repeat apply Forall_app_2; [|destruct (has _)..];
    repeat constructor; apply checked_plain; simpl; tauto.
Qed.

Lemma set_columns_length email hash : (length (set_columns p email hash) <= 3)%nat.
Proof. unfold set_columns. rewrite !length_app. repeat case_match; simpl; lia. Qed.

Lemma placeholders_assignment c i :
  plain (bytes c) -> 0 <= i < 10 ^ 20 ->
  placeholders (bytes (c +:+ "=" +:+ ph p i)) = [if dollar_driver p then i else 0].
Proof.
  intros Hc Hi. rewrite placeholders_ident, placeholders_literal by done. by apply ph_placeholder.
Qed.

Lemma numbers_S n : numbers p (S n) = numbers p n ++ [if dollar_driver p then Z.of_nat (S n) else 0].
Proof.
  unfold numbers. rewrite seq_S, map_app. by replace (1 + n)%nat with (S n) by lia.
Qed.

Lemma update_placeholders email hash :
  placeholders (bytes (fst (update_statement p email hash)))
  = numbers p (length (snd (update_statement p email hash))).
Proof.
  unfold update_statement. cbn [fst snd]. set (cols := set_columns p email hash).
  pose proof (set_columns_idents email hash) as Hids.
  pose proof (set_columns_length email hash) as Hlen. fold cols in Hids, Hlen.
  rewrite length_app, length_map, Nat.add_comm. cbn [length Nat.add].
  rewrite placeholders_literal by reflexivity.
  rewrite placeholders_ident by (apply checked_plain; simpl; tauto).
  rewrite placeholders_literal by reflexivity.
  rewrite bytes_app. rewrite placeholders_app by done.
  rewrite placeholders_join, (numbered_placeholders p).
  - rewrite placeholders_literal by reflexivity.
    rewrite placeholders_assignment; [|apply checked_plain; simpl; tauto|lia].
    rewrite numbers_S. do 2 f_equal. destruct (dollar_driver p); [lia|done].
  - lia.
  - intros i [c a] Hin Hi. apply placeholders_assignment; [|done].
    rewrite List.Forall_forall in Hids. apply (Hids _ Hin).
Qed.

Lemma plain_join l : Forall (fun s => plain (bytes s)) l -> plain (bytes (Join "," l)).
Proof.
  induction 1 as [|s l Hs Hl IH]; [constructor|].
  destruct l as [|t l]; [done|].
  change (Join "," (s :: t :: l)) with (s +:+ "," +:+ Join "," (t :: l)).
  rewrite !bytes_app. change (bytes ",") with [44]. apply Forall_app. split; [done|].
  constructor; [lia|done].
Qed.

Lemma insert_placeholders email hash :
  placeholders (bytes (fst (insert_statement p email hash)))
  = numbers p (length (snd (insert_statement p email hash))).
Proof.
  unfold insert_statement. cbn [fst snd]. set (cols := insert_columns p email hash).
  assert (Hids : Forall (fun ca : string * Arg => plain (bytes (fst ca))) cols).
  { constructor; [apply checked_plain; simpl; tauto|apply set_columns_idents]. }
  assert (Hlen : (length cols <= 4)%nat).
  { pose proof (set_columns_length email hash). subst cols. unfold insert_columns. cbn [length]. lia. }
  rewrite length_map.
  rewrite placeholders_literal by reflexivity.
  rewrite placeholders_ident by (apply checked_plain; simpl; tauto).
  rewrite placeholders_literal by reflexivity.
  rewrite placeholders_ident.
  2: { apply plain_join. clear Hlen. clearbody cols. induction Hids; simpl; by constructor. }
  rewrite placeholders_literal by reflexivity.
  rewrite bytes_app, placeholders_app by done. change (placeholders (bytes ")")) with (@nil Z).
  rewrite app_nil_r, placeholders_join. apply numbered_placeholders; [lia|].
  intros i ca _ Hi. by apply ph_placeholder.
Qed.

Lemma disable_placeholders email :
  placeholders (bytes (fst (disable_statement p email))) = numbers p 2.
Proof.
  unfold disable_statement. cbn [fst].
  rewrite placeholders_literal by reflexivity.
  rewrite placeholders_ident by (apply checked_plain; simpl; tauto).
  rewrite placeholders_literal by reflexivity.
  rewrite placeholders_ident by (apply checked_plain; simpl; tauto).
  rewrite placeholders_literal by reflexivity.
  rewrite bytes_app, placeholders_app by done. rewrite ph_placeholder by lia.
  rewrite placeholders_literal by reflexivity.
  rewrite placeholders_assignment; [|apply checked_plain; simpl; tauto|lia]. done.
Qed.
End Checked.

Lemma NewProvisioner_checked opens c p : NewProvisioner opens c = inr (Provisioner p) -> checked p.
Proof.
  unfold NewProvisioner. destruct (EqualFold _ _); [done|]. destruct (_ || _); [done|].
  destruct (List.find _ _) eqn:E; [done|]. destruct opens; [done|]. intros [= <-].
  unfold checked. simpl. apply List.Forall_forall. intros s Hs.
  pose proof (proj1 (find_none_iff _ _) E s Hs) as H. apply andb_false_iff in H as [H|H]; breflect; auto.
Qed.

(** ** Mail directories stay below their base *)

(** No two dots in a row. *)
Fixpoint no_dots (l : list Ascii.ascii) : Prop :=
  match l with
  | [] => True
  | a :: l1 => ~ (a = dot /\ head l1 = Some dot) /\ no_dots l1
  end.

Lemma remove_pair_keeps x y a l : a <> x -> remove_pair x y (a :: l) = a :: remove_pair x y l.
Proof.
  intros Ha. simpl. destruct l as [|b l]; [done|]. by destruct (Ascii.eqb_spec a x).
Qed.

Lemma drop_dots_no_dots l : no_dots (remove_pair dot dot l).
Proof.
  remember (length l) as n eqn:Hn. revert l Hn.
  induction n as [n IH] using lt_wf_ind. intros l ->.
  destruct l as [|a [|b l]]; [done|split; [by intros [_ [=]]|done]|].
  assert (IH1 : no_dots (remove_pair dot dot (b :: l))) by (eapply IH; [|done]; simpl; lia).
  assert (IH2 : no_dots (remove_pair dot dot l)) by (eapply IH; [|done]; simpl; lia).
  change (remove_pair dot dot (a :: b :: l)) with
    (if Ascii.eqb a dot && Ascii.eqb b dot then remove_pair dot dot l
     else a :: remove_pair dot dot (b :: l)).
  destruct (Ascii.eqb_spec a dot) as [Ha|Ha]; cbn [andb].
  - destruct (Ascii.eqb_spec b dot) as [Hb|Hb]; [done|]. cbn [no_dots].
    split; [|done]. rewrite remove_pair_keeps by done. simpl. intros [_ [=]]. done.
  - cbn [no_dots]. split; [by intros [? _]|done].
Qed.

Lemma replace_no_dots x y l :
  y <> dot -> no_dots l -> no_dots (map (fun a => if Ascii.eqb a x then y else a) l).
Proof.
  intros Hy. induction l as [|a l IH]; [done|]. cbn [no_dots map]. intros [Ha Hl].
  split; [|by apply IH]. intros [Ha' Hh]. apply Ha.
  destruct (Ascii.eqb a x) eqn:Ea; [done|]. split; [done|].
  destruct l as [|b l]; [done|]. simpl in *. destruct (Ascii.eqb b x); [congruence|done].
Qed.

Lemma replace_free_of x y z l :
  y <> z -> x = z \/ ~ In z l -> ~ In z (map (fun a => if Ascii.eqb a x then y else a) l).
Proof.
  intros Hy H Hin. apply in_map_iff in Hin as (a & Ha & Hin).
  destruct (Ascii.eqb a x) eqn:E; [done|]. apply Ascii.eqb_neq in E.
  destruct H as [H|H]; congruence.
Qed.

(** A text that is one component of a path and not its parent directory. *)
Definition path_component (s : string) : Prop :=
  free_of slash s /\ free_of backslash s /\ no_dots (String.list_ascii_of_string s).

Lemma sanitizePathPart_component v : path_component (sanitizePathPart v).
Proof.
  assert (Hd : path_component "default").
  { split_and!; [apply Cut_none; reflexivity..|]. vm_compute. intuition discriminate. }
  unfold sanitizePathPart. destruct (String.eqb _ ""); [exact Hd|]. clear Hd.
  unfold ReplaceByte, drop_dots, path_component, free_of.
  rewrite !String.list_ascii_of_string_of_list_ascii.
  pose proof (drop_dots_no_dots (String.list_ascii_of_string (fold_trim v))) as Hdots.
  split_and!.
  - apply replace_free_of; [done|]. right. apply replace_free_of; [done|by left].
  - apply replace_free_of; [done|by left].
  - apply replace_no_dots; [done|]. by apply replace_no_dots.
Qed.

(** ** Properties *)

(** The values of an account never enter the text of a statement: for a
    provisioner the constructor accepted, the text of each of the three
    statements is the same for all addresses and hashes, and has exactly one
    placeholder for each of its arguments, numbered in their order where the
    driver numbers them. *)
Theorem statements_take_values_as_arguments opens c p email hash email' hash' :
  NewProvisioner opens c = inr (Provisioner p) ->
  (fst (update_statement p email hash) = fst (update_statement p email' hash')
   /\ fst (insert_statement p email hash) = fst (insert_statement p email' hash')
   /\ fst (disable_statement p email) = fst (disable_statement p email'))
  /\ Forall (fun st => placeholders (bytes (fst st)) = numbers p (length (snd st)))
       [update_statement p email hash; insert_statement p email hash; disable_statement p email].
Proof.
  intros H%NewProvisioner_checked. split.
  - unfold update_statement, insert_statement, insert_columns, set_columns, numbered.
    destruct (has (activeCol p)), (has (maildirCol p)); split_and!; reflexivity.
  - repeat apply Forall_cons_2; [|..|apply Forall_nil_2].
    + by apply update_placeholders.
    + by apply insert_placeholders.
    + by apply disable_placeholders.
Qed.

(** Whatever the address, the mail directory is the configured base, two
    components without a slash, a backslash or two dots in a row, and Maildir:
    it cannot leave the base. *)
Theorem maildir_stays_below_base p email :
  exists domain local,
    buildMaildir p email
    = maildirBase p +:+ "/" +:+ domain +:+ "/" +:+ local +:+ "/Maildir"
    /\ path_component domain /\ path_component local.
Proof.
  unfold buildMaildir. destruct (Cut email (ascii_of 64)) as [[l d]|].
  - exists (sanitizePathPart d), (sanitizePathPart l).
    split_and!; [done|apply sanitizePathPart_component..].
  - exists "local", "default". split; [done|].
    split; (split_and!; [apply Cut_none; reflexivity..|vm_compute; intuition discriminate]).
Qed.

(** ** Witnesses *)

Definition sample_provision : ProvisionConfig := {|
  AuthMode := "sql"; DBDriver := "pgx"; DBDSN := "postgres://mail"; Table := "users";
  EmailColumn := "email"; PassColumn := "password"; ActiveColumn := "active";
  MaildirColumn := "maildir"; MaildirBase := "/var/mail/vhosts/" |}.

Definition sample_provisioner : SQLProvisioner :=
  mkSQLProvisioner "pgx" "users" "email" "password" "active" "maildir" "/var/mail/vhosts".

Lemma statements_take_values_as_arguments_witness :
  update_statement sample_provisioner "Al@example.org" "{ARGON2ID}x"
  = ("UPDATE users SET password=$1,active=$2,maildir=$3 WHERE email=$4",
     [ArgText "{ARGON2ID}x"; ArgInt 1; ArgText "/var/mail/vhosts/example.org/al/Maildir";
      ArgText "Al@example.org"])
  /\ fst (update_statement sample_provisioner "Al@example.org" "{ARGON2ID}x")
     = fst (update_statement sample_provisioner "x'; DROP TABLE users; --" "?").
Proof.
  split; [vm_compute; reflexivity|].
  exact (proj1 (proj1 (statements_take_values_as_arguments None sample_provision
           sample_provisioner "Al@example.org" "{ARGON2ID}x" "x'; DROP TABLE users; --" "?"
           ltac:(vm_compute; reflexivity)))).
Defined.

Example traversal : buildMaildir sample_provisioner "../../etc@..\..\root"
  = "/var/mail/vhosts/__root/__etc/Maildir".
Proof. vm_compute. reflexivity. Qed.

(** Two addresses of one domain that differ share a directory: the slash is a
    letter of an address like any other, and is written as an underscore. *)
Lemma maildir_is_shared :
  buildMaildir sample_provisioner "a/b@example.org" = buildMaildir sample_provisioner "a_b@example.org".
Proof. vm_compute. reflexivity. Qed.
