(* ===== verification/Models.v ===== *)
(** * Models: the rows of the application database

    The tables of migrations/ as lists of records in insertion order, and the
    Go structs of internal/models that are read from them.  A [TIME] column is
    an instant in nanoseconds, a nullable column an [option]; boolean columns
    keep SQLite's 0/1 integers in the row.  SQL statements are the list
    functions at the end, with the UNIQUE and PRIMARY KEY constraints of the
    schema checked by [insert_row]. *)

From S2P Require Import Prelude Unicode GoStrings Effects.
Local Open Scope Z_scope.

(** ** Enumerations (the CHECK constraints of 001_init.sql) *)

Inductive UserStatus := UserPending | UserActive | UserSuspended | UserRejected.
Inductive RegStatus := RegPending | RegApproved | RegRejected.

#[export] Instance UserStatus_eq_dec : EqDecision UserStatus.
Proof. solve_decision. Defined.
#[export] Instance RegStatus_eq_dec : EqDecision RegStatus.
Proof. solve_decision. Defined.

Definition user_status_text (s : UserStatus) : string :=
  match s with
  | UserPending => "pending" | UserActive => "active"
  | UserSuspended => "suspended" | UserRejected => "rejected"
  end.

Definition reg_status_text (s : RegStatus) : string :=
  match s with
  | RegPending => "pending" | RegApproved => "approved" | RegRejected => "rejected"
  end.

(** ** Rows and structs *)

(** A row of [users] (migrations 001, 002, 006, 017, 018, 019). *)
Record UserRow : Type := mkUserRow {
  ur_id : string;
  ur_email : string;
  ur_recovery_email : option string;
  ur_mail_login : option string;
  ur_mfa_preference : string;
  ur_legacy_mfa_prompt_pending : Z;
  ur_mfa_setup_switch_used : Z;
  ur_mfa_backup_completed : Z;
  ur_password_hash : string;
  ur_role : string;
  ur_status : UserStatus;
  ur_provision_state : string;
  ur_provision_error : option string;
  ur_created_at : Z;
  ur_approved_at : option Z;
  ur_approved_by : option string;
  ur_last_login_at : option Z;
  ur_mail_secret_enc : option string;
  ur_mail_secret_updated_at : option Z
}.
#[export] Instance eta_UserRow : Eta UserRow := fun r =>
  mkUserRow (ur_id r) (ur_email r) (ur_recovery_email r) (ur_mail_login r) (ur_mfa_preference r)
     (ur_legacy_mfa_prompt_pending r) (ur_mfa_setup_switch_used r)
     (ur_mfa_backup_completed r) (ur_password_hash r) (ur_role r) (ur_status r)
     (ur_provision_state r) (ur_provision_error r) (ur_created_at r) (ur_approved_at r)
     (ur_approved_by r) (ur_last_login_at r) (ur_mail_secret_enc r)
     (ur_mail_secret_updated_at r).

(** [models.User]. *)
Record User : Type := mkUser {
  u_ID : string;
  u_Email : string;
  u_RecoveryEmail : option string;
  u_MailLogin : option string;
  u_MFAPreference : string;
  u_LegacyMFAPromptPending : bool;
  u_MFASetupSwitchUsed : bool;
  u_MFABackupCompleted : bool;
  u_PasswordHash : string;
  u_Role : string;
  u_Status : UserStatus;
  u_ProvisionState : string;
  u_ProvisionError : option string;
  u_CreatedAt : Z;
  u_ApprovedAt : option Z;
  u_ApprovedBy : option string;
  u_LastLoginAt : option Z
}.
#[export] Instance eta_User : Eta User := fun r =>
  mkUser (u_ID r) (u_Email r) (u_RecoveryEmail r) (u_MailLogin r) (u_MFAPreference r)
     (u_LegacyMFAPromptPending r) (u_MFASetupSwitchUsed r) (u_MFABackupCompleted r)
     (u_PasswordHash r) (u_Role r) (u_Status r) (u_ProvisionState r) (u_ProvisionError r)
     (u_CreatedAt r) (u_ApprovedAt r) (u_ApprovedBy r) (u_LastLoginAt r).

(** [models.Registration], and a row of [registrations]. *)
Record Registration : Type := mkRegistration {
  r_ID : string;
  r_Email : string;
  r_MFAPreference : string;
  r_SourceIP : string;
  r_UserAgentHash : string;
  r_CaptchaOK : bool;
  r_Status : RegStatus;
  r_CreatedAt : Z;
  r_DecidedAt : option Z;
  r_DecidedBy : option string;
  r_Reason : option string
}.
#[export] Instance eta_Registration : Eta Registration := fun r =>
  mkRegistration (r_ID r) (r_Email r) (r_MFAPreference r) (r_SourceIP r) (r_UserAgentHash r)
     (r_CaptchaOK r) (r_Status r) (r_CreatedAt r) (r_DecidedAt r) (r_DecidedBy r)
     (r_Reason r).

(** [models.Session], and a row of [sessions]. *)
Record Session : Type := mkSession {
  s_ID : string;
  s_UserID : string;
  s_TokenHash : string;
  s_MailSecret : string;
  s_IPHint : string;
  s_UserAgentHash : string;
  s_AuthMethod : string;
  s_MFAVerifiedAt : option Z;
  s_ActiveAccountID : option string;
  s_ExpiresAt : Z;
  s_IdleExpiresAt : Z;
  s_CreatedAt : Z;
  s_LastSeenAt : Z;
  s_RevokedAt : option Z
}.
#[export] Instance eta_Session : Eta Session := fun r =>
  mkSession (s_ID r) (s_UserID r) (s_TokenHash r) (s_MailSecret r) (s_IPHint r)
     (s_UserAgentHash r) (s_AuthMethod r) (s_MFAVerifiedAt r) (s_ActiveAccountID r)
     (s_ExpiresAt r) (s_IdleExpiresAt r) (s_CreatedAt r) (s_LastSeenAt r) (s_RevokedAt r).

(** [models.PasswordResetToken], and a row of [password_reset_tokens]. *)
Record ResetToken : Type := mkResetToken {
  t_ID : string;
  t_UserID : string;
  t_TokenHash : string;
  t_ReservationID : option string;
  t_ReservedAt : option Z;
  t_ExpiresAt : Z;
  t_UsedAt : option Z;
  t_CreatedAt : Z
}.
#[export] Instance eta_ResetToken : Eta ResetToken := fun r =>
  mkResetToken (t_ID r) (t_UserID r) (t_TokenHash r) (t_ReservationID r) (t_ReservedAt r)
     (t_ExpiresAt r) (t_UsedAt r) (t_CreatedAt r).

(** A row of [rate_limit_events]. *)
Record RateEvent : Type := mkRateEvent {
  re_ID : string;
  re_Key : string;
  re_Route : string;
  re_WindowStart : Z;
  re_Count : Z;
  re_CreatedAt : Z;
  re_UpdatedAt : Z
}.
#[export] Instance eta_RateEvent : Eta RateEvent := fun r =>
  mkRateEvent (re_ID r) (re_Key r) (re_Route r) (re_WindowStart r) (re_Count r) (re_CreatedAt r)
     (re_UpdatedAt r).

(** [store.SettingValue], and a row of [settings]. *)
Record SettingValue : Type := mkSetting {
  sv_Key : string;
  sv_Value : string;
  sv_UpdatedAt : Z
}.
#[export] Instance eta_SettingValue : Eta SettingValue := fun r =>
  mkSetting (sv_Key r) (sv_Value r) (sv_UpdatedAt r).

(** A row of [admin_audit_log]. *)
Record AuditRow : Type := mkAudit {
  a_ID : string;
  a_ActorUserID : string;
  a_Action : string;
  a_Target : string;
  a_MetadataJSON : string;
  a_CreatedAt : Z
}.
#[export] Instance eta_AuditRow : Eta AuditRow := fun r =>
  mkAudit (a_ID r) (a_ActorUserID r) (a_Action r) (a_Target r) (a_MetadataJSON r)
     (a_CreatedAt r).

(** [models.MFATOTPRecord], and a row of [mfa_totp]. *)
Record MFATOTPRecord : Type := mkTOTP {
  to_UserID : string;
  to_SecretEnc : string;
  to_Issuer : string;
  to_AccountName : string;
  to_Enabled : bool;
  to_EnrolledAt : option Z;
  to_UpdatedAt : Z
}.
#[export] Instance eta_MFATOTPRecord : Eta MFATOTPRecord := fun r =>
  mkTOTP (to_UserID r) (to_SecretEnc r) (to_Issuer r) (to_AccountName r) (to_Enabled r)
     (to_EnrolledAt r) (to_UpdatedAt r).

(** [models.MFAWebAuthnCredential], and a row of [mfa_webauthn_credentials]. *)
Record WebAuthnCredential : Type := mkCredential {
  wc_ID : string;
  wc_UserID : string;
  wc_CredentialID : string;
  wc_PublicKey : string;
  wc_SignCount : Z;
  wc_TransportsJSON : string;
  wc_Name : string;
  wc_CreatedAt : Z;
  wc_LastUsedAt : option Z
}.
#[export] Instance eta_WebAuthnCredential : Eta WebAuthnCredential := fun r =>
  mkCredential (wc_ID r) (wc_UserID r) (wc_CredentialID r) (wc_PublicKey r) (wc_SignCount r)
     (wc_TransportsJSON r) (wc_Name r) (wc_CreatedAt r) (wc_LastUsedAt r).

(** A row of [mfa_recovery_codes]. *)
Record RecoveryCode : Type := mkRecoveryCode {
  rc_ID : string;
  rc_UserID : string;
  rc_CodeHash : string;
  rc_UsedAt : option Z;
  rc_CreatedAt : Z
}.
#[export] Instance eta_RecoveryCode : Eta RecoveryCode := fun r =>
  mkRecoveryCode (rc_ID r) (rc_UserID r) (rc_CodeHash r) (rc_UsedAt r) (rc_CreatedAt r).

(** [models.MFATrustedDevice], and a row of [mfa_trusted_devices]. *)
Record TrustedDevice : Type := mkTrustedDevice {
  td_ID : string;
  td_UserID : string;
  td_TokenHash : string;
  td_UAHash : string;
  td_IPHint : string;
  td_DeviceLabel : string;
  td_CreatedAt : Z;
  td_LastUsedAt : option Z;
  td_ExpiresAt : Z;
  td_RevokedAt : option Z
}.
#[export] Instance eta_TrustedDevice : Eta TrustedDevice := fun r =>
  mkTrustedDevice (td_ID r) (td_UserID r) (td_TokenHash r) (td_UAHash r) (td_IPHint r)
     (td_DeviceLabel r) (td_CreatedAt r) (td_LastUsedAt r) (td_ExpiresAt r)
     (td_RevokedAt r).

(** A row of [user_sessions_meta]. *)
Record SessionMetaRow : Type := mkSessionMeta {
  sm_SessionID : string;
  sm_UserID : string;
  sm_DeviceLabel : string;
  sm_UASummary : string;
  sm_IPHint : string;
  sm_RevokedReason : string;
  sm_UpdatedAt : Z
}.
#[export] Instance eta_SessionMetaRow : Eta SessionMetaRow := fun r =>
  mkSessionMeta (sm_SessionID r) (sm_UserID r) (sm_DeviceLabel r) (sm_UASummary r) (sm_IPHint r)
     (sm_RevokedReason r) (sm_UpdatedAt r).

(** [models.MailAccount], and a row of [mail_accounts]; [Capabilities] and
    [HelperLinks] are not columns. *)
Record MailAccount : Type := mkMailAccount {
  ma_ID : string;
  ma_UserID : string;
  ma_DisplayName : string;
  ma_Login : string;
  ma_SecretEnc : string;
  ma_IMAPHost : string;
  ma_IMAPPort : Z;
  ma_IMAPTLS : bool;
  ma_IMAPStartTLS : bool;
  ma_SMTPHost : string;
  ma_SMTPPort : Z;
  ma_SMTPTLS : bool;
  ma_SMTPStartTLS : bool;
  ma_IsDefault : bool;
  ma_Status : string;
  ma_LastSyncAt : option Z;
  ma_LastError : option string;
  ma_ProviderType : string;
  ma_ProviderLabel : string;
  ma_AuthKind : string;
  ma_ConnectionMode : string;
  ma_ValidationIMAPReady : bool;
  ma_ValidationSMTPReady : bool;
  ma_ValidationAppPasswordRequired : bool;
  ma_ValidationError : string;
  ma_LastValidatedAt : option Z;
  ma_CreatedAt : Z;
  ma_UpdatedAt : Z
}.
#[export] Instance eta_MailAccount : Eta MailAccount := fun r =>
  mkMailAccount (ma_ID r) (ma_UserID r) (ma_DisplayName r) (ma_Login r) (ma_SecretEnc r)
     (ma_IMAPHost r) (ma_IMAPPort r) (ma_IMAPTLS r) (ma_IMAPStartTLS r) (ma_SMTPHost r)
     (ma_SMTPPort r) (ma_SMTPTLS r) (ma_SMTPStartTLS r) (ma_IsDefault r) (ma_Status r)
     (ma_LastSyncAt r) (ma_LastError r) (ma_ProviderType r) (ma_ProviderLabel r)
     (ma_AuthKind r) (ma_ConnectionMode r) (ma_ValidationIMAPReady r)
     (ma_ValidationSMTPReady r) (ma_ValidationAppPasswordRequired r)
     (ma_ValidationError r) (ma_LastValidatedAt r) (ma_CreatedAt r) (ma_UpdatedAt r).

(** The tables the account and session handlers use. *)
Record Database : Type := mkDatabase {
  users : list UserRow;
  registrations : list Registration;
  sessions : list Session;
  reset_tokens : list ResetToken;
  rate_events : list RateEvent;
  settings : list SettingValue;
  audit_log : list AuditRow;
  mfa_totp : list MFATOTPRecord;
  webauthn : list WebAuthnCredential;
  recovery_codes : list RecoveryCode;
  trusted_devices : list TrustedDevice;
  sessions_meta : list SessionMetaRow;
  mail_accounts : list MailAccount
}.
#[export] Instance eta_Database : Eta Database := fun r =>
  mkDatabase (users r) (registrations r) (sessions r) (reset_tokens r) (rate_events r)
     (settings r) (audit_log r) (mfa_totp r) (webauthn r) (recovery_codes r)
     (trusted_devices r) (sessions_meta r) (mail_accounts r).

Definition empty_db : Database := mkDatabase [] [] [] [] [] [] [] [] [] [] [] [] [].

Abbreviation DBM := (M Database).

(** ** SQL on lists of rows *)

Section Sql.
Context {R : Type}.
Implicit Types (rows : list R) (p : R -> bool).

(** [SELECT ... WHERE p], one row. *)
Definition select1 p rows : option R := List.find p rows.

(** [UPDATE ... SET f WHERE p], and the number of rows it touches. *)
Definition update_rows p (f : R -> R) rows : list R :=
  map (fun r => if p r then f r else r) rows.
Definition affected p rows : nat := length (List.filter p rows).

(** [DELETE ... WHERE p]. *)
Definition delete_rows p rows : list R := List.filter (fun r => negb (p r)) rows.

(** [INSERT]: a row clashing with [r] on a unique key makes it fail. *)
Definition insert_row (clash : R -> R -> bool) (r : R) rows : Res (list R) :=
  if existsb (clash r) rows then Fail ErrConstraint else Ok (rows ++ [r]).

(** [ORDER BY], stable, with [leb] the order. *)
Fixpoint insert_by (leb : R -> R -> bool) (r : R) rows : list R :=
  match rows with
  | [] => [r]
  | r' :: rows' => if leb r r' then r :: rows else r' :: insert_by leb r rows'
  end.
Definition order_by (leb : R -> R -> bool) rows : list R :=
  fold_right (insert_by leb) [] rows.

(** [LIMIT n OFFSET k]. *)
Definition page (limit offset : Z) rows : list R :=
  take (Z.to_nat limit) (drop (Z.to_nat offset) rows).

Lemma in_update_rows p f rows r :
  In r (update_rows p f rows) <->
  exists r0, In r0 rows /\ r = if p r0 then f r0 else r0.
Proof.
  unfold update_rows. rewrite in_map_iff. split; intros (r0 & ? & ?); exists r0; eauto.
Qed.

Lemma in_delete_rows p rows r : In r (delete_rows p rows) <-> In r rows /\ p r = false.
Proof. unfold delete_rows. by rewrite filter_In, negb_true_iff. Qed.

Lemma map_update_rows {K} (key : R -> K) p f rows :
  (forall r, key (f r) = key r) -> map key (update_rows p f rows) = map key rows.
Proof.
  intros H. unfold update_rows. rewrite map_map. apply map_ext. intros r.
  by destruct (p r); rewrite ?H.
Qed.

Lemma insert_row_ok clash r rows rows' :
  insert_row clash r rows = Ok rows' ->
  rows' = rows ++ [r] /\ forall r0, In r0 rows -> clash r r0 = false.
Proof.
  unfold insert_row. destruct (existsb _ _) eqn:E; [done|]. intros [= <-].
  split; [done|]. intros r0 Hin. destruct (clash r r0) eqn:Ec; [|done].
  exfalso. assert (existsb (clash r) rows = true); [|congruence].
  apply existsb_exists. eauto.
Qed.

Lemma NoDup_insert {K} (key : R -> K) clash r rows rows' :
  (forall r0, clash r r0 = false -> key r0 <> key r) ->
  insert_row clash r rows = Ok rows' ->
  List.NoDup (map key rows) -> List.NoDup (map key rows').
Proof.
  intros Hc [-> Hn]%insert_row_ok Hd. rewrite map_app. simpl.
  apply List.NoDup_app; [done|repeat constructor; simpl; tauto|].
  intros k Hin [<-|[]]. apply in_map_iff in Hin as (r0 & Hk & Hr0).
  eapply Hc; eauto.
Qed.

Lemma select1_update p q f rows :
  (forall r, q (f r) = q r) ->
  select1 q (update_rows p f rows)
  = (fun r => if p r then f r else r) <$> select1 q rows.
Proof.
  intros H. unfold select1, update_rows. induction rows as [|r rows IH]; simpl; [done|].
  destruct (p r) eqn:Ep; [rewrite H|]; destruct (q r) eqn:Eq; simpl; rewrite ?Ep; done.
Qed.

Lemma select1_app q rows r :
  select1 q (rows ++ [r])
  = match select1 q rows with Some x => Some x | None => if q r then Some r else None end.
Proof.
  unfold select1. induction rows as [|x rows IH]; simpl; [by destruct (q r)|].
  by destruct (q x).
Qed.

Lemma affected_0 p rows :
  affected p rows = 0%nat <-> forall r, In r rows -> p r = false.
Proof.
  unfold affected. induction rows as [|r rows IH]; simpl; [by split|].
  destruct (p r) eqn:E; simpl.
  - split; [done|]. intros H. specialize (H r (or_introl eq_refl)). congruence.
  - rewrite IH. split; [intros H x [<-|]; auto|auto].
Qed.

Lemma affected_pos p rows :
  affected p rows <> 0%nat -> exists r, In r rows /\ p r = true.
Proof.
  intros Hn. destruct (List.filter p rows) as [|r l] eqn:E.
  - unfold affected in Hn. by rewrite E in Hn.
  - exists r. apply filter_In. rewrite E. by left.
Qed.

Lemma in_insert_by leb x rows r : In r (insert_by leb x rows) <-> r = x \/ In r rows.
Proof.
  induction rows as [|y rows IH]; simpl; [intuition (subst; auto)|].
  destruct (leb x y); simpl; rewrite ?IH; intuition (subst; auto).
Qed.

Lemma in_order_by leb rows r : In r (order_by leb rows) <-> In r rows.
Proof.
  unfold order_by. induction rows as [|x rows IH]; simpl; [done|].
  rewrite in_insert_by, IH. intuition (subst; auto).
Qed.

Lemma length_page limit offset rows :
  0 <= limit -> Z.of_nat (length (page limit offset rows)) <= limit.
Proof. intros. unfold page. rewrite length_take. lia. Qed.

Lemma in_page limit offset rows r : In r (page limit offset rows) -> In r rows.
Proof.
  unfold page. intros H. rewrite <- (take_drop (Z.to_nat offset) rows).
  apply in_or_app. right.
  rewrite <- (take_drop (Z.to_nat limit) (drop _ rows)). apply in_or_app. by left.
Qed.
End Sql.

(** * Sql: the scalar functions and orderings of SQLite the queries use

    SQLite's [lower] and [trim] are not Go's: [lower] folds ASCII letters only
    and [trim] removes U+0020 only.  [LIKE] ignores ASCII case, [%] stands for
    any text and [_] for one character.  In [ORDER BY], NULL sorts below every
    value and text compares bytewise. *)

Definition ascii_lower (b : Z) : Z := if (65 <=? b) && (b <=? 90) then b + 32 else b.

Definition sql_lower (s : string) : string := of_bytes (map ascii_lower (bytes s)).

Fixpoint drop_blanks (l : list Z) : list Z :=
  match l with b :: l' => if b =? 32 then drop_blanks l' else l | [] => [] end.
Definition sql_trim (s : string) : string :=
  of_bytes (rev (drop_blanks (rev (drop_blanks (bytes s))))).

Definition sql_coalesce (o : option string) : string := default "" o.

(** [lower(trim(x))], under which registrations and recovery addresses are the
    same. *)
Definition sql_fold (s : string) : string := sql_lower (sql_trim s).

(** The pattern comes first, as runes; 37 is [%] and 95 is [_]. *)
Fixpoint like (p s : list Z) : bool :=
  match p with
  | [] => match s with [] => true | _ => false end
  | 37 :: p' =>
      (fix any (s : list Z) : bool :=
         like p' s || match s with [] => false | _ :: s' => any s' end) s
  | 95 :: p' => match s with [] => false | _ :: s' => like p' s' end
  | c :: p' =>
      match s with
      | [] => false
      | d :: s' => (ascii_lower c =? ascii_lower d) && like p' s'
      end
  end.

Definition sql_like (s pattern : string) : bool := like (runes pattern) (runes s).

(** [%needle%]. *)
Definition containing (needle : string) : string := "%" +:+ needle +:+ "%".

Example like_ex1 : sql_like "Alice@Example.com" "%example%" = true.
Proof. vm_compute. reflexivity. Qed.
Example like_ex2 : sql_like "alice" "%a_x%" = false.
Proof. vm_compute. reflexivity. Qed.

(** ** Sort keys *)

Inductive SortKey := KNull | KNum (n : Z) | KText (s : string).

Definition key_of_text (o : option string) : SortKey :=
  match o with Some s => KText s | None => KNull end.
Definition key_of_num (o : option Z) : SortKey :=
  match o with Some n => KNum n | None => KNull end.

Definition sort_leb (a b : SortKey) : bool :=
  match a, b with
  | KNull, _ => true
  | KNum _, KNull => false
  | KNum m, KNum n => m <=? n
  | KNum _, KText _ => true
  | KText s, KText t => match String.compare s t with Gt => false | _ => true end
  | KText _, _ => false
  end.

Inductive SortOrder := ASC | DESC.

Definition in_order {R} (key : R -> SortKey) (o : SortOrder) (a b : R) : bool :=
  match o with ASC => sort_leb (key a) (key b) | DESC => sort_leb (key b) (key a) end.
