(* ===== verification/Users.v ===== *)
(** * Users: settings, users and registrations

    First the key-value table of internal/store/store.go *)

From S2P Require Import Prelude GoStrings Effects Models.

Section Settings.
Context {env : Env}.

Definition has_key (key : string) (r : SettingValue) : bool := String.eqb (sv_Key r) key.

Definition GetSetting (key : string) : DBM (option string) :=
  query (fun d => Ok (sv_Value <$> select1 (has_key key) (settings d))).

(** [INSERT ... ON CONFLICT(key) DO UPDATE]. *)
Definition upsert_setting (r : SettingValue) (rows : list SettingValue) : list SettingValue :=
  if existsb (has_key (sv_Key r)) rows
  then update_rows (has_key (sv_Key r))
         (fun r0 => r0 <| sv_Value := sv_Value r |> <| sv_UpdatedAt := sv_UpdatedAt r |>) rows
  else rows ++ [r].

Definition UpsertSetting (key value : string) : DBM unit :=
  let! now := time_Now in
  exec (fun d => d <| settings := upsert_setting (mkSetting key value now) (settings d) |>).

Definition DeleteSetting (key : string) : DBM unit :=
  exec (fun d => d <| settings := delete_rows (has_key key) (settings d) |>).

Definition DeleteSettingsByPrefixOlderThan (prefix : string) (before : Z) : DBM unit :=
  let prefix := TrimSpace prefix in
  if String.eqb prefix "" then ret tt
  else exec (fun d => d <| settings :=
         delete_rows (fun r => sql_like (sv_Key r) (prefix +:+ "%")
                               && (sv_UpdatedAt r <? before)%Z) (settings d) |>).

Definition ListSettingsByPrefix (prefix : string) (limit : Z) : DBM (list SettingValue) :=
  let prefix := TrimSpace prefix in
  if String.eqb prefix "" then ret []
  else
    let limit := if (limit <=? 0)%Z then 100%Z else limit in
    query (fun d => Ok (page limit 0
      (order_by (in_order (fun r => KNum (sv_UpdatedAt r)) DESC)
        (List.filter (fun r => sql_like (sv_Key r) (prefix +:+ "%")) (settings d))))).

(** ** What a key maps to *)

Definition setting (key : string) (d : Database) : option string :=
  sv_Value <$> select1 (has_key key) (settings d).

Lemma setting_upsert key key' value now rows :
  sv_Value <$> select1 (has_key key) (upsert_setting (mkSetting key' value now) rows)
  = if String.eqb key' key then Some value else sv_Value <$> select1 (has_key key) rows.
Proof.
  unfold upsert_setting. simpl. destruct (existsb _ rows) eqn:E.
  - rewrite select1_update by done. destruct (String.eqb_spec key' key) as [->|Hne].
    + destruct (select1 (has_key key) rows) as [r|] eqn:Es.
      * apply find_In in Es as [_ Hr]. simpl. by rewrite Hr.
      * apply existsb_exists in E as (r & Hin & Hr).
        rewrite (proj1 (find_none_iff _ _) Es r Hin) in Hr. done.
    + destruct (select1 (has_key key) rows) as [r|] eqn:Es; [|done].
      apply find_In in Es as [_ Hr]. simpl.
      unfold has_key in *. apply String.eqb_eq in Hr. rewrite Hr.
      destruct (String.eqb_spec key key'); [congruence|done].
  - rewrite select1_app. unfold has_key at 2. simpl.
    destruct (String.eqb_spec key' key) as [->|Hne].
    + destruct (select1 (has_key key) rows) as [r|] eqn:Es; [|done].
      apply find_In in Es as [Hin Hr].
      assert (existsb (has_key key) rows = true); [|congruence].
      apply existsb_exists. eauto.
    + by destruct (select1 _ rows).
Qed.
End Settings.

(** * Users: the [users] table of internal/store/store.go *)

Local Open Scope Z_scope.

Definition boolToInt (v : bool) : Z := if v then 1 else 0.

(** [normalizeMFAPreference] of store.go, which is also [NormalizeMFAPreference]
    of internal/service/mfa_stage.go. *)
Definition normalizeMFAPreference (raw : string) : string :=
  let v := fold_trim raw in
  if String.eqb v "totp" then "totp"
  else if String.eqb v "webauthn" then "webauthn"
  else "none".

(** A nullable text column: trimmed, absent when blank. *)
Definition scan_text (norm : string -> string) (c : option string) : option string :=
  match c with
  | Some raw => let v := norm raw in if String.eqb v "" then None else Some v
  | None => None
  end.

Definition scanUserCore (r : UserRow) : User := {|
  u_ID := ur_id r;
  u_Email := ur_email r;
  u_RecoveryEmail := scan_text fold_trim (ur_recovery_email r);
  u_MailLogin := scan_text TrimSpace (ur_mail_login r);
  u_MFAPreference := normalizeMFAPreference (ur_mfa_preference r);
  u_LegacyMFAPromptPending := ur_legacy_mfa_prompt_pending r =? 1;
  u_MFASetupSwitchUsed := ur_mfa_setup_switch_used r =? 1;
  u_MFABackupCompleted := ur_mfa_backup_completed r =? 1;
  u_PasswordHash := ur_password_hash r;
  u_Role := ur_role r;
  u_Status := ur_status r;
  u_ProvisionState := ur_provision_state r;
  u_ProvisionError := ur_provision_error r;
  u_CreatedAt := ur_created_at r;
  u_ApprovedAt := ur_approved_at r;
  u_ApprovedBy := scan_text TrimSpace (ur_approved_by r);
  u_LastLoginAt := ur_last_login_at r
|}.

Definition user_clash (r r0 : UserRow) : bool :=
  String.eqb (ur_id r) (ur_id r0) || String.eqb (ur_email r) (ur_email r0).

Definition has_id (id : string) (r : UserRow) : bool := String.eqb (ur_id r) id.
Definition has_email (email : string) (r : UserRow) : bool := String.eqb (ur_email r) email.

(** Shared shapes: insert one user, update the row of an id, and the same when
    zero affected rows are an error. *)
Definition insert_user (r : UserRow) : DBM unit :=
  statement (fun d =>
    match insert_row user_clash r (users d) with
    | Ok us => Ok (tt, d <| users := us |>)
    | Fail e => Fail e
    end).

Definition update_user (id : string) (f : UserRow -> UserRow) : DBM unit :=
  exec (fun d => d <| users := update_rows (has_id id) f (users d) |>).

Definition update_user_found (id : string) (f : UserRow -> UserRow) : DBM unit :=
  let! n := statement (fun d => Ok (affected (has_id id) (users d),
              d <| users := update_rows (has_id id) f (users d) |>)) in
  if Nat.eqb n 0 then throw ErrNotFound else ret tt.

Section Users.
Context {env : Env}.

Definition CreateUserWithMFARecovery
    (email passwordHash role : string) (status : UserStatus)
    (mfaPreference recoveryEmail : string) : DBM User :=
  let! now := time_Now in
  let recovery := fold_trim recoveryEmail in
  let preference := normalizeMFAPreference mfaPreference in
  let! id := uuid_NewString in
  let u := {|
    u_ID := id; u_Email := email;
    u_RecoveryEmail := if String.eqb recovery "" then None else Some recovery;
    u_MailLogin := None; u_MFAPreference := preference;
    u_LegacyMFAPromptPending := false; u_MFASetupSwitchUsed := false;
    u_MFABackupCompleted := String.eqb preference "none";
    u_PasswordHash := passwordHash; u_Role := role; u_Status := status;
    u_ProvisionState := "pending"; u_ProvisionError := None; u_CreatedAt := now;
    u_ApprovedAt := None; u_ApprovedBy := None; u_LastLoginAt := None |} in
  do! insert_user {|
    ur_id := u_ID u; ur_email := u_Email u; ur_recovery_email := u_RecoveryEmail u;
    ur_mail_login := None; ur_mfa_preference := u_MFAPreference u;
    ur_legacy_mfa_prompt_pending := 0; ur_mfa_setup_switch_used := 0;
    ur_mfa_backup_completed := boolToInt (u_MFABackupCompleted u);
    ur_password_hash := u_PasswordHash u; ur_role := u_Role u; ur_status := u_Status u;
    ur_provision_state := u_ProvisionState u; ur_provision_error := None;
    ur_created_at := u_CreatedAt u; ur_approved_at := None; ur_approved_by := None;
    ur_last_login_at := None; ur_mail_secret_enc := None;
    ur_mail_secret_updated_at := None |} in
  ret u.

Definition CreateUserWithMFA (email passwordHash role : string) (status : UserStatus)
    (mfaPreference : string) : DBM User :=
  CreateUserWithMFARecovery email passwordHash role status mfaPreference email.

Definition CreateUser (email passwordHash role : string) (status : UserStatus) : DBM User :=
  CreateUserWithMFA email passwordHash role status "none".

Definition GetUserByEmail (email : string) : DBM User :=
  query (fun d => match select1 (has_email email) (users d) with
                  | Some r => Ok (scanUserCore r)
                  | None => Fail ErrNotFound
                  end).

Definition GetUserByID (id : string) : DBM User :=
  query (fun d => match select1 (has_id id) (users d) with
                  | Some r => Ok (scanUserCore r)
                  | None => Fail ErrNotFound
                  end).

(** Two accounts sharing the address are an error rather than a pick. *)
Definition GetUserByRecoveryEmail (recoveryEmail : string) : DBM User :=
  let recoveryEmail := fold_trim recoveryEmail in
  if String.eqb recoveryEmail "" then throw ErrNotFound
  else query (fun d =>
    match take 2 (List.filter
            (fun r => String.eqb (sql_lower (sql_trim (sql_coalesce (ur_recovery_email r))))
                                 recoveryEmail) (users d)) with
    | [] => Fail ErrNotFound
    | [r] => Ok (scanUserCore r)
    | _ :: _ :: _ => Fail ErrConflict
    end).

(** Columns of the INSERT that are left out take their defaults. *)
Definition EnsureAdmin (email passwordHash : string) : DBM unit :=
  let email := fold_trim email in
  if String.eqb email "" || String.eqb passwordHash "" then ret tt
  else
    let! u := attempt (GetUserByEmail email) in
    match u with
    | Fail ErrNotFound =>
        let! now := time_Now in
        let! id := uuid_NewString in
        insert_user {|
          ur_id := id; ur_email := email; ur_recovery_email := Some email;
          ur_mail_login := None; ur_mfa_preference := "none";
          ur_legacy_mfa_prompt_pending := 0; ur_mfa_setup_switch_used := 0;
          ur_mfa_backup_completed := 1; ur_password_hash := passwordHash;
          ur_role := "admin"; ur_status := UserActive; ur_provision_state := "ok";
          ur_provision_error := None; ur_created_at := now; ur_approved_at := Some now;
          ur_approved_by := None; ur_last_login_at := None; ur_mail_secret_enc := None;
          ur_mail_secret_updated_at := None |}
    | Fail e => throw e
    | Ok u =>
        update_user (u_ID u) (fun r => r
          <| ur_role := "admin" |> <| ur_status := UserActive |>
          <| ur_password_hash := passwordHash |> <| ur_provision_state := "ok" |>
          <| ur_provision_error := None |>
          <| ur_recovery_email :=
               Some match ur_recovery_email r with
                    | Some v => if String.eqb (sql_trim v) "" then ur_email r else sql_trim v
                    | None => ur_email r
                    end |>)
    end.

Definition is_admin (r : UserRow) : bool := String.eqb (ur_role r) "admin".

Definition CountAdmins : DBM Z :=
  query (fun d => Ok (Z.of_nat (affected is_admin (users d)))).

Definition UpdateUserStatus (userID : string) (status : UserStatus)
    (approver : option string) : DBM unit :=
  let! now := time_Now in
  match status, approver with
  | UserActive, Some a =>
      update_user userID (fun r => r <| ur_status := status |>
        <| ur_approved_at := Some now |> <| ur_approved_by := Some a |>)
  | _, _ => update_user userID (fun r => r <| ur_status := status |>)
  end.

Definition UpdateUserPasswordHash (userID passwordHash : string) : DBM unit :=
  update_user userID (fun r => r <| ur_password_hash := passwordHash |>).

Definition UpdateUserMailLogin (userID mailLogin : string) : DBM unit :=
  let mailLogin := TrimSpace mailLogin in
  update_user userID (fun r => r <| ur_mail_login :=
    if String.eqb mailLogin "" then None else Some mailLogin |>).

Definition UpsertUserMailSecret (userID mailSecretEnc : string) : DBM unit :=
  let mailSecretEnc := TrimSpace mailSecretEnc in
  let! now := time_Now in
  if String.eqb mailSecretEnc ""
  then update_user userID (fun r => r <| ur_mail_secret_enc := None |>
         <| ur_mail_secret_updated_at := None |>)
  else update_user userID (fun r => r <| ur_mail_secret_enc := Some mailSecretEnc |>
         <| ur_mail_secret_updated_at := Some now |>).

(** The Go result [("", false)] is [None]. *)
Definition GetUserMailSecret (userID : string) : DBM (option string) :=
  query (fun d => match select1 (has_id userID) (users d) with
                  | None => Fail ErrNotFound
                  | Some r => Ok (scan_text TrimSpace (ur_mail_secret_enc r))
                  end).

Definition UpdateUserRecoveryEmail (userID recoveryEmail : string) : DBM unit :=
  let recoveryEmail := fold_trim recoveryEmail in
  update_user userID (fun r => r <| ur_recovery_email :=
    if String.eqb recoveryEmail "" then None else Some recoveryEmail |>).

Definition GetUserMFAPreference (userID : string) : DBM string :=
  query (fun d => match select1 (has_id userID) (users d) with
                  | None => Fail ErrNotFound
                  | Some r => Ok (normalizeMFAPreference (ur_mfa_preference r))
                  end).

Definition UpdateUserMFAPreference (userID preference : string) : DBM unit :=
  update_user_found userID
    (fun r => r <| ur_mfa_preference := normalizeMFAPreference preference |>).

Definition SetLegacyMFAPromptPending (userID : string) (pending : bool) : DBM unit :=
  update_user_found userID (fun r => r <| ur_legacy_mfa_prompt_pending := boolToInt pending |>).

Definition MarkMFASetupSwitchUsed (userID : string) : DBM unit :=
  update_user_found userID (fun r => r <| ur_mfa_setup_switch_used := 1 |>).

Definition SetMFASetupSwitchUsed (userID : string) (used : bool) : DBM unit :=
  update_user_found userID (fun r => r <| ur_mfa_setup_switch_used := boolToInt used |>).

Definition SetUserMFABackupCompleted (userID : string) (completed : bool) : DBM unit :=
  update_user_found userID (fun r => r <| ur_mfa_backup_completed := boolToInt completed |>).

Definition TouchUserLastLogin (userID : string) (at_ : Z) : DBM unit :=
  update_user userID (fun r => r <| ur_last_login_at := Some at_ |>).

Definition UpdateProvisionState (userID state : string) (errMsg : option string) : DBM unit :=
  update_user userID (fun r => r <| ur_provision_state := state |>
    <| ur_provision_error := errMsg |>).
End Users.

(** ** Listing *)

Definition clampLimit (limit : Z) : Z :=
  if limit <=? 0 then 25 else if 100 <? limit then 100 else limit.
Definition clampOffset (offset : Z) : Z := if offset <? 0 then 0 else offset.

Definition sanitizeSortOrder (order : string) : SortOrder :=
  if EqualFold (TrimSpace order) "asc" then ASC else DESC.

(** The column [ORDER BY] uses; unknown names fall back to [created_at]. *)
Definition sanitizeUserSort (sort : string) : string :=
  let v := fold_trim sort in
  if existsb (String.eqb v) ["email"; "role"; "status"; "provision_state"; "last_login_at"]
  then v else "created_at".

Definition user_column (c : string) (r : UserRow) : SortKey :=
  if String.eqb c "email" then KText (ur_email r)
  else if String.eqb c "role" then KText (ur_role r)
  else if String.eqb c "status" then KText (user_status_text (ur_status r))
  else if String.eqb c "provision_state" then KText (ur_provision_state r)
  else if String.eqb c "last_login_at" then key_of_num (ur_last_login_at r)
  else KNum (ur_created_at r).

Record UserQuery : Type := mkUserQuery {
  uq_Q : string; uq_Status : string; uq_Role : string; uq_ProvisionState : string;
  uq_Sort : string; uq_Order : string; uq_Limit : Z; uq_Offset : Z
}.

(** An optional equality filter: blank and ["all"] select everything. *)
Definition filter_eq (raw : string) (column : string) : bool :=
  let v := TrimSpace (ToLower raw) in
  String.eqb v "" || String.eqb v "all" || String.eqb (sql_lower column) v.

Definition user_matches (q : UserQuery) (r : UserRow) : bool :=
  negb (String.eqb (sql_fold (user_status_text (ur_status r))) "rejected")
  && (let t := TrimSpace (uq_Q q) in
      String.eqb t ""
      || (let needle := containing (ToLower t) in
          sql_like (sql_lower (ur_email r)) needle
          || sql_like (sql_lower (ur_role r)) needle
          || sql_like (sql_lower (user_status_text (ur_status r))) needle
          || sql_like (sql_lower (ur_provision_state r)) needle))
  && filter_eq (uq_Status q) (user_status_text (ur_status r))
  && filter_eq (uq_Role q) (ur_role r)
  && filter_eq (uq_ProvisionState q) (ur_provision_state r).

(** The page asked for, and how many rows match in all. *)
Definition ListUsers (q : UserQuery) : DBM (list User * Z) :=
  let! total := query (fun d => Ok (Z.of_nat (affected (user_matches q) (users d)))) in
  let! rows := query (fun d => Ok (page (clampLimit (uq_Limit q)) (clampOffset (uq_Offset q))
      (order_by (in_order (user_column (sanitizeUserSort (uq_Sort q)))
                          (sanitizeSortOrder (uq_Order q)))
        (List.filter (user_matches q) (users d))))) in
  ret (map scanUserCore rows, total).

(** * Registrations: the approval queue of internal/store/store.go

    A registration is decided once; the unique index on [(email, status)] and
    the cleanup of older decided rows make the decision never collide. *)

Definition reg_has_id (id : string) (r : Registration) : bool := String.eqb (r_ID r) id.

(** Primary key, and [idx_registrations_email_pending]. *)
Definition reg_clash (r r0 : Registration) : bool :=
  String.eqb (r_ID r) (r_ID r0)
  || (String.eqb (r_Email r) (r_Email r0) && bool_decide (r_Status r = r_Status r0)).

(** No two rows clash: what SQLite checks at the end of a statement. *)
Fixpoint regs_unique (rows : list Registration) : bool :=
  match rows with
  | [] => true
  | r :: rows' => negb (existsb (reg_clash r) rows') && regs_unique rows'
  end.

(** Rows a decision on [regID] for [email] replaces. *)
Definition superseded (regID email : string) (status : RegStatus) (r : Registration) : bool :=
  negb (String.eqb (r_ID r) regID) && bool_decide (r_Status r = status)
  && String.eqb (sql_fold (r_Email r)) (sql_fold email).

Definition decide_row (status : RegStatus) (now : Z) (decidedBy reason : string)
    (r : Registration) : Registration :=
  r <| r_Status := status |> <| r_DecidedAt := Some now |>
    <| r_DecidedBy := Some decidedBy |> <| r_Reason := Some reason |>.

Definition pending_with_id (regID : string) (r : Registration) : bool :=
  reg_has_id regID r && bool_decide (r_Status r = RegPending).

(** [UPDATE registrations SET status=... WHERE id=? AND status='pending'],
    which the unique index can refuse. *)
Definition decide_statement (regID : string) (status : RegStatus) (now : Z)
    (decidedBy reason : string) : DBM nat :=
  statement (fun d =>
    let rows := update_rows (pending_with_id regID) (decide_row status now decidedBy reason)
                  (registrations d) in
    if regs_unique rows
    then Ok (affected (pending_with_id regID) (registrations d), d <| registrations := rows |>)
    else Fail ErrConstraint).

Definition delete_superseded (regID email : string) (status : RegStatus) : DBM unit :=
  exec (fun d => d <| registrations :=
    delete_rows (superseded regID email status) (registrations d) |>).

Section Registrations.
Context {env : Env}.

Definition CreateRegistrationWithMFA (email ip uaHash : string) (captchaOK : bool)
    (mfaPreference : string) : DBM Registration :=
  let! now := time_Now in
  let! id := uuid_NewString in
  let r := mkRegistration id email (normalizeMFAPreference mfaPreference) ip uaHash captchaOK
             RegPending now None None None in
  do! statement (fun d => match insert_row reg_clash r (registrations d) with
                          | Ok rows => Ok (tt, d <| registrations := rows |>)
                          | Fail e => Fail e
                          end) in
  ret r.

Definition CreateRegistration (email ip uaHash : string) (captchaOK : bool) :
    DBM Registration :=
  CreateRegistrationWithMFA email ip uaHash captchaOK "none".

Definition scan_registration (r : Registration) : Registration :=
  r <| r_MFAPreference := normalizeMFAPreference (r_MFAPreference r) |>.

Definition GetRegistrationByID (id : string) : DBM Registration :=
  query (fun d => match select1 (reg_has_id id) (registrations d) with
                  | Some r => Ok (scan_registration r)
                  | None => Fail ErrNotFound
                  end).

Definition find_registration (regID : string) (missing : GoErr) : DBM (string * RegStatus) :=
  query (fun d => match select1 (reg_has_id regID) (registrations d) with
                  | Some r => Ok (r_Email r, r_Status r)
                  | None => Fail missing
                  end).

Definition SetRegistrationDecision (regID : string) (status : RegStatus)
    (decidedBy reason : string) : DBM unit :=
  transaction (
    let! (email, currentStatus) := find_registration regID ErrConflict in
    if negb (bool_decide (currentStatus = RegPending)) then throw ErrConflict
    else
      do! delete_superseded regID email status in
      let! now := time_Now in
      let! rows := decide_statement regID status now decidedBy reason in
      if Nat.eqb rows 0 then throw ErrConflict else ret tt).

(** [SELECT id,status FROM users WHERE lower(email)=lower(?) ORDER BY id LIMIT 1]. *)
Definition user_of_email (email : string) (d : Database) : option UserRow :=
  head (order_by (in_order (fun r => KText (ur_id r)) ASC)
    (List.filter (fun r => String.eqb (sql_lower (ur_email r)) (sql_lower email)) (users d))).

(** The id of the deleted user, or [""] when the email has none. *)
Definition RejectRegistrationAndDeletePendingUser (regID decidedBy reason : string) :
    DBM string :=
  transaction (
    let! (email, regStatus) := find_registration regID ErrNotFound in
    if negb (bool_decide (regStatus = RegPending)) then throw ErrConflict
    else
      let! u := query (fun d => Ok (user_of_email email d)) in
      do! match u with
          | Some r =>
              if negb (bool_decide (ur_status r = UserPending)) then throw ErrUserStateConflict
              else ret tt
          | None => ret tt
          end in
      let! now := time_Now in
      do! delete_superseded regID email RegRejected in
      let! rows := decide_statement regID RegRejected now decidedBy reason in
      if Nat.eqb rows 0 then throw ErrConflict
      else
        let userID := match u with Some r => ur_id r | None => "" end in
        do! (if negb (String.eqb (TrimSpace userID) "") then
               do! exec (fun d => d <| sessions :=
                     delete_rows (fun s => String.eqb (s_UserID s) userID) (sessions d) |>) in
               do! exec (fun d => d <| reset_tokens :=
                     delete_rows (fun t => String.eqb (t_UserID t) userID) (reset_tokens d) |>) in
               let! n := statement (fun d => Ok (affected (has_id userID) (users d),
                     d <| users := delete_rows (has_id userID) (users d) |>)) in
               if Nat.eqb n 0 then throw ErrNotFound else ret tt
             else ret tt) in
        ret userID).
End Registrations.

(** ** Listing *)

Record RegistrationQuery : Type := mkRegistrationQuery {
  rq_Status : string; rq_Q : string; rq_Sort : string; rq_Order : string;
  rq_Limit : Z; rq_Offset : Z
}.

Definition sanitizeRegistrationSort (sort : string) : string :=
  let v := fold_trim sort in
  if existsb (String.eqb v) ["email"; "status"; "decided_at"] then v else "created_at".

Definition registration_column (c : string) (r : Registration) : SortKey :=
  if String.eqb c "email" then KText (r_Email r)
  else if String.eqb c "status" then KText (reg_status_text (r_Status r))
  else if String.eqb c "decided_at" then key_of_num (r_DecidedAt r)
  else KNum (r_CreatedAt r).

(** A blank status means pending; ["all"] turns the filter off. *)
Definition registration_matches (q : RegistrationQuery) (r : Registration) : bool :=
  (let v := TrimSpace (ToLower (rq_Status q)) in
   let v := if String.eqb v "" then "pending" else v in
   String.eqb v "all" || String.eqb (sql_lower (reg_status_text (r_Status r))) v)
  && (let t := TrimSpace (rq_Q q) in
      String.eqb t ""
      || sql_like (sql_lower (r_Email r)) (containing (ToLower t))
      || sql_like (sql_lower (sql_coalesce (r_Reason r))) (containing (ToLower t))).

Definition ListRegistrations (q : RegistrationQuery) : DBM (list Registration * Z) :=
  let! total := query (fun d =>
      Ok (Z.of_nat (affected (registration_matches q) (registrations d)))) in
  let! rows := query (fun d => Ok (page (clampLimit (rq_Limit q)) (clampOffset (rq_Offset q))
      (order_by (in_order (registration_column (sanitizeRegistrationSort (rq_Sort q)))
                          (sanitizeSortOrder (rq_Order q)))
        (List.filter (registration_matches q) (registrations d))))) in
  ret (map scan_registration rows, total).
