(* ===== verification/Sessions.v ===== *)
(** * Sessions, the audit log and the persistent rate counters
    (internal/store/store.go, and the session list of v2_store.go) *)

From S2P Require Import Prelude GoStrings Effects Models Users.
Local Open Scope Z_scope.

Definition sess_has_id (id : string) (s : Session) : bool := String.eqb (s_ID s) id.
Definition sess_has_hash (h : string) (s : Session) : bool := String.eqb (s_TokenHash s) h.
Definition sess_of_user (u : string) (s : Session) : bool := String.eqb (s_UserID s) u.

Definition session_clash (s s0 : Session) : bool :=
  String.eqb (s_ID s) (s_ID s0) || String.eqb (s_TokenHash s) (s_TokenHash s0).

Definition update_sessions (p : Session -> bool) (f : Session -> Session) : DBM unit :=
  exec (fun d => d <| sessions := update_rows p f (sessions d) |>).

Definition update_sessions_found (p : Session -> bool) (f : Session -> Session) : DBM unit :=
  let! n := statement (fun d => Ok (affected p (sessions d),
              d <| sessions := update_rows p f (sessions d) |>)) in
  if Nat.eqb n 0 then throw ErrNotFound else ret tt.

(** The columns of [sessions] default the method to ["password"]. *)
Definition auth_method_or (dflt raw : string) : string :=
  let v := TrimSpace raw in if String.eqb v "" then dflt else v.

Section Sessions.
Context {env : Env}.

Definition CreateSession (sess : Session) : DBM unit :=
  let row := sess <| s_AuthMethod := auth_method_or "password" (s_AuthMethod sess) |>
                  <| s_RevokedAt := None |> in
  statement (fun d => match insert_row session_clash row (sessions d) with
                      | Ok rows => Ok (tt, d <| sessions := rows |>)
                      | Fail e => Fail e
                      end).

Definition scan_session (s : Session) : Session :=
  s <| s_ActiveAccountID := scan_text TrimSpace (s_ActiveAccountID s) |>
    <| s_AuthMethod := if String.eqb (TrimSpace (s_AuthMethod s)) "" then "password"
                       else s_AuthMethod s |>.

Definition GetSessionByTokenHash (tokenHash : string) : DBM Session :=
  query (fun d => match select1 (sess_has_hash tokenHash) (sessions d) with
                  | Some s => Ok (scan_session s)
                  | None => Fail ErrNotFound
                  end).

Definition TouchSession (id : string) (idleExpiry : Z) : DBM unit :=
  let! now := time_Now in
  update_sessions (sess_has_id id)
    (fun s => s <| s_LastSeenAt := now |> <| s_IdleExpiresAt := idleExpiry |>).

Definition UpdateSessionMailSecret (sessionID mailSecret : string) : DBM unit :=
  update_sessions_found (sess_has_id sessionID)
    (fun s => s <| s_MailSecret := TrimSpace mailSecret |>).

Definition RevokeSession (id : string) : DBM unit :=
  let! now := time_Now in
  update_sessions (sess_has_id id) (fun s => s <| s_RevokedAt := Some now |>).

Definition live_of_user (userID : string) (s : Session) : bool :=
  sess_of_user userID s && match s_RevokedAt s with None => true | Some _ => false end.

Definition RevokeUserSessions (userID : string) : DBM unit :=
  let! now := time_Now in
  update_sessions (live_of_user userID) (fun s => s <| s_RevokedAt := Some now |>).

Definition SetSessionMFAVerified (sessionID authMethod : string) : DBM unit :=
  let! now := time_Now in
  update_sessions (sess_has_id sessionID)
    (fun s => s <| s_MFAVerifiedAt := Some now |>
                <| s_AuthMethod := auth_method_or "mfa" authMethod |>).

Definition ClearSessionMFAVerified (sessionID : string) : DBM unit :=
  update_sessions (sess_has_id sessionID)
    (fun s => s <| s_MFAVerifiedAt := None |> <| s_AuthMethod := "password" |>).

(** The second statement's error is dropped. *)
Definition RevokeSessionWithReason (userID sessionID reason : string) : DBM unit :=
  let! now := time_Now in
  do! update_sessions_found (fun s => sess_has_id sessionID s && sess_of_user userID s)
        (fun s => s <| s_RevokedAt := Some now |>) in
  ignore (exec (fun d =>
    let key m := String.eqb (sm_SessionID m) sessionID in
    d <| sessions_meta :=
      if existsb key (sessions_meta d)
      then update_rows key (fun m => m <| sm_RevokedReason := reason |>
                                       <| sm_UpdatedAt := now |>) (sessions_meta d)
      else sessions_meta d ++ [mkSessionMeta sessionID userID "" "" "" reason now] |>)).

(** ** Audit log *)

Definition InsertAudit (actorID action target metadata : string) : DBM unit :=
  let! id := uuid_NewString in
  let! now := time_Now in
  statement (fun d =>
    match insert_row (fun r r0 => String.eqb (a_ID r) (a_ID r0))
            (mkAudit id actorID action target metadata now) (audit_log d) with
    | Ok rows => Ok (tt, d <| audit_log := rows |>)
    | Fail e => Fail e
    end).

(** ** Rate counters *)

Definition rate_key (key route : string) (windowStart : Z) (r : RateEvent) : bool :=
  String.eqb (re_Key r) key && String.eqb (re_Route r) route
  && (re_WindowStart r =? windowStart).

(** [INSERT ... ON CONFLICT(key, route, window_start) DO UPDATE]; any other
    clash, here of the primary key, is an error. *)
Definition upsert_rate (r : RateEvent) (rows : list RateEvent) : Res (list RateEvent) :=
  let k := rate_key (re_Key r) (re_Route r) (re_WindowStart r) in
  if existsb k rows
  then Ok (update_rows k (fun r0 => r0 <| re_Count := re_Count r0 + 1 |>
                                       <| re_UpdatedAt := re_UpdatedAt r |>) rows)
  else insert_row (fun r r0 => String.eqb (re_ID r) (re_ID r0)) r rows.

Definition IncrementRateEvent (key route : string) (windowStart : Z) : DBM Z :=
  let! now := time_Now in
  let! id := uuid_NewString in
  do! statement (fun d =>
        match upsert_rate (mkRateEvent id key route windowStart 1 now now) (rate_events d) with
        | Ok rows => Ok (tt, d <| rate_events := rows |>)
        | Fail e => Fail e
        end) in
  query (fun d => match select1 (rate_key key route windowStart) (rate_events d) with
                  | Some r => Ok (re_Count r)
                  | None => Fail ErrDriver   (* sql.ErrNoRows *)
                  end).

Definition DeleteRateEvents (key route : string) : DBM unit :=
  exec (fun d => d <| rate_events := delete_rows (fun r =>
    String.eqb (re_Key r) key && String.eqb (re_Route r) route) (rate_events d) |>).

Definition CleanupRateEventsBefore (before : Z) : DBM unit :=
  exec (fun d => d <| rate_events :=
    delete_rows (fun r => re_WindowStart r <? before) (rate_events d) |>).
End Sessions.

(** ** Listings *)

Record AuditQuery : Type := mkAuditQuery {
  aq_Q : string; aq_Action : string; aq_Actor : string; aq_Target : string;
  aq_From : option Z; aq_To : option Z;      (* [None] is the zero time *)
  aq_Sort : string; aq_Order : string; aq_Limit : Z; aq_Offset : Z
}.

Record AuditEntry : Type := mkAuditEntry {
  ae_Row : AuditRow; ae_ActorEmail : option string   (* LEFT JOIN users *)
}.

Definition join_actor (d : Database) (a : AuditRow) : AuditEntry :=
  mkAuditEntry a (ur_email <$> select1 (has_id (a_ActorUserID a)) (users d)).

Definition sanitizeAuditSort (sort : string) : string :=
  let v := fold_trim sort in
  if String.eqb v "action" then "a.action"
  else if String.eqb v "actor" then "u.email"
  else if String.eqb v "target" then "a.target"
  else "a.created_at".

Definition audit_column (c : string) (e : AuditEntry) : SortKey :=
  if String.eqb c "a.action" then KText (a_Action (ae_Row e))
  else if String.eqb c "u.email" then key_of_text (ae_ActorEmail e)
  else if String.eqb c "a.target" then KText (a_Target (ae_Row e))
  else KNum (a_CreatedAt (ae_Row e)).

Definition audit_matches (q : AuditQuery) (e : AuditEntry) : bool :=
  let email := sql_lower (sql_coalesce (ae_ActorEmail e)) in
  (let t := TrimSpace (aq_Q q) in
   String.eqb t ""
   || (let needle := containing (ToLower t) in
       sql_like (sql_lower (a_Action (ae_Row e))) needle
       || sql_like (sql_lower (a_Target (ae_Row e))) needle
       || sql_like (sql_lower (a_MetadataJSON (ae_Row e))) needle
       || sql_like email needle))
  && filter_eq (aq_Action q) (a_Action (ae_Row e))
  && (let v := TrimSpace (ToLower (aq_Actor q)) in
      String.eqb v "" || sql_like email (containing v))
  && (let v := TrimSpace (ToLower (aq_Target q)) in
      String.eqb v "" || sql_like (sql_lower (a_Target (ae_Row e))) (containing v))
  && match aq_From q with None => true | Some t => t <=? a_CreatedAt (ae_Row e) end
  && match aq_To q with None => true | Some t => a_CreatedAt (ae_Row e) <=? t end.

Definition ListAudit (q : AuditQuery) : DBM (list AuditEntry * Z) :=
  let entries d := List.filter (audit_matches q) (map (join_actor d) (audit_log d)) in
  let! total := query (fun d => Ok (Z.of_nat (length (entries d)))) in
  let! rows := query (fun d => Ok (page (clampLimit (aq_Limit q)) (clampOffset (aq_Offset q))
      (order_by (in_order (audit_column (sanitizeAuditSort (aq_Sort q)))
                          (sanitizeSortOrder (aq_Order q))) (entries d)))) in
  ret (rows, total).

Record SessionMeta : Type := mkSessionMetaView {
  smv_Session : Session; smv_DeviceLabel : string; smv_UASummary : string;
  smv_IPHint : string; smv_RevokedReason : string
}.

Definition ListSessionsMeta (userID : string) : DBM (list SessionMeta) :=
  query (fun d => Ok (map (fun s =>
      let m := select1 (fun m => String.eqb (sm_SessionID m) (s_ID s)) (sessions_meta d) in
      mkSessionMetaView s (sql_coalesce (sm_DeviceLabel <$> m))
        (sql_coalesce (sm_UASummary <$> m))
        (default (s_IPHint s) (sm_IPHint <$> m)) (sql_coalesce (sm_RevokedReason <$> m)))
    (order_by (in_order (fun s => KNum (s_LastSeenAt s)) DESC)
      (List.filter (sess_of_user userID) (sessions d))))).

(** * ResetTokens: password reset tokens of internal/store/store.go

    A token is reserved for a lease while a reset is carried out, then
    consumed by the holder of the reservation; once used it stays used. *)

Definition tok_has_hash (h : string) (t : ResetToken) : bool := String.eqb (t_TokenHash t) h.

Definition unused (t : ResetToken) : bool :=
  match t_UsedAt t with None => true | Some _ => false end.

Definition token_clash (t t0 : ResetToken) : bool :=
  String.eqb (t_ID t) (t_ID t0) || String.eqb (t_TokenHash t) (t_TokenHash t0).

Definition scan_token (t : ResetToken) : ResetToken :=
  t <| t_ReservationID := scan_text TrimSpace (t_ReservationID t) |>.

(** The [WHERE] clause of the reservation. *)
Definition reservable (tokenHash : string) (now staleBefore : Z) (t : ResetToken) : bool :=
  tok_has_hash tokenHash t && unused t && (now <? t_ExpiresAt t)
  && match t_ReservedAt t with None => true | Some r => r <=? staleBefore end.

Definition consumable (tokenHash : string) (now : Z) (t : ResetToken) : bool :=
  tok_has_hash tokenHash t && unused t && (now <? t_ExpiresAt t).

Definition held_by (reservationID : string) (t : ResetToken) : bool :=
  match t_ReservationID t with Some r => String.eqb r reservationID | None => false end.

Definition mark_used (now : Z) (t : ResetToken) : ResetToken :=
  t <| t_UsedAt := Some now |> <| t_ReservedAt := None |> <| t_ReservationID := None |>.

Definition mark_reserved (now : Z) (reservationID : string) (t : ResetToken) : ResetToken :=
  t <| t_ReservedAt := Some now |> <| t_ReservationID := Some reservationID |>.

Definition clear_reservation (t : ResetToken) : ResetToken :=
  t <| t_ReservedAt := None |> <| t_ReservationID := None |>.

(** [UPDATE password_reset_tokens SET f WHERE p], and how many rows. *)
Definition update_tokens (p : ResetToken -> bool) (f : ResetToken -> ResetToken) : DBM nat :=
  statement (fun d => Ok (affected p (reset_tokens d),
                          d <| reset_tokens := update_rows p f (reset_tokens d) |>)).

Section ResetTokens.
Context {env : Env}.

Definition CreatePasswordResetToken (userID tokenHash : string) (expiresAt : Z) :
    DBM ResetToken :=
  let! id := uuid_NewString in
  let! now := time_Now in
  let t := mkResetToken id userID tokenHash None None expiresAt None now in
  do! statement (fun d => match insert_row token_clash t (reset_tokens d) with
                          | Ok rows => Ok (tt, d <| reset_tokens := rows |>)
                          | Fail e => Fail e
                          end) in
  ret t.

Definition InvalidatePasswordResetToken (tokenHash : string) : DBM unit :=
  let! now := time_Now in
  let! _ := update_tokens (fun t => tok_has_hash tokenHash t && unused t) (mark_used now) in
  ret tt.

Definition getPasswordResetTokenByHash (tokenHash : string) : DBM ResetToken :=
  query (fun d => match select1 (tok_has_hash tokenHash) (reset_tokens d) with
                  | Some t => Ok (scan_token t)
                  | None => Fail ErrNotFound
                  end).

Definition ReservePasswordResetToken (tokenHash reservationID : string) (lease : Z) :
    DBM ResetToken :=
  if String.eqb (TrimSpace reservationID) "" then throw (ErrText "reservation_id is required")
  else
    let! now := time_Now in
    let lease := if lease <=? 0 then 30 * Second else lease in
    let staleBefore := now - lease in
    let! n := update_tokens (reservable tokenHash now staleBefore)
                (mark_reserved now (TrimSpace reservationID)) in
    if negb (Nat.eqb n 1) then throw ErrNotFound
    else getPasswordResetTokenByHash tokenHash.

Definition ReleasePasswordResetTokenReservation (tokenHash reservationID : string) : DBM unit :=
  if String.eqb (TrimSpace reservationID) "" then ret tt
  else
    let! _ := update_tokens
                (fun t => tok_has_hash tokenHash t && unused t
                          && held_by (TrimSpace reservationID) t) clear_reservation in
    ret tt.

Definition ConsumePasswordResetToken (tokenHash : string) : DBM ResetToken :=
  let! now := time_Now in
  let! n := update_tokens (consumable tokenHash now) (mark_used now) in
  if negb (Nat.eqb n 1) then throw ErrNotFound
  else getPasswordResetTokenByHash tokenHash.

Definition ConsumeReservedPasswordResetToken (tokenHash reservationID : string) :
    DBM ResetToken :=
  let! now := time_Now in
  let! n := update_tokens
              (fun t => consumable tokenHash now t && held_by (TrimSpace reservationID) t)
              (mark_used now) in
  if negb (Nat.eqb n 1) then throw ErrNotFound
  else getPasswordResetTokenByHash tokenHash.
End ResetTokens.
