(* ===== verification/Mfa.v ===== *)
(** * Mfa: second factors, recovery codes and trusted devices
    (internal/store/v2_store.go) *)

From S2P Require Import Prelude GoStrings Effects Models Users.
Local Open Scope Z_scope.

(** Go's zero [time.Time]; such a value is stored as NULL. *)
Definition ZeroTime : Z := -62135596800 * Second.
Definition IsZero (t : Z) : bool := t =? ZeroTime.

Record MFAStatus : Type := mkMFAStatus {
  HasTOTP : bool; TOTPEnabled : bool; WebAuthnCount : Z; RecoveryCodes : Z; RecoveryUnused : Z
}.

Definition totp_of (userID : string) (r : MFATOTPRecord) : bool := String.eqb (to_UserID r) userID.
Definition cred_of (userID : string) (c : WebAuthnCredential) : bool :=
  String.eqb (wc_UserID c) userID.
Definition cred_has (credentialID : string) (c : WebAuthnCredential) : bool :=
  String.eqb (wc_CredentialID c) credentialID.
Definition code_of (userID : string) (c : RecoveryCode) : bool := String.eqb (rc_UserID c) userID.
Definition code_unused (c : RecoveryCode) : bool :=
  match rc_UsedAt c with None => true | Some _ => false end.
Definition dev_of (userID : string) (d : TrustedDevice) : bool := String.eqb (td_UserID d) userID.
Definition dev_has_id (id : string) (d : TrustedDevice) : bool := String.eqb (td_ID d) id.
Definition dev_live (d : TrustedDevice) : bool :=
  match td_RevokedAt d with None => true | Some _ => false end.

Section Mfa.
Context {env : Env}.

(** Four reads whose errors are dropped: what a failed read would have set
    keeps its zero value. *)
Definition GetMFAStatus (userID : string) : DBM MFAStatus :=
  let read {A} (dflt : A) (f : Database -> Res A) : DBM A :=
    let! r := attempt (query f) in ret match r with Ok a => a | Fail _ => dflt end in
  let! (hasSecret, enabled) := read (false, false) (fun d =>
      match select1 (totp_of userID) (mfa_totp d) with
      | Some r => Ok (negb (String.eqb (sql_trim (to_SecretEnc r)) ""), to_Enabled r)
      | None => Fail ErrNotFound   (* sql.ErrNoRows *)
      end) in
  let count {R} (p : R -> bool) rows := Ok (Z.of_nat (affected p rows)) in
  let! creds := read 0 (fun d => count (cred_of userID) (webauthn d)) in
  let! codes := read 0 (fun d => count (code_of userID) (recovery_codes d)) in
  let! unspent := read 0 (fun d =>
      count (fun c => code_of userID c && code_unused c) (recovery_codes d)) in
  ret (mkMFAStatus hasSecret enabled creds codes unspent).

Definition GetMFATOTP (userID : string) : DBM MFATOTPRecord :=
  query (fun d => match select1 (totp_of userID) (mfa_totp d) with
                  | Some r => Ok r
                  | None => Fail ErrNotFound
                  end).

(** [user_id] is the primary key; every other column is overwritten. *)
Definition UpsertMFATOTP (inp : MFATOTPRecord) : DBM MFATOTPRecord :=
  let! now := time_Now in
  let inp := inp <| to_UpdatedAt := now |> in
  do! exec (fun d => d <| mfa_totp :=
        if existsb (totp_of (to_UserID inp)) (mfa_totp d)
        then update_rows (totp_of (to_UserID inp)) (fun _ => inp) (mfa_totp d)
        else mfa_totp d ++ [inp] |>) in
  GetMFATOTP (to_UserID inp).

(** ** WebAuthn credentials *)

Definition ListMFAWebAuthnCredentials (userID : string) : DBM (list WebAuthnCredential) :=
  query (fun d => Ok (order_by (in_order (fun c => KNum (wc_CreatedAt c)) DESC)
                        (List.filter (cred_of userID) (webauthn d)))).

Definition GetMFAWebAuthnCredentialByCredentialID (userID credentialID : string) :
    DBM WebAuthnCredential :=
  query (fun d => match select1 (fun c => cred_of userID c && cred_has credentialID c)
                          (webauthn d) with
                  | Some c => Ok c
                  | None => Fail ErrNotFound
                  end).

Definition GetMFAWebAuthnCredentialByCredentialIDAnyUser (credentialID : string) :
    DBM WebAuthnCredential :=
  query (fun d => match select1 (cred_has credentialID) (webauthn d) with
                  | Some c => Ok c
                  | None => Fail ErrNotFound
                  end).

(** The conflict clause of the upsert: the counter only moves forward. *)
Definition merge_credential (inp c : WebAuthnCredential) : WebAuthnCredential :=
  c <| wc_PublicKey := wc_PublicKey inp |>
    <| wc_SignCount := if wc_SignCount c <? wc_SignCount inp then wc_SignCount inp
                       else wc_SignCount c |>
    <| wc_TransportsJSON := wc_TransportsJSON inp |>
    <| wc_Name := wc_Name inp |>
    <| wc_LastUsedAt := match wc_LastUsedAt inp with
                        | Some t => Some t
                        | None => wc_LastUsedAt c
                        end |>.

Definition upsert_credential (inp : WebAuthnCredential) (rows : list WebAuthnCredential) :
    Res (list WebAuthnCredential) :=
  if existsb (cred_has (wc_CredentialID inp)) rows
  then Ok (update_rows (cred_has (wc_CredentialID inp)) (merge_credential inp) rows)
  else insert_row (fun c c0 => String.eqb (wc_ID c) (wc_ID c0)) inp rows.

Definition UpsertMFAWebAuthnCredential (inp : WebAuthnCredential) : DBM WebAuthnCredential :=
  let! now := time_Now in
  let! id := if String.eqb (TrimSpace (wc_ID inp)) "" then uuid_NewString
             else ret (wc_ID inp) in
  let inp := inp <| wc_ID := id |>
    <| wc_CreatedAt := if IsZero (wc_CreatedAt inp) then now else wc_CreatedAt inp |>
    <| wc_TransportsJSON := if String.eqb (TrimSpace (wc_TransportsJSON inp)) "" then "[]"
                            else wc_TransportsJSON inp |> in
  do! statement (fun d => match upsert_credential inp (webauthn d) with
                          | Ok rows => Ok (tt, d <| webauthn := rows |>)
                          | Fail e => Fail e
                          end) in
  GetMFAWebAuthnCredentialByCredentialID (wc_UserID inp) (wc_CredentialID inp).

Definition update_credentials_found (p : WebAuthnCredential -> bool)
    (g : list WebAuthnCredential -> list WebAuthnCredential) : DBM unit :=
  let! n := statement (fun d => Ok (affected p (webauthn d),
              d <| webauthn := g (webauthn d) |>)) in
  if Nat.eqb n 0 then throw ErrNotFound else ret tt.

Definition owned_cred (userID id : string) (c : WebAuthnCredential) : bool :=
  cred_of userID c && String.eqb (wc_ID c) id.

Definition TouchMFAWebAuthnCredential (userID id : string) (signCount : Z) : DBM unit :=
  let! now := time_Now in
  update_credentials_found (owned_cred userID id)
    (update_rows (owned_cred userID id) (fun c => c
      <| wc_SignCount := if wc_SignCount c <? signCount then signCount else wc_SignCount c |>
      <| wc_LastUsedAt := Some now |>)).

Definition DeleteMFAWebAuthnCredential (userID id : string) : DBM unit :=
  update_credentials_found (owned_cred userID id) (delete_rows (owned_cred userID id)).

Definition RenameMFAWebAuthnCredential (userID id name : string) : DBM unit :=
  let name := TrimSpace name in
  if String.eqb name "" then throw (ErrText "credential name is required")
  else update_credentials_found (owned_cred userID id)
         (update_rows (owned_cred userID id) (fun c => c <| wc_Name := name |>)).

(** ** Recovery codes *)

Fixpoint insert_codes (userID : string) (now : Z) (hashes : list string) : DBM unit :=
  match hashes with
  | [] => ret tt
  | h :: hashes' =>
      let! id := uuid_NewString in
      do! statement (fun d =>
            match insert_row (fun c c0 => String.eqb (rc_ID c) (rc_ID c0))
                    (mkRecoveryCode id userID h None now) (recovery_codes d) with
            | Ok rows => Ok (tt, d <| recovery_codes := rows |>)
            | Fail e => Fail e
            end) in
      insert_codes userID now hashes'
  end.

Definition ReplaceMFARecoveryCodes (userID : string) (hashes : list string) : DBM unit :=
  transaction (
    do! exec (fun d => d <| recovery_codes :=
          delete_rows (code_of userID) (recovery_codes d) |>) in
    let! now := time_Now in
    insert_codes userID now hashes).

Definition spendable (userID codeHash : string) (c : RecoveryCode) : bool :=
  code_of userID c && String.eqb (rc_CodeHash c) codeHash && code_unused c.

Definition ConsumeRecoveryCodeHash (userID codeHash : string) : DBM bool :=
  let! now := time_Now in
  let! n := statement (fun d => Ok (affected (spendable userID codeHash) (recovery_codes d),
              d <| recovery_codes := update_rows (spendable userID codeHash)
                     (fun c => c <| rc_UsedAt := Some now |>) (recovery_codes d) |>)) in
  ret (negb (Nat.eqb n 0)).

(** ** Trusted devices *)

Definition device_clash (x x0 : TrustedDevice) : bool :=
  String.eqb (td_ID x) (td_ID x0) || String.eqb (td_TokenHash x) (td_TokenHash x0).

Definition GetMFATrustedDeviceByID (userID id : string) : DBM TrustedDevice :=
  query (fun d => match select1 (fun x => dev_of userID x && dev_has_id id x)
                          (trusted_devices d) with
                  | Some x => Ok x
                  | None => Fail ErrNotFound
                  end).

Definition CreateMFATrustedDevice (inp : TrustedDevice) : DBM TrustedDevice :=
  let! now := time_Now in
  let! id := if String.eqb (TrimSpace (td_ID inp)) "" then uuid_NewString
             else ret (td_ID inp) in
  let inp := inp <| td_ID := id |>
    <| td_CreatedAt := if IsZero (td_CreatedAt inp) then now else td_CreatedAt inp |>
    <| td_ExpiresAt := if IsZero (td_ExpiresAt inp) then now + 30 * 24 * Hour
                       else td_ExpiresAt inp |> in
  do! statement (fun d => match insert_row device_clash inp (trusted_devices d) with
                          | Ok rows => Ok (tt, d <| trusted_devices := rows |>)
                          | Fail e => Fail e
                          end) in
  GetMFATrustedDeviceByID (td_UserID inp) (td_ID inp).

Definition active_device (userID tokenHash : string) (now : Z) (x : TrustedDevice) : bool :=
  dev_of userID x && String.eqb (td_TokenHash x) tokenHash && dev_live x
  && (now <? td_ExpiresAt x).

Definition GetActiveMFATrustedDeviceByTokenHash (userID tokenHash : string) (now : Z) :
    DBM TrustedDevice :=
  query (fun d => match select1 (active_device userID tokenHash now) (trusted_devices d) with
                  | Some x => Ok x
                  | None => Fail ErrNotFound
                  end).

(** [UPDATE mfa_trusted_devices SET f WHERE p]; a changed token hash can
    clash with another device's. *)
Definition hashes_distinct (rows : list TrustedDevice) : bool :=
  bool_decide (NoDup (td_TokenHash <$> rows)).

Definition update_devices_found (ok : list TrustedDevice -> bool)
    (p : TrustedDevice -> bool) (f : TrustedDevice -> TrustedDevice) : DBM unit :=
  let! n := statement (fun d =>
      let rows := update_rows p f (trusted_devices d) in
      if ok rows then Ok (affected p (trusted_devices d), d <| trusted_devices := rows |>)
      else Fail ErrConstraint) in
  if Nat.eqb n 0 then throw ErrNotFound else ret tt.

Definition owned_live_device (userID id : string) (x : TrustedDevice) : bool :=
  dev_of userID x && dev_has_id id x && dev_live x.

Definition RotateMFATrustedDeviceToken (userID id tokenHash uaHash ipHint : string)
    (expiresAt : Z) : DBM TrustedDevice :=
  let! now := time_Now in
  do! update_devices_found hashes_distinct (owned_live_device userID id) (fun x => x
        <| td_TokenHash := tokenHash |> <| td_UAHash := uaHash |> <| td_IPHint := ipHint |>
        <| td_LastUsedAt := Some now |> <| td_ExpiresAt := expiresAt |>) in
  GetMFATrustedDeviceByID userID id.

Definition ListActiveMFATrustedDevices (userID : string) (now : Z) : DBM (list TrustedDevice) :=
  query (fun d => Ok (order_by
    (in_order (fun x => KNum (default (td_CreatedAt x) (td_LastUsedAt x))) DESC)
    (List.filter (fun x => dev_of userID x && dev_live x && (now <? td_ExpiresAt x))
      (trusted_devices d)))).

Definition RevokeMFATrustedDevice (userID id : string) : DBM unit :=
  let! now := time_Now in
  update_devices_found (fun _ => true) (owned_live_device userID id)
    (fun x => x <| td_RevokedAt := Some now |>).

Definition RevokeAllMFATrustedDevices (userID : string) : DBM unit :=
  let! now := time_Now in
  exec (fun d => d <| trusted_devices :=
    update_rows (fun x => dev_of userID x && dev_live x)
      (fun x => x <| td_RevokedAt := Some now |>) (trusted_devices d) |>).
End Mfa.
