(* ===== verification/MailAccounts.v ===== *)
(** * MailAccounts: the [mail_accounts] table of internal/store/v2_store.go *)

From S2P Require Import Prelude GoStrings Effects Models Users Mfa.
Local Open Scope Z_scope.

Definition normalizeStoredMailProviderType (raw : string) : string :=
  let v := fold_trim raw in
  if String.eqb v "gmail" then "gmail" else if String.eqb v "libero" then "libero"
  else "generic".

Definition normalizeStoredMailAuthKind (raw : string) : string :=
  if EqualFold (TrimSpace raw) "app_password" then "app_password" else "password".

Definition normalizeStoredMailConnectionMode (raw : string) : string :=
  if String.eqb (TrimSpace raw) "" then "imap_smtp" else TrimSpace raw.

(** [nullStringValue]. *)
Definition nullStringValue (o : option string) : option string :=
  match o with
  | Some v => if String.eqb (TrimSpace v) "" then None else Some v
  | None => None
  end.

Definition scanMailAccount (a : MailAccount) : MailAccount :=
  a <| ma_ProviderType := normalizeStoredMailProviderType (ma_ProviderType a) |>
    <| ma_ProviderLabel := TrimSpace (ma_ProviderLabel a) |>
    <| ma_AuthKind := normalizeStoredMailAuthKind (ma_AuthKind a) |>
    <| ma_ConnectionMode := normalizeStoredMailConnectionMode (ma_ConnectionMode a) |>.

Definition acc_of (userID : string) (a : MailAccount) : bool := String.eqb (ma_UserID a) userID.
Definition acc_has_id (id : string) (a : MailAccount) : bool := String.eqb (ma_ID a) id.
Definition owned_account (userID id : string) (a : MailAccount) : bool :=
  acc_of userID a && acc_has_id id a.

(** [ORDER BY is_default DESC, created_at ASC]. *)
Definition account_leb (a b : MailAccount) : bool :=
  let x := boolToInt (ma_IsDefault a) in
  let y := boolToInt (ma_IsDefault b) in
  (y <? x) || ((x =? y) && (ma_CreatedAt a <=? ma_CreatedAt b)).

(** The columns both [INSERT] and [UPDATE] normalise. *)
Definition stored_account (a : MailAccount) : MailAccount :=
  a <| ma_LastError := nullStringValue (ma_LastError a) |>
    <| ma_ProviderType := TrimSpace (ma_ProviderType a) |>
    <| ma_ProviderLabel := TrimSpace (ma_ProviderLabel a) |>
    <| ma_AuthKind := TrimSpace (ma_AuthKind a) |>
    <| ma_ConnectionMode := TrimSpace (ma_ConnectionMode a) |>
    <| ma_ValidationError := TrimSpace (ma_ValidationError a) |>.

(** [SET is_default=CASE WHEN id=? THEN 1 ELSE 0 END WHERE user_id=?]. *)
Definition only_default (userID id : string) (now : Z) (rows : list MailAccount) :
    list MailAccount :=
  update_rows (acc_of userID)
    (fun a => a <| ma_IsDefault := acc_has_id id a |> <| ma_UpdatedAt := now |>) rows.

Section MailAccounts.
Context {env : Env}.

Definition ListMailAccounts (userID : string) : DBM (list MailAccount) :=
  query (fun d => Ok (map scanMailAccount
    (order_by account_leb (List.filter (acc_of userID) (mail_accounts d))))).

Definition ListAllMailAccounts : DBM (list MailAccount) :=
  query (fun d => Ok (map scanMailAccount
    (order_by (in_order (fun a => KNum (ma_UpdatedAt a)) DESC) (mail_accounts d)))).

Definition GetMailAccountByID (userID id : string) : DBM MailAccount :=
  query (fun d => match select1 (owned_account userID id) (mail_accounts d) with
                  | Some a => Ok (scanMailAccount a)
                  | None => Fail ErrNotFound
                  end).

(** Making the new account the only default is a second statement whose
    error is dropped. *)
Definition CreateMailAccount (inp : MailAccount) : DBM MailAccount :=
  let! now := time_Now in
  let! id := if String.eqb (TrimSpace (ma_ID inp)) "" then uuid_NewString
             else ret (ma_ID inp) in
  let inp := inp <| ma_ID := id |> <| ma_CreatedAt := now |> <| ma_UpdatedAt := now |>
    <| ma_Status := if String.eqb (TrimSpace (ma_Status inp)) "" then "active"
                    else ma_Status inp |>
    <| ma_ProviderType := normalizeStoredMailProviderType (ma_ProviderType inp) |>
    <| ma_AuthKind := normalizeStoredMailAuthKind (ma_AuthKind inp) |>
    <| ma_ConnectionMode := normalizeStoredMailConnectionMode (ma_ConnectionMode inp) |> in
  do! statement (fun d =>
        match insert_row (fun a a0 => String.eqb (ma_ID a) (ma_ID a0)) (stored_account inp)
                (mail_accounts d) with
        | Ok rows => Ok (tt, d <| mail_accounts := rows |>)
        | Fail e => Fail e
        end) in
  do! when (ma_IsDefault inp) (ignore (exec (fun d =>
        d <| mail_accounts :=
          only_default (ma_UserID inp) (ma_ID inp) now (mail_accounts d) |>))) in
  ret inp.

Definition UpdateMailAccountSyncStatus (accountID : string) (at_ : Z) (lastErr : string) :
    DBM unit :=
  let! now := time_Now in
  exec (fun d => d <| mail_accounts := update_rows (acc_has_id accountID) (fun a => a
    <| ma_LastSyncAt := Some at_ |> <| ma_LastError := nullStringValue (Some lastErr) |>
    <| ma_Status := if negb (String.eqb (TrimSpace lastErr) "") then "error" else "active" |>
    <| ma_UpdatedAt := now |>) (mail_accounts d) |>).

Definition UpdateMailAccount (inp : MailAccount) : DBM MailAccount :=
  let! now := time_Now in
  let inp := inp <| ma_UpdatedAt := now |>
    <| ma_ProviderType := normalizeStoredMailProviderType (ma_ProviderType inp) |>
    <| ma_AuthKind := normalizeStoredMailAuthKind (ma_AuthKind inp) |>
    <| ma_ConnectionMode := normalizeStoredMailConnectionMode (ma_ConnectionMode inp) |> in
  let p := owned_account (ma_UserID inp) (ma_ID inp) in
  let! n := statement (fun d => Ok (affected p (mail_accounts d),
    d <| mail_accounts := update_rows p (fun a =>
           stored_account inp <| ma_CreatedAt := ma_CreatedAt a |>) (mail_accounts d) |>)) in
  if Nat.eqb n 0 then throw ErrNotFound
  else
    do! when (ma_IsDefault inp) (ignore (exec (fun d =>
          d <| mail_accounts :=
            only_default (ma_UserID inp) (ma_ID inp) now (mail_accounts d) |>))) in
    GetMailAccountByID (ma_UserID inp) (ma_ID inp).

Definition DeleteMailAccount (userID id : string) : DBM unit :=
  let! n := statement (fun d => Ok (affected (owned_account userID id) (mail_accounts d),
    d <| mail_accounts := delete_rows (owned_account userID id) (mail_accounts d) |>)) in
  if Nat.eqb n 0 then throw ErrNotFound else ret tt.

(** The row count is that of the user's accounts, whatever [id] is. *)
Definition SetActiveMailAccount (userID id : string) : DBM unit :=
  let! now := time_Now in
  let! n := statement (fun d => Ok (affected (acc_of userID) (mail_accounts d),
    d <| mail_accounts := only_default userID id now (mail_accounts d) |>)) in
  if Nat.eqb n 0 then throw ErrNotFound else ret tt.
End MailAccounts.
