(* ===== verification/Host.v ===== *)
(** * Host: the configuration and the code the service links against

    [Config] holds the fields of internal/config that the modelled handlers
    read.  [Host] adds to the oracles of [Env] the functions the service calls
    in other modules or that depend on files of the machine: argon2 (from
    golang.org/x/crypto), AES-GCM under the session key, the address parser of
    net/mail, and the time zone database.  [Deployment] says which
    implementations the service was built with. *)

From S2P Require Import Prelude GoStrings Effects GoStd Models.
Local Open Scope Z_scope.

Record Config : Type := mkConfig {
  BaseDomain : string;
  SessionIdleMinutes : Z; SessionAbsoluteHour : Z;
  PasswordMinLength : Z; PasswordMaxLength : Z;
  IMAPHost : string; IMAPPort : Z; IMAPTLS : bool; IMAPStartTLS : bool;
  SMTPHost : string; SMTPPort : Z; SMTPTLS : bool; SMTPStartTLS : bool;
  DovecotAuthMode : string;
  PasswordResetSender : string; PasswordResetFrom : string;
  PasswordResetTokenTTLMinutes : Z;
  PasswordResetPublicEnabled : bool; PasswordResetExternalSenderReady : bool;
  PasswordResetRequireMappedLogin : bool;
  PAMResetHelperEnabled : bool; PAMResetHelperSocket : string;
  PasskeyPasswordlessEnabled : bool; CaptchaEnabled : bool; MailSecEnabled : bool;
  UpdateEnabled : bool; UpdateRequireSignature : bool
}.

#[export] Instance eta_Config : Eta Config := fun c => mkConfig (BaseDomain c)
  (SessionIdleMinutes c) (SessionAbsoluteHour c) (PasswordMinLength c) (PasswordMaxLength c)
  (IMAPHost c) (IMAPPort c) (IMAPTLS c) (IMAPStartTLS c) (SMTPHost c) (SMTPPort c) (SMTPTLS c)
  (SMTPStartTLS c) (DovecotAuthMode c) (PasswordResetSender c) (PasswordResetFrom c)
  (PasswordResetTokenTTLMinutes c) (PasswordResetPublicEnabled c)
  (PasswordResetExternalSenderReady c) (PasswordResetRequireMappedLogin c)
  (PAMResetHelperEnabled c) (PAMResetHelperSocket c) (PasskeyPasswordlessEnabled c)
  (CaptchaEnabled c) (MailSecEnabled c) (UpdateEnabled c) (UpdateRequireSignature c).

Definition SessionIdleDuration (c : Config) : Z := SessionIdleMinutes c * Minute.
Definition SessionAbsoluteDuration (c : Config) : Z := SessionAbsoluteHour c * Hour.

(** The dynamic types the service asks its senders and provisioner about. *)
Inductive SenderKind := LogSender | SMTPSender.
Inductive ProvisionerKind := NoopProvisioner | SQLProvisioner.

Class Deployment : Type := mkDeployment {
  cfg : Config;
  sender : SenderKind;
  provisioner : ProvisionerKind;
  pamResetter : bool      (* whether a resetter was injected *)
}.

Class Host : Type := {
  host_env :: Env;
  argon2_IDKey : string -> list Z -> Z -> Z -> Z -> Z -> list Z;
  gcm_seal : string -> string -> string;       (* nonce, plaintext *)
  gcm_open : string -> option string;
  net_ParseAddress : string -> option string;  (* the Address field *)
  load_location : string -> option string      (* its String() *)
}.

(** * Password: internal/auth and internal/util/crypto.go

    The encoded form of an Argon2id hash, its parser, opaque tokens, and the
    encryption of mail secrets. *)

Definition argonMemory : Z := 32 * 1024.
Definition argonIterations : Z := 2.
Definition argonParallelism : Z := 1.
Definition argonKeyLen : Z := 32.

Definition dollar : Ascii.ascii := ascii_of 36.

(** ** [fmt.Sscanf(s, "m=%d,t=%d,p=%d", ...)] *)

(** A literal of the format. *)
Fixpoint scan_literal (lit l : list Z) : option (list Z) :=
  match lit, l with
  | [], _ => Some l
  | c :: lit', d :: l' => if c =? d then scan_literal lit' l' else None
  | _ :: _, [] => None
  end.

(** [%d] into an unsigned integer below [bound]: blanks are skipped, a newline
    among them is an error, and at least one digit is needed. *)
Definition scan_uint (bound : Z) (l : list Z) : option (Z * list Z) :=
  let l' := trim_left l in
  let skipped := take (length l - length l') l in
  if existsb (Z.eqb 10) skipped then None
  else match l' with
       | d :: _ =>
           if is_digit d
           then let (n, rest) := take_digits 0 l' in
                if n <? bound then Some (n, rest) else None
           else None
       | [] => None
       end.

Definition scan_params (s : string) : option (Z * Z * Z) :=
  l ← scan_literal (bytes "m=") (bytes s);
  '(mem, l) ← scan_uint (2 ^ 32) l;
  l ← scan_literal (bytes ",t=") l;
  '(it, l) ← scan_uint (2 ^ 32) l;
  l ← scan_literal (bytes ",p=") l;
  '(par, _) ← scan_uint (2 ^ 8) l;
  Some (mem, it, par).

Section Password.
Context {host : Host}.

(** The text [HashPassword] returns for a salt. *)
Definition encode_hash (salt hash : list Z) : string :=
  "$argon2id$v=19$m=" +:+ itoa argonMemory +:+ ",t=" +:+ itoa argonIterations +:+ ",p="
  +:+ itoa argonParallelism +:+ "$" +:+ base64_encode salt +:+ "$" +:+ base64_encode hash.

Definition HashPassword (pw : string) : DBM string :=
  let! salt := rand_Read in
  ret (encode_hash (bytes salt)
    (argon2_IDKey pw (bytes salt) argonIterations argonMemory argonParallelism argonKeyLen)).

Definition VerifyPassword (encoded pw : string) : bool :=
  match Split encoded dollar with
  | [_; alg; _; params; salt64; hash64] =>
      if negb (String.eqb alg "argon2id") then false
      else match scan_params params, base64_decode salt64, base64_decode hash64 with
           | Some (mem, it, par), Some salt, Some hash =>
               let other := argon2_IDKey pw salt it mem par (Z.of_nat (length hash)) in
               bool_decide (hash = other)
           | _, _, _ => false
           end
  | _ => false
  end.

(** The token shown to the user, and what is stored of it. *)
Definition NewOpaqueToken : DBM (string * string) :=
  let! buf := rand_Read in
  let raw := base64url_encode (bytes buf) in
  ret (raw, sha256_hex raw).

Definition EncryptString (plaintext : string) : DBM string :=
  let! nonce := rand_Read in
  ret (gcm_seal nonce plaintext).

Definition DecryptString (token : string) : Res string :=
  match gcm_open token with
  | Some plain => Ok plain
  | None => Fail (ErrText "invalid encrypted payload")
  end.

(** ** The encoded hash verifies exactly the passwords with that digest *)

Lemma split_no_sep sep l : ~ In sep l -> split_ascii sep l = [l].
Proof.
  induction l as [|a l IH]; simpl; [done|]. intros H.
  destruct (Ascii.eqb_spec a sep); [tauto|]. by rewrite IH by tauto.
Qed.

Lemma split_at_sep sep l k :
  ~ In sep l -> split_ascii sep (l ++ sep :: k) = l :: split_ascii sep k.
Proof.
  induction l as [|a l IH]; simpl; intros H.
  - by rewrite Ascii.eqb_refl.
  - destruct (Ascii.eqb_spec a sep); [tauto|]. by rewrite IH by tauto.
Qed.

Lemma list_ascii_app s t :
  String.list_ascii_of_string (s +:+ t)
  = String.list_ascii_of_string s ++ String.list_ascii_of_string t.
Proof. induction s; simpl; [done|]. by f_equal. Qed.

Lemma base64_no_dollar l :
  is_bytes l -> ~ In dollar (String.list_ascii_of_string (base64_encode l)).
Proof.
  intros Hl Hin. apply (in_map byte_of) in Hin.
  change (map byte_of (String.list_ascii_of_string (base64_encode l)))
    with (bytes (base64_encode l)) in Hin.
  pose proof (b64_encode_alphabet l Hl) as Ha. unfold base64_encode in Hin.
  rewrite bytes_of_bytes in Hin by by apply alphabet_bytes.
  rewrite List.Forall_forall in Ha. specialize (Ha _ Hin).
  unfold b64_alphabet in Ha. change (byte_of dollar) with 36 in Ha. lia.
Qed.

Lemma encode_hash_chars salt hash :
  String.list_ascii_of_string (encode_hash salt hash)
  = [] ++ dollar :: String.list_ascii_of_string "argon2id"
    ++ dollar :: String.list_ascii_of_string "v=19"
    ++ dollar :: String.list_ascii_of_string "m=32768,t=2,p=1"
    ++ dollar :: String.list_ascii_of_string (base64_encode salt)
    ++ dollar :: String.list_ascii_of_string (base64_encode hash).
Proof.
  unfold encode_hash. rewrite !list_ascii_app.
  generalize (String.list_ascii_of_string (base64_encode salt)) as s.
  generalize (String.list_ascii_of_string (base64_encode hash)) as h.
  intros h s. vm_compute. reflexivity.
Qed.

Lemma split_encoded salt hash :
  is_bytes salt -> is_bytes hash ->
  Split (encode_hash salt hash) dollar
  = [""; "argon2id"; "v=19"; "m=32768,t=2,p=1"; base64_encode salt; base64_encode hash].
Proof.
  intros Hs Hh. unfold Split. rewrite encode_hash_chars.
  do 4 (rewrite split_at_sep; [|vm_compute; intuition discriminate]).
  rewrite split_at_sep by by apply base64_no_dollar.
  rewrite split_no_sep by by apply base64_no_dollar.
  cbn [map]. by rewrite !String.string_of_list_ascii_of_string.
Qed.

Lemma scan_params_encoded : scan_params "m=32768,t=2,p=1" = Some (32768, 2, 1).
Proof. vm_compute. reflexivity. Qed.

(** A stored hash accepts a password exactly when Argon2 maps it, under the
    stored salt, to the stored digest. *)
Lemma VerifyPassword_encoded salt hash pw :
  is_bytes salt -> is_bytes hash ->
  VerifyPassword (encode_hash salt hash) pw
  = bool_decide (hash = argon2_IDKey pw salt 2 32768 1 (Z.of_nat (length hash))).
Proof.
  intros Hs Hh. unfold VerifyPassword. rewrite split_encoded by done.
  rewrite scan_params_encoded, !base64_roundtrip by done. done.
Qed.
(** Argon2 returns as many bytes as it is asked for. *)
Definition argon2_lengths : Prop :=
  forall pw salt it mem par len, 0 <= len ->
    is_bytes (argon2_IDKey pw salt it mem par len)
    /\ Z.of_nat (length (argon2_IDKey pw salt it mem par len)) = len.

End Password.
