(* ===== verification/FeatureFlags.v ===== *)
(** * FeatureFlags: internal/service/feature_flags.go

    A flag has a default (from the configuration, or from the setup record)
    and, when editable, an override in the settings table. *)

From S2P Require Import Prelude GoStrings Effects GoStd Models Users Sessions Mfa Host.

(** Where [DefaultValue] of a catalogue entry comes from. *)
Inductive FlagDefault := FromConfig (enabled : bool) | FromSetupRecord.

Record featureFlagDef : Type := mkFlagDef {
  fd_ID : string; fd_Name : string; fd_Description : string; fd_Category : string;
  fd_Editable : bool; fd_RequiresRestart : bool; fd_Note : string;
  fd_SettingKey : string; fd_Default : FlagDefault
}.

Record FeatureFlagState : Type := mkFlagState {
  fs_ID : string; fs_Name : string; fs_Description : string; fs_Category : string;
  fs_Enabled : bool; fs_DefaultEnabled : bool; fs_Source : string;
  fs_Editable : bool; fs_RequiresRestart : bool; fs_Note : string
}.

Definition FeatureFlagPasskeySignIn : string := "passkey_sign_in".
Definition FeatureFlagAdminMFARequired : string := "admin_mfa_required".
Definition FeatureFlagPublicPasswordReset : string := "public_password_reset".
Definition featureFlagSettingPasskeySignIn : string := "feature_flag.passkey_sign_in".
Definition featureFlagSettingPublicPasswordReset : string := "feature_flag.public_password_reset".
Definition featureFlagSettingAdminMFARequired : string := "enforce_admin_mfa".

Definition parseFeatureFlagBool (raw : string) : option bool :=
  let v := fold_trim raw in
  if existsb (String.eqb v) ["1"; "true"; "yes"; "on"; "enabled"] then Some true
  else if existsb (String.eqb v) ["0"; "false"; "no"; "off"; "disabled"] then Some false
  else None.

Definition boolToFeatureFlagSetting (v : bool) : string := if v then "1" else "0".

Section FeatureFlags.
Context {host : Host} {dep : Deployment}.

Definition managed (id name description category : string) (enabled : bool) : featureFlagDef :=
  mkFlagDef id name description category false true "Managed by server configuration." ""
    (FromConfig enabled).

Definition featureFlagCatalog : list featureFlagDef := [
  mkFlagDef FeatureFlagPasskeySignIn "Passkey Sign-In"
    "Allow passkeys as a primary sign-in method." "Authentication" true false
    "When disabled, users can still enroll passkeys for MFA."
    featureFlagSettingPasskeySignIn (FromConfig (PasskeyPasswordlessEnabled cfg));
  mkFlagDef FeatureFlagAdminMFARequired "Require MFA For Admins"
    "Require administrators to complete MFA setup and verification." "Security" true false
    "Disabling this is not recommended outside isolated development environments."
    featureFlagSettingAdminMFARequired FromSetupRecord;
  mkFlagDef FeatureFlagPublicPasswordReset "Public Password Reset"
    "Allow unauthenticated users to request password reset tokens." "Authentication" true false
    "Availability still depends on sender health and PAM helper requirements."
    featureFlagSettingPublicPasswordReset (FromConfig (PasswordResetPublicEnabled cfg));
  managed "registration_captcha_required" "Registration CAPTCHA Required"
    "Require CAPTCHA verification for new account registration." "Security"
    (CaptchaEnabled cfg);
  managed "mailsec_service_enabled" "Mail Security Service Enabled"
    "Enable mail security runtime integrations used by passkeys and cryptographic flows."
    "System" (MailSecEnabled cfg);
  managed "software_update_enabled" "Software Update Panel Enabled"
    "Enable one-click update checks and apply actions in Admin." "System" (UpdateEnabled cfg);
  managed "signed_updates_required" "Require Signed Updates"
    "Require signature verification for update artifacts." "System"
    (UpdateRequireSignature cfg);
  managed "pam_reset_helper_enabled" "PAM Reset Helper Enabled"
    "Allow PAM-mode password reset through privileged helper service." "System"
    (PAMResetHelperEnabled cfg);
  managed "mapped_login_required_for_password_reset" "Mapped Login Required For Password Reset"
    "Require mapped mailbox login identity for password reset in PAM mode." "Security"
    (PasswordResetRequireMappedLogin cfg)
].

Definition findFeatureFlagDef (id : string) : option featureFlagDef :=
  let needle := fold_trim id in
  List.find (fun def => EqualFold (fd_ID def) needle) featureFlagCatalog.

Definition DefaultValue (def : featureFlagDef) : DBM bool :=
  match fd_Default def with
  | FromConfig b => ret b
  | FromSetupRecord =>
      let! raw := GetSetting "setup_completed_at" in
      ret match raw with
          | Some v => negb (String.eqb (TrimSpace v) "")
          | None => false
          end
  end.

Definition has_override (def : featureFlagDef) : bool :=
  fd_Editable def && negb (String.eqb (TrimSpace (fd_SettingKey def)) "").

Definition resolveFeatureFlagState (def : featureFlagDef) : DBM FeatureFlagState :=
  let! defaultEnabled := DefaultValue def in
  let! (resolved, source) :=
    if has_override def then
      let! raw := GetSetting (fd_SettingKey def) in
      ret match raw with
          | Some v => match parseFeatureFlagBool v with
                      | Some parsed => (parsed, "override")
                      | None => (defaultEnabled, "default")
                      end
          | None => (defaultEnabled, "default")
          end
    else ret (defaultEnabled, "default") in
  ret (mkFlagState (fd_ID def) (fd_Name def) (fd_Description def) (fd_Category def)
         resolved defaultEnabled source (fd_Editable def) (fd_RequiresRestart def)
         (fd_Note def)).

Fixpoint resolve_all (defs : list featureFlagDef) : DBM (list FeatureFlagState) :=
  match defs with
  | [] => ret []
  | def :: defs' =>
      let! item := resolveFeatureFlagState def in
      let! rest := resolve_all defs' in
      ret (item :: rest)
  end.

Definition ListFeatureFlags : DBM (list FeatureFlagState) := resolve_all featureFlagCatalog.

Definition FeatureFlagEnabled (id : string) : DBM bool :=
  match findFeatureFlagDef id with
  | None => throw ErrFeatureFlagNotFound
  | Some def => let! item := resolveFeatureFlagState def in ret (fs_Enabled item)
  end.

Definition SetFeatureFlag (actorUserID id : string) (enabled : bool) : DBM FeatureFlagState :=
  match findFeatureFlagDef id with
  | None => throw ErrFeatureFlagNotFound
  | Some def =>
      if negb (has_override def) then throw ErrFeatureFlagReadOnly
      else
        do! UpsertSetting (fd_SettingKey def) (boolToFeatureFlagSetting enabled) in
        let meta := json_object [("flag_id", JString (fd_ID def)); ("enabled", JBool enabled);
                                 ("source", JString "override")] in
        do! ignore (InsertAudit (TrimSpace actorUserID) "feature_flag.update" (fd_ID def) meta) in
        resolveFeatureFlagState def
  end.

Definition ResetFeatureFlag (actorUserID id : string) : DBM FeatureFlagState :=
  match findFeatureFlagDef id with
  | None => throw ErrFeatureFlagNotFound
  | Some def =>
      if negb (has_override def) then throw ErrFeatureFlagReadOnly
      else
        do! DeleteSetting (fd_SettingKey def) in
        let meta := json_object [("flag_id", JString (fd_ID def));
                                 ("source", JString "default")] in
        do! ignore (InsertAudit (TrimSpace actorUserID) "feature_flag.reset" (fd_ID def) meta) in
        resolveFeatureFlagState def
  end.

Definition PasskeySignInEnabled : DBM bool := FeatureFlagEnabled FeatureFlagPasskeySignIn.
Definition AdminMFARequired : DBM bool := FeatureFlagEnabled FeatureFlagAdminMFARequired.
Definition PublicPasswordResetEnabled : DBM bool :=
  FeatureFlagEnabled FeatureFlagPublicPasswordReset.
End FeatureFlags.

(** * MfaStage: internal/service/mfa_stage.go

    Which step of multi-factor authentication a signed-in user is at. *)

Local Open Scope Z_scope.

Inductive AuthStage := AuthStageAuthenticated | AuthStageMFARequired | AuthStageMFASetupNeeded.

#[export] Instance AuthStage_eq_dec : EqDecision AuthStage.
Proof. solve_decision. Defined.

Record MFAStage : Type := mkMFAStage {
  st_AuthStage : AuthStage; st_MFARequired : bool; st_MFASetupRequired : bool;
  st_MFASetupMethod : string; st_MFASetupStep : string; st_MFAEnrolled : bool;
  st_LegacyMFAPrompt : bool; st_MFAPreference : string
}.

Definition NormalizeMFAPreference : string -> string := normalizeMFAPreference.

(** The preference an enforced administrator is held to. *)
Definition effective_preference (enforced : bool) (status : MFAStatus) (pref : string) : string :=
  if enforced && String.eqb pref "none" then
    if TOTPEnabled status then "totp"
    else if 0 <? WebAuthnCount status then "webauthn"
    else "totp"
  else pref.

(** The decision, from the status read, the preference in force and the
    session's verification time. *)
Definition decide_stage (status : MFAStatus) (pref : string) (user : User)
    (verified : bool) : MFAStage :=
  let hasEnabledTOTP := TOTPEnabled status in
  let hasWebAuthn := 0 <? WebAuthnCount status in
  let mfaEnrolled := hasEnabledTOTP || hasWebAuthn in
  let '(setupRequired, setupMethod, setupStep) :=
    if String.eqb pref "totp" then
      if negb hasEnabledTOTP then (true, "totp", "method") else (false, "", "")
    else if String.eqb pref "webauthn" then
      if negb hasWebAuthn then (true, "webauthn", "method") else (false, "", "")
    else (false, "", "") in
  let '(setupRequired, setupMethod, setupStep) :=
    if negb setupRequired && (String.eqb pref "totp" || String.eqb pref "webauthn")
       && negb (u_MFABackupCompleted user)
    then (true, pref, "backup") else (setupRequired, setupMethod, setupStep) in
  let mfaRequired := negb setupRequired && mfaEnrolled && negb verified in
  mkMFAStage
    (if setupRequired then AuthStageMFASetupNeeded
     else if mfaRequired then AuthStageMFARequired else AuthStageAuthenticated)
    mfaRequired setupRequired setupMethod setupStep mfaEnrolled
    (u_LegacyMFAPromptPending user) pref.

Section MfaStage.
Context {host : Host} {dep : Deployment}.

(** [sess] is [None] for a nil session. *)
Definition ResolveMFAStage (user : User) (sess : option Session) : DBM MFAStage :=
  let! mfaStatus := GetMFAStatus (u_ID user) in
  let pref := NormalizeMFAPreference (u_MFAPreference user) in
  let! enforced := if EqualFold (TrimSpace (u_Role user)) "admin"
                   then AdminMFARequired else ret false in
  let verified := match sess with
                  | Some s => match s_MFAVerifiedAt s with Some _ => true | None => false end
                  | None => false
                  end in
  ret (decide_stage mfaStatus (effective_preference enforced mfaStatus pref) user verified).
End MfaStage.
