(* ===== verification/Identity.v ===== *)
(** * Identity: the pure normalisers and checks of internal/service/service.go *)

From S2P Require Import Prelude Unicode GoStrings Effects GoStd Models Host.
Local Open Scope Z_scope.

(** ** Instance modes *)

Definition InstanceModeLocalStack : string := "local_stack".
Definition InstanceModeExternalAccounts : string := "external_accounts".
Definition InstanceModeHybrid : string := "hybrid".

Definition NormalizeInstanceMode (raw : string) : string :=
  let v := fold_trim raw in
  if String.eqb v InstanceModeExternalAccounts then InstanceModeExternalAccounts
  else if String.eqb v InstanceModeHybrid then InstanceModeHybrid
  else InstanceModeLocalStack.

Definition InstanceModeUsesLocalMail (mode : string) : bool :=
  let m := NormalizeInstanceMode mode in
  String.eqb m InstanceModeLocalStack || String.eqb m InstanceModeHybrid.

Definition InstanceModeUsesExternalMail (mode : string) : bool :=
  let m := NormalizeInstanceMode mode in
  String.eqb m InstanceModeExternalAccounts || String.eqb m InstanceModeHybrid.

Definition is_external (mode : string) : bool :=
  String.eqb (NormalizeInstanceMode mode) InstanceModeExternalAccounts.

Definition instanceModeAdminIdentifierKind (mode : string) : string :=
  if is_external mode then "username" else "email".
Definition instanceModeAdminIdentifierLabel (mode : string) : string :=
  if is_external mode then "Admin username" else "Admin email".
Definition instanceModeLoginIdentifierLabel (mode : string) : string :=
  if is_external mode then "Username" else "Email".

(** ** Domains and administrator names *)

Definition normalizeDomain (v : string) : string :=
  let v := fold_trim v in
  let v := TrimPrefix v "https://" in
  let v := TrimPrefix v "http://" in
  let v := TrimSuffix v "/" in
  TrimSuffix v ".".

Definition is_alnum (b : Z) : bool :=
  ((97 <=? b) && (b <=? 122)) || ((48 <=? b) && (b <=? 57)).

(** One label: 1 to 63 of [a-z0-9-], with a letter or digit at both ends. *)
Definition domain_label (w : string) : bool :=
  let l := bytes w in
  match l, rev l with
  | a :: _, z :: _ =>
      is_alnum a && is_alnum z && (Z.of_nat (length l) <=? 63)
      && forallb (fun b => is_alnum b || (b =? 45)) l
  | _, _ => false
  end.

(** [domainRx.MatchString]: at least two labels. *)
Definition domainRx_match (s : string) : bool :=
  let labels := Split s (ascii_of 46) in
  (2 <=? Z.of_nat (length labels)) && forallb domain_label labels.

Definition defaultAdminEmail (domain : string) : string :=
  if String.eqb domain "" then "webmaster@example.com" else "webmaster@" +:+ domain.

Definition defaultAdminIdentifier (mode domain : string) : string :=
  if is_external mode then "admin" else defaultAdminEmail domain.

Definition normalizeExternalAdminIdentifier (raw : string) : Res string :=
  let identifier := fold_trim raw in
  let identifier := if String.eqb identifier "" then "admin" else identifier in
  let n := Z.of_nat (length (runes identifier)) in
  if n <? 3 then Fail (ErrText "admin username must be at least 3 characters")
  else if 64 <? n then Fail (ErrText "admin username must be at most 64 characters")
  else if existsb (fun r => rune_is_control r || rune_is_space r) (runes identifier)
  then Fail (ErrText "admin username cannot contain spaces")
  else Ok identifier.

(** [normalizePreferenceLocaleTag]: [_] becomes [-]; the language part is lower
    case, a two-byte part after it upper case, the others lower case. *)
Definition locale_part (first : bool) (part0 : string) : string :=
  let part := TrimSpace part0 in
  if String.eqb part "" then part0
  else if first then ToLower part
  else if go_len part =? 2 then ToUpper part
  else ToLower part.

Definition normalizePreferenceLocaleTag (raw : string) : string :=
  let value := TrimSpace (ReplaceByte raw (ascii_of 95) (ascii_of 45)) in
  if String.eqb value "" then ""
  else match Split value (ascii_of 45) with
       | [] => ""
       | p :: ps => Join "-" (locale_part true p :: map (locale_part false) ps)
       end.

Definition normalizePasswordResetSender (raw : string) : string :=
  let v := TrimSpace (ToLower raw) in
  if String.eqb v "log" then "log" else "smtp".

(** [notify.PasswordResetFromAddress]. *)
Definition PasswordResetFromAddress (c : Config) : string :=
  let candidate := fold_trim (PasswordResetFrom c) in
  if String.eqb candidate "" || HasSuffix candidate "@example.com" then
    let domain := fold_trim (BaseDomain c) in
    let domain := if String.eqb domain "" then "example.com" else domain in
    let domain := if HasPrefix domain "mail." && (go_len "mail." <? go_len domain)
                  then TrimPrefix domain "mail." else domain in
    "no-reply@" +:+ domain
  else candidate.

(** ** Addresses *)

Section Addresses.
Context {host : Host}.

Definition normalizeRecoveryEmail (v : string) : Res string :=
  let trimmed := TrimSpace v in
  if String.eqb trimmed "" then Fail ErrInvalidRecoveryEmail
  else match net_ParseAddress trimmed with
       | None => Fail ErrInvalidRecoveryEmail
       | Some parsed =>
           let addr := fold_trim parsed in
           if String.eqb addr "" || (254 <? go_len addr) then Fail ErrInvalidRecoveryEmail
           else Ok addr
       end.

Definition distinct_from_login (loginEmail addr : string) : Res string :=
  let login := fold_trim loginEmail in
  if negb (String.eqb login "") && EqualFold addr login then Fail ErrRecoveryEmailMatchesLogin
  else Ok addr.

Definition normalizeDistinctRecoveryEmail (loginEmail recoveryEmail : string) : Res string :=
  if String.eqb (TrimSpace recoveryEmail) "" then Fail ErrRecoveryEmailRequired
  else match normalizeRecoveryEmail recoveryEmail with
       | Fail e => Fail e
       | Ok addr => distinct_from_login loginEmail addr
       end.

Definition normalizeDistinctRecoveryEmailOptional (loginEmail recoveryEmail : string) :
    Res string :=
  if String.eqb (TrimSpace recoveryEmail) "" then Ok ""
  else match normalizeRecoveryEmail recoveryEmail with
       | Fail e => Fail e
       | Ok addr => distinct_from_login loginEmail addr
       end.

Definition RecoveryEmailNeedsSetup (loginEmail : string) (recoveryEmail : option string) :
    bool :=
  match recoveryEmail with
  | None => true
  | Some raw =>
      if String.eqb (TrimSpace raw) "" then true
      else match normalizeRecoveryEmail raw with
           | Fail _ => true
           | Ok addr =>
               let login := fold_trim loginEmail in
               String.eqb login "" || EqualFold addr login
           end
  end.
End Addresses.

Definition normalizePreferenceTimezone {host : Host} (raw : string) : string :=
  let value := TrimSpace raw in
  if String.eqb value "" then "" else default "" (load_location value).

(** ** Mail identities *)

Definition MailAuthLogin (u : User) : string :=
  match u_MailLogin u with
  | Some l => if negb (String.eqb (TrimSpace l) "") then TrimSpace l else TrimSpace (u_Email u)
  | None => TrimSpace (u_Email u)
  end.

Definition MailIdentity (u : User) : string :=
  let email := TrimSpace (u_Email u) in
  if negb (String.eqb email "") then email else MailAuthLogin u.

(** The [add] closure of [pamLoginCandidates]: candidates kept so far, in order;
    the [added] map holds their lowercase forms. *)
Definition add_candidate (out : list string) (v : string) : list string :=
  let trimmed := TrimSpace v in
  if String.eqb trimmed "" then out
  else if existsb (fun c => String.eqb (ToLower c) (ToLower trimmed)) out then out
  else out ++ [trimmed].

(** [email[:at]] when an [@] is at a positive position. *)
Definition local_part (email : string) : option string :=
  match Index email "@" with
  | Some (S at_) => Some (String.substring 0 (S at_) email)
  | _ => None
  end.

Definition pamLoginCandidates (explicitLogin storedLogin email : string) : list string :=
  let out := add_candidate [] explicitLogin in
  let out := add_candidate out storedLogin in
  let out := add_candidate out email in
  match local_part email with
  | Some l => add_candidate out l
  | None => out
  end.

Definition connectivityHints : list string :=
  ["dial"; "connect"; "timeout"; "i/o timeout"; "no such host"; "connection refused"; "tls";
   "certificate"; "eof"; "network is unreachable"].

Definition isMailConnectivityError (e : GoErr) : bool :=
  let m := ToLower (err_text e) in existsb (Contains m) connectivityHints.

Definition passwordResetSMTPReason (e : GoErr) : string :=
  if errors_Is e ErrSMTPSenderRejected then "smtp_sender_rejected"
  else if errors_Is e ErrSMTPAuthFailed then "smtp_auth_failed"
  else
    let msg := fold_trim (err_text e) in
    if existsb (Contains msg)
         ["dial tcp"; "connection refused"; "no such host"; "i/o timeout";
          "network is unreachable"]
    then "smtp_unreachable" else "smtp_probe_failed".

(** ** Passwords *)

Definition lower_class (r : Z) : bool := (97 <=? r) && (r <=? 122).
Definition upper_class (r : Z) : bool := (65 <=? r) && (r <=? 90).
Definition digit_class (r : Z) : bool := (48 <=? r) && (r <=? 57).
Definition symbol_class (r : Z) : bool :=
  ((33 <=? r) && (r <=? 47)) || ((58 <=? r) && (r <=? 64)) || ((91 <=? r) && (r <=? 96))
  || ((123 <=? r) && (r <=? 126)).

Definition count_classes (pw : string) : nat :=
  length (List.filter (fun cls => existsb cls (runes pw))
            [lower_class; upper_class; digit_class; symbol_class]).

Definition ValidatePassword {dep : Deployment} (pw0 : string) : Res unit :=
  let pw := TrimSpace pw0 in
  if String.eqb pw "" then Fail (ErrText "password is required")
  else if go_len pw <? PasswordMinLength cfg
  then Fail (ErrText ("password must be at least " +:+ itoa (PasswordMinLength cfg)
                      +:+ " characters"))
  else if PasswordMaxLength cfg <? go_len pw
  then Fail (ErrText ("password must be at most " +:+ itoa (PasswordMaxLength cfg)
                      +:+ " characters"))
  else if (count_classes pw <? 3)%nat
  then Fail (ErrText ("password must include at least 3 character classes "
                      +:+ "(lower/upper/number/symbol)"))
  else Ok tt.

Definition usesPAMAuth {dep : Deployment} : bool :=
  EqualFold (TrimSpace (DovecotAuthMode cfg)) "pam".

Definition hashUA (ua : string) : string := sha256_hex ua.
