(* ===== verification/MailModels.v ===== *)
(** * MailModels: drafts, queued sends, senders and indexed messages

    The structs of internal/models/v2.go and internal/mail/types.go the sending
    of mail is about, and the tables they are stored in.  [MailDB] adds these
    tables to the [Database] of accounts and sessions, and keeps the calls made
    to mail servers, oldest first: what [mail.Client] answers is an oracle of
    the position in that list.  A struct is also the row of its table: NULL is
    [None], times are instants, a column no modelled query reads is left out. *)

From S2P Require Import Prelude GoStrings Effects GoStd Models Mfa.
Local Open Scope Z_scope.

Record Draft : Type := mkDraft {
  dr_ID : string; dr_UserID : string; dr_AccountID : string; dr_IdentityID : string;
  dr_SenderProfileID : string; dr_ComposeMode : string; dr_ContextMessageID : string;
  dr_ContextAccountID : string; dr_FromMode : string; dr_FromManual : string; dr_ClientStateJSON
  : string; dr_ToValue : string; dr_CCValue : string; dr_BCCValue : string; dr_Subject : string;
  dr_BodyText : string; dr_BodyHTML : string; dr_AttachmentsJSON : string; dr_CryptoOptions :
  string; dr_SendMode : string; dr_ScheduledFor : Z; dr_Status : string; dr_LastSendError :
  string; dr_CreatedAt : Z; dr_UpdatedAt : Z
}.
#[export] Instance eta_Draft : Eta Draft := fun r =>
  mkDraft (dr_ID r) (dr_UserID r) (dr_AccountID r) (dr_IdentityID r) (dr_SenderProfileID r)
     (dr_ComposeMode r) (dr_ContextMessageID r) (dr_ContextAccountID r) (dr_FromMode r)
     (dr_FromManual r) (dr_ClientStateJSON r) (dr_ToValue r) (dr_CCValue r) (dr_BCCValue r)
     (dr_Subject r) (dr_BodyText r) (dr_BodyHTML r) (dr_AttachmentsJSON r) (dr_CryptoOptions r)
     (dr_SendMode r) (dr_ScheduledFor r) (dr_Status r) (dr_LastSendError r) (dr_CreatedAt r)
     (dr_UpdatedAt r).

Record DraftVersion : Type := mkDraftVersion {
  dv_ID : string; dv_DraftID : string; dv_VersionNo : Z; dv_SnapshotJSON : string; dv_CreatedAt
  : Z
}.
#[export] Instance eta_DraftVersion : Eta DraftVersion := fun r =>
  mkDraftVersion (dv_ID r) (dv_DraftID r) (dv_VersionNo r) (dv_SnapshotJSON r) (dv_CreatedAt r).

Record DraftAttachment : Type := mkDraftAttachment {
  da_ID : string; da_DraftID : string; da_UserID : string; da_Filename : string; da_ContentType
  : string; da_SizeBytes : Z; da_InlinePart : bool; da_ContentID : string; da_SortOrder : Z;
  da_CreatedAt : Z; da_UpdatedAt : Z; da_Data : list Z
}.
#[export] Instance eta_DraftAttachment : Eta DraftAttachment := fun r =>
  mkDraftAttachment (da_ID r) (da_DraftID r) (da_UserID r) (da_Filename r) (da_ContentType r)
     (da_SizeBytes r) (da_InlinePart r) (da_ContentID r) (da_SortOrder r) (da_CreatedAt r)
     (da_UpdatedAt r) (da_Data r).

(** A row of [scheduled_send_queue]; the scan turns NULL into the zero time and the empty text. *)
Record ScheduledSendQueueItem : Type := mkQueueItem {
  qi_ID : string; qi_DraftID : string; qi_UserID : string; qi_AccountID : string; qi_DueAt : Z;
  qi_State : string; qi_RetryCount : Z; qi_NextRetryAt : option Z; qi_LastError : option string;
  qi_CreatedAt : Z; qi_UpdatedAt : Z
}.
#[export] Instance eta_ScheduledSendQueueItem : Eta ScheduledSendQueueItem := fun r =>
  mkQueueItem (qi_ID r) (qi_DraftID r) (qi_UserID r) (qi_AccountID r) (qi_DueAt r) (qi_State r)
     (qi_RetryCount r) (qi_NextRetryAt r) (qi_LastError r) (qi_CreatedAt r) (qi_UpdatedAt r).

(** [models.MailIdentity] *)
Record MailIdentityRow : Type := mkMailIdentity {
  mi_ID : string; mi_AccountID : string; mi_DisplayName : string; mi_FromEmail : string;
  mi_ReplyTo : string; mi_SignatureText : string; mi_SignatureHTML : string; mi_IsDefault :
  bool; mi_CreatedAt : Z; mi_UpdatedAt : Z
}.
#[export] Instance eta_MailIdentityRow : Eta MailIdentityRow := fun r =>
  mkMailIdentity (mi_ID r) (mi_AccountID r) (mi_DisplayName r) (mi_FromEmail r) (mi_ReplyTo r)
     (mi_SignatureText r) (mi_SignatureHTML r) (mi_IsDefault r) (mi_CreatedAt r) (mi_UpdatedAt
     r).

Record SessionMailProfile : Type := mkSessionProfile {
  sp_ID : string; sp_UserID : string; sp_FromEmail : string; sp_DisplayName : string; sp_ReplyTo
  : string; sp_SignatureText : string; sp_SignatureHTML : string; sp_CreatedAt : Z; sp_UpdatedAt
  : Z
}.
#[export] Instance eta_SessionMailProfile : Eta SessionMailProfile := fun r =>
  mkSessionProfile (sp_ID r) (sp_UserID r) (sp_FromEmail r) (sp_DisplayName r) (sp_ReplyTo r)
     (sp_SignatureText r) (sp_SignatureHTML r) (sp_CreatedAt r) (sp_UpdatedAt r).

Record UserPreferences : Type := mkUserPreferences {
  up_UserID : string; up_Locale : string; up_FormatLocale : string; up_Theme : string;
  up_Density : string; up_LayoutMode : string; up_KeymapJSON : string; up_RemoteImagePolicy :
  string; up_Timezone : string; up_PageSize : Z; up_GroupingMode : string; up_DefaultSenderID :
  string; up_UpdatedAt : Z
}.
#[export] Instance eta_UserPreferences : Eta UserPreferences := fun r =>
  mkUserPreferences (up_UserID r) (up_Locale r) (up_FormatLocale r) (up_Theme r) (up_Density r)
     (up_LayoutMode r) (up_KeymapJSON r) (up_RemoteImagePolicy r) (up_Timezone r) (up_PageSize
     r) (up_GroupingMode r) (up_DefaultSenderID r) (up_UpdatedAt r).

Record SenderProfile : Type := mkSenderProfile {
  pf_ID : string; pf_Kind : string; pf_Name : string; pf_FromEmail : string; pf_ReplyTo :
  string; pf_SignatureText : string; pf_SignatureHTML : string; pf_AccountID : string;
  pf_AccountLabel : string; pf_IsDefault : bool; pf_IsPrimary : bool; pf_CanDelete : bool;
  pf_CanSchedule : bool; pf_Status : string; pf_AccountIsDefault : bool; pf_IsAccountDefault :
  bool
}.
#[export] Instance eta_SenderProfile : Eta SenderProfile := fun r =>
  mkSenderProfile (pf_ID r) (pf_Kind r) (pf_Name r) (pf_FromEmail r) (pf_ReplyTo r)
     (pf_SignatureText r) (pf_SignatureHTML r) (pf_AccountID r) (pf_AccountLabel r)
     (pf_IsDefault r) (pf_IsPrimary r) (pf_CanDelete r) (pf_CanSchedule r) (pf_Status r)
     (pf_AccountIsDefault r) (pf_IsAccountDefault r).

(** A row of [message_index]; the phishing score is the 64 bits of its number. *)
Record IndexedMessage : Type := mkIndexedMessage {
  im_ID : string; im_AccountID : string; im_Mailbox : string; im_UID : Z; im_ThreadID : string;
  im_MessageIDHeader : string; im_InReplyToHeader : string; im_ReferencesHeader : string;
  im_FromValue : string; im_ToValue : string; im_CCValue : string; im_BCCValue : string;
  im_Subject : string; im_Snippet : string; im_BodyText : string; im_BodyHTMLSanitized :
  string; im_RawSource : string; im_Seen : bool; im_Flagged : bool; im_Answered : bool;
  im_Draft : bool; im_HasAttachments : bool; im_Importance : Z; im_DKIMStatus : string;
  im_SPFStatus : string; im_DMARCStatus : string; im_PhishingScore : Z; im_RemoteImagesBlocked
  : bool; im_RemoteImagesAllowed : bool; im_DateHeader : Z; im_InternalDate : Z; im_CreatedAt :
  Z; im_UpdatedAt : Z
}.
#[export] Instance eta_IndexedMessage : Eta IndexedMessage := fun r =>
  mkIndexedMessage (im_ID r) (im_AccountID r) (im_Mailbox r) (im_UID r) (im_ThreadID r)
     (im_MessageIDHeader r) (im_InReplyToHeader r) (im_ReferencesHeader r) (im_FromValue r)
     (im_ToValue r) (im_CCValue r) (im_BCCValue r) (im_Subject r) (im_Snippet r) (im_BodyText
     r) (im_BodyHTMLSanitized r) (im_RawSource r) (im_Seen r) (im_Flagged r) (im_Answered r)
     (im_Draft r) (im_HasAttachments r) (im_Importance r) (im_DKIMStatus r) (im_SPFStatus r)
     (im_DMARCStatus r) (im_PhishingScore r) (im_RemoteImagesBlocked r) (im_RemoteImagesAllowed
     r) (im_DateHeader r) (im_InternalDate r) (im_CreatedAt r) (im_UpdatedAt r).

(** A message of which only what names, shows and flags it is known. *)
Definition plain_message (id accountID mailbox : string) (uid : Z) (threadID messageID inReplyTo
    references from to cc bcc subject snippet body raw : string) (seen flagged answered : bool)
    (date internal updated : Z) : IndexedMessage :=
  mkIndexedMessage id accountID mailbox uid threadID messageID inReplyTo references from to cc bcc
    subject snippet body "" raw seen flagged answered false false 0 "" "" "" 0 false false date
    internal ZeroTime updated.

Record SendAttachment : Type := mkSendAttachment {
  sa_Filename : string; sa_ContentType : string; sa_Data : list Z; sa_Inline : bool;
  sa_ContentID : string
}.
#[export] Instance eta_SendAttachment : Eta SendAttachment := fun r =>
  mkSendAttachment (sa_Filename r) (sa_ContentType r) (sa_Data r) (sa_Inline r) (sa_ContentID
     r).

Record SendRequest : Type := mkSendRequest {
  sr_From : string; sr_HeaderFromName : string; sr_HeaderFromEmail : string; sr_EnvelopeFrom :
  string; sr_ReplyTo : string; sr_To : list string; sr_CC : list string; sr_BCC : list string;
  sr_Subject : string; sr_Body : string; sr_BodyHTML : string; sr_InReplyToID : string;
  sr_References : list string; sr_MessageID : string; sr_Attachments : list SendAttachment;
  sr_SentMailbox : string
}.
#[export] Instance eta_SendRequest : Eta SendRequest := fun r =>
  mkSendRequest (sr_From r) (sr_HeaderFromName r) (sr_HeaderFromEmail r) (sr_EnvelopeFrom r)
     (sr_ReplyTo r) (sr_To r) (sr_CC r) (sr_BCC r) (sr_Subject r) (sr_Body r) (sr_BodyHTML r)
     (sr_InReplyToID r) (sr_References r) (sr_MessageID r) (sr_Attachments r) (sr_SentMailbox
     r).

(** [mail.Message], the fields a reply is built from. *)
Record LiveMessage : Type := mkLiveMessage {
  lm_MessageID : string; lm_InReplyTo : string; lm_References : list string
}.

(** ** Calls of [mail.Client] *)

Inductive MailCall : Type :=
| CallSend (login password : string) (req : SendRequest)
| CallUpdateFlags (login password id : string) (add : list string)
| CallGetMessage (login password id : string).

(** What the servers answer, by the position of the call. *)
Class MailServers : Type := {
  mail_error : nat -> MailCall -> option GoErr;
  mail_message : nat -> MailCall -> LiveMessage
}.

Record MailDB : Type := mkMailDB {
  m_base : Database; m_drafts : list Draft; m_versions : list DraftVersion; m_attachments : list
  DraftAttachment; m_queue : list ScheduledSendQueueItem; m_identities : list MailIdentityRow;
  m_profiles : list SessionMailProfile; m_preferences : list UserPreferences; m_messages : list
  IndexedMessage; m_calls : list MailCall
}.
#[export] Instance eta_MailDB : Eta MailDB := fun r =>
  mkMailDB (m_base r) (m_drafts r) (m_versions r) (m_attachments r) (m_queue r) (m_identities r)
     (m_profiles r) (m_preferences r) (m_messages r) (m_calls r).

Abbreviation MDB := (M MailDB).

(** A handler of the account tables, run on the larger database. *)
Definition on_base {A} (m : DBM A) : MDB A := fun w =>
  let '(mkWorld d fs t u tr) := w in
  let '(r, mkWorld b fs' t' u' tr') := m (mkWorld (m_base d) fs t u tr) in
  (r, mkWorld (d <| m_base := b |>) fs' t' u' tr').

Definition client_call {servers : MailServers} (c : MailCall) : MDB nat := fun w =>
  let n := length (m_calls (w_db w)) in
  (match mail_error n c with None => Ok n | Some e => Fail e end,
   w <| w_db := w_db w <| m_calls := m_calls (w_db w) ++ [c] |> |>).

(** An [UPDATE] or [DELETE] whose handler answers [ErrNotFound] for no rows. *)
Definition found (m : MDB nat) : MDB unit :=
  let! n := m in if Nat.eqb n 0 then throw ErrNotFound else ret tt.

(** [nullTimeValue] and the scan of a nullable time. *)
Definition null_time (t : Z) : option Z := if IsZero t then None else Some t.
Definition time_or_zero (t : option Z) : Z := default ZeroTime t.

(** * Campaigns, their data: campaigns, their recipients and what is known of them

    The structs of internal/models/outbound.go and the tables they are stored
    in (migrations 035 to 042), with the parts of contacts and reply funnels
    that choosing a sender reads.  A struct is also the row of its table: a
    NULL text is empty and a NULL time is [ZeroTime], as the scans make them and
    [nullTimeValue] and [nullableTrimmedString] store them; the fields joined
    from other tables are filled when a row is read.  A [float64] confidence is
    kept in hundredths. *)

Record OutboundCampaign : Type := mkCampaign {
  oc_ID : string; oc_UserID : string; oc_Name : string; oc_Status : string; oc_GoalKind :
  string; oc_PlaybookKey : string; oc_CampaignMode : string; oc_AudienceSourceKind : string;
  oc_AudienceSourceRef : string; oc_SenderPolicyKind : string; oc_SenderPolicyRef : string;
  oc_ReplyPolicyJSON : string; oc_SuppressionPolicyJSON : string; oc_SchedulePolicyJSON :
  string; oc_CompliancePolicyJSON : string; oc_GovernancePolicyJSON : string; oc_CreatedAt : Z;
  oc_UpdatedAt : Z; oc_LaunchedAt : Z; oc_CompletedAt : Z; oc_EnrollmentCount : Z; oc_SentCount
  : Z; oc_RepliedCount : Z; oc_PositiveCount : Z; oc_NegativeCount : Z; oc_PausedCount : Z;
  oc_BouncedCount : Z; oc_UnsubscribedCount : Z; oc_WaitingHumanCount : Z
}.
#[export] Instance eta_OutboundCampaign : Eta OutboundCampaign := fun r =>
  mkCampaign (oc_ID r) (oc_UserID r) (oc_Name r) (oc_Status r) (oc_GoalKind r) (oc_PlaybookKey
     r) (oc_CampaignMode r) (oc_AudienceSourceKind r) (oc_AudienceSourceRef r)
     (oc_SenderPolicyKind r) (oc_SenderPolicyRef r) (oc_ReplyPolicyJSON r)
     (oc_SuppressionPolicyJSON r) (oc_SchedulePolicyJSON r) (oc_CompliancePolicyJSON r)
     (oc_GovernancePolicyJSON r) (oc_CreatedAt r) (oc_UpdatedAt r) (oc_LaunchedAt r)
     (oc_CompletedAt r) (oc_EnrollmentCount r) (oc_SentCount r) (oc_RepliedCount r)
     (oc_PositiveCount r) (oc_NegativeCount r) (oc_PausedCount r) (oc_BouncedCount r)
     (oc_UnsubscribedCount r) (oc_WaitingHumanCount r).

Record OutboundCampaignStep : Type := mkStep {
  os_ID : string; os_CampaignID : string; os_Position : Z; os_Kind : string; os_ThreadMode :
  string; os_SubjectTemplate : string; os_BodyTemplate : string; os_WaitIntervalMinutes : Z;
  os_SendWindowJSON : string; os_TaskPolicyJSON : string; os_BranchPolicyJSON : string;
  os_StopIfReplied : bool; os_StopIfClicked : bool; os_StopIfBooked : bool;
  os_StopIfUnsubscribed : bool; os_CreatedAt : Z; os_UpdatedAt : Z
}.
#[export] Instance eta_OutboundCampaignStep : Eta OutboundCampaignStep := fun r =>
  mkStep (os_ID r) (os_CampaignID r) (os_Position r) (os_Kind r) (os_ThreadMode r)
     (os_SubjectTemplate r) (os_BodyTemplate r) (os_WaitIntervalMinutes r) (os_SendWindowJSON r)
     (os_TaskPolicyJSON r) (os_BranchPolicyJSON r) (os_StopIfReplied r) (os_StopIfClicked r)
     (os_StopIfBooked r) (os_StopIfUnsubscribed r) (os_CreatedAt r) (os_UpdatedAt r).

Record OutboundEnrollment : Type := mkEnrollment {
  oe_ID : string; oe_CampaignID : string; oe_ContactID : string; oe_RecipientEmail : string;
  oe_RecipientDomain : string; oe_SenderAccountID : string; oe_SenderProfileID : string;
  oe_ReplyFunnelID : string; oe_ThreadBindingID : string; oe_Status : string;
  oe_CurrentStepPosition : Z; oe_LastSentMessageID : string; oe_LastSentAt : Z; oe_NextActionAt
  : Z; oe_PauseReason : string; oe_StopReason : string; oe_ReplyOutcome : string;
  oe_ReplyConfidence : Z; oe_ManualOwnerUserID : string; oe_SeedContextJSON : string;
  oe_CreatedAt : Z; oe_UpdatedAt : Z; oe_ContactName : string; oe_CampaignName : string;
  oe_SenderAccountLabel : string; oe_SenderAccountLogin : string; oe_ThreadSubject : string;
  oe_LastReplyMessageID : string; oe_LastReplyBucket : string; oe_LastReplyAt : Z
}.
#[export] Instance eta_OutboundEnrollment : Eta OutboundEnrollment := fun r =>
  mkEnrollment (oe_ID r) (oe_CampaignID r) (oe_ContactID r) (oe_RecipientEmail r)
     (oe_RecipientDomain r) (oe_SenderAccountID r) (oe_SenderProfileID r) (oe_ReplyFunnelID r)
     (oe_ThreadBindingID r) (oe_Status r) (oe_CurrentStepPosition r) (oe_LastSentMessageID r)
     (oe_LastSentAt r) (oe_NextActionAt r) (oe_PauseReason r) (oe_StopReason r) (oe_ReplyOutcome
     r) (oe_ReplyConfidence r) (oe_ManualOwnerUserID r) (oe_SeedContextJSON r) (oe_CreatedAt r)
     (oe_UpdatedAt r) (oe_ContactName r) (oe_CampaignName r) (oe_SenderAccountLabel r)
     (oe_SenderAccountLogin r) (oe_ThreadSubject r) (oe_LastReplyMessageID r)
     (oe_LastReplyBucket r) (oe_LastReplyAt r).

Record OutboundEvent : Type := mkEvent {
  ov_ID : string; ov_CampaignID : string; ov_EnrollmentID : string; ov_EventKind : string;
  ov_EventPayloadJSON : string; ov_ActorKind : string; ov_ActorRef : string; ov_CreatedAt : Z
}.
#[export] Instance eta_OutboundEvent : Eta OutboundEvent := fun r =>
  mkEvent (ov_ID r) (ov_CampaignID r) (ov_EnrollmentID r) (ov_EventKind r) (ov_EventPayloadJSON
     r) (ov_ActorKind r) (ov_ActorRef r) (ov_CreatedAt r).

Record RecipientState : Type := mkRecipientState {
  rc_UserID : string; rc_RecipientEmail : string; rc_PrimaryContactID : string;
  rc_RecipientDomain : string; rc_Status : string; rc_Scope : string; rc_LastReplyAt : Z;
  rc_LastReplyOutcome : string; rc_SuppressedUntil : Z; rc_SuppressionReason : string; rc_Notes
  : string; rc_UpdatedAt : Z
}.
#[export] Instance eta_RecipientState : Eta RecipientState := fun r =>
  mkRecipientState (rc_UserID r) (rc_RecipientEmail r) (rc_PrimaryContactID r)
     (rc_RecipientDomain r) (rc_Status r) (rc_Scope r) (rc_LastReplyAt r) (rc_LastReplyOutcome
     r) (rc_SuppressedUntil r) (rc_SuppressionReason r) (rc_Notes r) (rc_UpdatedAt r).

Record MailThreadBinding : Type := mkBinding {
  tb_ID : string; tb_AccountID : string; tb_ThreadID : string; tb_BindingType : string;
  tb_CampaignID : string; tb_EnrollmentID : string; tb_FunnelID : string; tb_ReplyAccountID :
  string; tb_ReplySenderProfileID : string; tb_CollectorAccountID : string; tb_OwnerUserID :
  string; tb_RecipientEmail : string; tb_RecipientDomain : string; tb_RootOutboundMessageID :
  string; tb_LastOutboundMessageID : string; tb_LastReplyMessageID : string; tb_ThreadSubject :
  string; tb_LastReplyAt : Z; tb_CreatedAt : Z; tb_UpdatedAt : Z
}.
#[export] Instance eta_MailThreadBinding : Eta MailThreadBinding := fun r =>
  mkBinding (tb_ID r) (tb_AccountID r) (tb_ThreadID r) (tb_BindingType r) (tb_CampaignID r)
     (tb_EnrollmentID r) (tb_FunnelID r) (tb_ReplyAccountID r) (tb_ReplySenderProfileID r)
     (tb_CollectorAccountID r) (tb_OwnerUserID r) (tb_RecipientEmail r) (tb_RecipientDomain r)
     (tb_RootOutboundMessageID r) (tb_LastOutboundMessageID r) (tb_LastReplyMessageID r)
     (tb_ThreadSubject r) (tb_LastReplyAt r) (tb_CreatedAt r) (tb_UpdatedAt r).

Record OutboundSuppression : Type := mkSuppression {
  su_ID : string; su_UserID : string; su_ScopeKind : string; su_ScopeValue : string;
  su_CampaignID : string; su_Reason : string; su_SourceKind : string; su_ExpiresAt : Z;
  su_CreatedAt : Z; su_UpdatedAt : Z
}.
#[export] Instance eta_OutboundSuppression : Eta OutboundSuppression := fun r =>
  mkSuppression (su_ID r) (su_UserID r) (su_ScopeKind r) (su_ScopeValue r) (su_CampaignID r)
     (su_Reason r) (su_SourceKind r) (su_ExpiresAt r) (su_CreatedAt r) (su_UpdatedAt r).

Record Contact : Type := mkContact {
  ct_ID : string; ct_UserID : string; ct_Name : string; ct_Notes : string; ct_PreferredAccountID
  : string; ct_PreferredSenderID : string; ct_CreatedAt : Z; ct_UpdatedAt : Z
}.
#[export] Instance eta_Contact : Eta Contact := fun r =>
  mkContact (ct_ID r) (ct_UserID r) (ct_Name r) (ct_Notes r) (ct_PreferredAccountID r)
     (ct_PreferredSenderID r) (ct_CreatedAt r) (ct_UpdatedAt r).

Record ReplyFunnel : Type := mkFunnel {
  rf_ID : string; rf_UserID : string; rf_Name : string; rf_SenderName : string;
  rf_CollectorAccountID : string; rf_ReplyMode : string; rf_RoutingMode : string;
  rf_IncludeCollector : bool; rf_TargetReplyCount : Z; rf_SavedSearchID : string; rf_CreatedAt :
  Z; rf_UpdatedAt : Z
}.
#[export] Instance eta_ReplyFunnel : Eta ReplyFunnel := fun r =>
  mkFunnel (rf_ID r) (rf_UserID r) (rf_Name r) (rf_SenderName r) (rf_CollectorAccountID r)
     (rf_ReplyMode r) (rf_RoutingMode r) (rf_IncludeCollector r) (rf_TargetReplyCount r)
     (rf_SavedSearchID r) (rf_CreatedAt r) (rf_UpdatedAt r).

Record ReplyFunnelAccount : Type := mkFunnelAccount {
  fa_ID : string; fa_FunnelID : string; fa_AccountID : string; fa_Role : string; fa_Position :
  Z; fa_SenderIdentityID : string; fa_RedirectRuleID : string; fa_LastApplyError : string;
  fa_AssistedForwardingState : string; fa_AssistedForwardingNotes : string;
  fa_AssistedForwardingCheckedAt : Z; fa_AssistedForwardingConfirmed : Z; fa_CreatedAt : Z;
  fa_UpdatedAt : Z
}.
#[export] Instance eta_ReplyFunnelAccount : Eta ReplyFunnelAccount := fun r =>
  mkFunnelAccount (fa_ID r) (fa_FunnelID r) (fa_AccountID r) (fa_Role r) (fa_Position r)
     (fa_SenderIdentityID r) (fa_RedirectRuleID r) (fa_LastApplyError r)
     (fa_AssistedForwardingState r) (fa_AssistedForwardingNotes r)
     (fa_AssistedForwardingCheckedAt r) (fa_AssistedForwardingConfirmed r) (fa_CreatedAt r)
     (fa_UpdatedAt r).

Record OutboundDB : Type := mkOutboundDB {
  o_mail : MailDB; o_campaigns : list OutboundCampaign; o_steps : list OutboundCampaignStep;
  o_enrollments : list OutboundEnrollment; o_events : list OutboundEvent; o_recipients : list
  RecipientState; o_bindings : list MailThreadBinding; o_suppressions : list
  OutboundSuppression; o_contacts : list Contact; o_funnels : list ReplyFunnel;
  o_funnel_accounts : list ReplyFunnelAccount
}.
#[export] Instance eta_OutboundDB : Eta OutboundDB := fun r =>
  mkOutboundDB (o_mail r) (o_campaigns r) (o_steps r) (o_enrollments r) (o_events r)
     (o_recipients r) (o_bindings r) (o_suppressions r) (o_contacts r) (o_funnels r)
     (o_funnel_accounts r).

Abbreviation ODB := (M OutboundDB).

(** A handler of the mail tables, run on the larger database. *)
Definition on_mail {A} (m : MDB A) : ODB A := fun w =>
  let '(mkWorld d fs t u tr) := w in
  let '(r, mkWorld b fs' t' u' tr') := m (mkWorld (o_mail d) fs t u tr) in
  (r, mkWorld (d <| o_mail := b |>) fs' t' u' tr').

Definition on_accounts {A} (m : DBM A) : ODB A := on_mail (on_base m).

(** An [UPDATE] or [DELETE] whose handler answers [ErrNotFound] for no rows. *)
Definition found_row (m : ODB nat) : ODB unit :=
  let! n := m in if Nat.eqb n 0 then throw ErrNotFound else ret tt.

(** [nullableTrimmedString], with NULL read back as the empty text. *)
Definition nullableTrimmedString (v : string) : string := TrimSpace v.

Definition coalesceTime (v fallback : Z) : Z := if IsZero v then fallback else v.
