(* ===== verification/Drafts.v ===== *)
(** * Drafts: indexed messages, drafts and the queue: one indexed message

    The operations of internal/store/v2_store.go on a single row of
    [message_index].  A message is looked for under its scoped identifier
    first, then under the one it was asked for by. *)

From S2P Require Import Prelude GoStrings Effects GoStd MessageIds Models Users Mfa MailAccounts MailModels.
Local Open Scope Z_scope.

Definition candidates_of (normalize : string -> string) (id : string) : list string :=
  let id := TrimSpace id in
  if String.eqb id "" then []
  else
    let scoped := normalize id in
    if String.eqb scoped "" then []
    else if String.eqb scoped id then [scoped] else [scoped; id].

Definition indexedMessageIDCandidates (accountID : string) : string -> list string :=
  candidates_of (NormalizeIndexedMessageID accountID).

Definition indexedThreadIDCandidates (accountID : string) : string -> list string :=
  candidates_of (NormalizeIndexedThreadID accountID).

(** The mailboxes of a filter: trimmed, each once up to case. *)
Definition normalizeMailboxFilters (mailboxes : list string) : list string :=
  fst (fold_left (fun '(out, seen) mailbox =>
         let trimmed := TrimSpace mailbox in
         if String.eqb trimmed "" || existsb (String.eqb (ToLower trimmed)) seen then (out, seen)
         else (out ++ [trimmed], ToLower trimmed :: seen)) mailboxes ([], [])).

Definition message_at (accountID id : string) (m : IndexedMessage) : bool :=
  String.eqb (im_AccountID m) accountID && String.eqb (im_ID m) id.

Section MailIndex.
Context {env : Env}.

Fixpoint first_message (accountID : string) (candidates : list string) : MDB IndexedMessage :=
  match candidates with
  | [] => throw ErrNotFound
  | candidate :: rest =>
      let! r := query (fun d => Ok (select1 (message_at accountID candidate) (m_messages d))) in
      match r with Some m => ret m | None => first_message accountID rest end
  end.

Definition GetIndexedMessageByID (accountID id : string) : MDB IndexedMessage :=
  first_message accountID (indexedMessageIDCandidates accountID id).

(** Tries the candidates until a statement touches a row; an update may break
    the unique key of mailbox and UID. *)
Fixpoint first_affected (accountID : string) (candidates : list string)
    (act : (IndexedMessage -> bool) -> Z -> list IndexedMessage -> Res (list IndexedMessage)) : MDB unit :=
  match candidates with
  | [] => throw ErrNotFound
  | candidate :: rest =>
      let! now := time_Now in
      let p := message_at accountID candidate in
      let! n := statement (fun d =>
                  match act p now (m_messages d) with
                  | Ok rows => Ok (affected p (m_messages d), d <| m_messages := rows |>)
                  | Fail e => Fail e
                  end) in
      if Nat.eqb n 0 then first_affected accountID rest act else ret tt
  end.

Definition set_message (f : IndexedMessage -> IndexedMessage)
    (p : IndexedMessage -> bool) (now : Z) (rows : list IndexedMessage) : Res (list IndexedMessage) :=
  Ok (update_rows p (fun m => f m <| im_UpdatedAt := now |>) rows).

(** The unique index of [message_index] on account, mailbox and UID. *)
Definition same_place (m m0 : IndexedMessage) : bool :=
  String.eqb (im_AccountID m) (im_AccountID m0) && String.eqb (im_Mailbox m) (im_Mailbox m0)
  && (im_UID m =? im_UID m0).

(** An [UPDATE] of the messages [p] that changes their places: SQLite checks
    the unique index as each row is changed, in the order of the rows. *)
Fixpoint replace_each (p : IndexedMessage -> bool) (f : IndexedMessage -> IndexedMessage)
    (before rows : list IndexedMessage) : Res (list IndexedMessage) :=
  match rows with
  | [] => Ok before
  | m :: rows' =>
      if p m then
        if existsb (same_place (f m)) before || existsb (same_place (f m)) rows' then Fail ErrConstraint
        else replace_each p f (before ++ [f m]) rows'
      else replace_each p f (before ++ [m]) rows'
  end.

Definition move_message (mailbox : string) (p : IndexedMessage -> bool) (now : Z)
    (rows : list IndexedMessage) : Res (list IndexedMessage) :=
  replace_each p (fun m => m <| im_Mailbox := mailbox |> <| im_UpdatedAt := now |>) [] rows.

Definition updateIndexedMessageBool (accountID id column : string) (value : bool) : MDB unit :=
  let candidates := indexedMessageIDCandidates accountID id in
  if String.eqb column "seen" then
    first_affected accountID candidates (set_message (fun m => m <| im_Seen := value |>))
  else if String.eqb column "flagged" then
    first_affected accountID candidates (set_message (fun m => m <| im_Flagged := value |>))
  else if String.eqb column "answered" then
    first_affected accountID candidates (set_message (fun m => m <| im_Answered := value |>))
  else throw (ErrText "unsupported message boolean column").

Definition SetIndexedMessageSeen (accountID id : string) : bool -> MDB unit :=
  updateIndexedMessageBool accountID id "seen".
Definition SetIndexedMessageFlagged (accountID id : string) : bool -> MDB unit :=
  updateIndexedMessageBool accountID id "flagged".
Definition SetIndexedMessageAnswered (accountID id : string) : bool -> MDB unit :=
  updateIndexedMessageBool accountID id "answered".

Definition MoveIndexedMessageMailbox (accountID id mailbox : string) : MDB unit :=
  first_affected accountID (indexedMessageIDCandidates accountID id)
    (move_message mailbox).

Definition DeleteIndexedMessage (accountID id : string) : MDB unit :=
  first_affected accountID (indexedMessageIDCandidates accountID id)
    (fun p _ rows => Ok (delete_rows p rows)).

Definition SetIndexedMessageRemoteImagesAllowed (accountID id : string) (allowed : bool) : MDB unit :=
  first_affected accountID (indexedMessageIDCandidates accountID id)
    (set_message (fun m => m <| im_RemoteImagesAllowed := allowed |> <| im_RemoteImagesBlocked := negb allowed |>)).
End MailIndex.

(** At most two rows are ever tried, the scoped one first. *)
Lemma candidates_short normalize id : (length (candidates_of normalize id) <= 2)%nat.
Proof. unfold candidates_of. repeat destruct (String.eqb _ _); simpl; lia. Qed.

(** * Drafts: drafts, their attachments and the queue of scheduled sends

    The statements of internal/store/v2_store.go on [drafts], [draft_versions],
    [draft_attachments] and [scheduled_send_queue].  [CreateDraft] and
    [UpdateDraft], which store their argument as JSON too, are not modelled. *)

Definition draft_of (userID draftID : string) (r : Draft) : bool :=
  String.eqb (dr_UserID r) userID && String.eqb (dr_ID r) draftID.

Section Drafts.
Context {env : Env}.

(** ** Drafts *)

Definition GetDraftByID (userID id : string) : MDB Draft :=
  query (fun d => match select1 (draft_of userID id) (m_drafts d) with
                  | Some r => Ok r
                  | None => Fail ErrNotFound
                  end).

Definition listed_draft (userID accountID : string) (r : Draft) : bool :=
  String.eqb (dr_UserID r) userID && negb (String.eqb (dr_Status r) "sent")
  && (String.eqb (TrimSpace accountID) "" || String.eqb (dr_AccountID r) accountID).

Definition ListDrafts (userID accountID : string) (limit offset : Z) : MDB (list Draft * Z) :=
  let p := listed_draft userID accountID in
  let! total := query (fun d => Ok (Z.of_nat (affected p (m_drafts d)))) in
  let! rows := query (fun d => Ok (page (clampLimit limit) (clampOffset offset)
    (order_by (in_order (fun r => KNum (dr_UpdatedAt r)) DESC) (List.filter p (m_drafts d))))) in
  ret (rows, total).

Definition update_draft (userID draftID : string) (f : Z -> Draft -> Draft) : MDB unit :=
  let! now := time_Now in
  found (statement (fun d => Ok (affected (draft_of userID draftID) (m_drafts d),
    d <| m_drafts := update_rows (draft_of userID draftID) (f now) (m_drafts d) |>))).

Definition SetDraftStatus (userID draftID status : string) : MDB unit :=
  update_draft userID draftID (fun now r => r <| dr_Status := TrimSpace status |>
    <| dr_UpdatedAt := now |>).

Definition SetDraftSendState (userID draftID status lastSendError : string) : MDB unit :=
  update_draft userID draftID (fun now r => r <| dr_Status := TrimSpace status |>
    <| dr_LastSendError := TrimSpace lastSendError |> <| dr_UpdatedAt := now |>).

Definition DeleteDraft (userID draftID : string) : MDB unit :=
  transaction (
    do! exec (fun d => d <| m_versions :=
          delete_rows (fun v => String.eqb (dv_DraftID v) draftID) (m_versions d) |>) in
    do! exec (fun d => d <| m_attachments :=
          delete_rows (fun a => String.eqb (da_DraftID a) draftID
                                && String.eqb (da_UserID a) userID) (m_attachments d) |>) in
    do! exec (fun d => d <| m_queue :=
          delete_rows (fun q => String.eqb (qi_DraftID q) draftID) (m_queue d) |>) in
    found (statement (fun d => Ok (affected (draft_of userID draftID) (m_drafts d),
      d <| m_drafts := delete_rows (draft_of userID draftID) (m_drafts d) |>)))).

(** ** Versions *)

Definition version_of (draftID : string) (v : DraftVersion) : bool :=
  String.eqb (dv_DraftID v) draftID.

Definition newest_first : DraftVersion -> DraftVersion -> bool :=
  in_order (fun v => KNum (dv_VersionNo v)) DESC.

(** [COALESCE(MAX(version_no),0)+1] *)
Definition next_version (draftID : string) (vs : list DraftVersion) : Z :=
  match map dv_VersionNo (List.filter (version_of draftID) vs) with
  | [] => 1
  | n :: ns => fold_left Z.max ns n + 1
  end.

(** The [DELETE] keeps the twenty highest version numbers; its error is dropped. *)
Definition prune_versions (draftID : string) (vs : list DraftVersion) : list DraftVersion :=
  let old := drop 20 (order_by newest_first (List.filter (version_of draftID) vs)) in
  delete_rows (fun v => version_of draftID v
                        && existsb (fun o => String.eqb (dv_ID o) (dv_ID v)) old) vs.

Definition AddDraftVersion (draftID snapshotJSON : string) : MDB DraftVersion :=
  let! versionNo := query (fun d => Ok (next_version draftID (m_versions d))) in
  let! now := time_Now in
  let! id := uuid_NewString in
  let item := mkDraftVersion id draftID versionNo snapshotJSON now in
  do! statement (fun d =>
        match insert_row (fun v v0 => String.eqb (dv_ID v) (dv_ID v0)) item (m_versions d) with
        | Ok rows => Ok (tt, d <| m_versions := rows |>)
        | Fail e => Fail e
        end) in
  do! ignore (exec (fun d => d <| m_versions := prune_versions draftID (m_versions d) |>)) in
  ret item.

Definition ListDraftVersions (draftID : string) (limit : Z) : MDB (list DraftVersion) :=
  query (fun d => Ok (take (Z.to_nat (if limit <=? 0 then 20 else limit))
    (order_by newest_first (List.filter (version_of draftID) (m_versions d))))).

(** ** Attachments *)

Definition attachment_of (userID draftID : string) (a : DraftAttachment) : bool :=
  String.eqb (da_UserID a) userID && String.eqb (da_DraftID a) draftID.
Definition attachment_is (userID draftID id : string) (a : DraftAttachment) : bool :=
  attachment_of userID draftID a && String.eqb (da_ID a) id.

Definition NextDraftAttachmentSortOrder (userID draftID : string) : MDB Z :=
  let! next := query (fun d =>
    Ok match map da_SortOrder (List.filter (attachment_of userID draftID) (m_attachments d)) with
       | [] => 0
       | n :: ns => fold_left Z.max ns n + 1
       end) in
  ret (if next <? 0 then 0 else next).

Definition CreateDraftAttachment (inp : DraftAttachment) : MDB DraftAttachment :=
  let! now := time_Now in
  let! id := if String.eqb (TrimSpace (da_ID inp)) "" then uuid_NewString else ret (da_ID inp) in
  let inp := inp <| da_ID := id |>
    <| da_ContentType := if String.eqb (TrimSpace (da_ContentType inp)) ""
                         then "application/octet-stream" else da_ContentType inp |>
    <| da_CreatedAt := now |> <| da_UpdatedAt := now |>
    <| da_SizeBytes := Z.of_nat (length (da_Data inp)) |> in
  do! statement (fun d =>
        match insert_row (fun a a0 => String.eqb (da_ID a) (da_ID a0)) inp (m_attachments d) with
        | Ok rows => Ok (tt, d <| m_attachments := rows |>)
        | Fail e => Fail e
        end) in
  ret inp.

Definition GetDraftAttachmentByID (userID draftID attachmentID : string) : MDB DraftAttachment :=
  query (fun d =>
    match select1 (attachment_is userID draftID attachmentID) (m_attachments d) with
    | Some a => Ok a
    | None => Fail ErrNotFound
    end).

Definition DeleteDraftAttachment (userID draftID attachmentID : string) : MDB unit :=
  found (statement (fun d =>
    Ok (affected (attachment_is userID draftID attachmentID) (m_attachments d),
        d <| m_attachments :=
          delete_rows (attachment_is userID draftID attachmentID) (m_attachments d) |>))).

(** ** The queue *)

Definition queued_for (draftID : string) (q : ScheduledSendQueueItem) : bool :=
  String.eqb (qi_DraftID q) draftID.
Definition queue_has (id : string) (q : ScheduledSendQueueItem) : bool := String.eqb (qi_ID q) id.

Definition QueueScheduledSend (draft : Draft) : MDB unit :=
  if String.eqb (TrimSpace (dr_ID draft)) "" || String.eqb (TrimSpace (dr_UserID draft)) ""
     || String.eqb (TrimSpace (dr_AccountID draft)) ""
  then throw (ErrText "draft id, user id, and account id are required")
  else
    let! now := time_Now in
    let dueAt := if IsZero (dr_ScheduledFor draft) then now else dr_ScheduledFor draft in
    transaction (
      let! n := statement (fun d => Ok (affected (queued_for (dr_ID draft)) (m_queue d),
        d <| m_queue := update_rows (queued_for (dr_ID draft)) (fun q => q
               <| qi_DueAt := dueAt |> <| qi_State := "queued" |> <| qi_NextRetryAt := None |>
               <| qi_LastError := None |> <| qi_UpdatedAt := now |>) (m_queue d) |>)) in
      if Nat.eqb n 0 then
        let! id := uuid_NewString in
        statement (fun d =>
          match insert_row (fun q q0 => String.eqb (qi_ID q) (qi_ID q0))
                  (mkQueueItem id (dr_ID draft) (dr_UserID draft) (dr_AccountID draft) dueAt
                     "queued" 0 None None now now) (m_queue d) with
          | Ok rows => Ok (tt, d <| m_queue := rows |>)
          | Fail e => Fail e
          end)
      else ret tt).

(** The [WHERE] of the due items. *)
Definition due (now : Z) (q : ScheduledSendQueueItem) : bool :=
  (String.eqb (qi_State q) "queued" || String.eqb (qi_State q) "retrying")
  && (qi_DueAt q <=? now)
  && match qi_NextRetryAt q with None => true | Some t => t <=? now end.

(** [ORDER BY due_at ASC, created_at ASC] *)
Definition due_first (a b : ScheduledSendQueueItem) : bool :=
  (qi_DueAt a <? qi_DueAt b)
  || ((qi_DueAt a =? qi_DueAt b) && (qi_CreatedAt a <=? qi_CreatedAt b)).

Definition ListDueScheduledSends (now limit : Z) : MDB (list ScheduledSendQueueItem) :=
  query (fun d => Ok (take (Z.to_nat (if limit <=? 0 then 20 else limit))
    (order_by due_first (List.filter (due now) (m_queue d))))).

Definition GetScheduledSendByDraftID (userID draftID : string) : MDB ScheduledSendQueueItem :=
  query (fun d =>
    match select1 (fun q => String.eqb (qi_UserID q) userID && queued_for draftID q)
            (m_queue d) with
    | Some q => Ok q
    | None => Fail ErrNotFound
    end).

Definition update_queue (p : ScheduledSendQueueItem -> bool)
    (f : Z -> ScheduledSendQueueItem -> ScheduledSendQueueItem) : MDB unit :=
  let! now := time_Now in
  found (statement (fun d => Ok (affected p (m_queue d),
    d <| m_queue := update_rows p (f now) (m_queue d) |>))).

Definition CancelScheduledSendByDraftID (userID draftID : string) : MDB unit :=
  update_queue (fun q => String.eqb (qi_UserID q) userID && queued_for draftID q)
    (fun now q => q <| qi_State := "canceled" |> <| qi_NextRetryAt := None |>
       <| qi_LastError := None |> <| qi_UpdatedAt := now |>).

Definition MarkScheduledSendRetry (queueID : string) (retryCount nextRetryAt : Z)
    (lastErr : string) : MDB unit :=
  update_queue (queue_has queueID)
    (fun now q => q <| qi_State := "retrying" |> <| qi_RetryCount := retryCount |>
       <| qi_NextRetryAt := Some nextRetryAt |>
       <| qi_LastError := nullStringValue (Some lastErr) |> <| qi_UpdatedAt := now |>).

Definition MarkScheduledSendSent (queueID : string) : MDB unit :=
  update_queue (queue_has queueID)
    (fun now q => q <| qi_State := "sent" |> <| qi_NextRetryAt := None |>
       <| qi_LastError := None |> <| qi_UpdatedAt := now |>).

Definition MarkScheduledSendFailed (queueID lastErr : string) : MDB unit :=
  update_queue (queue_has queueID)
    (fun now q => q <| qi_State := "failed" |> <| qi_NextRetryAt := None |>
       <| qi_LastError := nullStringValue (Some lastErr) |> <| qi_UpdatedAt := now |>).
End Drafts.
