(* ===== verification/MailSenders.v ===== *)
(** * MailSenders: who a message is sent as

    The identities of mail accounts, session profiles and preferences of
    internal/store (v2_store.go, session_mail_profiles.go), and the choice of
    the sender of a message in internal/service/mail_sender.go. *)

From S2P Require Import Prelude GoStrings Effects GoStd Models Users Mfa MailAccounts Host Identity.
From S2P Require Import MailModels.
Local Open Scope Z_scope.

(** ** Identities of an account *)

Definition identity_of (accountID : string) (i : MailIdentityRow) : bool :=
  String.eqb (mi_AccountID i) accountID.
Definition identity_has (id : string) (i : MailIdentityRow) : bool := String.eqb (mi_ID i) id.

(** [ORDER BY is_default DESC, created_at ASC] *)
Definition identity_leb (a b : MailIdentityRow) : bool :=
  let x := boolToInt (mi_IsDefault a) in
  let y := boolToInt (mi_IsDefault b) in
  (y <? x) || ((x =? y) && (mi_CreatedAt a <=? mi_CreatedAt b)).

(** [SET is_default=CASE WHEN id=? THEN 1 ELSE 0 END WHERE account_id=?] *)
Definition only_default_identity (accountID id : string) (now : Z) (rows : list MailIdentityRow) :
    list MailIdentityRow :=
  update_rows (identity_of accountID)
    (fun i => i <| mi_IsDefault := identity_has id i |> <| mi_UpdatedAt := now |>) rows.

Section Store.
Context {env : Env}.

Definition ListMailIdentities (accountID : string) : MDB (list MailIdentityRow) :=
  query (fun d => Ok (order_by identity_leb (List.filter (identity_of accountID) (m_identities d)))).

Definition make_default_identity (accountID id : string) (now : Z) : MDB unit :=
  ignore (exec (fun d => d <| m_identities :=
    only_default_identity accountID id now (m_identities d) |>)).

Definition CreateMailIdentity (inp : MailIdentityRow) : MDB MailIdentityRow :=
  let! now := time_Now in
  let! id := if String.eqb (TrimSpace (mi_ID inp)) "" then uuid_NewString else ret (mi_ID inp) in
  let inp := inp <| mi_ID := id |> <| mi_CreatedAt := now |> <| mi_UpdatedAt := now |> in
  do! statement (fun d =>
        match insert_row (fun i i0 => String.eqb (mi_ID i) (mi_ID i0)) inp (m_identities d) with
        | Ok rows => Ok (tt, d <| m_identities := rows |>)
        | Fail e => Fail e
        end) in
  do! when (mi_IsDefault inp) (make_default_identity (mi_AccountID inp) (mi_ID inp) now) in
  ret inp.

Definition GetMailIdentityByID (id : string) : MDB MailIdentityRow :=
  query (fun d => match select1 (identity_has id) (m_identities d) with
                  | Some i => Ok i
                  | None => Fail ErrNotFound
                  end).

Definition UpdateMailIdentity (inp : MailIdentityRow) : MDB MailIdentityRow :=
  let! now := time_Now in
  let! current := GetMailIdentityByID (mi_ID inp) in
  do! found (statement (fun d => Ok (affected (identity_has (mi_ID inp)) (m_identities d),
        d <| m_identities := update_rows (identity_has (mi_ID inp))
               (fun i => inp <| mi_CreatedAt := mi_CreatedAt i |> <| mi_UpdatedAt := now |>)
               (m_identities d) |>))) in
  do! when (mi_IsDefault inp) (make_default_identity (mi_AccountID inp) (mi_ID inp) now) in
  do! when (negb (String.eqb (TrimSpace (mi_AccountID current)) "")
            && negb (String.eqb (mi_AccountID current) (mi_AccountID inp)))
        (ignore (exec (fun d => d <| m_identities :=
           update_rows (identity_of (mi_AccountID current)) (fun i => i <| mi_UpdatedAt := now |>)
             (m_identities d) |>))) in
  GetMailIdentityByID (mi_ID inp).

Definition DeleteMailIdentity (accountID id : string) : MDB unit :=
  let p i := identity_has id i && identity_of accountID i in
  found (statement (fun d => Ok (affected p (m_identities d),
    d <| m_identities := delete_rows p (m_identities d) |>))).

(** ** Session profiles *)

Definition profile_for (userID fromEmail : string) (p : SessionMailProfile) : bool :=
  String.eqb (sp_UserID p) userID && String.eqb (sp_FromEmail p) fromEmail.

Definition GetSessionMailProfile (userID fromEmail : string) : MDB SessionMailProfile :=
  query (fun d => match select1 (profile_for userID (TrimSpace fromEmail)) (m_profiles d) with
                  | Some p => Ok p
                  | None => Fail ErrNotFound
                  end).

Definition GetSessionMailProfileByID (userID id : string) : MDB SessionMailProfile :=
  query (fun d =>
    match select1 (fun p => String.eqb (sp_UserID p) userID && String.eqb (sp_ID p) (TrimSpace id))
            (m_profiles d) with
    | Some p => Ok p
    | None => Fail ErrNotFound
    end).

(** The conflict on user and address updates; another profile's identifier
    makes the insert fail. *)
Definition upsert_profile (inp : SessionMailProfile) (rows : list SessionMailProfile) :
    Res (list SessionMailProfile) :=
  let same := profile_for (sp_UserID inp) (sp_FromEmail inp) in
  if existsb same rows then Ok (update_rows same (fun p => p
    <| sp_DisplayName := sp_DisplayName inp |> <| sp_ReplyTo := sp_ReplyTo inp |>
    <| sp_SignatureText := sp_SignatureText inp |> <| sp_SignatureHTML := sp_SignatureHTML inp |>
    <| sp_UpdatedAt := sp_UpdatedAt inp |>) rows)
  else insert_row (fun p p0 => String.eqb (sp_ID p) (sp_ID p0)) inp rows.

Definition UpsertSessionMailProfile (inp : SessionMailProfile) : MDB SessionMailProfile :=
  let! now := time_Now in
  let! id := if String.eqb (TrimSpace (sp_ID inp)) "" then uuid_NewString else ret (sp_ID inp) in
  let inp := inp <| sp_ID := id |>
    <| sp_CreatedAt := if IsZero (sp_CreatedAt inp) then now else sp_CreatedAt inp |>
    <| sp_UpdatedAt := now |> <| sp_FromEmail := TrimSpace (sp_FromEmail inp) |> in
  do! statement (fun d => match upsert_profile inp (m_profiles d) with
                          | Ok rows => Ok (tt, d <| m_profiles := rows |>)
                          | Fail e => Fail e
                          end) in
  GetSessionMailProfile (sp_UserID inp) (sp_FromEmail inp).

(** ** Preferences *)

Definition normalizeUserPreferenceLocale : string -> string := normalizePreferenceLocaleTag.

Definition defaultUserPreferences (userID : string) (now : Z) : UserPreferences :=
  mkUserPreferences userID "" "" "machine-dark" "comfortable" "three-pane" "{}" "block" "" 50 "day"
    "" now.

Definition preferences_of (userID : string) (p : UserPreferences) : bool :=
  String.eqb (up_UserID p) userID.

Definition GetUserPreferences (userID : string) : MDB UserPreferences :=
  let! r := query (fun d => Ok (select1 (preferences_of userID) (m_preferences d))) in
  match r with
  | Some p => ret p
  | None => let! now := time_Now in ret (defaultUserPreferences userID now)
  end.

Definition or_default (v dflt : string) : string :=
  if String.eqb (TrimSpace v) "" then dflt else v.

Definition UpsertUserPreferences (inp : UserPreferences) : MDB UserPreferences :=
  let! now := time_Now in
  let inp := inp <| up_UpdatedAt := now |>
    <| up_Locale := normalizeUserPreferenceLocale (up_Locale inp) |>
    <| up_FormatLocale := normalizeUserPreferenceLocale (up_FormatLocale inp) |>
    <| up_Theme := or_default (up_Theme inp) "machine-dark" |>
    <| up_Density := or_default (up_Density inp) "comfortable" |>
    <| up_LayoutMode := or_default (up_LayoutMode inp) "three-pane" |>
    <| up_KeymapJSON := or_default (up_KeymapJSON inp) "{}" |>
    <| up_RemoteImagePolicy := or_default (up_RemoteImagePolicy inp) "block" |>
    <| up_PageSize := if up_PageSize inp <=? 0 then 50 else up_PageSize inp |>
    <| up_GroupingMode := or_default (up_GroupingMode inp) "day" |> in
  do! exec (fun d => d <| m_preferences :=
        if existsb (preferences_of (up_UserID inp)) (m_preferences d)
        then update_rows (preferences_of (up_UserID inp)) (fun _ => inp) (m_preferences d)
        else m_preferences d ++ [inp] |>) in
  ret inp.
End Store.

(** ** Choosing the sender *)

Record ResolvedComposeSender : Type := mkResolvedSender {
  rs_IdentityID : string; rs_SenderProfileID : string; rs_AccountID : string;
  rs_HeaderFromName : string; rs_HeaderFromEmail : string; rs_EnvelopeFrom : string;
  rs_ReplyTo : string
}.

Definition senderAccountLabel (a : MailAccount) : string :=
  let label := TrimSpace (ma_DisplayName a) in
  if negb (String.eqb label "") then label
  else
    let login := TrimSpace (ma_Login a) in
    if negb (String.eqb login "") then login else TrimSpace (ma_ID a).

(** The status shown, and whether the sender can schedule. *)
Definition senderStatusForAccount (account : option MailAccount) : string * bool :=
  match account with
  | None => ("needs_account", false)
  | Some a =>
      if String.eqb (TrimSpace (ma_ID a)) "" then ("needs_account", false)
      else if EqualFold (TrimSpace (ma_Status a)) "active" || String.eqb (TrimSpace (ma_Status a)) ""
      then ("ok", true) else ("unavailable", false)
  end.

Definition chooseDefaultMailAccount (accounts : list MailAccount) : option MailAccount :=
  match List.find ma_IsDefault accounts with
  | Some a => Some a
  | None => head accounts
  end.

Definition primary_profile (s : SessionMailProfile) (fromEmail : string)
    (defaultAccount : option MailAccount) : SenderProfile :=
  let '(status, canSchedule) := senderStatusForAccount defaultAccount in
  {| pf_ID := sp_ID s; pf_Kind := "primary"; pf_Name := TrimSpace (sp_DisplayName s);
     pf_FromEmail := fromEmail; pf_ReplyTo := TrimSpace (sp_ReplyTo s);
     pf_SignatureText := TrimSpace (sp_SignatureText s);
     pf_SignatureHTML := TrimSpace (sp_SignatureHTML s);
     pf_AccountID := match defaultAccount with Some a => ma_ID a | None => "" end;
     pf_AccountLabel := match defaultAccount with Some a => senderAccountLabel a | None => "" end;
     pf_IsDefault := false; pf_IsPrimary := true; pf_CanDelete := false;
     pf_CanSchedule := canSchedule; pf_Status := status;
     pf_AccountIsDefault := match defaultAccount with Some a => ma_IsDefault a | None => false end;
     pf_IsAccountDefault := match defaultAccount with Some a => ma_IsDefault a | None => false end
  |}.

Definition alias_profile (account : MailAccount) (i : MailIdentityRow) : SenderProfile :=
  let '(status, canSchedule) := senderStatusForAccount (Some account) in
  {| pf_ID := mi_ID i; pf_Kind := "alias"; pf_Name := TrimSpace (mi_DisplayName i);
     pf_FromEmail := TrimSpace (mi_FromEmail i); pf_ReplyTo := TrimSpace (mi_ReplyTo i);
     pf_SignatureText := TrimSpace (mi_SignatureText i);
     pf_SignatureHTML := TrimSpace (mi_SignatureHTML i);
     pf_AccountID := ma_ID account; pf_AccountLabel := senderAccountLabel account;
     pf_IsDefault := false; pf_IsPrimary := false; pf_CanDelete := true;
     pf_CanSchedule := canSchedule; pf_Status := status;
     pf_AccountIsDefault := ma_IsDefault account; pf_IsAccountDefault := mi_IsDefault i |}.

Definition usable_identities (l : list MailIdentityRow) : list MailIdentityRow :=
  List.filter (fun i => negb (String.eqb (TrimSpace (mi_FromEmail i)) "")) l.

(** The first item with the identifier is marked, else the first of all. *)
Fixpoint mark_default (id : string) (items : list SenderProfile) : option (list SenderProfile) :=
  match items with
  | [] => None
  | p :: items' =>
      if String.eqb (pf_ID p) id then Some (p <| pf_IsDefault := true |> :: items')
      else cons p <$> mark_default id items'
  end.

Definition mark_default_or_first (id : string) (items : list SenderProfile) : list SenderProfile :=
  match mark_default id items with
  | Some items' => items'
  | None => match items with p :: items' => p <| pf_IsDefault := true |> :: items' | [] => [] end
  end.

Section Senders.
Context {host : Host}.

Definition sessionMailIdentityForUser (u : User) : string :=
  let candidate := TrimSpace (MailIdentity u) in
  if String.eqb candidate "" then ""
  else match net_ParseAddress candidate with
       | Some address => TrimSpace address
       | None => ""
       end.

Definition EnsureSessionMailProfile (u : User) : MDB SessionMailProfile :=
  let fromEmail := sessionMailIdentityForUser u in
  let! r := attempt (GetSessionMailProfile (u_ID u) fromEmail) in
  match r with
  | Ok profile => ret profile
  | Fail ErrNotFound =>
      let! id := uuid_NewString in
      UpsertSessionMailProfile
        (mkSessionProfile id (u_ID u) fromEmail "" "" "" "" ZeroTime ZeroTime)
  | Fail e => throw e
  end.

(** The aliases of every account in order, and the first default identity of
    the default account. *)
Fixpoint alias_profiles (defaultAccountID defaultAlias : string) (accounts : list MailAccount) :
    MDB (list SenderProfile * string) :=
  match accounts with
  | [] => ret ([], defaultAlias)
  | account :: rest =>
      let! identities := ListMailIdentities (ma_ID account) in
      let usable := usable_identities identities in
      let defaultAlias :=
        if String.eqb defaultAlias "" && String.eqb (ma_ID account) defaultAccountID
        then match List.find (fun i => mi_IsDefault i && negb (String.eqb (mi_ID i) "")) usable with
             | Some i => mi_ID i
             | None => ""
             end
        else defaultAlias in
      let! r := alias_profiles defaultAccountID defaultAlias rest in
      ret (map (alias_profile account) usable ++ fst r, snd r)
  end.

Definition ListSenderProfiles (u : User) : MDB (list SenderProfile) :=
  let! sessionProfile := EnsureSessionMailProfile u in
  let! accounts := on_base (ListMailAccounts (u_ID u)) in
  let! prefs := GetUserPreferences (u_ID u) in
  let defaultAccount := chooseDefaultMailAccount accounts in
  let sessionEmail := TrimSpace (sp_FromEmail sessionProfile) in
  let primaryFromEmail :=
    if String.eqb sessionEmail ""
    then match defaultAccount with Some a => TrimSpace (ma_Login a) | None => "" end
    else sessionEmail in
  let primary := if negb (String.eqb primaryFromEmail "")
                 then [primary_profile sessionProfile primaryFromEmail defaultAccount] else [] in
  let! aliases := alias_profiles (match defaultAccount with Some a => ma_ID a | None => "" end) ""
                    accounts in
  let stored := TrimSpace (up_DefaultSenderID prefs) in
  let defaultProfileID :=
    if negb (String.eqb stored "") then stored
    else if negb (String.eqb (snd aliases) "") then snd aliases else sp_ID sessionProfile in
  ret (mark_default_or_first defaultProfileID (primary ++ fst aliases)).

Definition GetSenderProfileByID (u : User) (senderProfileID : string) : MDB SenderProfile :=
  let senderProfileID := TrimSpace senderProfileID in
  if String.eqb senderProfileID "" then throw ErrNotFound
  else
    let! items := ListSenderProfiles u in
    match List.find (fun p => String.eqb (pf_ID p) senderProfileID) items with
    | Some p => ret p
    | None => throw ErrNotFound
    end.

Definition DefaultSenderProfileID (u : User) : MDB string :=
  let! items := ListSenderProfiles u in
  ret match List.find pf_IsDefault items with Some p => pf_ID p | None => "" end.

Definition SetDefaultSenderProfile (u : User) (senderProfileID : string) : MDB unit :=
  let senderProfileID := TrimSpace senderProfileID in
  do! when (negb (String.eqb senderProfileID ""))
        (let! _ := GetSenderProfileByID u senderProfileID in ret tt) in
  let! prefs := GetUserPreferences (u_ID u) in
  let! _ := UpsertUserPreferences
              (prefs <| up_UserID := u_ID u |> <| up_DefaultSenderID := senderProfileID |>) in
  ret tt.

(** Whether a profile exists: [false] for [ErrNotFound], other errors are
    thrown. *)
Definition profile_exists (u : User) (id : string) : MDB bool :=
  let! r := attempt (GetSenderProfileByID u id) in
  match r with
  | Ok _ => ret true
  | Fail ErrNotFound => ret false
  | Fail e => throw e
  end.

Definition DeriveDraftSenderProfileID (u : User) (draft : Draft) : MDB string :=
  let senderProfileID := TrimSpace (dr_SenderProfileID draft) in
  let identityID := TrimSpace (dr_IdentityID draft) in
  let! bySender := if String.eqb senderProfileID "" then ret false
                   else profile_exists u senderProfileID in
  if bySender then ret senderProfileID
  else
    let! byIdentity := if String.eqb identityID "" then ret false
                       else profile_exists u identityID in
    if byIdentity then ret identityID
    else
      let mode := fold_trim (dr_FromMode draft) in
      if String.eqb mode "" || String.eqb mode "default" || String.eqb mode "manual" then
        let! sessionProfile := EnsureSessionMailProfile u in ret (sp_ID sessionProfile)
      else if String.eqb mode "identity" && negb (String.eqb identityID "") then ret identityID
      else DefaultSenderProfileID u.

Definition resolveLegacySenderProfileID (u : User) (fromMode identityID fromManual : string) :
    MDB string :=
  let authEmail := TrimSpace (MailIdentity u) in
  let! sessionProfile := EnsureSessionMailProfile u in
  let mode := fold_trim fromMode in
  if String.eqb mode "" || String.eqb mode "default" then ret (sp_ID sessionProfile)
  else if String.eqb mode "manual" then
    let manualSender := TrimSpace fromManual in
    let manualSender := if String.eqb manualSender "" then authEmail else manualSender in
    if negb (EqualFold manualSender authEmail)
    then throw (ErrText "manual sender must match authenticated account email")
    else ret (sp_ID sessionProfile)
  else if String.eqb mode "identity" then
    let identityID := TrimSpace identityID in
    if String.eqb identityID ""
    then throw (ErrText "identity_id is required when from_mode=identity")
    else let! _ := GetSenderProfileByID u identityID in ret identityID
  else throw (ErrText "unsupported from_mode").

Definition resolved (p : SenderProfile) (accountID : string) : ResolvedComposeSender :=
  mkResolvedSender (pf_ID p) (pf_ID p) accountID (TrimSpace (pf_Name p)) (TrimSpace (pf_FromEmail p))
    (TrimSpace (pf_FromEmail p)) (TrimSpace (pf_ReplyTo p)).

Definition ResolveComposeSender (u : User) (senderProfileID fromMode identityID fromManual : string) :
    MDB ResolvedComposeSender :=
  let authEmail := TrimSpace (MailIdentity u) in
  if String.eqb authEmail ""
  then throw (ErrText "authenticated session mail identity is required")
  else
    let senderProfileID := TrimSpace senderProfileID in
    let! senderProfileID :=
      if String.eqb senderProfileID ""
      then resolveLegacySenderProfileID u fromMode identityID fromManual
      else ret senderProfileID in
    let! profile := GetSenderProfileByID u senderProfileID in
    if String.eqb (TrimSpace (pf_FromEmail profile)) ""
    then throw (ErrText "selected sender is missing from_email")
    else if String.eqb (TrimSpace (pf_AccountID profile)) "" then
      if pf_IsPrimary profile then ret (resolved profile "")
      else throw (ErrText "selected sender requires a sending account")
    else
      let! account := on_base (GetMailAccountByID (u_ID u) (pf_AccountID profile)) in
      if negb (String.eqb (fst (senderStatusForAccount (Some account))) "ok") then
        if pf_IsPrimary profile then ret (resolved profile "")
        else throw (ErrText "selected sender is not available for sending")
      else ret (resolved profile (ma_ID account)).
End Senders.
