(* ===== verification/DraftSend.v ===== *)
(** * DraftSend: the message a draft becomes

    internal/service/draft_send.go: the recipients, attachments, sender and
    reply headers of a stored draft.  A date in [attachments_json] written with
    escape sequences, which [time.Time] refuses, is read here as unescaped. *)

From S2P Require Import Prelude GoStrings Effects GoStd GoText Json Threading Models Users Mfa MailAccounts.
From S2P Require Import Host Identity MailModels Drafts MailSenders.
Local Open Scope Z_scope.

(** Items between commas, trimmed, each once up to case. *)
Definition splitDraftCSV (v : string) : list string :=
  fst (fold_left (fun '(out, seen) item =>
         let trimmed := TrimSpace item in
         if String.eqb trimmed "" then (out, seen)
         else
           let key := ToLower trimmed in
           if existsb (String.eqb key) seen then (out, seen)
           else (out ++ [trimmed], key :: seen)) (Split v (ascii_of 44)) ([], [])).

(** [json.Unmarshal] into a list of strings. *)
Definition text_items (l : list Json) : option (list string) :=
  mapM (fun v => match v with JText s => Some s | JNull => Some "" | _ => None end) l.

Definition decode_strings (raw : string) : option (list string) :=
  v ← json_unmarshal raw;
  match v with
  | JArray l => text_items l
  | JNull => Some []
  | _ => None
  end.

Definition parseJSONStringOrMessageIDList (raw : string) : list string :=
  let raw := TrimSpace raw in
  if String.eqb raw "" then []
  else
    let items := match decode_strings raw with
                 | Some out => List.filter (fun v => negb (String.eqb v "")) (map TrimSpace out)
                 | None => []
                 end in
    match items with [] => ParseMessageIDList raw | _ => items end.

(** The identifier of a [models.DraftAttachment]; its other fields must be of
    their types. *)
Definition attachment_ref (v : Json) : option string :=
  match v with
  | JNull => Some ""
  | JObject fields =>
      id ← decode_text_field "id" "" fields;
      _ ← decode_text_field "draft_id" "" fields;
      _ ← decode_text_field "user_id" "" fields;
      _ ← decode_text_field "filename" "" fields;
      _ ← decode_text_field "content_type" "" fields;
      _ ← decode_int_field "size_bytes" 0 fields;
      _ ← decode_bool_field "inline_part" false fields;
      _ ← decode_text_field "content_id" "" fields;
      _ ← decode_int_field "sort_order" 0 fields;
      if time_field_ok "created_at" fields && time_field_ok "updated_at" fields
      then Some id else None
  | _ => None
  end.

Definition attachment_refs (raw : string) : option (list string) :=
  v ← json_unmarshal raw;
  match v with
  | JArray l => mapM attachment_ref l
  | JNull => Some []
  | _ => None
  end.

Definition send_attachment (a : DraftAttachment) : SendAttachment :=
  mkSendAttachment (da_Filename a) (da_ContentType a) (da_Data a) (da_InlinePart a)
    (da_ContentID a).

Section DraftSend.
Context {host : Host} {servers : MailServers}.

Fixpoint load_attachments (userID draftID : string) (refs : list string) :
    MDB (list SendAttachment) :=
  match refs with
  | [] => ret []
  | ref :: rest =>
      let attachmentID := TrimSpace ref in
      if String.eqb attachmentID "" then load_attachments userID draftID rest
      else
        let! item := GetDraftAttachmentByID userID draftID attachmentID in
        let! out := load_attachments userID draftID rest in
        ret (send_attachment item :: out)
  end.

Definition buildDraftSendAttachments (userID : string) (draft : Draft) : MDB (list SendAttachment) :=
  let trimmed := TrimSpace (dr_AttachmentsJSON draft) in
  if String.eqb trimmed "" || String.eqb trimmed "[]" then ret []
  else match attachment_refs trimmed with
       | None => throw (ErrText "invalid attachments_json")
       | Some refs => load_attachments userID (dr_ID draft) refs
       end.

Definition get_message (login pass id : string) : MDB LiveMessage :=
  let c := CallGetMessage login pass id in
  let! n := client_call c in ret (mail_message n c).

(** The request, the account it is sent through, and whether the message it
    answers is to be marked. *)
Definition BuildDraftSendRequest (u : User) (login pass : string) (draft : Draft) :
    MDB (SendRequest * string * bool) :=
  let sendAccountID := TrimSpace (dr_AccountID draft) in
  do! when (negb (String.eqb sendAccountID ""))
        (let! _ := on_base (GetMailAccountByID (u_ID u) sendAccountID) in ret tt) in
  let! attachments := buildDraftSendAttachments (u_ID u) draft in
  let! sender := ResolveComposeSender u (dr_SenderProfileID draft) (dr_FromMode draft)
                   (dr_IdentityID draft) (dr_FromManual draft) in
  let req := mkSendRequest (rs_HeaderFromEmail sender) (rs_HeaderFromName sender)
    (rs_HeaderFromEmail sender) (rs_EnvelopeFrom sender) (rs_ReplyTo sender)
    (splitDraftCSV (dr_ToValue draft)) (splitDraftCSV (dr_CCValue draft))
    (splitDraftCSV (dr_BCCValue draft)) (dr_Subject draft) (dr_BodyText draft)
    (dr_BodyHTML draft) "" [] "" attachments "" in
  let sendAccountID := if negb (String.eqb (rs_AccountID sender) "") then rs_AccountID sender
                       else sendAccountID in
  let contextID := TrimSpace (dr_ContextMessageID draft) in
  if negb (String.eqb (fold_trim (dr_ComposeMode draft)) "reply") || String.eqb contextID ""
  then ret (req, sendAccountID, false)
  else
    let contextAccountID := TrimSpace (dr_ContextAccountID draft) in
    let! headers :=
      if negb (String.eqb contextAccountID "") then
        let! _ := on_base (GetMailAccountByID (u_ID u) contextAccountID) in
        let! original := GetIndexedMessageByID contextAccountID contextID in
        ret (BuildReplyHeaders (im_MessageIDHeader original) (im_InReplyToHeader original)
               (parseJSONStringOrMessageIDList (im_ReferencesHeader original)))
      else
        let! original := get_message login pass contextID in
        ret (BuildReplyHeaders (lm_MessageID original) (lm_InReplyTo original)
               (lm_References original)) in
    ret (req <| sr_InReplyToID := fst headers |> <| sr_References := snd headers |>,
         sendAccountID, true).
End DraftSend.

Example splitDraftCSV_ex : splitDraftCSV " a@x.org, ,B@x.org,A@X.org " = ["a@x.org"; "B@x.org"].
Proof. reflexivity. Qed.

(** * ScheduledSends: the worker that sends queued drafts

    [processScheduledSends] and [processScheduledSendItem] of
    internal/workers/mail_workers.go.  The client of an account is known by
    the login and password it is called with. *)

Section Worker.
Context {host : Host} {servers : MailServers}.

(** [time.Duration(1<<uint(retryCount-1)) * 30 * time.Second]; a negative
    count makes the shift count huge and the result 0. *)
Definition retry_delay (retryCount : Z) : Z :=
  (if retryCount <? 1 then 0 else Z.shiftl 1 (retryCount - 1)) * (30 * Second).

(** Both rows give up with a reason; their errors are dropped. *)
Definition abandon (item : ScheduledSendQueueItem) (reason : string) : MDB unit :=
  do! ignore (MarkScheduledSendFailed (qi_ID item) reason) in
  ignore (SetDraftSendState (qi_UserID item) (qi_DraftID item) "failed" reason).

(** Runs [k] on what [m] found; a missing row is dealt with by [missing]. *)
Definition or_missing {A} (m : MDB A) (missing : GoErr -> MDB unit) (k : A -> MDB unit) : MDB unit :=
  let! r := attempt m in
  match r with
  | Ok a => k a
  | Fail e => if errors_Is e ErrNotFound then missing e else throw e
  end.

Definition send_message (login pass : string) (req : SendRequest) : MDB nat :=
  client_call (CallSend login pass req).

(** A failed send: another attempt is scheduled, or none is left. *)
Definition send_failed (item : ScheduledSendQueueItem) (err : GoErr) : MDB unit :=
  let retryCount := qi_RetryCount item + 1 in
  if 3 <=? retryCount then abandon item (err_text err)
  else
    let! now := time_Now in
    do! ignore (MarkScheduledSendRetry (qi_ID item) retryCount (now + retry_delay retryCount)
                  (err_text err)) in
    ignore (SetDraftSendState (qi_UserID item) (qi_DraftID item) "retrying" (err_text err)).

Definition flag_answered (login pass id : string) : MDB unit :=
  ignore (client_call (CallUpdateFlags login pass id ["\Answered"])).

(** The message answered is marked, through its own account when it has one. *)
Definition mark_answered (item : ScheduledSendQueueItem) (draft : Draft)
    (sendLogin sendPass : string) : MDB unit :=
  let contextAccountID := TrimSpace (dr_ContextAccountID draft) in
  if negb (String.eqb contextAccountID "") then
    let! r := attempt (on_base (GetMailAccountByID (qi_UserID item) contextAccountID)) in
    do! match r with
        | Ok a => match DecryptString (ma_SecretEnc a) with
                  | Ok pass => flag_answered (ma_Login a) pass (dr_ContextMessageID draft)
                  | Fail _ => ret tt
                  end
        | Fail _ => ret tt
        end in
    ignore (SetIndexedMessageAnswered contextAccountID (dr_ContextMessageID draft) true)
  else flag_answered sendLogin sendPass (dr_ContextMessageID draft).

Definition after_send (item : ScheduledSendQueueItem) (draft : Draft) (login pass : string)
    (markAnswered : bool) (sent : Res nat) : MDB unit :=
  match sent with
  | Fail e => send_failed item e
  | Ok _ =>
      do! ignore (MarkScheduledSendSent (qi_ID item)) in
      do! ignore (SetDraftSendState (qi_UserID item) (qi_DraftID item) "sent" "") in
      when (markAnswered && negb (String.eqb (TrimSpace (dr_ContextMessageID draft)) ""))
        (mark_answered item draft login pass)
  end.

(** The account the message leaves through: the queue's, or the sender's own. *)
Definition with_send_account (item : ScheduledSendQueueItem) (queueAccount : MailAccount)
    (queuePass sendAccountID : string) (k : string -> string -> MDB unit) : MDB unit :=
  let resolved := TrimSpace sendAccountID in
  if negb (String.eqb resolved "") && negb (String.eqb resolved (ma_ID queueAccount)) then
    or_missing (on_base (GetMailAccountByID (qi_UserID item) resolved))
      (fun _ => abandon item "send account not found")
      (fun a => let! pass := of_res (DecryptString (ma_SecretEnc a)) in k (ma_Login a) pass)
  else k (ma_Login queueAccount) queuePass.

Definition processScheduledSendItem (item : ScheduledSendQueueItem) : MDB unit :=
  or_missing (GetDraftByID (qi_UserID item) (qi_DraftID item))
    (fun _ => ignore (MarkScheduledSendFailed (qi_ID item) "draft not found")) (fun draft =>
  or_missing (on_base (GetMailAccountByID (qi_UserID item) (qi_AccountID item)))
    (fun _ => abandon item "mail account not found") (fun queueAccount =>
  let! user := on_base (GetUserByID (qi_UserID item)) in
  let! queuePass := of_res (DecryptString (ma_SecretEnc queueAccount)) in
  or_missing (BuildDraftSendRequest user (ma_Login queueAccount) queuePass draft)
    (fun e => abandon item (err_text e)) (fun '(sendReq, sendAccountID, markAnswered) =>
  if Nat.eqb (length (sr_To sendReq ++ sr_CC sendReq ++ sr_BCC sendReq)) 0
  then abandon item "no recipients"
  else
    with_send_account item queueAccount queuePass sendAccountID (fun login pass =>
      let! sent := attempt (send_message login pass sendReq) in
      after_send item draft login pass markAnswered sent)))).

(** An item's error is logged and the next one is taken. *)
Fixpoint process_items (items : list ScheduledSendQueueItem) : MDB unit :=
  match items with
  | [] => ret tt
  | item :: rest =>
      let! _ := attempt (processScheduledSendItem item) in process_items rest
  end.

Definition processScheduledSends : MDB unit :=
  let! now := time_Now in
  let! r := attempt (ListDueScheduledSends now 50) in
  match r with
  | Fail _ => ret tt
  | Ok items => process_items items
  end.
End Worker.
