(* ===== verification/Auth.v ===== *)
(** * Auth: sign-in and sessions of internal/service/service.go

    [Login], [ValidateSession], [Logout], the passkey and unlock paths, and the
    mail account a PAM sign-in creates (internal/service/mail_accounts.go). *)

From S2P Require Import Prelude GoStrings Effects GoStd Models Users Sessions Mfa MailAccounts Host.
From S2P Require Import FeatureFlags Identity.
Local Open Scope Z_scope.

Section Auth.
Context {host : Host} {dep : Deployment}.

Definition InstanceMode : DBM string :=
  let! raw := GetSetting "instance.mode" in
  ret match raw with
      | Some v => NormalizeInstanceMode v
      | None => InstanceModeLocalStack
      end.

Definition baseDomain : DBM string :=
  let! v := GetSetting "base_domain" in
  let stored := match v with Some v => normalizeDomain v | None => "" end in
  if negb (String.eqb stored "") then ret stored
  else
    let domain := normalizeDomain (BaseDomain cfg) in
    ret (if String.eqb domain "" then "example.com" else domain).

(** ** Mail credentials *)

(** The loop over the candidates: the first login the server accepts wins, a
    connectivity error ends the search. *)
Fixpoint try_logins (all candidates : list string) (password : string) : DBM string :=
  match candidates with
  | [] => throw (PAMCredentialsInvalidError all)
  | candidate :: rest =>
      let! r := attempt (call (IMAPListMailboxes candidate password)) in
      match r with
      | Ok _ => ret candidate
      | Fail e => if isMailConnectivityError e then throw e
                  else try_logins all rest password
      end
  end.

Definition verifyMailCredentials (email password explicitLogin storedLogin : string) :
    DBM string :=
  if String.eqb (TrimSpace email) "" || String.eqb (TrimSpace password) ""
  then throw ErrInvalidCredentials
  else
    let candidates := pamLoginCandidates explicitLogin storedLogin email in
    match candidates with
    | [] => throw ErrInvalidCredentials
    | _ => try_logins candidates candidates password
    end.

(** ** The mail account of an authenticated user *)

Definition mailLoginMatchesAny (login : string) (candidates : list string) : bool :=
  let login := TrimSpace login in
  negb (String.eqb login "")
  && existsb (fun candidate => EqualFold login (TrimSpace candidate)) candidates.

Definition new_mail_account (u : User) (id login secretEnc : string) (isDefault : bool) :
    MailAccount := {|
  ma_ID := id; ma_UserID := u_ID u; ma_DisplayName := ""; ma_Login := login;
  ma_SecretEnc := secretEnc;
  ma_IMAPHost := IMAPHost cfg; ma_IMAPPort := IMAPPort cfg; ma_IMAPTLS := IMAPTLS cfg;
  ma_IMAPStartTLS := IMAPStartTLS cfg; ma_SMTPHost := SMTPHost cfg; ma_SMTPPort := SMTPPort cfg;
  ma_SMTPTLS := SMTPTLS cfg; ma_SMTPStartTLS := SMTPStartTLS cfg;
  ma_IsDefault := isDefault; ma_Status := "active"; ma_LastSyncAt := None;
  ma_LastError := None; ma_ProviderType := "generic";
  ma_ProviderLabel := "Generic IMAP/SMTP"; ma_AuthKind := "password";
  ma_ConnectionMode := "imap_smtp"; ma_ValidationIMAPReady := false;
  ma_ValidationSMTPReady := false; ma_ValidationAppPasswordRequired := false;
  ma_ValidationError := ""; ma_LastValidatedAt := None; ma_CreatedAt := ZeroTime;
  ma_UpdatedAt := ZeroTime |}.

Definition EnsureAuthenticatedMailAccount (u : User) : DBM unit :=
  let! mode := InstanceMode in
  if negb (InstanceModeUsesLocalMail mode) then ret tt
  else
    let login := TrimSpace (MailAuthLogin u) in
    if String.eqb login "" then ret tt
    else
      let! secret := attempt (GetUserMailSecret (u_ID u)) in
      match secret with
      | Fail ErrNotFound => ret tt
      | Fail e => throw e
      | Ok None => ret tt
      | Ok (Some secretEnc) =>
          let candidates := if usesPAMAuth then pamLoginCandidates "" login (u_Email u)
                            else [login] in
          let! accounts := ListMailAccounts (u_ID u) in
          let hasDefault := existsb ma_IsDefault accounts in
          match List.find (fun a => mailLoginMatchesAny (ma_Login a) candidates) accounts with
          | Some account =>
              let stale := negb (String.eqb (TrimSpace (ma_SecretEnc account))
                                            (TrimSpace secretEnc)) in
              let account := if stale
                then account <| ma_SecretEnc := secretEnc |> <| ma_Status := "active" |>
                             <| ma_LastError := None |>
                else account in
              let promote := negb (ma_IsDefault account) && negb hasDefault in
              let account := if promote then account <| ma_IsDefault := true |> else account in
              if stale || promote then let! _ := UpdateMailAccount account in ret tt
              else ret tt
          | None =>
              let! id := uuid_NewString in
              let! _ := CreateMailAccount
                          (new_mail_account u id login secretEnc (negb hasDefault)) in
              ret tt
          end
      end.

(** ** Credentials of a sign-in *)

(** The common block of [Login] and [UnlockSessionMailSecret]: PAM accepts one
    of the user's logins, which is remembered, or the stored hash matches. *)
Definition check_credentials (u : User) (password : string) : DBM User :=
  if usesPAMAuth then
    let stored := default "" (u_MailLogin u) in
    let! r := attempt (verifyMailCredentials (u_Email u) password "" stored) in
    match r with
    | Fail e => if isMailConnectivityError e
                then throw (ErrWrap ErrPAMVerifierDown (err_text e))
                else throw ErrInvalidCredentials
    | Ok acceptedLogin =>
        if negb (String.eqb (TrimSpace acceptedLogin) (TrimSpace stored)) then
          do! UpdateUserMailLogin (u_ID u) acceptedLogin in
          let accepted := TrimSpace acceptedLogin in
          ret (if negb (String.eqb accepted "") then u <| u_MailLogin := Some accepted |> else u)
        else ret u
    end
  else if VerifyPassword (u_PasswordHash u) password then ret u
  else throw ErrInvalidCredentials.

Definition status_gate (u : User) : Res unit :=
  match u_Status u with
  | UserPending => Fail ErrPendingApproval
  | UserSuspended => Fail ErrSuspended
  | UserRejected => Fail ErrForbidden
  | UserActive => Ok tt
  end.

(** Active, or an administrator of any status. *)
Definition may_hold_session (u : User) : bool :=
  bool_decide (u_Status u = UserActive) || String.eqb (u_Role u) "admin".

Definition Login (email password ip userAgent : string) : DBM (string * User) :=
  let! found := attempt (GetUserByEmail (fold_trim email)) in
  match found with
  | Fail _ => throw ErrInvalidCredentials
  | Ok u0 =>
      let! u := check_credentials u0 password in
      do! of_res (status_gate u) in
      if negb (may_hold_session u) then throw ErrForbidden
      else
        let! (raw, tokenHash) := NewOpaqueToken in
        let! mailSecret := EncryptString password in
        do! UpsertUserMailSecret (u_ID u) mailSecret in
        do! when usesPAMAuth (ignore (EnsureAuthenticatedMailAccount u)) in
        let! now := time_Now in
        let! stage := ResolveMFAStage u None in
        let mfaVerifiedAt :=
          match st_AuthStage stage with AuthStageAuthenticated => Some now | _ => None end in
        let! id := uuid_NewString in
        let sess := {|
          s_ID := id; s_UserID := u_ID u; s_TokenHash := tokenHash;
          s_MailSecret := mailSecret; s_IPHint := ip; s_UserAgentHash := hashUA userAgent;
          s_AuthMethod := "password"; s_MFAVerifiedAt := mfaVerifiedAt;
          s_ActiveAccountID := None;
          s_ExpiresAt := now + SessionAbsoluteDuration cfg;
          s_IdleExpiresAt := now + SessionIdleDuration cfg;
          s_CreatedAt := now; s_LastSeenAt := now; s_RevokedAt := None |} in
        do! CreateSession sess in
        do! ignore (TouchUserLastLogin (u_ID u) now) in
        ret (raw, u)
  end.

Definition CreatePasskeySession (user : User) (ip userAgent mailSecret : string) :
    DBM (string * Session) :=
  if negb (may_hold_session user) then throw ErrForbidden
  else
    let! (raw, tokenHash) := NewOpaqueToken in
    let! now := time_Now in
    let! id := uuid_NewString in
    let sess := {|
      s_ID := id; s_UserID := u_ID user; s_TokenHash := tokenHash;
      s_MailSecret := TrimSpace mailSecret; s_IPHint := ip;
      s_UserAgentHash := hashUA userAgent;
      s_AuthMethod := "passkey"; s_MFAVerifiedAt := Some now; s_ActiveAccountID := None;
      s_ExpiresAt := now + SessionAbsoluteDuration cfg;
      s_IdleExpiresAt := now + SessionIdleDuration cfg;
      s_CreatedAt := now; s_LastSeenAt := now; s_RevokedAt := None |} in
    do! CreateSession sess in
    do! ignore (TouchUserLastLogin (u_ID user) now) in
    ret (raw, sess).

Definition insertAuditBestEffort (actorID action target metadata : string) : DBM unit :=
  ignore (InsertAudit actorID action target metadata).

Definition UnlockSessionMailSecret (userID sessionID password0 : string) : DBM unit :=
  let password := TrimSpace password0 in
  if String.eqb password "" then throw ErrInvalidCredentials
  else
    let! found := attempt (GetUserByID userID) in
    match found with
    | Fail _ => throw ErrInvalidCredentials
    | Ok u0 =>
        let! u := check_credentials u0 password in
        let! mailSecret := EncryptString password in
        do! UpsertUserMailSecret (u_ID u) mailSecret in
        do! UpdateSessionMailSecret sessionID mailSecret in
        do! when usesPAMAuth (ignore (EnsureAuthenticatedMailAccount u)) in
        let meta := json_object [("session_id", JString sessionID);
                                 ("mode", JString (fold_trim (DovecotAuthMode cfg)))] in
        insertAuditBestEffort (u_ID u) "auth.mail_secret.unlock" (u_ID u) meta
    end.

(** [now.After(t)] is strict: a session is still good at its expiry. *)
Definition session_live (now : Z) (s : Session) : bool :=
  match s_RevokedAt s with None => true | Some _ => false end
  && negb (s_ExpiresAt s <? now) && negb (s_IdleExpiresAt s <? now).

Definition ValidateSession (rawToken : string) : DBM (User * Session) :=
  let! found := attempt (GetSessionByTokenHash (sha256_hex rawToken)) in
  match found with
  | Fail _ => throw ErrInvalidCredentials
  | Ok sess =>
      let! now := time_Now in
      if negb (session_live now sess) then throw ErrInvalidCredentials
      else
        do! ignore (TouchSession (s_ID sess) (now + SessionIdleDuration cfg)) in
        let! owner := attempt (GetUserByID (s_UserID sess)) in
        match owner with
        | Fail _ => throw ErrInvalidCredentials
        | Ok u => if negb (may_hold_session u) then throw ErrForbidden else ret (u, sess)
        end
  end.

Definition SessionMailPassword (sess : Session) : Res string :=
  if String.eqb (TrimSpace (s_MailSecret sess)) ""
  then Fail (ErrText "missing mail credentials")
  else match DecryptString (s_MailSecret sess) with
       | Ok pass => Ok pass
       | Fail _ => Fail ErrInvalidCredentials
       end.

Definition Logout (rawToken : string) : DBM unit :=
  let! found := attempt (GetSessionByTokenHash (sha256_hex rawToken)) in
  match found with
  | Fail _ => ret tt
  | Ok sess => RevokeSession (s_ID sess)
  end.
End Auth.
