(* ===== verification/Admin.v ===== *)
(** * Admin: registration and administration of internal/service/service.go *)

From S2P Require Import Prelude GoStrings Effects GoStd Models Users Sessions Mfa MailAccounts Host.
From S2P Require Import FeatureFlags Identity Auth.
Local Open Scope Z_scope.

Record SetupStatusInfo : Type := mkSetupStatus {
  ss_Required : bool; ss_BaseDomain : string;
  ss_DefaultAdminEmail : string; ss_DefaultAdminIdentifier : string;
  ss_DefaultFormatLocale : string; ss_DefaultTimezone : string; ss_AuthMode : string;
  ss_InstanceMode : string; ss_AvailableInstanceModes : list string;
  ss_BaseDomainRequired : bool; ss_AdminIdentifierKind : string;
  ss_AdminIdentifierLabel : string; ss_LoginIdentifierLabel : string;
  ss_RegistrationAllowed : bool; ss_PasswordMinLength : Z; ss_PasswordMaxLength : Z;
  ss_PasswordClassMin : Z; ss_PasskeyPrimarySignInEnabled : bool;
  ss_AutomaticUpdatesEnabled : bool      (* filled in by the router *)
}.

Record AdminCreateUserRequest : Type := mkAdminCreateUser {
  acu_Email : string; acu_RecoveryEmail : string; acu_MailboxLogin : string;
  acu_Password : string
}.

Section Admin.
Context {host : Host} {dep : Deployment}.

Definition stored_or_blank (key : string) (norm : string -> string) : DBM string :=
  let! r := attempt (GetSetting key) in
  ret match r with Ok (Some raw) => norm raw | _ => "" end.

Definition StoredDefaultFormatLocale : DBM string :=
  stored_or_blank "ui.default_format_locale" normalizePreferenceLocaleTag.

Definition StoredDefaultTimezone : DBM string :=
  stored_or_blank "ui.default_timezone" normalizePreferenceTimezone.

Definition DefaultTimezone : DBM string :=
  let! normalized := StoredDefaultTimezone in
  ret (if String.eqb normalized "" then "UTC" else normalized).

(** A read of the flag that fails leaves the configured value. *)
Definition passkey_or_config : DBM bool :=
  let! r := attempt PasskeySignInEnabled in
  ret match r with Ok b => b | Fail _ => PasskeyPasswordlessEnabled cfg end.

Definition SetupStatus : DBM SetupStatusInfo :=
  let! mode := InstanceMode in
  let! domain := baseDomain in
  let! adminCount := CountAdmins in
  let! passkey := passkey_or_config in
  let! locale := StoredDefaultFormatLocale in
  let! timezone := StoredDefaultTimezone in
  ret {|
    ss_Required := adminCount =? 0; ss_BaseDomain := domain;
    ss_DefaultAdminEmail := defaultAdminIdentifier mode domain;
    ss_DefaultAdminIdentifier := defaultAdminIdentifier mode domain;
    ss_DefaultFormatLocale := locale; ss_DefaultTimezone := timezone;
    ss_AuthMode := DovecotAuthMode cfg; ss_InstanceMode := mode;
    ss_AvailableInstanceModes :=
      [InstanceModeLocalStack; InstanceModeExternalAccounts; InstanceModeHybrid];
    ss_BaseDomainRequired := InstanceModeUsesLocalMail mode;
    ss_AdminIdentifierKind := instanceModeAdminIdentifierKind mode;
    ss_AdminIdentifierLabel := instanceModeAdminIdentifierLabel mode;
    ss_LoginIdentifierLabel := instanceModeLoginIdentifierLabel mode;
    ss_RegistrationAllowed := negb (is_external mode);
    ss_PasswordMinLength := PasswordMinLength cfg;
    ss_PasswordMaxLength := PasswordMaxLength cfg;
    ss_PasswordClassMin := 3; ss_PasskeyPrimarySignInEnabled := passkey;
    ss_AutomaticUpdatesEnabled := false |}.

Definition Register (email0 password recoveryEmail ip userAgent : string)
    (captchaOK : bool) (mfaPreference : string) : DBM unit :=
  let! status := SetupStatus in
  if ss_Required status then throw (ErrText "setup is not complete")
  else
    let email := fold_trim email0 in
    if String.eqb email "" || String.eqb password ""
    then throw (ErrText "email and password are required")
    else
      do! of_res (ValidatePassword password) in
      if negb (HasSuffix email ("@" +:+ ss_BaseDomain status))
      then throw (ErrText ("email must use @" +:+ ss_BaseDomain status))
      else
        let! normalizedRecovery := of_res (normalizeDistinctRecoveryEmail email recoveryEmail) in
        let! hash := HashPassword password in
        let preference := NormalizeMFAPreference mfaPreference in
        do! CreateUserWithMFARecovery email hash "user" UserPending preference
              normalizedRecovery in
        do! CreateRegistrationWithMFA email ip (hashUA userAgent) captchaOK preference in
        ret tt.

Definition provision_upsert (email passwordHash : string) : DBM unit :=
  call (ProvisionUpsert email passwordHash).

(** Provision the account; the outcome is recorded on the user. *)
Definition provision_recording (userID email hash : string) : DBM unit :=
  let! r := attempt (provision_upsert email hash) in
  match r with
  | Fail e =>
      do! ignore (UpdateProvisionState userID "error" (Some (err_text e))) in throw e
  | Ok _ => ignore (UpdateProvisionState userID "ok" None)
  end.

Definition ApproveRegistration (adminID regID : string) : DBM unit :=
  let! r := GetRegistrationByID regID in
  if negb (bool_decide (r_Status r = RegPending)) then throw ErrConflict
  else
    let! u := GetUserByEmail (r_Email r) in
    do! provision_recording (u_ID u) (u_Email u) (u_PasswordHash u) in
    do! SetRegistrationDecision regID RegApproved adminID "" in
    do! UpdateUserStatus (u_ID u) UserActive (Some adminID) in
    InsertAudit adminID "registration.approve" (u_ID u)
      (json_object [("registration_id", JString regID); ("user_id", JString (u_ID u))]).

Definition RejectRegistration (adminID regID reason : string) : DBM unit :=
  let! userID := RejectRegistrationAndDeletePendingUser regID adminID reason in
  let target := if String.eqb (TrimSpace userID) "" then regID else userID in
  insertAuditBestEffort adminID "registration.reject" target
    (json_object [("registration_id", JString regID); ("user_id", JString userID);
                  ("reason", JString reason)]).

Definition SuspendUser (adminID userID : string) : DBM unit :=
  let! u := GetUserByID userID in
  do! call (ProvisionDisable (u_Email u)) in
  do! UpdateUserStatus userID UserSuspended None in
  do! RevokeUserSessions userID in
  InsertAudit adminID "user.suspend" userID "{}".

Definition UnsuspendUser (adminID userID : string) : DBM unit :=
  let! u := GetUserByID userID in
  do! provision_recording (u_ID u) (u_Email u) (u_PasswordHash u) in
  do! UpdateUserStatus userID UserActive (Some adminID) in
  InsertAudit adminID "user.unsuspend" userID "{}".

Definition RetryProvisionUser (adminID userID : string) : DBM unit :=
  let! u := GetUserByID userID in
  do! provision_recording (u_ID u) (u_Email u) (u_PasswordHash u) in
  InsertAudit adminID "user.retry_provision" userID
    (json_object [("user_id", JString userID)]).

(** The user is looked up first so that a taken address is a conflict. *)
Definition require_free_email (email : string) : DBM unit :=
  let! r := attempt (GetUserByEmail email) in
  match r with
  | Ok _ => throw ErrConflict
  | Fail e => if errors_Is e ErrNotFound then ret tt else throw e
  end.

Definition AdminCreateUser (adminID : string) (req : AdminCreateUserRequest) : DBM User :=
  let! domain := baseDomain in
  let email := fold_trim (acu_Email req) in
  if String.eqb email "" then throw (ErrText "email is required")
  else match net_ParseAddress email with
  | None => throw (ErrText "invalid email")
  | Some parsed =>
      let email := fold_trim parsed in
      if negb (HasSuffix email ("@" +:+ domain))
      then throw (ErrText ("email must use @" +:+ domain))
      else
        do! require_free_email email in
        let password := TrimSpace (acu_Password req) in
        if String.eqb password "" then throw (ErrText "password is required")
        else
          let! recoveryEmail :=
            of_res (normalizeDistinctRecoveryEmailOptional email (acu_RecoveryEmail req)) in
          let! acceptedLogin :=
            if usesPAMAuth then
              let! r := attempt (verifyMailCredentials email password
                                   (acu_MailboxLogin req) "") in
              match r with
              | Ok login => ret login
              | Fail e => if isMailConnectivityError e
                          then throw (ErrWrap ErrPAMVerifierDown (err_text e)) else throw e
              end
            else do! of_res (ValidatePassword password) in ret "" in
          let! passwordHash := HashPassword password in
          do! when (negb usesPAMAuth) (provision_upsert email passwordHash) in
          let! user := CreateUserWithMFARecovery email passwordHash "user" UserActive "none"
                         recoveryEmail in
          do! UpdateUserStatus (u_ID user) UserActive (Some adminID) in
          do! UpdateProvisionState (u_ID user) "ok" None in
          let login := TrimSpace acceptedLogin in
          do! when (negb (String.eqb login "")) (UpdateUserMailLogin (u_ID user) login) in
          let user := if negb (String.eqb login "") then user <| u_MailLogin := Some login |>
                      else user in
          let! secret := attempt (EncryptString password) in
          do! match secret with
              | Ok mailSecret => ignore (UpsertUserMailSecret (u_ID user) mailSecret)
              | Fail _ => ret tt
              end in
          do! when usesPAMAuth (ignore (EnsureAuthenticatedMailAccount user)) in
          let! created := GetUserByID (u_ID user) in
          do! insertAuditBestEffort adminID "user.create" (u_ID created)
            (json_object [("user_id", JString (u_ID created));
                          ("email", JString (u_Email created));
                          ("auth_mode", JString (fold_trim (DovecotAuthMode cfg)));
                          ("mail_login", JString (TrimSpace acceptedLogin))]) in
          ret created
  end.

Definition UpdateRecoveryEmail (userID recoveryEmail : string) : DBM string :=
  let! u := GetUserByID userID in
  let! normalized := of_res (normalizeDistinctRecoveryEmail (u_Email u) recoveryEmail) in
  do! UpdateUserRecoveryEmail userID normalized in
  ret normalized.
End Admin.

(** * Setup: first-run setup of internal/service/service.go *)

Record SetupCompleteRequest : Type := mkSetupComplete {
  sc_BaseDomain : string; sc_AdminEmail : string; sc_AdminRecoveryEmail : string;
  sc_AdminMailboxLogin : string; sc_AdminPassword : string; sc_DefaultFormatLocale : string;
  sc_DefaultTimezone : string; sc_InstanceMode : string;
  sc_PasskeyPrimarySignInEnabled : option bool
}.

Definition when_set {env : Env} (key value : string) : DBM unit :=
  when (negb (String.eqb value "")) (UpsertSetting key value).

Section Setup.
Context {host : Host} {dep : Deployment}.

(** The domain and the administrator's identifier, by instance mode. *)
Definition setup_domain (req : SetupCompleteRequest) : string :=
  let domain := normalizeDomain (sc_BaseDomain req) in
  if String.eqb domain "" then normalizeDomain (BaseDomain cfg) else domain.

Definition setup_identifier (req : SetupCompleteRequest) (mode domain : string) : Res string :=
  let adminIdentifier := TrimSpace (sc_AdminEmail req) in
  if InstanceModeUsesLocalMail mode then
    if negb (domainRx_match domain) then Fail (ErrText "invalid domain name")
    else
      let adminIdentifier := if String.eqb adminIdentifier "" then defaultAdminEmail domain
                             else adminIdentifier in
      match net_ParseAddress adminIdentifier with
      | None => Fail (ErrText "invalid admin email")
      | Some parsed =>
          let adminIdentifier := fold_trim parsed in
          if negb (HasSuffix adminIdentifier ("@" +:+ domain))
          then Fail (ErrText ("admin email must use @" +:+ domain))
          else Ok adminIdentifier
      end
  else normalizeExternalAdminIdentifier adminIdentifier.

Definition setup_recovery (req : SetupCompleteRequest) (mode adminIdentifier : string) :
    Res string :=
  if is_external mode
  then normalizeDistinctRecoveryEmailOptional adminIdentifier (sc_AdminRecoveryEmail req)
  else normalizeDistinctRecoveryEmail adminIdentifier (sc_AdminRecoveryEmail req).

(** A preference that was given but normalises to nothing is an error. *)
Definition setup_preference (raw normalized what : string) : Res string :=
  if negb (String.eqb (TrimSpace raw) "") && String.eqb normalized ""
  then Fail (ErrText ("invalid " +:+ what)) else Ok normalized.

(** The login PAM accepts, or [""] when the password is only validated. *)
Definition setup_credentials (req : SetupCompleteRequest) (mode adminIdentifier : string) :
    DBM string :=
  if usesPAMAuth && InstanceModeUsesLocalMail mode then
    if String.eqb (TrimSpace (sc_AdminPassword req)) ""
    then throw (ErrText "admin password is required")
    else
      let! r := attempt (verifyMailCredentials adminIdentifier (sc_AdminPassword req)
                           (sc_AdminMailboxLogin req) "") in
      match r with
      | Ok login => ret login
      | Fail e => if isMailConnectivityError e
                  then throw (ErrWrap ErrPAMVerifierDown (err_text e)) else throw e
      end
  else do! of_res (ValidatePassword (sc_AdminPassword req)) in ret "".

(** The settings and MFA flags setup writes. *)
Definition write_setup (req : SetupCompleteRequest)
    (mode domain adminIdentifier adminID locale timezone : string) : DBM unit :=
  do! UpsertSetting "instance.mode" mode in
  do! UpsertSetting "instance.cap.local_mail"
        (boolToFeatureFlagSetting (InstanceModeUsesLocalMail mode)) in
  do! UpsertSetting "instance.cap.external_mail"
        (boolToFeatureFlagSetting (InstanceModeUsesExternalMail mode)) in
  do! UpsertSetting "instance.cap.server_admin"
        (boolToFeatureFlagSetting (InstanceModeUsesLocalMail mode)) in
  do! UpsertSetting "base_domain" domain in
  do! UpsertSetting "primary_admin_email" adminIdentifier in
  do! UpsertSetting "primary_admin_identifier" adminIdentifier in
  let! passkey := passkey_or_config in
  let passkey := default passkey (sc_PasskeyPrimarySignInEnabled req) in
  do! UpsertSetting featureFlagSettingPasskeySignIn (boolToFeatureFlagSetting passkey) in
  do! UpsertSetting "enforce_admin_mfa" "1" in
  do! UpdateUserMFAPreference adminID "totp" in
  do! SetMFASetupSwitchUsed adminID false in
  do! SetUserMFABackupCompleted adminID false in
  do! SetLegacyMFAPromptPending adminID false in
  let! now := time_Now in
  do! UpsertSetting "setup_completed_at" (rfc3339 now) in
  do! when_set "ui.default_format_locale" locale in
  when_set "ui.default_timezone" timezone.

Definition CompleteSetup (req : SetupCompleteRequest) (ip userAgent : string) :
    DBM (string * User) :=
  let! adminCount := CountAdmins in
  if 0 <? adminCount then throw (ErrText "setup already completed")
  else
    let mode := NormalizeInstanceMode (sc_InstanceMode req) in
    let domain := setup_domain req in
    let! adminIdentifier := of_res (setup_identifier req mode domain) in
    let! recoveryEmail := of_res (setup_recovery req mode adminIdentifier) in
    let! locale := of_res (setup_preference (sc_DefaultFormatLocale req)
          (normalizePreferenceLocaleTag (sc_DefaultFormatLocale req)) "format locale") in
    let! timezone := of_res (setup_preference (sc_DefaultTimezone req)
          (normalizePreferenceTimezone (sc_DefaultTimezone req)) "timezone") in
    let! pamAcceptedLogin := setup_credentials req mode adminIdentifier in
    let! passwordHash := HashPassword (sc_AdminPassword req) in
    do! EnsureAdmin adminIdentifier passwordHash in
    let! adminUser := GetUserByEmail adminIdentifier in
    do! UpdateUserRecoveryEmail (u_ID adminUser) recoveryEmail in
    do! when (usesPAMAuth && negb (String.eqb (TrimSpace pamAcceptedLogin) ""))
          (UpdateUserMailLogin (u_ID adminUser) pamAcceptedLogin) in
    do! write_setup req mode domain adminIdentifier (u_ID adminUser) locale timezone in
    do! (if InstanceModeUsesLocalMail mode then
           provision_recording (u_ID adminUser) adminIdentifier passwordHash
         else ignore (UpdateProvisionState (u_ID adminUser) "ok" None)) in
    Login adminIdentifier (sc_AdminPassword req) ip userAgent.
End Setup.
