(* ===== verification/Reset.v ===== *)
(** * Reset: password reset of internal/service/service.go

    Self-service reset (request, then confirm with the mailed token), reset by
    an administrator, the health of the sender identity, and the sign-in code
    sent to a recovery address. *)

From S2P Require Import Prelude GoStrings Effects GoStd Models Users Sessions Mfa Host FeatureFlags Identity.
From S2P Require Import Auth Admin.
Local Open Scope Z_scope.

Record passwordResetSenderStateT : Type := mkSenderState {
  rs_Address : string; rs_Status : string; rs_Reason : string; rs_Ready : bool
}.

#[export] Instance eta_senderState : Eta passwordResetSenderStateT := fun r =>
  mkSenderState (rs_Address r) (rs_Status r) (rs_Reason r) (rs_Ready r).

Record PasswordResetCapabilitiesT : Type := mkCapabilities {
  pc_AuthMode : string; pc_SelfServiceEnabled : bool; pc_AdminResetEnabled : bool;
  pc_Delivery : string; pc_TokenTTLMinutes : Z; pc_RequiresMappedLogin : bool;
  pc_SenderAddress : string; pc_SenderStatus : string; pc_SenderReason : string
}.

Definition passwordResetReservationLease : Z := 30 * Second.
Definition senderStatusKey : string := "password_reset_sender.status".
Definition senderReasonKey : string := "password_reset_sender.reason".
Definition senderHashKey : string := "password_reset_sender.password_hash".

Section Reset.
Context {host : Host} {dep : Deployment}.

(** ** The sender identity *)

Definition hasProvisioner : bool :=
  match provisioner with NoopProvisioner => false | SQLProvisioner => true end.

Definition ready_state : passwordResetSenderStateT :=
  mkSenderState (PasswordResetFromAddress cfg) "ready" "" true.

Definition degraded (reason : string) : passwordResetSenderStateT :=
  mkSenderState (PasswordResetFromAddress cfg) "degraded" reason false.

Definition externalPasswordResetSenderState : passwordResetSenderStateT :=
  if PasswordResetExternalSenderReady cfg
  then mkSenderState (PasswordResetFromAddress cfg) "external" "" true
  else mkSenderState (PasswordResetFromAddress cfg) "external"
         "external_sender_unconfirmed" false.

(** Only the SMTP sender can be probed. *)
Definition probePasswordResetSenderTransport (state : passwordResetSenderStateT) :
    DBM passwordResetSenderStateT :=
  match sender with
  | LogSender => ret state
  | SMTPSender =>
      let! r := attempt (call ProbeSender) in
      ret match r with
          | Ok _ => state
          | Fail e => state <| rs_Status := "degraded" |>
                            <| rs_Reason := passwordResetSMTPReason e |>
                            <| rs_Ready := false |>
          end
  end.

Definition persistPasswordResetSenderState (state : passwordResetSenderStateT)
    (managedBy : string) : DBM unit :=
  do! UpsertSetting "password_reset_sender.address" (TrimSpace (rs_Address state)) in
  do! UpsertSetting senderStatusKey (TrimSpace (rs_Status state)) in
  do! UpsertSetting senderReasonKey (TrimSpace (rs_Reason state)) in
  UpsertSetting "password_reset_sender.managed_by" (TrimSpace managedBy).

Definition delivery_mode : string :=
  normalizePasswordResetSender (TrimSpace (ToLower (PasswordResetSender cfg))).

Definition persisted (state : passwordResetSenderStateT) (managedBy : string) :
    DBM passwordResetSenderStateT :=
  do! persistPasswordResetSenderState state managedBy in ret state.

Definition EnsurePasswordResetSenderIdentity : DBM passwordResetSenderStateT :=
  if String.eqb delivery_mode "log" then persisted (degraded "log_delivery_disabled") "app"
  else if negb (String.eqb delivery_mode "smtp") then persisted ready_state "app"
  else if usesPAMAuth then
    let state := externalPasswordResetSenderState in
    let! state := if rs_Ready state then probePasswordResetSenderTransport state
                  else ret state in
    persisted state "external"
  else if negb hasProvisioner then persisted (degraded "sql_provisioner_unconfigured") "app"
  else
    let! stored := GetSetting senderHashKey in
    let hash := match stored with Some h => TrimSpace h | None => "" end in
    let! hash :=
      if String.eqb hash "" then
        let! (raw, _) := NewOpaqueToken in
        let! hash := HashPassword (raw +:+ "|password-reset-sender") in
        do! UpsertSetting senderHashKey hash in
        ret hash
      else ret hash in
    let! r := attempt (provision_upsert (rs_Address ready_state) hash) in
    match r with
    | Fail _ => persisted (degraded "sender_provision_failed") "app"
    | Ok _ =>
        let! state := probePasswordResetSenderTransport ready_state in
        persisted state "app"
    end.

Definition passwordResetSenderState : DBM passwordResetSenderStateT :=
  let! status := GetSetting senderStatusKey in
  match status with
  | Some status =>
      let! reason := attempt (GetSetting senderReasonKey) in
      if String.eqb (TrimSpace status) "external" then ret externalPasswordResetSenderState
      else ret (mkSenderState (PasswordResetFromAddress cfg) (TrimSpace status)
                  match reason with Ok (Some r) => TrimSpace r | _ => "" end
                  (String.eqb (TrimSpace status) "ready"))
  | None =>
      if String.eqb delivery_mode "log" then ret (degraded "log_delivery_disabled")
      else if negb (String.eqb delivery_mode "smtp") then ret ready_state
      else if usesPAMAuth then
        let state := externalPasswordResetSenderState in
        if negb (rs_Ready state) then ret state else probePasswordResetSenderTransport state
      else if negb hasProvisioner then ret (degraded "sql_provisioner_unconfigured")
      else
        let! hash := GetSetting senderHashKey in
        let blank := match hash with
                     | Some h => String.eqb (TrimSpace h) ""
                     | None => true
                     end in
        if blank then ret (degraded "sender_not_initialized")
        else probePasswordResetSenderTransport ready_state
  end.

Definition PasswordResetCapabilities : DBM PasswordResetCapabilitiesT :=
  let! flag := attempt PublicPasswordResetEnabled in
  let publicResetEnabled :=
    match flag with Ok b => b | Fail _ => PasswordResetPublicEnabled cfg end in
  let delivery := if publicResetEnabled then delivery_mode else "disabled" in
  let! st := attempt passwordResetSenderState in
  let senderState := match st with Ok s => s | Fail _ => degraded "sender_state_read_failed" end in
  let helper := if usesPAMAuth then PAMResetHelperEnabled cfg else true in
  ret {|
    pc_AuthMode := fold_trim (DovecotAuthMode cfg);
    pc_SelfServiceEnabled := publicResetEnabled && helper && rs_Ready senderState;
    pc_AdminResetEnabled := helper; pc_Delivery := delivery;
    pc_TokenTTLMinutes := PasswordResetTokenTTLMinutes cfg; pc_RequiresMappedLogin := false;
    pc_SenderAddress := rs_Address senderState; pc_SenderStatus := rs_Status senderState;
    pc_SenderReason := rs_Reason senderState |}.

(** ** Requesting *)

Definition issuePasswordResetToken (u : User) (deliveryEmail0 : string) : DBM unit :=
  let deliveryEmail := fold_trim deliveryEmail0 in
  if String.eqb deliveryEmail "" then throw ErrInvalidRecoveryEmail
  else
    let! (raw, hash) := NewOpaqueToken in
    let! now := time_Now in
    let expiresAt := now + PasswordResetTokenTTLMinutes cfg * Minute in
    do! CreatePasswordResetToken (u_ID u) hash expiresAt in
    let! r := attempt (call (SendReset deliveryEmail raw)) in
    match r with
    | Ok _ => ret tt
    | Fail e => do! ignore (InvalidatePasswordResetToken hash) in throw e
    end.

(** By sign-in address, then by recovery address; [None] when nobody, or more
    than one account, answers to it. *)
Definition find_reset_user (email : string) : DBM (option User) :=
  let lookup_failed := ErrWrap ErrPasswordResetDelivery "lookup_failed" in
  let! r := attempt (GetUserByEmail email) in
  match r with
  | Ok u => ret (Some u)
  | Fail e =>
      if errors_Is e ErrNotFound then
        let! r := attempt (GetUserByRecoveryEmail email) in
        match r with
        | Ok u => ret (Some u)
        | Fail e => if errors_Is e ErrNotFound || errors_Is e ErrConflict then ret None
                    else throw lookup_failed
        end
      else throw lookup_failed
  end.

Definition RequestPasswordReset (email0 : string) : DBM unit :=
  let! flag := attempt PublicPasswordResetEnabled in
  match flag with
  | Fail _ | Ok false => throw ErrPasswordResetUnavailable
  | Ok true =>
      let! st := attempt EnsurePasswordResetSenderIdentity in
      match st with
      | Fail _ => throw ErrPasswordResetUnavailable
      | Ok state =>
          if negb (rs_Ready state) then throw ErrPasswordResetUnavailable
          else
            let! caps := PasswordResetCapabilities in
            if negb (pc_SelfServiceEnabled caps) then throw ErrPasswordResetUnavailable
            else
              let email := fold_trim email0 in
              if String.eqb email "" then ret tt
              else
                let! found := find_reset_user email in
                match found with
                | None => ret tt
                | Some u =>
                    if RecoveryEmailNeedsSetup (u_Email u) (u_RecoveryEmail u) then ret tt
                    else
                      let! r := attempt (issuePasswordResetToken u
                                           (default "" (u_RecoveryEmail u))) in
                      match r with
                      | Ok _ => ret tt
                      | Fail e => throw (ErrWrap ErrPasswordResetDelivery (err_text e))
                      end
                end
      end
  end.

(** ** Changing the password *)

Definition resetPasswordViaPAM (u : User) (newPassword : string) : DBM unit :=
  let login := match u_MailLogin u with Some l => TrimSpace l | None => "" end in
  let login := if String.eqb login "" then TrimSpace (u_Email u) else login in
  if pamResetter then call (PAMReset login newPassword)
  else if negb (PAMResetHelperEnabled cfg) then throw ErrPasswordResetHelperDown
  else
    let! _ := uuid_NewString in   (* the request id *)
    let! r := attempt (call (HelperReset login newPassword)) in
    match r with
    | Ok _ => ret tt
    | Fail e => if errors_Is e ErrHelperUnavailable then throw ErrPasswordResetHelperDown
                else throw ErrPasswordResetHelperFailed
    end.

Definition consumeReservedPasswordResetToken (tokenHash reservationID : string) : DBM unit :=
  let! r := attempt (ConsumeReservedPasswordResetToken tokenHash reservationID) in
  match r with
  | Ok _ => ret tt
  | Fail e => do! ignore (InvalidatePasswordResetToken tokenHash) in throw e
  end.

(** The steps after the password changed; their errors are dropped. *)
Definition after_password_change (u : User) (userID newPassword h : string) : DBM unit :=
  let! secret := attempt (EncryptString newPassword) in
  do! match secret with
      | Ok mailSecret => ignore (UpsertUserMailSecret userID mailSecret)
      | Fail _ => ret tt
      end in
  do! when (negb usesPAMAuth) (ignore (provision_recording (u_ID u) (u_Email u) h)) in
  do! ignore (RevokeUserSessions userID) in
  ignore (RevokeAllMFATrustedDevices userID).

(** The part of [ConfirmPasswordReset] under the deferred release; the flag
    says whether the reservation is still to be released. *)
Definition confirm_reserved (t : ResetToken) (tokenHash reservationID newPassword : string) :
    DBM (Res unit * bool) :=
  let stop_with {A} (e : GoErr) (release : bool) : DBM (Res A * bool) := ret (Fail e, release) in
  let! owner := attempt (GetUserByID (t_UserID t)) in
  match owner with
  | Fail _ => stop_with ErrInvalidCredentials true
  | Ok u =>
      let! first := attempt (
        if usesPAMAuth then
          do! resetPasswordViaPAM u newPassword in
          do! consumeReservedPasswordResetToken tokenHash reservationID in
          ret false
        else ret true) in
      match first with
      | Fail e => stop_with e true
      | Ok release =>
          let! hashed := attempt (
            let! h := HashPassword newPassword in
            do! UpdateUserPasswordHash (t_UserID t) h in
            ret h) in
          match hashed with
          | Fail e => stop_with e release
          | Ok h =>
              let! consumed := attempt (
                when (negb usesPAMAuth)
                  (consumeReservedPasswordResetToken tokenHash reservationID)) in
              match consumed with
              | Fail e => stop_with e release
              | Ok _ =>
                  do! after_password_change u (t_UserID t) newPassword h in
                  ret (Ok tt, false)
              end
          end
      end
  end.

Definition ConfirmPasswordReset (rawToken newPassword : string) : DBM unit :=
  let! flag := attempt PublicPasswordResetEnabled in
  match flag with
  | Fail _ | Ok false => throw ErrPasswordResetUnavailable
  | Ok true =>
      do! of_res (ValidatePassword newPassword) in
      let tokenHash := sha256_hex rawToken in
      let! reservationID := uuid_NewString in
      let! reserved := attempt (ReservePasswordResetToken tokenHash reservationID
                                  passwordResetReservationLease) in
      match reserved with
      | Fail _ => throw ErrInvalidCredentials
      | Ok t =>
          let! (result, release) := confirm_reserved t tokenHash reservationID newPassword in
          do! when release (ignore (ReleasePasswordResetTokenReservation tokenHash
                                      reservationID)) in
          of_res result
      end
  end.

Definition AdminResetPassword (adminID userID newPassword : string) : DBM unit :=
  do! of_res (ValidatePassword newPassword) in
  let! u := GetUserByID userID in
  do! when usesPAMAuth (resetPasswordViaPAM u newPassword) in
  let! h := HashPassword newPassword in
  do! UpdateUserPasswordHash userID h in
  do! after_password_change u userID newPassword h in
  InsertAudit adminID "user.reset_password" userID
    (json_object [("user_id", JString userID);
                  ("mode", JString (fold_trim (DovecotAuthMode cfg)))]).

(** ** Codes to the recovery address *)

Definition SendRecoveryEmailMFACode (u : User) (code0 : string) : DBM string :=
  let code := TrimSpace code0 in
  if String.eqb code "" then throw ErrInvalidCredentials
  else if RecoveryEmailNeedsSetup (u_Email u) (u_RecoveryEmail u)
  then throw ErrRecoveryEmailRequired
  else match sender with
  | LogSender => throw ErrRecoveryEmailMFAUnavailable
  | SMTPSender =>
      let deliveryEmail := fold_trim (default "" (u_RecoveryEmail u)) in
      if String.eqb deliveryEmail "" then throw ErrInvalidRecoveryEmail
      else
        let! r := attempt (call (SendCode deliveryEmail code)) in
        match r with
        | Ok _ => ret deliveryEmail
        | Fail e => throw (ErrWrap ErrRecoveryEmailMFADelivery (err_text e))
        end
  end.
End Reset.
