(* ===== verification/Lifecycle.v ===== *)
(** * Lifecycle: the abstract machine the handlers implement

    What the program promises about its database, as a transition relation.
    [table_step] says how one table may change: which rows may be inserted,
    what an update may do to a row, which rows may be deleted, and that the
    table's unique keys survive.  [db_step] instantiates it for every table;
    StoreRefinement and ServiceRefinement prove that every handler, under every schedule of driver
    faults, moves the database only along [db_step]. *)

From S2P Require Import Prelude GoStrings Effects GoStd Models Users Sessions Mfa MailAccounts Host.
Local Open Scope Z_scope.

(** ** One table *)

Section Table.
Context {R : Type}.
Implicit Types (rows : list R) (clash : R -> R -> bool) (p : R -> bool).

(** No two rows clash on a unique key. *)
Definition unique clash rows : Prop := ForallOrdPairs (fun r r0 => clash r r0 = false) rows.

Inductive table_step clash (new : R -> Prop) (evolves : R -> R -> Prop) (deletable : R -> Prop) :
    list R -> list R -> Prop :=
| row_inserted r rows :
    new r -> existsb (clash r) rows = false ->
    table_step clash new evolves deletable rows (rows ++ [r])
| rows_updated p f rows :
    (forall r, p r = true -> evolves r (f r)) ->
    (unique clash rows -> unique clash (update_rows p f rows)) ->
    table_step clash new evolves deletable rows (update_rows p f rows)
| rows_deleted p rows :
    (forall r, In r rows -> p r = true -> deletable r) ->
    table_step clash new evolves deletable rows (delete_rows p rows).
End Table.

(** ** How the rows of each table may change *)

Definition new_user (r : UserRow) : Prop :=
  ur_role r = "user" /\ (ur_status r = UserPending \/ ur_status r = UserActive).
Definition user_evolves (r r' : UserRow) : Prop :=
  ur_id r' = ur_id r /\ ur_email r' = ur_email r /\ ur_role r' = ur_role r
  /\ (ur_status r' = UserPending -> ur_status r = UserPending).
Definition user_deletable (r : UserRow) : Prop := ur_status r = UserPending.

Definition registration_evolves (r r' : Registration) : Prop :=
  r_Status r = RegPending /\ r_Status r' <> RegPending /\ r_DecidedAt r' <> None
  /\ r_ID r' = r_ID r /\ r_Email r' = r_Email r.
Definition registration_deletable (r : Registration) : Prop := r_Status r <> RegPending.

Definition session_evolves (s s' : Session) : Prop :=
  s_ID s' = s_ID s /\ s_UserID s' = s_UserID s /\ s_TokenHash s' = s_TokenHash s
  /\ s_ExpiresAt s' = s_ExpiresAt s /\ s_CreatedAt s' = s_CreatedAt s
  /\ (s_RevokedAt s <> None -> s_RevokedAt s' <> None).

(** A used token is never touched again. *)
Definition token_evolves (t t' : ResetToken) : Prop :=
  unused t = true /\ t_ID t' = t_ID t /\ t_UserID t' = t_UserID t
  /\ t_TokenHash t' = t_TokenHash t /\ t_ExpiresAt t' = t_ExpiresAt t.

Definition rate_clash (r r0 : RateEvent) : bool :=
  String.eqb (re_ID r) (re_ID r0) || rate_key (re_Key r) (re_Route r) (re_WindowStart r) r0.
Definition rate_evolves (r r' : RateEvent) : Prop :=
  re_ID r' = re_ID r /\ re_Key r' = re_Key r /\ re_Route r' = re_Route r
  /\ re_WindowStart r' = re_WindowStart r /\ re_Count r' = re_Count r + 1.

Definition setting_clash (r r0 : SettingValue) : bool := String.eqb (sv_Key r) (sv_Key r0).
Definition audit_clash (r r0 : AuditRow) : bool := String.eqb (a_ID r) (a_ID r0).
Definition totp_clash (r r0 : MFATOTPRecord) : bool := String.eqb (to_UserID r) (to_UserID r0).

Definition cred_clash (c c0 : WebAuthnCredential) : bool :=
  String.eqb (wc_ID c) (wc_ID c0) || String.eqb (wc_CredentialID c) (wc_CredentialID c0).
Definition cred_evolves (c c' : WebAuthnCredential) : Prop :=
  wc_ID c' = wc_ID c /\ wc_UserID c' = wc_UserID c /\ wc_CredentialID c' = wc_CredentialID c
  /\ wc_SignCount c <= wc_SignCount c'.

Definition code_clash (c c0 : RecoveryCode) : bool := String.eqb (rc_ID c) (rc_ID c0).
(** A spent code is never touched again. *)
Definition code_evolves (c c' : RecoveryCode) : Prop :=
  code_unused c = true /\ rc_ID c' = rc_ID c /\ rc_UserID c' = rc_UserID c
  /\ rc_CodeHash c' = rc_CodeHash c.

(** A revoked device is never touched again. *)
Definition device_evolves (x x' : TrustedDevice) : Prop :=
  dev_live x = true /\ td_ID x' = td_ID x /\ td_UserID x' = td_UserID x.

Definition meta_clash (m m0 : SessionMetaRow) : bool :=
  String.eqb (sm_SessionID m) (sm_SessionID m0).

Definition account_clash (a a0 : MailAccount) : bool := String.eqb (ma_ID a) (ma_ID a0).
Definition account_evolves (a a' : MailAccount) : Prop :=
  ma_ID a' = ma_ID a /\ ma_UserID a' = ma_UserID a.

(** ** The database *)

Section Machine.
Context {env : Env}.

(** [h] is what is stored of an opaque token drawn at or after position [k]. *)
Definition fresh_hash (k : nat) (h : string) : Prop :=
  exists n buf, (k <= n)%nat /\ env_rand n = Ok buf /\ h = sha256_hex (base64url_encode (bytes buf)).

(** [id] is a UUID drawn at or after position [k]. *)
Definition fresh_id (k : nat) (id : string) : Prop := exists n, (k <= n)%nat /\ env_uuid n = id.

Definition has_no_admin (d : Database) : Prop :=
  forall r, In r (users d) -> ur_role r <> "admin".

Definition pending_user (d : Database) (userID : string) : Prop :=
  exists r, In r (users d) /\ ur_id r = userID /\ ur_status r = UserPending.

Inductive db_step (k : nat) (d : Database) : Database -> Prop :=
| on_users rows :
    table_step user_clash new_user user_evolves user_deletable (users d) rows ->
    db_step k d (d <| users := rows |>)
| boot_inserted r :
    has_no_admin d -> existsb (user_clash r) (users d) = false ->
    ur_role r = "admin" -> ur_status r = UserActive ->
    db_step k d (d <| users := users d ++ [r] |>)
| boot_promoted p f :
    has_no_admin d ->
    (forall r, ur_id (f r) = ur_id r /\ ur_email (f r) = ur_email r
               /\ ur_role (f r) = "admin" /\ ur_status (f r) = UserActive) ->
    db_step k d (d <| users := update_rows p f (users d) |>)
| on_registrations rows :
    table_step reg_clash (fun r => r_Status r = RegPending /\ fresh_id k (r_ID r))
      registration_evolves registration_deletable (registrations d) rows ->
    db_step k d (d <| registrations := rows |>)
| on_sessions rows :
    table_step session_clash (fun s => fresh_hash k (s_TokenHash s) /\ s_RevokedAt s = None)
      session_evolves (fun s => pending_user d (s_UserID s)) (sessions d) rows ->
    db_step k d (d <| sessions := rows |>)
| on_tokens rows :
    table_step token_clash
      (fun t => fresh_hash k (t_TokenHash t) /\ t_UsedAt t = None /\ t_ReservedAt t = None)
      token_evolves (fun t => pending_user d (t_UserID t)) (reset_tokens d) rows ->
    db_step k d (d <| reset_tokens := rows |>)
| on_rates rows :
    table_step rate_clash (fun r => re_Count r = 1) rate_evolves (fun _ => True)
      (rate_events d) rows ->
    db_step k d (d <| rate_events := rows |>)
| on_settings rows :
    table_step setting_clash (fun _ => True) (fun r r' => sv_Key r' = sv_Key r)
      (fun _ => True) (settings d) rows ->
    db_step k d (d <| settings := rows |>)
| on_audit rows :
    table_step audit_clash (fun _ => True) (fun _ _ => False) (fun _ => False)
      (audit_log d) rows ->
    db_step k d (d <| audit_log := rows |>)
| on_totp rows :
    table_step totp_clash (fun _ => True) (fun r r' => to_UserID r' = to_UserID r)
      (fun _ => False) (mfa_totp d) rows ->
    db_step k d (d <| mfa_totp := rows |>)
| on_credentials rows :
    table_step cred_clash (fun _ => True) cred_evolves (fun _ => True) (webauthn d) rows ->
    db_step k d (d <| webauthn := rows |>)
| on_codes rows :
    table_step code_clash (fun c => rc_UsedAt c = None /\ fresh_id k (rc_ID c)) code_evolves (fun _ => True)
      (recovery_codes d) rows ->
    db_step k d (d <| recovery_codes := rows |>)
| on_devices rows :
    table_step device_clash (fun _ => True) device_evolves (fun _ => False)
      (trusted_devices d) rows ->
    db_step k d (d <| trusted_devices := rows |>)
| on_meta rows :
    table_step meta_clash (fun _ => True) (fun m m' => sm_SessionID m' = sm_SessionID m)
      (fun _ => False) (sessions_meta d) rows ->
    db_step k d (d <| sessions_meta := rows |>)
| on_accounts rows :
    table_step account_clash (fun _ => True) account_evolves (fun _ => True)
      (mail_accounts d) rows ->
    db_step k d (d <| mail_accounts := rows |>).

(** The unique keys of the schema. *)
Record well_formed (d : Database) : Prop := {
  wf_users : unique user_clash (users d);
  wf_registrations : unique reg_clash (registrations d);
  wf_sessions : unique session_clash (sessions d);
  wf_tokens : unique token_clash (reset_tokens d);
  wf_rates : unique rate_clash (rate_events d);
  wf_settings : unique setting_clash (settings d);
  wf_audit : unique audit_clash (audit_log d);
  wf_totp : unique totp_clash (mfa_totp d);
  wf_credentials : unique cred_clash (webauthn d);
  wf_codes : unique code_clash (recovery_codes d);
  wf_devices : unique device_clash (trusted_devices d);
  wf_meta : unique meta_clash (sessions_meta d);
  wf_accounts : unique account_clash (mail_accounts d)
}.
End Machine.

(** ** Laws of table steps *)

Section TableLaws.
Context {R : Type} (clash : R -> R -> bool) (new deletable : R -> Prop).
Context (evolves : R -> R -> Prop).
Implicit Types (rows : list R) (p : R -> bool) (f : R -> R).

Lemma unique_app rows r :
  (forall a b, clash a b = clash b a) ->
  unique clash rows -> existsb (clash r) rows = false -> unique clash (rows ++ [r]).
Proof.
  intros Hsym. induction 1 as [|x rows Hx Hrows IH]; simpl.
  - intros _. repeat constructor.
  - intros [Hrx Hr]%orb_false_iff. constructor; [|by apply IH].
    apply List.Forall_app. split; [done|].
    constructor; [|constructor]. by rewrite Hsym.
Qed.

Lemma unique_filter p rows : unique clash rows -> unique clash (List.filter p rows).
Proof.
  induction 1 as [|x rows Hx Hrows IH]; simpl; [constructor|].
  destruct (p x); [|done]. constructor; [|done].
  apply List.Forall_forall. intros y [Hy _]%filter_In.
  rewrite List.Forall_forall in Hx. auto.
Qed.

Lemma unique_update p f rows :
  (forall a b, clash (if p a then f a else a) (if p b then f b else b) = clash a b) ->
  unique clash rows -> unique clash (update_rows p f rows).
Proof.
  intros Hc. induction 1 as [|x rows Hx Hrows IH]; simpl; [constructor|].
  constructor; [|done]. apply List.Forall_forall.
  intros y (y0 & Hy & ->)%in_update_rows. rewrite Hc.
  rewrite List.Forall_forall in Hx. auto.
Qed.

Lemma unique_step rows rows' :
  (forall a b, clash a b = clash b a) ->
  table_step clash new evolves deletable rows rows' -> unique clash rows -> unique clash rows'.
Proof.
  intros Hsym [r l _ Hr|p f l _ Hu|p l _] Hrows;
    [by apply unique_app|by apply Hu|by apply unique_filter].
Qed.

(** Rows that clash are the same row. *)
Lemma unique_eq rows a b :
  unique clash rows -> In a rows -> In b rows -> clash a b = true -> clash b a = true -> a = b.
Proof.
  intros Hu Ha Hb Hab Hba. destruct (ForallOrdPairs_In Hu _ _ Ha Hb) as [->|[Hc|Hc]];
    congruence.
Qed.

(** A property of single rows that inserts establish and updates keep. *)
Lemma table_all (J : R -> Prop) rows rows' :
  table_step clash new evolves deletable rows rows' ->
  (forall r, new r -> J r) -> (forall r r', In r rows -> J r -> evolves r r' -> J r') ->
  (forall r, In r rows -> J r) -> forall r, In r rows' -> J r.
Proof.
  intros Hstep Hnew Hev HJ. destruct Hstep as [r rows Hr _|p f rows Hf _|p rows _]; intros x.
  - rewrite in_app_iff. intros [Hx|[<-|[]]]; auto.
  - rewrite in_update_rows. intros (x0 & Hx0 & ->).
    destruct (p x0) eqn:Hp; [|by apply HJ]. eapply Hev; eauto.
  - rewrite in_delete_rows. intros [Hx _]. auto.
Qed.

(** A row that may not be deleted persists, evolved. *)
Lemma table_some (J : R -> Prop) rows rows' :
  table_step clash new evolves deletable rows rows' ->
  (forall r r', In r rows -> J r -> evolves r r' -> J r') ->
  (forall r, In r rows -> J r -> ~ deletable r) ->
  (exists r, In r rows /\ J r) -> exists r, In r rows' /\ J r.
Proof.
  intros Hstep Hev Hdel (x & Hx & HJ).
  destruct Hstep as [r rows _ _|p f rows Hf _|p rows Hd].
  - exists x. rewrite in_app_iff. auto.
  - exists (if p x then f x else x). rewrite in_update_rows. split; [eauto|].
    destruct (p x) eqn:Hp; [|done]. eapply Hev; eauto.
  - exists x. rewrite in_delete_rows. split; [|done]. split; [done|].
    destruct (p x) eqn:Hp; [|done]. exfalso. eapply Hdel; eauto.
Qed.
End TableLaws.

(** [evolves] rows keep their unique keys, so an update by them is a step. *)
Lemma update_step {R} (clash : R -> R -> bool) new (evolves : R -> R -> Prop) deletable p f rows :
  (forall r, p r = true -> evolves r (f r)) ->
  (forall a b a' b', (evolves a a' \/ a' = a) -> (evolves b b' \/ b' = b) ->
     clash a' b' = clash a b) ->
  table_step clash new evolves deletable rows (update_rows p f rows).
Proof.
  intros Hf Hc. apply rows_updated; [done|].
  apply unique_update. intros a b. apply Hc.
  - destruct (p a) eqn:E; auto.
  - destruct (p b) eqn:E; auto.
Qed.

(** [INSERT ... ON CONFLICT DO UPDATE]. *)
Lemma insert_step {R} (clash : R -> R -> bool) (new : R -> Prop) evolves deletable r rows rows' :
  new r -> insert_row clash r rows = Ok rows' ->
  table_step clash new evolves deletable rows rows'.
Proof.
  intros Hr. unfold insert_row. destruct (existsb _ _) eqn:E; [done|].
  intros [= <-]. by apply row_inserted.
Qed.

(** Updates that keep keys, deletions, and inserts of single rows. *)
Ltac keys_kept :=
  unfold user_clash, session_clash, token_clash, rate_clash, rate_key, setting_clash, audit_clash,
    totp_clash, cred_clash, code_clash, meta_clash, account_clash,
    user_evolves, session_evolves, token_evolves, rate_evolves, cred_evolves, code_evolves,
    account_evolves;
  intros; simpl in *;
  repeat match goal with
         | H : _ \/ _ |- _ => destruct H
         | H : _ /\ _ |- _ => destruct H
         end; subst; congruence.

(** Clashes are symmetric. *)
Ltac keys_sym :=
  let a := fresh "a" in let b := fresh "b" in
  intros a b;
  unfold user_clash, reg_clash, session_clash, token_clash, rate_clash, rate_key, setting_clash,
    audit_clash, totp_clash, cred_clash, code_clash, device_clash, meta_clash, account_clash;
  repeat match goal with
         | |- context [String.eqb (?f a) (?f b)] => rewrite (String.eqb_sym (f a) (f b))
         | |- context [Z.eqb (?f a) (?f b)] => rewrite (Z.eqb_sym (f a) (f b))
         end.

Lemma reg_clash_sym a b : reg_clash a b = reg_clash b a.
Proof. revert a b. keys_sym. f_equal. f_equal. apply bool_decide_ext. split; congruence. Qed.
