(* ===== verification/StoreRefinement.v ===== *)
(** * StoreRefinement: every store operation moves along [db_step]

    One lemma per operation of the store, proved from its SQL statements.  The
    lemmas hold for every driver fault schedule and every oracle. *)

From S2P Require Import Prelude GoStrings Effects Models Users Sessions Mfa MailAccounts Lifecycle.
Local Open Scope Z_scope.

Abbreviation refines m := (forall k D, spec (db_step k) k D m any).

(** A statement that changes one table by a step of it. *)
Ltac by_table constr :=
  intros; first [apply spec_exec_any | apply spec_statement];
  repeat match goal with
         | |- forall _, _ => intros ?
         | H : Ok _ = Ok _ |- _ => injection H as ?; subst
         | H : (match ?x with Ok _ => _ | Fail _ => _ end) = Ok _ |- _ =>
             destruct x eqn:?; [|discriminate H]
         | |- _ /\ any _ _ => split; [|done]
         end;
  apply rtc_once, constr.

Ltac by_insert := eapply insert_step; [|eassumption]; first [done|split_and!; done].

Section StoreOps.
Context {env : Env}.

Lemma uuid_spec {B} k D (f : string -> DBM B) :
  (forall id, fresh_id k id -> spec (db_step k) k anydb (f id) any) ->
  spec (db_step k) k D (bind uuid_NewString f) any.
Proof.
  intros Hf. eapply spec_bind; [apply spec_uuid|]. intros id w Hk [_ Hid]. by apply Hf.
Qed.

(** ** Users *)

Lemma update_user_refines id f : (forall r, user_evolves r (f r)) -> refines (update_user id f).
Proof. intros Hf. by_table on_users. apply update_step; [auto|keys_kept]. Qed.

Lemma update_user_found_refines id f :
  (forall r, user_evolves r (f r)) -> refines (update_user_found id f).
Proof.
  intros Hf k D. apply spec_seq; [by_table on_users|spec_walk].
  apply update_step; [auto|keys_kept].
Qed.

Lemma insert_user_refines r : new_user r -> refines (insert_user r).
Proof. intros Hr. by_table on_users. by_insert. Qed.

Hint Extern 2 (user_evolves _ _) => split_and!; (done || congruence) : despatch.
Hint Resolve update_user_refines update_user_found_refines insert_user_refines : despatch.

Lemma CreateUser_refines email hash status pref recovery :
  status = UserPending \/ status = UserActive ->
  refines (CreateUserWithMFARecovery email hash "user" status pref recovery).
Proof.
  intros Hs. unfold CreateUserWithMFARecovery. spec_walk. by apply insert_user_refines.
Qed.

Lemma UpdateUserStatus_refines id status approver :
  status <> UserPending -> refines (UpdateUserStatus id status approver).
Proof.
  intros Hs. unfold UpdateUserStatus. spec_walk;
    apply update_user_refines; intros r; split_and!; done.
Qed.

Lemma UpdateUserPasswordHash_refines u h : refines (UpdateUserPasswordHash u h).
Proof. unfold UpdateUserPasswordHash. spec_walk. Qed.
Lemma UpdateUserMailLogin_refines u l : refines (UpdateUserMailLogin u l).
Proof. unfold UpdateUserMailLogin. spec_walk. Qed.
Lemma UpsertUserMailSecret_refines u x : refines (UpsertUserMailSecret u x).
Proof. unfold UpsertUserMailSecret. spec_walk. Qed.
Lemma UpdateUserRecoveryEmail_refines u x : refines (UpdateUserRecoveryEmail u x).
Proof. unfold UpdateUserRecoveryEmail. spec_walk. Qed.
Lemma UpdateUserMFAPreference_refines u x : refines (UpdateUserMFAPreference u x).
Proof. unfold UpdateUserMFAPreference. spec_walk. Qed.
Lemma SetLegacyMFAPromptPending_refines u b : refines (SetLegacyMFAPromptPending u b).
Proof. unfold SetLegacyMFAPromptPending. spec_walk. Qed.
Lemma MarkMFASetupSwitchUsed_refines u : refines (MarkMFASetupSwitchUsed u).
Proof. unfold MarkMFASetupSwitchUsed. spec_walk. Qed.
Lemma SetMFASetupSwitchUsed_refines u b : refines (SetMFASetupSwitchUsed u b).
Proof. unfold SetMFASetupSwitchUsed. spec_walk. Qed.
Lemma SetUserMFABackupCompleted_refines u b : refines (SetUserMFABackupCompleted u b).
Proof. unfold SetUserMFABackupCompleted. spec_walk. Qed.
Lemma TouchUserLastLogin_refines u t : refines (TouchUserLastLogin u t).
Proof. unfold TouchUserLastLogin. spec_walk. Qed.
Lemma UpdateProvisionState_refines u x e : refines (UpdateProvisionState u x e).
Proof. unfold UpdateProvisionState. spec_walk. Qed.

(** ** Settings, audit log, rate counters *)

Lemma UpsertSetting_refines key value : refines (UpsertSetting key value).
Proof.
  unfold UpsertSetting. spec_walk. by_table on_settings.
  unfold upsert_setting. destruct (existsb _ _) eqn:E.
  - apply update_step; [done|keys_kept].
  - apply row_inserted; [done|]. rewrite <- E. apply existsb_same.
    intros x. unfold setting_clash, has_key. apply String.eqb_sym.
Qed.

Lemma DeleteSetting_refines key : refines (DeleteSetting key).
Proof. unfold DeleteSetting. by_table on_settings. by apply rows_deleted. Qed.

Lemma DeleteSettingsByPrefix_refines prefix before :
  refines (DeleteSettingsByPrefixOlderThan prefix before).
Proof.
  unfold DeleteSettingsByPrefixOlderThan. spec_walk. by_table on_settings. by apply rows_deleted.
Qed.

Lemma InsertAudit_refines actor action target meta : refines (InsertAudit actor action target meta).
Proof. unfold InsertAudit. spec_walk. by_table on_audit. by_insert. Qed.

(** Without the row of the window there is no clash on its key either. *)
Lemma rate_upsert_step r rows rows' :
  re_Count r = 1 -> upsert_rate r rows = Ok rows' ->
  table_step rate_clash (fun r => re_Count r = 1) rate_evolves (fun _ => True) rows rows'.
Proof.
  intros Hr. unfold upsert_rate. destruct (existsb _ _) eqn:E.
  - intros [= <-]. apply update_step; [intros r0 _; by split_and!|keys_kept].
  - unfold insert_row. destruct (existsb (fun r0 => _) rows) eqn:E'; [done|]. intros [= <-].
    apply row_inserted; [done|]. apply not_true_iff_false.
    intros (x & Hx & Hc)%existsb_exists. apply orb_true_iff in Hc as [Hc|Hc].
    + apply not_true_iff_false in E'. apply E', existsb_exists. eauto.
    + apply not_true_iff_false in E. apply E, existsb_exists. eauto.
Qed.

Lemma IncrementRateEvent_refines key route w : refines (IncrementRateEvent key route w).
Proof.
  unfold IncrementRateEvent. spec_walk. by_table on_rates.
  eapply rate_upsert_step; [|eassumption]; done.
Qed.

Lemma DeleteRateEvents_refines key route : refines (DeleteRateEvents key route).
Proof. unfold DeleteRateEvents. by_table on_rates. by apply rows_deleted. Qed.

Lemma CleanupRateEvents_refines before : refines (CleanupRateEventsBefore before).
Proof. unfold CleanupRateEventsBefore. by_table on_rates. by apply rows_deleted. Qed.

(** ** Sessions *)

Lemma update_sessions_refines p f :
  (forall s, session_evolves s (f s)) -> refines (update_sessions p f).
Proof. intros Hf. by_table on_sessions. apply update_step; [auto|keys_kept]. Qed.

Lemma update_sessions_found_refines p f :
  (forall s, session_evolves s (f s)) -> refines (update_sessions_found p f).
Proof.
  intros Hf k D. apply spec_seq; [by_table on_sessions|spec_walk].
  apply update_step; [auto|keys_kept].
Qed.

Lemma CreateSession_spec k D s :
  fresh_hash k (s_TokenHash s) -> spec (db_step k) k D (CreateSession s) any.
Proof. intros Hs. unfold CreateSession. by_table on_sessions. by_insert. Qed.

Hint Extern 2 (session_evolves _ _) => split_and!; (done || congruence) : despatch.
Hint Resolve update_sessions_refines update_sessions_found_refines : despatch.

Lemma TouchSession_refines id t : refines (TouchSession id t).
Proof. unfold TouchSession. spec_walk. Qed.
Lemma UpdateSessionMailSecret_refines id x : refines (UpdateSessionMailSecret id x).
Proof. unfold UpdateSessionMailSecret. spec_walk. Qed.
Lemma RevokeSession_refines id : refines (RevokeSession id).
Proof. unfold RevokeSession. spec_walk. Qed.
Lemma RevokeUserSessions_refines id : refines (RevokeUserSessions id).
Proof. unfold RevokeUserSessions. spec_walk. Qed.
Lemma SetSessionMFAVerified_refines id m : refines (SetSessionMFAVerified id m).
Proof. unfold SetSessionMFAVerified. spec_walk. Qed.
Lemma ClearSessionMFAVerified_refines id : refines (ClearSessionMFAVerified id).
Proof. unfold ClearSessionMFAVerified. spec_walk. Qed.

Lemma RevokeSessionWithReason_refines u id reason : refines (RevokeSessionWithReason u id reason).
Proof.
  unfold RevokeSessionWithReason. spec_walk. by_table on_meta.
  destruct (existsb _ _) eqn:E.
  - apply update_step; [done|keys_kept].
  - apply row_inserted; [done|]. rewrite <- E. apply existsb_same.
    intros x. apply String.eqb_sym.
Qed.

(** ** Password reset tokens *)

Lemma CreatePasswordResetToken_spec k D userID h e :
  fresh_hash k h -> spec (db_step k) k D (CreatePasswordResetToken userID h e) any.
Proof. intros Hh. unfold CreatePasswordResetToken. spec_walk. by_table on_tokens. by_insert. Qed.

Lemma update_tokens_refines p f :
  (forall t, p t = true -> token_evolves t (f t)) -> refines (update_tokens p f).
Proof. intros Hf. by_table on_tokens. apply update_step; [done|keys_kept]. Qed.

Lemma unused_evolves p f :
  (forall t, p t = true -> unused t = true) ->
  (forall t, t_ID (f t) = t_ID t /\ t_UserID (f t) = t_UserID t
             /\ t_TokenHash (f t) = t_TokenHash t /\ t_ExpiresAt (f t) = t_ExpiresAt t) ->
  refines (update_tokens p f).
Proof. intros Hp Hf. apply update_tokens_refines. intros t Ht. split; [auto|apply Hf]. Qed.

Hint Extern 2 (spec _ _ _ (update_tokens _ _) any) =>
  apply unused_evolves; [intros ?; unfold reservable, consumable; intros; by breflect|done] : despatch.

Lemma InvalidatePasswordResetToken_refines h : refines (InvalidatePasswordResetToken h).
Proof. unfold InvalidatePasswordResetToken. spec_walk. Qed.
Lemma getPasswordResetToken_refines h : refines (getPasswordResetTokenByHash h).
Proof. unfold getPasswordResetTokenByHash. spec_walk. Qed.
Hint Resolve getPasswordResetToken_refines : despatch.
Lemma ReservePasswordResetToken_refines h r l : refines (ReservePasswordResetToken h r l).
Proof. unfold ReservePasswordResetToken. spec_walk. Qed.
Lemma ReleasePasswordResetToken_refines h r : refines (ReleasePasswordResetTokenReservation h r).
Proof. unfold ReleasePasswordResetTokenReservation. spec_walk. Qed.
Lemma ConsumePasswordResetToken_refines h : refines (ConsumePasswordResetToken h).
Proof. unfold ConsumePasswordResetToken. spec_walk. Qed.
Lemma ConsumeReservedPasswordResetToken_refines h r :
  refines (ConsumeReservedPasswordResetToken h r).
Proof. unfold ConsumeReservedPasswordResetToken. spec_walk. Qed.

(** ** Registrations *)

Lemma regs_unique_spec rows : regs_unique rows = true -> unique reg_clash rows.
Proof.
  induction rows as [|r rows IH]; simpl; [constructor|].
  intros [Hr Hrows]%andb_true_iff. constructor; [|by apply IH].
  apply List.Forall_forall. intros x Hx. destruct (reg_clash r x) eqn:E; [|done].
  apply negb_true_iff in Hr. rewrite <- Hr. symmetry. apply existsb_exists. eauto.
Qed.

Lemma CreateRegistration_refines email ip ua captcha pref :
  refines (CreateRegistrationWithMFA email ip ua captcha pref).
Proof.
  intros k D. unfold CreateRegistrationWithMFA.
  apply spec_seq; [auto with despatch|]. intros now. apply uuid_spec. intros id Hid.
  spec_walk. by_table on_registrations. by_insert.
Qed.

Lemma decide_step regID status now by_ reason d d' n :
  status <> RegPending ->
  (let rows := update_rows (pending_with_id regID) (decide_row status now by_ reason)
                 (registrations d) in
   if regs_unique rows
   then Ok (affected (pending_with_id regID) (registrations d), d <| registrations := rows |>)
   else Fail ErrConstraint) = Ok (n, d') ->
  (forall k, rtc (db_step k) d d') /\ users d' = users d.
Proof.
  intros Hs. cbv zeta. destruct (regs_unique _) eqn:E; [|done]. intros [= _ <-].
  split; [|done]. intros k. apply rtc_once, on_registrations, rows_updated.
  - intros r. unfold pending_with_id. intros Hr. breflect. by split_and!.
  - intros _. by apply regs_unique_spec.
Qed.

Lemma superseded_step k regID email status d :
  status <> RegPending ->
  rtc (db_step k) d
    (d <| registrations := delete_rows (superseded regID email status) (registrations d) |>).
Proof.
  intros Hs. apply rtc_once, on_registrations, rows_deleted.
  intros r _. unfold superseded, registration_deletable. intros Hr. breflect. congruence.
Qed.

Lemma SetRegistrationDecision_refines regID status by_ reason :
  status <> RegPending -> refines (SetRegistrationDecision regID status by_ reason).
Proof.
  intros Hs. unfold SetRegistrationDecision, find_registration. spec_walk.
  - apply spec_exec_any. intros d. by apply superseded_step.
  - apply spec_statement. intros d n d' _ Hd. by apply decide_step in Hd as [? _].
Qed.

Lemma user_of_email_In email d r : user_of_email email d = Some r -> In r (users d).
Proof.
  unfold user_of_email. intros H. apply head_Some_elem_of, list_elem_of_In in H.
  apply in_order_by, filter_In in H. apply H.
Qed.

(** What the rejection knows about the user row it is about to delete. *)
Definition doomed (u : option UserRow) (d : Database) : Prop :=
  unique user_clash (users d)
  /\ forall r, u = Some r -> In r (users d) /\ ur_status r = UserPending.

Lemma unique_same_id d r r' :
  unique user_clash (users d) -> In r (users d) -> In r' (users d) -> ur_id r = ur_id r' -> r = r'.
Proof.
  intros Hu Hr Hr' Hid. destruct (ForallOrdPairs_In Hu _ _ Hr Hr') as [->|[Hc|Hc]]; [done| |];
    unfold user_clash in Hc; apply orb_false_iff in Hc as [Hc _]; breflect; congruence.
Qed.

Lemma delete_user_spec k u :
  let userID := match u with Some r => ur_id r | None => "" end in
  spec (db_step k) k (doomed u)
    (if negb (String.eqb (TrimSpace userID) "") then
       do! exec (fun d => d <| sessions :=
             delete_rows (fun s => String.eqb (s_UserID s) userID) (sessions d) |>) in
       do! exec (fun d => d <| reset_tokens :=
             delete_rows (fun t => String.eqb (t_UserID t) userID) (reset_tokens d) |>) in
       let! n := statement (fun d => Ok (affected (has_id userID) (users d),
             d <| users := delete_rows (has_id userID) (users d) |>)) in
       if Nat.eqb n 0 then throw ErrNotFound else ret tt
     else ret tt) any.
Proof.
  destruct u as [r|]; cbv zeta; [|by apply spec_ret].
  destruct (negb _); [|by apply spec_ret].
  assert (Hp : forall d id, doomed (Some r) d -> String.eqb id (ur_id r) = true ->
                 pending_user d id).
  { intros d id [_ Hd] Hid. breflect. subst. exists r. by destruct (Hd r eq_refl). }
  eapply spec_bind with (Q := fun _ => doomed (Some r)).
  { apply spec_exec. intros d Hd. split; [|done].
    apply rtc_once, on_sessions, rows_deleted. intros s _ Hs. by apply Hp. }
  intros _. eapply spec_bind with (Q := fun _ => doomed (Some r)).
  { apply spec_exec. intros d Hd. split; [|done].
    apply rtc_once, on_tokens, rows_deleted. intros t _ Ht. by apply Hp. }
  intros _. eapply spec_bind with (Q := fun _ => anydb); [|intros n; destruct (Nat.eqb n 0);
    [apply spec_throw|by apply spec_ret]].
  apply spec_statement. intros d n d' [Hu Hd] [= _ <-]. split; [|done].
  destruct (Hd r eq_refl) as [Hr Hs]. apply rtc_once, on_users, rows_deleted.
  intros r' Hr' Hid. unfold has_id in Hid. breflect.
  by rewrite (unique_same_id d r' r Hu Hr' Hr Hid).
Qed.

(** Only a pending user is deleted, because ids are unique. *)
Lemma RejectRegistration_spec k regID by_ reason :
  spec (db_step k) k (fun d => unique user_clash (users d))
    (RejectRegistrationAndDeletePendingUser regID by_ reason) any.
Proof.
  unfold RejectRegistrationAndDeletePendingUser. apply spec_transaction.
  eapply spec_bind; [apply spec_query|]. intros [email st].
  destruct (negb _); [apply spec_throw|].
  eapply spec_bind; [apply spec_query|]. intros u.
  eapply spec_bind with (Q := fun _ => doomed u).
  { eapply spec_weaken with (D := fun d => unique user_clash (users d)
        /\ forall r, u = Some r -> In r (users d)) (Q := fun _ => doomed u); [| |done].
    - destruct u as [r|]; [destruct (negb _) eqn:E|].
      + apply spec_throw.
      + apply spec_ret. intros d [Hu Hd]. split; [done|]. intros r' [= <-]. breflect. auto.
      + apply spec_ret. intros d [Hu Hd]. by split.
    - intros d [[Hu _] [= <-]]. split; [done|]. intros r Hr. by eapply user_of_email_In. }
  intros []. eapply spec_bind; [apply spec_now|]. intros now.
  eapply spec_bind with (Q := fun _ => doomed u).
  { apply spec_exec. intros d Hd. split; [by apply superseded_step|done]. }
  intros []. eapply spec_bind with (Q := fun _ => doomed u).
  { apply spec_statement. intros d n d' Hd Hn. apply decide_step in Hn as [Hs Hus]; [|done].
    split; [done|]. unfold doomed in *. by rewrite Hus. }
  intros n. destruct (Nat.eqb n 0); [apply spec_throw|]. cbv zeta.
  eapply spec_bind; [apply delete_user_spec|]. intros []. by apply spec_ret.
Qed.

(** ** Second factors *)

Lemma GetMFAStatus_refines u : refines (GetMFAStatus u).
Proof. unfold GetMFAStatus. spec_walk. Qed.

Lemma UpsertMFATOTP_refines r : refines (UpsertMFATOTP r).
Proof.
  unfold UpsertMFATOTP, GetMFATOTP. spec_walk. by_table on_totp.
  destruct (existsb _ _) eqn:E.
  - apply update_step; [|keys_kept]. unfold totp_of. simpl. intros x Hx. by breflect.
  - apply row_inserted; [done|]. rewrite <- E. apply existsb_same.
    intros x. apply String.eqb_sym.
Qed.

Lemma credential_upsert_step inp rows rows' :
  upsert_credential inp rows = Ok rows' ->
  table_step cred_clash (fun _ => True) cred_evolves (fun _ => True) rows rows'.
Proof.
  unfold upsert_credential. destruct (existsb _ _) eqn:E.
  - intros [= <-]. apply update_step; [|keys_kept]. intros c _. split_and!; [done..|].
    unfold merge_credential. simpl. destruct (Z.ltb_spec (wc_SignCount c) (wc_SignCount inp)); lia.
  - unfold insert_row. destruct (existsb (fun c0 => _) rows) eqn:E'; [done|]. intros [= <-].
    apply row_inserted; [done|]. apply not_true_iff_false.
    intros (x & Hx & Hc)%existsb_exists. apply orb_true_iff in Hc as [Hc|Hc].
    + apply not_true_iff_false in E'. apply E', existsb_exists. eauto.
    + apply not_true_iff_false in E. apply E, existsb_exists. exists x. split; [done|].
      unfold cred_has. by rewrite String.eqb_sym.
Qed.

Lemma UpsertMFAWebAuthnCredential_refines inp : refines (UpsertMFAWebAuthnCredential inp).
Proof.
  unfold UpsertMFAWebAuthnCredential, GetMFAWebAuthnCredentialByCredentialID. spec_walk.
  by_table on_credentials. eapply credential_upsert_step; eassumption.
Qed.

Lemma update_credentials_found_refines p g :
  (forall rows, table_step cred_clash (fun _ => True) cred_evolves (fun _ => True) rows (g rows)) ->
  refines (update_credentials_found p g).
Proof. intros Hg k D. apply spec_seq; [by_table on_credentials; auto|spec_walk]. Qed.

Lemma TouchMFAWebAuthnCredential_refines u id n : refines (TouchMFAWebAuthnCredential u id n).
Proof.
  unfold TouchMFAWebAuthnCredential. spec_walk. apply update_credentials_found_refines.
  intros rows. apply update_step; [|keys_kept]. intros c _. split_and!; [done..|].
  simpl. destruct (Z.ltb_spec (wc_SignCount c) n); lia.
Qed.

Lemma DeleteMFAWebAuthnCredential_refines u id : refines (DeleteMFAWebAuthnCredential u id).
Proof.
  unfold DeleteMFAWebAuthnCredential. apply update_credentials_found_refines.
  intros rows. by apply rows_deleted.
Qed.

Lemma RenameMFAWebAuthnCredential_refines u id n : refines (RenameMFAWebAuthnCredential u id n).
Proof.
  unfold RenameMFAWebAuthnCredential. spec_walk. apply update_credentials_found_refines.
  intros rows. apply update_step; [|keys_kept]. intros c _. split_and!; done.
Qed.

(** ** Recovery codes *)

Lemma insert_codes_refines u now hashes : refines (insert_codes u now hashes).
Proof.
  induction hashes as [|h hashes IH]; simpl; [spec_walk|].
  intros k D. apply uuid_spec. intros id Hid. spec_walk. by_table on_codes. by_insert.
Qed.

Lemma ReplaceMFARecoveryCodes_refines u hashes : refines (ReplaceMFARecoveryCodes u hashes).
Proof.
  unfold ReplaceMFARecoveryCodes. spec_walk; [|apply insert_codes_refines].
  by_table on_codes. by apply rows_deleted.
Qed.

Lemma ConsumeRecoveryCodeHash_refines u h : refines (ConsumeRecoveryCodeHash u h).
Proof.
  unfold ConsumeRecoveryCodeHash. spec_walk. by_table on_codes.
  apply update_step; [|keys_kept]. intros c. unfold spendable. intros Hc. breflect.
  by split_and!.
Qed.

(** ** Trusted devices *)

Lemma CreateMFATrustedDevice_refines x : refines (CreateMFATrustedDevice x).
Proof.
  unfold CreateMFATrustedDevice, GetMFATrustedDeviceByID. spec_walk. by_table on_devices. by_insert.
Qed.

Lemma unique_hashes_ids (rows : list TrustedDevice) :
  NoDup (td_TokenHash <$> rows) -> List.NoDup (map td_ID rows) -> unique device_clash rows.
Proof.
  induction rows as [|x rows IH]; simpl; [constructor|].
  intros [Hh Hhs]%list.NoDup_cons. rewrite List.NoDup_cons_iff. intros [Hi His].
  constructor; [|by apply IH]. apply List.Forall_forall. intros y Hy.
  unfold device_clash. apply orb_false_iff. split; apply String.eqb_neq; intros Heq.
  - apply Hi. rewrite Heq. by apply in_map.
  - apply Hh. rewrite Heq. apply list_elem_of_fmap. exists y. split; [done|].
    by apply list_elem_of_In.
Qed.

Lemma unique_ids (rows : list TrustedDevice) :
  unique device_clash rows -> List.NoDup (map td_ID rows).
Proof.
  induction 1 as [|x rows Hx _ IH]; simpl; [constructor|].
  constructor; [|done]. intros (y & Hid & Hy)%in_map_iff.
  rewrite List.Forall_forall in Hx. specialize (Hx y Hy).
  unfold device_clash in Hx. apply orb_false_iff in Hx as [Hx _].
  apply String.eqb_neq in Hx. congruence.
Qed.

Lemma RotateMFATrustedDeviceToken_refines u id h ua ip e :
  refines (RotateMFATrustedDeviceToken u id h ua ip e).
Proof.
  unfold RotateMFATrustedDeviceToken, GetMFATrustedDeviceByID, update_devices_found. spec_walk.
  apply spec_statement. intros d n d' _. cbv zeta.
  destruct (hashes_distinct _) eqn:E; [|done]. intros [= _ <-]. split; [|done].
  apply rtc_once, on_devices, rows_updated.
  - intros x. unfold owned_live_device. intros Hx. breflect. by split_and!.
  - intros Hu. apply unique_hashes_ids; [by apply bool_decide_eq_true in E|].
    rewrite map_update_rows by done. by apply unique_ids.
Qed.

Lemma revoke_devices_step p now d k :
  (forall x, p x = true -> dev_live x = true) ->
  rtc (db_step k) d (d <| trusted_devices :=
    update_rows p (fun x => x <| td_RevokedAt := Some now |>) (trusted_devices d) |>).
Proof.
  intros Hp. apply rtc_once, on_devices, rows_updated.
  - intros x Hx. by split_and!; [apply Hp|..].
  - apply unique_update. intros a b. by destruct (p a), (p b).
Qed.

Lemma RevokeMFATrustedDevice_refines u id : refines (RevokeMFATrustedDevice u id).
Proof.
  unfold RevokeMFATrustedDevice, update_devices_found. spec_walk.
  apply spec_statement. intros d n d' _ [= _ <-]. split; [|done]. apply revoke_devices_step.
  intros x. unfold owned_live_device. intros Hx. by breflect.
Qed.

Lemma RevokeAllMFATrustedDevices_refines u : refines (RevokeAllMFATrustedDevices u).
Proof.
  unfold RevokeAllMFATrustedDevices. spec_walk. apply spec_exec_any. intros d.
  apply revoke_devices_step. intros x Hx. by breflect.
Qed.

(** ** Mail accounts *)

Lemma update_accounts_step k d p f :
  (forall a, p a = true -> account_evolves a (f a)) ->
  rtc (db_step k) d (d <| mail_accounts := update_rows p f (mail_accounts d) |>).
Proof. intros Hf. apply rtc_once, on_accounts, update_step; [done|keys_kept]. Qed.

Lemma only_default_refines u id now :
  refines (exec (fun d => d <| mail_accounts := only_default u id now (mail_accounts d) |>)).
Proof. intros k D. apply spec_exec_any. intros d. by apply update_accounts_step. Qed.
Hint Resolve only_default_refines : despatch.

Lemma ListMailAccounts_refines u : refines (ListMailAccounts u).
Proof. unfold ListMailAccounts. spec_walk. Qed.

Lemma CreateMailAccount_refines a : refines (CreateMailAccount a).
Proof. unfold CreateMailAccount. spec_walk. by_table on_accounts. by_insert. Qed.

Lemma UpdateMailAccountSyncStatus_refines id at_ e : refines (UpdateMailAccountSyncStatus id at_ e).
Proof.
  unfold UpdateMailAccountSyncStatus. spec_walk. apply spec_exec_any. intros d.
  by apply update_accounts_step.
Qed.

Lemma UpdateMailAccount_refines a : refines (UpdateMailAccount a).
Proof.
  unfold UpdateMailAccount, GetMailAccountByID. spec_walk.
  apply spec_statement. intros d n d' _ [= _ <-]. split; [|done]. apply update_accounts_step.
  unfold owned_account, acc_of, acc_has_id. simpl. intros x Hx. breflect. by split.
Qed.

Lemma DeleteMailAccount_refines u id : refines (DeleteMailAccount u id).
Proof. unfold DeleteMailAccount. spec_walk. by_table on_accounts. by apply rows_deleted. Qed.

Lemma SetActiveMailAccount_refines u id : refines (SetActiveMailAccount u id).
Proof.
  unfold SetActiveMailAccount. spec_walk.
  apply spec_statement. intros d n d' _ [= _ <-]. split; [|done]. by apply update_accounts_step.
Qed.

End StoreOps.

#[export] Hint Resolve UpdateUserPasswordHash_refines UpdateUserMailLogin_refines UpsertUserMailSecret_refines UpdateUserRecoveryEmail_refines UpdateUserMFAPreference_refines
  SetLegacyMFAPromptPending_refines MarkMFASetupSwitchUsed_refines SetMFASetupSwitchUsed_refines SetUserMFABackupCompleted_refines
  TouchUserLastLogin_refines UpdateProvisionState_refines CreateUser_refines UpdateUserStatus_refines UpsertSetting_refines DeleteSetting_refines
  DeleteSettingsByPrefix_refines InsertAudit_refines IncrementRateEvent_refines
  DeleteRateEvents_refines CleanupRateEvents_refines TouchSession_refines
  UpdateSessionMailSecret_refines RevokeSession_refines RevokeUserSessions_refines
  SetSessionMFAVerified_refines ClearSessionMFAVerified_refines
  RevokeSessionWithReason_refines InvalidatePasswordResetToken_refines
  getPasswordResetToken_refines ReservePasswordResetToken_refines
  ReleasePasswordResetToken_refines ConsumePasswordResetToken_refines
  ConsumeReservedPasswordResetToken_refines CreateRegistration_refines
  SetRegistrationDecision_refines GetMFAStatus_refines UpsertMFATOTP_refines
  UpsertMFAWebAuthnCredential_refines TouchMFAWebAuthnCredential_refines
  DeleteMFAWebAuthnCredential_refines RenameMFAWebAuthnCredential_refines
  insert_codes_refines ReplaceMFARecoveryCodes_refines ConsumeRecoveryCodeHash_refines
  CreateMFATrustedDevice_refines RotateMFATrustedDeviceToken_refines
  RevokeMFATrustedDevice_refines RevokeAllMFATrustedDevices_refines ListMailAccounts_refines
  CreateMailAccount_refines UpdateMailAccountSyncStatus_refines UpdateMailAccount_refines
  DeleteMailAccount_refines SetActiveMailAccount_refines : despatch.
#[export] Hint Extern 2 (user_evolves _ _) => split_and!; (done || congruence) : despatch.
#[export] Hint Extern 2 (_ <> _) => discriminate : despatch.

(** Operations that are one query. *)
Ltac by_query :=
  match goal with
  | |- spec _ _ _ (GetUserByEmail _) any => apply spec_query_any
  | |- spec _ _ _ (GetUserByID _) any => apply spec_query_any
  | |- spec _ _ _ (GetUserByRecoveryEmail _) any => apply spec_query_any
  | |- spec _ _ _ (CountAdmins) any => apply spec_query_any
  | |- spec _ _ _ (GetUserMailSecret _) any => apply spec_query_any
  | |- spec _ _ _ (GetUserMFAPreference _) any => apply spec_query_any
  | |- spec _ _ _ (GetSetting _) any => apply spec_query_any
  | |- spec _ _ _ (GetRegistrationByID _) any => apply spec_query_any
  | |- spec _ _ _ (GetSessionByTokenHash _) any => apply spec_query_any
  | |- spec _ _ _ (GetMFATOTP _) any => apply spec_query_any
  | |- spec _ _ _ (ListMFAWebAuthnCredentials _) any => apply spec_query_any
  | |- spec _ _ _ (GetMailAccountByID _ _) any => apply spec_query_any
  end.
#[export] Hint Extern 2 (spec _ _ _ _ any) => by_query : despatch.

