(* ===== verification/ServiceRefinement.v ===== *)
(** * ServiceRefinement: every service handler moves along [db_step]

    One lemma per handler of internal/service, proved from the operations it
    calls, and the walk through [CompleteSetup], whose bootstrap step is
    allowed only while there is no administrator. *)

From S2P Require Import Prelude GoStrings Effects GoStd Models Users Sessions Mfa MailAccounts Host.
From S2P Require Import FeatureFlags Identity Auth Admin Reset Lifecycle StoreRefinement.
Local Open Scope Z_scope.

Section ServiceOps.
Context {host : Host} {dep : Deployment}.

(** A stored token hash is that of a fresh draw. *)
Lemma token_spec {B} k D (f : string * string -> DBM B) :
  (forall raw h, fresh_hash k h -> spec (db_step k) k anydb (f (raw, h)) any) ->
  spec (db_step k) k D (bind NewOpaqueToken f) any.
Proof.
  intros Hf. eapply spec_bind with (Q := fun rh _ => fresh_hash k (snd rh)).
  - unfold NewOpaqueToken. eapply spec_bind; [apply spec_rand|]. intros buf.
    apply spec_ret. intros d [_ (n & Hn & Hb)]. exists n, buf. by split_and!.
  - intros [raw h] w Hk Hh. by apply Hf.
Qed.

Ltac service_walk :=
  intros;
  repeat first [apply token_spec; intros ?raw ?h ?Hfresh | spec_step].

Lemma HashPassword_refines pw : refines (HashPassword pw).
Proof. unfold HashPassword. spec_walk. Qed.
Lemma EncryptString_refines x : refines (EncryptString x).
Proof. unfold EncryptString. spec_walk. Qed.
Hint Resolve HashPassword_refines EncryptString_refines : despatch.

(** *** Flags *)

Lemma resolveFeatureFlagState_refines def : refines (resolveFeatureFlagState def).
Proof. unfold resolveFeatureFlagState, DefaultValue. spec_walk. Qed.
Hint Resolve resolveFeatureFlagState_refines : despatch.
Lemma FeatureFlagEnabled_refines id : refines (FeatureFlagEnabled id).
Proof. unfold FeatureFlagEnabled. spec_walk. Qed.
Lemma PublicPasswordResetEnabled_refines : refines PublicPasswordResetEnabled.
Proof. apply FeatureFlagEnabled_refines. Qed.
Lemma AdminMFARequired_refines : refines AdminMFARequired.
Proof. apply FeatureFlagEnabled_refines. Qed.
Lemma PasskeySignInEnabled_refines : refines PasskeySignInEnabled.
Proof. apply FeatureFlagEnabled_refines. Qed.
Lemma SetFeatureFlag_refines actor id b : refines (SetFeatureFlag actor id b).
Proof. unfold SetFeatureFlag. spec_walk. Qed.
Lemma ResetFeatureFlag_refines actor id : refines (ResetFeatureFlag actor id).
Proof. unfold ResetFeatureFlag. spec_walk. Qed.
Hint Resolve PublicPasswordResetEnabled_refines AdminMFARequired_refines
  PasskeySignInEnabled_refines : despatch.

(** *** Sign-in *)

Lemma ResolveMFAStage_refines u s : refines (ResolveMFAStage u s).
Proof. unfold ResolveMFAStage. spec_walk. Qed.

Lemma InstanceMode_refines : refines InstanceMode.
Proof. unfold InstanceMode. spec_walk. Qed.
Lemma baseDomain_refines : refines baseDomain.
Proof. unfold baseDomain. spec_walk. Qed.
Hint Resolve ResolveMFAStage_refines InstanceMode_refines baseDomain_refines : despatch.

Lemma try_logins_refines all cs pw : refines (try_logins all cs pw).
Proof. induction cs as [|c cs IH]; simpl; spec_walk. Qed.

Lemma verifyMailCredentials_refines e p x y : refines (verifyMailCredentials e p x y).
Proof. unfold verifyMailCredentials. spec_walk; apply try_logins_refines. Qed.
Hint Resolve verifyMailCredentials_refines : despatch.

Lemma check_credentials_refines u pw : refines (check_credentials u pw).
Proof. unfold check_credentials. spec_walk. Qed.

Lemma EnsureAuthenticatedMailAccount_refines u : refines (EnsureAuthenticatedMailAccount u).
Proof. unfold EnsureAuthenticatedMailAccount. spec_walk. Qed.
Hint Resolve check_credentials_refines EnsureAuthenticatedMailAccount_refines : despatch.
Hint Extern 2 (spec _ _ _ (CreateSession _) any) => apply CreateSession_spec : despatch.

Lemma Login_refines email pw ip ua : refines (Login email pw ip ua).
Proof. unfold Login. service_walk. Qed.
Lemma CreatePasskeySession_refines u ip ua x : refines (CreatePasskeySession u ip ua x).
Proof. unfold CreatePasskeySession. service_walk. Qed.
Lemma insertAuditBestEffort_refines a b c d : refines (insertAuditBestEffort a b c d).
Proof. unfold insertAuditBestEffort. spec_walk. Qed.
Hint Resolve Login_refines insertAuditBestEffort_refines : despatch.
Lemma UnlockSessionMailSecret_refines u s pw : refines (UnlockSessionMailSecret u s pw).
Proof. unfold UnlockSessionMailSecret. spec_walk. Qed.
Lemma ValidateSession_refines raw : refines (ValidateSession raw).
Proof. unfold ValidateSession. spec_walk. Qed.
Lemma Logout_refines raw : refines (Logout raw).
Proof. unfold Logout. spec_walk. Qed.

(** *** Administration *)

Lemma stored_or_blank_refines key norm : refines (stored_or_blank key norm).
Proof. unfold stored_or_blank. spec_walk. Qed.
Hint Resolve stored_or_blank_refines : despatch.
Lemma passkey_or_config_refines : refines passkey_or_config.
Proof. unfold passkey_or_config. spec_walk. Qed.
Hint Resolve passkey_or_config_refines : despatch.
Lemma SetupStatus_refines : refines SetupStatus.
Proof. unfold SetupStatus, StoredDefaultFormatLocale, StoredDefaultTimezone. spec_walk. Qed.
Hint Resolve SetupStatus_refines : despatch.
Hint Extern 2 (_ \/ _) => auto : despatch.

Lemma Register_refines email pw rec ip ua captcha pref :
  refines (Register email pw rec ip ua captcha pref).
Proof. unfold Register. spec_walk. Qed.

Lemma provision_recording_refines u e h : refines (provision_recording u e h).
Proof. unfold provision_recording, provision_upsert. spec_walk. Qed.
Hint Resolve provision_recording_refines : despatch.

Lemma ApproveRegistration_refines a r : refines (ApproveRegistration a r).
Proof. unfold ApproveRegistration. spec_walk. Qed.
Lemma SuspendUser_refines a u : refines (SuspendUser a u).
Proof. unfold SuspendUser. spec_walk. Qed.
Lemma UnsuspendUser_refines a u : refines (UnsuspendUser a u).
Proof. unfold UnsuspendUser. spec_walk. Qed.
Lemma RetryProvisionUser_refines a u : refines (RetryProvisionUser a u).
Proof. unfold RetryProvisionUser. spec_walk. Qed.
Lemma AdminCreateUser_refines a req : refines (AdminCreateUser a req).
Proof. unfold AdminCreateUser, require_free_email, provision_upsert. spec_walk. Qed.
Lemma UpdateRecoveryEmail_refines u e : refines (UpdateRecoveryEmail u e).
Proof. unfold UpdateRecoveryEmail. spec_walk. Qed.

(** *** Password reset *)

Lemma persisted_refines st m : refines (persisted st m).
Proof. unfold persisted, persistPasswordResetSenderState. spec_walk. Qed.
Lemma probe_refines st : refines (probePasswordResetSenderTransport st).
Proof. unfold probePasswordResetSenderTransport. spec_walk. Qed.
Hint Resolve persisted_refines probe_refines : despatch.
Lemma EnsureSender_refines : refines EnsurePasswordResetSenderIdentity.
Proof. unfold EnsurePasswordResetSenderIdentity, provision_upsert. service_walk. Qed.
Lemma senderState_refines : refines passwordResetSenderState.
Proof. unfold passwordResetSenderState. spec_walk. Qed.
Hint Resolve EnsureSender_refines senderState_refines : despatch.
Lemma PasswordResetCapabilities_refines : refines PasswordResetCapabilities.
Proof. unfold PasswordResetCapabilities. spec_walk. Qed.
Hint Extern 2 (spec _ _ _ (CreatePasswordResetToken _ _ _) any) =>
  apply CreatePasswordResetToken_spec : despatch.
Lemma issuePasswordResetToken_refines u e : refines (issuePasswordResetToken u e).
Proof. unfold issuePasswordResetToken. service_walk. Qed.
Lemma GetUserByRecoveryEmail_refines e : refines (GetUserByRecoveryEmail e).
Proof. unfold GetUserByRecoveryEmail. spec_walk. Qed.
Hint Resolve GetUserByRecoveryEmail_refines : despatch.
Lemma find_reset_user_refines e : refines (find_reset_user e).
Proof. unfold find_reset_user. spec_walk. Qed.
Hint Resolve PasswordResetCapabilities_refines issuePasswordResetToken_refines
  find_reset_user_refines : despatch.
Lemma RequestPasswordReset_refines e : refines (RequestPasswordReset e).
Proof. unfold RequestPasswordReset. spec_walk. Qed.

Lemma resetPasswordViaPAM_refines u pw : refines (resetPasswordViaPAM u pw).
Proof. unfold resetPasswordViaPAM. spec_walk. Qed.
Lemma consumeReserved_refines h r : refines (consumeReservedPasswordResetToken h r).
Proof. unfold consumeReservedPasswordResetToken. spec_walk. Qed.
Lemma after_password_change_refines u id pw h : refines (after_password_change u id pw h).
Proof. unfold after_password_change. spec_walk. Qed.
Hint Resolve resetPasswordViaPAM_refines consumeReserved_refines
  after_password_change_refines : despatch.
Lemma confirm_reserved_refines t h r pw : refines (confirm_reserved t h r pw).
Proof. unfold confirm_reserved. spec_walk. Qed.
Hint Resolve confirm_reserved_refines : despatch.
Lemma ConfirmPasswordReset_refines raw pw : refines (ConfirmPasswordReset raw pw).
Proof. unfold ConfirmPasswordReset. spec_walk. Qed.
Lemma AdminResetPassword_refines a u pw : refines (AdminResetPassword a u pw).
Proof. unfold AdminResetPassword. spec_walk. Qed.
Lemma SendRecoveryEmailMFACode_refines u c : refines (SendRecoveryEmailMFACode u c).
Proof. unfold SendRecoveryEmailMFACode. spec_walk. Qed.

(** *** First-run setup *)

(** A handler that refines the empty relation does not write. *)
Abbreviation read_only m := (forall D, spec (fun _ _ => False) 0 D m any).

Lemma rtc_nothing {X} (x y : X) : rtc (fun _ _ => False) x y -> x = y.
Proof. by destruct 1. Qed.

Lemma read_only_keeps {A} step k D (m : DBM A) :
  (forall w, (w_fresh w <= w_fresh (snd (m w)))%nat) -> read_only m ->
  spec step k D m (fun _ => D).
Proof.
  intros Hf Hm. apply spec_pure. intros w. split; [|done].
  destruct (Hm anydb w ltac:(lia) I) as (_ & H & _). symmetry. by apply rtc_nothing.
Qed.

(** No handler gives random values back. *)
Lemma fresh_grows {A} (m : DBM A) :
  (forall k D, spec (fun _ _ => True) k D m any) ->
  forall w, (w_fresh w <= w_fresh (snd (m w)))%nat.
Proof. intros Hm w. by destruct (Hm (w_fresh w) anydb w ltac:(lia) I). Qed.

Lemma try_logins_read step k D all cs pw : spec step k D (try_logins all cs pw) any.
Proof. revert D. induction cs as [|c cs IH]; simpl; spec_walk. Qed.

Lemma setup_credentials_read step k D req mode ident :
  spec step k D (setup_credentials req mode ident) any.
Proof.
  unfold setup_credentials, verifyMailCredentials. spec_walk; apply try_logins_read.
Qed.

Lemma HashPassword_read step k D pw : spec step k D (HashPassword pw) any.
Proof. unfold HashPassword. spec_walk. Qed.

Lemma keeps {A} step k D (m : DBM A) :
  (forall step k D, spec step k D m any) -> spec step k D m (fun _ => D).
Proof. intros Hm. apply read_only_keeps; [apply fresh_grows; intros; apply Hm|intros; apply Hm]. Qed.

Lemma write_setup_refines req mode domain ident id locale tz :
  refines (write_setup req mode domain ident id locale tz).
Proof. unfold write_setup, when_set. spec_walk. Qed.

Lemma insert_admin_spec k r :
  ur_role r = "admin" -> ur_status r = UserActive ->
  spec (db_step k) k has_no_admin (insert_user r) any.
Proof.
  intros Hr Hs. apply spec_statement. intros d a d' Hd. unfold insert_row.
  destruct (existsb _ _) eqn:E; [done|]. intros [= _ <-]. split; [|done].
  by apply rtc_once, boot_inserted.
Qed.

(** The bootstrap of the administrator is allowed while there is none. *)
Lemma EnsureAdmin_spec k email hash :
  spec (db_step k) k has_no_admin (EnsureAdmin email hash) any.
Proof.
  unfold EnsureAdmin. cbv zeta. destruct (_ || _); [by apply spec_ret|].
  eapply spec_bind; [apply keeps; intros; spec_walk|]. intros r.
  destruct r as [u|e].
  - apply spec_statement. intros d a d' Hd [= _ <-]. split; [|done].
    apply rtc_once, boot_promoted; [done|]. intros x. by split_and!.
  - destruct e; try apply spec_throw.
    eapply spec_bind; [apply spec_now|]. intros now.
    eapply spec_bind; [apply keeps; intros; spec_walk|]. intros id.
    by apply insert_admin_spec.
Qed.

(** Setup writes only after it has seen that nobody is an administrator. *)
Lemma CompleteSetup_refines req ip ua : refines (CompleteSetup req ip ua).
Proof.
  intros k D. unfold CompleteSetup. eapply spec_bind; [apply spec_query|]. intros n.
  destruct (0 <? n) eqn:E; [apply spec_throw|]. cbv zeta.
  apply (spec_weaken _ _ has_no_admin _ _ any any); [|intros d [_ [= <-]] r Hr|done].
  2: { breflect. assert (H0 : affected is_admin (users d) = 0%nat) by lia.
       rewrite affected_0 in H0. specialize (H0 r Hr). unfold is_admin in H0. by breflect. }
  do 4 (eapply spec_bind; [apply keeps; intros; spec_walk|]; intros ?).
  eapply spec_bind; [apply keeps; intros; apply setup_credentials_read|]; intros ?.
  eapply spec_bind; [apply keeps; intros; apply HashPassword_read|]; intros ?.
  eapply spec_bind; [apply EnsureAdmin_spec|]. intros [].
  spec_walk. apply write_setup_refines.
Qed.
End ServiceOps.

#[export] Hint Resolve HashPassword_refines EncryptString_refines resolveFeatureFlagState_refines
  FeatureFlagEnabled_refines PublicPasswordResetEnabled_refines AdminMFARequired_refines
  PasskeySignInEnabled_refines SetFeatureFlag_refines ResetFeatureFlag_refines
  ResolveMFAStage_refines InstanceMode_refines baseDomain_refines try_logins_refines
  verifyMailCredentials_refines check_credentials_refines
  EnsureAuthenticatedMailAccount_refines Login_refines CreatePasskeySession_refines
  insertAuditBestEffort_refines UnlockSessionMailSecret_refines ValidateSession_refines
  Logout_refines stored_or_blank_refines passkey_or_config_refines SetupStatus_refines
  Register_refines provision_recording_refines ApproveRegistration_refines
  SuspendUser_refines UnsuspendUser_refines RetryProvisionUser_refines
  AdminCreateUser_refines UpdateRecoveryEmail_refines persisted_refines probe_refines
  EnsureSender_refines senderState_refines PasswordResetCapabilities_refines
  issuePasswordResetToken_refines GetUserByRecoveryEmail_refines find_reset_user_refines
  RequestPasswordReset_refines resetPasswordViaPAM_refines consumeReserved_refines
  after_password_change_refines confirm_reserved_refines ConfirmPasswordReset_refines
  AdminResetPassword_refines SendRecoveryEmailMFACode_refines write_setup_refines
  CompleteSetup_refines : despatch.

(** * Histories: sequences of requests

    An [Op] is one call the routers, the workers and the mail layer make into
    the service and the store; [run] makes them one after another, each
    caller going on whatever the call returned.  Every state a sequence
    reaches is reachable by [db_step], so what [db_step] preserves holds over
    every sequence of requests, under every schedule of driver faults.

    [EnsureAdmin] is not an [Op]: apart from [CompleteSetup] it is called once,
    by cmd/server before the routers are up. *)

Inductive Op : Type :=
(* internal/service *)
| OpCompleteSetup (req : SetupCompleteRequest) (ip ua : string)
| OpSetupStatus
| OpRegister (email pw recovery ip ua : string) (captcha : bool) (pref : string)
| OpLogin (email pw ip ua : string)
| OpCreatePasskeySession (u : User) (ip ua secret : string)
| OpValidateSession (raw : string)
| OpUnlock (userID sessionID pw : string)
| OpLogout (raw : string)
| OpApprove (adminID regID : string)
| OpReject (adminID regID reason : string)
| OpSuspend (adminID userID : string)
| OpUnsuspend (adminID userID : string)
| OpRetryProvision (adminID userID : string)
| OpAdminCreateUser (adminID : string) (req : AdminCreateUserRequest)
| OpUpdateRecoveryEmail (userID email : string)
| OpRequestReset (email : string)
| OpConfirmReset (raw pw : string)
| OpAdminReset (adminID userID pw : string)
| OpSendRecoveryCode (u : User) (code : string)
| OpEnsureSender
| OpSetFlag (actor id : string) (enabled : bool)
| OpResetFlag (actor id : string)
(* the store operations other layers call *)
| OpTouchSession (id : string) (idleExpiry : Z)
| OpSetMFAVerified (sessionID authMethod : string)
| OpClearMFAVerified (sessionID : string)
| OpRevokeWithReason (userID sessionID reason : string)
| OpRevokeSession (id : string)
| OpUpdateMFAPreference (userID preference : string)
| OpLegacyPrompt (userID : string) (pending : bool)
| OpSwitchUsed (userID : string)
| OpBackupCompleted (userID : string) (completed : bool)
| OpUpsertTOTP (r : MFATOTPRecord)
| OpUpsertCredential (c : WebAuthnCredential)
| OpTouchCredential (userID id : string) (signCount : Z)
| OpDeleteCredential (userID id : string)
| OpRenameCredential (userID id name : string)
| OpReplaceCodes (userID : string) (hashes : list string)
| OpConsumeCode (userID codeHash : string)
| OpCreateDevice (x : TrustedDevice)
| OpRotateDevice (userID id tokenHash uaHash ipHint : string) (expiresAt : Z)
| OpRevokeDevice (userID id : string)
| OpRevokeAllDevices (userID : string)
| OpCreateAccount (a : MailAccount)
| OpUpdateAccount (a : MailAccount)
| OpDeleteAccount (userID id : string)
| OpSetActiveAccount (userID id : string)
| OpSyncStatus (accountID : string) (at_ : Z) (lastErr : string)
| OpUpsertSetting (key value : string)
| OpDeleteSetting (key : string)
| OpDeleteSettings (prefix : string) (before : Z)
| OpIncrementRate (key route : string) (windowStart : Z)
| OpDeleteRate (key route : string)
| OpCleanupRate (before : Z)
| OpInsertAudit (actor action target meta : string).

Section Traces.
Context {host : Host} {dep : Deployment}.

Definition exec_op (o : Op) : DBM unit :=
  match o with
  | OpCompleteSetup req ip ua => ignore (CompleteSetup req ip ua)
  | OpSetupStatus => ignore SetupStatus
  | OpRegister e p r ip ua c m => ignore (Register e p r ip ua c m)
  | OpLogin e p ip ua => ignore (Login e p ip ua)
  | OpCreatePasskeySession u ip ua s => ignore (CreatePasskeySession u ip ua s)
  | OpValidateSession raw => ignore (ValidateSession raw)
  | OpUnlock u s p => ignore (UnlockSessionMailSecret u s p)
  | OpLogout raw => ignore (Logout raw)
  | OpApprove a r => ignore (ApproveRegistration a r)
  | OpReject a r x => ignore (RejectRegistration a r x)
  | OpSuspend a u => ignore (SuspendUser a u)
  | OpUnsuspend a u => ignore (UnsuspendUser a u)
  | OpRetryProvision a u => ignore (RetryProvisionUser a u)
  | OpAdminCreateUser a req => ignore (AdminCreateUser a req)
  | OpUpdateRecoveryEmail u e => ignore (UpdateRecoveryEmail u e)
  | OpRequestReset e => ignore (RequestPasswordReset e)
  | OpConfirmReset raw p => ignore (ConfirmPasswordReset raw p)
  | OpAdminReset a u p => ignore (AdminResetPassword a u p)
  | OpSendRecoveryCode u c => ignore (SendRecoveryEmailMFACode u c)
  | OpEnsureSender => ignore EnsurePasswordResetSenderIdentity
  | OpSetFlag a i b => ignore (SetFeatureFlag a i b)
  | OpResetFlag a i => ignore (ResetFeatureFlag a i)
  | OpTouchSession i t => ignore (TouchSession i t)
  | OpSetMFAVerified s m => ignore (SetSessionMFAVerified s m)
  | OpClearMFAVerified s => ignore (ClearSessionMFAVerified s)
  | OpRevokeWithReason u s r => ignore (RevokeSessionWithReason u s r)
  | OpRevokeSession i => ignore (RevokeSession i)
  | OpUpdateMFAPreference u p => ignore (UpdateUserMFAPreference u p)
  | OpLegacyPrompt u b => ignore (SetLegacyMFAPromptPending u b)
  | OpSwitchUsed u => ignore (MarkMFASetupSwitchUsed u)
  | OpBackupCompleted u b => ignore (SetUserMFABackupCompleted u b)
  | OpUpsertTOTP r => ignore (UpsertMFATOTP r)
  | OpUpsertCredential c => ignore (UpsertMFAWebAuthnCredential c)
  | OpTouchCredential u i n => ignore (TouchMFAWebAuthnCredential u i n)
  | OpDeleteCredential u i => ignore (DeleteMFAWebAuthnCredential u i)
  | OpRenameCredential u i n => ignore (RenameMFAWebAuthnCredential u i n)
  | OpReplaceCodes u hs => ignore (ReplaceMFARecoveryCodes u hs)
  | OpConsumeCode u h => ignore (ConsumeRecoveryCodeHash u h)
  | OpCreateDevice x => ignore (CreateMFATrustedDevice x)
  | OpRotateDevice u i h a p e => ignore (RotateMFATrustedDeviceToken u i h a p e)
  | OpRevokeDevice u i => ignore (RevokeMFATrustedDevice u i)
  | OpRevokeAllDevices u => ignore (RevokeAllMFATrustedDevices u)
  | OpCreateAccount a => ignore (CreateMailAccount a)
  | OpUpdateAccount a => ignore (UpdateMailAccount a)
  | OpDeleteAccount u i => ignore (DeleteMailAccount u i)
  | OpSetActiveAccount u i => ignore (SetActiveMailAccount u i)
  | OpSyncStatus i t e => ignore (UpdateMailAccountSyncStatus i t e)
  | OpUpsertSetting k v => ignore (UpsertSetting k v)
  | OpDeleteSetting k => ignore (DeleteSetting k)
  | OpDeleteSettings p b => ignore (DeleteSettingsByPrefixOlderThan p b)
  | OpIncrementRate k r w => ignore (IncrementRateEvent k r w)
  | OpDeleteRate k r => ignore (DeleteRateEvents k r)
  | OpCleanupRate b => ignore (CleanupRateEventsBefore b)
  | OpInsertAudit a b c d => ignore (InsertAudit a b c d)
  end.

Fixpoint run (ops : list Op) : DBM unit :=
  match ops with
  | [] => ret tt
  | o :: ops' => do! exec_op o in run ops'
  end.

(** The database after a sequence of requests. *)
Definition after (ops : list Op) (w : World Database) : World Database := snd (run ops w).

(** ** Keys stay unique *)

Lemma db_step_well_formed k d d' : db_step k d d' -> well_formed d -> well_formed d'.
Proof.
  intros Hs Hw. destruct Hw.
  destruct Hs; constructor; try assumption;
    try (eapply unique_step; [|eassumption|assumption]; first [exact reg_clash_sym|keys_sym; done]).
  - apply unique_app; [by keys_sym|done..].
  - apply unique_update; [|done]. intros a b. unfold user_clash.
    destruct (H0 a) as (Ha & Hea & _), (H0 b) as (Hb & Heb & _).
    destruct (p a), (p b); congruence.
Qed.
(** ** Every request refines the machine *)

Lemma exec_reject k a r x :
  spec (db_step k) k well_formed (exec_op (OpReject a r x)) any.
Proof.
  simpl. unfold ignore, RejectRegistration.
  eapply spec_bind; [|intros ?; by apply spec_ret]. apply spec_attempt.
  eapply spec_bind.
  - eapply spec_weaken; [apply RejectRegistration_spec|apply wf_users|done].
  - intros ?. spec_walk. apply insertAuditBestEffort_refines.
Qed.

Lemma exec_op_spec k o : spec (db_step k) k well_formed (exec_op o) any.
Proof.
  destruct o; try (simpl; apply spec_ignore; solve [eauto 2 with despatch]).
  apply exec_reject.
Qed.

Lemma rtc_invariant k (I : Database -> Prop) d d' :
  (forall d d', db_step k d d' -> well_formed d -> I d -> I d') ->
  rtc (db_step k) d d' -> well_formed d -> I d -> well_formed d' /\ I d'.
Proof.
  intros HI. induction 1 as [d|d d1 d' Hs _ IH]; [done|]. intros Hw Hd.
  apply IH; [by eapply db_step_well_formed|by eapply HI].
Qed.

Lemma run_spec k ops : spec (db_step k) k well_formed (run ops) any.
Proof.
  induction ops as [|o ops IH]; simpl; [by apply spec_ret|].
  eapply spec_bind with (Q := fun _ => well_formed); [|intros []; exact IH].
  intros w Hk Hw. destruct (exec_op_spec k o w Hk Hw) as (Hk' & Hs & _).
  split_and!; [done|done|]. destruct (fst _); [|done].
  by apply (rtc_invariant k anydb) with (2 := Hs).
Qed.

(** The same for one handler, as a triple. *)
Lemma spec_invariant {A} k (I : Database -> Prop) (m : DBM A) :
  (forall d d', db_step k d d' -> well_formed d -> I d -> I d') ->
  spec (db_step k) k anydb m any ->
  spec (db_step k) k (fun d => well_formed d /\ I d) m (fun _ d => well_formed d /\ I d).
Proof.
  intros HI Hm w Hk [Hw Hd]. destruct (Hm w Hk Logic.I) as (? & Hs & _).
  split_and!; [done|done|]. destruct (fst (m w)); [|done]. by eapply rtc_invariant.
Qed.

(** What a step of the machine preserves holds after any sequence of requests. *)
Lemma after_invariant (I : Database -> Prop) ops w :
  (forall d d', db_step (w_fresh w) d d' -> well_formed d -> I d -> I d') ->
  well_formed (w_db w) -> I (w_db w) ->
  well_formed (w_db (after ops w)) /\ I (w_db (after ops w)).
Proof.
  intros HI Hw Hd. destruct (run_spec (w_fresh w) ops w ltac:(lia) Hw) as (_ & Hs & _).
  by eapply rtc_invariant.
Qed.
End Traces.
