(* ===== verification/Sample.v ===== *)
(** * Sample: a concrete deployment and database

    Used by the examples that show the theorems' hypotheses can hold: SQL
    authentication, a deterministic clock, identifiers [uuid-<n>], random bytes
    that differ between the first few draws, stand-ins for argon2, AES-GCM and
    the address parser, and every outside call succeeding. *)

From S2P Require Import Prelude GoStrings Effects GoStd Models Users Sessions Mfa Host Lifecycle.
Local Open Scope Z_scope.

Definition sample_now (n : nat) : Z := 1700000000 * Second + Z.of_nat n * Second.

Definition sample_rand (n : nat) : Res string :=
  Ok match n with
     | 0%nat => "first draw" | 1%nat => "second draw" | 2%nat => "third draw" | _ => "later draw"
     end.

Definition sample_env : Env := {|
  env_now := sample_now;
  env_uuid n := "uuid-" +:+ itoa (Z.of_nat n);
  env_rand := sample_rand;
  env_reply _ _ := None
|}.

#[export] Instance sample_host : Host := {|
  host_env := sample_env;
  argon2_IDKey pw salt _ _ _ len :=
    take (Z.to_nat len) (map (fun b => b mod 256) (Sha256.sum (bytes pw ++ salt))
                         ++ repeat 0 (Z.to_nat len));
  gcm_seal nonce plain := nonce +:+ "/" +:+ plain;
  gcm_open token := Some token;
  net_ParseAddress s := if Contains s "@" then Some s else None;
  load_location s := Some s
|}.

Definition sample_config : Config := {|
  BaseDomain := "example.org"; SessionIdleMinutes := 30; SessionAbsoluteHour := 24;
  PasswordMinLength := 10; PasswordMaxLength := 128;
  IMAPHost := "127.0.0.1"; IMAPPort := 993; IMAPTLS := true; IMAPStartTLS := false;
  SMTPHost := "127.0.0.1"; SMTPPort := 587; SMTPTLS := false; SMTPStartTLS := true;
  DovecotAuthMode := "sql"; PasswordResetSender := "smtp"; PasswordResetFrom := "";
  PasswordResetTokenTTLMinutes := 30; PasswordResetPublicEnabled := true;
  PasswordResetExternalSenderReady := false; PasswordResetRequireMappedLogin := false;
  PAMResetHelperEnabled := false; PAMResetHelperSocket := "";
  PasskeyPasswordlessEnabled := false; CaptchaEnabled := false; MailSecEnabled := false;
  UpdateEnabled := false; UpdateRequireSignature := true |}.

#[export] Instance sample_deployment : Deployment := {|
  cfg := sample_config; sender := SMTPSender; provisioner := SQLProvisioner;
  pamResetter := false |}.

(** The same under PAM authentication. *)
Definition pam_deployment : Deployment := {|
  cfg := sample_config <| DovecotAuthMode := "pam" |> <| PAMResetHelperEnabled := true |>;
  sender := SMTPSender; provisioner := NoopProvisioner; pamResetter := true |}.

Definition sample_hash (pw : string) : string :=
  encode_hash (bytes "salt") (argon2_IDKey pw (bytes "salt") 2 32768 1 32).

Definition sample_user (id email role : string) (status : UserStatus) : UserRow := {|
  ur_id := id; ur_email := email; ur_recovery_email := Some ("recovery-" +:+ email);
  ur_mail_login := None; ur_mfa_preference := "none"; ur_legacy_mfa_prompt_pending := 0;
  ur_mfa_setup_switch_used := 0; ur_mfa_backup_completed := 1;
  ur_password_hash := sample_hash "Correct-Horse-1"; ur_role := role; ur_status := status;
  ur_provision_state := "ok"; ur_provision_error := None; ur_created_at := 0;
  ur_approved_at := None; ur_approved_by := None; ur_last_login_at := None;
  ur_mail_secret_enc := None; ur_mail_secret_updated_at := None |}.

Definition sample_session (id user raw : string) : Session := {|
  s_ID := id; s_UserID := user; s_TokenHash := sha256_hex raw; s_MailSecret := "";
  s_IPHint := ""; s_UserAgentHash := ""; s_AuthMethod := "password";
  s_MFAVerifiedAt := None; s_ActiveAccountID := None;
  s_ExpiresAt := sample_now 0 + 24 * Hour; s_IdleExpiresAt := sample_now 0 + 30 * Minute;
  s_CreatedAt := sample_now 0; s_LastSeenAt := sample_now 0; s_RevokedAt := None |}.

Definition sample_token (id user raw : string) : ResetToken :=
  mkResetToken id user (sha256_hex raw) None None (sample_now 0 + 30 * Minute) None (sample_now 0).

Definition sample_registration (id email : string) : Registration :=
  mkRegistration id email "none" "" "" true RegPending 0 None None None.

Definition sample_db : Database := empty_db
  <| users := [sample_user "admin-1" "root@example.org" "admin" UserActive;
               sample_user "user-1" "alice@example.org" "user" UserActive;
               sample_user "user-2" "bob@example.org" "user" UserPending] |>
  <| registrations := [sample_registration "reg-2" "bob@example.org"] |>
  <| sessions := [sample_session "sess-1" "user-1" "alice's token";
                  sample_session "sess-0" "admin-1" "root's token"] |>
  <| reset_tokens := [sample_token "tok-1" "user-1" "alice's reset token"] |>.

(** A world whose next statements succeed or fail as scheduled. *)
Definition sample_world (d : Database) (faults : list bool) : World Database :=
  mkWorld d faults 0 0 [].

Definition fails {A} (r : Res A) : option GoErr :=
  match r with Ok _ => None | Fail e => Some e end.

(** Random draws of the sample never produce these tokens. *)
Ltac not_fresh_hash :=
  let n := fresh "n" in let buf := fresh "buf" in
  intros (n & buf & _ & [= <-] & H);
  destruct n as [|[|[|n]]]; vm_compute in H; discriminate H.

(** [well_formed], decided. *)
Fixpoint uniqueb {R} (clash : R -> R -> bool) (rows : list R) : bool :=
  match rows with
  | [] => true
  | r :: rows' => forallb (fun r0 => negb (clash r r0)) rows' && uniqueb clash rows'
  end.

Lemma uniqueb_sound {R} (clash : R -> R -> bool) rows :
  uniqueb clash rows = true -> unique clash rows.
Proof.
  induction rows as [|r rows IH]; simpl; [constructor|].
  intros [Hr Hrows]%andb_true_iff. constructor; [|by apply IH].
  apply List.Forall_forall. intros x Hx.
  rewrite forallb_forall in Hr. apply negb_true_iff. auto.
Qed.

Definition well_formedb (d : Database) : bool :=
  uniqueb user_clash (users d) && uniqueb reg_clash (registrations d)
  && uniqueb session_clash (sessions d) && uniqueb token_clash (reset_tokens d)
  && uniqueb rate_clash (rate_events d) && uniqueb setting_clash (settings d)
  && uniqueb audit_clash (audit_log d) && uniqueb totp_clash (mfa_totp d)
  && uniqueb cred_clash (webauthn d) && uniqueb code_clash (recovery_codes d)
  && uniqueb device_clash (trusted_devices d) && uniqueb meta_clash (sessions_meta d)
  && uniqueb account_clash (mail_accounts d).

Lemma well_formedb_sound d : well_formedb d = true -> well_formed d.
Proof.
  unfold well_formedb. intros H.
  repeat match goal with H : (_ && _) = true |- _ => apply andb_true_iff in H as [? ?] end.
  constructor; by apply uniqueb_sound.
Qed.

Lemma sample_db_wf : well_formed sample_db.
Proof. apply well_formedb_sound. vm_compute. reflexivity. Qed.

Lemma pair_of_fst {A B} (p : A * B) a : fst p = a -> p = (a, snd p).
Proof. intros <-. apply surjective_pairing. Qed.

(** Identifiers of the sample start with [uuid-]. *)
Lemma sample_not_fresh_id k id : HasPrefix id "uuid-" = false -> ~ fresh_id k id.
Proof.
  intros Hc (n & _ & Hn). simpl in Hn. subst id.
  revert Hc. generalize (itoa (Z.of_nat n)). by intros [].
Qed.

Lemma sample_argon2_lengths : argon2_lengths (host := sample_host).
Proof.
  intros pw salt it mem par len Hlen. simpl. split.
  - apply Forall_take, Forall_app. split.
    + apply List.Forall_forall. intros x Hx. apply in_map_iff in Hx as (y & <- & _).
      by apply Z.mod_pos_bound.
    + apply List.Forall_forall. intros x ->%repeat_spec. lia.
  - rewrite length_take, length_app, repeat_length. lia.
Qed.

