(* ===== verification/PamHelper.v ===== *)
(** * PamHelper: internal/pamreset/helper.go

    The client and the privileged helper that changes a system password: the
    request, the frames on the socket, and the text piped into chpasswd.
    [chpasswd] says whether the program succeeds on its standard input, and
    [peer] are the credentials of the connecting process. *)

From S2P Require Import Prelude Unicode GoStrings Effects GoStd Json Host Identity Sample.
Local Open Scope Z_scope.

Definition MaxFrameSize : Z := 8192.
Definition MaxUsernameBytes : Z := 128.
Definition MaxPasswordBytes : Z := 4096.
Definition ProtocolCodeOK : string := "ok".
Definition ProtocolCodeError : string := "helper_failed".

Record Request : Type := mkRequest {
  q_RequestID : string; q_Username : string; q_NewPassword : string
}.

Record Response : Type := mkResponse {
  p_RequestID : string; p_OK : bool; p_Code : string
}.

(** [allowedUID] and [allowedGID] of a negative value allow everybody. *)
Record HelperConfig : Type := mkHelperConfig { AllowedUID : Z; AllowedGID : Z }.

(** ** Frames *)

(** [binary.BigEndian] on 32 bits. *)
Definition put_uint32 (n : Z) : list Z :=
  [n / 16777216 mod 256; n / 65536 mod 256; n / 256 mod 256; n mod 256].
Definition uint32 (a b c d : Z) : Z := ((a * 256 + b) * 256 + c) * 256 + d.

Definition writeFrame (payload : list Z) : option (list Z) :=
  let n := Z.of_nat (length payload) in
  if (n =? 0) || (MaxFrameSize <? n) then None else Some (put_uint32 n ++ payload).

(** The frame at the front of a stream; a stream that ends early is an error. *)
Definition readFrame (stream : list Z) (maxLen : Z) : option (list Z) :=
  match stream with
  | a :: b :: c :: d :: rest =>
      let n := uint32 a b c d in
      if (n =? 0) || (maxLen <? n) then None
      else if Z.of_nat (length rest) <? n then None
      else Some (take (Z.to_nat n) rest)
  | _ => None
  end.

(** ** Requests and responses *)

Definition request_json (r : Request) : string :=
  json_struct [("request_id", JString (q_RequestID r)); ("username", JString (q_Username r));
               ("new_password", JString (q_NewPassword r))].

Definition response_json (r : Response) : string :=
  json_struct [("request_id", JString (p_RequestID r)); ("ok", JBool (p_OK r));
               ("code", JString (p_Code r))].

Definition decode_request (frame : list Z) : option Request :=
  match json_decode (of_bytes frame) with
  | Some (JObject fields) =>
      if known_fields ["request_id"; "username"; "new_password"] fields then
        id ← decode_text_field "request_id" "" fields;
        user ← decode_text_field "username" "" fields;
        pw ← decode_text_field "new_password" "" fields;
        Some (mkRequest id user pw)
      else None
  | Some JNull => Some (mkRequest "" "" "")
  | _ => None
  end.

Definition decode_response (frame : list Z) : option Response :=
  match json_decode (of_bytes frame) with
  | Some (JObject fields) =>
      if known_fields ["request_id"; "ok"; "code"] fields then
        id ← decode_text_field "request_id" "" fields;
        ok ← decode_bool_field "ok" false fields;
        code ← decode_text_field "code" "" fields;
        Some (mkResponse id ok code)
      else None
  | Some JNull => Some (mkResponse "" false "")
  | _ => None
  end.

Definition validateRequest (req : Request) : Res unit :=
  let username := TrimSpace (q_Username req) in
  if String.eqb (TrimSpace (q_RequestID req)) "" then Fail (ErrText "request_id is required")
  else if String.eqb username "" then Fail (ErrText "username is required")
  else if MaxUsernameBytes <? go_len username then Fail (ErrText "username exceeds limit")
  else if go_len (q_NewPassword req) =? 0 then Fail (ErrText "new_password is required")
  else if MaxPasswordBytes <? go_len (q_NewPassword req)
  then Fail (ErrText "new_password exceeds limit")
  else Ok tt.

(** ** The helper *)

(** The standard input of chpasswd. *)
Definition newline : string := String (ascii_of 10) EmptyString.
Definition chpasswd_input (username password : string) : string :=
  TrimSpace username +:+ ":" +:+ password +:+ newline.

Definition authorizePeer (peer : option (Z * Z)) (cfg : HelperConfig) : bool :=
  match peer with
  | None => false
  | Some (uid, gid) =>
      negb ((0 <=? AllowedUID cfg) && negb (uid =? AllowedUID cfg))
      && negb ((0 <=? AllowedGID cfg) && negb (gid =? AllowedGID cfg))
  end.

(** What is piped into chpasswd, if it is run at all, and the response, on a
    connection that meets its deadlines: IOTimeout and CommandTimeout, after
    which an answer of chpasswd is lost, are not modelled. *)
Definition handleConn (chpasswd : string -> bool) (cfg : HelperConfig) (peer : option (Z * Z))
    (stream : list Z) : option string * Response :=
  if negb (authorizePeer peer cfg) then (None, mkResponse "" false "unauthorized_peer")
  else match readFrame stream MaxFrameSize with
  | None => (None, mkResponse "" false "invalid_frame")
  | Some frame =>
      match decode_request frame with
      | None => (None, mkResponse "" false "invalid_request")
      | Some req =>
          match validateRequest req with
          | Fail _ => (None, mkResponse (TrimSpace (q_RequestID req)) false "invalid_request")
          | Ok _ =>
              let input := chpasswd_input (q_Username req) (q_NewPassword req) in
              (Some input,
               if chpasswd input then mkResponse (q_RequestID req) true ProtocolCodeOK
               else mkResponse (q_RequestID req) false ProtocolCodeError)
          end
      end
  end.

(** [writeResponse]: what reaches the client; a frame that cannot be written is
    lost. *)
Definition writeResponse (resp : Response) : list Z :=
  match writeFrame (bytes (response_json resp)) with Some f => f | None => [] end.

Definition safeLogValue (v : string) : string :=
  let trimmed := TrimSpace v in
  if String.eqb trimmed "" then "-"
  else of_runes (List.filter (fun r => negb ((r =? 10) || (r =? 13) || (r =? 9)))
                   (runes trimmed)).

(** ** The client

    [exchange] is the socket: what comes back for the bytes sent, [None] when
    dialing, writing or reading fails. *)

Definition ResetPassword (socketPath : string) (exchange : list Z -> option (list Z))
    (req : Request) : Res Response :=
  let unavailable msg := Fail (ErrWrap ErrHelperUnavailable msg) in
  if String.eqb (TrimSpace socketPath) "" then Fail ErrHelperUnavailable
  else match validateRequest req with
  | Fail e => Fail e
  | Ok _ =>
      match writeFrame (bytes (request_json req)) with
      | None => unavailable "invalid payload length"
      | Some sent =>
          match exchange sent with
          | None => unavailable "i/o error"
          | Some reply =>
              match readFrame reply MaxFrameSize with
              | None => unavailable "invalid frame length"
              | Some frame =>
                  match decode_response frame with
                  | None => unavailable "bad helper response"
                  | Some out =>
                      if negb (String.eqb (TrimSpace (p_RequestID out))
                                          (TrimSpace (q_RequestID req)))
                      then unavailable "request id mismatch"
                      else if negb (p_OK out)
                      then Fail (ErrWrap ErrHelperRejected (TrimSpace (p_Code out)))
                      else Ok out
                  end
              end
          end
      end
  end.

(** A socket served by the helper. *)
Definition served (chpasswd : string -> bool) (cfg : HelperConfig) (peer : option (Z * Z))
    (sent : list Z) : option (list Z) :=
  Some (writeResponse (snd (handleConn chpasswd cfg peer sent))).

(** ** Lemmas *)

Lemma uint32_put n : 0 <= n < 4294967296 ->
  uint32 (n / 16777216 mod 256) (n / 65536 mod 256) (n / 256 mod 256) (n mod 256) = n.
Proof. intros. unfold uint32. Z.to_euclidean_division_equations. lia. Qed.

Lemma readFrame_writeFrame payload sent rest :
  writeFrame payload = Some sent -> readFrame (sent ++ rest) MaxFrameSize = Some payload.
Proof.
  unfold writeFrame. destruct ((_ =? 0) || _) eqn:E; [done|]. intros [= <-].
  breflect. unfold MaxFrameSize in *. cbn [app put_uint32 readFrame].
  rewrite uint32_put by lia.
  replace (Z.of_nat (length payload) =? 0) with false by (symmetry; apply Z.eqb_neq; lia).
  replace (8192 <? Z.of_nat (length payload)) with false by (symmetry; apply Z.ltb_ge; lia).
  rewrite length_app.
  replace (Z.of_nat (length payload + length rest) <? Z.of_nat (length payload)) with false
    by (symmetry; apply Z.ltb_ge; lia).
  simpl. by rewrite Nat2Z.id, take_app_length.
Qed.

(** A text of well-formed UTF-8. *)
Definition well_encoded (s : string) : Prop := clean s = s.

Lemma decode_request_json r :
  well_encoded (q_RequestID r) -> well_encoded (q_Username r) -> well_encoded (q_NewPassword r) ->
  decode_request (bytes (request_json r)) = Some r.
Proof.
  unfold well_encoded, decode_request, request_json. intros H1 H2 H3.
  rewrite of_bytes_bytes, json_struct_back by done. cbn [map]. unfold read_back. cbn [fst snd].
  rewrite H1, H2, H3. destruct r as [id user pw]. vm_compute. reflexivity.
Qed.

Lemma decode_response_json r :
  well_encoded (p_RequestID r) -> well_encoded (p_Code r) ->
  decode_response (bytes (response_json r)) = Some r.
Proof.
  unfold well_encoded, decode_response, response_json. intros H1 H2.
  rewrite of_bytes_bytes, json_struct_back by done. cbn [map]. unfold read_back. cbn [fst snd].
  rewrite H1, H2. destruct r as [id ok code]. vm_compute. reflexivity.
Qed.

Lemma flat_map_length_ge {A B} (f : A -> list B) l :
  (forall a, (1 <= length (f a))%nat) -> (length l <= length (flat_map f l))%nat.
Proof.
  intros H. induction l as [|a l IH]; simpl; [done|]. rewrite length_app.
  specialize (H a). lia.
Qed.

Lemma bytes_json_string s : is_bytes (json_string s).
Proof. rewrite <- encode_text_runes. apply encode_runes_bytes. Qed.

Lemma length_json_string s :
  s <> "" -> (3 <= length (json_string s))%nat.
Proof.
  intros Hs. unfold json_string. rewrite !length_app. simpl.
  assert (Hd : (1 <= length (decode_with (-1)%Z (bytes s)))%nat).
  { destruct (bytes s) as [|b l] eqn:E.
    - exfalso. apply Hs. by rewrite <- (of_bytes_bytes s), E.
    - cbn [decode_with]. repeat (case_match; simpl; try lia). }
  pose proof (flat_map_length_ge json_rune (decode_with (-1) (bytes s))) as H.
  lapply H; [lia|]. intros r. unfold json_rune, hex4. repeat (case_match; simpl; try lia).
  unfold encode_rune. repeat (case_match; simpl; try lia).
Qed.

Lemma length_struct kv kvs :
  length (bytes (json_struct (kv :: kvs)))
  = (length (encode_runes (123%Z :: struct_runes kv kvs)))%nat.
Proof.
  rewrite <- encode_struct_runes. by rewrite bytes_of_bytes by apply encode_runes_bytes.
Qed.

(** The answer to a request is never longer than the request. *)
Lemma response_fits req ok :
  q_Username req <> "" -> q_NewPassword req <> "" ->
  (length (bytes (response_json (mkResponse (q_RequestID req) ok
     (if ok then ProtocolCodeOK else ProtocolCodeError))))
   <= length (bytes (request_json req)))%nat.
Proof.
  intros Hu Hp. unfold response_json, request_json. cbn [p_RequestID p_OK p_Code].
  rewrite !length_struct. change (123 :: ?l) with ([123] ++ l). unfold struct_runes.
  cbn [flat_map]. change (44 :: ?l) with ([44] ++ l).
  rewrite !encode_runes_app, !encode_field_runes. cbn [fst snd json_value].
  pose proof (length_json_string _ Hu). pose proof (length_json_string _ Hp).
  rewrite !length_app.
  set (user := length (json_string (q_Username req))) in *.
  set (pw := length (json_string (q_NewPassword req))) in *.
  set (id := length (json_string (q_RequestID req))). clearbody user pw id.
  replace (length (json_string "request_id")) with 12%nat by (vm_compute; reflexivity).
  replace (length (json_string "username")) with 10%nat by (vm_compute; reflexivity).
  replace (length (json_string "new_password")) with 14%nat by (vm_compute; reflexivity).
  replace (length (json_string "ok")) with 4%nat by (vm_compute; reflexivity).
  replace (length (json_string "code")) with 6%nat by (vm_compute; reflexivity).
  assert (length (if ok then bytes "true" else bytes "false")
          + length (json_string (if ok then ProtocolCodeOK else ProtocolCodeError)) <= 20)%nat.
  { destruct ok; vm_compute; lia. }
  cbn [length encode_runes flat_map app]. change (encode_rune 123) with [123].
  change (encode_rune 44) with [44]. change (encode_rune 125) with [125].
  change (encode_rune 58) with [58]. cbn [length app]. lia.
Qed.

Lemma writeFrame_fits payload :
  (1 <= length payload)%nat -> Z.of_nat (length payload) <= MaxFrameSize ->
  writeFrame payload = Some (put_uint32 (Z.of_nat (length payload)) ++ payload).
Proof.
  intros H1 H2. unfold writeFrame. destruct (_ || _) eqn:E; [|done].
  apply orb_true_iff in E as [E|E]; breflect; lia.
Qed.

Lemma writeFrame_Some payload sent :
  writeFrame payload = Some sent -> Z.of_nat (length payload) <= MaxFrameSize.
Proof. unfold writeFrame. destruct (_ || _) eqn:E; [done|]. by breflect. Qed.

Lemma valid_not_blank req :
  validateRequest req = Ok tt -> q_Username req <> "" /\ q_NewPassword req <> "".
Proof.
  unfold validateRequest. intros H.
  split; intros He; rewrite He in H; revert H; repeat case_match; try done.
Qed.

(** The response to a request that fitted a frame fits one. *)
Lemma response_written req sent ok :
  validateRequest req = Ok tt -> writeFrame (bytes (request_json req)) = Some sent ->
  let resp := mkResponse (q_RequestID req) ok
                (if ok then ProtocolCodeOK else ProtocolCodeError) in
  writeFrame (bytes (response_json resp)) = Some (writeResponse resp).
Proof.
  intros Hv Hf%writeFrame_Some resp. destruct (valid_not_blank _ Hv) as [Hu Hp].
  pose proof (response_fits req ok Hu Hp) as Hlen. fold resp in Hlen.
  unfold writeResponse. rewrite writeFrame_fits; [done| |lia].
  unfold response_json. rewrite length_struct. simpl. lia.
Qed.

(** ** Properties *)

(** C34. The helper carries out the request: over an intact socket, for a valid
    request that fits a frame and a peer that is allowed, the helper pipes
    exactly the user name and the new password of the caller into chpasswd, and
    [ResetPassword] succeeds exactly when chpasswd did. *)
Theorem reset_reaches_chpasswd socketPath chpasswd cfg peer req sent :
  TrimSpace socketPath <> "" -> validateRequest req = Ok tt ->
  well_encoded (q_RequestID req) -> well_encoded (q_Username req) ->
  well_encoded (q_NewPassword req) -> authorizePeer peer cfg = true ->
  writeFrame (bytes (request_json req)) = Some sent ->
  let input := chpasswd_input (q_Username req) (q_NewPassword req) in
  fst (handleConn chpasswd cfg peer sent) = Some input
  /\ ResetPassword socketPath (served chpasswd cfg peer) req
     = if chpasswd input then Ok (mkResponse (q_RequestID req) true ProtocolCodeOK)
       else Fail (ErrWrap ErrHelperRejected ProtocolCodeError).
Proof.
  intros Hs Hv Hid Hu Hp Ha Hf input.
  pose proof (readFrame_writeFrame _ _ [] Hf) as Hr. rewrite app_nil_r in Hr.
  assert (Hh : handleConn chpasswd cfg peer sent
    = (Some input, mkResponse (q_RequestID req) (chpasswd input)
         (if chpasswd input then ProtocolCodeOK else ProtocolCodeError))).
  { unfold handleConn. rewrite Ha, Hr, decode_request_json, Hv by done. cbn [negb].
    fold input. by destruct (chpasswd input). }
  rewrite Hh. split; [done|]. unfold ResetPassword, served. rewrite Hv, Hf, Hh. cbn [snd].
  apply String.eqb_neq in Hs. rewrite Hs.
  set (resp := mkResponse _ _ _).
  pose proof (response_written req sent (chpasswd input) Hv Hf) as Hw. fold resp in Hw.
  assert (well_encoded (p_Code resp)) by (subst resp; by destruct (chpasswd input)).
  pose proof (readFrame_writeFrame _ _ [] Hw) as Hrr. rewrite app_nil_r in Hrr.
  rewrite Hrr, decode_response_json by done. subst resp. cbn [p_RequestID p_OK p_Code].
  rewrite String.eqb_refl. cbn [negb]. by destruct (chpasswd input).
Qed.

(** ** Witnesses *)

Definition alice_reset : Request := mkRequest "r1" " alice" "Str0ng-pass".

Theorem reset_reaches_chpasswd_witness :
  ResetPassword "/run/despatch/pam.sock" (served (fun _ => true) (mkHelperConfig 33 (-1))
    (Some (33, 33))) alice_reset = Ok (mkResponse "r1" true "ok").
Proof.
  refine (proj2 (reset_reaches_chpasswd "/run/despatch/pam.sock" (fun _ => true)
    (mkHelperConfig 33 (-1)) (Some (33, 33)) alice_reset
    (put_uint32 (Z.of_nat (length (bytes (request_json alice_reset)))) ++ bytes (request_json alice_reset)) _ _ _ _ _ _ _)); vm_compute; done.
Defined.

(** ** A line break in a password

    Neither the password policy nor the request validation excludes a line
    break, and chpasswd reads one account per line: whoever resets a password
    in PAM mode can choose the password of any account of the machine. *)

Definition two_line_password : string := "Str0ng-pass" +:+ newline +:+ "root:Owned-1".

Lemma password_names_another_account :
  ValidatePassword (dep := pam_deployment) two_line_password = Ok tt
  /\ validateRequest (mkRequest "r1" "alice" two_line_password) = Ok tt
  /\ Split (chpasswd_input "alice" two_line_password) (ascii_of 10)
     = ["alice:Str0ng-pass"; "root:Owned-1"; ""].
Proof. vm_compute. done. Qed.
