(* ===== verification/Middleware.v ===== *)
(** * Middleware: internal/middleware/http.go and context.go

    What stands between a request and its handler.  A guard either refuses
    the request or passes it on, with the user and the session it found in the
    context.  The server's state is the [World] of the service and the limiter
    the routes share. *)

From S2P Require Import Prelude GoStrings Effects GoStd GoText RateLimit Models Sessions Host FeatureFlags.
From S2P Require Import Auth.
Local Open Scope Z_scope.

(** ** Requests *)

(** What the guards read of an [http.Request]: its method, its cookies in the
    order of the header, the headers they look at and the peer's address. *)
Record HTTPRequest : Type := mkHTTPRequest {
  Method : string; Cookies : list (string * string);
  XCSRFToken : string; XForwardedFor : string; RemoteAddr : string
}.

(** [r.Cookie(name)]: the first cookie of that name. *)
Definition Cookie (r : HTTPRequest) (name : string) : option string :=
  snd <$> List.find (fun c => String.eqb (fst c) name) (Cookies r).

(** The context values of context.go. *)
Record Ctx : Type := mkCtx { ctxUser : option User; ctxSession : option Session }.

#[export] Instance eta_Ctx : Eta Ctx := fun c => mkCtx (ctxUser c) (ctxSession c).

Definition WithUser (c : Ctx) (u : User) : Ctx := c <| ctxUser := Some u |>.
Definition WithSession (c : Ctx) (s : Session) : Ctx := c <| ctxSession := Some s |>.

Record HTTPConfig : Type := mkHTTPConfig {
  SessionCookieName : string; CSRFCookieName : string; TrustProxy : bool
}.

Record Server : Type := mkServer { sv_world : World Database; sv_limiter : Limiter }.

(** ** The address a request is counted under *)

(** The text after the last [c], and the text before it. *)
Definition cut_last (c : Ascii.ascii) (l : list Ascii.ascii) :
    option (list Ascii.ascii * list Ascii.ascii) :=
  '(p, q) ← cut_ascii c (rev l); Some (rev q, rev p).

Definition has_ascii (c : Ascii.ascii) (l : list Ascii.ascii) : bool :=
  existsb (Ascii.eqb c) l.

(** [net.SplitHostPort], the host; [None] when it returns an error. *)
Definition SplitHost (hostport : string) : option string :=
  let colon := ascii_of 58 in let opens := ascii_of 91 in let closes := ascii_of 93 in
  let l := String.list_ascii_of_string hostport in
  '(before, _) ← cut_last colon l;
  match l with
  | a :: l' =>
      if Ascii.eqb a opens then
        (* the first ']' stands just before the last colon *)
        '(host, rest) ← cut_ascii closes l';
        match rest with
        | b :: port =>
            if Ascii.eqb b colon && negb (has_ascii colon port)
               && negb (has_ascii opens (host ++ rest)) && negb (has_ascii closes rest)
            then Some (String.string_of_list_ascii host) else None
        | [] => None
        end
      else if has_ascii colon before || has_ascii opens l || has_ascii closes l then None
      else Some (String.string_of_list_ascii before)
  | [] => None
  end.

Definition ClientIP (r : HTTPRequest) (trustProxy : bool) : string :=
  if trustProxy && negb (String.eqb (XForwardedFor r) "")
  then TrimSpace (default "" (head (Split (XForwardedFor r) (ascii_of 44))))
  else default (RemoteAddr r) (SplitHost (RemoteAddr r)).

(** ** Answers and guards *)

(** A refusal is the status and the error [util.WriteError] sends, with the
    seconds of a Retry-After header; a refusal for the MFA stage sends the
    stage. *)
Inductive Answer (A : Type) : Type :=
| Refused (status : Z) (code message : string) (retryAfter : option Z)
| StageRefused (code message : string) (stage : MFAStage)
| Served (a : A).
Arguments Refused {A} status code message retryAfter.
Arguments StageRefused {A} code message stage.
Arguments Served {A} a.

Definition Handler (A : Type) : Type := HTTPRequest -> Ctx -> Server -> Answer A * Server.

Section Guards.
Context {host : Host} {dep : Deployment} (hcfg : HTTPConfig).
Context {A : Type}.

Definition refuse (status : Z) (code message : string) : Server -> Answer A * Server :=
  fun s => (Refused status code message None, s).

Definition Authn (cookieName : string) (next : Handler A) : Handler A := fun r ctx s =>
  match Cookie r cookieName with
  | None => refuse 401 "session_missing" "authentication required" s
  | Some value =>
      if String.eqb value "" then refuse 401 "session_missing" "authentication required" s
      else
        let (res, w) := ValidateSession value (sv_world s) in
        let s := mkServer w (sv_limiter s) in
        match res with
        | Fail e =>
            if errors_Is e ErrForbidden then refuse 403 "forbidden" "account is not active" s
            else refuse 401 "session_invalid" "invalid session" s
        | Ok (u, sess) => next r (WithSession (WithUser ctx u) sess) s
        end
  end.

Definition AdminOnly (next : Handler A) : Handler A := fun r ctx s =>
  match ctxUser ctx with
  | Some u => if negb (String.eqb (u_Role u) "admin")
              then refuse 403 "forbidden" "admin role required" s else next r ctx s
  | None => refuse 403 "forbidden" "admin role required" s
  end.

Definition RequireMFAVerified (next : Handler A) : Handler A := fun r ctx s =>
  match ctxSession ctx with
  | None => refuse 401 "session_missing" "authentication required" s
  | Some sess =>
      match s_MFAVerifiedAt sess with
      | None => refuse 401 "mfa_required" "multi-factor authentication required" s
      | Some _ => next r ctx s
      end
  end.

Definition RequireMFAStageAuthenticated (next : Handler A) : Handler A := fun r ctx s =>
  match ctxUser ctx, ctxSession ctx with
  | Some u, Some sess =>
      let (res, w) := ResolveMFAStage u (Some sess) (sv_world s) in
      let s := mkServer w (sv_limiter s) in
      match res with
      | Fail _ => refuse 500 "internal_error" "cannot resolve mfa stage" s
      | Ok stage =>
          match st_AuthStage stage with
          | AuthStageMFASetupNeeded =>
              (StageRefused "mfa_setup_required" "multi-factor setup is required" stage, s)
          | AuthStageMFARequired =>
              (StageRefused "mfa_required" "multi-factor authentication required" stage, s)
          | AuthStageAuthenticated => next r ctx s
          end
      end
  | _, _ => refuse 401 "session_missing" "authentication required" s
  end.

Definition safe_method (m : string) : bool :=
  String.eqb m "GET" || String.eqb m "HEAD" || String.eqb m "OPTIONS".

Definition CSRFFromCookie (cookieName : string) (next : Handler A) : Handler A := fun r ctx s =>
  if safe_method (Method r) then next r ctx s
  else match Cookie r cookieName with
  | None => refuse 403 "csrf_failed" "missing csrf token" s
  | Some value =>
      if String.eqb value "" || String.eqb (XCSRFToken r) ""
      then refuse 403 "csrf_failed" "missing csrf token" s
      else if negb (String.eqb (XCSRFToken r) value)
      then refuse 403 "csrf_failed" "invalid csrf token" s
      else next r ctx s
  end.

(** The middleware of this name; [window] is a whole number of seconds. *)
Definition RateLimited (route : string) (limit window : Z) (next : Handler A) : Handler A :=
  fun r ctx s =>
  let now := env_now (w_tick (sv_world s)) in
  let key := route +:+ ":" +:+ ClientIP r (TrustProxy hcfg) in
  let (ok, l) := Allow key limit window now (sv_limiter s) in
  let s := mkServer (sv_world s <| w_tick := S (w_tick (sv_world s)) |>) l in
  if negb ok
  then (Refused 429 "rate_limited" "too many requests" (Some (window / Second)), s)
  else next r ctx s.

(** ** Chains of guards *)

Inductive Guard : Type :=
| G_RateLimit (route : string) (limit window : Z)
| G_Authn | G_MFAStage | G_CSRF | G_Admin.

Definition guard (g : Guard) : Handler A -> Handler A :=
  match g with
  | G_RateLimit route limit window => RateLimited route limit window
  | G_Authn => Authn (SessionCookieName hcfg)
  | G_MFAStage => RequireMFAStageAuthenticated
  | G_CSRF => CSRFFromCookie (CSRFCookieName hcfg)
  | G_Admin => AdminOnly
  end.

Definition chain (gs : list Guard) (h : Handler A) : Handler A := fold_right guard h gs.

(** *** What a guard that passes has found *)

Inductive passes (r : HTTPRequest) : Guard -> Ctx -> Server -> Ctx -> Server -> Prop :=
| passes_rate route limit window ctx s l
    (Hallow : Allow (route +:+ ":" +:+ ClientIP r (TrustProxy hcfg)) limit window
       (env_now (w_tick (sv_world s))) (sv_limiter s) = (true, l)) :
    passes r (G_RateLimit route limit window) ctx s ctx
      (mkServer (sv_world s <| w_tick := S (w_tick (sv_world s)) |>) l)
| passes_authn token u sess w ctx s
    (Hcookie : Cookie r (SessionCookieName hcfg) = Some token) (Hne : token <> "")
    (Hvalid : ValidateSession token (sv_world s) = (Ok (u, sess), w)) :
    passes r G_Authn ctx s (WithSession (WithUser ctx u) sess) (mkServer w (sv_limiter s))
| passes_stage u sess stage w ctx s
    (Hu : ctxUser ctx = Some u) (Hs : ctxSession ctx = Some sess)
    (Hstage : ResolveMFAStage u (Some sess) (sv_world s) = (Ok stage, w))
    (Hauth : st_AuthStage stage = AuthStageAuthenticated) :
    passes r G_MFAStage ctx s ctx (mkServer w (sv_limiter s))
| passes_csrf ctx s
    (Htoken : safe_method (Method r) = false ->
       XCSRFToken r <> "" /\ Cookie r (CSRFCookieName hcfg) = Some (XCSRFToken r)) :
    passes r G_CSRF ctx s ctx s
| passes_admin u ctx s (Hu : ctxUser ctx = Some u) (Hrole : u_Role u = "admin") :
    passes r G_Admin ctx s ctx s.

Lemma guard_served g next r ctx s a s' :
  guard g next r ctx s = (Served a, s') ->
  exists ctx1 s1, passes r g ctx s ctx1 s1 /\ next r ctx1 s1 = (Served a, s').
Proof.
  destruct g; simpl.
  - unfold RateLimited. destruct (Allow _ _ _ _ _) as [ok l] eqn:E.
    destruct ok; [|done]. simpl. intros H. eexists _, _. split; [by constructor|exact H].
  - unfold Authn, refuse. destruct (Cookie _ _) as [token|] eqn:Ec; [|done].
    destruct (String.eqb_spec token ""); [done|].
    destruct (ValidateSession token (sv_world s)) as [[[u sess]|e] w] eqn:Ev;
      [|by destruct (errors_Is e ErrForbidden)].
    intros H. eexists _, _. split; [by econstructor|exact H].
  - unfold RequireMFAStageAuthenticated, refuse.
    destruct (ctxUser ctx) as [u|] eqn:Eu; [|done].
    destruct (ctxSession ctx) as [sess|] eqn:Es; [|done].
    destruct (ResolveMFAStage _ _ _) as [[stage|e] w] eqn:Er; [|done].
    destruct (st_AuthStage stage) eqn:Ea; [|done|done].
    intros H. eexists _, _. split; [by econstructor|exact H].
  - unfold CSRFFromCookie, refuse. destruct (safe_method (Method r)) eqn:Em.
    { intros H. eexists _, _. split; [apply passes_csrf; congruence|exact H]. }
    destruct (Cookie _ _) as [v|] eqn:Ec; [|done].
    destruct (String.eqb v "" || _) eqn:Eb; [done|].
    destruct (String.eqb_spec (XCSRFToken r) v) as [<-|]; [|done]. simpl.
    intros H. eexists _, _. split; [|exact H]. apply passes_csrf. intros _.
    apply orb_false_iff in Eb as [_ Eb]. breflect. done.
  - unfold AdminOnly, refuse. destruct (ctxUser ctx) as [u|] eqn:Eu; [|done].
    destruct (String.eqb_spec (u_Role u) "admin"); [|done]. simpl.
    intros H. eexists _, _. split; [by econstructor|exact H].
Qed.

(** A run of a chain that reaches its handler. *)
Inductive reaches (r : HTTPRequest) : list Guard -> Ctx -> Server -> Ctx -> Server -> Prop :=
| reaches_handler ctx s : reaches r [] ctx s ctx s
| reaches_guard g gs ctx s ctx1 s1 ctx2 s2 :
    passes r g ctx s ctx1 s1 -> reaches r gs ctx1 s1 ctx2 s2 -> reaches r (g :: gs) ctx s ctx2 s2.

Lemma chain_served gs h r ctx s a s' :
  chain gs h r ctx s = (Served a, s') ->
  exists ctx1 s1, reaches r gs ctx s ctx1 s1 /\ h r ctx1 s1 = (Served a, s').
Proof.
  revert ctx s. induction gs as [|g gs IH]; intros ctx s H; simpl in H.
  - eexists _, _. split; [constructor|exact H].
  - apply guard_served in H as (ctx1 & s1 & Hp & H). apply IH in H as (ctx2 & s2 & Hr & H).
    exists ctx2, s2. split; [by econstructor|exact H].
Qed.

(** Only [G_Authn] writes the context. *)
Lemma passes_ctx r g ctx s ctx' s' : passes r g ctx s ctx' s' -> g <> G_Authn -> ctx' = ctx.
Proof. by destruct 1. Qed.
End Guards.
