(* ===== verification/Routes.v ===== *)
(** * Routes: the route table of internal/api/router.go

    [NewRouter] lines 173 to 471, nested as the code nests its groups: every
    route with its method, its pattern, its handler's name and the guards a
    request passes, outermost first.  The middlewares of the whole server
    (recovery, request identifiers, logging, headers, CORS) refuse nothing and
    are left out, as are the health probes and the static files.  Matching a
    path to a pattern is the router library's. *)

From S2P Require Import Prelude GoStrings Effects RateLimit Models Host FeatureFlags Auth Lifecycle Sample.
From S2P Require Import Middleware.
Local Open Scope Z_scope.

Record Route : Type := mkRoute {
  rt_Method : string; rt_Path : string; rt_Handler : string; rt_Guards : list Guard
}.

#[export] Instance eta_Route : Eta Route := fun t =>
  mkRoute (rt_Method t) (rt_Path t) (rt_Handler t) (rt_Guards t).

(** The methods of [chi.Router] the table is written with. *)
Definition Get (path h : string) : Route := mkRoute "GET" path h [].
Definition Post (path h : string) : Route := mkRoute "POST" path h [].
Definition Patch (path h : string) : Route := mkRoute "PATCH" path h [].
Definition Put (path h : string) : Route := mkRoute "PUT" path h [].
Definition Delete (path h : string) : Route := mkRoute "DELETE" path h [].
Definition With (g : Guard) (t : Route) : Route := t <| rt_Guards := g :: rt_Guards t |>.
Definition Group (gs : list Guard) (ts : list Route) : list Route :=
  map (fun t => t <| rt_Guards := gs ++ rt_Guards t |>) ts.
Definition Under (prefix : string) (ts : list Route) : list Route :=
  map (fun t => t <| rt_Path := prefix +:+ rt_Path t |>) ts.

Definition api_v1_admin : list Route :=
  Under "/admin" (Group [G_Admin] (
    [Get "/registrations" "AdminListRegistrations";
     Get "/users" "AdminListUsers";
     Get "/users/{id}/mailboxes" "AdminListUserMailboxes";
     Get "/audit-log" "AdminAuditLog";
     Get "/system/mail-health" "AdminMailHealth";
     Get "/system/version" "AdminVersion";
     Get "/system/update/status" "AdminUpdateStatus";
     Get "/system/feature-flags" "AdminListFeatureFlags"]
    ++ Group [G_CSRF] (
      [Post "/registrations/{id}/approve" "AdminApproveRegistration";
       Post "/registrations/{id}/reject" "AdminRejectRegistration";
       Post "/registrations/bulk/decision" "AdminBulkRegistrationDecision";
       Post "/users" "AdminCreateUser";
       Post "/users/{id}/mailboxes" "AdminCreateUserMailbox";
       Post "/users/{id}/suspend" "AdminSuspendUser";
       Post "/users/{id}/unsuspend" "AdminUnsuspendUser";
       Post "/users/bulk/action" "AdminBulkUserAction";
       Post "/users/{id}/reset-password" "AdminResetPassword";
       Post "/users/{id}/retry-provision" "AdminRetryProvisionUser";
       Delete "/users/{id}/mailboxes" "AdminDeleteUserMailbox";
       With (G_RateLimit "update_check" 20 Minute) (Post "/system/update/check" "AdminUpdateCheck");
       With (G_RateLimit "update_apply" 10 Minute) (Post "/system/update/apply" "AdminUpdateApply");
       With (G_RateLimit "update_auto" 20 Minute)
         (Post "/system/update/automatic" "AdminUpdateAutomatic");
       With (G_RateLimit "update_cancel_scheduled" 20 Minute)
         (Post "/system/update/cancel-scheduled" "AdminUpdateCancelScheduled");
       Post "/system/feature-flags/{id}" "AdminSetFeatureFlag";
       Post "/system/feature-flags/{id}/reset" "AdminResetFeatureFlag"]))).

Definition api_v1 : list Route := Under "/api/v1" (
  [Get "/public/captcha/config" "PublicCaptchaConfig";
   Get "/public/password-reset/capabilities" "PublicPasswordResetCapabilities";
   Get "/public/auth/capabilities" "PublicAuthCapabilities";
   Get "/public/i18n/{locale}" "PublicI18nBundle";
   Get "/setup/status" "SetupStatus";
   With (G_RateLimit "setup_complete" 20 Minute) (Post "/setup/complete" "SetupComplete");
   With (G_RateLimit "register" 10 Minute) (Post "/register" "Register");
   With (G_RateLimit "login" 20 Minute) (Post "/login" "Login");
   With (G_RateLimit "login_passkey_begin_v1" 30 Minute)
     (Post "/login/passkey/begin" "V1PasskeyLoginBegin");
   With (G_RateLimit "login_passkey_finish_v1" 30 Minute)
     (Post "/login/passkey/finish" "V1PasskeyLoginFinish");
   Post "/logout" "Logout";
   With (G_RateLimit "reset_request" 10 Minute)
     (Post "/password/reset/request" "PasswordResetRequest");
   With (G_RateLimit "reset_confirm_ip" 20 Minute)
     (Post "/password/reset/confirm" "PasswordResetConfirm")]
  ++ Group [G_Authn] (
    [Get "/me" "Me"]
    ++ Group [G_CSRF] (
      [Post "/session/mail-secret/unlock" "V1SessionMailSecretUnlock"])
    ++ Group [G_MFAStage] (
      [Get "/mailboxes" "ListMailboxes";
       Get "/mailboxes/special" "ListSpecialMailboxes";
       Get "/messages" "ListMessages";
       Get "/messages/{id}" "GetMessage";
       Get "/messages/{id}/raw" "GetMessageRaw";
       Get "/messages/{id}/remote-image" "GetMessageRemoteImage";
       Get "/threads/{id}/messages" "ListThreadMessages";
       Get "/compose/identities" "ComposeIdentities";
       Get "/search" "Search";
       Get "/attachments/{id}" "GetAttachment"]
      ++ Group [G_CSRF] (
        [Post "/me/recovery-email" "MeUpdateRecoveryEmail";
         With (G_RateLimit "send" 30 Minute) (Post "/messages/send" "SendMessage");
         With (G_RateLimit "send" 30 Minute) (Post "/messages/{id}/reply" "ReplyMessage");
         With (G_RateLimit "send" 30 Minute) (Post "/messages/{id}/forward" "ForwardMessage");
         Post "/messages/{id}/unsubscribe" "V1UnsubscribeMessage";
         Post "/messages/{id}/flags" "SetMessageFlags";
         Post "/messages/{id}/move" "MoveMessage";
         Post "/mailboxes" "CreateMailbox";
         Patch "/mailboxes" "RenameMailbox";
         Delete "/mailboxes" "DeleteMailbox";
         Post "/mailboxes/special/{role}" "UpsertSpecialMailbox"])
      ++ api_v1_admin))).

Definition api_v2_changes : list Route :=
  [Post "/mail/providers/validate" "V2ValidateMailProvider";
   Post "/accounts" "V2CreateAccount";
   Patch "/accounts/{id}" "V2UpdateAccount";
   Delete "/accounts/{id}" "V2DeleteAccount";
   Post "/accounts/{id}/activate" "V2ActivateAccount";
   Post "/accounts/{id}/health/sync" "V2QueueAccountHealthSync";
   Post "/accounts/{id}/health/quota-refresh" "V2QueueAccountQuotaRefresh";
   Post "/accounts/{id}/health/reindex" "V2QueueAccountReindex";
   Post "/accounts/{id}/mailboxes" "V2CreateAccountMailbox";
   Patch "/accounts/{id}/mailboxes" "V2RenameAccountMailbox";
   Delete "/accounts/{id}/mailboxes" "V2DeleteAccountMailbox";
   Post "/accounts/{id}/mailboxes/special/{role}" "V2UpsertAccountSpecialMailbox";
   Post "/accounts/{id}/identities" "V2CreateIdentity";
   Post "/accounts/{id}/rules" "V2CreateAccountRule";
   Patch "/accounts/{id}/rules/{rule_id}" "V2UpdateAccountRule";
   Delete "/accounts/{id}/rules/{rule_id}" "V2DeleteAccountRule";
   Post "/accounts/{id}/rules/reorder" "V2ReorderAccountRules";
   Post "/accounts/{id}/rules/activate-managed" "V2ActivateManagedRuleScript";
   Post "/accounts/{id}/senders" "V2CreateSender";
   Patch "/identities/{id}" "V2UpdateIdentity";
   Patch "/mail/senders/{sender_id}" "V2UpdateSender";
   Delete "/identities/{id}" "V2DeleteIdentity";
   Delete "/mail/senders/{sender_id}" "V2DeleteSender";
   Post "/contacts" "V2CreateContact";
   Post "/contacts/import" "V2ImportContacts";
   Patch "/contacts/{id}" "V2UpdateContact";
   Delete "/contacts/{id}" "V2DeleteContact";
   Post "/contact-groups" "V2CreateContactGroup";
   Patch "/contact-groups/{id}" "V2UpdateContactGroup";
   Delete "/contact-groups/{id}" "V2DeleteContactGroup";
   Patch "/mail/session-profile" "V2UpdateSessionMailProfile";
   Post "/mailboxes" "V2UpsertMailboxMapping";
   Patch "/mailboxes/{id}" "V2UpsertMailboxMapping";
   Delete "/mailboxes/{id}" "V2DeleteMailboxMapping";
   Post "/messages/bulk" "V2BulkMessages";
   Get "/mail/snippets" "V2ListMailSnippets";
   Post "/mail/snippets" "V2CreateMailSnippet";
   Patch "/mail/snippets/{id}" "V2UpdateMailSnippet";
   Delete "/mail/snippets/{id}" "V2DeleteMailSnippet";
   Get "/mail/favorites" "V2ListMailFavorites";
   Post "/mail/favorites" "V2CreateMailFavorite";
   Delete "/mail/favorites/{id}" "V2DeleteMailFavorite";
   Post "/mail-triage/actions" "V2ApplyMailTriage";
   Post "/mail-triage/categories" "V2CreateMailTriageCategory";
   Patch "/mail-triage/categories/{id}" "V2UpdateMailTriageCategory";
   Delete "/mail-triage/categories/{id}" "V2DeleteMailTriageCategory";
   Post "/mail-triage/tags" "V2CreateMailTriageTag";
   Patch "/mail-triage/tags/{id}" "V2UpdateMailTriageTag";
   Delete "/mail-triage/tags/{id}" "V2DeleteMailTriageTag";
   Post "/messages/{id}/remote-images/allow" "V2AllowRemoteImages";
   Post "/messages/{id}/unsubscribe" "V2UnsubscribeIndexedMessage";
   Post "/messages/{id}/sweep" "V2SweepIndexedMessage";
   Post "/messages/{id}/crypto/decrypt" "V2DecryptIndexedMessage";
   Post "/messages/{id}/crypto/verify" "V2VerifyIndexedMessage";
   Post "/saved-searches" "V2CreateSavedSearch";
   Patch "/saved-searches/{id}" "V2UpdateSavedSearch";
   Delete "/saved-searches/{id}" "V2DeleteSavedSearch";
   Post "/funnels" "V2CreateReplyFunnel";
   Patch "/funnels/{id}" "V2UpdateReplyFunnel";
   Patch "/funnels/{id}/assisted-forwarding/{account_id}" "V2UpdateReplyFunnelAssistedForwarding";
   Delete "/funnels/{id}" "V2DeleteReplyFunnel";
   Post "/outbound/campaigns" "V2CreateOutboundCampaign";
   Patch "/outbound/campaigns/{id}" "V2UpdateOutboundCampaign";
   Post "/outbound/campaigns/{id}/apply-playbook" "V2ApplyOutboundPlaybook";
   Post "/outbound/campaigns/{id}/launch" "V2LaunchOutboundCampaign";
   Post "/outbound/campaigns/{id}/pause" "V2PauseOutboundCampaign";
   Post "/outbound/campaigns/{id}/resume" "V2ResumeOutboundCampaign";
   Post "/outbound/campaigns/{id}/archive" "V2ArchiveOutboundCampaign";
   Post "/outbound/campaigns/{id}/steps" "V2CreateOutboundCampaignStep";
   Patch "/outbound/steps/{step_id}" "V2UpdateOutboundCampaignStep";
   Delete "/outbound/steps/{step_id}" "V2DeleteOutboundCampaignStep";
   Post "/outbound/campaigns/{id}/steps/reorder" "V2ReorderOutboundCampaignSteps";
   Post "/outbound/campaigns/{id}/audience/preview" "V2PreviewOutboundAudience";
   Post "/outbound/campaigns/{id}/enrollments/import" "V2ImportOutboundEnrollments";
   Patch "/outbound/enrollments/{id}" "V2UpdateOutboundEnrollment";
   Post "/outbound/enrollments/{id}/pause" "V2PauseOutboundEnrollment";
   Post "/outbound/enrollments/{id}/resume" "V2ResumeOutboundEnrollment";
   Post "/outbound/enrollments/{id}/stop" "V2StopOutboundEnrollment";
   Post "/outbound/enrollments/{id}/assign" "V2AssignOutboundEnrollment";
   Post "/outbound/campaigns/{id}/preflight" "V2PreflightOutboundCampaign";
   Post "/reply-ops/items/{id}/classify" "V2ClassifyReplyOpsItem";
   Post "/reply-ops/items/{id}/takeover" "V2TakeoverReplyOpsItem";
   Post "/reply-ops/items/{id}/apply-action" "V2ApplyReplyOpsAction";
   Patch "/outbound/recipients/{email}" "V2UpdateOutboundRecipient";
   Post "/outbound/suppressions" "V2CreateOutboundSuppression";
   Delete "/outbound/suppressions/{id}" "V2DeleteOutboundSuppression";
   Post "/drafts" "V2CreateDraft";
   Patch "/drafts/{id}" "V2UpdateDraft";
   Delete "/drafts/{id}" "V2DeleteDraft";
   Post "/drafts/{id}/attachments" "V2UploadDraftAttachments";
   Delete "/drafts/{id}/attachments/{attachment_id}" "V2DeleteDraftAttachment";
   Post "/drafts/{id}/send" "V2SendDraft";
   Post "/drafts/{id}/undo-send" "V2UndoDraftSend";
   With (G_RateLimit "send_v2" 30 Minute) (Post "/messages/send" "V2SendMessage");
   Put "/rules/scripts/{name}" "V2PutRuleScript";
   Post "/rules/scripts/{name}/activate" "V2ActivateRuleScript";
   Delete "/rules/scripts/{name}" "V2DeleteRuleScript";
   Post "/rules/validate" "V2ValidateRuleScript";
   Put "/preferences" "V2UpdatePreferences";
   Patch "/preferences" "V2UpdatePreferences";
   Patch "/security/mfa/webauthn/{id}" "V2MFAWebAuthnRename";
   Delete "/security/mfa/webauthn/{id}" "V2MFAWebAuthnDelete";
   Post "/security/mfa/device-approvals/{id}/decision" "V2DecidePendingMFADeviceApproval";
   Post "/security/mfa/trusted-devices/revoke-all" "V2RevokeAllTrustedDevices";
   Post "/security/mfa/trusted-devices/{id}/revoke" "V2RevokeTrustedDevice";
   Post "/security/sessions/{id}/revoke" "V2RevokeSession";
   Post "/security/crypto/keyrings" "V2CreateCryptoKeyring";
   Patch "/security/crypto/keyrings/{id}" "V2UpdateCryptoKeyring";
   Delete "/security/crypto/keyrings/{id}" "V2DeleteCryptoKeyring";
   Post "/security/crypto/trust-policies" "V2CreateCryptoTrustPolicy";
   Patch "/security/crypto/trust-policies/{id}" "V2UpdateCryptoTrustPolicy";
   Delete "/security/crypto/trust-policies/{id}" "V2DeleteCryptoTrustPolicy"].

Definition api_v2 : list Route := Under "/api/v2" (
  [With (G_RateLimit "login_v2" 20 Minute) (Post "/login" "V2Login");
   With (G_RateLimit "login_passkey_begin_v2" 30 Minute)
     (Post "/login/passkey/begin" "V2PasskeyLoginBegin");
   With (G_RateLimit "login_passkey_finish_v2" 30 Minute)
     (Post "/login/passkey/finish" "V2PasskeyLoginFinish")]
  ++ Group [G_Authn] (
    Group [G_CSRF] (
      [Post "/session/mail-secret/unlock" "V2SessionMailSecretUnlock";
       Post "/mfa/totp/verify" "V2MFATOTPVerify";
       Post "/mfa/webauthn/begin" "V2MFAWebAuthnBegin";
       Post "/mfa/webauthn/finish" "V2MFAWebAuthnFinish";
       Post "/mfa/recovery-code/verify" "V2MFARecoveryCodeVerify";
       With (G_RateLimit "mfa_recovery_email_send_v2" 5 (10 * Minute))
         (Post "/mfa/recovery-email/send" "V2MFARecoveryEmailSend");
       With (G_RateLimit "mfa_recovery_email_verify_v2" 20 (10 * Minute))
         (Post "/mfa/recovery-email/verify" "V2MFARecoveryEmailVerify");
       With (G_RateLimit "mfa_device_approval_request_v2" 10 (10 * Minute))
         (Post "/mfa/device-approval/request" "V2MFADeviceApprovalRequest");
       Post "/mfa/device-approval/cancel" "V2MFADeviceApprovalCancel";
       Post "/security/mfa/totp/enroll" "V2MFAEnrollTOTP";
       Post "/security/mfa/totp/confirm" "V2MFAConfirmTOTP";
       Post "/security/mfa/webauthn/register/begin" "V2MFAWebAuthnRegisterBegin";
       Post "/security/mfa/webauthn/register/finish" "V2MFAWebAuthnRegisterFinish";
       Post "/security/mfa/recovery-codes/ack" "V2MFARecoveryCodesAck";
       Post "/security/mfa/preference" "V2MFAUpdatePreference";
       Post "/security/mfa/legacy-dismiss" "V2MFALegacyDismiss"])
    ++ [Get "/mfa/device-approval/status" "V2MFADeviceApprovalStatus";
     Get "/security/mfa/status" "V2GetMFAStatus";
     Get "/security/mfa/webauthn" "V2MFAWebAuthnList"]
    ++ Group [G_MFAStage] (
      [Get "/accounts" "V2ListAccounts";
       Get "/mail/providers" "V2ListMailProviders";
       Get "/accounts/health" "V2ListAccountHealth";
       Get "/accounts/{id}/mailboxes" "V2ListAccountMailboxes";
       Get "/accounts/{id}/identities" "V2ListIdentities";
       Get "/accounts/{id}/rules" "V2ListAccountRules";
       Get "/mail/senders" "V2ListSenders";
       Get "/mail/session-profile" "V2GetSessionMailProfile";
       Get "/contacts" "V2ListContacts";
       Get "/contacts/{id}" "V2GetContact";
       Get "/contacts/export" "V2ExportContacts";
       Get "/contact-groups" "V2ListContactGroups";
       Get "/contact-groups/{id}" "V2GetContactGroup";
       Get "/mailboxes" "V2ListMailboxMappings";
       Get "/mailboxes/aggregate" "V2ListAggregateMailboxes";
       Get "/threads" "V2ListThreads";
       Get "/threads/{id}" "V2GetThread";
       Get "/messages" "V2ListMessages";
       Get "/messages/{id}" "V2GetIndexedMessage";
       Get "/messages/{id}/attachments/{attachment_id}" "V2GetIndexedMessageAttachment";
       Get "/messages/{id}/raw" "V2GetIndexedMessageRaw";
       Get "/mail-triage/catalog" "V2ListMailTriageCatalog";
       Get "/mail-triage/reminders/due" "V2PollDueMailTriageReminders";
       Get "/recipients/suggest" "V2SuggestRecipients";
       Get "/search" "V2Search";
       Get "/saved-searches" "V2ListSavedSearches";
       Get "/funnels" "V2ListReplyFunnels";
       Get "/funnels/{id}" "V2GetReplyFunnel";
       Get "/outbound/campaigns" "V2ListOutboundCampaigns";
       Get "/outbound/playbooks" "V2ListOutboundPlaybooks";
       Get "/outbound/campaigns/{id}" "V2GetOutboundCampaign";
       Get "/outbound/campaigns/{id}/steps" "V2ListOutboundCampaignSteps";
       Get "/outbound/campaigns/{id}/events" "V2ListOutboundCampaignEvents";
       Get "/outbound/campaigns/{id}/enrollments" "V2ListOutboundEnrollments";
       Get "/outbound/enrollments/{id}" "V2GetOutboundEnrollment";
       Get "/reply-ops/queue" "V2ListReplyOpsQueue";
       Get "/reply-ops/queue/{bucket}" "V2ListReplyOpsBucket";
       Get "/reply-ops/items/{id}" "V2GetReplyOpsItem";
       Get "/outbound/recipients" "V2ListOutboundRecipients";
       Get "/outbound/recipients/{email}" "V2GetOutboundRecipient";
       Get "/outbound/suppressions" "V2ListOutboundSuppressions";
       Get "/outbound/diagnostics/senders" "V2OutboundSenderDiagnostics";
       Get "/outbound/diagnostics/domains" "V2OutboundDomainDiagnostics";
       Get "/drafts" "V2ListDrafts";
       Get "/drafts/{id}" "V2GetDraft";
       Get "/drafts/{id}/attachments/{attachment_id}" "V2GetDraftAttachment";
       Get "/drafts/{id}/versions" "V2ListDraftVersions";
       Get "/rules/scripts" "V2ListRuleScripts";
       Get "/rules/scripts/{name}" "V2GetRuleScript";
       Get "/preferences" "V2GetPreferences";
       Get "/security/sessions" "V2ListSessions";
       Get "/security/mfa/trusted-devices" "V2ListTrustedDevices";
       Get "/security/mfa/device-approvals/pending" "V2ListPendingMFADeviceApprovals";
       Get "/quota" "V2GetQuota";
       Get "/security/crypto/keyrings" "V2ListCryptoKeyrings";
       Get "/security/crypto/trust-policies" "V2ListCryptoTrustPolicies"]
      ++ Group [G_CSRF] (
        api_v2_changes)))).

Definition routes : list Route := api_v1 ++ api_v2.

(** What answers a request of a route: [handlers] stands for the handlers. *)
Definition serve {host : Host} {dep : Deployment} (hcfg : HTTPConfig) {A}
    (handlers : string -> Handler A) (t : Route) : HTTPRequest -> Server -> Answer A * Server :=
  fun r s => chain hcfg (rt_Guards t) (handlers (rt_Handler t)) r (mkCtx None None) s.

(** ** The access policy *)

(** The routes open to anyone, by method and pattern. *)
Definition public : list (string * string) :=
  [("GET", "/api/v1/public/captcha/config");
   ("GET", "/api/v1/public/password-reset/capabilities");
   ("GET", "/api/v1/public/auth/capabilities"); ("GET", "/api/v1/public/i18n/{locale}");
   ("GET", "/api/v1/setup/status"); ("POST", "/api/v1/setup/complete");
   ("POST", "/api/v1/register"); ("POST", "/api/v1/login");
   ("POST", "/api/v1/login/passkey/begin"); ("POST", "/api/v1/login/passkey/finish");
   ("POST", "/api/v1/logout"); ("POST", "/api/v1/password/reset/request");
   ("POST", "/api/v1/password/reset/confirm"); ("POST", "/api/v2/login");
   ("POST", "/api/v2/login/passkey/begin"); ("POST", "/api/v2/login/passkey/finish")].

(** The routes a session may use before its second factor: who am I, the
    unlocking of the mailbox, and multi-factor authentication itself. *)
Definition before_second_factor (t : Route) : bool :=
  existsb (String.eqb (rt_Path t))
    ["/api/v1/me"; "/api/v1/session/mail-secret/unlock"; "/api/v2/session/mail-secret/unlock";
     "/api/v2/mfa/totp/verify"; "/api/v2/mfa/webauthn/begin"; "/api/v2/mfa/webauthn/finish";
     "/api/v2/mfa/recovery-code/verify"; "/api/v2/mfa/recovery-email/send";
     "/api/v2/mfa/recovery-email/verify"; "/api/v2/mfa/device-approval/request";
     "/api/v2/mfa/device-approval/cancel"; "/api/v2/mfa/device-approval/status";
     "/api/v2/security/mfa/totp/enroll"; "/api/v2/security/mfa/totp/confirm";
     "/api/v2/security/mfa/webauthn/register/begin";
     "/api/v2/security/mfa/webauthn/register/finish";
     "/api/v2/security/mfa/recovery-codes/ack"; "/api/v2/security/mfa/preference";
     "/api/v2/security/mfa/legacy-dismiss"; "/api/v2/security/mfa/status"]
  || (String.eqb (rt_Path t) "/api/v2/security/mfa/webauthn" && String.eqb (rt_Method t) "GET").

Definition is_public (t : Route) : bool :=
  existsb (fun mp => String.eqb (fst mp) (rt_Method t) && String.eqb (snd mp) (rt_Path t)) public.
Definition needs_second_factor (t : Route) : bool :=
  negb (is_public t) && negb (before_second_factor t).
Definition needs_admin (t : Route) : bool := HasPrefix (rt_Path t) "/api/v1/admin".
Definition needs_csrf (t : Route) : bool := negb (is_public t) && negb (safe_method (rt_Method t)).

#[export] Instance Guard_eq_dec : EqDecision Guard.
Proof. solve_decision. Defined.

Definition guarded_by (g : Guard) (t : Route) : bool := bool_decide (g ∈ rt_Guards t).

#[export] Instance Route_eq_dec : EqDecision Route.
Proof. solve_decision. Defined.

(** A route's guards meet the policy: a session first, the second factor right
    after it, and the guard against forged requests wherever state changes. *)
Definition meets_policy (t : Route) : bool :=
  implb (negb (is_public t)) (bool_decide (head (rt_Guards t) = Some G_Authn))
  && bool_decide (G_Authn ∉ tail (rt_Guards t))
  && implb (needs_second_factor t) (bool_decide (head (tail (rt_Guards t)) = Some G_MFAStage))
  && implb (needs_admin t) (needs_second_factor t && guarded_by G_Admin t)
  && implb (needs_csrf t) (guarded_by G_CSRF t).

Lemma routes_meet_policy : Forall (fun t => meets_policy t = true) routes.
Proof. apply List.Forall_forall. apply forallb_forall. vm_compute. reflexivity. Qed.

(** No two routes share a method and a pattern, so none shadows another. *)
Lemma routes_distinct : NoDup (map (fun t => (rt_Method t, rt_Path t)) routes).
Proof. apply (bool_decide_eq_true_1 _). vm_compute. reflexivity. Qed.

(** ** Reaching a handler *)

Section Reaching.
Context {host : Host} {dep : Deployment} (hcfg : HTTPConfig) {A : Type}.

(** Behind the first guard the context is fixed, and every guard passed. *)
Lemma reaches_guards r gs ctx s ctx2 s2 :
  reaches hcfg r gs ctx s ctx2 s2 -> G_Authn ∉ gs ->
  ctx2 = ctx /\ forall g, g ∈ gs -> exists s1 s1', passes hcfg r g ctx s1 ctx s1'.
Proof.
  induction 1 as [ctx s|g gs ctx s ctx1 s1 ctx2 s2 Hp Hr IH]; intros Hn.
  - split; [done|]. intros g Hg. by apply elem_of_nil in Hg.
  - apply not_elem_of_cons in Hn as [Hg Hgs].
    assert (ctx1 = ctx) as -> by (eapply passes_ctx; [exact Hp|done]).
    destruct (IH Hgs) as [-> Hall]. split; [done|].
    intros g' [->|Hg']%elem_of_cons; [by exists s, s1|by apply Hall].
Qed.

Lemma passes_authn_inv r ctx s ctx' s' : passes hcfg r G_Authn ctx s ctx' s' ->
  exists token u sess w, Cookie r (SessionCookieName hcfg) = Some token
    /\ ValidateSession token (sv_world s) = (Ok (u, sess), w)
    /\ ctx' = WithSession (WithUser ctx u) sess /\ s' = mkServer w (sv_limiter s).
Proof. inversion 1; subst. eauto 10. Qed.

Lemma passes_stage_inv r u sess s ctx' s' :
  passes hcfg r G_MFAStage (mkCtx (Some u) (Some sess)) s ctx' s' ->
  exists stage w, ResolveMFAStage u (Some sess) (sv_world s) = (Ok stage, w)
    /\ st_AuthStage stage = AuthStageAuthenticated.
Proof.
  inversion 1; subst. simpl in *. injection Hu as <-. injection Hs as <-. eauto.
Qed.

(** ** Properties *)

(** C10. The access policy of the HTTP interface, for every route of the table:
    a handler that is not on the public list runs only for a request whose
    cookie is a session the service accepts, and gets that session and its
    user; off the short list before the second factor, only when the stage of
    that session resolves, in the very state its validation left, to
    authenticated; below /api/v1/admin only for the admin role; and a request
    that may change state only with the token of its cookie in the header. *)
Theorem routes_enforce_policy (handlers : string -> Handler A) t r s a s' :
  In t routes -> Method r = rt_Method t -> is_public t = false ->
  serve hcfg handlers t r s = (Served a, s') ->
  exists token u sess w sn,
    Cookie r (SessionCookieName hcfg) = Some token
    /\ ValidateSession token (sv_world s) = (Ok (u, sess), w)
    /\ handlers (rt_Handler t) r (mkCtx (Some u) (Some sess)) sn = (Served a, s')
    /\ (before_second_factor t = false ->
        exists stage w', ResolveMFAStage u (Some sess) w = (Ok stage, w')
          /\ st_AuthStage stage = AuthStageAuthenticated)
    /\ (HasPrefix (rt_Path t) "/api/v1/admin" = true -> u_Role u = "admin")
    /\ (safe_method (rt_Method t) = false ->
        XCSRFToken r <> "" /\ Cookie r (CSRFCookieName hcfg) = Some (XCSRFToken r)).
Proof.
  intros Hin Hm Hpub Hs. unfold serve in Hs.
  assert (Hpol : meets_policy t = true)
    by (by apply (proj1 (List.Forall_forall _ _) routes_meet_policy)).
  apply chain_served in Hs as (ctx1 & sn & Hr & Hs). unfold meets_policy in Hpol.
  unfold needs_admin, needs_csrf, needs_second_factor in Hpol. rewrite Hpub in Hpol.
  cbn [negb implb andb] in Hpol. destruct (rt_Guards t) as [|g gs] eqn:Eg; [done|].
  unfold guarded_by in Hpol. rewrite Eg in Hpol. cbn [head tail] in Hpol. breflect.
  match goal with H : Some g = Some G_Authn |- _ => injection H as -> end.
  inversion Hr as [|? ? ? ? ctx2 s2 ? ? Hp Hrest]; subst.
  apply passes_authn_inv in Hp as (token & u & sess & w & Hc & Hv & -> & ->).
  destruct (reaches_guards _ _ _ _ _ _ Hrest) as [-> Hall]; [done|].
  change (WithSession _ _) with (mkCtx (Some u) (Some sess)) in *.
  exists token, u, sess, w, sn. split_and!; [done|done|exact Hs| | |].
  - intros Hb. rewrite Hb in *. cbn [negb implb andb] in *. breflect.
    destruct gs as [|g gs]; [done|]. simpl in *. simplify_eq.
    inversion Hrest as [|? ? ? ? ctx3 s3 ? ? Hst _]; subst. by apply passes_stage_inv in Hst.
  - intros Ha. rewrite Ha in *. cbn [implb] in *. breflect.
    match goal with H : G_Admin ∈ _ |- _ => apply elem_of_cons in H as [?|H]; [done|];
      destruct (Hall _ H) as (s1 & s1' & Hp) end.
    inversion Hp; subst. simpl in *. by simplify_eq.
  - intros Hsafe. rewrite Hsafe in *. cbn [negb implb] in *. breflect.
    match goal with H : G_CSRF ∈ _ |- _ => apply elem_of_cons in H as [?|H]; [done|];
      destruct (Hall _ H) as (s1 & s1' & Hp) end.
    inversion Hp; subst. rewrite <- Hm in *. auto.
Qed.
End Reaching.

(** ** Witnesses *)

Definition sample_http : HTTPConfig := mkHTTPConfig "despatch_session" "despatch_csrf" true.

Definition sample_server : Server := mkServer (sample_world sample_db []) (NewLimiter 0).

Definition admin_post : HTTPRequest := {|
  Method := "POST"; XCSRFToken := "token"; XForwardedFor := ""; RemoteAddr := "10.0.0.1:5000";
  Cookies := [("despatch_session", "root's token"); ("despatch_csrf", "token")] |}.

(** Handlers that answer with whom they serve. *)
Definition who (name : string) : Handler string := fun _ ctx s =>
  (Served (name +:+ " for " +:+ match ctxUser ctx with Some u => u_ID u | None => "" end), s).

Definition suspend_route : Route := {|
  rt_Method := "POST"; rt_Path := "/api/v1/admin/users/{id}/suspend";
  rt_Handler := "AdminSuspendUser"; rt_Guards := [G_Authn; G_MFAStage; G_Admin; G_CSRF] |}.

Lemma suspend_route_in : In suspend_route routes.
Proof. apply list_elem_of_In. apply (bool_decide_eq_true_1 _). vm_compute. reflexivity. Qed.

Lemma routes_enforce_policy_witness :
  let p := serve sample_http who suspend_route admin_post sample_server in
  p = (Served "AdminSuspendUser for admin-1", snd p)
  /\ exists token u sess w, Cookie admin_post "despatch_session" = Some token
       /\ ValidateSession token (sv_world sample_server) = (Ok (u, sess), w) /\ u_Role u = "admin".
Proof.
  intros p.
  assert (Hp : p = (Served "AdminSuspendUser for admin-1", snd p))
    by (apply pair_of_fst; vm_compute; reflexivity).
  split; [exact Hp|].
  destruct (routes_enforce_policy sample_http who suspend_route admin_post sample_server
              "AdminSuspendUser for admin-1" (snd p) suspend_route_in eq_refl
              ltac:(vm_compute; reflexivity) Hp)
    as (token & u & sess & w & sn & Hc & Hv & _ & _ & Ha & _).
  exact (ex_intro _ token (ex_intro _ u (ex_intro _ sess (ex_intro _ w
           (conj Hc (conj Hv (Ha eq_refl))))))).
Defined.

(** The same request without its header, and with the session of a user. *)
Example forged_post :
  fst (serve sample_http who suspend_route
         {| Method := "POST"; XCSRFToken := ""; XForwardedFor := ""; RemoteAddr := "";
            Cookies := Cookies admin_post |} sample_server)
  = Refused 403 "csrf_failed" "missing csrf token" None.
Proof. vm_compute. reflexivity. Qed.

Example user_post :
  fst (serve sample_http who suspend_route
         {| Method := "POST"; XCSRFToken := "token"; XForwardedFor := ""; RemoteAddr := "";
            Cookies := [("despatch_session", "alice's token"); ("despatch_csrf", "token")] |}
         sample_server)
  = Refused 403 "forbidden" "admin role required" None.
Proof. vm_compute. reflexivity. Qed.

(** ** A forwarded address the client chooses

    Behind a proxy that appends to X-Forwarded-For, as deploy/nginx.conf does,
    the first element is whatever the client sent; [ClientIP] takes it, so the
    counter of a route never sees the same client twice. *)

Definition login_route : Route := {|
  rt_Method := "POST"; rt_Path := "/api/v1/login"; rt_Handler := "Login";
  rt_Guards := [G_RateLimit "login" 20 Minute] |}.

Definition login_post (n : nat) : HTTPRequest := {|
  Method := "POST"; XCSRFToken := ""; RemoteAddr := "127.0.0.1:5000"; Cookies := [];
  XForwardedFor := GoStd.itoa (Z.of_nat n) +:+ ", 203.0.113.9" |}.

Fixpoint serve_all (reqs : list HTTPRequest) (s : Server) : list (Answer string) :=
  match reqs with
  | [] => []
  | r :: rs => let (a, s') := serve sample_http who login_route r s in a :: serve_all rs s'
  end.

Lemma forwarded_for_evades_limit :
  In login_route routes
  /\ serve_all (map login_post (List.seq 0 200)) sample_server = repeat (Served "Login for ") 200
  /\ List.count_occ (fun a b : bool => decide (a = b))
       (map (fun a => match a with Served _ => true | _ => false end)
          (serve_all (map (fun _ => login_post 0) (List.seq 0 200)) sample_server)) true = 80%nat.
Proof.
  split_and!.
  - apply list_elem_of_In. apply (bool_decide_eq_true_1 _). vm_compute. reflexivity.
  - vm_compute. reflexivity.
  - vm_compute. reflexivity.
Qed.
