(* ===== verification/Safety.v ===== *)
(** * Safety: what no sequence of requests can undo

    Invariants of the machine of Lifecycle.v, proved by cases on its steps and
    carried to every sequence of requests by [after_invariant]. *)

From S2P Require Import Prelude GoStrings Effects GoStd Models Users Sessions Mfa Host FeatureFlags Identity.
From S2P Require Import Auth Admin Reset Lifecycle StoreRefinement ServiceRefinement Sample.
Local Open Scope Z_scope.

(** ** The invariants *)

(** Somebody administers the instance. *)
Definition some_admin (d : Database) : Prop :=
  exists r, In r (users d) /\ ur_role r = "admin" /\ ur_status r <> UserPending.

(** Nobody of this id is an administrator. *)
Definition plain_user (id : string) (d : Database) : Prop :=
  forall r, In r (users d) -> ur_id r = id -> ur_role r <> "admin".

(** Every session with this token hash is revoked. *)
Definition dead_session (h : string) (d : Database) : Prop :=
  forall s, In s (sessions d) -> s_TokenHash s = h -> s_RevokedAt s <> None.

(** Every reset token with this hash has been used. *)
Definition spent_token (h : string) (d : Database) : Prop :=
  forall t, In t (reset_tokens d) -> t_TokenHash t = h -> unused t = false.

(** The registration of this id is not waiting for a decision. *)
Definition decided (regID : string) (d : Database) : Prop :=
  forall r, In r (registrations d) -> r_ID r = regID -> r_Status r <> RegPending.

(** The recovery code of this id cannot be spent. *)
Definition spent_code (id : string) (d : Database) : Prop :=
  forall c, In c (recovery_codes d) -> rc_ID c = id -> code_unused c = false.

(** A row of the device table that has been revoked. *)
Definition revoked_device (x : TrustedDevice) (d : Database) : Prop :=
  In x (trusted_devices d) /\ dev_live x = false.

(** The steps that can change what the invariant [HI] speaks of. *)
Ltac step_cases Hs HI Ht Hno :=
  destruct Hs as [? Ht|? Hno|? ? Hno|? Ht|? Ht|? Ht|? Ht|? Ht|? Ht|? Ht|? Ht|? Ht|? Ht|? Ht|? Ht];
  try exact HI.

Section Safety.
Context {host : Host} {dep : Deployment}.
Implicit Types (d : Database) (w : World Database) (k : nat).

Lemma some_admin_excludes d : some_admin d -> ~ has_no_admin d.
Proof. intros (r & Hr & Ha & _) Hno. by apply (Hno r). Qed.

Lemma some_admin_step k d d' : db_step k d d' -> some_admin d -> some_admin d'.
Proof.
  intros Hs HI. step_cases Hs HI Ht Hno.
  - eapply table_some; [exact Ht| | |exact HI].
    + intros r r' _ [Hr Hst] (_ & _ & Hro & Hp). split; [congruence|auto].
    + intros r _ [_ Hst] Hd. by apply Hst.
  - by apply some_admin_excludes in HI.
  - by apply some_admin_excludes in HI.
Qed.

Lemma plain_user_step k id d d' :
  db_step k d d' -> some_admin d -> plain_user id d -> plain_user id d'.
Proof.
  intros Hs Ha HI. step_cases Hs HI Ht Hno.
  - refine (table_all _ _ _ _ (fun r => ur_id r = id -> ur_role r <> "admin") _ _ Ht _ _ HI).
    + by intros r [-> _].
    + intros r r' _ Hr (Hid & _ & Hro & _). rewrite Hid, Hro. exact Hr.
  - by apply some_admin_excludes in Ha.
  - by apply some_admin_excludes in Ha.
Qed.

Lemma dead_session_step k h d d' :
  ~ fresh_hash k h -> db_step k d d' -> dead_session h d -> dead_session h d'.
Proof.
  intros Hf Hs HI. step_cases Hs HI Ht Hno.
  refine (table_all _ _ _ _ (fun s => s_TokenHash s = h -> s_RevokedAt s <> None) _ _ Ht _ _ HI).
  - intros s [Hs _] <-. by destruct Hf.
  - intros s s' _ Hs (_ & _ & Hh & _ & _ & Hr). rewrite Hh. auto.
Qed.

Lemma spent_token_step k h d d' :
  ~ fresh_hash k h -> db_step k d d' -> spent_token h d -> spent_token h d'.
Proof.
  intros Hf Hs HI. step_cases Hs HI Ht Hno.
  refine (table_all _ _ _ _ (fun t => t_TokenHash t = h -> unused t = false) _ _ Ht _ _ HI).
  - intros t [Ht' _] <-. by destruct Hf.
  - intros t t' _ Hs (Hu & _ & _ & Hh & _). rewrite Hh. intros Heq. specialize (Hs Heq).
    congruence.
Qed.

Lemma decided_step k id d d' :
  ~ fresh_id k id -> db_step k d d' -> decided id d -> decided id d'.
Proof.
  intros Hf Hs HI. step_cases Hs HI Ht Hno.
  refine (table_all _ _ _ _ (fun r => r_ID r = id -> r_Status r <> RegPending) _ _ Ht _ _ HI).
  - intros r [_ Hr] <-. by destruct Hf.
  - intros r r' _ _ (_ & Hn & _) _. exact Hn.
Qed.

Lemma spent_code_step k id d d' :
  ~ fresh_id k id -> db_step k d d' -> spent_code id d -> spent_code id d'.
Proof.
  intros Hf Hs HI.
  step_cases Hs HI Ht Hno.
  refine (table_all _ _ _ _ (fun c => rc_ID c = id -> code_unused c = false) _ _ Ht _ _ HI).
  - intros c [_ Hc] <-. by destruct Hf.
  - intros c c' _ Hc (Hu & Hid & _). rewrite Hid. intros Heq. specialize (Hc Heq). congruence.
Qed.

Lemma revoked_device_step k x d d' :
  db_step k d d' -> revoked_device x d -> revoked_device x d'.
Proof.
  intros Hs HI.
  step_cases Hs HI Ht Hno.
  destruct HI as [Hx Hl]. split; [|done]. simpl.
  destruct Ht as [y l _ _|p f l Hf _|p l Hd].
  - apply in_or_app. by left.
  - apply in_update_rows. exists x. split; [done|].
    destruct (p x) eqn:Hp; [|done]. destruct (Hf x Hp) as [Hlive _]. congruence.
  - apply in_delete_rows. split; [done|]. destruct (p x) eqn:Hp; [|done]. destruct (Hd x Hx Hp).
Qed.

Lemma audit_step k l d d' :
  db_step k d d' -> l `prefix_of` audit_log d -> l `prefix_of` audit_log d'.
Proof.
  intros Hs HI.
  step_cases Hs HI Ht Hno.
  simpl. destruct Ht as [y r _ _|p f r Hf _|p r Hd].
  - by apply prefix_app_r.
  - replace (update_rows p f r) with r; [done|]. symmetry. rewrite <- map_id. apply map_ext.
    intros x. destruct (p x) eqn:Hp; [|done]. destruct (Hf x Hp).
  - replace (delete_rows p r) with r; [done|]. symmetry. apply forallb_filter_id, forallb_forall.
    intros x Hx. destruct (p x) eqn:Hp; [|done]. destruct (Hd x Hx Hp).
Qed.
(** ** What the handlers do in such states *)

Lemma ValidateSession_dead raw w :
  dead_session (sha256_hex raw) (w_db w) ->
  fst (ValidateSession raw w) = Fail ErrInvalidCredentials
  /\ w_db (snd (ValidateSession raw w)) = w_db w.
Proof.
  intros Hd. unfold ValidateSession, GetSessionByTokenHash. rewrite bind_attempt, query_eq. simpl.
  destruct (faulty w); [done|].
  destruct (select1 _ _) as [s|] eqn:Es; [|done].
  apply find_In in Es as [Hs Hh]. unfold sess_has_hash in Hh. apply String.eqb_eq in Hh.
  specialize (Hd s Hs Hh). simpl. unfold session_live. simpl.
  by destruct (s_RevokedAt s).
Qed.

Lemma CompleteSetup_refused req ip ua w :
  some_admin (w_db w) ->
  CompleteSetup req ip ua w =
    (Fail (if faulty w then ErrDriver else ErrText "setup already completed"), next w).
Proof.
  intros (r & Hr & Ha & _). unfold CompleteSetup, CountAdmins. unfold bind at 1.
  rewrite query_eq. destruct (faulty w); [done|].
  destruct (Z.ltb_spec 0 (Z.of_nat (affected is_admin (users (w_db w))))) as [|Hn]; [done|].
  exfalso. assert (H0 : affected is_admin (users (w_db w)) = 0%nat) by lia.
  rewrite affected_0 in H0. specialize (H0 r Hr). unfold is_admin in H0.
  apply String.eqb_neq in H0. congruence.
Qed.

Lemma ApproveRegistration_decided admin regID w :
  decided regID (w_db w) ->
  is_ok (fst (ApproveRegistration admin regID w)) = false
  /\ w_db (snd (ApproveRegistration admin regID w)) = w_db w.
Proof.
  intros Hd. unfold ApproveRegistration, GetRegistrationByID, bind. rewrite query_eq.
  destruct (faulty w); [done|].
  destruct (select1 _ _) as [r|] eqn:Er; [|done]. simpl.
  apply find_In in Er as [Hr Hid]. unfold reg_has_id in Hid. apply String.eqb_eq in Hid.
  by rewrite (bool_decide_eq_false_2 _ (Hd r Hr Hid)).
Qed.

(** A transaction whose body fails changes nothing. *)
Lemma transaction_fails {A} (m : DBM A) w :
  is_ok (fst (transaction m w)) = false -> w_db (snd (transaction m w)) = w_db w.
Proof.
  destruct (transaction m w) as [[a|e] w'] eqn:E; [done|]. intros _.
  by apply transaction_rollback in E.
Qed.

Lemma RejectRegistration_decided admin regID reason w :
  decided regID (w_db w) ->
  is_ok (fst (RejectRegistration admin regID reason w)) = false
  /\ w_db (snd (RejectRegistration admin regID reason w)) = w_db w.
Proof.
  intros Hd.
  assert (Hr : is_ok (fst (RejectRegistrationAndDeletePendingUser regID admin reason w)) = false).
  { unfold RejectRegistrationAndDeletePendingUser, transaction.
    match goal with |- context [bind ?m ?f w] =>
      destruct (bind m f w) as [[a|e] [d fs t u tr]] eqn:E; [exfalso|done] end.
    apply bind_ok in E as ([] & w1 & E1 & E). rewrite query_eq in E1.
    injection E1 as _ <-.
    apply bind_ok in E as (id & w2 & E & _). apply bind_ok in E as ([email st] & w3 & E & E').
    unfold find_registration in E. rewrite query_eq in E. injection E as E <-.
    destruct (faulty _); [done|]. simpl in E.
    destruct (select1 _ _) as [r|] eqn:Er; [|done]. injection E as <- <-.
    apply find_In in Er as [Hr Hid]. unfold reg_has_id in Hid. apply String.eqb_eq in Hid.
    rewrite (bool_decide_eq_false_2 _ (Hd r Hr Hid)) in E'. done. }
  assert (Hdb : w_db (snd (RejectRegistrationAndDeletePendingUser regID admin reason w)) = w_db w).
  { by apply transaction_fails. }
  unfold RejectRegistration, bind.
  by destruct (RejectRegistrationAndDeletePendingUser _ _ _ _) as [[id|e] w'].
Qed.

Lemma ReservePasswordResetToken_spent h r lease w :
  spent_token h (w_db w) -> is_ok (fst (ReservePasswordResetToken h r lease w)) = false
  /\ w_db (snd (ReservePasswordResetToken h r lease w)) = w_db w.
Proof.
  intros Hs. unfold ReservePasswordResetToken. destruct (String.eqb _ _); [done|]. cbv zeta.
  unfold bind at 1 3. simpl. unfold update_tokens, bind. rewrite statement_eq. simpl.
  destruct (faulty _); [done|]. simpl.
  assert (Hz : forall t, In t (reset_tokens (w_db w)) -> forall x y, reservable h x y t = false).
  { intros t Ht x y. unfold reservable, tok_has_hash.
    destruct (String.eqb_spec (t_TokenHash t) h) as [He|]; [|done].
    by rewrite (Hs t Ht He). }
  rewrite (proj2 (affected_0 _ _)) by (intros t Ht; by apply Hz). simpl. split; [done|].
  assert (Hid : forall p f, (forall t, In t (reset_tokens (w_db w)) -> p t = false) ->
            update_rows p f (reset_tokens (w_db w)) = reset_tokens (w_db w)).
  { intros p f Hp. unfold update_rows. rewrite <- map_id. apply map_ext_in.
    intros t Ht. by rewrite Hp. }
  rewrite Hid by (intros t Ht; by apply Hz). by destruct (w_db w).
Qed.
(** ** A confirmed reset has used its token *)

Lemma keep_wf {A} k (m : DBM A) :
  spec (db_step k) k anydb m any -> spec (db_step k) k well_formed m (fun _ => well_formed).
Proof.
  intros Hm. eapply spec_weaken; [by apply (spec_invariant k anydb)|done|by intros ? ? []].
Qed.

Lemma mark_used_spends d p h now :
  unique token_clash (reset_tokens d) -> (forall t, p t = true -> tok_has_hash h t = true) ->
  affected p (reset_tokens d) <> 0%nat ->
  spent_token h (d <| reset_tokens := update_rows p (mark_used now) (reset_tokens d) |>).
Proof.
  intros Hu Hp (t1 & Ht1 & Hpt1)%affected_pos t Ht Hh. simpl in Ht.
  apply in_update_rows in Ht as (t0 & Ht0 & ->). destruct (p t0) eqn:Hpt0; [done|].
  exfalso. specialize (Hp t1 Hpt1). unfold tok_has_hash in Hp. apply String.eqb_eq in Hp.
  rewrite (unique_eq _ _ t0 t1 Hu Ht0 Ht1) in Hpt0; [congruence|..];
    unfold token_clash; rewrite Hh, Hp, String.eqb_refl; apply orb_true_r.
Qed.

Lemma ConsumeReserved_spends k h r :
  spec (db_step k) k well_formed (ConsumeReservedPasswordResetToken h r)
    (fun _ d => well_formed d /\ spent_token h d).
Proof.
  unfold ConsumeReservedPasswordResetToken. eapply spec_bind; [apply spec_now|]. intros now.
  eapply spec_bind with (Q := fun n d => n = 1%nat -> well_formed d /\ spent_token h d).
  - apply spec_statement. intros d n d' Hw [= <- <-].
    assert (Hs : forall t, consumable h now t && held_by (TrimSpace r) t = true ->
              tok_has_hash h t = true /\ unused t = true).
    { intros t Ht. unfold consumable in Ht. breflect. by split. }
    assert (Hstep : db_step k d (d <| reset_tokens := update_rows
        (fun t => consumable h now t && held_by (TrimSpace r) t) (mark_used now)
        (reset_tokens d) |>)).
    { apply on_tokens, update_step; [|keys_kept]. intros t Ht. destruct (Hs t Ht).
      by split_and!. }
    split; [by apply rtc_once|]. intros Hn. split; [by eapply db_step_well_formed|].
    apply mark_used_spends; [apply Hw|intros t Ht; by apply Hs|by rewrite Hn].
  - intros n. destruct (Nat.eqb_spec n 1) as [->|]; [|apply spec_throw].
    eapply spec_weaken; [apply spec_query|by intros d Hd; apply Hd|by intros ? ? []].
Qed.

Lemma consume_spends k h r :
  spec (db_step k) k well_formed (consumeReservedPasswordResetToken h r)
    (fun _ d => well_formed d /\ spent_token h d).
Proof.
  unfold consumeReservedPasswordResetToken.
  eapply spec_bind; [apply spec_attempt, ConsumeReserved_spends|]. intros [t|e].
  - by apply spec_ret.
  - eapply spec_bind with (Q := any); [|intros; apply spec_throw].
    apply spec_ignore. apply InvalidatePasswordResetToken_refines.
Qed.

Lemma keep_spent {A} k h (m : DBM A) (P : Prop) :
  ~ fresh_hash k h -> spec (db_step k) k anydb m any ->
  spec (db_step k) k (fun d => well_formed d /\ (P -> spent_token h d)) m
    (fun _ d => well_formed d /\ (P -> spent_token h d)).
Proof.
  intros Hf Hm. apply spec_invariant; [|done].
  intros d d' Hs _ HI HP. eapply spent_token_step; eauto.
Qed.

Lemma confirm_reserved_spends k t h r pw :
  ~ fresh_hash k h ->
  spec (db_step k) k well_formed (confirm_reserved t h r pw)
    (fun res d => fst res = Ok tt -> well_formed d /\ spent_token h d).
Proof.
  intros Hf. unfold confirm_reserved.
  eapply spec_bind; [apply keep_wf; spec_walk|]. intros [u|e]; [|by apply spec_ret].
  eapply spec_bind.
  { apply spec_attempt with (Q := fun _ d => well_formed d /\ (usesPAMAuth = true -> spent_token h d)).
    destruct usesPAMAuth; [|by apply spec_ret].
    eapply spec_bind; [apply keep_wf; spec_walk|]. intros [].
    eapply spec_bind; [apply consume_spends|]. intros []. apply spec_ret. tauto. }
  intros [release|e]; [|by apply spec_ret].
  eapply spec_bind.
  { apply spec_attempt, (keep_spent k h _ (usesPAMAuth = true)); [done|].
    spec_walk. }
  intros [hash|e]; [|by apply spec_ret].
  eapply spec_bind.
  { apply spec_attempt with (Q := fun _ d => well_formed d /\ spent_token h d).
    destruct usesPAMAuth; simpl; [apply spec_ret; tauto|].
    eapply spec_weaken; [apply consume_spends|tauto|done]. }
  intros [[]|e]; [|by apply spec_ret].
  eapply spec_bind.
  { eapply spec_weaken; [apply (keep_spent k h _ True); [done|spec_walk]|tauto|].
    intros ? d Hd. exact Hd. }
  intros []. apply spec_ret. tauto.
Qed.

Lemma ConfirmPasswordReset_spends k raw pw :
  ~ fresh_hash k (sha256_hex raw) ->
  spec (db_step k) k well_formed (ConfirmPasswordReset raw pw)
    (fun _ d => well_formed d /\ spent_token (sha256_hex raw) d).
Proof.
  intros Hf. unfold ConfirmPasswordReset.
  eapply spec_bind; [apply keep_wf; spec_walk|]. intros [[]|e]; [|apply spec_throw..].
  eapply spec_bind; [apply keep_wf; spec_walk|]. intros []. cbv zeta.
  eapply spec_bind; [apply keep_wf; spec_walk|]. intros rid.
  eapply spec_bind; [apply keep_wf; spec_walk|]. intros [t|e]; [|apply spec_throw].
  eapply spec_bind; [by apply confirm_reserved_spends|]. intros [res release]. simpl.
  destruct res as [[]|e].
  - eapply spec_bind.
    + eapply spec_weaken; [apply (keep_spent k (sha256_hex raw) _ True); [done|spec_walk]| |].
      * intros d Hd. destruct (Hd eq_refl). by split.
      * intros ? d Hd. exact Hd.
    + intros []. apply spec_of_res. intros ? d _ Hd. tauto.
  - eapply spec_bind with (Q := any); [apply spec_when; spec_walk|].
    intros. by apply spec_of_res.
Qed.

(** ** Revoking the sessions of a user *)

(** Every session with this token hash belongs to this user. *)
Definition session_owner (h u : string) (d : Database) : Prop :=
  forall s, In s (sessions d) -> s_TokenHash s = h -> s_UserID s = u.

Lemma session_owner_step k h u d d' :
  ~ fresh_hash k h -> db_step k d d' -> session_owner h u d -> session_owner h u d'.
Proof.
  intros Hf Hs HI. step_cases Hs HI Ht Hno.
  refine (table_all _ _ _ _ (fun s => s_TokenHash s = h -> s_UserID s = u) _ _ Ht _ _ HI).
  - intros s [Hs _] <-. by destruct Hf.
  - intros s s' _ Hs (_ & Hu & Hh & _). rewrite Hh, Hu. exact Hs.
Qed.

Lemma same_hash_owner d s :
  well_formed d -> In s (sessions d) -> session_owner (s_TokenHash s) (s_UserID s) d.
Proof.
  intros Hw Hs s' Hs' Hh.
  by rewrite (unique_eq _ _ s' s (wf_sessions d Hw) Hs' Hs) by
    (unfold session_clash; rewrite Hh, String.eqb_refl; apply orb_true_r).
Qed.

Lemma RevokeUserSessions_kills k h u :
  spec (db_step k) k (fun d => well_formed d /\ session_owner h u d) (RevokeUserSessions u)
    (fun _ d => well_formed d /\ dead_session h d).
Proof.
  unfold RevokeUserSessions. eapply spec_bind; [apply spec_now|]. intros now.
  apply spec_exec. intros d [Hw Ho].
  assert (Hs : db_step k d (d <| sessions := update_rows (live_of_user u)
            (fun s => s <| s_RevokedAt := Some now |>) (sessions d) |>)).
  { apply on_sessions, update_step; [|keys_kept]. intros s _. by split_and!. }
  split; [by apply rtc_once|]. split; [by eapply db_step_well_formed|].
  intros s' Hin Hh. simpl in Hin. apply in_update_rows in Hin as (s & Hin & ->).
  unfold live_of_user, sess_of_user in *.
  destruct (s_RevokedAt s) as [t|] eqn:Er.
  - rewrite andb_false_r. by rewrite Er.
  - rewrite andb_true_r in *. destruct (String.eqb_spec (s_UserID s) u) as [He|Hne]; [done|].
    by destruct (Hne (Ho s Hin Hh)).
Qed.

Lemma SuspendUser_kills k h a u :
  ~ fresh_hash k h ->
  spec (db_step k) k (fun d => well_formed d /\ session_owner h u d) (SuspendUser a u)
    (fun _ d => well_formed d /\ dead_session h d).
Proof.
  intros Hf. unfold SuspendUser.
  assert (Hkeep : forall A (m : DBM A), spec (db_step k) k anydb m any ->
    spec (db_step k) k (fun d => well_formed d /\ session_owner h u d) m
      (fun _ d => well_formed d /\ session_owner h u d)).
  { intros A m. apply spec_invariant. intros d d' Hs _. by apply (session_owner_step k). }
  eapply spec_bind; [apply Hkeep; spec_walk|]. intros user.
  eapply spec_bind; [apply Hkeep; spec_walk|]. intros [].
  eapply spec_bind; [apply Hkeep; spec_walk|]. intros [].
  eapply spec_bind; [apply RevokeUserSessions_kills|]. intros [].
  apply (spec_invariant k (dead_session h)); [|spec_walk].
  intros d d' Hs _. by apply (dead_session_step k).
Qed.

Lemma spec_success {A} step k D (m : DBM A) Q w a w' :
  spec step k D m Q -> (k <= w_fresh w)%nat -> D (w_db w) -> m w = (Ok a, w') ->
  (k <= w_fresh w')%nat /\ Q a (w_db w').
Proof. intros Hm Hk HD He. destruct (Hm w Hk HD) as (? & _ & ?). by rewrite He in *. Qed.

Lemma fresh_hash_mono k k' h : (k <= k')%nat -> fresh_hash k' h -> fresh_hash k h.
Proof. intros Hk (n & buf & Hn & ?). exists n, buf. split; [lia|done]. Qed.

Lemma Logout_kills raw w w' :
  well_formed (w_db w) -> faulty w = false -> Logout raw w = (Ok tt, w') ->
  well_formed (w_db w') /\ dead_session (sha256_hex raw) (w_db w')
  /\ (w_fresh w <= w_fresh w')%nat.
Proof.
  intros Hw Hf Hl.
  assert (Hs := Logout_refines raw (w_fresh w) anydb w ltac:(lia) Logic.I).
  rewrite Hl in Hs. simpl in Hs. destruct Hs as (Hk & Hs & _).
  destruct (rtc_invariant _ anydb _ _ ltac:(done) Hs Hw Logic.I) as [Hw' _].
  split_and!; [done| |done].
  unfold Logout, GetSessionByTokenHash in Hl. rewrite bind_attempt, query_eq, Hf in Hl. simpl in Hl.
  destruct (select1 _ _) as [s|] eqn:Es; simpl in Hl.
  - change (update_sessions (sess_has_id (s_ID s)) (fun x => x <| s_RevokedAt := Some (env_now (w_tick w)) |>)
      (next w <| w_tick := S (w_tick w) |>) = (Ok (), w')) in Hl.
    unfold update_sessions in Hl. rewrite exec_eq in Hl.
    destruct (faulty (next w <| w_tick := S (w_tick w) |>)); [done|]. injection Hl as <-. simpl.
    apply find_In in Es as [Hin Hh]. unfold sess_has_hash in Hh. apply String.eqb_eq in Hh.
    intros s' Hs' Hh'. apply in_update_rows in Hs' as (s0 & Hs0 & ->).
    unfold sess_has_id. simpl. destruct (String.eqb_spec (s_ID s0) (s_ID s)) as [He|Hne]; [done|].
    exfalso. apply Hne. unfold sess_has_id in Hh'. rewrite (proj2 (String.eqb_neq _ _) Hne) in Hh'.
    f_equal. apply (unique_eq _ _ s0 s (wf_sessions _ Hw) Hs0 Hin); unfold session_clash;
      rewrite Hh', Hh, String.eqb_refl; apply orb_true_r.
  - injection Hl as <-. simpl. intros s Hin Hh. exfalso.
    pose proof (proj1 (find_none_iff _ _) Es s Hin) as Hn. unfold sess_has_hash in Hn.
    by rewrite Hh, String.eqb_refl in Hn.
Qed.

(** When the lookup fails [Logout] stops there, and answers success. *)
Lemma Logout_unread raw w w' :
  faulty w = true -> Logout raw w = (Ok tt, w') -> w' = next w.
Proof.
  intros Hf Hl. unfold Logout, GetSessionByTokenHash in Hl.
  rewrite bind_attempt, query_eq, Hf in Hl. simpl in Hl. by injection Hl as <-.
Qed.

(** A token that is dead now is dead after any requests. *)
Lemma dead_after raw ops w :
  well_formed (w_db w) -> dead_session (sha256_hex raw) (w_db w) ->
  ~ fresh_hash (w_fresh w) (sha256_hex raw) ->
  dead_session (sha256_hex raw) (w_db (after ops w)).
Proof.
  intros Hw Hd Hf. apply (after_invariant (dead_session (sha256_hex raw))); [|done..].
  intros d d' Hs _. by apply (dead_session_step (w_fresh w)).
Qed.

(** ** Theorems *)

(** C1. Refinement: from a database whose unique keys hold, any sequence of
    requests, under any schedule of driver faults and whatever the clock, the
    random sources and the outside services answer, moves the database along
    steps of the abstract machine [db_step]. *)
Theorem requests_refine_machine ops w :
  well_formed (w_db w) ->
  rtc (db_step (w_fresh w)) (w_db w) (w_db (after ops w)).
Proof. intros Hw. by destruct (run_spec (w_fresh w) ops w ltac:(lia) Hw) as (_ & ? & _). Qed.

(** C40. The unique keys of the thirteen tables survive every sequence of
    requests. *)
Theorem keys_stay_unique ops w : well_formed (w_db w) -> well_formed (w_db (after ops w)).
Proof. intros Hw. by apply (after_invariant anydb ops w). Qed.

(** C2. Setup happens once: when an administrator who is not awaiting approval
    exists, [CompleteSetup] is refused after any sequence of requests, without
    touching the database, and unless the driver fails its error is that setup
    is already completed. *)
Theorem setup_is_final ops req ip ua w :
  well_formed (w_db w) -> some_admin (w_db w) ->
  CompleteSetup req ip ua (after ops w)
  = (Fail (if faulty (after ops w) then ErrDriver else ErrText "setup already completed"),
     next (after ops w)).
Proof.
  intros Hw Ha. apply CompleteSetup_refused. apply after_invariant; [|done..].
  intros d d' Hs _. by apply (some_admin_step (w_fresh w)).
Qed.

(** C3. No privilege escalation: while an administrator exists, no sequence of
    requests gives the administrator's role to an account without it. *)
Theorem no_privilege_escalation ops id w :
  well_formed (w_db w) -> some_admin (w_db w) -> plain_user id (w_db w) ->
  plain_user id (w_db (after ops w)).
Proof.
  intros Hw Ha Hp.
  apply (after_invariant (fun d => some_admin d /\ plain_user id d)); [|done..].
  intros d d' Hs _ [? ?]. split; [by eapply some_admin_step|by eapply plain_user_step].
Qed.

(** C5. Logout is final: when [Logout] has returned without error, either the
    driver failed its one lookup of the session, and then it has written nothing,
    or its token is rejected, and nothing written, after any sequence of requests
    that does not draw the same token again. *)
Theorem logout_is_final raw ops w w1 :
  well_formed (w_db w) -> Logout raw w = (Ok tt, w1) ->
  ~ fresh_hash (w_fresh w) (sha256_hex raw) ->
  (faulty w = true /\ w1 = next w)
  \/ (fst (ValidateSession raw (after ops w1)) = Fail ErrInvalidCredentials
      /\ w_db (snd (ValidateSession raw (after ops w1))) = w_db (after ops w1)).
Proof.
  intros Hw Hl Hfresh. destruct (faulty w) eqn:Hf.
  { left. split; [done|]. by apply Logout_unread in Hl. }
  right. destruct (Logout_kills _ _ _ Hw Hf Hl) as (Hw1 & Hd & Hk).
  apply ValidateSession_dead, dead_after; [done..|].
  intros H. by apply Hfresh, (fresh_hash_mono _ _ _ Hk).
Qed.

(** C31. Suspension is final: after [SuspendUser] succeeds, no session the user
    had is accepted after any sequence of requests, an unsuspension included. *)
Theorem suspension_ends_sessions admin raw s ops w w1 :
  well_formed (w_db w) -> In s (sessions (w_db w)) -> s_TokenHash s = sha256_hex raw ->
  SuspendUser admin (s_UserID s) w = (Ok tt, w1) ->
  ~ fresh_hash (w_fresh w) (sha256_hex raw) ->
  fst (ValidateSession raw (after ops w1)) = Fail ErrInvalidCredentials.
Proof.
  intros Hw Hs Hh Hok Hf.
  assert (Ho : session_owner (sha256_hex raw) (s_UserID s) (w_db w)).
  { rewrite <- Hh. by apply same_hash_owner. }
  destruct (spec_success _ _ _ _ _ _ _ _
    (SuspendUser_kills (w_fresh w) _ admin (s_UserID s) Hf) (le_n _) (conj Hw Ho) Hok)
    as (Hk & Hw1 & Hd).
  apply ValidateSession_dead, dead_after; [done..|].
  intros H. by apply Hf, (fresh_hash_mono _ _ _ Hk).
Qed.

(** C4. A reset token works once: after [ConfirmPasswordReset] succeeds with
    it, reserving it again fails without touching the database, after any
    sequence of requests that does not draw the same token again; so a second
    confirmation changes no password. *)
Theorem reset_token_single_use raw pw reservation ops w w1 :
  well_formed (w_db w) -> ConfirmPasswordReset raw pw w = (Ok tt, w1) ->
  ~ fresh_hash (w_fresh w) (sha256_hex raw) ->
  let reserve := ReservePasswordResetToken (sha256_hex raw) reservation
                   passwordResetReservationLease (after ops w1) in
  is_ok (fst reserve) = false /\ w_db (snd reserve) = w_db (after ops w1).
Proof.
  intros Hw Hok Hf reserve.
  destruct (spec_success _ _ _ _ _ _ _ _ (ConfirmPasswordReset_spends (w_fresh w) raw pw Hf)
    (le_n _) Hw Hok) as (Hk & Hw1 & Hs).
  apply ReservePasswordResetToken_spent.
  apply (after_invariant (spent_token (sha256_hex raw))); [|done..].
  intros d d' Hd _. apply (spent_token_step (w_fresh w1)); [|done].
  intros H. by apply Hf, (fresh_hash_mono _ _ _ Hk).
Qed.

(** A registration is decided once: when it is not pending, approving it or
    rejecting it fails and leaves the database alone, after any sequence of
    requests that does not draw its identifier again. *)
Theorem decision_is_final regID admin reason ops w :
  well_formed (w_db w) -> decided regID (w_db w) -> ~ fresh_id (w_fresh w) regID ->
  let approve := ApproveRegistration admin regID (after ops w) in
  let reject := RejectRegistration admin regID reason (after ops w) in
  is_ok (fst approve) = false /\ w_db (snd approve) = w_db (after ops w)
  /\ is_ok (fst reject) = false /\ w_db (snd reject) = w_db (after ops w).
Proof.
  intros Hw Hd Hf.
  assert (Hd' : decided regID (w_db (after ops w))).
  { apply (after_invariant (decided regID)); [|done..].
    intros d d' Hs _. by apply (decided_step (w_fresh w)). }
  generalize dependent (after ops w). intros w' Hd'.
  destruct (ApproveRegistration_decided admin regID w' Hd').
  by destruct (RejectRegistration_decided admin regID reason w' Hd').
Qed.

(** A spent recovery code stays spent, or is deleted, whatever is requested
    afterwards. *)
Theorem spent_code_stays_spent id ops w :
  well_formed (w_db w) -> spent_code id (w_db w) -> ~ fresh_id (w_fresh w) id ->
  spent_code id (w_db (after ops w)).
Proof.
  intros Hw Hs Hf. apply (after_invariant (spent_code id)); [|done..].
  intros d d' Hd _. by apply (spent_code_step (w_fresh w)).
Qed.

(** A revoked trusted device is never revived or altered: its row is still
    there, unchanged, after any sequence of requests. *)
Theorem revoked_device_is_frozen x ops w :
  well_formed (w_db w) -> In x (trusted_devices (w_db w)) -> dev_live x = false ->
  In x (trusted_devices (w_db (after ops w))).
Proof.
  intros Hw Hx Hl. apply (after_invariant (revoked_device x)); [|done|by split].
  intros d d' Hd _. by apply (revoked_device_step (w_fresh w)).
Qed.

(** The audit log only grows: it is a prefix of the log after any sequence
    of requests. *)
Theorem audit_log_append_only ops w :
  well_formed (w_db w) -> audit_log (w_db w) `prefix_of` audit_log (w_db (after ops w)).
Proof.
  intros Hw. apply (after_invariant (fun d => audit_log (w_db w) `prefix_of` audit_log d)); [|done..].
  intros d d' Hd _. by apply (audit_step (w_fresh w)).
Qed.
End Safety.

(** ** Examples *)

Definition busy : list Op :=
  [OpLogin "alice@example.org" "Correct-Horse-1" "10.0.0.1" "agent";
   OpRegister "carol@example.org" "Correct-Horse-1" "carol@elsewhere.net" "" "" true "none";
   OpUnsuspend "admin-1" "user-1"; OpReject "admin-1" "reg-2" "no";
   OpAdminReset "admin-1" "user-1" "Another-Horse-2"].

Lemma sample_has_admin : some_admin sample_db.
Proof. exists (sample_user "admin-1" "root@example.org" "admin" UserActive). simpl. auto. Qed.

Definition decidedb (regID : string) (d : Database) : bool :=
  forallb (fun r => negb (pending_with_id regID r)) (registrations d).

Lemma decidedb_sound regID d : decidedb regID d = true -> decided regID d.
Proof.
  unfold decidedb. rewrite forallb_forall. intros H r Hr Hid Hs. specialize (H r Hr).
  unfold pending_with_id, reg_has_id in H. rewrite Hid, Hs, String.eqb_refl in H.
  by rewrite bool_decide_eq_true_2 in H by done.
Qed.

Lemma requests_refine_machine_witness :
  rtc (db_step 0) sample_db (w_db (after busy (sample_world sample_db [false; true]))).
Proof. apply (requests_refine_machine busy (sample_world sample_db [false; true])). exact sample_db_wf. Defined.

Lemma keys_stay_unique_witness :
  well_formed (w_db (after busy (sample_world sample_db [false; true]))).
Proof. apply keys_stay_unique. exact sample_db_wf. Defined.

Lemma setup_is_final_witness :
  let w := after busy (sample_world sample_db []) in
  CompleteSetup (Admin.mkSetupComplete "" "" "" "" "x" "" "" "" None) "" "" w
  = (Fail (if faulty w then ErrDriver else ErrText "setup already completed"), next w).
Proof. intros w. apply setup_is_final; [exact sample_db_wf|exact sample_has_admin]. Defined.

Lemma no_privilege_escalation_witness :
  plain_user "user-2" (w_db (after busy (sample_world sample_db []))).
Proof.
  apply (no_privilege_escalation busy "user-2" (sample_world sample_db [])); [exact sample_db_wf|exact sample_has_admin|].
  intros r [<-|[<-|[<-|[]]]]; simpl; congruence.
Defined.

Lemma logout_is_final_witness :
  fst (ValidateSession "alice's token"
        (after busy (snd (Logout "alice's token" (sample_world sample_db [])))))
  = Fail ErrInvalidCredentials.
Proof.
  destruct (logout_is_final "alice's token" busy (sample_world sample_db [])
              (snd (Logout "alice's token" (sample_world sample_db [])))) as [[Hf _]|[H _]].
  - exact sample_db_wf.
  - apply pair_of_fst. vm_compute. reflexivity.
  - not_fresh_hash.
  - discriminate Hf.
  - exact H.
Defined.

Lemma suspension_ends_sessions_witness :
  fst (ValidateSession "alice's token"
        (after busy (snd (SuspendUser "admin-1" "user-1" (sample_world sample_db [])))))
  = Fail ErrInvalidCredentials.
Proof.
  apply (suspension_ends_sessions "admin-1" "alice's token"
           (sample_session "sess-1" "user-1" "alice's token") busy (sample_world sample_db [])).
  - exact sample_db_wf.
  - left. reflexivity.
  - reflexivity.
  - apply pair_of_fst. vm_compute. reflexivity.
  - not_fresh_hash.
Defined.

Lemma reset_token_single_use_witness :
  let w := snd (ConfirmPasswordReset "alice's reset token" "New-Horse-123"
                  (sample_world sample_db [])) in
  is_ok (fst (ReservePasswordResetToken (sha256_hex "alice's reset token") "r2"
                passwordResetReservationLease (after busy w))) = false.
Proof.
  apply (reset_token_single_use "alice's reset token" "New-Horse-123" "r2" busy
           (sample_world sample_db [])).
  - exact sample_db_wf.
  - apply pair_of_fst. vm_compute. reflexivity.
  - not_fresh_hash.
Defined.

Lemma decision_is_final_witness :
  let w := snd (ApproveRegistration "admin-1" "reg-2" (sample_world sample_db [])) in
  is_ok (fst (RejectRegistration "admin-1" "reg-2" "no" (after busy w))) = false.
Proof.
  intros w. apply (decision_is_final "reg-2" "admin-1" "no" busy w).
  - apply well_formedb_sound. vm_compute. reflexivity.
  - apply decidedb_sound. vm_compute. reflexivity.
  - by apply sample_not_fresh_id; vm_compute.
Defined.

Definition spent_db : Database :=
  sample_db <| recovery_codes := [mkRecoveryCode "code-1" "user-1" "h" (Some 5) 1] |>
            <| trusted_devices := [mkTrustedDevice "dev-1" "user-1" "th" "" "" "" 1 None 9 (Some 5)] |>.

Lemma spent_db_wf : well_formed spent_db.
Proof. apply well_formedb_sound. vm_compute. reflexivity. Qed.

Lemma spent_code_stays_spent_witness :
  spent_code "code-1" (w_db (after (OpConsumeCode "user-1" "h" :: busy) (sample_world spent_db []))).
Proof.
  apply (spent_code_stays_spent "code-1" (OpConsumeCode "user-1" "h" :: busy)
           (sample_world spent_db [])).
  - exact spent_db_wf.
  - intros c [<-|[]] _. reflexivity.
  - by apply sample_not_fresh_id; vm_compute.
Defined.

Lemma revoked_device_is_frozen_witness :
  In (mkTrustedDevice "dev-1" "user-1" "th" "" "" "" 1 None 9 (Some 5))
     (trusted_devices (w_db (after (OpRotateDevice "user-1" "dev-1" "t2" "" "" 99 :: busy)
                               (sample_world spent_db [])))).
Proof.
  apply revoked_device_is_frozen; [exact spent_db_wf|by left|reflexivity].
Defined.

Lemma audit_log_append_only_witness :
  audit_log sample_db `prefix_of` audit_log (w_db (after busy (sample_world sample_db []))).
Proof. apply (audit_log_append_only busy (sample_world sample_db [])). exact sample_db_wf. Defined.
