(* ===== verification/AuthFacts.v ===== *)
(** * AuthFacts: what sign-in and session checks establish

    Soundness of [Login] and [ValidateSession] under every fault schedule, the
    outcome for each account status, the round trip from a sign-in to a valid
    session, and the search through the PAM logins. *)

From S2P Require Import Prelude GoStrings Effects GoStd Models Users Sessions Mfa MailAccounts Host.
From S2P Require Import FeatureFlags Identity Auth Lifecycle ServiceRefinement Sample.
Local Open Scope Z_scope.

Section AuthFacts.
Context {host : Host} {dep : Deployment}.
Implicit Types (w : World Database).

(** ** Reading rows *)

Lemma query_ok {A} (f : Database -> Res A) w a w' :
  query f w = (Ok a, w') -> f (w_db w) = Ok a /\ w' = next w.
Proof. rewrite query_eq. destruct (faulty w); [done|]. by intros [= -> <-]. Qed.

Lemma GetUserByID_ok id w u w' :
  GetUserByID id w = (Ok u, w') ->
  exists r, In r (users (w_db w)) /\ ur_id r = id /\ u = scanUserCore r.
Proof.
  intros [H _]%query_ok. destruct (select1 _ _) as [r|] eqn:E; [|done].
  injection H as <-. apply find_In in E as [Hr Hid]. unfold has_id in Hid. breflect. eauto.
Qed.

Lemma GetUserByEmail_ok email w u w' :
  GetUserByEmail email w = (Ok u, w') ->
  exists r, In r (users (w_db w)) /\ ur_email r = email /\ u = scanUserCore r.
Proof.
  intros [H _]%query_ok. destruct (select1 _ _) as [r|] eqn:E; [|done].
  injection H as <-. apply find_In in E as [Hr Hid]. unfold has_email in Hid. breflect. eauto.
Qed.

Lemma GetSession_ok h w s w' :
  GetSessionByTokenHash h w = (Ok s, w') ->
  exists s0, In s0 (sessions (w_db w)) /\ s_TokenHash s0 = h /\ s = scan_session s0.
Proof.
  intros [H _]%query_ok. destruct (select1 _ _) as [s0|] eqn:E; [|done].
  injection H as <-. apply find_In in E as [Hr Hid]. unfold sess_has_hash in Hid. breflect. eauto.
Qed.

(** A session is touched without changing who it belongs to. *)
Lemma TouchSession_users id t w : users (w_db (snd (TouchSession id t w))) = users (w_db w).
Proof.
  unfold TouchSession, update_sessions, bind. simpl. rewrite exec_eq. by destruct (faulty _).
Qed.

(** C28. What a valid session is: when [ValidateSession] accepts a token, the
    database holds a session with the hash of that token that is not revoked
    and past neither its absolute nor its idle expiry at the time of the check,
    and its owner exists and is active or an administrator; they are what is
    returned. *)
Theorem ValidateSession_sound raw w u s w' :
  ValidateSession raw w = (Ok (u, s), w') ->
  exists s0 r, In s0 (sessions (w_db w)) /\ s_TokenHash s0 = sha256_hex raw
    /\ s = scan_session s0 /\ s_RevokedAt s0 = None
    /\ env_now (w_tick w) <= s_ExpiresAt s0 /\ env_now (w_tick w) <= s_IdleExpiresAt s0
    /\ In r (users (w_db w)) /\ ur_id r = s_UserID s0 /\ u = scanUserCore r
    /\ (ur_status r = UserActive \/ ur_role r = "admin").
Proof.
  unfold ValidateSession. rewrite bind_attempt.
  destruct (GetSessionByTokenHash _ w) as [[s1|e] w1] eqn:E1; [|done]. simpl.
  assert (Hw1 : w1 = next w) by by apply query_ok in E1 as [_ ->].
  apply GetSession_ok in E1 as (s0 & Hs0 & Hh & ->). unfold bind at 1. simpl.
  rewrite Hw1. simpl.
  destruct (session_live _ _) eqn:Hl; [|done]. simpl.
  unfold bind at 1. rewrite ignore_eq, bind_attempt.
  destruct (GetUserByID _ _) as [[u1|e] w2] eqn:E2; [|done]. simpl.
  apply GetUserByID_ok in E2 as (r & Hr & Hid & ->). rewrite TouchSession_users in Hr.
  destruct (may_hold_session _) eqn:Hm; [|done]. simpl. intros [= <- <- _].
  unfold session_live in Hl. simpl in Hl. breflect. exists s0, r.
  unfold may_hold_session in Hm. apply orb_true_iff in Hm. simpl in *.
  split_and!; try done; [by destruct (s_RevokedAt s0)|].
  destruct Hm as [Hm|Hm]; breflect; auto.
Qed.
(** ** Credentials *)

(** PAM accepted one of these logins with this password. *)
Definition accepted_by_pam (logins : list string) (pw : string) : Prop :=
  exists login n, In login logins /\ env_reply n (IMAPListMailboxes login pw) = None.

Lemma try_logins_ok all cs pw w c w' :
  try_logins all cs pw w = (Ok c, w') ->
  In c cs /\ w_db w' = w_db w /\ exists n, env_reply n (IMAPListMailboxes c pw) = None.
Proof.
  revert w. induction cs as [|c0 cs IH]; intros w; [done|]. simpl.
  rewrite bind_attempt. unfold call at 1. simpl.
  destruct (env_reply _ _) eqn:Er; simpl.
  - destruct (isMailConnectivityError _); [done|]. intros H. apply IH in H as (? & ? & ?).
    split_and!; [by right|done|done].
  - intros [= <- <-]. split_and!; [by left|done|eauto].
Qed.

Lemma verifyMailCredentials_ok e pw x y w c w' :
  verifyMailCredentials e pw x y w = (Ok c, w') ->
  w_db w' = w_db w /\ accepted_by_pam (pamLoginCandidates x y e) pw.
Proof.
  unfold verifyMailCredentials. destruct (_ || _); [done|]. intros H.
  assert (Ht : exists l, l = pamLoginCandidates x y e /\ try_logins l l pw w = (Ok c, w')).
  { destruct (pamLoginCandidates x y e) eqn:E; [done|eauto]. }
  destruct Ht as (l & -> & (Hin & Hdb & n & Hn)%try_logins_ok).
  split; [done|]. by exists c, n.
Qed.

(** The user a credential check hands on, compared with the one it was given. *)
Definition same_account (u u' : User) : Prop :=
  u_ID u' = u_ID u /\ u_Email u' = u_Email u /\ u_Status u' = u_Status u /\ u_Role u' = u_Role u.

Lemma check_credentials_ok u pw w u' w' :
  check_credentials u pw w = (Ok u', w') ->
  same_account u u'
  /\ if usesPAMAuth
     then accepted_by_pam (pamLoginCandidates "" (default "" (u_MailLogin u)) (u_Email u)) pw
     else VerifyPassword (u_PasswordHash u) pw = true.
Proof.
  unfold check_credentials. destruct usesPAMAuth.
  - rewrite bind_attempt.
    destruct (verifyMailCredentials _ _ _ _ w) as [[c|e] w1] eqn:Ev; simpl;
      [|by destruct (isMailConnectivityError e)].
    apply verifyMailCredentials_ok in Ev as [_ Ha]. destruct (negb _).
    + intros (? & ? & _ & [= <- _])%bind_ok. split; [|done]. by destruct (negb _).
    + intros [= <- _]. by split.
  - destruct (VerifyPassword _ _); [|done]. intros [= <- _]. by split.
Qed.

Lemma insert_row_In {R} clash (r : R) rows rows' :
  insert_row clash r rows = Ok rows' -> In r rows'.
Proof. intros [-> _]%insert_row_ok. apply in_or_app. right. by left. Qed.

Lemma CreateSession_ok s w w' :
  CreateSession s w = (Ok tt, w') ->
  In (s <| s_AuthMethod := auth_method_or "password" (s_AuthMethod s) |> <| s_RevokedAt := None |>)
     (sessions (w_db w')).
Proof.
  unfold CreateSession. cbv zeta. rewrite statement_eq. destruct (faulty w); [done|].
  destruct (insert_row _ _ _) as [rows|] eqn:E; [|done]. intros [= <-].
  by apply insert_row_In in E.
Qed.

Lemma TouchUserLastLogin_sessions id t w :
  sessions (w_db (snd (TouchUserLastLogin id t w))) = sessions (w_db w).
Proof. unfold TouchUserLastLogin, update_user. rewrite exec_eq. by destruct (faulty w). Qed.

Lemma Login_ok email pw ip ua w raw u w' :
  Login email pw ip ua w = (Ok (raw, u), w') ->
  exists r s, In r (users (w_db w)) /\ ur_email r = fold_trim email /\ u_ID u = ur_id r
    /\ ur_status r = UserActive
    /\ (if usesPAMAuth
        then accepted_by_pam (pamLoginCandidates ""
               (default "" (u_MailLogin (scanUserCore r))) (fold_trim email)) pw
        else VerifyPassword (ur_password_hash r) pw = true)
    /\ In s (sessions (w_db w')) /\ s_TokenHash s = sha256_hex raw /\ s_UserID s = ur_id r
    /\ s_RevokedAt s = None /\ s_AuthMethod s = "password"
    /\ s_ExpiresAt s = s_CreatedAt s + SessionAbsoluteDuration cfg
    /\ s_IdleExpiresAt s = s_CreatedAt s + SessionIdleDuration cfg.
Proof.
  unfold Login. rewrite bind_attempt.
  destruct (GetUserByEmail _ w) as [[u0|e] w0] eqn:E0; [|done]. simpl.
  apply GetUserByEmail_ok in E0 as (r & Hr & Hemail & ->).
  intros (u1 & w1 & [Hsame Hcred]%check_credentials_ok & H)%bind_ok.
  destruct Hsame as (Hid & _ & Hst & _).
  apply bind_ok in H as ([] & w2 & Hgate & H). unfold of_res in Hgate. injection Hgate as Hgate <-.
  assert (Hactive : ur_status r = UserActive).
  { unfold status_gate in Hgate. rewrite Hst in Hgate. simpl in Hgate. by destruct (ur_status r). }
  destruct (may_hold_session u1); [|done]. simpl in H.
  apply bind_ok in H as ([raw1 h] & w3 & Htok & H).
  assert (Hh : h = sha256_hex raw1).
  { unfold NewOpaqueToken in Htok. by apply bind_ok in Htok as (? & ? & _ & [= <- <- _]). }
  apply bind_ok in H as (sec & w4 & _ & H). apply bind_ok in H as ([] & w5 & _ & H).
  apply bind_ok in H as ([] & w6 & _ & H). apply bind_ok in H as (now & w7 & _ & H).
  apply bind_ok in H as (stage & w8 & _ & H). cbv zeta in H.
  apply bind_ok in H as (id & w9 & _ & H). apply bind_ok in H as ([] & w10 & Hc & H).
  apply CreateSession_ok in Hc. apply bind_ok in H as ([] & w11 & Ht & H).
  rewrite ignore_eq in Ht. injection Ht as <-. injection H as <- <- <-.
  rewrite <- (TouchUserLastLogin_sessions (u_ID u1) now) in Hc.
  exists r. eexists. split_and!; try done.
  - change (u_Email (scanUserCore r)) with (ur_email r) in Hcred. by rewrite Hemail in Hcred.
Qed.

(** C29. What a sign-in establishes: [Login] succeeds only for the account with
    that address, which is active; under PAM the mail server accepted one of
    the account's logins with the password, otherwise the stored hash verifies
    it; and the database then holds a live session of that account with the
    hash of the returned token and the configured lifetimes. *)
Theorem Login_sound email pw ip ua w raw u w' :
  Login email pw ip ua w = (Ok (raw, u), w') ->
  exists r s, In r (users (w_db w)) /\ ur_email r = fold_trim email /\ u_ID u = ur_id r
    /\ ur_status r = UserActive
    /\ (if usesPAMAuth
        then accepted_by_pam (pamLoginCandidates ""
               (default "" (u_MailLogin (scanUserCore r))) (fold_trim email)) pw
        else VerifyPassword (ur_password_hash r) pw = true)
    /\ In s (sessions (w_db w')) /\ s_TokenHash s = sha256_hex raw /\ s_UserID s = ur_id r
    /\ s_RevokedAt s = None /\ s_AuthMethod s = "password"
    /\ s_ExpiresAt s = s_CreatedAt s + SessionAbsoluteDuration cfg
    /\ s_IdleExpiresAt s = s_CreatedAt s + SessionIdleDuration cfg.
Proof. apply Login_ok. Qed.
(** ** Refusals *)

(** Why a password sign-in is refused, given the row its address names. *)
Definition refusal (found : option UserRow) (pw : string) : option GoErr :=
  match found with
  | None => Some ErrInvalidCredentials
  | Some r =>
      if VerifyPassword (ur_password_hash r) pw then
        match ur_status r with
        | UserPending => Some ErrPendingApproval
        | UserSuspended => Some ErrSuspended
        | UserRejected => Some ErrForbidden
        | UserActive => None
        end
      else Some ErrInvalidCredentials
  end.

(** Every refusal of a password sign-in: an unknown address and a wrong
    password give the same error, a right password the error of the account's
    status, and none of them writes to the database or draws a token. *)
Theorem Login_refusals email pw ip ua w e :
  usesPAMAuth = false -> faulty w = false ->
  refusal (select1 (has_email (fold_trim email)) (users (w_db w))) pw = Some e ->
  Login email pw ip ua w = (Fail e, next w).
Proof.
  intros Hpam Hf. unfold Login, GetUserByEmail. rewrite bind_attempt, query_eq, Hf. simpl.
  destruct (select1 _ _) as [r|]; simpl; [|by intros [= <-]].
  unfold check_credentials. rewrite Hpam. simpl.
  destruct (VerifyPassword _ _); simpl; [|by intros [= <-]].
  unfold status_gate, bind, of_res, ret. simpl.
  by destruct (ur_status r); intros [= <-].
Qed.

(** ** From a sign-in to a valid session *)

(** Who the accounts are, and in what state. *)
Definition standing (r : UserRow) : string * string * string * UserStatus :=
  (ur_id r, ur_email r, ur_role r, ur_status r).

(** A column of the users table keeps its values. *)
Definition column_kept {A} (col : UserRow -> A) (d d' : Database) : Prop :=
  map col (users d') = map col (users d).

Definition standing_kept : Database -> Database -> Prop := column_kept standing.

Lemma update_users_kept {A} (col : UserRow -> A) p f rows :
  (forall r, col (f r) = col r) -> map col (update_rows p f rows) = map col rows.
Proof. intros Hf. by apply map_update_rows. Qed.

Ltac kept :=
  intros; first [apply spec_exec_any | apply spec_statement];
  repeat match goal with
         | |- forall _, _ => intros ?
         | H : Ok _ = Ok _ |- _ => injection H as ?; subst
         | H : (match ?x with Ok _ => _ | Fail _ => _ end) = Ok _ |- _ =>
             destruct x eqn:?; [|discriminate H]
         | |- _ /\ any _ _ => split; [|done]
         end;
  apply rtc_once; unfold standing_kept, column_kept; simpl; rewrite ?update_users_kept by done; done.

Lemma Login_keeps_standing k D email pw ip ua :
  spec standing_kept k D (Login email pw ip ua) any.
Proof.
  unfold Login, check_credentials, verifyMailCredentials, NewOpaqueToken, EncryptString,
    UpsertUserMailSecret, UpdateUserMailLogin, EnsureAuthenticatedMailAccount, InstanceMode,
    ListMailAccounts, UpdateMailAccount, GetMailAccountByID, CreateMailAccount, ResolveMFAStage,
    GetMFAStatus, AdminMFARequired, FeatureFlagEnabled, resolveFeatureFlagState, DefaultValue,
    CreateSession, TouchUserLastLogin, update_user, GetSetting, GetUserByEmail, GetUserMailSecret.
  spec_walk; first [apply try_logins_read|kept].
Qed.
Lemma column_rtc {A} (col : UserRow -> A) d d' :
  rtc (column_kept col) d d' -> map col (users d') = map col (users d).
Proof. induction 1 as [|d d1 d' H _ IH]; [done|]. by rewrite IH. Qed.

Lemma select_unique {R} clash p (rows : list R) r :
  unique clash rows -> In r rows -> p r = true ->
  (forall a b, p a = true -> p b = true -> clash a b = true) -> select1 p rows = Some r.
Proof.
  intros Hu Hin Hp Hc. apply find_unique; [done..|]. intros x Hx Hpx.
  apply (unique_eq clash rows); auto.
Qed.

Lemma TouchSession_faults id t w : w_faults (snd (TouchSession id t w)) = tail (w_faults w).
Proof.
  unfold TouchSession, update_sessions, bind. simpl. rewrite exec_eq. by destruct (faulty _).
Qed.

Lemma ValidateSession_live raw w s r :
  w_faults w = [] -> select1 (sess_has_hash (sha256_hex raw)) (sessions (w_db w)) = Some s ->
  session_live (env_now (w_tick w)) (scan_session s) = true ->
  select1 (has_id (s_UserID s)) (users (w_db w)) = Some r ->
  may_hold_session (scanUserCore r) = true ->
  fst (ValidateSession raw w) = Ok (scanUserCore r, scan_session s).
Proof.
  intros Hf Hs Hl Hr Hm. unfold ValidateSession.
  rewrite bind_attempt. unfold GetSessionByTokenHash. rewrite query_run, Hs by done.
  cbn [fst snd]. unfold bind at 1. unfold time_Now at 1. rewrite Hl. cbn [negb].
  unfold bind at 1. rewrite ignore_eq, bind_attempt. unfold GetUserByID.
  rewrite query_run by (rewrite TouchSession_faults; simpl; by rewrite Hf).
  rewrite TouchSession_users. cbn [fst snd]. change (s_UserID (scan_session s)) with (s_UserID s).
  change (users (w_db (w <| w_tick := S (w_tick w) |>))) with (users (w_db w)).
  rewrite Hr, Hm. done.
Qed.

(** A sign-in yields a working session: the token [Login] returns is
    accepted by [ValidateSession] until the lifetimes of its session have
    passed, as a session of the same account. *)
Theorem login_then_validate email pw ip ua w raw u w1 :
  well_formed (w_db w) -> Login email pw ip ua w = (Ok (raw, u), w1) -> w_faults w1 = [] ->
  (forall s, In s (sessions (w_db w1)) -> s_TokenHash s = sha256_hex raw ->
     env_now (w_tick w1) <= s_ExpiresAt s /\ env_now (w_tick w1) <= s_IdleExpiresAt s) ->
  exists u' s, fst (ValidateSession raw w1) = Ok (u', s)
    /\ u_ID u' = u_ID u /\ s_UserID s = u_ID u.
Proof.
  intros Hw Hl Hnf Hlive.
  assert (Hstand : map standing (users (w_db w1)) = map standing (users (w_db w))).
  { pose proof (Login_keeps_standing 0 anydb email pw ip ua w ltac:(lia) Logic.I) as (_ & H & _).
    rewrite Hl in H. by apply (column_rtc standing). }
  assert (Hw1 : well_formed (w_db w1)).
  { pose proof (Login_refines email pw ip ua 0 anydb w ltac:(lia) Logic.I) as (_ & H & _).
    rewrite Hl in H. by apply (rtc_invariant 0 anydb) in H as [? _]. }
  apply Login_ok in Hl as (r & s & Hr & _ & Hu & Hst & _ & Hs & Hh & Hus & Hrev & _).
  destruct (Hlive s Hs Hh) as [Habs Hidle].
  assert (Hsel : select1 (sess_has_hash (sha256_hex raw)) (sessions (w_db w1)) = Some s).
  { apply (select_unique session_clash); [apply Hw1|done|by apply String.eqb_eq|].
    unfold sess_has_hash, session_clash. intros a b Ha Hb. breflect.
    rewrite Ha, Hb, String.eqb_refl. apply orb_true_r. }
  assert (Hr1 : exists r1, In r1 (users (w_db w1)) /\ standing r1 = standing r).
  { apply (in_map standing) in Hr. rewrite <- Hstand in Hr.
    apply in_map_iff in Hr as (r1 & ? & ?). eauto. }
  destruct Hr1 as (r1 & Hr1 & Hsr). injection Hsr as Hid _ _ Hst1.
  exists (scanUserCore r1), (scan_session s). split_and!.
  - apply ValidateSession_live; try done.
    + unfold session_live. simpl. rewrite Hrev.
      by rewrite (proj2 (Z.ltb_ge _ _) Habs), (proj2 (Z.ltb_ge _ _) Hidle).
    + apply (select_unique user_clash); [apply Hw1|done|..].
      * apply String.eqb_eq. congruence.
      * unfold has_id, user_clash. intros a b Ha Hb. breflect.
        by rewrite Ha, Hb, String.eqb_refl.
    + unfold may_hold_session. simpl. by rewrite bool_decide_eq_true_2 by congruence.
  - rewrite Hu. exact Hid.
  - by rewrite Hu.
Qed.
End AuthFacts.

(** ** Examples *)

Lemma Forall_forallb_le now rows :
  forallb (fun s => (now <=? s_ExpiresAt s) && (now <=? s_IdleExpiresAt s)) rows = true ->
  List.Forall (fun s => now <= s_ExpiresAt s /\ now <= s_IdleExpiresAt s) rows.
Proof.
  intros H. apply List.Forall_forall. intros s Hs. rewrite forallb_forall in H.
  specialize (H s Hs). breflect. by split.
Qed.

Abbreviation alice_login := (Login "Alice@Example.org " "Correct-Horse-1" "10.0.0.1" "agent").

Definition alice : User :=
  scanUserCore (sample_user "user-1" "alice@example.org" "user" UserActive).

Definition get {A} (r : Res A) (dflt : A) : A := match r with Ok a => a | Fail _ => dflt end.

Lemma ok_get {A} (r : Res A) dflt : is_ok r = true -> r = Ok (get r dflt).
Proof. by destruct r. Qed.

Lemma ok_pair {A} (p : Res A * World Database) dflt :
  is_ok (fst p) = true -> p = (Ok (get (fst p) dflt), snd p).
Proof. intros H. apply pair_of_fst. by apply ok_get. Qed.

Lemma ok_pair2 {A B} (p : Res (A * B) * World Database) a b :
  is_ok (fst p) = true -> p = (Ok (fst (get (fst p) (a, b)), snd (get (fst p) (a, b))), snd p).
Proof. intros H. rewrite <- surjective_pairing. by apply ok_pair. Qed.

Lemma ValidateSession_sound_witness :
  let p := ValidateSession "alice's token" (sample_world sample_db [false; true]) in
  exists s0, In s0 (sessions sample_db) /\ s_TokenHash s0 = sha256_hex "alice's token"
    /\ snd (get (fst p) (alice, sample_session "" "" "")) = scan_session s0.
Proof.
  intros p.
  assert (Hok : is_ok (fst p) = true) by (vm_compute; reflexivity).
  destruct (ValidateSession_sound _ _ _ _ _ (ok_pair2 p alice (sample_session "" "" "") Hok))
    as (s0 & r & Hs & Hh & Hsc & _).
  exact (ex_intro _ s0 (conj Hs (conj Hh Hsc))).
Defined.

Lemma Login_sound_witness :
  exists r, In r (users sample_db) /\ ur_email r = fold_trim "Alice@Example.org "
            /\ ur_status r = UserActive.
Proof.
  assert (Hok : is_ok (fst (alice_login (sample_world sample_db []))) = true)
    by (vm_compute; reflexivity).
  destruct (Login_sound _ _ _ _ _ _ _ _ (ok_pair2 _ "" alice Hok))
    as (r & s & Hr & He & _ & Hs & _).
  exact (ex_intro _ r (conj Hr (conj He Hs))).
Defined.

Lemma Login_refusals_witness :
  Login "bob@example.org" "Correct-Horse-1" "" "" (sample_world sample_db [])
  = (Fail ErrPendingApproval, next (sample_world sample_db [])).
Proof. apply Login_refusals; vm_compute; reflexivity. Defined.

Lemma login_then_validate_witness :
  let p := alice_login (sample_world sample_db []) in
  exists u' s, fst (ValidateSession (fst (get (fst p) ("", alice))) (snd p)) = Ok (u', s)
    /\ u_ID u' = u_ID (snd (get (fst p) ("", alice))).
Proof.
  intros p.
  assert (Hok : is_ok (fst p) = true) by (vm_compute; reflexivity).
  assert (Hf : w_faults (snd p) = []) by (vm_compute; reflexivity).
  assert (Hlive : forallb (fun s => (env_now (w_tick (snd p)) <=? s_ExpiresAt s)
      && (env_now (w_tick (snd p)) <=? s_IdleExpiresAt s)) (sessions (w_db (snd p))) = true)
    by (vm_compute; reflexivity).
  destruct (login_then_validate _ _ _ _ (sample_world sample_db []) _ _ _ sample_db_wf (ok_pair2 p "" alice Hok) Hf)
    as (u' & s & Hv & Hu & _).
  - intros s Hs _. exact (proj1 (List.Forall_forall _ _) (Forall_forallb_le _ _ Hlive) s Hs).
  - exact (ex_intro _ u' (ex_intro _ s (conj Hv Hu))).
Defined.
