(* ===== verification/MfaFacts.v ===== *)
(** * MfaFacts: second factors

    When a sign-in counts as authenticated, what administrators held to a
    second factor cannot avoid, one-time recovery codes, the signature counter
    of passkeys, and trusted devices. *)

From S2P Require Import Prelude GoStrings Effects GoStd Models Users Sessions Mfa Host FeatureFlags.
From S2P Require Import Lifecycle ServiceRefinement Sample Safety AuthFacts.
Local Open Scope Z_scope.

(** ** The stage *)

Lemma normalizeMFAPreference_cases raw :
  normalizeMFAPreference raw = "totp" \/ normalizeMFAPreference raw = "webauthn"
  \/ normalizeMFAPreference raw = "none".
Proof.
  unfold normalizeMFAPreference. destruct (String.eqb _ "totp"); [auto|].
  destruct (String.eqb _ "webauthn"); auto.
Qed.

(** The factor a preference asks for is set up and backed up. *)
Definition factor_ready (status : MFAStatus) (pref : string) (user : User) : Prop :=
  (pref = "totp" -> TOTPEnabled status = true /\ u_MFABackupCompleted user = true)
  /\ (pref = "webauthn" -> 0 < WebAuthnCount status /\ u_MFABackupCompleted user = true).

Definition enrolled (status : MFAStatus) : Prop :=
  TOTPEnabled status = true \/ 0 < WebAuthnCount status.

Definition readyb (status : MFAStatus) (pref : string) (user : User) : bool :=
  if String.eqb pref "totp" then TOTPEnabled status && u_MFABackupCompleted user
  else if String.eqb pref "webauthn" then (0 <? WebAuthnCount status) && u_MFABackupCompleted user
  else true.

Lemma readyb_spec status pref user : readyb status pref user = true <-> factor_ready status pref user.
Proof.
  unfold readyb, factor_ready.
  destruct (String.eqb_spec pref "totp") as [->|Ht].
  { rewrite andb_true_iff. split; [by intros|]. intros [H _]. by apply H. }
  destruct (String.eqb_spec pref "webauthn") as [->|Hw]; [|by split].
  rewrite andb_true_iff, Z.ltb_lt. split; [by intros|]. intros [_ H]. by apply H.
Qed.

Lemma enrolled_spec status :
  TOTPEnabled status || (0 <? WebAuthnCount status) = true <-> enrolled status.
Proof. unfold enrolled. by rewrite orb_true_iff, Z.ltb_lt. Qed.

Lemma decide_stage_eq status pref user verified :
  pref = "totp" \/ pref = "webauthn" \/ pref = "none" ->
  st_AuthStage (decide_stage status pref user verified)
  = if negb (readyb status pref user) then AuthStageMFASetupNeeded
    else if (TOTPEnabled status || (0 <? WebAuthnCount status)) && negb verified
    then AuthStageMFARequired else AuthStageAuthenticated.
Proof.
  unfold decide_stage, readyb. intros [-> | [-> | ->]]; simpl;
    by destruct (TOTPEnabled status), (0 <? WebAuthnCount status), (u_MFABackupCompleted user).
Qed.

(** The stage of a sign-in, for each of the three preferences: it is
    authenticated exactly when the preferred factor is set up with its backup
    and an enrolled account has been verified; setup is asked for exactly when
    the preferred factor is not ready; a challenge is due in the remaining
    case, a ready, enrolled and unverified account. *)
Theorem decide_stage_spec status pref user verified :
  pref = "totp" \/ pref = "webauthn" \/ pref = "none" ->
  let stage := st_AuthStage (decide_stage status pref user verified) in
  (stage = AuthStageAuthenticated <->
     factor_ready status pref user /\ (enrolled status -> verified = true))
  /\ (stage = AuthStageMFASetupNeeded <-> ~ factor_ready status pref user)
  /\ (stage = AuthStageMFARequired <->
        factor_ready status pref user /\ enrolled status /\ verified = false).
Proof.
  intros Hp. cbv zeta. rewrite decide_stage_eq by done.
  rewrite <- readyb_spec, <- enrolled_spec.
  destruct (readyb _ _ _), (_ || _), verified; simpl; naive_solver.
Qed.

(** ** Administrators held to a second factor *)

Section MfaFacts.
Context {host : Host} {dep : Deployment}.
Implicit Types (w : World Database).

(** The stored value of the flag. *)
Definition admin_mfa_enforced (d : Database) : Prop :=
  exists v, setting featureFlagSettingAdminMFARequired d = Some v
            /\ parseFeatureFlagBool v = Some true.

Lemma GetSetting_ok key w v w' :
  GetSetting key w = (Ok v, w') -> v = setting key (w_db w) /\ w' = next w.
Proof. unfold GetSetting, setting. rewrite query_eq. destruct (faulty w); [done|]. by intros [= <- <-]. Qed.

Lemma AdminMFARequired_on w b w' :
  admin_mfa_enforced (w_db w) -> AdminMFARequired w = (Ok b, w') -> b = true.
Proof.
  intros (v & Hv & Hp). unfold AdminMFARequired, FeatureFlagEnabled.
  match goal with |- context [findFeatureFlagDef ?x] =>
    let r := eval vm_compute in (findFeatureFlagDef x) in
    change (findFeatureFlagDef x) with r end.
  cbv iota. intros (item & w1 & H & [= <- _])%bind_ok.
  unfold resolveFeatureFlagState, DefaultValue in H.
  apply bind_ok in H as (b0 & w2 & H2 & H). cbv beta iota delta [fd_Default] in H2.
  apply bind_ok in H2 as (raw & w3 & [_ ->]%GetSetting_ok & [= _ <-]).
  apply bind_ok in H as ([resolved source] & w4 & H4 & [= <- _]).
  match type of H4 with context [has_override ?x] =>
    change (has_override x) with true in H4 end.
  cbv iota in H4. apply bind_ok in H4 as (raw' & w5 & [-> _]%GetSetting_ok & H4).
  change (setting "enforce_admin_mfa" (w_db w) = Some v) in Hv.
  change (w_db (next w)) with (w_db w) in H4. cbv beta iota delta [fd_SettingKey] in H4.
  rewrite Hv, Hp in H4. by injection H4 as <- _ _.
Qed.

Lemma effective_enforced status pref :
  pref = "totp" \/ pref = "webauthn" \/ pref = "none" ->
  effective_preference true status pref = "totp"
  \/ effective_preference true status pref = "webauthn".
Proof.
  unfold effective_preference. intros [-> | [-> | ->]]; simpl; auto.
  destruct (TOTPEnabled status); [auto|]. destruct (0 <? _); auto.
Qed.

Lemma GetMFAStatus_db u w : w_db (snd (GetMFAStatus u w)) = w_db w.
Proof.
  assert (H : spec (fun _ _ => False) 0 anydb (GetMFAStatus u) any).
  { unfold GetMFAStatus. spec_walk. }
  destruct (H w ltac:(lia) Logic.I) as (_ & Hs & _). symmetry. by apply rtc_nothing.
Qed.

(** C30. An administrator cannot skip the second factor: while the
    administrators' MFA flag is stored as on, a session that has not been
    verified is never authenticated, whatever the driver does to the reads
    that look for enrolled factors. *)
Theorem enforced_admin_never_skips_mfa user sess w stage w' :
  EqualFold (TrimSpace (u_Role user)) "admin" = true ->
  admin_mfa_enforced (w_db w) ->
  match sess with Some s => s_MFAVerifiedAt s = None | None => True end ->
  ResolveMFAStage user sess w = (Ok stage, w') ->
  st_AuthStage stage <> AuthStageAuthenticated.
Proof.
  intros Hrole Henf Hunv. unfold ResolveMFAStage.
  intros (status & w1 & H1 & (enforced & w2 & H2 & H3)%bind_ok)%bind_ok.
  rewrite Hrole in H2.
  assert (Hdb : w_db w1 = w_db w).
  { pose proof (GetMFAStatus_db (u_ID user) w) as H. by rewrite H1 in H. }
  apply AdminMFARequired_on in H2 as ->; [|by rewrite Hdb].
  injection H3 as <- _.
  pose proof (effective_enforced status _ (normalizeMFAPreference_cases (u_MFAPreference user)))
    as Heff.
  fold (NormalizeMFAPreference (u_MFAPreference user)) in Heff.
  set (pref := effective_preference _ _ _) in *. clearbody pref.
  assert (Hv : match sess with
               | Some s => match s_MFAVerifiedAt s with Some _ => true | None => false end
               | None => false end = false).
  { destruct sess as [s|]; [by rewrite Hunv|done]. }
  rewrite Hv, decide_stage_eq by tauto. unfold readyb.
  destruct Heff as [-> | ->]; simpl;
    by destruct (TOTPEnabled status), (0 <? WebAuthnCount status), (u_MFABackupCompleted user).
Qed.
(** ** Recovery codes *)

Lemma affected_existsb {R} (p : R -> bool) rows :
  negb (Nat.eqb (affected p rows) 0) = existsb p rows.
Proof.
  destruct (Nat.eqb_spec (affected p rows) 0) as [H|H]; simpl; symmetry.
  - rewrite affected_0 in H. apply not_true_iff_false. intros (r & Hr & Hp)%existsb_exists.
    rewrite (H r Hr) in Hp. done.
  - apply affected_pos in H as (r & Hr & Hp). apply existsb_exists. eauto.
Qed.

(** A recovery code works once: [ConsumeRecoveryCodeHash] answers whether
    the user has an unspent code with this hash, leaves every other code as it
    was, and afterwards no code of the user with this hash can be spent, so
    that an immediate second attempt never succeeds. *)
Theorem recovery_code_single_use u h w b w1 :
  ConsumeRecoveryCodeHash u h w = (Ok b, w1) ->
  b = existsb (spendable u h) (recovery_codes (w_db w))
  /\ (forall c, In c (recovery_codes (w_db w)) -> spendable u h c = false ->
        In c (recovery_codes (w_db w1)))
  /\ (forall c, In c (recovery_codes (w_db w1)) -> spendable u h c = false)
  /\ fst (ConsumeRecoveryCodeHash u h w1) <> Ok true.
Proof.
  unfold ConsumeRecoveryCodeHash at 1, bind. simpl. rewrite statement_eq.
  destruct (faulty _); [done|]. simpl. rewrite affected_existsb. intros [= <- <-]. simpl.
  set (f := fun c => c <| rc_UsedAt := Some (env_now (w_tick w)) |>).
  assert (Hdead : forall c, In c (update_rows (spendable u h) f (recovery_codes (w_db w))) ->
                  spendable u h c = false).
  { intros c (c0 & _ & ->)%in_update_rows.
    destruct (spendable u h c0) eqn:E; [|done]. unfold spendable. apply andb_false_r. }
  split_and!; [done| |exact Hdead|].
  - intros c Hc Hs. apply in_update_rows. exists c. by rewrite Hs.
  - unfold ConsumeRecoveryCodeHash, bind. simpl. rewrite statement_eq.
    destruct (faulty _); [done|]. simpl. fold f.
    by rewrite (proj2 (affected_0 _ _) Hdead).
Qed.

(** ** Passkeys *)

(** The signature counter never goes back: after [TouchMFAWebAuthnCredential]
    succeeds every credential is still there, the touched one with the larger
    of its old counter and the reported one, the others as they were. *)
Theorem touch_credential_counter u id n w w1 :
  TouchMFAWebAuthnCredential u id n w = (Ok tt, w1) ->
  (exists c, In c (webauthn (w_db w)) /\ owned_cred u id c = true)
  /\ map wc_ID (webauthn (w_db w1)) = map wc_ID (webauthn (w_db w))
  /\ map wc_SignCount (webauthn (w_db w1))
     = map (fun c => if owned_cred u id c then Z.max (wc_SignCount c) n else wc_SignCount c)
         (webauthn (w_db w)).
Proof.
  unfold TouchMFAWebAuthnCredential, update_credentials_found, bind. simpl. rewrite statement_eq.
  destruct (faulty _); [done|]. simpl.
  destruct (Nat.eqb_spec (affected (owned_cred u id) (webauthn (w_db w))) 0) as [|Hn]; [done|].
  intros [= <-]. simpl. split_and!.
  - by apply affected_pos.
  - by apply map_update_rows.
  - unfold update_rows. rewrite map_map. apply map_ext. intros c.
    destruct (owned_cred u id c); [|done]. simpl.
    destruct (Z.ltb_spec (wc_SignCount c) n); lia.
Qed.

(** What [UpsertMFAWebAuthnCredential] does when the credential identifier is
    registered to another user: the other user's row gets the new public key,
    and the caller is told nothing was found. *)
Lemma upsert_credential_takes_over inp c w :
  w_faults w = [] -> unique cred_clash (webauthn (w_db w)) ->
  In c (webauthn (w_db w)) -> wc_CredentialID c = wc_CredentialID inp ->
  wc_UserID c <> wc_UserID inp -> String.eqb (TrimSpace (wc_ID inp)) "" = false ->
  exists w1 c1, UpsertMFAWebAuthnCredential inp w = (Fail ErrNotFound, w1)
    /\ In c1 (webauthn (w_db w1)) /\ wc_ID c1 = wc_ID c /\ wc_UserID c1 = wc_UserID c
    /\ wc_PublicKey c1 = wc_PublicKey inp.
Proof.
  intros Hf Hu Hc Hid Hne Hblank.
  unfold UpsertMFAWebAuthnCredential, bind. simpl. rewrite Hblank. simpl. rewrite statement_eq.
  unfold faulty. simpl. rewrite Hf. simpl. unfold upsert_credential. simpl.
  assert (Hex : existsb (cred_has (wc_CredentialID inp)) (webauthn (w_db w)) = true).
  { apply existsb_exists. exists c. split; [done|]. by apply String.eqb_eq. }
  rewrite Hex. unfold GetMFAWebAuthnCredentialByCredentialID.
  rewrite query_run by (simpl; by rewrite Hf). simpl.
  set (inp' := inp <| wc_ID := _ |> <| wc_CreatedAt := _ |> <| wc_TransportsJSON := _ |>).
  assert (Hin : In (merge_credential inp' c) (update_rows (cred_has (wc_CredentialID inp))
                  (merge_credential inp') (webauthn (w_db w)))).
  { apply in_update_rows. exists c. split; [done|]. unfold cred_has.
    by rewrite (proj2 (String.eqb_eq _ _) Hid). }
  assert (Hnone : select1 (fun c0 => cred_of (wc_UserID inp) c0 && cred_has (wc_CredentialID inp) c0)
    (update_rows (cred_has (wc_CredentialID inp)) (merge_credential inp') (webauthn (w_db w))) = None).
  { apply find_none_iff. intros x (c0 & Hc0 & ->)%in_update_rows.
    destruct (cred_has (wc_CredentialID inp) c0) eqn:E; [|by rewrite E, andb_false_r].
    unfold cred_has in E. apply String.eqb_eq in E.
    assert (c0 = c) as ->.
    { apply (unique_eq cred_clash (webauthn (w_db w))); [done..| |]; unfold cred_clash;
        rewrite E, Hid, String.eqb_refl; apply orb_true_r. }
    unfold cred_of. simpl. by rewrite (proj2 (String.eqb_neq _ _) Hne). }
  rewrite Hnone. eexists. eexists (merge_credential inp' c). split_and!; try done.
Qed.

(** ** Trusted devices *)

(** Only a live device of the user skips the challenge: a device found by
    its token belongs to the user, is not revoked, and has not expired. *)
Theorem active_device_sound u h now w x w1 :
  GetActiveMFATrustedDeviceByTokenHash u h now w = (Ok x, w1) ->
  In x (trusted_devices (w_db w)) /\ td_UserID x = u /\ td_TokenHash x = h
  /\ td_RevokedAt x = None /\ now < td_ExpiresAt x /\ w_db w1 = w_db w.
Proof.
  unfold GetActiveMFATrustedDeviceByTokenHash. intros [H ->]%query_ok.
  destruct (select1 _ _) as [x0|] eqn:E; [|done]. injection H as ->.
  apply find_In in E as [Hx Ha]. unfold active_device, dev_of, dev_live in Ha. breflect.
  split_and!; try done. by destruct (td_RevokedAt x).
Qed.

(** Revoking a user's devices leaves the user no device that can skip the
    challenge. *)
Theorem revoke_all_devices u w w1 :
  RevokeAllMFATrustedDevices u w = (Ok tt, w1) ->
  (forall h now, is_ok (fst (GetActiveMFATrustedDeviceByTokenHash u h now w1)) = false)
  /\ (forall x, In x (trusted_devices (w_db w)) -> td_UserID x <> u ->
        In x (trusted_devices (w_db w1))).
Proof.
  unfold RevokeAllMFATrustedDevices, bind. simpl. rewrite exec_eq.
  destruct (faulty _); [done|]. intros [= <-]. split.
  - intros h now. unfold GetActiveMFATrustedDeviceByTokenHash. rewrite query_eq.
    destruct (faulty _); [done|]. simpl.
    destruct (select1 _ _) as [x|] eqn:E; [|done]. exfalso.
    apply find_In in E as [(x0 & _ & ->)%in_update_rows Ha].
    unfold active_device in Ha. breflect.
    destruct (dev_of u x0 && dev_live x0) eqn:Ed; [done|].
    apply andb_false_iff in Ed as [Ed|Ed]; congruence.
  - intros x Hx Hu. simpl. apply in_update_rows. exists x. split; [done|].
    unfold dev_of. by rewrite (proj2 (String.eqb_neq _ _) Hu).
Qed.
End MfaFacts.

(** ** Examples *)

Lemma decide_stage_spec_witness :
  st_AuthStage (decide_stage (mkMFAStatus true true 0 0 0) "none" alice false)
  = AuthStageMFARequired.
Proof.
  apply (decide_stage_spec (mkMFAStatus true true 0 0 0) "none" alice false).
  - right. right. reflexivity.
  - split; [split; intros H; discriminate H|]. split; [left; reflexivity|reflexivity].
Defined.

Definition root : User :=
  scanUserCore (sample_user "admin-1" "root@example.org" "admin" UserActive).

Definition enforcing_db : Database :=
  sample_db <| settings := [mkSetting "enforce_admin_mfa" "1" 0] |>
            <| mfa_totp := [mkTOTP "admin-1" "secret" "" "" true None 0;
                            mkTOTP "user-1" "secret" "" "" true None 0] |>
            <| recovery_codes := [mkRecoveryCode "code-1" "user-1" "h" None 1] |>
            <| webauthn := [mkCredential "cred-1" "user-1" "cid" "key" 7 "[]" "" 0 None] |>
            <| trusted_devices := [mkTrustedDevice "dev-1" "user-1" "th" "" "" "" 1 None 9 None] |>.

Lemma enforced_admin_never_skips_mfa_witness :
  let p := ResolveMFAStage root None (sample_world enforcing_db [true; true]) in
  st_AuthStage (get (fst p) (decide_stage (mkMFAStatus false false 0 0 0) "none" root false))
  <> AuthStageAuthenticated.
Proof.
  intros p.
  assert (Hok : is_ok (fst p) = true) by (vm_compute; reflexivity).
  apply (enforced_admin_never_skips_mfa root None (sample_world enforcing_db [true; true]) _ (snd p)).
  - vm_compute. reflexivity.
  - exists "1". split; vm_compute; reflexivity.
  - exact I.
  - exact (ok_pair p _ Hok).
Defined.

(** The status reads drop their errors, so for an account that is not held to
    a second factor a driver fault at the sign-in hides the enrolled one: the
    same account is challenged without the fault and let in with it. *)
Lemma mfa_status_fails_open :
  let stage faults := fst (ResolveMFAStage alice None (sample_world enforcing_db faults)) in
  (exists st, stage [] = Ok st /\ st_AuthStage st = AuthStageMFARequired)
  /\ (exists st, stage [true; true; false; false] = Ok st
                 /\ st_AuthStage st = AuthStageAuthenticated).
Proof. split; eexists; (split; [vm_compute; reflexivity|reflexivity]). Qed.

Lemma recovery_code_single_use_witness :
  let p := ConsumeRecoveryCodeHash "user-1" "h" (sample_world enforcing_db []) in
  get (fst p) false = true
  /\ fst (ConsumeRecoveryCodeHash "user-1" "h" (snd p)) <> Ok true.
Proof.
  intros p. split; [vm_compute; reflexivity|].
  assert (Hok : is_ok (fst p) = true) by (vm_compute; reflexivity).
  apply (recovery_code_single_use "user-1" "h" _ _ _ (ok_pair p false Hok)).
Defined.

Lemma touch_credential_counter_witness :
  map wc_SignCount (webauthn (w_db (snd
    (TouchMFAWebAuthnCredential "user-1" "cred-1" 3 (sample_world enforcing_db []))))) = [7].
Proof.
  apply (touch_credential_counter "user-1" "cred-1" 3 (sample_world enforcing_db [])).
  apply pair_of_fst. vm_compute. reflexivity.
Defined.

Lemma active_device_sound_witness :
  td_UserID (get (fst (GetActiveMFATrustedDeviceByTokenHash "user-1" "th" 5
      (sample_world enforcing_db []))) (mkTrustedDevice "" "" "" "" "" "" 0 None 0 None)) = "user-1".
Proof.
  eapply (active_device_sound "user-1" "th" 5 (sample_world enforcing_db [])).
  apply ok_pair. vm_compute. reflexivity.
Defined.

Lemma revoke_all_devices_witness :
  let w1 := snd (RevokeAllMFATrustedDevices "user-1" (sample_world enforcing_db [])) in
  is_ok (fst (GetActiveMFATrustedDeviceByTokenHash "user-1" "th" 5 w1)) = false.
Proof.
  apply (revoke_all_devices "user-1" (sample_world enforcing_db [])).
  apply pair_of_fst. vm_compute. reflexivity.
Defined.
