(* ===== verification/RegistrationFacts.v ===== *)
(** * RegistrationFacts: the approval queue

    A decision is all or nothing and never meets the unique index it could
    violate; what approval and rejection leave behind; and the window in which
    an approval that fails half way cannot be repeated. *)

From S2P Require Import Prelude GoStrings Effects GoStd Models Users Sessions Host Identity Auth Admin.
From S2P Require Import Lifecycle StoreRefinement ServiceRefinement Sample AuthFacts.
Local Open Scope Z_scope.

Lemma regs_unique_complete rows : unique reg_clash rows -> regs_unique rows = true.
Proof.
  induction 1 as [|r rows Hr _ IH]; simpl; [done|]. rewrite IH, andb_true_r.
  apply negb_true_iff, not_true_iff_false. intros (x & Hx & Hc)%existsb_exists.
  rewrite List.Forall_forall in Hr. rewrite (Hr x Hx) in Hc. done.
Qed.

(** The rows a decision leaves: those it supersedes go, the pending row of the
    identifier is decided, the others stay. *)
Definition decided_rows (regID email : string) (status : RegStatus) (now : Z)
    (decidedBy reason : string) (rows : list Registration) : list Registration :=
  update_rows (pending_with_id regID) (decide_row status now decidedBy reason)
    (delete_rows (superseded regID email status) rows).

Lemma unique_reg_id rows a b :
  unique reg_clash rows -> In a rows -> In b rows -> r_ID a = r_ID b -> a = b.
Proof.
  intros Hu Ha Hb He. apply (unique_eq reg_clash rows); [done..| |];
    unfold reg_clash; by rewrite He, String.eqb_refl.
Qed.

(** Deciding after the cleanup cannot clash on [(email, status)]. *)
Lemma decided_rows_unique regID r status now by_ reason rows :
  unique reg_clash rows -> In r rows -> r_ID r = regID ->
  unique reg_clash (decided_rows regID (r_Email r) status now by_ reason rows).
Proof.
  intros Hu Hin Hid. unfold decided_rows.
  assert (Hsub : forall x, In x (delete_rows (superseded regID (r_Email r) status) rows) ->
            In x rows /\ (r_ID x = regID -> x = r)
            /\ (r_ID x <> regID -> r_Email x = r_Email r -> r_Status x <> status)).
  { intros x [Hx Hs]%in_delete_rows. split_and!; [done| |].
    - intros Hx'. by apply (unique_reg_id rows); [..|congruence].
    - intros Hne He Hst. unfold superseded in Hs. rewrite He, Hst, String.eqb_refl in Hs.
      rewrite (proj2 (String.eqb_neq _ _) Hne), bool_decide_eq_true_2 in Hs by done. done. }
  pose proof (unique_filter _ (fun x => negb (superseded regID (r_Email r) status x)) _ Hu) as Hd.
  fold (delete_rows (superseded regID (r_Email r) status) rows) in Hd.
  revert Hsub. induction Hd as [|x l Hx Hl IH]; intros Hsub; simpl; [constructor|].
  constructor; [|apply IH; intros y Hy; apply Hsub; by right].
  apply List.Forall_forall. intros y (y0 & Hy0 & ->)%in_update_rows.
  rewrite List.Forall_forall in Hx. specialize (Hx y0 Hy0).
  destruct (Hsub x (or_introl eq_refl)) as (_ & Hxr & Hxs).
  destruct (Hsub y0 (or_intror Hy0)) as (_ & Hyr & Hys).
  unfold reg_clash in *. apply orb_false_iff in Hx as [Hxy Hes]. apply String.eqb_neq in Hxy.
  unfold pending_with_id, reg_has_id.
  destruct (String.eqb_spec (r_ID x) regID) as [Ex|Ex],
    (String.eqb_spec (r_ID y0) regID) as [Ey|Ey]; simpl; [congruence| | |].
  - rewrite (Hxr Ex) in *. destruct (bool_decide (r_Status r = RegPending)); simpl;
      rewrite (proj2 (String.eqb_neq _ _)) by congruence; simpl; [|exact Hes].
    destruct (String.eqb_spec (r_Email r) (r_Email y0)) as [He|]; [|done].
    apply bool_decide_eq_false_2. intros ?. by apply (Hys Ey).
  - rewrite (Hyr Ey) in *. destruct (bool_decide (r_Status r = RegPending)); simpl;
      rewrite (proj2 (String.eqb_neq _ _)) by congruence; simpl; [|exact Hes].
    destruct (String.eqb_spec (r_Email x) (r_Email r)) as [He|]; [|done].
    apply bool_decide_eq_false_2. intros ?. by apply (Hxs Ex).
  - rewrite (proj2 (String.eqb_neq _ _)) by congruence. exact Hes.
Qed.

Section RegistrationFacts.
Context {host : Host} {dep : Deployment}.
Implicit Types (w : World Database).

(** What is left of a transaction when its body is known. *)
Lemma transaction_cases {A} (m : DBM A) w :
  transaction m w
  = if faulty w then (Fail ErrDriver, next w)
    else match m (next w) with
         | (Ok a, w') => if faulty w' then (Fail ErrDriver, next w' <| w_db := w_db w |>)
                         else (Ok a, next w')
         | (Fail e, w') => (Fail e, w' <| w_db := w_db w |>)
         end.
Proof.
  unfold transaction, bind. rewrite query_eq.
  destruct (faulty w); [by destruct w as [d [|[] fs] t u tr]|].
  destruct (m (next w)) as [[a|e] w']; [|by destruct w'].
  rewrite query_eq. destruct (faulty w'); [|done]. by destruct w' as [d [|[] fs] t u tr].
Qed.

(** How a decision on the pending row [r] can end, from the database [d]. *)
Definition decision_outcome (regID : string) (status : RegStatus) (by_ reason : string)
    (r : Registration) (d : Database) (result : Res unit * World Database) : Prop :=
  (fst result = Fail ErrDriver /\ w_db (snd result) = d)
  \/ (fst result = Ok tt /\ exists now, w_db (snd result) = d
        <| registrations := decided_rows regID (r_Email r) status now by_ reason
                              (registrations d) |>).

(** A decision is all or nothing: on a pending registration,
    [SetRegistrationDecision] either fails in the driver and leaves the
    database as it was, or decides that row, deletes exactly the older rows of
    the same address with the new status, and touches nothing else; the unique
    index on address and status is never violated. *)
Theorem decision_all_or_nothing regID status by_ reason r w :
  unique reg_clash (registrations (w_db w)) -> In r (registrations (w_db w)) ->
  r_ID r = regID -> r_Status r = RegPending ->
  decision_outcome regID status by_ reason r (w_db w)
    (SetRegistrationDecision regID status by_ reason w).
Proof.
  intros Hu Hin Hid Hp. unfold SetRegistrationDecision. rewrite transaction_cases.
  destruct (faulty w); [by left|].
  unfold find_registration. unfold bind at 1. rewrite query_eq.
  destruct (faulty _); [by left|].
  assert (Hsel : select1 (reg_has_id regID) (registrations (w_db w)) = Some r).
  { apply (select_unique reg_clash); [done..|by apply String.eqb_eq|].
    unfold reg_has_id, reg_clash. intros a b Ha Hb. breflect. by rewrite Ha, Hb, String.eqb_refl. }
  change (registrations (w_db (next w))) with (registrations (w_db w)). rewrite Hsel, Hp. simpl.
  unfold delete_superseded. unfold bind at 1. rewrite exec_eq. destruct (faulty _); [by left|].
  unfold bind at 1. simpl. unfold decide_statement. unfold bind at 1. rewrite statement_eq.
  destruct (faulty _); [by left|]. cbv zeta. simpl.
  fold (decided_rows regID (r_Email r) status (env_now (w_tick w)) by_ reason
          (registrations (w_db w))).
  rewrite (regs_unique_complete _ (decided_rows_unique regID r _ _ _ _ _ Hu Hin Hid)).
  destruct (Nat.eqb_spec (affected (pending_with_id regID)
    (delete_rows (superseded regID (r_Email r) status) (registrations (w_db w)))) 0) as [H0|_].
  { exfalso. rewrite affected_0 in H0. specialize (H0 r).
    unfold pending_with_id, reg_has_id in H0.
    rewrite Hid, Hp, String.eqb_refl in H0. discriminate H0.
    apply in_delete_rows. split; [done|]. unfold superseded. by rewrite Hid, String.eqb_refl. }
  simpl. destruct (faulty _); [by left|]. right. split; [done|]. by eexists.
Qed.

(** ** Approval *)

Lemma provision_recording_ok id email hash w w' :
  provision_recording id email hash w = (Ok tt, w') ->
  env_reply (length (w_trace w)) (ProvisionUpsert email hash) = None
  /\ registrations (w_db w') = registrations (w_db w)
  /\ map standing (users (w_db w')) = map standing (users (w_db w)).
Proof.
  unfold provision_recording, provision_upsert. rewrite bind_attempt. unfold call. simpl.
  destruct (env_reply _ _) eqn:E; simpl.
  - by intros (? & ? & _ & ?)%bind_ok.
  - rewrite ignore_eq. intros H%(f_equal snd). cbn [snd] in H. subst w'. split; [done|].
    unfold UpdateProvisionState, update_user. rewrite exec_eq. destruct (faulty _); [done|].
    simpl. split; [done|]. by apply update_users_kept.
Qed.

Lemma InsertAudit_tables a b c d w :
  users (w_db (snd (InsertAudit a b c d w))) = users (w_db w)
  /\ registrations (w_db (snd (InsertAudit a b c d w))) = registrations (w_db w).
Proof.
  unfold InsertAudit, bind. simpl. rewrite statement_eq. destruct (faulty _); [done|].
  by destruct (insert_row _ _ _).
Qed.

Lemma decided_rows_In regID r status now by_ reason rows :
  In r rows -> r_ID r = regID -> r_Status r = RegPending ->
  In (decide_row status now by_ reason r)
     (decided_rows regID (r_Email r) status now by_ reason rows).
Proof.
  intros Hin Hid Hp. apply in_update_rows. exists r. split.
  - apply in_delete_rows. split; [done|]. unfold superseded. by rewrite Hid, String.eqb_refl.
  - unfold pending_with_id, reg_has_id. rewrite Hid, Hp, String.eqb_refl.
    by rewrite bool_decide_eq_true_2.
Qed.

Lemma GetRegistration_ok id w r w' :
  GetRegistrationByID id w = (Ok r, w') ->
  w' = next w /\ exists r0, In r0 (registrations (w_db w)) /\ r_ID r0 = id
    /\ r_Email r = r_Email r0 /\ r_Status r = r_Status r0.
Proof.
  intros [H ->]%query_ok. split; [done|].
  destruct (select1 _ _) as [r0|] eqn:E; [|done]. injection H as <-.
  apply find_In in E as [Hr Hid]. unfold reg_has_id in Hid. breflect. by exists r0.
Qed.

(** Approval follows provisioning: when [ApproveRegistration] succeeds the
    registration was pending, the mail system accepted the account of the user
    with its address, the registration is now approved by this administrator,
    and that user is active. *)
Theorem approval_follows_provisioning admin regID w w' :
  well_formed (w_db w) -> ApproveRegistration admin regID w = (Ok tt, w') ->
  exists r u r' , In r (registrations (w_db w)) /\ r_ID r = regID /\ r_Status r = RegPending
    /\ In u (users (w_db w)) /\ ur_email u = r_Email r
    /\ env_reply (length (w_trace w)) (ProvisionUpsert (ur_email u) (ur_password_hash u)) = None
    /\ In r' (registrations (w_db w')) /\ r_ID r' = regID /\ r_Status r' = RegApproved
    /\ r_DecidedBy r' = Some admin
    /\ (exists u', In u' (users (w_db w')) /\ ur_id u' = ur_id u)
    /\ (forall u', In u' (users (w_db w')) -> ur_id u' = ur_id u ->
          ur_status u' = UserActive /\ ur_approved_by u' = Some admin).
Proof.
  intros Hwf. unfold ApproveRegistration.
  intros (r0 & w1 & (-> & r & Hr & Hid & He & Hst)%GetRegistration_ok & H)%bind_ok.
  destruct (bool_decide (r_Status r0 = RegPending)) eqn:Hp; [|done]. breflect. simpl in H.
  apply bind_ok in H as (u0 & w2 & Hu & H).
  assert (Hw2 : w2 = next (next w)) by by apply query_ok in Hu as [_ ->].
  apply GetUserByEmail_ok in Hu as (u & Hu & Hue & ->). subst w2.
  apply bind_ok in H as ([] & w3 & Hprov & H).
  assert (Hwf3 : well_formed (w_db w3)).
  { pose proof (provision_recording_refines (ur_id u) (ur_email u) (ur_password_hash u) 0 anydb
      (next (next w)) ltac:(lia) Logic.I) as (_ & Hs & _).
    change (provision_recording (ur_id u) (ur_email u) (ur_password_hash u) (next (next w))
            = (Ok tt, w3)) in Hprov.
    rewrite Hprov in Hs. by apply (rtc_invariant 0 anydb) in Hs as [? _]. }
  apply provision_recording_ok in Hprov as (Hcall & Hreg3 & Hst3).
  apply bind_ok in H as ([] & w4 & Hdec & H).
  assert (Hout : decision_outcome regID RegApproved admin "" r (w_db w3) (Ok tt, w4)).
  { rewrite <- Hdec. apply decision_all_or_nothing; [apply Hwf3|by rewrite Hreg3|done|congruence]. }
  destruct Hout as [[? _]|[_ [now Hw4]]]; [done|]. simpl in Hw4.
  apply bind_ok in H as ([] & w5 & Hup & H).
  apply (f_equal snd) in H. cbn [snd] in H. subst w'.
  match goal with |- context [InsertAudit ?a ?b ?c ?d w5] =>
    destruct (InsertAudit_tables a b c d w5) as [Hau Har] end.
  unfold UpdateUserStatus, bind in Hup. simpl in Hup. unfold update_user in Hup.
  rewrite exec_eq in Hup. destruct (faulty _); [done|].
  apply (f_equal snd) in Hup. cbn [snd] in Hup. subst w5.
  exists r, u, (decide_row RegApproved now admin "" r). rewrite Hau, Har. simpl.
  assert (Hmap : map ur_id (users (w_db w4)) = map ur_id (users (w_db w))).
  { rewrite Hw4. simpl. apply (f_equal (map (fun x => x.1.1.1))) in Hst3.
    by rewrite !map_map in Hst3. }
  split_and!; try done.
  - congruence.
  - by rewrite Hue, He.
  - rewrite Hw4. simpl. rewrite Hreg3. by apply decided_rows_In; [..|congruence].
  - assert (Hin : In (ur_id u) (map ur_id (users (w_db w4)))).
    { rewrite Hmap. by apply in_map. }
    apply in_map_iff in Hin as (x & Hx & Hxin).
    eexists. split; [apply in_update_rows; by exists x|]. by destruct (has_id _ _).
  - intros u' (x & Hx & ->)%in_update_rows. unfold has_id.
    destruct (String.eqb_spec (ur_id x) (ur_id u)) as [Ex|Ex]; [done|]. done.
Qed.
(** ** Rejection *)

Lemma transaction_ok {A} (m : DBM A) w a w' :
  transaction m w = (Ok a, w') -> exists w1, m (next w) = (Ok a, w1) /\ w_db w' = w_db w1.
Proof.
  rewrite transaction_cases. destruct (faulty w); [done|].
  destruct (m (next w)) as [[b|e] w1]; [|done]. destruct (faulty w1); [done|].
  intros [= -> <-]. by exists w1.
Qed.

Lemma decide_statement_ok regID status now by_ reason w n w' :
  decide_statement regID status now by_ reason w = (Ok n, w') ->
  w_db w' = w_db w <| registrations := update_rows (pending_with_id regID)
                        (decide_row status now by_ reason) (registrations (w_db w)) |>.
Proof.
  intros H%statement_ok. cbv zeta in H. destruct (regs_unique _); [|done]. by injection H.
Qed.

(** The three tables an account is removed from. *)
Definition account_removed (id : string) (d d' : Database) : Prop :=
  users d' = delete_rows (has_id id) (users d)
  /\ sessions d' = delete_rows (sess_of_user id) (sessions d)
  /\ reset_tokens d' = delete_rows (fun t => String.eqb (t_UserID t) id) (reset_tokens d).

Definition account_untouched (d d' : Database) : Prop :=
  users d' = users d /\ sessions d' = sessions d /\ reset_tokens d' = reset_tokens d.

Lemma delete_account_ok userID w w' :
  (do! exec (fun d => d <| sessions :=
        delete_rows (fun s => String.eqb (s_UserID s) userID) (sessions d) |>) in
   do! exec (fun d => d <| reset_tokens :=
        delete_rows (fun t => String.eqb (t_UserID t) userID) (reset_tokens d) |>) in
   let! n := statement (fun d => Ok (affected (has_id userID) (users d),
        d <| users := delete_rows (has_id userID) (users d) |>)) in
   if Nat.eqb n 0 then throw ErrNotFound else ret tt) w = (Ok tt, w') ->
  account_removed userID (w_db w) (w_db w') /\ registrations (w_db w') = registrations (w_db w).
Proof.
  intros ([] & w1 & H1%exec_ok & ([] & w2 & H2%exec_ok & (n & w3 & H3%statement_ok & H)%bind_ok
    )%bind_ok)%bind_ok.
  destruct (Nat.eqb n 0); [done|]. injection H as <-. injection H3 as _ H3.
  rewrite <- H3, H2, H1. by split_and!.
Qed.

(** What a rejection removes: when it succeeds the registration was pending
    and is now rejected, with the older rejections of its address gone; if an
    account has that address it was pending, it is the one reported, and it,
    its sessions and its reset tokens are deleted and nobody else's. *)
Theorem rejection_removes_pending_account regID by_ reason w id w' :
  well_formed (w_db w) ->
  RejectRegistrationAndDeletePendingUser regID by_ reason w = (Ok id, w') ->
  exists r now, In r (registrations (w_db w)) /\ r_ID r = regID /\ r_Status r = RegPending
    /\ registrations (w_db w') = decided_rows regID (r_Email r) RegRejected now by_ reason
                                   (registrations (w_db w))
    /\ match user_of_email (r_Email r) (w_db w) with
       | Some u => id = ur_id u /\ ur_status u = UserPending
                   /\ if String.eqb (TrimSpace id) "" then account_untouched (w_db w) (w_db w')
                      else account_removed id (w_db w) (w_db w')
       | None => id = "" /\ account_untouched (w_db w) (w_db w')
       end.
Proof.
  intros Hwf (w0 & H & Hdb)%transaction_ok.
  apply bind_ok in H as ([email st] & w1 & [Hf Hd1]%query_done & H).
  destruct (select1 _ _) as [r|] eqn:Er; [|done]. injection Hf as <- <-.
  apply find_In in Er as [Hr Hid]. unfold reg_has_id in Hid. breflect.
  destruct (bool_decide (r_Status r = RegPending)) eqn:Hp; [|done]. breflect. simpl in H.
  apply bind_ok in H as (u & w2 & [[= Hu] Hd2]%query_done & H).
  apply bind_ok in H as ([] & w3 & Hchk & H). apply bind_ok in H as (now & w4 & Hnow & H).
  assert (Hd4 : w_db w4 = w_db w).
  { injection Hnow as _ <-. simpl.
    assert (w_db w3 = w_db w2) as ->; [|by rewrite Hd2, Hd1].
    destruct u as [x|]; [destruct (negb _); [done|]|]; by injection Hchk as <-. }
  apply bind_ok in H as ([] & w5 & H5%exec_ok & H).
  apply bind_ok in H as (n & w6 & H6%decide_statement_ok & H).
  destruct (Nat.eqb n 0); [done|]. cbv zeta in H.
  apply bind_ok in H as ([] & w7 & H7 & H). injection H as Hid' <-.
  assert (Hreg6 : w_db w6 = w_db w <| registrations :=
            decided_rows regID (r_Email r) RegRejected now by_ reason (registrations (w_db w)) |>).
  { by rewrite H6, H5, Hd4. }
  exists r, now. rewrite Hdb.
  assert (Hu' : user_of_email (r_Email r) (w_db w) = u).
  { rewrite <- Hu, Hd1. done. }
  rewrite Hu'. clear Hu Hu'. destruct u as [x|].
  - destruct (bool_decide (ur_status x = UserPending)) eqn:Hx; [|done]. breflect.
    subst id. destruct (String.eqb (TrimSpace (ur_id x)) "") eqn:Eb; simpl in H7.
    + injection H7 as <-. rewrite Hreg6. by split_and!.
    + apply delete_account_ok in H7 as [Hrem Hreg]. rewrite Hreg, Hreg6.
      rewrite Hreg6 in Hrem. by split_and!.
  - injection H7 as <-. rewrite Hreg6. by split_and!.
Qed.
End RegistrationFacts.

(** ** Examples *)

Definition bob_registration : Registration := sample_registration "reg-2" "bob@example.org".

Lemma decision_all_or_nothing_witness :
  decision_outcome "reg-2" RegApproved "admin-1" "" bob_registration sample_db
    (SetRegistrationDecision "reg-2" RegApproved "admin-1" "" (sample_world sample_db [])).
Proof.
  apply (decision_all_or_nothing "reg-2" RegApproved "admin-1" "" bob_registration
           (sample_world sample_db [])).
  - exact (wf_registrations _ sample_db_wf).
  - left. reflexivity.
  - reflexivity.
  - reflexivity.
Defined.

Lemma approval_follows_provisioning_witness :
  exists r', In r' (registrations (w_db (snd
      (ApproveRegistration "admin-1" "reg-2" (sample_world sample_db [])))))
    /\ r_ID r' = "reg-2" /\ r_Status r' = RegApproved.
Proof.
  assert (Hok : fst (ApproveRegistration "admin-1" "reg-2" (sample_world sample_db [])) = Ok tt)
    by (vm_compute; reflexivity).
  destruct (approval_follows_provisioning _ _ (sample_world sample_db []) _ sample_db_wf
    (pair_of_fst _ _ Hok))
    as (r & u & r' & _ & _ & _ & _ & _ & _ & Hr & Hid & Hs & _).
  exact (ex_intro _ r' (conj Hr (conj Hid Hs))).
Defined.

Lemma rejection_removes_pending_account_witness :
  exists r, In r (registrations sample_db) /\ r_Status r = RegPending.
Proof.
  assert (Hok : is_ok (fst (RejectRegistrationAndDeletePendingUser "reg-2" "admin-1" "no"
                              (sample_world sample_db []))) = true) by (vm_compute; reflexivity).
  destruct (rejection_removes_pending_account "reg-2" "admin-1" "no" (sample_world sample_db [])
    _ _ sample_db_wf (ok_pair _ "" Hok)) as (r & now & Hr & _ & Hs & _).
  exact (ex_intro _ r (conj Hr Hs)).
Defined.

(** Approval is not one transaction.  If the driver fails between the decision
    and the status update, the registration is approved while its user is still
    pending, and since a decided registration cannot be approved again the
    account cannot be activated this way. *)
Lemma approval_can_be_stranded :
  let first := ApproveRegistration "admin-1" "reg-2"
                 (sample_world sample_db [false; false; false; false; false; false; false; false; true]) in
  let again := ApproveRegistration "admin-1" "reg-2" (snd first) in
  fst first = Fail ErrDriver /\ fst again = Fail ErrConflict
  /\ map r_Status (registrations (w_db (snd again))) = [RegApproved]
  /\ map ur_status (users (w_db (snd again))) = [UserActive; UserActive; UserPending].
Proof. vm_compute. by split_and!. Qed.
