(* ===== verification/ResetFacts.v ===== *)
(** * ResetFacts: password reset

    Who may hold a token's reservation, what a confirmed reset establishes,
    what a request reveals, and what is left when consuming the token fails. *)

From S2P Require Import Prelude GoStrings Effects GoStd Models Users Sessions Mfa Host FeatureFlags Identity.
From S2P Require Import Auth Admin Reset Lifecycle StoreRefinement ServiceRefinement Sample Safety AuthFacts.
Local Open Scope Z_scope.

Section ResetFacts.
Context {host : Host} {dep : Deployment}.
Implicit Types (w : World Database).

(** ** Reservations *)

(** The lease in force: a lease that is not positive means thirty seconds. *)
Definition effective_lease (lease : Z) : Z := if lease <=? 0 then 30 * Second else lease.

Lemma update_tokens_ok p f w n w' :
  update_tokens p f w = (Ok n, w') ->
  n = affected p (reset_tokens (w_db w))
  /\ w_db w' = w_db w <| reset_tokens := update_rows p f (reset_tokens (w_db w)) |>.
Proof. intros H%statement_ok. by injection H as <- <-. Qed.

Lemma getToken_ok h w t w' :
  getPasswordResetTokenByHash h w = (Ok t, w') ->
  w_db w' = w_db w /\ exists t0, In t0 (reset_tokens (w_db w)) /\ t_TokenHash t0 = h
    /\ t = scan_token t0.
Proof.
  intros [H Hw]%query_done. split; [done|].
  destruct (select1 _ _) as [t0|] eqn:E; [|done]. injection H as <-.
  apply find_In in E as [Hin Hh]. unfold tok_has_hash in Hh. breflect. eauto.
Qed.

Lemma Reserve_ok h r lease w t w' :
  ReservePasswordResetToken h r lease w = (Ok t, w') ->
  let now := env_now (w_tick w) in
  exists t0, In t0 (reset_tokens (w_db w))
    /\ reservable h now (now - effective_lease lease) t0 = true
    /\ w_tick w' = S (w_tick w)
    /\ w_db w' = w_db w <| reset_tokens :=
         update_rows (reservable h now (now - effective_lease lease))
           (mark_reserved now (TrimSpace r)) (reset_tokens (w_db w)) |>
    /\ exists t1, In t1 (reset_tokens (w_db w')) /\ t_TokenHash t1 = h /\ t = scan_token t1.
Proof.
  unfold ReservePasswordResetToken. destruct (String.eqb _ _); [done|].
  intros (now & w1 & [= <- <-] & H)%bind_ok. cbv zeta in H.
  apply bind_ok in H as (n & w2 & Hu & H).
  assert (Ht2 : w_tick w2 = S (w_tick w)).
  { unfold update_tokens in Hu. rewrite statement_eq in Hu. destruct (faulty _); [done|].
    by injection Hu as _ <-. }
  apply update_tokens_ok in Hu as [-> Hdb]. simpl in Hdb.
  fold (effective_lease lease) in H, Hdb.
  destruct (Nat.eqb (affected _ _) 1) eqn:Hn; [|done]. simpl in H. apply Nat.eqb_eq in Hn.
  assert (Hne : affected (reservable h (env_now (w_tick w))
    (env_now (w_tick w) - effective_lease lease)) (reset_tokens (w_db w)) <> 0%nat).
  { simpl in Hn. rewrite Hn. done. }
  apply affected_pos in Hne as (t0 & Hin & Hr).
  assert (Ht' : w_tick w' = w_tick w2).
  { unfold getPasswordResetTokenByHash in H. rewrite query_eq in H.
    destruct (faulty _); [done|]. by injection H as _ <-. }
  apply getToken_ok in H as (Hdb' & t1 & ? & ? & ?).
  exists t0. split_and!; [done..|congruence|congruence|]. exists t1. by rewrite Hdb'.
Qed.

Lemma reservable_inv h now stale t :
  reservable h now stale t = true ->
  t_TokenHash t = h /\ t_UsedAt t = None /\ now < t_ExpiresAt t
  /\ (forall at_, t_ReservedAt t = Some at_ -> at_ <= stale).
Proof.
  unfold reservable, tok_has_hash, unused. intros H. breflect. split_and!; try done.
  - by destruct (t_UsedAt t).
  - intros at_ Hat. rewrite Hat in *. lia.
Qed.

Lemma same_token rows t t' :
  unique token_clash rows -> In t rows -> In t' rows -> t_TokenHash t = t_TokenHash t' -> t = t'.
Proof.
  intros Hu Ht Ht' He. apply (unique_eq token_clash rows); [done..| |];
    unfold token_clash; rewrite He, String.eqb_refl; apply orb_true_r.
Qed.

(** A reservation is exclusive: when one is granted the token was unused,
    unexpired and not under a live reservation, and until the lease another
    request asks for has run out since, that request is refused. *)
Theorem reservation_excludes h r lease w t w1 :
  well_formed (w_db w) -> ReservePasswordResetToken h r lease w = (Ok t, w1) ->
  (exists t0, In t0 (reset_tokens (w_db w)) /\ t_TokenHash t0 = h /\ t_UsedAt t0 = None
     /\ env_now (w_tick w) < t_ExpiresAt t0)
  /\ (forall r2 lease2, env_now (w_tick w1) < env_now (w_tick w) + effective_lease lease2 ->
        is_ok (fst (ReservePasswordResetToken h r2 lease2 w1)) = false).
Proof.
  intros Hwf H. pose proof (Reserve_ok _ _ _ _ _ _ H) as (t0 & Hin & Hr & _ & Hdb & _).
  destruct (reservable_inv _ _ _ _ Hr) as (Hh & Hused & Hexp & _).
  split; [by exists t0|]. intros r2 lease2 Hlease.
  destruct (ReservePasswordResetToken h r2 lease2 w1) as [[t2|e] w2] eqn:E; [|done]. exfalso.
  apply Reserve_ok in E as (t3 & Hin3 & Hr3 & _).
  apply reservable_inv in Hr3 as (Hh3 & _ & _ & Hstale). rewrite Hdb in Hin3. simpl in Hin3.
  apply in_update_rows in Hin3 as (t4 & Hin4 & ->).
  assert (t4 = t0) as ->.
  { apply (same_token (reset_tokens (w_db w))); [apply Hwf|done..|]. rewrite Hh, <- Hh3.
    by destruct (reservable _ _ _ t4). }
  rewrite Hr in Hstale. specialize (Hstale _ eq_refl). lia.
Qed.
(** ** The new password *)

Definition login_hash (r : UserRow) : string * string := (ur_id r, ur_password_hash r).

(** Every row of this user has this hash. *)
Definition has_hash (id h : string) (d : Database) : Prop :=
  forall r, In r (users d) -> ur_id r = id -> ur_password_hash r = h.

Lemma has_hash_column id h d :
  has_hash id h d <-> forall p, In p (map login_hash (users d)) -> fst p = id -> snd p = h.
Proof.
  split.
  - intros H p Hp Hid. apply in_map_iff in Hp as (r & <- & Hr). by apply H.
  - intros H r Hr Hid. by apply (H (login_hash r)); [apply in_map|].
Qed.

Lemma keeps_hash {A} (m : DBM A) id h w :
  (forall D, spec (column_kept login_hash) 0 D m any) ->
  has_hash id h (w_db w) -> has_hash id h (w_db (snd (m w))).
Proof.
  intros Hm. destruct (Hm anydb w ltac:(lia) Logic.I) as (_ & Hs & _).
  apply column_rtc in Hs. rewrite !has_hash_column. by rewrite Hs.
Qed.

Lemma keeps_hash_ok {A} (m : DBM A) id h w r w' :
  m w = (r, w') -> (forall D, spec (column_kept login_hash) 0 D m any) ->
  has_hash id h (w_db w) -> has_hash id h (w_db w').
Proof. intros He Hm. pose proof (keeps_hash m id h w Hm) as Hk. by rewrite He in Hk. Qed.

Ltac hash_kept :=
  intros; first [apply spec_exec_any | apply spec_statement];
  repeat match goal with
         | |- forall _, _ => intros ?
         | H : Ok _ = Ok _ |- _ => injection H as ?; subst
         | |- _ /\ any _ _ => split; [|done]
         end;
  apply rtc_once; unfold column_kept; simpl; rewrite ?update_users_kept by done; done.

Lemma after_password_change_keeps u id pw h D :
  spec (column_kept login_hash) 0 D (after_password_change u id pw h) any.
Proof.
  unfold after_password_change, EncryptString, UpsertUserMailSecret, provision_recording,
    provision_upsert, UpdateProvisionState, update_user, RevokeUserSessions, update_sessions,
    RevokeAllMFATrustedDevices.
  spec_walk; hash_kept.
Qed.

Lemma consume_keeps h r D :
  spec (column_kept login_hash) 0 D (consumeReservedPasswordResetToken h r) any.
Proof.
  unfold consumeReservedPasswordResetToken, ConsumeReservedPasswordResetToken,
    InvalidatePasswordResetToken, getPasswordResetTokenByHash, update_tokens.
  spec_walk; hash_kept.
Qed.

Lemma Release_keeps h r D :
  spec (column_kept login_hash) 0 D (ReleasePasswordResetTokenReservation h r) any.
Proof. unfold ReleasePasswordResetTokenReservation, update_tokens. spec_walk; hash_kept. Qed.

Lemma UpdateUserPasswordHash_ok id h w w' :
  UpdateUserPasswordHash id h w = (Ok tt, w') -> has_hash id h (w_db w').
Proof.
  intros H%exec_ok. rewrite H. intros r Hr Hid. apply in_update_rows in Hr as (r0 & _ & ->).
  unfold has_id in *. by destruct (String.eqb_spec (ur_id r0) id).
Qed.

(** A hash [HashPassword] may have produced for this password. *)
Definition hash_of (pw h : string) : Prop :=
  exists salt, h = encode_hash (bytes salt) (argon2_IDKey pw (bytes salt)
                     argonIterations argonMemory argonParallelism argonKeyLen).

Lemma confirm_reserved_ok t h r pw w rel w' :
  confirm_reserved t h r pw w = (Ok (Ok tt, rel), w') ->
  exists e, hash_of pw e /\ has_hash (t_UserID t) e (w_db w').
Proof.
  unfold confirm_reserved. rewrite bind_attempt.
  destruct (GetUserByID _ w) as [[u|e] w1]; [|done]. cbn [fst snd]. rewrite bind_attempt.
  match goal with |- context [fst (?m w1)] => destruct (m w1) as [[release|e] w2] end;
    cbn [fst snd]; [|done]. rewrite bind_attempt.
  match goal with |- context [fst (?m w2)] => destruct (m w2) as [[e|er] w3] eqn:Eh end;
    cbn [fst snd]; [|done].
  apply bind_ok in Eh as (e' & w4 & Eh & Eu). apply bind_ok in Eu as ([] & w5 & Eu & [= <- <-]).
  apply bind_ok in Eh as (salt & w6 & _ & [= <- <-]).
  apply UpdateUserPasswordHash_ok in Eu.
  rewrite bind_attempt.
  match goal with |- context [fst (?m w5)] => destruct (m w5) as [[[]|er] w7] eqn:Ec end;
    cbn [fst snd]; [|done].
  intros ([] & w8 & E8 & [= _ <-])%bind_ok.
  eexists. split; [by eexists|].
  eapply keeps_hash_ok; [exact E8|intros; apply after_password_change_keeps|].
  eapply keeps_hash_ok; [exact Ec|intros; apply spec_when, consume_keeps|exact Eu].
Qed.

Lemma reads_keep {A} (m : DBM A) w r w' :
  m w = (r, w') -> (forall D, spec (fun _ _ => False) 0 D m any) -> w_db w' = w_db w.
Proof.
  intros He Hm. destruct (Hm anydb w ltac:(lia) Logic.I) as (_ & Hs & _).
  apply rtc_nothing in Hs. by rewrite He in Hs.
Qed.

Lemma reset_flag_reads step k D : spec step k D PublicPasswordResetEnabled any.
Proof.
  unfold PublicPasswordResetEnabled, FeatureFlagEnabled, resolveFeatureFlagState, DefaultValue.
  spec_walk.
Qed.

Lemma hash_of_verifies pw h : argon2_lengths -> hash_of pw h -> VerifyPassword h pw = true.
Proof.
  intros Ha (salt & ->). destruct (Ha pw (bytes salt) argonIterations argonMemory
    argonParallelism argonKeyLen) as [Hb Hl]; [done|].
  rewrite VerifyPassword_encoded by (done || apply bytes_is_bytes). rewrite Hl.
  by apply bool_decide_eq_true_2.
Qed.

(** C32. What a confirmed reset establishes, under every fault schedule: the
    token existed, unused and unexpired, the new password meets the policy, and
    it is now the password of the token's owner. *)
Theorem confirmed_reset_sets_password raw pw w w1 :
  argon2_lengths -> unique token_clash (reset_tokens (w_db w)) ->
  ConfirmPasswordReset raw pw w = (Ok tt, w1) ->
  ValidatePassword pw = Ok tt
  /\ exists t n, In t (reset_tokens (w_db w)) /\ t_TokenHash t = sha256_hex raw
     /\ t_UsedAt t = None /\ env_now n < t_ExpiresAt t
     /\ forall r, In r (users (w_db w1)) -> ur_id r = t_UserID t ->
          VerifyPassword (ur_password_hash r) pw = true.
Proof.
  intros Harg Huniq. unfold ConfirmPasswordReset. rewrite bind_attempt.
  destruct (PublicPasswordResetEnabled w) as [[[]|e] w2] eqn:Ef; cbn [fst snd]; try done.
  apply reads_keep in Ef; [|intros; apply reset_flag_reads].
  intros ([] & w3 & Hv & H)%bind_ok. unfold of_res in Hv. injection Hv as Hv <-.
  split; [done|]. cbv zeta in H. apply bind_ok in H as (rid & w4 & Hrid & H).
  assert (H4 : w_db w4 = w_db w) by (injection Hrid as _ <-; exact Ef).
  rewrite bind_attempt in H.
  destruct (ReservePasswordResetToken _ _ _ w4) as [[t|e] w5] eqn:Er; cbn [fst snd] in H; [|done].
  apply Reserve_ok in Er as (t0 & Hin & Hr & _ & Hdb & t1 & Hin1 & Hh1 & Ht).
  apply reservable_inv in Hr as Hinv. destruct Hinv as (Hh & Hused & Hexp & _).
  apply bind_ok in H as ([res rel] & w6 & Hc & H). apply bind_ok in H as ([] & w7 & Hrel & H).
  destruct res as [[]|e]; [|done]. injection H as <-.
  apply confirm_reserved_ok in Hc as (e & Hof & Hhash).
  assert (Hown : t_UserID t = t_UserID t0).
  { rewrite Ht, Hdb in *. apply in_update_rows in Hin1 as (t2 & Hin2 & ->).
    assert (t2 = t0) as ->; [|by destruct (reservable _ _ _ t0)].
    apply (same_token (reset_tokens (w_db w4))); [by rewrite H4|done..|].
    rewrite Hh, <- Hh1. by destruct (reservable _ _ _ t2). }
  rewrite <- H4. exists t0, (w_tick w4). split_and!; [done..|].
  intros r Hin' Hid. rewrite <- Hown in Hid.
  enough (has_hash (t_UserID t) e (w_db w7)) as Hk.
  { rewrite (Hk r Hin' Hid). by apply hash_of_verifies. }
  eapply keeps_hash_ok; [exact Hrel| |exact Hhash].
  intros. apply spec_when, spec_ignore, Release_keeps.
Qed.
(** ** What a request reveals *)

(** The account a reset request for this address goes to. *)
Definition reset_account (email : string) (d : Database) : option User :=
  match select1 (has_email email) (users d) with
  | Some r => Some (scanUserCore r)
  | None => match GetUserByRecoveryEmail email (mkWorld d [] 0 0 []) with
            | (Ok u, _) => Some u
            | (Fail _, _) => None
            end
  end.

Lemma GetUserByRecoveryEmail_run email w :
  w_faults w = [] ->
  exists r, GetUserByRecoveryEmail email w = (r, w)
    /\ fst (GetUserByRecoveryEmail email (mkWorld (w_db w) [] 0 0 [])) = r
    /\ match r with Ok _ => True | Fail e => e = ErrNotFound \/ e = ErrConflict end.
Proof.
  intros Hf. unfold GetUserByRecoveryEmail. cbv zeta.
  destruct (String.eqb _ _).
  { exists (Fail ErrNotFound). split_and!; [done..|by left]. }
  rewrite !query_run by done. eexists. split_and!; [done..|].
  simpl. destruct (take 2 _) as [|r [|r' l]]; auto.
Qed.

Lemma find_reset_user_run email w :
  w_faults w = [] -> find_reset_user email w = (Ok (reset_account email (w_db w)), w).
Proof.
  intros Hf. unfold find_reset_user, reset_account, GetUserByEmail. cbv zeta.
  rewrite bind_attempt, query_run by done. cbn [fst snd].
  destruct (select1 _ _) as [r|]; [done|]. simpl. rewrite bind_attempt.
  destruct (GetUserByRecoveryEmail_run email w Hf) as (r & -> & Hr & He). cbn [fst snd].
  destruct (GetUserByRecoveryEmail email _) as [r' w']. simpl in Hr. subst r'.
  destruct r as [u|e]; [done|]. by destruct He as [-> | ->].
Qed.

Lemma resolve_flag_calm def : calm (resolveFeatureFlagState def).
Proof. unfold resolveFeatureFlagState, DefaultValue, GetSetting. calm_walk. Qed.

Lemma reset_flag_calm : calm PublicPasswordResetEnabled.
Proof.
  unfold PublicPasswordResetEnabled, FeatureFlagEnabled. calm_walk. apply resolve_flag_calm.
Qed.

Lemma sender_calm : calm EnsurePasswordResetSenderIdentity.
Proof.
  unfold EnsurePasswordResetSenderIdentity, persisted, persistPasswordResetSenderState,
    probePasswordResetSenderTransport, provision_upsert, NewOpaqueToken, HashPassword, UpsertSetting,
    GetSetting.
  calm_walk.
Qed.

Lemma capabilities_calm : calm PasswordResetCapabilities.
Proof.
  unfold PasswordResetCapabilities, passwordResetSenderState, probePasswordResetSenderTransport,
    GetSetting.
  apply calm_bind; [apply calm_attempt, reset_flag_calm|]. calm_walk.
Qed.

Lemma sender_keeps_users D :
  spec (column_kept (fun r => r)) 0 D EnsurePasswordResetSenderIdentity any.
Proof.
  unfold EnsurePasswordResetSenderIdentity, persisted, persistPasswordResetSenderState,
    probePasswordResetSenderTransport, provision_upsert, NewOpaqueToken, HashPassword, UpsertSetting,
    GetSetting.
  spec_walk; hash_kept.
Qed.

Lemma capabilities_read D : spec (fun _ _ => False) 0 D PasswordResetCapabilities any.
Proof.
  unfold PasswordResetCapabilities, passwordResetSenderState, probePasswordResetSenderTransport.
  apply spec_seq; [apply spec_attempt_any, reset_flag_reads|]. spec_walk.
Qed.

(** C33. A reset request does not reveal accounts: for an address that names no
    account, or several, or one without a usable recovery address, the request
    behaves exactly as it does for a blank address: same answer, same database,
    same calls to the outside, same readings of the clock and of the random
    sources. *)
Theorem reset_request_reveals_nothing email w :
  w_faults w = [] ->
  match reset_account (fold_trim email) (w_db w) with
  | Some u => RecoveryEmailNeedsSetup (u_Email u) (u_RecoveryEmail u) = true
  | None => True
  end ->
  RequestPasswordReset email w = RequestPasswordReset "" w.
Proof.
  intros Hf Hacc. unfold RequestPasswordReset. rewrite !bind_attempt.
  pose proof (reset_flag_calm w Hf) as Hf1.
  destruct (PublicPasswordResetEnabled w) as [[[]|e] w1] eqn:E1; cbn [fst snd] in *; try done.
  apply reads_keep in E1; [|intros; apply reset_flag_reads].
  rewrite !bind_attempt. pose proof (sender_calm w1 Hf1) as Hf2.
  destruct (sender_keeps_users anydb w1 ltac:(lia) Logic.I) as (_ & Hu & _).
  destruct (EnsurePasswordResetSenderIdentity w1) as [[st|e] w2] eqn:E2; cbn [fst snd] in *; [|done].
  apply column_rtc in Hu. rewrite !map_id in Hu.
  destruct (rs_Ready st); [|done]. cbn [negb].
  pose proof (capabilities_calm w2 Hf2) as Hf3.
  destruct (PasswordResetCapabilities w2) as [[caps|e] w3] eqn:E3; cbn [snd] in *;
    [rewrite !(bind_eq _ _ _ _ _ E3)|by rewrite !(bind_fail _ _ _ _ _ E3)].
  apply reads_keep in E3; [|intros; apply capabilities_read].
  destruct (pc_SelfServiceEnabled caps); [|done]. cbn [negb].
  change (fold_trim "") with "". cbv zeta. cbn [String.eqb].
  destruct (String.eqb (fold_trim email) ""); [done|].
  rewrite (bind_eq _ _ _ _ _ (find_reset_user_run _ _ Hf3)).
  assert (Hsame : reset_account (fold_trim email) (w_db w3)
                  = reset_account (fold_trim email) (w_db w)).
  { unfold reset_account, GetUserByRecoveryEmail. cbv zeta.
    rewrite E3, Hu, E1. destruct (select1 _ _); [done|].
    destruct (String.eqb _ _); [done|]. rewrite !query_run by done. simpl. by rewrite Hu, E1. }
  rewrite Hsame. destruct (reset_account _ _) as [u|]; [|done]. by rewrite Hacc.
Qed.
(** ** The sessions and devices of an account whose password changed *)

Definition signed_out (id : string) (d : Database) : Prop :=
  (forall s, In s (sessions d) -> s_UserID s = id -> s_RevokedAt s <> None)
  /\ (forall x, In x (trusted_devices d) -> td_UserID x = id -> td_RevokedAt x <> None).

Lemma revoked_after_update id now rows s :
  In s (update_rows (live_of_user id) (fun s => s <| s_RevokedAt := Some now |>) rows) ->
  s_UserID s = id -> s_RevokedAt s <> None.
Proof.
  intros (s0 & _ & ->)%in_update_rows. unfold live_of_user, sess_of_user.
  destruct (String.eqb_spec (s_UserID s0) id) as [He|Hne], (s_RevokedAt s0) eqn:Er;
    simpl; congruence.
Qed.

Lemma device_revoked_after_update id now rows x :
  In x (update_rows (fun x => dev_of id x && dev_live x)
          (fun x => x <| td_RevokedAt := Some now |>) rows) ->
  td_UserID x = id -> td_RevokedAt x <> None.
Proof.
  intros (x0 & _ & ->)%in_update_rows. unfold dev_of, dev_live.
  destruct (String.eqb_spec (td_UserID x0) id) as [He|Hne], (td_RevokedAt x0) eqn:Er;
    simpl; congruence.
Qed.

(** The last two steps, without faults. *)
Lemma revoke_both_run id w :
  w_faults w = [] ->
  signed_out id (w_db (snd ((do! ignore (RevokeUserSessions id) in
                             ignore (RevokeAllMFATrustedDevices id)) w))).
Proof.
  intros Hf. unfold bind. rewrite !ignore_eq. cbn [snd].
  unfold RevokeUserSessions, RevokeAllMFATrustedDevices, update_sessions, bind. cbn.
  rewrite (exec_run _ (w <| w_tick := S (w_tick w) |>)) by exact Hf. cbn.
  rewrite exec_run by exact Hf. cbn. split.
  - intros s. apply revoked_after_update.
  - intros x. apply device_revoked_after_update.
Qed.

Lemma after_password_change_signs_out u id pw h w :
  w_faults w = [] -> signed_out id (w_db (snd (after_password_change u id pw h w))).
Proof.
  intros Hf. unfold after_password_change. rewrite bind_attempt.
  pose proof (calm_bind rand_Read (fun n => ret (gcm_seal n pw)) calm_rand
                (fun n => calm_ret _) w Hf) as Hf1.
  fold (EncryptString pw) in Hf1.
  destruct (EncryptString pw w) as [r w1]. cbn [fst snd] in *.
  match goal with |- context [bind ?m ?k w1] =>
    assert (Hm : calm m) by (unfold UpsertUserMailSecret, update_user; calm_walk);
    assert (Ho : exists w2, m w1 = (Ok tt, w2)) end.
  { destruct r; [rewrite ignore_eq|]; eauto. }
  destruct Ho as [w2 Ho]. pose proof (Hm w1 Hf1) as Hf2. rewrite Ho in Hf2.
  rewrite (bind_eq _ _ _ _ _ Ho).
  match goal with |- context [bind (when ?b ?m) ?k w2] =>
    assert (Hm3 : calm (when b m)) by (unfold provision_recording, provision_upsert,
      UpdateProvisionState, update_user; calm_walk);
    assert (Ho3 : exists w3, when b m w2 = (Ok tt, w3)) end.
  { destruct usesPAMAuth; simpl; [eauto|rewrite ignore_eq; eauto]. }
  destruct Ho3 as [w3 Ho3]. pose proof (Hm3 w2 Hf2) as Hf3. rewrite Ho3 in Hf3.
  rewrite (bind_eq _ _ _ _ _ Ho3). by apply revoke_both_run.
Qed.

(** Effects of a reset by an administrator, when the driver does not fail:
    the new password meets the policy and is the account's password, no
    session of the account is live and no device of it is trusted. *)
Theorem admin_reset_effects admin id pw w w1 :
  argon2_lengths -> w_faults w = [] -> AdminResetPassword admin id pw w = (Ok tt, w1) ->
  ValidatePassword pw = Ok tt /\ signed_out id (w_db w1)
  /\ forall r, In r (users (w_db w1)) -> ur_id r = id ->
       VerifyPassword (ur_password_hash r) pw = true.
Proof.
  intros Harg Hf. unfold AdminResetPassword.
  intros ([] & w2 & Hv & (u & w3 & Hu & H)%bind_ok)%bind_ok.
  unfold of_res in Hv. injection Hv as Hv <-. split; [done|].
  assert (Hf3 : w_faults w3 = []).
  { pose proof (calm_query (fun d => match select1 (has_id id) (users d) with
      | Some r => Ok (scanUserCore r) | None => Fail ErrNotFound end) w Hf) as Hc.
    unfold GetUserByID in Hu. by rewrite Hu in Hc. }
  apply bind_ok in H as ([] & w4 & Hpam & H).
  assert (Hf4 : w_faults w4 = []).
  { pose proof (calm_when usesPAMAuth (resetPasswordViaPAM u pw)
      ltac:(unfold resetPasswordViaPAM; calm_walk) w3 Hf3) as Hc. by rewrite Hpam in Hc. }
  apply bind_ok in H as (h & w5 & (salt & w6 & Hsalt & [= <- <-])%bind_ok & H).
  assert (Hf6 : w_faults w6 = []).
  { pose proof (calm_rand w4 Hf4) as Hc. by rewrite Hsalt in Hc. }
  apply bind_ok in H as ([] & w7 & Hup & H).
  assert (Hf7 : w_faults w7 = []).
  { unfold UpdateUserPasswordHash, update_user in Hup.
    match type of Hup with exec ?f _ = _ => pose proof (calm_exec f w6 Hf6) as Hc end.
    by rewrite Hup in Hc. }
  apply UpdateUserPasswordHash_ok in Hup.
  apply bind_ok in H as ([] & w8 & Hafter & H).
  match type of Hafter with after_password_change ?a ?b ?c ?d _ = _ =>
    pose proof (after_password_change_signs_out a b c d w7 Hf7) as Hso;
    pose proof (keeps_hash_ok _ _ _ _ _ _ Hafter
      (fun D => after_password_change_keeps a b c d D) Hup) as Hk end.
  rewrite Hafter in Hso. cbn [snd] in Hso.
  assert (Ht : users (w_db w1) = users (w_db w8) /\ sessions (w_db w1) = sessions (w_db w8)
               /\ trusted_devices (w_db w1) = trusted_devices (w_db w8)).
  { apply (f_equal snd) in H. cbn [snd] in H. subst w1. unfold InsertAudit, bind. simpl.
    rewrite statement_eq. destruct (faulty _); [done|]. by destruct (insert_row _ _ _). }
  destruct Ht as (Hus & Hss & Hds). unfold signed_out. rewrite Hus, Hss, Hds. split; [done|].
  intros r Hr Hid. rewrite (Hk r Hr Hid). apply hash_of_verifies; [done|]. by eexists.
Qed.
End ResetFacts.

(** ** Examples *)

Lemma reservation_excludes_witness :
  let p := ReservePasswordResetToken (sha256_hex "alice's reset token") "r1" 0
             (sample_world sample_db []) in
  is_ok (fst (ReservePasswordResetToken (sha256_hex "alice's reset token") "r2" 0 (snd p))) = false.
Proof.
  intros p.
  assert (Hok : is_ok (fst (ReservePasswordResetToken (sha256_hex "alice's reset token") "r1" 0
             (sample_world sample_db []))) = true) by (vm_compute; reflexivity).
  assert (Hlt : bool_decide (env_now (w_tick (snd p)) < env_now 0 + effective_lease 0) = true)
    by (vm_compute; reflexivity).
  destruct (reservation_excludes _ _ _ (sample_world sample_db []) _ _ sample_db_wf
    (ok_pair _ (sample_token "" "" "") Hok)) as [_ H].
  exact (H "r2" 0 (bool_decide_eq_true_1 _ Hlt)).
Defined.

Lemma confirmed_reset_sets_password_witness :
  exists t, In t (reset_tokens sample_db)
            /\ t_TokenHash t = sha256_hex "alice's reset token" /\ t_UsedAt t = None.
Proof.
  assert (Hok : fst (ConfirmPasswordReset "alice's reset token" "New-Horse-123"
                  (sample_world sample_db [])) = Ok tt) by (vm_compute; reflexivity).
  destruct (confirmed_reset_sets_password _ _ (sample_world sample_db []) _ sample_argon2_lengths
    (wf_tokens _ sample_db_wf) (pair_of_fst _ _ Hok)) as (_ & t & n & Hin & Hh & Hu & _).
  exact (ex_intro _ t (conj Hin (conj Hh Hu))).
Defined.

Lemma reset_request_reveals_nothing_witness :
  RequestPasswordReset "nobody@example.org" (sample_world sample_db [])
  = RequestPasswordReset "" (sample_world sample_db []).
Proof.
  apply reset_request_reveals_nothing; [reflexivity|].
  assert (H : reset_account (fold_trim "nobody@example.org") sample_db = None)
    by (vm_compute; reflexivity).
  change (w_db (sample_world sample_db [])) with sample_db. rewrite H. exact I.
Defined.

Lemma admin_reset_effects_witness :
  signed_out "user-1" (w_db (snd (AdminResetPassword "admin-1" "user-1" "New-Horse-123"
                                    (sample_world sample_db [])))).
Proof.
  assert (Hok : fst (AdminResetPassword "admin-1" "user-1" "New-Horse-123"
                  (sample_world sample_db [])) = Ok tt) by (vm_compute; reflexivity).
  destruct (admin_reset_effects _ _ _ (sample_world sample_db []) _ sample_argon2_lengths
    eq_refl (pair_of_fst _ _ Hok)) as (_ & H & _).
  exact H.
Defined.

(** Under SQL authentication the password changes before the token is
    consumed.  If consuming it fails the caller gets an error although the
    password has changed, and the sessions of the account stay live. *)
Lemma failed_confirmation_changes_password :
  let w1 := snd (ConfirmPasswordReset "alice's reset token" "New-Horse-123"
                   (sample_world sample_db [false; false; false; false; false; true])) in
  fst (ConfirmPasswordReset "alice's reset token" "New-Horse-123"
         (sample_world sample_db [false; false; false; false; false; true])) = Fail ErrDriver
  /\ map (fun r => VerifyPassword (ur_password_hash r) "New-Horse-123") (users (w_db w1))
     = [false; true; false]
  /\ map s_RevokedAt (sessions (w_db w1)) = [None; None].
Proof. vm_compute. by split_and!. Qed.
