(* ===== verification/ServiceFacts.v ===== *)
(** * ServiceFacts: counters, listings, flags, stored passwords and accounts *)

From S2P Require Import Prelude GoStrings Effects GoStd Models Users Sessions Mfa MailAccounts Host.
From S2P Require Import FeatureFlags Identity Auth Admin Lifecycle StoreRefinement ServiceRefinement Sample.
From S2P Require Import Safety AuthFacts MfaFacts.
Local Open Scope Z_scope.

Section StoreFacts.
Context {host : Host} {dep : Deployment}.
Implicit Types (w : World Database).

(** ** Rate counters *)

(** Requests counted in a window so far. *)
Definition counted (key route : string) (windowStart : Z) (d : Database) : Z :=
  match select1 (rate_key key route windowStart) (rate_events d) with
  | Some r => re_Count r
  | None => 0
  end.

Lemma rate_key_other key route ws key' route' ws' r :
  rate_key key route ws r = true -> (key', route', ws') <> (key, route, ws) ->
  rate_key key' route' ws' r = false.
Proof.
  unfold rate_key. intros H Hne. apply not_true_iff_false. intros H'. breflect. congruence.
Qed.

Lemma upsert_rate_counted r rows rows' key route ws :
  upsert_rate r rows = Ok rows' -> re_Count r = 1 ->
  let count rs := match select1 (rate_key key route ws) rs with
                  | Some r => re_Count r | None => 0 end in
  count rows' = if bool_decide ((key, route, ws) = (re_Key r, re_Route r, re_WindowStart r))
                then count rows + 1 else count rows.
Proof.
  unfold upsert_rate. cbv zeta. set (mine := rate_key (re_Key r) (re_Route r) (re_WindowStart r)).
  destruct (existsb mine rows) eqn:Ex.
  - intros [= <-] _. rewrite select1_update by done.
    case_bool_decide as Hk.
    + injection Hk as -> -> ->. fold mine.
      destruct (select1 mine rows) as [x|] eqn:Es; simpl.
      * apply find_In in Es as [_ ->]. done.
      * exfalso. apply existsb_exists in Ex as (x & Hx & Hm).
        rewrite (proj1 (find_none_iff _ _) Es x Hx) in Hm. done.
    + destruct (select1 (rate_key key route ws) rows) as [x|] eqn:Es; simpl; [|done].
      apply find_In in Es as [_ Hx]. unfold mine.
      by rewrite (rate_key_other _ _ _ _ _ _ _ Hx) by congruence.
  - intros [-> _]%insert_row_ok Hc. rewrite select1_app.
    case_bool_decide as Hk.
    + injection Hk as -> -> ->. fold mine.
      assert (Hn : select1 mine rows = None).
      { apply find_none_iff. intros x Hx. destruct (mine x) eqn:Em; [|done].
        rewrite <- Ex. symmetry. apply existsb_exists. eauto. }
      rewrite Hn. unfold mine, rate_key. rewrite !String.eqb_refl, Z.eqb_refl. simpl.
      by rewrite Hc.
    + destruct (select1 (rate_key key route ws) rows); [done|].
      destruct (rate_key key route ws r) eqn:Er; [|done].
      exfalso. apply Hk. unfold rate_key in Er. breflect. congruence.
Qed.

(** The rate counter counts: [IncrementRateEvent] answers one more than
    what its window had counted, that is what the window has counted
    afterwards, and no other window changes. *)
Theorem rate_counter_counts key route ws w n w1 :
  IncrementRateEvent key route ws w = (Ok n, w1) ->
  n = counted key route ws (w_db w) + 1
  /\ counted key route ws (w_db w1) = n
  /\ (forall key' route' ws', (key', route', ws') <> (key, route, ws) ->
        counted key' route' ws' (w_db w1) = counted key' route' ws' (w_db w)).
Proof.
  unfold IncrementRateEvent.
  intros (now & w2 & [= <- <-] & H)%bind_ok. apply bind_ok in H as (id & w3 & [= <- <-] & H).
  apply bind_ok in H as ([] & w4 & Hs%statement_ok & [Hq Hdb]%query_done). simpl in Hs.
  destruct (upsert_rate _ _) as [rows|] eqn:Eu; [|done]. injection Hs as Hs.
  unfold counted. rewrite Hdb, <- Hs in *. simpl in *.
  pose proof (upsert_rate_counted _ _ _ key route ws Eu eq_refl) as Hc. cbv zeta in Hc.
  rewrite bool_decide_eq_true_2 in Hc by done.
  destruct (select1 _ rows) as [x|] eqn:Ex; [|done]. injection Hq as <-.
  split_and!; [done|done|]. intros key' route' ws' Hne.
  pose proof (upsert_rate_counted _ _ _ key' route' ws' Eu eq_refl) as Hc'. cbv zeta in Hc'.
  by rewrite bool_decide_eq_false_2 in Hc' by done.
Qed.

(** ** Listings *)

Lemma length_insert_by {R} (leb : R -> R -> bool) x rows :
  length (insert_by leb x rows) = S (length rows).
Proof. induction rows as [|y rows IH]; simpl; [done|]. destruct (leb x y); simpl; by rewrite ?IH. Qed.

Lemma length_order_by {R} (leb : R -> R -> bool) rows : length (order_by leb rows) = length rows.
Proof.
  unfold order_by. induction rows as [|x rows IH]; simpl; [done|]. by rewrite length_insert_by, IH.
Qed.

Lemma clampLimit_bounds n : 1 <= clampLimit n <= 100.
Proof.
  unfold clampLimit. destruct (Z.leb_spec n 0); [lia|]. destruct (Z.ltb_spec 100 n); lia.
Qed.

Lemma clampOffset_bounds n : 0 <= clampOffset n.
Proof. unfold clampOffset. destruct (Z.ltb_spec n 0); lia. Qed.

(** A page of users: [ListUsers] answers how many users match the query
    and at most one hundred of them, exactly as many as fit the clamped limit
    after the clamped offset; every one is a matching row, and a rejected user
    is never listed. *)
Theorem ListUsers_page q w us total w1 :
  ListUsers q w = (Ok (us, total), w1) ->
  total = Z.of_nat (affected (user_matches q) (users (w_db w)))
  /\ Z.of_nat (length us)
     = Z.min (clampLimit (uq_Limit q)) (Z.max 0 (total - clampOffset (uq_Offset q)))
  /\ Z.of_nat (length us) <= 100
  /\ (forall u, In u us -> exists r, In r (users (w_db w)) /\ user_matches q r = true
        /\ u = scanUserCore r /\ ur_status r <> UserRejected)
  /\ w_db w1 = w_db w.
Proof.
  unfold ListUsers. intros (n & w2 & [[= <-] Hd2]%query_done & H)%bind_ok.
  apply bind_ok in H as (rows & w3 & [[= <-] Hd3]%query_done & [= <- <- <-]).
  rewrite Hd3, Hd2. pose proof (clampLimit_bounds (uq_Limit q)).
  pose proof (clampOffset_bounds (uq_Offset q)).
  assert (Hlen : Z.of_nat (length (map scanUserCore (page (clampLimit (uq_Limit q))
      (clampOffset (uq_Offset q)) (order_by (in_order (user_column (sanitizeUserSort (uq_Sort q)))
        (sanitizeSortOrder (uq_Order q))) (List.filter (user_matches q) (users (w_db w)))))))
    = Z.min (clampLimit (uq_Limit q)) (Z.max 0 (Z.of_nat (affected (user_matches q)
        (users (w_db w))) - clampOffset (uq_Offset q)))).
  { rewrite length_map. unfold page. rewrite length_take, length_drop, length_order_by.
    unfold affected. lia. }
  split_and!; [done|exact Hlen|lia| |done].
  intros u (r & <- & Hr)%in_map_iff. apply in_page, in_order_by, filter_In in Hr as [Hr Hm].
  exists r. split_and!; [done..|]. intros Hs. unfold user_matches in Hm. rewrite Hs in Hm. done.
Qed.

(** ** Stored passwords *)

(** Hashing round trip: what [HashPassword] returns verifies a password
    exactly when argon2, under the salt that was drawn, maps it to the digest of
    the hashed one; in particular it verifies the hashed password. *)
Theorem HashPassword_verifies pw pw' w e w1 :
  argon2_lengths -> HashPassword pw w = (Ok e, w1) ->
  exists salt, env_rand (w_fresh w) = Ok salt
    /\ VerifyPassword e pw'
       = bool_decide (argon2_IDKey pw (bytes salt) argonIterations argonMemory argonParallelism
                        argonKeyLen
                      = argon2_IDKey pw' (bytes salt) argonIterations argonMemory
                          argonParallelism argonKeyLen).
Proof.
  intros Ha (salt & w2 & Hs & [= <- _])%bind_ok. exists salt. injection Hs as Hs _.
  split; [done|].
  destruct (Ha pw (bytes salt) argonIterations argonMemory argonParallelism argonKeyLen)
    as [Hb Hl]; [done|].
  rewrite VerifyPassword_encoded by (done || apply bytes_is_bytes). by rewrite Hl.
Qed.

(** ** The active mail account *)

(** Switching accounts: when [SetActiveMailAccount] succeeds, an account of
    the user is the default exactly when it has the given identifier, its other
    columns but the update time are as before, and other users' accounts are
    untouched. *)
Theorem SetActiveMailAccount_effects u id w w1 :
  SetActiveMailAccount u id w = (Ok tt, w1) ->
  (exists a, In a (mail_accounts (w_db w)) /\ ma_UserID a = u)
  /\ (forall a, In a (mail_accounts (w_db w1)) -> ma_UserID a = u ->
        ma_IsDefault a = String.eqb (ma_ID a) id)
  /\ map (fun a => (ma_ID a, ma_UserID a, ma_Login a, ma_SecretEnc a, ma_Status a))
       (mail_accounts (w_db w1))
     = map (fun a => (ma_ID a, ma_UserID a, ma_Login a, ma_SecretEnc a, ma_Status a))
       (mail_accounts (w_db w))
  /\ (forall a, In a (mail_accounts (w_db w)) -> ma_UserID a <> u ->
        In a (mail_accounts (w_db w1))).
Proof.
  unfold SetActiveMailAccount. intros (now & w2 & [= <- <-] & H)%bind_ok.
  apply bind_ok in H as (n & w3 & Hs%statement_ok & H). simpl in Hs. injection Hs as <- Hs.
  destruct (Nat.eqb_spec (affected (acc_of u) (mail_accounts (w_db w))) 0) as [|Hn]; [done|].
  injection H as <-. rewrite <- Hs. simpl. unfold only_default. split_and!.
  - apply affected_pos in Hn as (a & Ha & Hu). exists a. unfold acc_of in Hu. by breflect.
  - intros a (a0 & _ & ->)%in_update_rows. unfold acc_of.
    by destruct (String.eqb_spec (ma_UserID a0) u).
  - by apply map_update_rows.
  - intros a Ha Hu. apply in_update_rows. exists a. split; [done|].
    unfold acc_of. by rewrite (proj2 (String.eqb_neq _ _) Hu).
Qed.

(** An identifier that is not one of the user's accounts is accepted too, and
    leaves the user without a default account. *)
Lemma SetActiveMailAccount_foreign u id w w1 :
  SetActiveMailAccount u id w = (Ok tt, w1) ->
  (forall a, In a (mail_accounts (w_db w)) -> ma_UserID a = u -> ma_ID a <> id) ->
  forall a, In a (mail_accounts (w_db w1)) -> ma_UserID a = u -> ma_IsDefault a = false.
Proof.
  unfold SetActiveMailAccount. intros (now & w2 & [= <- <-] & H)%bind_ok Hnone.
  apply bind_ok in H as (n & w3 & Hs%statement_ok & H). simpl in Hs. injection Hs as <- Hs.
  destruct (Nat.eqb _ 0); [done|]. injection H as <-. rewrite <- Hs. simpl.
  intros a (a0 & Ha0 & ->)%in_update_rows. unfold acc_of.
  destruct (String.eqb_spec (ma_UserID a0) u) as [Hu|Hu]; [|done]. intros _. simpl.
  unfold acc_has_id. apply String.eqb_neq. by apply Hnone.
Qed.
End StoreFacts.

(** ** Examples *)

Lemma rate_counter_counts_witness :
  let w := snd (IncrementRateEvent "10.0.0.1" "login" 60 (sample_world sample_db [])) in
  get (fst (IncrementRateEvent "10.0.0.1" "login" 60 w)) 0
  = counted "10.0.0.1" "login" 60 (w_db w) + 1.
Proof.
  intros w.
  assert (Hok : is_ok (fst (IncrementRateEvent "10.0.0.1" "login" 60
      (snd (IncrementRateEvent "10.0.0.1" "login" 60 (sample_world sample_db []))))) = true)
    by (vm_compute; reflexivity).
  destruct (rate_counter_counts _ _ _ _ _ _ (ok_pair _ 0 Hok)) as [H _].
  exact H.
Defined.

Definition everybody : UserQuery := mkUserQuery "" "" "" "" "email" "asc" 2 1.

Lemma ListUsers_page_witness :
  snd (get (fst (ListUsers everybody (sample_world sample_db []))) ([], 0))
  = Z.of_nat (affected (user_matches everybody) (users sample_db)).
Proof.
  assert (Hok : is_ok (fst (ListUsers everybody (sample_world sample_db []))) = true)
    by (vm_compute; reflexivity).
  destruct (ListUsers_page _ _ _ _ _ (ok_pair2 _ [] 0 Hok)) as [H _].
  exact H.
Defined.

Lemma HashPassword_verifies_witness :
  let e := get (fst (HashPassword "Correct-Horse-1" (sample_world sample_db []))) "" in
  exists salt, VerifyPassword e "Correct-Horse-1"
    = bool_decide (argon2_IDKey "Correct-Horse-1" (bytes salt) argonIterations argonMemory
                     argonParallelism argonKeyLen
                   = argon2_IDKey "Correct-Horse-1" (bytes salt) argonIterations argonMemory
                       argonParallelism argonKeyLen).
Proof.
  intros e.
  assert (Hok : is_ok (fst (HashPassword "Correct-Horse-1" (sample_world sample_db []))) = true)
    by (vm_compute; reflexivity).
  destruct (HashPassword_verifies "Correct-Horse-1" "Correct-Horse-1" _ _ _ sample_argon2_lengths
    (ok_pair _ "" Hok)) as (salt & _ & H).
  exact (ex_intro _ salt H).
Defined.

Definition sample_account (id user : string) (dflt : bool) : MailAccount := {|
  ma_ID := id; ma_UserID := user; ma_DisplayName := ""; ma_Login := "login"; ma_SecretEnc := "s";
  ma_IMAPHost := "h"; ma_IMAPPort := 993; ma_IMAPTLS := true; ma_IMAPStartTLS := false;
  ma_SMTPHost := "h"; ma_SMTPPort := 587; ma_SMTPTLS := false; ma_SMTPStartTLS := true;
  ma_IsDefault := dflt; ma_Status := "active"; ma_LastSyncAt := None; ma_LastError := None;
  ma_ProviderType := "generic"; ma_ProviderLabel := ""; ma_AuthKind := "password";
  ma_ConnectionMode := "imap_smtp"; ma_ValidationIMAPReady := false;
  ma_ValidationSMTPReady := false; ma_ValidationAppPasswordRequired := false;
  ma_ValidationError := ""; ma_LastValidatedAt := None; ma_CreatedAt := 0; ma_UpdatedAt := 0 |}.

Definition accounts_db : Database := sample_db
  <| mail_accounts := [sample_account "a1" "user-1" true; sample_account "a2" "user-1" false;
                       sample_account "b1" "user-2" true] |>.

Lemma SetActiveMailAccount_effects_witness :
  In (sample_account "b1" "user-2" true)
     (mail_accounts (w_db (snd (SetActiveMailAccount "user-1" "a2" (sample_world accounts_db []))))).
Proof.
  assert (Hok : fst (SetActiveMailAccount "user-1" "a2" (sample_world accounts_db [])) = Ok tt)
    by (vm_compute; reflexivity).
  destruct (SetActiveMailAccount_effects _ _ _ _ (pair_of_fst _ _ Hok)) as (_ & _ & _ & H).
  apply H; [right; right; left; reflexivity|discriminate].
Defined.

(** * ServiceFacts: feature flags, the search through PAM logins, and setup *)

Section ServiceFacts.
Context {host : Host} {dep : Deployment}.
Implicit Types (w : World Database).

(** ** Feature flags *)

Lemma parse_bool_setting b : parseFeatureFlagBool (boolToFeatureFlagSetting b) = Some b.
Proof. by destruct b. Qed.

Lemma DefaultValue_ok def w b w' : DefaultValue def w = (Ok b, w') -> w_db w' = w_db w.
Proof.
  unfold DefaultValue. destruct (fd_Default def); [by intros [= _ <-]|].
  intros (raw & w1 & [_ ->]%GetSetting_ok & [= _ <-])%bind_ok. done.
Qed.

(** What a flag resolves to, given its stored override. *)
Lemma resolve_ok def w st w' :
  resolveFeatureFlagState def w = (Ok st, w') ->
  has_override def = true ->
  match setting (fd_SettingKey def) (w_db w) with
  | Some v => match parseFeatureFlagBool v with
              | Some b => fs_Enabled st = b /\ fs_Source st = "override"
              | None => fs_Enabled st = fs_DefaultEnabled st /\ fs_Source st = "default"
              end
  | None => fs_Enabled st = fs_DefaultEnabled st /\ fs_Source st = "default"
  end.
Proof.
  unfold resolveFeatureFlagState.
  intros (d & w1 & Hd1%DefaultValue_ok & H)%bind_ok Ho. rewrite Ho in H.
  apply bind_ok in H as ([resolved source] & w2 & H2 & [= <- _]).
  apply bind_ok in H2 as (raw & w3 & [-> _]%GetSetting_ok & H2). rewrite Hd1 in H2.
  destruct (setting _ _) as [v|]; [|by injection H2 as <- <- _].
  destruct (parseFeatureFlagBool v); by injection H2 as <- <- _.
Qed.

Lemma resolve_run def w :
  w_faults w = [] -> exists st, resolveFeatureFlagState def w = (Ok st, w).
Proof.
  intros Hf. unfold resolveFeatureFlagState, DefaultValue, GetSetting.
  destruct (fd_Default def).
  - unfold bind at 1, ret. destruct (has_override def); [|by eexists].
    unfold bind. rewrite query_run by done.
    destruct (sv_Value <$> _) as [v|]; [destruct (parseFeatureFlagBool v)|]; by eexists.
  - unfold bind at 1 2. rewrite query_run by done. unfold ret.
    destruct (has_override def); [|by eexists].
    unfold bind. rewrite query_run by done.
    destruct (sv_Value <$> select1 (has_key (fd_SettingKey def)) _) as [v|];
      [destruct (parseFeatureFlagBool v)|]; by eexists.
Qed.

Lemma InsertAudit_settings a b c d w :
  settings (w_db (snd (InsertAudit a b c d w))) = settings (w_db w).
Proof.
  unfold InsertAudit, bind. simpl. rewrite statement_eq. destruct (faulty _); [done|].
  by destruct (insert_row _ _ _).
Qed.

Lemma UpsertSetting_ok key v w w' :
  UpsertSetting key v w = (Ok tt, w') -> setting key (w_db w') = Some v.
Proof.
  intros (now & w1 & [= <- <-] & H%exec_ok)%bind_ok. unfold setting. rewrite H. simpl.
  rewrite setting_upsert. by rewrite String.eqb_refl.
Qed.

Lemma DeleteSetting_ok key w w' :
  DeleteSetting key w = (Ok tt, w') -> setting key (w_db w') = None.
Proof.
  intros H%exec_ok. unfold setting. rewrite H. simpl.
  destruct (select1 _ _) as [r|] eqn:E; [|done].
  apply find_In in E as [[_ Hr]%in_delete_rows Hk]. congruence.
Qed.

(** Setting a flag takes effect: when [SetFeatureFlag] succeeds it reports
    the requested value as an override, and reading the flag then gives that
    value. *)
Theorem flag_set_then_read actor id b w st w1 :
  SetFeatureFlag actor id b w = (Ok st, w1) -> w_faults w1 = [] ->
  fs_Enabled st = b /\ fs_Source st = "override" /\ fst (FeatureFlagEnabled id w1) = Ok b.
Proof.
  unfold SetFeatureFlag, FeatureFlagEnabled.
  destruct (findFeatureFlagDef id) as [def|]; [|done].
  destruct (has_override def) eqn:Ho; [|done]. simpl.
  intros ([] & w2 & Hup%UpsertSetting_ok & ([] & w3 & Ha & H)%bind_ok)%bind_ok Hf.
  rewrite ignore_eq in Ha. apply (f_equal snd) in Ha. cbn [snd] in Ha.
  assert (Hset : setting (fd_SettingKey def) (w_db w3) = Some (boolToFeatureFlagSetting b)).
  { subst w3. unfold setting in *. by rewrite InsertAudit_settings. }
  assert (Hdb : w_db w1 = w_db w3).
  { assert (Hsp : spec (fun _ _ => False) 0 anydb (resolveFeatureFlagState def) any)
      by (unfold resolveFeatureFlagState, DefaultValue; spec_walk).
    destruct (Hsp w3 ltac:(lia) Logic.I) as (_ & Hs & _). rewrite H in Hs. symmetry.
    by apply rtc_nothing. }
  pose proof (resolve_ok _ _ _ _ H Ho) as Hr. rewrite Hset, parse_bool_setting in Hr.
  destruct Hr as [Hen Hsrc]. split_and!; [done..|].
  destruct (resolve_run def w1 Hf) as (st' & Hst'). rewrite (bind_eq _ _ _ _ _ Hst').
  pose proof (resolve_ok _ _ _ _ Hst' Ho) as Hr. rewrite Hdb, Hset, parse_bool_setting in Hr.
  destruct Hr as [<- _]. done.
Qed.

(** Resetting a flag returns it to its default. *)
Theorem flag_reset_restores_default actor id w st w1 :
  ResetFeatureFlag actor id w = (Ok st, w1) ->
  fs_Enabled st = fs_DefaultEnabled st /\ fs_Source st = "default".
Proof.
  unfold ResetFeatureFlag. destruct (findFeatureFlagDef id) as [def|]; [|done].
  destruct (has_override def) eqn:Ho; [|done]. simpl.
  intros ([] & w2 & Hd%DeleteSetting_ok & ([] & w3 & Ha & H)%bind_ok)%bind_ok.
  rewrite ignore_eq in Ha. apply (f_equal snd) in Ha. cbn [snd] in Ha.
  pose proof (resolve_ok _ _ _ _ H Ho) as Hr. subst w3. unfold setting in *.
  by rewrite InsertAudit_settings, Hd in Hr.
Qed.
(** ** The search through the logins *)

(** The mail server refused [login] at position [n] of the trace, for a reason
    other than being unreachable. *)
Definition refused_at (n : nat) (login pw : string) : Prop :=
  exists e, env_reply n (IMAPListMailboxes login pw) = Some e /\ isMailConnectivityError e = false.

Lemma try_logins_first all cs pw w c w' :
  try_logins all cs pw w = (Ok c, w') ->
  exists pre post, cs = pre ++ c :: post
    /\ w_trace w' = w_trace w ++ map (fun l => IMAPListMailboxes l pw) (pre ++ [c])
    /\ (forall i l, pre !! i = Some l -> refused_at (length (w_trace w) + i) l pw)
    /\ env_reply (length (w_trace w) + length pre) (IMAPListMailboxes c pw) = None.
Proof.
  revert w. induction cs as [|c0 cs IH]; intros w; [done|]. simpl.
  rewrite bind_attempt. unfold call at 1 2. cbn [fst snd].
  destruct (env_reply (length (w_trace w)) (IMAPListMailboxes c0 pw)) as [e|] eqn:Er.
  - destruct (isMailConnectivityError e) eqn:Ec; [done|].
    intros (pre & post & -> & Ht & Hpre & Hc)%IH. simpl in *.
    rewrite length_app in *. simpl in *.
    exists (c0 :: pre), post. split_and!; [done|by rewrite Ht, <- app_assoc| |].
    + intros [|i] l Hl.
      * injection Hl as <-. exists e. by rewrite Nat.add_0_r.
      * specialize (Hpre i l Hl). by rewrite <- Nat.add_assoc in Hpre.
    + rewrite <- Hc. f_equal. simpl. lia.
  - intros [= -> <-]. exists [], cs. split_and!; try done. by rewrite Nat.add_0_r.
Qed.

(** The first accepted login wins: when the credentials are verified, the
    logins were tried in the order of [pamLoginCandidates], every earlier one
    was refused by a reachable server, the returned one was accepted, no later
    one was tried, and nothing was written. *)
Theorem verify_takes_first_login e pw explicit stored w c w' :
  verifyMailCredentials e pw explicit stored w = (Ok c, w') ->
  exists pre post, pamLoginCandidates explicit stored e = pre ++ c :: post
    /\ w_trace w' = w_trace w ++ map (fun l => IMAPListMailboxes l pw) (pre ++ [c])
    /\ (forall i l, pre !! i = Some l -> refused_at (length (w_trace w) + i) l pw)
    /\ env_reply (length (w_trace w) + length pre) (IMAPListMailboxes c pw) = None
    /\ w_db w' = w_db w.
Proof.
  intros H. pose proof (verifyMailCredentials_ok _ _ _ _ _ _ _ H) as [Hdb _].
  unfold verifyMailCredentials in H. destruct (_ || _); [done|].
  destruct (pamLoginCandidates explicit stored e) as [|c0 cs] eqn:Ec; [done|].
  apply try_logins_first in H as (pre & post & ? & ? & ? & ?). exists pre, post. by split_and!.
Qed.

(** What [add_candidate] keeps true of the list. *)
Definition good_candidates (out : list string) : Prop :=
  List.NoDup (map ToLower out)
  /\ List.Forall (fun c => c <> "" /\ TrimSpace c = c) out.

Lemma add_candidate_good out v :
  good_candidates out -> good_candidates (add_candidate out v).
Proof.
  intros [Hn Hf]. unfold add_candidate. cbv zeta.
  destruct (String.eqb_spec (TrimSpace v) "") as [|Hv]; [done|].
  destruct (existsb _ _) eqn:Ex; [done|]. split.
  - rewrite map_app. simpl. apply List.NoDup_app; [done|repeat constructor; simpl; tauto|].
    intros x (c & <- & Hc)%in_map_iff [Hx|[]].
    assert (existsb (fun c => String.eqb (ToLower c) (ToLower (TrimSpace v))) out = true);
      [|congruence].
    apply existsb_exists. exists c. split; [done|]. by apply String.eqb_eq.
  - apply List.Forall_app. split; [done|]. constructor; [|constructor].
    split; [done|]. apply TrimSpace_idem.
Qed.

Lemma length_add_candidate out v : (length (add_candidate out v) <= S (length out))%nat.
Proof.
  unfold add_candidate. cbv zeta. destruct (String.eqb _ _); [lia|].
  destruct (existsb _ _); [lia|]. rewrite length_app. simpl. lia.
Qed.

(** The logins tried: at most four, trimmed, not blank, and no two equal up
    to case. *)
Theorem pamLoginCandidates_good explicit stored email :
  good_candidates (pamLoginCandidates explicit stored email)
  /\ (length (pamLoginCandidates explicit stored email) <= 4)%nat.
Proof.
  unfold pamLoginCandidates. cbv zeta.
  set (la := add_candidate [] explicit). set (lb := add_candidate la stored).
  set (lc := add_candidate lb email).
  assert (Hc : good_candidates lc).
  { repeat apply add_candidate_good. split; constructor. }
  assert (Hl : (length lc <= 3)%nat).
  { pose proof (length_add_candidate [] explicit) as H1.
    pose proof (length_add_candidate la stored) as H2.
    pose proof (length_add_candidate lb email) as H3.
    change (length la <= 1)%nat in H1. change (length lc <= S (length lb))%nat in H3.
    change (length lb <= S (length la))%nat in H2. lia. }
  destruct (local_part email) as [l|]; [|split; [done|lia]].
  split; [by apply add_candidate_good|]. pose proof (length_add_candidate lc l). lia.
Qed.

End ServiceFacts.

(** ** Examples *)

Lemma flag_set_then_read_witness :
  let p := SetFeatureFlag "admin-1" "passkey_sign_in" true (sample_world sample_db []) in
  fst (FeatureFlagEnabled "passkey_sign_in" (snd p)) = Ok true.
Proof.
  intros p.
  assert (Hok : is_ok (fst (SetFeatureFlag "admin-1" "passkey_sign_in" true
                              (sample_world sample_db []))) = true) by (vm_compute; reflexivity).
  assert (Hf : w_faults (snd p) = []) by (vm_compute; reflexivity).
  destruct (flag_set_then_read "admin-1" "passkey_sign_in" true (sample_world sample_db []) _ _
    (ok_pair _ (mkFlagState "" "" "" "" false false "" false false "") Hok) Hf) as (_ & _ & H).
  exact H.
Defined.

Lemma flag_reset_restores_default_witness :
  fs_Source (get (fst (ResetFeatureFlag "admin-1" "passkey_sign_in" (sample_world sample_db [])))
    (mkFlagState "" "" "" "" false false "" false false "")) = "default".
Proof.
  assert (Hok : is_ok (fst (ResetFeatureFlag "admin-1" "passkey_sign_in"
                              (sample_world sample_db []))) = true) by (vm_compute; reflexivity).
  destruct (flag_reset_restores_default "admin-1" "passkey_sign_in" (sample_world sample_db []) _ _
    (ok_pair _ (mkFlagState "" "" "" "" false false "" false false "") Hok)) as (_ & H).
  exact H.
Defined.

Lemma verify_takes_first_login_witness :
  exists pre post, pamLoginCandidates "" "alice" "alice@example.org"
    = pre ++ "alice" :: post.
Proof.
  assert (Hok : fst (verifyMailCredentials "alice@example.org" "pw" "" "alice"
                       (sample_world sample_db [])) = Ok "alice") by (vm_compute; reflexivity).
  destruct (verify_takes_first_login "alice@example.org" "pw" "" "alice" (sample_world sample_db [])
    _ _ (pair_of_fst _ _ Hok)) as (pre & post & H & _).
  exact (ex_intro _ pre (ex_intro _ post H)).
Defined.
