(* ===== verification/SenderFacts.v ===== *)
(** * SenderFacts: a message is sent only as oneself

    What [ResolveComposeSender] of internal/service/mail_sender.go answers:
    the author of a message is always the signed-in user's own address, the
    login of one of the user's accounts, or an identity of one of them. *)

From S2P Require Import Prelude GoStrings Effects GoStd Models Users Mfa MailAccounts Host Identity.
From S2P Require Import MailModels MailSenders Sample.
Local Open Scope Z_scope.

(** ** Reading the account tables from the larger database *)

Definition quiet (d d' : MailDB) : Prop := m_base d' = m_base d /\ m_identities d' = m_identities d.

#[export] Instance quiet_preorder : PreOrder quiet.
Proof.
  split; [by intros d|]. intros a b c [] []. split; by etrans.
Qed.

Lemma rtc_quiet d d' : rtc quiet d d' -> quiet d d'.
Proof. induction 1; [done|by etrans]. Qed.

Lemma on_base_query {A} (f : Database -> Res A) w :
  on_base (query f) w = query (fun d => f (m_base d)) w.
Proof.
  destruct w as [d [|[] fs] t u tr]; unfold on_base, query, statement; simpl; try by destruct d.
  - destruct (f (m_base d)) as [a|e]; by destruct d.
  - destruct (f (m_base d)) as [a|e]; by destruct d.
Qed.

(** ** What belongs to a user *)

Section Facts.
Context {host : Host}.

(** An account that [GetMailAccountByID] would return to the user. *)
Definition owns (u : User) (d : MailDB) (a : MailAccount) : Prop :=
  exists a0, In a0 (mail_accounts (m_base d)) /\ ma_UserID a0 = u_ID u /\ a = scanMailAccount a0.

Definition own_id (u : User) (d : MailDB) (id : string) : Prop :=
  id = "" \/ exists a, owns u d a /\ ma_ID a = id.

(** The user's own address, or the login of an own account. *)
Definition own_primary (u : User) (d : MailDB) (from : string) : Prop :=
  from = TrimSpace (sessionMailIdentityForUser u)
  \/ exists a, owns u d a /\ from = TrimSpace (ma_Login a).

(** The address of an identity of the account [id], which is the user's. *)
Definition own_alias (u : User) (d : MailDB) (id from : string) : Prop :=
  exists a i, owns u d a /\ ma_ID a = id /\ In i (m_identities d) /\ mi_AccountID i = id
    /\ from = TrimSpace (mi_FromEmail i).

Definition own_profile (u : User) (d : MailDB) (p : SenderProfile) : Prop :=
  (pf_IsPrimary p = true /\ own_primary u d (pf_FromEmail p) /\ own_id u d (pf_AccountID p))
  \/ (pf_IsPrimary p = false /\ own_alias u d (pf_AccountID p) (pf_FromEmail p)).

Definition own_sender (u : User) (d : MailDB) (s : ResolvedComposeSender) : Prop :=
  rs_EnvelopeFrom s = rs_HeaderFromEmail s /\ rs_HeaderFromEmail s <> ""
  /\ ((own_primary u d (rs_HeaderFromEmail s) /\ own_id u d (rs_AccountID s))
      \/ own_alias u d (rs_AccountID s) (rs_HeaderFromEmail s)).

(** A fact that reads only the accounts and identities holds in any database
    with the same ones. *)
Definition same (d0 d : MailDB) : Prop := quiet d0 d.
Notation acts d0 m Q := (spec quiet 0 (same d0) m (fun a d => same d0 d /\ Q a)).

Lemma acts_bind {A B} d0 (m : MDB A) (f : A -> MDB B) Q R :
  acts d0 m Q -> (forall a, Q a -> acts d0 (f a) R) -> acts d0 (bind m f) R.
Proof.
  intros Hm Hf. eapply spec_bind; [exact Hm|]. intros a w Hk [Hs HQ]. by apply (Hf a HQ).
Qed.

Lemma acts_ret {A} d0 (a : A) (Q : A -> Prop) : Q a -> acts d0 (ret a) Q.
Proof. intros HQ. by apply spec_ret. Qed.

Lemma acts_throw {A} d0 e (Q : A -> Prop) : acts d0 (throw e) Q.
Proof. apply spec_throw. Qed.

Lemma acts_query {A} d0 (f : MailDB -> Res A) (Q : A -> Prop) :
  (forall d a, same d0 d -> f d = Ok a -> Q a) -> acts d0 (query f) Q.
Proof. intros H. eapply spec_weaken; [apply spec_query|done|]. intros a d []. split; eauto. Qed.

Lemma acts_base {A} d0 (f : Database -> Res A) (Q : A -> Prop) :
  (forall a, f (m_base d0) = Ok a -> Q a) -> acts d0 (on_base (query f)) Q.
Proof.
  intros H w Hk HD. rewrite on_base_query. eapply acts_query; [|done..].
  intros d a [Hb _]. rewrite Hb. eauto.
Qed.

(** Statements on the tables that hold neither accounts nor identities. *)
Lemma acts_statement {A} d0 (f : MailDB -> Res (A * MailDB)) :
  (forall d a d', f d = Ok (a, d') -> quiet d d') -> acts d0 (statement f) (fun _ => True).
Proof.
  intros H. apply spec_statement. intros d a d' HD E. specialize (H _ _ _ E).
  split; [by apply rtc_once|]. split; [|done]. unfold same in *. by etrans.
Qed.

Lemma acts_weaken {A} d0 (m : MDB A) (Q R : A -> Prop) :
  acts d0 m Q -> (forall a, Q a -> R a) -> acts d0 m R.
Proof. intros Hm H. eapply spec_weaken; [exact Hm|done|]. intros a d []. eauto. Qed.

Lemma acts_same {A} d0 (m : MDB A) Q w :
  acts d0 m Q -> same d0 (w_db w) -> same d0 (w_db (snd (m w))).
Proof.
  intros Hm HD. destruct (Hm w (Nat.le_0_l _) HD) as (_ & Hr%rtc_quiet & _).
  unfold same in *. by etrans.
Qed.

Lemma acts_attempt {A} d0 (m : MDB A) Q :
  acts d0 m Q -> acts d0 (attempt m) (fun r => match r with Ok a => Q a | Fail _ => True end).
Proof.
  intros Hm w Hk HD. pose proof (acts_same d0 m Q w Hm HD) as Hs.
  destruct (Hm w Hk HD) as (H1 & H2 & H3). rewrite attempt_eq. simpl.
  split_and!; [done|done|done|]. destruct (fst (m w)); naive_solver.
Qed.

Lemma acts_now d0 : acts d0 time_Now (fun _ => True).
Proof. by eapply spec_weaken; [apply (spec_now _ _ (same d0))|..]. Qed.
Lemma acts_uuid d0 : acts d0 uuid_NewString (fun _ => True).
Proof. eapply spec_weaken; [apply (spec_uuid _ _ (same d0))|done|]. by intros a d []. Qed.

(** ** The operations *)

Lemma acts_sessionProfile d0 userID fromEmail :
  acts d0 (GetSessionMailProfile userID fromEmail)
    (fun p => sp_FromEmail p = TrimSpace fromEmail).
Proof.
  apply acts_query. intros d p _. destruct (select1 _ _) as [q|] eqn:E; [|done].
  intros [= <-]. apply find_some in E as [_ E]. unfold profile_for in E.
  apply andb_true_iff in E as [_ E]. by apply String.eqb_eq.
Qed.

Lemma acts_upsertProfile d0 inp :
  acts d0 (UpsertSessionMailProfile inp) (fun p => sp_FromEmail p = TrimSpace (sp_FromEmail inp)).
Proof.
  eapply acts_bind; [apply acts_now|intros now _].
  eapply (acts_bind _ _ _ (fun _ => True)).
  { destruct (String.eqb _ _); [apply acts_uuid|by apply acts_ret]. }
  intros id _. eapply acts_bind.
  { apply acts_statement. intros d a d'. destruct (upsert_profile _ _); [|done].
    by intros [= _ <-]. }
  intros _ _. eapply acts_weaken; [apply acts_sessionProfile|].
  intros p ->. apply TrimSpace_idem.
Qed.

Lemma acts_ensureProfile d0 u :
  acts d0 (EnsureSessionMailProfile u)
    (fun p => sp_FromEmail p = TrimSpace (sessionMailIdentityForUser u)).
Proof.
  eapply acts_bind; [apply acts_attempt, acts_sessionProfile|]. intros [p|e] Hp.
  - by apply acts_ret.
  - destruct e; try apply acts_throw.
    eapply acts_bind; [apply acts_uuid|]. intros id _. apply acts_upsertProfile.
Qed.

Lemma acts_accounts d0 u :
  acts d0 (on_base (ListMailAccounts (u_ID u))) (Forall (owns u d0)).
Proof.
  apply acts_base. intros l [= <-]. apply Forall_forall. intros a Ha.
  apply in_map_iff in Ha as (a0 & <- & Hin).
  apply in_order_by, filter_In in Hin as [Hin Hu].
  exists a0. split_and!; [done|by apply String.eqb_eq|done].
Qed.

Lemma acts_identities d0 id :
  acts d0 (ListMailIdentities id)
    (Forall (fun i => In i (m_identities d0) /\ mi_AccountID i = id)).
Proof.
  apply acts_query. intros d l [_ Hi] [= <-]. apply Forall_forall. intros i Hin.
  apply in_order_by, filter_In in Hin as [Hin Hu]. rewrite Hi in Hin.
  split; [done|by apply String.eqb_eq].
Qed.

Lemma acts_preferences d0 userID : acts d0 (GetUserPreferences userID) (fun _ => True).
Proof.
  eapply acts_bind; [by apply (acts_query _ _ (fun _ => True))|]. intros [p|] _.
  - by apply acts_ret.
  - eapply acts_bind; [apply acts_now|]. intros now _. by apply acts_ret.
Qed.

Lemma alias_profile_own u d a i :
  owns u d a -> In i (m_identities d) -> mi_AccountID i = ma_ID a ->
  own_profile u d (alias_profile a i).
Proof.
  intros Ha Hi E. right. unfold alias_profile. destruct (senderStatusForAccount _).
  split; [done|]. exists a, i. by split_and!.
Qed.

Lemma primary_profile_own u d s from a :
  own_primary u d from -> (forall a', a = Some a' -> owns u d a') ->
  own_profile u d (primary_profile s from a).
Proof.
  intros Hf Ha. left. unfold primary_profile. destruct (senderStatusForAccount _); simpl.
  split_and!; [done|done|]. destruct a as [a|]; [right; eauto|by left].
Qed.

Lemma acts_aliases d0 u dflt al accounts :
  Forall (owns u d0) accounts ->
  acts d0 (alias_profiles dflt al accounts) (fun r => Forall (own_profile u d0) (fst r)).
Proof.
  revert al. induction accounts as [|a accounts IH]; intros al Hown; simpl.
  { by apply acts_ret. }
  inversion Hown as [|? ? Ha Hown']; subst.
  eapply acts_bind; [apply acts_identities|]. intros ids Hids.
  eapply acts_bind; [by apply IH, Hown'|]. intros r Hr. apply acts_ret. simpl.
  apply List.Forall_app; split; [|done]. apply Forall_forall. intros p Hp.
  apply in_map_iff in Hp as (i & <- & Hin). apply filter_In in Hin as [Hin _].
  destruct (proj1 (List.Forall_forall _ _) Hids i Hin).
  by apply alias_profile_own.
Qed.

Lemma chooseDefault_own u d accounts a :
  Forall (owns u d) accounts -> chooseDefaultMailAccount accounts = Some a -> owns u d a.
Proof.
  intros Hf. pose proof (proj1 (List.Forall_forall _ _) Hf) as H.
  unfold chooseDefaultMailAccount.
  destruct (List.find _ _) as [a'|] eqn:E.
  - intros [= <-]. apply find_some in E as [E _]. by apply H.
  - intros Hh. apply H. destruct accounts; [done|]. injection Hh as ->. by left.
Qed.

Lemma own_profile_default u d p b :
  own_profile u d p -> own_profile u d (p <| pf_IsDefault := b |>).
Proof. done. Qed.

Lemma mark_default_own u d id items items' :
  mark_default id items = Some items' -> Forall (own_profile u d) items ->
  Forall (own_profile u d) items'.
Proof.
  revert items'. induction items as [|p items IH]; intros items'; simpl; [done|].
  intros E H. inversion H as [|? ? Hp Hi]; subst. destruct (String.eqb _ _).
  - injection E as <-. by constructor.
  - destruct (mark_default id items); [|done]. injection E as <-. constructor; eauto.
Qed.

Lemma mark_default_or_first_own u d id items :
  Forall (own_profile u d) items -> Forall (own_profile u d) (mark_default_or_first id items).
Proof.
  intros H. unfold mark_default_or_first. destruct (mark_default id items) eqn:E.
  - by eapply mark_default_own.
  - destruct H; [done|by constructor].
Qed.

Lemma acts_listProfiles d0 u :
  acts d0 (ListSenderProfiles u) (Forall (own_profile u d0)).
Proof.
  eapply acts_bind; [apply acts_ensureProfile|]. intros sp Hsp.
  eapply acts_bind; [apply acts_accounts|]. intros accounts Hacc.
  eapply acts_bind; [apply acts_preferences|]. intros prefs _.
  eapply acts_bind; [by apply acts_aliases|]. intros aliases Hal. apply acts_ret.
  apply mark_default_or_first_own, List.Forall_app. split; [|done].
  pose proof (fun a => chooseDefault_own u d0 accounts a Hacc) as Hd.
  rewrite Hsp, TrimSpace_idem. destruct (negb _) eqn:En; [|done]. constructor; [|done].
  apply primary_profile_own; [|exact Hd].
  destruct (String.eqb (TrimSpace (sessionMailIdentityForUser u)) ""); [|by left].
  destruct (chooseDefaultMailAccount accounts); [|done]. right. eauto.
Qed.

Lemma acts_getProfile d0 u id : acts d0 (GetSenderProfileByID u id) (own_profile u d0).
Proof.
  unfold GetSenderProfileByID. destruct (String.eqb _ _); [apply acts_throw|].
  eapply acts_bind; [apply acts_listProfiles|]. intros items Hi.
  destruct (List.find _ _) as [p|] eqn:E; [|apply acts_throw].
  apply acts_ret. apply find_some in E as [E _].
  by apply (proj1 (List.Forall_forall _ _) Hi).
Qed.

Lemma acts_legacy d0 u fromMode identityID fromManual :
  acts d0 (resolveLegacySenderProfileID u fromMode identityID fromManual) (fun _ => True).
Proof.
  eapply acts_bind; [apply acts_ensureProfile|]. intros sp _. cbv zeta.
  repeat match goal with
  | |- context [if ?b then _ else _] => destruct b; try apply acts_throw; try by apply acts_ret
  end;
  (eapply acts_bind; [apply acts_getProfile|]; intros p _; by apply acts_ret).
Qed.

Lemma acts_account d0 u id :
  acts d0 (on_base (GetMailAccountByID (u_ID u) id)) (fun a => owns u d0 a /\ ma_ID a = id).
Proof.
  apply acts_base. intros a. destruct (select1 _ _) as [a0|] eqn:E; [|done].
  intros [= <-]. apply find_some in E as [Hin E].
  apply andb_true_iff in E as [Hu Hid].
  apply String.eqb_eq in Hu. apply String.eqb_eq in Hid.
  split; [|done]. by exists a0.
Qed.

(** A profile of the user's, resolved to no account or to its own. *)
Lemma resolved_own u d p accountID :
  own_profile u d p -> String.eqb (TrimSpace (pf_FromEmail p)) "" = false ->
  (accountID = "" /\ pf_IsPrimary p = true) \/ accountID = pf_AccountID p ->
  own_sender u d (resolved p accountID).
Proof.
  intros Hp Hne Hid. apply String.eqb_neq in Hne. split_and!; [done|done|]. simpl.
  assert (Htrim : forall a, TrimSpace (TrimSpace (ma_Login a)) = TrimSpace (ma_Login a))
    by (intros; apply TrimSpace_idem).
  destruct Hp as [(Hpr & Hf & Hacc)|(Hpr & a & i & Ha & Hai & Hi & Hia & Hf)].
  - left. split.
    + destruct Hf as [->|(a & Ha & ->)]; rewrite TrimSpace_idem; [by left|right; eauto].
    + destruct Hid as [[-> _]| ->]; [by left|done].
  - right. destruct Hid as [[_ Hid]| ->]; [congruence|].
    exists a, i. rewrite Hf, TrimSpace_idem. by split_and!.
Qed.

Lemma acts_resolve d0 u sid fromMode identityID fromManual :
  acts d0 (ResolveComposeSender u sid fromMode identityID fromManual) (own_sender u d0).
Proof.
  unfold ResolveComposeSender. destruct (String.eqb _ _); [apply acts_throw|].
  eapply (acts_bind _ _ _ (fun _ => True)).
  { destruct (String.eqb _ _); [apply acts_legacy|by apply acts_ret]. }
  intros id _. eapply acts_bind; [apply acts_getProfile|]. intros p Hp.
  destruct (String.eqb (TrimSpace (pf_FromEmail p)) "") eqn:Hne; [apply acts_throw|].
  destruct (String.eqb (TrimSpace (pf_AccountID p)) "").
  { destruct (pf_IsPrimary p) eqn:?; [|apply acts_throw]. by apply acts_ret, resolved_own; auto. }
  eapply acts_bind; [apply acts_account|]. intros a [_ Ha]. destruct (negb _).
  - destruct (pf_IsPrimary p) eqn:?; [|apply acts_throw]. by apply acts_ret, resolved_own; auto.
  - by apply acts_ret, resolved_own; auto.
Qed.

(** C36.  Whatever sender profile, identity or manual address a request names,
    and whatever statements fail on the way, a message that is given a sender
    is sent under an address of the user's own — the address of the session,
    the login of one of the user's mail accounts, or an identity of one of
    them — through no account or through one of the user's; and choosing the
    sender changes no account and no identity. *)
Theorem sender_is_own u sid fromMode identityID fromManual w s w' :
  ResolveComposeSender u sid fromMode identityID fromManual w = (Ok s, w') ->
  own_sender u (w_db w) s /\ quiet (w_db w) (w_db w').
Proof.
  intros H. destruct (acts_resolve (w_db w) u sid fromMode identityID fromManual w
                        (Nat.le_0_l _) (reflexivity _)) as (_ & _ & Hpost).
  rewrite H in Hpost. simpl in Hpost. destruct Hpost. by split.
Qed.
End Facts.

(** ** A concrete message *)

Definition sender_account (id user login : string) : MailAccount :=
  mkMailAccount id user "Work" login "" "" 993 true false "" 465 true false true "active" None None
    "" "" "" "" true true false "" None 0 0.

Definition sender_identity (id account email : string) : MailIdentityRow :=
  mkMailIdentity id account "Ada" email "" "" "" false 0 0.

Definition sender_db : MailDB :=
  mkMailDB (sample_db <| mail_accounts :=
              [sender_account "acct-1" "user-1" "alice@work.test";
               sender_account "acct-2" "user-2" "bob@work.test"] |>) [] [] [] []
    [sender_identity "alias-1" "acct-1" " sales@work.test ";
     sender_identity "alias-2" "acct-2" "bob@sales.test"] [] [] [] [].

Definition sender_user : User := scanUserCore (sample_user "user-1" "alice@example.org" "user" UserActive).

Definition sender_world (d : MailDB) : World MailDB := mkWorld d [] 0 0 [].

(** An alias of the user's own account is accepted ... *)
Lemma sender_is_own_witness :
  exists s w', ResolveComposeSender sender_user "" "identity" "alias-1" "" (sender_world sender_db)
               = (Ok s, w')
  /\ rs_HeaderFromEmail s = "sales@work.test" /\ rs_AccountID s = "acct-1"
  /\ own_sender sender_user sender_db s /\ quiet sender_db (w_db w').
Proof.
  eexists _, _. split; [vm_compute; reflexivity|]. split; [reflexivity|]. split; [reflexivity|].
  eapply (sender_is_own sender_user "" "identity" "alias-1" "" (sender_world sender_db)).
  vm_compute. reflexivity.
Defined.

(** ... and one of another user's account is not. *)
Example other_alias_is_refused :
  fst (ResolveComposeSender sender_user "" "identity" "alias-2" "" (sender_world sender_db))
  = Fail ErrNotFound.
Proof. vm_compute. reflexivity. Qed.
