(* ===== verification/ScheduledFacts.v ===== *)
(** * ScheduledFacts: how often the worker sends a queued draft

    The outcome of [processScheduledSendItem] on every path, and the bound it
    gives: however often the worker runs, it sends no more messages than the
    items of the queue have attempts left. *)

From S2P Require Import Prelude GoStrings Effects GoStd Threading Models Users Mfa MailAccounts Host.
From S2P Require Import Identity MailModels Drafts MailSenders DraftSend Sample SenderFacts.
Local Open Scope Z_scope.

Definition is_send (c : MailCall) : bool := match c with CallSend _ _ _ => true | _ => false end.
Definition sends (d : MailDB) : list MailCall := List.filter is_send (m_calls d).

Section Facts.
Context {host : Host} {servers : MailServers}.

(** ** What leaves the queue and the messages sent alone *)

Definition at_rest (q : list ScheduledSendQueueItem) (s : list MailCall) (d : MailDB) : Prop :=
  m_queue d = q /\ sends d = s.

Lemma keeps_on_base {A} q s (m : DBM A) :
  (forall J, keeps J m) -> keeps (at_rest q s) (on_base m).
Proof.
  intros H [d fs t u tr] [Hf HJ]. simpl in *. unfold on_base.
  specialize (H (fun _ => True) (mkWorld (m_base d) fs t u tr) (conj Hf I)).
  destruct (m _) as [r [b fs' t' u' tr']]. simpl in *. by destruct H.
Qed.

Lemma keeps_base_query {A} q s (f : Database -> Res A) : keeps (at_rest q s) (on_base (query f)).
Proof. apply keeps_on_base. intros J. apply keeps_query. Qed.

Lemma keeps_client q s c : is_send c = false -> keeps (at_rest q s) (client_call c).
Proof.
  intros Hc w [Hf [Hq Hs]]. split; [done|]. split; [done|]. simpl. unfold sends in *. simpl.
  by rewrite List.filter_app, Hs; simpl; rewrite Hc, app_nil_r.
Qed.

Lemma keeps_draft q s userID draftID f : keeps (at_rest q s) (update_draft userID draftID f).
Proof.
  unfold update_draft, found. keeps_walk.
  match goal with H : Ok _ = Ok _ |- _ => by injection H as <- <- end.
Qed.

Hint Resolve keeps_base_query keeps_draft : keeps.
Hint Extern 1 (keeps _ (client_call _)) => apply keeps_client; reflexivity : keeps.
Hint Extern 1 (keeps _ (SetDraftSendState _ _ _ _)) => apply keeps_draft : keeps.

Lemma keeps_draftRow q s userID id : keeps (at_rest q s) (GetDraftByID userID id).
Proof. apply keeps_query. Qed.
Lemma keeps_account q s userID id : keeps (at_rest q s) (on_base (GetMailAccountByID userID id)).
Proof. apply keeps_base_query. Qed.
Lemma keeps_user q s id : keeps (at_rest q s) (on_base (GetUserByID id)).
Proof. apply keeps_base_query. Qed.
Hint Resolve keeps_draftRow keeps_account keeps_user : keeps.

Lemma keeps_ensureProfile q s u : keeps (at_rest q s) (EnsureSessionMailProfile u).
Proof.
  unfold EnsureSessionMailProfile, UpsertSessionMailProfile, GetSessionMailProfile. keeps_walk.
  all: match goal with H : match ?r with _ => _ end = Ok _ |- _ =>
         destruct r; [by injection H as <- <-|done] end.
Qed.
Lemma keeps_aliases q s dflt al accounts : keeps (at_rest q s) (alias_profiles dflt al accounts).
Proof.
  revert al. induction accounts as [|a accounts IH]; intros al; simpl; [apply keeps_ret|].
  unfold ListMailIdentities. keeps_walk.
Qed.
Hint Resolve keeps_ensureProfile keeps_aliases : keeps.

Lemma keeps_profiles q s u : keeps (at_rest q s) (ListSenderProfiles u).
Proof. unfold ListSenderProfiles, ListMailAccounts, GetUserPreferences. keeps_walk. Qed.
Hint Resolve keeps_profiles : keeps.
Lemma keeps_profile q s u id : keeps (at_rest q s) (GetSenderProfileByID u id).
Proof. unfold GetSenderProfileByID. keeps_walk. Qed.
Hint Resolve keeps_profile : keeps.
Lemma keeps_resolve q s u sid mode iid manual :
  keeps (at_rest q s) (ResolveComposeSender u sid mode iid manual).
Proof. unfold ResolveComposeSender, resolveLegacySenderProfileID. keeps_walk. Qed.
Hint Resolve keeps_resolve : keeps.

Lemma keeps_attachments q s userID draftID refs :
  keeps (at_rest q s) (load_attachments userID draftID refs).
Proof. induction refs; simpl; unfold GetDraftAttachmentByID; keeps_walk. Qed.
Lemma keeps_firstMessage q s accountID l : keeps (at_rest q s) (first_message accountID l).
Proof. induction l; simpl; keeps_walk. Qed.
Hint Resolve keeps_attachments keeps_firstMessage : keeps.

Lemma keeps_build q s u login pass draft :
  keeps (at_rest q s) (BuildDraftSendRequest u login pass draft).
Proof.
  unfold BuildDraftSendRequest, buildDraftSendAttachments, GetIndexedMessageByID, get_message.
  keeps_walk.
Qed.

Lemma keeps_answered q s accountID l f :
  keeps (at_rest q s) (first_affected accountID l (set_message f)).
Proof.
  induction l; simpl; keeps_walk.
  match goal with H : Ok _ = Ok _ |- _ => by injection H as <- <- end.
Qed.
Hint Resolve keeps_build keeps_answered : keeps.

Lemma keeps_markAnswered q s item draft login pass :
  keeps (at_rest q s) (mark_answered item draft login pass).
Proof.
  unfold mark_answered, flag_answered, SetIndexedMessageAnswered, updateIndexedMessageBool.
  keeps_walk.
Qed.

(** What is true of the queue and the messages sent stays true. *)
Lemma keeps_at {A} (P : list ScheduledSendQueueItem -> list MailCall -> Prop) (m : MDB A) :
  (forall q s, keeps (at_rest q s) m) -> keeps (fun d => P (m_queue d) (sends d)) m.
Proof.
  intros H w [Hf HP]. destruct (H _ _ w (conj Hf (conj eq_refl eq_refl))) as [Hf' [Hq Hs]].
  split; [done|]. simpl. by rewrite Hq, Hs.
Qed.

(** ** Outcomes *)

(** The rows of the item are replaced by rows that satisfy [P]. *)
Definition marked (id : string) (P : ScheduledSendQueueItem -> Prop)
    (before after : list ScheduledSendQueueItem) : Prop :=
  exists f, after = update_rows (queue_has id) f before
    /\ forall q, qi_ID (f q) = qi_ID q /\ P (f q).

Definition failed_item (q : ScheduledSendQueueItem) : Prop := qi_State q = "failed".

Definition attempt_recorded (item q : ScheduledSendQueueItem) : Prop :=
  qi_State q = "sent" \/ qi_State q = "failed"
  \/ (qi_State q = "retrying" /\ qi_RetryCount q = qi_RetryCount item + 1 /\ qi_RetryCount q < 3
      /\ exists now, qi_NextRetryAt q = Some (now + retry_delay (qi_RetryCount q))).

Definition nothing_sent (item : ScheduledSendQueueItem) q s (d : MailDB) : Prop :=
  sends d = s /\ (m_queue d = q \/ marked (qi_ID item) failed_item q (m_queue d)).

Definition one_sent (item : ScheduledSendQueueItem) q s (d : MailDB) : Prop :=
  exists c, is_send c = true /\ sends d = s ++ [c]
    /\ marked (qi_ID item) (attempt_recorded item) q (m_queue d).

Definition item_outcome item q s (d : MailDB) : Prop := nothing_sent item q s d \/ one_sent item q s d.

Lemma runs_mark id f P q s :
  (forall now r, qi_ID (f now r) = qi_ID r /\ P (f now r)) ->
  runs (at_rest q s) (ignore (update_queue (queue_has id) f))
    (fun r d => r = Ok tt /\ sends d = s /\ marked id P q (m_queue d)).
Proof.
  intros HP w [Hf [Hq Hs]]. unfold update_queue, found, ignore, attempt, bind, time_Now. simpl.
  rewrite statement_run by done. simpl. rewrite Hq.
  destruct (Nat.eqb _ 0); simpl; split_and!; try done; eexists; split; try done; apply HP.
Qed.

(** An item's mark, followed by statements on other tables. *)
Lemma runs_mark_then id f P q s (m : MDB unit) :
  (forall now r, qi_ID (f now r) = qi_ID r /\ P (f now r)) ->
  (forall q s, keeps (at_rest q s) m) ->
  runs (at_rest q s) (do! ignore (update_queue (queue_has id) f) in m)
    (fun _ d => sends d = s /\ marked id P q (m_queue d)).
Proof.
  intros HP Hm. eapply (runs_bind _ _ _ (fun _ d => sends d = s /\ marked id P q (m_queue d))).
  - eapply runs_weaken; [by apply runs_mark|]. by intros r d (-> & ? & ?).
  - intros _. apply runs_keeps, (keeps_at (fun a b => b = s /\ marked id P q a)). exact Hm.
Qed.

Lemma runs_abandon item reason q s :
  runs (at_rest q s) (abandon item reason) (fun _ d => nothing_sent item q s d).
Proof.
  eapply runs_weaken; [apply (runs_mark_then _ _ failed_item)|].
  - done.
  - intros. keeps_walk.
  - intros r d []. split; auto.
Qed.

Lemma runs_or_missing {A} (m : MDB A) missing k q s Q :
  keeps (at_rest q s) m -> (forall e d, at_rest q s d -> Q (Fail e) d) ->
  (forall e, runs (at_rest q s) (missing e) Q) -> (forall a, runs (at_rest q s) (k a) Q) ->
  runs (at_rest q s) (or_missing m missing k) Q.
Proof.
  intros Hm He Hmiss Hk. unfold or_missing.
  apply runs_then; [by apply keeps_attempt|exact He|]. intros [a|e]; [apply Hk|].
  destruct (errors_Is e ErrNotFound); [apply Hmiss|]. apply runs_throw. intros d. apply He.
Qed.

(** The attempt itself: one message more, and its result on record. *)
Lemma runs_send item draft login pass req b q s :
  runs (at_rest q s)
    (let! sent := attempt (send_message login pass req) in after_send item draft login pass b sent)
    (fun _ d => one_sent item q s d).
Proof.
  set (c := CallSend login pass req).
  eapply (runs_bind _ _ _ (fun _ d => at_rest q (s ++ [c]) d)).
  { intros w [Hf [Hq Hs]]. rewrite attempt_eq. simpl. split; [done|]. split; [done|].
    unfold sends in *. simpl. by rewrite List.filter_app, Hs. }
  intros sent.
  assert (Hw : forall d, sends d = s ++ [c] /\ marked (qi_ID item) (attempt_recorded item) q (m_queue d) ->
                         one_sent item q s d) by (intros d []; by exists c).
  destruct sent as [n|e]; simpl.
  - eapply runs_weaken; [apply (runs_mark_then _ _ (attempt_recorded item))|auto].
    + intros now r. split; [done|]. by left.
    + intros. keeps_walk. apply keeps_markAnswered.
  - unfold send_failed. destruct (3 <=? qi_RetryCount item + 1) eqn:E.
    + eapply runs_weaken; [apply (runs_mark_then _ _ (attempt_recorded item))|auto].
      * intros now r. split; [done|]. right. by left.
      * intros. keeps_walk.
    + apply Z.leb_gt in E. eapply (runs_bind _ _ _ (fun _ => at_rest q (s ++ [c])));
        [by intros w []|]. intros now.
      eapply runs_weaken; [apply (runs_mark_then _ _ (attempt_recorded item))|auto].
      * intros now' r. split; [done|]. right. right. simpl. split_and!; eauto.
      * intros. keeps_walk.
Qed.

Lemma runs_item item q s :
  runs (at_rest q s) (processScheduledSendItem item) (fun _ d => item_outcome item q s d).
Proof.
  assert (Hrest : forall d, at_rest q s d -> item_outcome item q s d).
  { intros d []. left. split; auto. }
  assert (Hup : forall reason, runs (at_rest q s) (abandon item reason)
                  (fun _ d => item_outcome item q s d)).
  { intros reason. eapply runs_weaken; [apply runs_abandon|]. by left. }
  apply runs_or_missing; [apply keeps_draftRow|eauto| |intros draft].
  { intros _. eapply runs_weaken; [apply (runs_mark _ _ failed_item)|].
    - done.
    - intros r d (_ & ? & ?). left. split; auto. }
  apply runs_or_missing; [apply keeps_account|eauto|intros; apply Hup|intros queueAccount].
  apply runs_then; [apply keeps_user|eauto|intros user].
  apply runs_then; [apply keeps_of_res|eauto|intros queuePass].
  apply runs_or_missing; [apply keeps_build|eauto|intros; apply Hup|].
  intros [[req sendAccountID] b]. destruct (Nat.eqb _ 0); [apply Hup|].
  assert (Hsend : forall login pass, runs (at_rest q s)
            (let! sent := attempt (send_message login pass req) in
             after_send item draft login pass b sent) (fun _ d => item_outcome item q s d)).
  { intros. eapply runs_weaken; [apply runs_send|]. by right. }
  unfold with_send_account. destruct (_ && _); [|apply Hsend].
  apply runs_or_missing; [apply keeps_account|eauto|intros; apply Hup|intros a].
  apply runs_then; [apply keeps_of_res|eauto|intros pass]. apply Hsend.
Qed.

(** ** Attempts left *)

Definition waiting (q : ScheduledSendQueueItem) : bool :=
  String.eqb (qi_State q) "queued" || String.eqb (qi_State q) "retrying".

(** Three in all, and one more for an item queued again after its last. *)
Definition attempts_left (q : ScheduledSendQueueItem) : nat :=
  if waiting q then Nat.max 1 (Z.to_nat (3 - qi_RetryCount q)) else 0.

Definition potential (queue : list ScheduledSendQueueItem) : nat := list_sum (map attempts_left queue).

Definition distinct_ids (queue : list ScheduledSendQueueItem) : Prop :=
  List.NoDup (map qi_ID queue).

Lemma attempt_spends item q :
  waiting item = true -> attempt_recorded item q -> (attempts_left q + 1 <= attempts_left item)%nat.
Proof.
  unfold attempts_left. intros -> [H|[H|(H & Hc & Hlt & _)]]; unfold waiting; rewrite H;
    simpl; try lia.
Qed.

Lemma failed_spends item q : failed_item q -> (attempts_left q + 0 <= attempts_left item)%nat.
Proof. unfold attempts_left, waiting, failed_item. intros ->. simpl. lia. Qed.

Lemma update_others p (f : ScheduledSendQueueItem -> ScheduledSendQueueItem) l :
  (forall q, In q l -> p q = false) -> update_rows p f l = l.
Proof.
  intros H. unfold update_rows. induction l as [|q l IH]; simpl; [done|].
  rewrite (H q) by by left. by rewrite IH by by intros; apply H; right.
Qed.

Lemma marked_distinct id P l l' : marked id P l l' -> distinct_ids l -> distinct_ids l'.
Proof.
  intros (f & -> & Hf). unfold distinct_ids. by rewrite map_update_rows by by intros; apply Hf.
Qed.

Lemma marked_other id P l l' q : marked id P l l' -> qi_ID q <> id -> In q l -> In q l'.
Proof.
  intros (f & -> & _) Hq Hin. apply in_update_rows. exists q. split; [done|].
  unfold queue_has. by rewrite (proj2 (String.eqb_neq _ _) Hq).
Qed.

Lemma marked_potential item P k l l' :
  marked (qi_ID item) P l l' -> distinct_ids l -> In item l ->
  (forall q, P q -> (attempts_left q + k <= attempts_left item)%nat) ->
  (potential l' + k <= potential l)%nat.
Proof.
  intros (f & -> & Hf) Hnd Hin Hk. unfold potential, update_rows.
  induction l as [|q l IH]; [done|]. simpl. inversion Hnd as [|? ? Hni Hnd']; subst.
  unfold queue_has at 1. destruct Hin as [->|Hin].
  - rewrite String.eqb_refl. specialize (Hk _ (proj2 (Hf item))).
    fold (update_rows (queue_has (qi_ID item)) f l). rewrite update_others; [lia|].
    intros q Hq. apply String.eqb_neq. intros E. apply Hni. rewrite <- E. by apply in_map.
  - destruct (String.eqb_spec (qi_ID q) (qi_ID item)) as [E|_].
    + exfalso. apply Hni. rewrite E. by apply in_map.
    + specialize (IH Hnd' Hin). lia.
Qed.

(** ** Rounds of the worker *)

(** Messages sent and attempts left together never grow. *)
Definition budget (n : nat) (q : list ScheduledSendQueueItem) (s : list MailCall) : Prop :=
  distinct_ids q /\ (length s + potential q <= n)%nat.

Definition listed (items queue : list ScheduledSendQueueItem) : Prop :=
  List.NoDup (map qi_ID items) /\ forall q, In q items -> In q queue /\ waiting q = true.

Lemma outcome_budget n item q s d :
  item_outcome item q s d -> budget n q s -> In item q -> waiting item = true ->
  budget n (m_queue d) (sends d).
Proof.
  intros Ho [Hd Hb] Hin Hw. destruct Ho as [[Hs [Hq|Hm]]|(c & _ & Hs & Hm)].
  - by rewrite Hs, Hq.
  - rewrite Hs. split; [by eapply marked_distinct|].
    pose proof (marked_potential _ _ 0 _ _ Hm Hd Hin (failed_spends item)). lia.
  - unfold budget. rewrite Hs, length_app. split; [by eapply marked_distinct|]. simpl.
    pose proof (marked_potential _ _ 1 _ _ Hm Hd Hin (fun q => attempt_spends item q Hw)). lia.
Qed.

Lemma outcome_others item q s d x :
  item_outcome item q s d -> qi_ID x <> qi_ID item -> In x q -> In x (m_queue d).
Proof.
  intros [[_ [->|Hm]]|(c & _ & _ & Hm)] Hx Hin; [done|by eapply marked_other..].
Qed.

Lemma process_items_budget n items w :
  w_faults w = [] -> budget n (m_queue (w_db w)) (sends (w_db w)) ->
  listed items (m_queue (w_db w)) ->
  let w' := snd (process_items items w) in
  w_faults w' = [] /\ budget n (m_queue (w_db w')) (sends (w_db w')).
Proof.
  revert w. induction items as [|item items IH]; intros w Hf Hb [Hnd Hin]; simpl; [done|].
  rewrite bind_attempt. inversion Hnd as [|? ? Hni Hnd']; subst.
  destruct (runs_item item _ _ w (conj Hf (conj eq_refl eq_refl))) as [Hf' Ho].
  destruct (Hin item (or_introl eq_refl)) as [Hi Hw].
  apply IH; [done|by eapply outcome_budget|]. split; [done|].
  intros x Hx. destruct (Hin x (or_intror Hx)). split; [|done].
  eapply outcome_others; [done| |done]. intros E. apply Hni. rewrite <- E. by apply in_map.
Qed.

Lemma take_In {A} k (l : list A) x : In x (take k l) -> In x l.
Proof. intros H. rewrite <- (take_drop k l). apply in_or_app. by left. Qed.

Lemma NoDup_take {A} k (l : list A) : List.NoDup l -> List.NoDup (take k l).
Proof.
  intros H. rewrite <- (take_drop k l) in H. by apply List.NoDup_app_remove_r in H.
Qed.

Lemma insert_by_perm {R} leb (r : R) rows : Permutation (insert_by leb r rows) (r :: rows).
Proof.
  induction rows as [|x rows IH]; simpl; [done|]. destruct (leb r x); [done|].
  rewrite IH. constructor.
Qed.

Lemma order_by_perm {R} leb (rows : list R) : Permutation (order_by leb rows) rows.
Proof.
  induction rows as [|r rows IH]; simpl; [done|]. unfold order_by in *. simpl.
  by rewrite insert_by_perm, IH.
Qed.

Lemma due_listed now k queue :
  distinct_ids queue ->
  listed (take k (order_by due_first (List.filter (due now) queue))) queue.
Proof.
  intros Hd. split.
  - rewrite <- firstn_map. apply NoDup_take.
    eapply Permutation_NoDup; [apply Permutation_map; symmetry; apply order_by_perm|].
    revert Hd. unfold distinct_ids. induction queue as [|q l IH]; simpl; [done|].
    intros Hnd. inversion Hnd as [|? ? Hni Hnd']; subst.
    destruct (due now q); simpl; [|by apply IH]. constructor; [|by apply IH].
    intros Hx. apply Hni. apply in_map_iff in Hx as (x & E & Hx). apply in_map_iff.
    exists x. apply filter_In in Hx as [Hx _]. by split.
  - intros q Hq%take_In%in_order_by. apply filter_In in Hq as [Hq E].
    unfold due in E. apply andb_true_iff in E as [E _]. apply andb_true_iff in E as [E _].
    by split.
Qed.

Lemma round_budget n w :
  w_faults w = [] -> budget n (m_queue (w_db w)) (sends (w_db w)) ->
  let w' := snd (processScheduledSends w) in
  w_faults w' = [] /\ budget n (m_queue (w_db w')) (sends (w_db w')).
Proof.
  intros Hf Hb. unfold processScheduledSends, ListDueScheduledSends.
  set (w1 := snd (time_Now w)). assert (Hf1 : w_faults w1 = []) by done.
  rewrite (bind_eq _ _ w _ w1 eq_refl), bind_attempt, query_run by done. simpl.
  apply process_items_budget; [done|done|]. apply due_listed. apply Hb.
Qed.

Fixpoint rounds (n : nat) : MDB unit :=
  match n with O => ret tt | S n' => do! processScheduledSends in rounds n' end.

Lemma rounds_budget n k w :
  w_faults w = [] -> budget k (m_queue (w_db w)) (sends (w_db w)) ->
  budget k (m_queue (w_db (snd (rounds n w)))) (sends (w_db (snd (rounds n w)))).
Proof.
  revert w. induction n as [|n IH]; intros w Hf Hb; simpl; [done|].
  destruct (round_budget k w Hf Hb) as [Hf' Hb']. unfold bind.
  destruct (processScheduledSends w) as [[[]|e] w']; [by apply IH|done].
Qed.

(** C37.  However many times the worker runs, and whatever the mail servers
    answer, the messages it sends are at most the attempts its queue has left:
    three for an item just queued, one less after each failed attempt, none
    once it is sent, failed or canceled.  So a queued draft is sent at most
    three times, provided no statement on the database fails. *)
Theorem worker_sends_bounded n w :
  w_faults w = [] -> distinct_ids (m_queue (w_db w)) ->
  let d := w_db w in let d' := w_db (snd (rounds n w)) in
  (length (sends d') + potential (m_queue d') <= length (sends d) + potential (m_queue d))%nat.
Proof.
  intros Hf Hd. destruct (rounds_budget n (length (sends (w_db w)) + potential (m_queue (w_db w))) w);
    [done|by split|done].
Qed.
End Facts.

(** ** A concrete queue *)

Definition queued_draft : Draft :=
  mkDraft "draft-1" "user-1" "acct-1" "" "" "" "" "" "" "" "{}" "bob@example.org" "" "" "Hello"
    "Text" "" "" "" "" ZeroTime "scheduled" "" 0 0.

Definition queued_item (id : string) (state : string) (retries : Z) : ScheduledSendQueueItem :=
  mkQueueItem id "draft-1" "user-1" "acct-1" 0 state retries None None 0 0.

Definition queue_db (queue : list ScheduledSendQueueItem) : MailDB :=
  sender_db <| m_base := m_base sender_db <| mail_accounts :=
                 map (fun a => a <| ma_SecretEnc := gcm_seal "n" "secret" |>)
                   (mail_accounts (m_base sender_db)) |> |>
            <| m_drafts := [queued_draft] |> <| m_queue := queue |>.

(** Servers that refuse every message, and servers that take them. *)
Definition refusing_servers : MailServers :=
  {| mail_error := fun _ _ => Some (ErrText "451 try later");
     mail_message := fun _ _ => mkLiveMessage "" "" [] |}.
Definition taking_servers : MailServers :=
  {| mail_error := fun _ _ => None; mail_message := fun _ _ => mkLiveMessage "" "" [] |}.

Definition queue_summary (d : MailDB) : nat * list (string * Z) :=
  (length (sends d), map (fun q => (qi_State q, qi_RetryCount q)) (m_queue d)).

(** Three attempts at thirty and sixty seconds' distance, then the item fails. *)
Example refused_three_times :
  let run n := snd (rounds (servers := refusing_servers) n
                 (sender_world (queue_db [queued_item "q1" "queued" 0]))) in
  queue_summary (w_db (run 1%nat)) = (1%nat, [("retrying", 1)])
  /\ queue_summary (w_db (run 40%nat)) = (2%nat, [("retrying", 2)])
  /\ queue_summary (w_db (run 100%nat)) = (3%nat, [("failed", 2)]).
Proof. split; [|split]; vm_compute; reflexivity. Qed.

Lemma worker_sends_bounded_witness :
  let d := queue_db [queued_item "q1" "queued" 0; queued_item "q2" "sent" 0] in
  let d' := w_db (snd (rounds (servers := refusing_servers) 100
                         (sender_world d))) in
  potential (m_queue d) = 3%nat /\ length (sends d') = 3%nat
  /\ (length (sends d') + potential (m_queue d') <= 0 + 3)%nat.
Proof.
  intros d d'. split; [vm_compute; reflexivity|]. split; [vm_compute; reflexivity|].
  apply (worker_sends_bounded (servers := refusing_servers) 100
           (sender_world d)); [reflexivity|].
  repeat constructor; simpl; intuition discriminate.
Defined.

(** An item canceled after it was listed is sent all the same, and its
    cancellation is overwritten. *)
Example canceled_item_is_sent :
  queue_summary (w_db (snd (processScheduledSendItem
                              (servers := taking_servers) (queued_item "q1" "queued" 0)
                              (sender_world (queue_db [queued_item "q1" "canceled" 0])))))
  = (1%nat, [("sent", 0)]).
Proof. vm_compute. reflexivity. Qed.

(** The error of marking an item sent is dropped, so it is due again and the
    next round sends it a second time. *)
Example failed_mark_resends :
  let w := mkWorld (queue_db [queued_item "q1" "queued" 0])
             (repeat false 13 ++ [true]) 0 0 [] in
  queue_summary (w_db (snd (rounds (servers := taking_servers) 2 w)))
  = (2%nat, [("sent", 0)]).
Proof. vm_compute. reflexivity. Qed.
