(* ===== verification/OutboundStore.v ===== *)
(** * OutboundStore: internal/store/outbound.go

    Campaigns, their steps, the enrollments of recipients, events, what is
    known of a recipient, the threads of messages sent, and suppressions; with
    the reads of reply funnels and contacts (reply_funnels.go, contacts.go) a
    sender is chosen by.  The emails, nicknames and groups of a contact are
    read by statements that may fail, and otherwise left out. *)

From S2P Require Import Prelude GoStrings Effects GoStd Threading Models Users Mfa MailAccounts Host.
From S2P Require Import Identity MailModels.
Local Open Scope Z_scope.

(** ** Normalisers *)

(** The folded value when it is one of [names]. *)
Definition one_of (dflt : string) (names : list string) (raw : string) : string :=
  let v := fold_trim raw in if existsb (String.eqb v) names then v else dflt.

Definition normalizeOutboundCampaignStatus : string -> string :=
  one_of "draft" ["running"; "paused"; "completed"; "archived"].
Definition normalizeOutboundGoalKind : string -> string :=
  one_of "general_outreach" ["thread_revival"; "find_owner"; "referral_request"; "reengage_dormant"].
Definition normalizeOutboundCampaignMode : string -> string :=
  one_of "new_threads" ["existing_threads"].
Definition normalizeOutboundAudienceSourceKind : string -> string :=
  one_of "manual" ["contact_group"; "saved_search"; "csv_import"].
Definition normalizeOutboundSenderPolicyKind : string -> string :=
  one_of "preferred_sender" ["single_sender"; "campaign_pool"; "reply_funnel"; "thread_owner"].
Definition normalizeOutboundThreadMode : string -> string := one_of "same_thread" ["new_thread"].
Definition normalizeOutboundStepKind : string -> string := one_of "email" ["manual_task"; "email"].
Definition normalizeOutboundEnrollmentStatus : string -> string :=
  one_of "pending" ["scheduled"; "sending"; "waiting_reply"; "paused"; "stopped"; "completed";
                    "bounced"; "unsubscribed"; "manual_only"].
Definition normalizeReplyOutcome : string -> string :=
  one_of "" ["positive_interest"; "meeting_intent"; "question"; "objection"; "referral";
             "wrong_person"; "not_interested"; "unsubscribe_request"; "out_of_office"; "bounce";
             "auto_reply_other"; "hostile"; "manual_review_required"].
Definition normalizeRecipientStateStatus : string -> string :=
  one_of "active" ["replied"; "interested"; "not_interested"; "wrong_person"; "meeting_booked";
                   "unsubscribed"; "hard_bounce"; "suppressed"].
Definition normalizeRecipientScope : string -> string := one_of "workspace" ["campaign_only"].
Definition normalizeThreadBindingType : string -> string :=
  one_of "campaign" ["reply_funnel"; "manual"].
Definition normalizeSuppressionScopeKind : string -> string := one_of "recipient" ["domain"].
Definition normalizeSuppressionSourceKind : string -> string :=
  one_of "manual" ["unsubscribe"; "bounce"; "reply_policy"; "compliance"].
Definition normalizeReplyFunnelReplyMode : string -> string := one_of "collector" ["source"; "smart"].
Definition normalizeReplyFunnelRoutingMode : string -> string :=
  one_of "virtual_inbox" ["managed_rules"; "assisted_forwarding"].
Definition normalizeAssistedForwardingState : string -> string :=
  one_of "not_required" ["pending"; "in_progress"; "confirmed"; "needs_help"].

Definition is_one_of (names : list string) (v : string) : bool := existsb (String.eqb v) names.

Definition replyOutcomeBucket (outcome status : string) : string :=
  let o := normalizeReplyOutcome outcome in
  if is_one_of ["positive_interest"; "meeting_intent"] o then "interested"
  else if String.eqb o "question" then "questions"
  else if String.eqb o "objection" then "objections"
  else if is_one_of ["wrong_person"; "referral"] o then "wrong_person"
  else if is_one_of ["out_of_office"; "auto_reply_other"] o then "out_of_office"
  else if String.eqb o "bounce" then "bounces"
  else if String.eqb o "unsubscribe_request" then "unsubscribed"
  else if String.eqb o "hostile" then "hostile"
  else if String.eqb o "not_interested" then "needs_review"
  else
    let s := normalizeOutboundEnrollmentStatus status in
    if String.eqb s "bounced" then "bounces"
    else if String.eqb s "unsubscribed" then "unsubscribed" else "needs_review".

(** What follows the last [@], or nothing when there is none. *)
Fixpoint after_last (b : Z) (l : list Z) : option (list Z) :=
  match l with
  | [] => None
  | x :: l' => match after_last b l' with
               | Some rest => Some rest
               | None => if x =? b then Some l' else None
               end
  end.

Definition outboundRecipientDomain (email : string) : string :=
  match after_last 64 (bytes (fold_trim email)) with
  | Some rest => TrimSpace (of_bytes rest)
  | None => ""
  end.

(** Text that is [{}] when blank. *)
Definition json_or_empty (v : string) : string :=
  let v := TrimSpace v in if String.eqb v "" then "{}" else v.

(** Columns declared [COLLATE NOCASE]. *)
Definition nocase (a b : string) : bool := String.eqb (sql_lower a) (sql_lower b).

(** The first ordering, then the second. *)
Definition then_by {R} (leb1 leb2 : R -> R -> bool) (a b : R) : bool :=
  leb1 a b && (negb (leb1 b a) || leb2 a b).

Definition by_num {R} (key : R -> Z) (o : SortOrder) : R -> R -> bool :=
  in_order (fun r => KNum (key r)) o.
Definition by_text {R} (key : R -> string) (o : SortOrder) : R -> R -> bool :=
  in_order (fun r => KText (key r)) o.

(** ** Rows as they are read *)

Definition has_campaign (id : string) (e : OutboundEnrollment) : bool :=
  String.eqb (oe_CampaignID e) id.

Definition count_where (d : OutboundDB) (id : string) (p : OutboundEnrollment -> bool) : Z :=
  Z.of_nat (affected (fun e => has_campaign id e && p e) (o_enrollments d)).

Definition scanOutboundCampaign (d : OutboundDB) (c : OutboundCampaign) : OutboundCampaign :=
  let count := count_where d (oc_ID c) in
  c <| oc_Status := normalizeOutboundCampaignStatus (oc_Status c) |>
    <| oc_GoalKind := normalizeOutboundGoalKind (oc_GoalKind c) |>
    <| oc_PlaybookKey := TrimSpace (oc_PlaybookKey c) |>
    <| oc_CampaignMode := normalizeOutboundCampaignMode (oc_CampaignMode c) |>
    <| oc_AudienceSourceKind := normalizeOutboundAudienceSourceKind (oc_AudienceSourceKind c) |>
    <| oc_SenderPolicyKind := normalizeOutboundSenderPolicyKind (oc_SenderPolicyKind c) |>
    <| oc_Name := TrimSpace (oc_Name c) |>
    <| oc_AudienceSourceRef := TrimSpace (oc_AudienceSourceRef c) |>
    <| oc_SenderPolicyRef := TrimSpace (oc_SenderPolicyRef c) |>
    <| oc_ReplyPolicyJSON := TrimSpace (oc_ReplyPolicyJSON c) |>
    <| oc_SuppressionPolicyJSON := TrimSpace (oc_SuppressionPolicyJSON c) |>
    <| oc_SchedulePolicyJSON := TrimSpace (oc_SchedulePolicyJSON c) |>
    <| oc_CompliancePolicyJSON := TrimSpace (oc_CompliancePolicyJSON c) |>
    <| oc_GovernancePolicyJSON := TrimSpace (oc_GovernancePolicyJSON c) |>
    <| oc_EnrollmentCount := count (fun _ => true) |>
    <| oc_SentCount := count (fun e => negb (String.eqb (oe_LastSentMessageID e) "")) |>
    <| oc_RepliedCount := count (fun e => negb (String.eqb (oe_ReplyOutcome e) "")) |>
    <| oc_PositiveCount :=
         count (fun e => is_one_of ["positive_interest"; "meeting_intent"] (oe_ReplyOutcome e)) |>
    <| oc_NegativeCount :=
         count (fun e => is_one_of ["not_interested"; "unsubscribe_request"; "hostile";
                                    "wrong_person"] (oe_ReplyOutcome e)) |>
    <| oc_PausedCount := count (fun e => String.eqb (oe_Status e) "paused") |>
    <| oc_BouncedCount := count (fun e => String.eqb (oe_Status e) "bounced") |>
    <| oc_UnsubscribedCount := count (fun e => String.eqb (oe_Status e) "unsubscribed") |>
    <| oc_WaitingHumanCount :=
         count (fun e => is_one_of ["manual_only"; "paused"] (oe_Status e)
           && is_one_of ["question"; "objection"; "referral"; "wrong_person";
                         "manual_review_required"; "out_of_office"; "auto_reply_other"]
                (oe_ReplyOutcome e)) |>.

Definition scanOutboundCampaignStep (s : OutboundCampaignStep) : OutboundCampaignStep :=
  s <| os_Kind := normalizeOutboundStepKind (os_Kind s) |>
    <| os_ThreadMode := normalizeOutboundThreadMode (os_ThreadMode s) |>
    <| os_SubjectTemplate := TrimSpace (os_SubjectTemplate s) |>
    <| os_BodyTemplate := TrimSpace (os_BodyTemplate s) |>
    <| os_SendWindowJSON := TrimSpace (os_SendWindowJSON s) |>
    <| os_TaskPolicyJSON := TrimSpace (os_TaskPolicyJSON s) |>
    <| os_BranchPolicyJSON := TrimSpace (os_BranchPolicyJSON s) |>.

(** A [LEFT JOIN] on an identifier; NULL joins nothing. *)
Definition joined {R} (key : R -> string) (id : string) (rows : list R) : option R :=
  if String.eqb id "" then None else List.find (fun r => String.eqb (key r) id) rows.

Definition joined_text {R} (r : option R) (f : R -> string) : string :=
  match r with Some r => TrimSpace (f r) | None => "" end.

Definition scanOutboundEnrollment (d : OutboundDB) (campaign : OutboundCampaign)
    (e : OutboundEnrollment) : OutboundEnrollment :=
  let contact := joined ct_ID (oe_ContactID e) (o_contacts d) in
  let account := joined ma_ID (oe_SenderAccountID e) (mail_accounts (m_base (o_mail d))) in
  let binding := List.find (fun b => String.eqb (tb_ID b) (oe_ThreadBindingID e)) (o_bindings d) in
  let login := joined_text account ma_Login in
  let label := joined_text account ma_DisplayName in
  let status := normalizeOutboundEnrollmentStatus (oe_Status e) in
  let outcome := normalizeReplyOutcome (oe_ReplyOutcome e) in
  e <| oe_ContactID := TrimSpace (oe_ContactID e) |>
    <| oe_SenderAccountID := TrimSpace (oe_SenderAccountID e) |>
    <| oe_SenderProfileID := TrimSpace (oe_SenderProfileID e) |>
    <| oe_ReplyFunnelID := TrimSpace (oe_ReplyFunnelID e) |>
    <| oe_ThreadBindingID := TrimSpace (oe_ThreadBindingID e) |>
    <| oe_Status := status |> <| oe_ReplyOutcome := outcome |>
    <| oe_ManualOwnerUserID := TrimSpace (oe_ManualOwnerUserID e) |>
    <| oe_SeedContextJSON := TrimSpace (oe_SeedContextJSON e) |>
    <| oe_PauseReason := TrimSpace (oe_PauseReason e) |>
    <| oe_StopReason := TrimSpace (oe_StopReason e) |>
    <| oe_LastSentMessageID := TrimSpace (oe_LastSentMessageID e) |>
    <| oe_CampaignName := TrimSpace (oc_Name campaign) |>
    <| oe_ContactName := joined_text contact ct_Name |>
    <| oe_SenderAccountLogin := login |>
    <| oe_SenderAccountLabel := if String.eqb label "" then login else label |>
    <| oe_ThreadSubject := joined_text binding tb_ThreadSubject |>
    <| oe_LastReplyMessageID := joined_text binding tb_LastReplyMessageID |>
    <| oe_LastReplyBucket := replyOutcomeBucket outcome status |>
    <| oe_LastReplyAt := match binding with Some b => tb_LastReplyAt b | None => ZeroTime end |>.

(** [JOIN outbound_campaigns] and a condition on both rows; the joined fields
    are filled in. *)
Definition enrollments_where (p : OutboundCampaign -> OutboundEnrollment -> bool) (d : OutboundDB) :
    list (OutboundCampaign * OutboundEnrollment) :=
  flat_map (fun e =>
    match List.find (fun c => String.eqb (oc_ID c) (oe_CampaignID e)) (o_campaigns d) with
    | Some c => if p c e then [(c, e)] else []
    | None => []
    end) (o_enrollments d).

Definition scan_joined (d : OutboundDB) (ce : OutboundCampaign * OutboundEnrollment) :
    OutboundEnrollment := scanOutboundEnrollment d (fst ce) (snd ce).

Definition scanRecipientState (r : RecipientState) : RecipientState :=
  r <| rc_PrimaryContactID := TrimSpace (rc_PrimaryContactID r) |>
    <| rc_RecipientEmail := fold_trim (rc_RecipientEmail r) |>
    <| rc_RecipientDomain := fold_trim (rc_RecipientDomain r) |>
    <| rc_Status := normalizeRecipientStateStatus (rc_Status r) |>
    <| rc_Scope := normalizeRecipientScope (rc_Scope r) |>
    <| rc_LastReplyOutcome := normalizeReplyOutcome (rc_LastReplyOutcome r) |>
    <| rc_SuppressionReason := TrimSpace (rc_SuppressionReason r) |>
    <| rc_Notes := TrimSpace (rc_Notes r) |>.

Definition scanMailThreadBinding (b : MailThreadBinding) : MailThreadBinding :=
  b <| tb_BindingType := normalizeThreadBindingType (tb_BindingType b) |>
    <| tb_CampaignID := TrimSpace (tb_CampaignID b) |>
    <| tb_EnrollmentID := TrimSpace (tb_EnrollmentID b) |>
    <| tb_FunnelID := TrimSpace (tb_FunnelID b) |>
    <| tb_ReplyAccountID := TrimSpace (tb_ReplyAccountID b) |>
    <| tb_ReplySenderProfileID := TrimSpace (tb_ReplySenderProfileID b) |>
    <| tb_CollectorAccountID := TrimSpace (tb_CollectorAccountID b) |>
    <| tb_OwnerUserID := TrimSpace (tb_OwnerUserID b) |>
    <| tb_ThreadID := TrimSpace (tb_ThreadID b) |>
    <| tb_RecipientEmail := fold_trim (tb_RecipientEmail b) |>
    <| tb_RecipientDomain := fold_trim (tb_RecipientDomain b) |>
    <| tb_RootOutboundMessageID := NormalizeMessageIDHeader (tb_RootOutboundMessageID b) |>
    <| tb_LastOutboundMessageID := NormalizeMessageIDHeader (tb_LastOutboundMessageID b) |>
    <| tb_LastReplyMessageID := TrimSpace (tb_LastReplyMessageID b) |>
    <| tb_ThreadSubject := TrimSpace (tb_ThreadSubject b) |>.

Definition scanOutboundSuppression (s : OutboundSuppression) : OutboundSuppression :=
  s <| su_ScopeKind := normalizeSuppressionScopeKind (su_ScopeKind s) |>
    <| su_ScopeValue := fold_trim (su_ScopeValue s) |>
    <| su_CampaignID := TrimSpace (su_CampaignID s) |>
    <| su_Reason := TrimSpace (su_Reason s) |>
    <| su_SourceKind := normalizeSuppressionSourceKind (su_SourceKind s) |>.

Definition scanOutboundEvent (e : OutboundEvent) : OutboundEvent :=
  e <| ov_EventKind := TrimSpace (ov_EventKind e) |>
    <| ov_EventPayloadJSON := TrimSpace (ov_EventPayloadJSON e) |>
    <| ov_ActorKind := TrimSpace (ov_ActorKind e) |>
    <| ov_ActorRef := TrimSpace (ov_ActorRef e) |>.

Definition scanReplyFunnel (f : ReplyFunnel) : ReplyFunnel :=
  f <| rf_ReplyMode := normalizeReplyFunnelReplyMode (rf_ReplyMode f) |>
    <| rf_RoutingMode := normalizeReplyFunnelRoutingMode (rf_RoutingMode f) |>
    <| rf_SavedSearchID := TrimSpace (rf_SavedSearchID f) |>
    <| rf_TargetReplyCount := if rf_TargetReplyCount f <=? 0 then 100 else rf_TargetReplyCount f |>.

Definition scanReplyFunnelAccount (a : ReplyFunnelAccount) : ReplyFunnelAccount :=
  a <| fa_Role := fold_trim (fa_Role a) |>
    <| fa_SenderIdentityID := TrimSpace (fa_SenderIdentityID a) |>
    <| fa_RedirectRuleID := TrimSpace (fa_RedirectRuleID a) |>
    <| fa_AssistedForwardingState := normalizeAssistedForwardingState (fa_AssistedForwardingState a) |>
    <| fa_AssistedForwardingNotes := TrimSpace (fa_AssistedForwardingNotes a) |>.

Definition first_of {A} (l : list A) : Res A :=
  match l with a :: _ => Ok a | [] => Fail ErrNotFound end.

Section Store.
Context {host : Host}.

(** [mail.NormalizeMailboxAddress] *)
Definition NormalizeMailboxAddress (raw : string) : Res string :=
  let trimmed := TrimSpace raw in
  if String.eqb trimmed "" then Fail (ErrText "email address is required")
  else match net_ParseAddress trimmed with
       | None => Fail (ErrText "invalid email address")
       | Some parsed =>
           let address := TrimSpace parsed in
           if String.eqb address "" then Fail (ErrText "invalid email address") else Ok address
       end.

Definition normalizeOutboundRecipientEmail (raw : string) : Res string :=
  match NormalizeMailboxAddress raw with
  | Ok value => Ok (fold_trim value)
  | Fail e => Fail e
  end.

(** ** Campaigns *)

Definition campaigns_by (p : OutboundCampaign -> bool) (d : OutboundDB) : list OutboundCampaign :=
  map (scanOutboundCampaign d) (List.filter p (o_campaigns d)).

Definition owned_campaign (userID id : string) (c : OutboundCampaign) : bool :=
  String.eqb (oc_UserID c) userID && String.eqb (oc_ID c) id.

Definition ListOutboundCampaigns (userID : string) : ODB (list OutboundCampaign) :=
  query (fun d => Ok (map (scanOutboundCampaign d)
    (order_by (then_by (by_num oc_UpdatedAt DESC) (by_text (fun c => sql_lower (oc_Name c)) ASC))
       (List.filter (fun c => String.eqb (oc_UserID c) userID) (o_campaigns d))))).

Definition GetOutboundCampaignByID (userID id : string) : ODB OutboundCampaign :=
  query (fun d => first_of (campaigns_by (owned_campaign userID (TrimSpace id)) d)).

Definition GetOutboundCampaignByIDAny (id : string) : ODB OutboundCampaign :=
  query (fun d => first_of (campaigns_by (fun c => String.eqb (oc_ID c) (TrimSpace id)) d)).

(** The columns a handler may set, normalised. *)
Definition stored_campaign (inp : OutboundCampaign) : OutboundCampaign :=
  inp <| oc_Name := TrimSpace (oc_Name inp) |>
    <| oc_Status := normalizeOutboundCampaignStatus (oc_Status inp) |>
    <| oc_GoalKind := normalizeOutboundGoalKind (oc_GoalKind inp) |>
    <| oc_PlaybookKey := TrimSpace (oc_PlaybookKey inp) |>
    <| oc_CampaignMode := normalizeOutboundCampaignMode (oc_CampaignMode inp) |>
    <| oc_AudienceSourceKind := normalizeOutboundAudienceSourceKind (oc_AudienceSourceKind inp) |>
    <| oc_AudienceSourceRef := TrimSpace (oc_AudienceSourceRef inp) |>
    <| oc_SenderPolicyKind := normalizeOutboundSenderPolicyKind (oc_SenderPolicyKind inp) |>
    <| oc_SenderPolicyRef := TrimSpace (oc_SenderPolicyRef inp) |>
    <| oc_ReplyPolicyJSON := json_or_empty (oc_ReplyPolicyJSON inp) |>
    <| oc_SuppressionPolicyJSON := json_or_empty (oc_SuppressionPolicyJSON inp) |>
    <| oc_SchedulePolicyJSON := json_or_empty (oc_SchedulePolicyJSON inp) |>
    <| oc_CompliancePolicyJSON := json_or_empty (oc_CompliancePolicyJSON inp) |>
    <| oc_GovernancePolicyJSON := json_or_empty (oc_GovernancePolicyJSON inp) |>.

Definition fresh_id (id : string) : ODB string :=
  if String.eqb (TrimSpace id) "" then uuid_NewString else ret id.

Definition CreateOutboundCampaign (inp : OutboundCampaign) : ODB OutboundCampaign :=
  let! now := time_Now in
  let! id := fresh_id (oc_ID inp) in
  let inp := stored_campaign inp <| oc_ID := id |> <| oc_CreatedAt := now |>
               <| oc_UpdatedAt := now |> in
  do! statement (fun d =>
        match insert_row (fun c c0 => String.eqb (oc_ID c) (oc_ID c0)) inp (o_campaigns d) with
        | Ok rows => Ok (tt, d <| o_campaigns := rows |>)
        | Fail e => Fail e
        end) in
  GetOutboundCampaignByID (oc_UserID inp) (oc_ID inp).

Definition UpdateOutboundCampaign (inp : OutboundCampaign) : ODB OutboundCampaign :=
  let! current := GetOutboundCampaignByID (oc_UserID inp) (oc_ID inp) in
  let! now := time_Now in
  let p := owned_campaign (oc_UserID current) (oc_ID current) in
  do! found_row (statement (fun d => Ok (affected p (o_campaigns d),
        d <| o_campaigns := update_rows p (fun c => stored_campaign inp
               <| oc_ID := oc_ID c |> <| oc_UserID := oc_UserID c |>
               <| oc_CreatedAt := oc_CreatedAt c |> <| oc_UpdatedAt := now |>)
             (o_campaigns d) |>))) in
  GetOutboundCampaignByID (oc_UserID current) (oc_ID current).

Definition SetOutboundCampaignStatus (userID id status : string) (launchedAt completedAt : Z) :
    ODB unit :=
  let! now := time_Now in
  let p := owned_campaign userID (TrimSpace id) in
  found_row (statement (fun d => Ok (affected p (o_campaigns d),
    d <| o_campaigns := update_rows p (fun c => c
           <| oc_Status := normalizeOutboundCampaignStatus status |> <| oc_UpdatedAt := now |>
           <| oc_LaunchedAt := coalesceTime launchedAt (oc_LaunchedAt c) |>
           <| oc_CompletedAt := coalesceTime completedAt (oc_CompletedAt c) |>)
         (o_campaigns d) |>))).

(** ** Steps *)

(** The primary key, and one step at each position of a campaign. *)
Definition step_clash (s s0 : OutboundCampaignStep) : bool :=
  String.eqb (os_ID s) (os_ID s0)
  || (String.eqb (os_CampaignID s) (os_CampaignID s0) && (os_Position s =? os_Position s0)).

(** An [UPDATE] of the rows [p] in order: the unique key is checked after each
    row, against the rows as they are then. *)
Fixpoint update_steps (p : OutboundCampaignStep -> bool)
    (f : OutboundCampaignStep -> OutboundCampaignStep) (before rows : list OutboundCampaignStep) :
    Res (list OutboundCampaignStep) :=
  match rows with
  | [] => Ok (rev before)
  | s :: rows' =>
      if p s then
        if existsb (step_clash (f s)) (before ++ rows') then Fail ErrConstraint
        else update_steps p f (f s :: before) rows'
      else update_steps p f (s :: before) rows'
  end.

Definition update_steps_statement (p : OutboundCampaignStep -> bool)
    (f : OutboundCampaignStep -> OutboundCampaignStep) : ODB nat :=
  statement (fun d => match update_steps p f [] (o_steps d) with
                      | Ok rows => Ok (affected p (o_steps d), d <| o_steps := rows |>)
                      | Fail e => Fail e
                      end).

Definition step_has (id : string) (s : OutboundCampaignStep) : bool := String.eqb (os_ID s) id.

Definition ListOutboundCampaignSteps (campaignID : string) : ODB (list OutboundCampaignStep) :=
  query (fun d => Ok (map scanOutboundCampaignStep
    (order_by (then_by (by_num os_Position ASC) (by_num os_CreatedAt ASC))
       (List.filter (fun s => String.eqb (os_CampaignID s) (TrimSpace campaignID)) (o_steps d))))).

Definition GetOutboundCampaignStepByID (stepID : string) : ODB OutboundCampaignStep :=
  query (fun d => first_of (map scanOutboundCampaignStep
                              (List.filter (step_has (TrimSpace stepID)) (o_steps d)))).

Definition stored_step (inp : OutboundCampaignStep) : OutboundCampaignStep :=
  inp <| os_Kind := normalizeOutboundStepKind (os_Kind inp) |>
    <| os_ThreadMode := normalizeOutboundThreadMode (os_ThreadMode inp) |>
    <| os_SubjectTemplate := TrimSpace (os_SubjectTemplate inp) |>
    <| os_BodyTemplate := TrimSpace (os_BodyTemplate inp) |>
    <| os_SendWindowJSON := json_or_empty (os_SendWindowJSON inp) |>
    <| os_TaskPolicyJSON := json_or_empty (os_TaskPolicyJSON inp) |>
    <| os_BranchPolicyJSON := json_or_empty (os_BranchPolicyJSON inp) |>.

Definition CreateOutboundCampaignStep (inp : OutboundCampaignStep) : ODB OutboundCampaignStep :=
  let! now := time_Now in
  let! id := fresh_id (os_ID inp) in
  let inp := stored_step inp <| os_ID := id |> <| os_CampaignID := TrimSpace (os_CampaignID inp) |>
               <| os_CreatedAt := now |> <| os_UpdatedAt := now |> in
  do! statement (fun d => match insert_row step_clash inp (o_steps d) with
                          | Ok rows => Ok (tt, d <| o_steps := rows |>)
                          | Fail e => Fail e
                          end) in
  GetOutboundCampaignStepByID (os_ID inp).

Definition UpdateOutboundCampaignStep (inp : OutboundCampaignStep) : ODB OutboundCampaignStep :=
  let! current := GetOutboundCampaignStepByID (os_ID inp) in
  let! now := time_Now in
  do! found_row (update_steps_statement (step_has (os_ID current)) (fun s => stored_step inp
        <| os_ID := os_ID s |> <| os_CampaignID := os_CampaignID s |>
        <| os_CreatedAt := os_CreatedAt s |> <| os_UpdatedAt := now |>)) in
  GetOutboundCampaignStepByID (os_ID current).

Definition DeleteOutboundCampaignStep (stepID : string) : ODB unit :=
  let p := step_has (TrimSpace stepID) in
  found_row (statement (fun d => Ok (affected p (o_steps d),
    d <| o_steps := delete_rows p (o_steps d) |>))).

Definition DeleteOutboundCampaignSteps (campaignID : string) : ODB unit :=
  exec (fun d => d <| o_steps :=
    delete_rows (fun s => String.eqb (os_CampaignID s) (TrimSpace campaignID)) (o_steps d) |>).

Fixpoint place_steps (campaignID : string) (position : Z) (stepIDs : list string) : ODB unit :=
  match stepIDs with
  | [] => ret tt
  | stepID :: rest =>
      let! now := time_Now in
      let! _ := update_steps_statement
                  (fun s => String.eqb (os_CampaignID s) (TrimSpace campaignID)
                            && step_has (TrimSpace stepID) s)
                  (fun s => s <| os_Position := position |> <| os_UpdatedAt := now |>) in
      place_steps campaignID (position + 1) rest
  end.

Definition ReorderOutboundCampaignSteps (campaignID : string) (stepIDs : list string) : ODB unit :=
  transaction (place_steps campaignID 1 stepIDs).

(** ** Enrollments *)

Definition list_enrollments (p : OutboundCampaign -> OutboundEnrollment -> bool)
    (leb : OutboundEnrollment -> OutboundEnrollment -> bool) (limit : option Z) :
    ODB (list OutboundEnrollment) :=
  query (fun d =>
    let rows := order_by (fun a b => leb (snd a) (snd b)) (enrollments_where p d) in
    Ok (map (scan_joined d) match limit with Some n => take (Z.to_nat n) rows | None => rows end)).

Definition get_enrollment (p : OutboundCampaign -> OutboundEnrollment -> bool) :
    ODB OutboundEnrollment :=
  query (fun d => first_of (map (scan_joined d) (enrollments_where p d))).

Definition ListOutboundEnrollmentsByCampaign (userID campaignID : string) :
    ODB (list OutboundEnrollment) :=
  list_enrollments (fun c e => String.eqb (oc_UserID c) userID
                               && has_campaign (TrimSpace campaignID) e)
    (then_by (by_num oe_UpdatedAt DESC) (by_text (fun e => sql_lower (oe_RecipientEmail e)) ASC))
    None.

Definition GetOutboundEnrollmentByID (userID id : string) : ODB OutboundEnrollment :=
  get_enrollment (fun c e => String.eqb (oc_UserID c) userID
                             && String.eqb (oe_ID e) (TrimSpace id)).

Definition GetOutboundEnrollmentByCampaignEmail (campaignID recipientEmail : string) :
    ODB OutboundEnrollment :=
  get_enrollment (fun _ e => has_campaign (TrimSpace campaignID) e
                             && nocase (oe_RecipientEmail e) (fold_trim recipientEmail)).

Definition same_enrollment (e e0 : OutboundEnrollment) : bool :=
  has_campaign (oe_CampaignID e) e0 && nocase (oe_RecipientEmail e0) (oe_RecipientEmail e).

(** The row updated keeps its identifier, campaign, address and creation. *)
Definition upsert_enrollment (inp : OutboundEnrollment) (rows : list OutboundEnrollment) :
    Res (list OutboundEnrollment) :=
  if existsb (same_enrollment inp) rows then
    Ok (update_rows (same_enrollment inp) (fun e => inp <| oe_ID := oe_ID e |>
          <| oe_CampaignID := oe_CampaignID e |> <| oe_RecipientEmail := oe_RecipientEmail e |>
          <| oe_CreatedAt := oe_CreatedAt e |>) rows)
  else insert_row (fun e e0 => String.eqb (oe_ID e) (oe_ID e0)) inp rows.

Definition UpsertOutboundEnrollment (inp : OutboundEnrollment) : ODB OutboundEnrollment :=
  let! now := time_Now in
  let! id := fresh_id (oe_ID inp) in
  let! recipientEmail := of_res (normalizeOutboundRecipientEmail (oe_RecipientEmail inp)) in
  let inp := inp <| oe_ID := id |> <| oe_RecipientEmail := recipientEmail |>
    <| oe_RecipientDomain := outboundRecipientDomain recipientEmail |>
    <| oe_CampaignID := TrimSpace (oe_CampaignID inp) |>
    <| oe_ContactID := nullableTrimmedString (oe_ContactID inp) |>
    <| oe_SenderAccountID := nullableTrimmedString (oe_SenderAccountID inp) |>
    <| oe_SenderProfileID := nullableTrimmedString (oe_SenderProfileID inp) |>
    <| oe_ReplyFunnelID := nullableTrimmedString (oe_ReplyFunnelID inp) |>
    <| oe_ThreadBindingID := TrimSpace (oe_ThreadBindingID inp) |>
    <| oe_Status := normalizeOutboundEnrollmentStatus (oe_Status inp) |>
    <| oe_PauseReason := TrimSpace (oe_PauseReason inp) |>
    <| oe_StopReason := TrimSpace (oe_StopReason inp) |>
    <| oe_ReplyOutcome := normalizeReplyOutcome (oe_ReplyOutcome inp) |>
    <| oe_ManualOwnerUserID := nullableTrimmedString (oe_ManualOwnerUserID inp) |>
    <| oe_SeedContextJSON := json_or_empty (oe_SeedContextJSON inp) |>
    <| oe_LastSentMessageID := TrimSpace (oe_LastSentMessageID inp) |>
    <| oe_CreatedAt := coalesceTime (oe_CreatedAt inp) now |> <| oe_UpdatedAt := now |> in
  do! statement (fun d => match upsert_enrollment inp (o_enrollments d) with
                          | Ok rows => Ok (tt, d <| o_enrollments := rows |>)
                          | Fail e => Fail e
                          end) in
  GetOutboundEnrollmentByCampaignEmail (oe_CampaignID inp) (oe_RecipientEmail inp).

Definition limit_or_50 (limit : Z) : option Z := Some (if limit <=? 0 then 50 else limit).

Definition due_enrollment (now : Z) (c : OutboundCampaign) (e : OutboundEnrollment) : bool :=
  String.eqb (oc_Status c) "running" && is_one_of ["pending"; "scheduled"] (oe_Status e)
  && (IsZero (oe_NextActionAt e) || (oe_NextActionAt e <=? now)).

Definition ListDueOutboundEnrollments (now limit : Z) : ODB (list OutboundEnrollment) :=
  list_enrollments (due_enrollment now)
    (by_num (fun e => coalesceTime (oe_NextActionAt e) (oe_CreatedAt e)) ASC) (limit_or_50 limit).

Definition resume_due (now : Z) (c : OutboundCampaign) (e : OutboundEnrollment) : bool :=
  String.eqb (oc_Status c) "running" && String.eqb (oe_Status e) "paused"
  && String.eqb (oe_PauseReason e) "out_of_office"
  && negb (IsZero (oe_NextActionAt e)) && (oe_NextActionAt e <=? now).

Definition ListOutboundOOOResumeDue (now limit : Z) : ODB (list OutboundEnrollment) :=
  list_enrollments (resume_due now) (by_num oe_NextActionAt ASC) (limit_or_50 limit).

Definition active_enrollment (userID excludeCampaignID : string) (c : OutboundCampaign)
    (e : OutboundEnrollment) : bool :=
  String.eqb (oc_UserID c) userID
  && is_one_of ["pending"; "scheduled"; "sending"; "waiting_reply"; "paused"; "manual_only"]
       (oe_Status e)
  && (String.eqb (TrimSpace excludeCampaignID) ""
      || negb (has_campaign (TrimSpace excludeCampaignID) e)).

Definition ListActiveOutboundEnrollmentsByRecipient (userID recipientEmail excludeCampaignID : string) :
    ODB (list OutboundEnrollment) :=
  list_enrollments (fun c e => active_enrollment userID excludeCampaignID c e
                               && nocase (oe_RecipientEmail e) (fold_trim recipientEmail))
    (by_num oe_UpdatedAt DESC) None.

Definition ListActiveOutboundEnrollmentsByDomain (userID domain excludeCampaignID : string) :
    ODB (list OutboundEnrollment) :=
  list_enrollments (fun c e => active_enrollment userID excludeCampaignID c e
                               && nocase (oe_RecipientDomain e) (fold_trim domain))
    (by_num oe_UpdatedAt DESC) None.

(** ** Events *)

Definition AppendOutboundEvent (inp : OutboundEvent) : ODB OutboundEvent :=
  let! now := time_Now in
  let! id := fresh_id (ov_ID inp) in
  let actor := TrimSpace (ov_ActorKind inp) in
  let inp := inp <| ov_ID := id |>
    <| ov_EventPayloadJSON := if String.eqb (ov_EventPayloadJSON inp) "" then "{}"
                              else ov_EventPayloadJSON inp |>
    <| ov_ActorKind := if String.eqb actor "" then "system" else actor |>
    <| ov_ActorRef := TrimSpace (ov_ActorRef inp) |> <| ov_CreatedAt := now |> in
  let row := inp <| ov_CampaignID := TrimSpace (ov_CampaignID inp) |>
    <| ov_EnrollmentID := TrimSpace (ov_EnrollmentID inp) |>
    <| ov_EventKind := TrimSpace (ov_EventKind inp) |>
    <| ov_EventPayloadJSON := TrimSpace (ov_EventPayloadJSON inp) |> in
  do! statement (fun d =>
        match insert_row (fun e e0 => String.eqb (ov_ID e) (ov_ID e0)) row (o_events d) with
        | Ok rows => Ok (tt, d <| o_events := rows |>)
        | Fail e => Fail e
        end) in
  ret inp.

Definition ListOutboundCampaignEvents (campaignID : string) (limit : Z) : ODB (list OutboundEvent) :=
  query (fun d => Ok (map scanOutboundEvent
    (take (Z.to_nat (if limit <=? 0 then 100 else limit))
      (order_by (by_num ov_CreatedAt DESC)
        (List.filter (fun e => String.eqb (ov_CampaignID e) (TrimSpace campaignID)) (o_events d)))))).

(** ** Recipients *)

Definition recipient_is (userID email : string) (r : RecipientState) : bool :=
  String.eqb (rc_UserID r) userID && nocase (rc_RecipientEmail r) email.

Definition GetRecipientState (userID recipientEmail : string) : ODB RecipientState :=
  query (fun d => first_of (map scanRecipientState
    (List.filter (recipient_is userID (fold_trim recipientEmail)) (o_recipients d)))).

(** The conflict keeps the key's spelling. *)
Definition upsert_recipient (inp : RecipientState) (rows : list RecipientState) :
    list RecipientState :=
  let p := recipient_is (rc_UserID inp) (rc_RecipientEmail inp) in
  if existsb p rows
  then update_rows p (fun r => inp <| rc_RecipientEmail := rc_RecipientEmail r |>) rows
  else rows ++ [inp].

Definition UpsertRecipientState (inp : RecipientState) : ODB RecipientState :=
  let! now := time_Now in
  let! recipientEmail := of_res (normalizeOutboundRecipientEmail (rc_RecipientEmail inp)) in
  let inp := inp <| rc_RecipientEmail := recipientEmail |>
    <| rc_RecipientDomain := outboundRecipientDomain recipientEmail |>
    <| rc_PrimaryContactID := nullableTrimmedString (rc_PrimaryContactID inp) |>
    <| rc_Status := normalizeRecipientStateStatus (rc_Status inp) |>
    <| rc_Scope := normalizeRecipientScope (rc_Scope inp) |>
    <| rc_LastReplyOutcome := normalizeReplyOutcome (rc_LastReplyOutcome inp) |>
    <| rc_SuppressionReason := TrimSpace (rc_SuppressionReason inp) |>
    <| rc_Notes := TrimSpace (rc_Notes inp) |> <| rc_UpdatedAt := now |> in
  do! exec (fun d => d <| o_recipients := upsert_recipient inp (o_recipients d) |>) in
  GetRecipientState (rc_UserID inp) (rc_RecipientEmail inp).

Definition ListRecipientStates (userID q : string) : ODB (list RecipientState) :=
  let q := fold_trim q in
  let like r := sql_like (rc_RecipientEmail r) (containing q)
                || sql_like (rc_RecipientDomain r) (containing q)
                || sql_like (rc_Notes r) (containing q) in
  query (fun d => Ok (map scanRecipientState
    (order_by (then_by (by_num rc_UpdatedAt DESC)
                 (by_text (fun r => sql_lower (rc_RecipientEmail r)) ASC))
      (List.filter (fun r => String.eqb (rc_UserID r) userID && (String.eqb q "" || like r))
         (o_recipients d))))).

(** ** Threads of messages sent *)

Definition GetMailThreadBindingByID (id : string) : ODB MailThreadBinding :=
  query (fun d => first_of (map scanMailThreadBinding
    (List.filter (fun b => String.eqb (tb_ID b) (TrimSpace id)) (o_bindings d)))).

(** [enrollment_id=?] is never true of a NULL. *)
Definition GetMailThreadBindingByEnrollment (enrollmentID : string) : ODB MailThreadBinding :=
  let id := TrimSpace enrollmentID in
  query (fun d => first_of (map scanMailThreadBinding
    (List.filter (fun b => negb (String.eqb (tb_EnrollmentID b) "")
                           && String.eqb (tb_EnrollmentID b) id) (o_bindings d)))).

Definition upsert_binding (inp : MailThreadBinding) (rows : list MailThreadBinding) :
    list MailThreadBinding :=
  let p b := String.eqb (tb_ID b) (tb_ID inp) in
  if existsb p rows then update_rows p (fun b => inp <| tb_CreatedAt := tb_CreatedAt b |>) rows
  else rows ++ [inp].

Definition UpsertMailThreadBinding (inp : MailThreadBinding) : ODB MailThreadBinding :=
  let! now := time_Now in
  let! id := fresh_id (tb_ID inp) in
  let inp := match normalizeOutboundRecipientEmail (tb_RecipientEmail inp) with
             | Ok normalized => inp <| tb_RecipientEmail := normalized |>
                                  <| tb_RecipientDomain := outboundRecipientDomain normalized |>
             | Fail _ => inp
             end in
  let domain := if String.eqb (TrimSpace (tb_RecipientDomain inp)) ""
                   && negb (String.eqb (TrimSpace (tb_RecipientEmail inp)) "")
                then outboundRecipientDomain (tb_RecipientEmail inp)
                else tb_RecipientDomain inp in
  let inp := inp <| tb_ID := id |> <| tb_RecipientDomain := domain |>
    <| tb_AccountID := TrimSpace (tb_AccountID inp) |>
    <| tb_ThreadID := TrimSpace (tb_ThreadID inp) |>
    <| tb_BindingType := normalizeThreadBindingType (tb_BindingType inp) |>
    <| tb_CampaignID := nullableTrimmedString (tb_CampaignID inp) |>
    <| tb_EnrollmentID := nullableTrimmedString (tb_EnrollmentID inp) |>
    <| tb_FunnelID := nullableTrimmedString (tb_FunnelID inp) |>
    <| tb_ReplyAccountID := nullableTrimmedString (tb_ReplyAccountID inp) |>
    <| tb_ReplySenderProfileID := nullableTrimmedString (tb_ReplySenderProfileID inp) |>
    <| tb_CollectorAccountID := nullableTrimmedString (tb_CollectorAccountID inp) |>
    <| tb_OwnerUserID := nullableTrimmedString (tb_OwnerUserID inp) |>
    <| tb_RootOutboundMessageID := NormalizeMessageIDHeader (tb_RootOutboundMessageID inp) |>
    <| tb_LastOutboundMessageID := NormalizeMessageIDHeader (tb_LastOutboundMessageID inp) |>
    <| tb_LastReplyMessageID := TrimSpace (tb_LastReplyMessageID inp) |>
    <| tb_ThreadSubject := TrimSpace (tb_ThreadSubject inp) |>
    <| tb_CreatedAt := coalesceTime (tb_CreatedAt inp) now |> <| tb_UpdatedAt := now |> in
  do! exec (fun d => d <| o_bindings := upsert_binding inp (o_bindings d) |>) in
  GetMailThreadBindingByID (tb_ID inp).

Definition newest_binding (p : MailThreadBinding -> bool) : ODB MailThreadBinding :=
  query (fun d => first_of (map scanMailThreadBinding
    (order_by (by_num tb_UpdatedAt DESC) (List.filter p (o_bindings d))))).

Definition sent_as (ids : list string) (b : MailThreadBinding) : bool :=
  is_one_of ids (tb_RootOutboundMessageID b) || is_one_of ids (tb_LastOutboundMessageID b).

(** A column that may be NULL equals a value. *)
Definition column_is (column v : string) : bool :=
  negb (String.eqb column "") && String.eqb column v.

Definition FindMailThreadBindingByReplyHeaders (accountID : string) (messageIDs : list string) :
    ODB MailThreadBinding :=
  let ids := NormalizeMessageIDHeaders messageIDs in
  let accountID := TrimSpace accountID in
  match ids with
  | [] => throw ErrNotFound
  | _ => newest_binding (fun b =>
           (String.eqb (tb_AccountID b) accountID || column_is (tb_ReplyAccountID b) accountID
            || column_is (tb_CollectorAccountID b) accountID) && sent_as ids b)
  end.

Definition FindMailThreadBindingByOutboundMessageID (accountID messageID : string) :
    ODB MailThreadBinding :=
  let messageID := NormalizeMessageIDHeader messageID in
  if String.eqb messageID "" then throw ErrNotFound
  else newest_binding (fun b => String.eqb (tb_AccountID b) (TrimSpace accountID)
                                && sent_as [messageID] b).

(** ** Suppressions *)

(** In force, about the recipient or the domain, in the campaign or everywhere. *)
Definition suppresses (userID recipientEmail recipientDomain campaignID : string) (now : Z)
    (s : OutboundSuppression) : bool :=
  String.eqb (su_UserID s) userID
  && (IsZero (su_ExpiresAt s) || (now <? su_ExpiresAt s))
  && ((String.eqb (su_ScopeKind s) "recipient" && nocase (su_ScopeValue s) recipientEmail)
      || (String.eqb (su_ScopeKind s) "domain" && nocase (su_ScopeValue s) recipientDomain))
  && (String.eqb (su_CampaignID s) "" || String.eqb (su_CampaignID s) campaignID).

Definition GetActiveOutboundSuppression (userID recipientEmail recipientDomain campaignID : string)
    (now : Z) : ODB OutboundSuppression :=
  let campaignID := TrimSpace campaignID in
  query (fun d => first_of (map scanOutboundSuppression
    (order_by (then_by (by_num (fun s => if column_is (su_CampaignID s) campaignID then 0 else 1) ASC)
                 (by_num su_UpdatedAt DESC))
      (List.filter (suppresses userID (fold_trim recipientEmail) (fold_trim recipientDomain)
                      campaignID now) (o_suppressions d))))).

Definition ListOutboundSuppressions (userID : string) : ODB (list OutboundSuppression) :=
  query (fun d => Ok (map scanOutboundSuppression
    (order_by (then_by (by_num su_UpdatedAt DESC) (then_by (by_text su_ScopeKind ASC)
                 (by_text (fun s => sql_lower (su_ScopeValue s)) ASC)))
      (List.filter (fun s => String.eqb (su_UserID s) userID) (o_suppressions d))))).

Definition same_scope (s s0 : OutboundSuppression) : bool :=
  String.eqb (su_UserID s0) (su_UserID s) && String.eqb (su_ScopeKind s0) (su_ScopeKind s)
  && nocase (su_ScopeValue s0) (su_ScopeValue s)
  && String.eqb (su_CampaignID s0) (su_CampaignID s).

Definition suppression_clash (s s0 : OutboundSuppression) : bool :=
  String.eqb (su_ID s) (su_ID s0) || same_scope s s0.

Definition UpsertOutboundSuppression (inp : OutboundSuppression) : ODB OutboundSuppression :=
  let! now := time_Now in
  let! id := fresh_id (su_ID inp) in
  let inp := inp <| su_ID := id |> <| su_UserID := TrimSpace (su_UserID inp) |>
    <| su_ScopeKind := normalizeSuppressionScopeKind (su_ScopeKind inp) |>
    <| su_ScopeValue := fold_trim (su_ScopeValue inp) |>
    <| su_CampaignID := nullableTrimmedString (su_CampaignID inp) |>
    <| su_Reason := TrimSpace (su_Reason inp) |>
    <| su_SourceKind := normalizeSuppressionSourceKind (su_SourceKind inp) |>
    <| su_CreatedAt := coalesceTime (su_CreatedAt inp) now |> <| su_UpdatedAt := now |> in
  let! existing := query (fun d => Ok (select1 (same_scope inp) (o_suppressions d))) in
  do! match existing with
      | Some s0 =>
          let existingID := TrimSpace (su_ID s0) in
          exec (fun d => d <| o_suppressions :=
            update_rows (fun s => String.eqb (su_ID s) existingID)
              (fun s => s <| su_Reason := su_Reason inp |> <| su_SourceKind := su_SourceKind inp |>
                 <| su_ExpiresAt := su_ExpiresAt inp |> <| su_UpdatedAt := now |>)
              (o_suppressions d) |>)
      | None =>
          statement (fun d => match insert_row suppression_clash inp (o_suppressions d) with
                              | Ok rows => Ok (tt, d <| o_suppressions := rows |>)
                              | Fail e => Fail e
                              end)
      end in
  query (fun d => match select1 (same_scope inp) (o_suppressions d) with
                  | Some s => Ok (scanOutboundSuppression s)
                  | None => Fail ErrDriver
                  end).

Definition DeleteOutboundSuppression (userID id : string) : ODB unit :=
  let p s := String.eqb (su_UserID s) userID && String.eqb (su_ID s) (TrimSpace id) in
  found_row (statement (fun d => Ok (affected p (o_suppressions d),
    d <| o_suppressions := delete_rows p (o_suppressions d) |>))).

(** ** Reply funnels and contacts *)

Definition GetReplyFunnelByID (userID id : string) : ODB ReplyFunnel :=
  query (fun d => first_of (map scanReplyFunnel
    (List.filter (fun f => String.eqb (rf_UserID f) userID && String.eqb (rf_ID f) (TrimSpace id))
       (o_funnels d)))).

Definition ListReplyFunnelAccounts (funnelID : string) : ODB (list ReplyFunnelAccount) :=
  query (fun d => Ok (map scanReplyFunnelAccount
    (order_by (then_by (by_num (fun a => if String.eqb (fa_Role a) "collector" then 0 else 1) ASC)
                 (then_by (by_num fa_Position ASC) (by_num fa_CreatedAt ASC)))
      (List.filter (fun a => String.eqb (fa_FunnelID a) (TrimSpace funnelID)) (o_funnel_accounts d))))).

(** [loadContactsByIDs] for one identifier: the row, then its emails,
    nicknames and groups. *)
Definition GetContactByID (userID id : string) : ODB Contact :=
  let id := TrimSpace id in
  if String.eqb id "" then throw ErrNotFound
  else
    let! c := query (fun d => Ok (List.find (fun c => String.eqb (ct_UserID c) userID
                                                      && String.eqb (ct_ID c) id) (o_contacts d))) in
    match c with
    | None => throw ErrNotFound
    | Some c =>
        do! query (fun _ => Ok tt) in
        do! query (fun _ => Ok tt) in
        do! query (fun _ => Ok tt) in
        ret c
    end.
End Store.
