(* ===== verification/Outbound.v ===== *)
(** * Outbound: policies, templates and replies of campaigns

    The pure part of internal/service/outbound.go: the policies a campaign
    carries as JSON, the caps of mail providers, message templates, the footer
    of compliance, the classification of replies and the dates they name.  A
    policy that is not a JSON object of the right types keeps its defaults
    where its fields cannot be read, as [json.Unmarshal] leaves them.  The
    local time zone is taken to be UTC. *)

From S2P Require Import Prelude Unicode GoStrings Effects GoStd GoText Json Threading Models Users.
From S2P Require Import Mfa MailAccounts Host Identity MailModels MailSenders OutboundStore.
Local Open Scope Z_scope.

(** ** Decoding into a struct that has values already *)

(** The last value of the field that has its type. *)
Fixpoint read_field {A} (name : string) (get : Json -> option A) (acc : A)
    (fields : list (string * Json)) : A :=
  match fields with
  | [] => acc
  | (k, v) :: fields' =>
      read_field name get
        (if EqualFold k name then default acc (get v) else acc) fields'
  end.

Definition get_bool (v : Json) : option bool := match v with JBoolean b => Some b | _ => None end.
Definition get_text (v : Json) : option string := match v with JText s => Some s | _ => None end.
Definition get_int (v : Json) : option Z := match v with JNumber s => int64_text s | _ => None end.

(** The fields of the object a policy holds. *)
Definition policy_fields (raw : string) : list (string * Json) :=
  let trimmed := TrimSpace raw in
  if String.eqb trimmed "" || String.eqb trimmed "{}" then []
  else match json_unmarshal trimmed with Some (JObject fields) => fields | _ => [] end.

Record outboundReplyPolicy : Type := mkReplyPolicy {
  StopOnReply : bool; PauseOnQuestion : bool; PauseOnObjection : bool; PauseOnManualReview : bool;
  PauseOnOutOfOffice : bool; AutoResumeOutOfOffice : bool; StopSameDomainOnReply : bool;
  StopSameDomainOnPositive : bool; StopSameDomainOnNegative : bool;
  SuppressSameDomainOnHostile : bool
}.

Definition parseOutboundReplyPolicy (raw : string) : outboundReplyPolicy :=
  let fields := policy_fields raw in
  let b name dflt := read_field name get_bool dflt fields in
  mkReplyPolicy (b "stop_on_reply" true) (b "pause_on_question" true) (b "pause_on_objection" true)
    (b "pause_on_manual_review" true) (b "pause_on_out_of_office" true)
    (b "auto_resume_out_of_office" true) (b "stop_same_domain_on_reply" false)
    (b "stop_same_domain_on_positive" false) (b "stop_same_domain_on_negative" false)
    (b "suppress_same_domain_on_hostile" true).

Record outboundSuppressionPolicy : Type := mkSuppressionPolicy {
  SameDomainPositiveStop : bool; SameDomainNegativeStop : bool;
  SameDomainUnsubscribeSuppress : bool; SameDomainHostileSuppress : bool;
  WorkspaceSuppressUnsubscribe : bool; WorkspaceSuppressBounce : bool
}.

Definition parseOutboundSuppressionPolicy (raw : string) : outboundSuppressionPolicy :=
  let fields := policy_fields raw in
  let b name dflt := read_field name get_bool dflt fields in
  mkSuppressionPolicy (b "same_domain_positive_stop" false) (b "same_domain_negative_stop" false)
    (b "same_domain_unsubscribe_suppress" true) (b "same_domain_hostile_suppress" true)
    (b "workspace_suppress_unsubscribe" true) (b "workspace_suppress_bounce" true).

Record outboundSchedulePolicy : Type := mkSchedulePolicy {
  Timezone : string; MaxSendsPerDay : Z; MaxSendsPerHour : Z; MaxSendsPerDomainPerDay : Z;
  RespectProviderCaps : bool
}.

Definition parseOutboundSchedulePolicy (raw : string) : outboundSchedulePolicy :=
  let fields := policy_fields raw in
  mkSchedulePolicy (read_field "timezone" get_text "" fields)
    (read_field "max_sends_per_day" get_int 0 fields)
    (read_field "max_sends_per_hour" get_int 0 fields)
    (read_field "max_sends_per_domain_per_day" get_int 0 fields)
    (read_field "respect_provider_caps" get_bool false fields).

Record outboundCompliancePolicy : Type := mkCompliancePolicy {
  UnsubscribeRequired : bool; UnsubscribeScope : string; TrackingMode : string;
  Promotional : bool; FooterMode : string
}.

Definition parseOutboundCompliancePolicy (raw : string) : outboundCompliancePolicy :=
  let fields := policy_fields raw in
  let t name dflt := or_default (read_field name get_text dflt fields) dflt in
  mkCompliancePolicy (read_field "unsubscribe_required" get_bool false fields)
    (t "unsubscribe_scope" "recipient") (t "tracking_mode" "none")
    (read_field "promotional" get_bool false fields) (t "footer_mode" "compliance").

Definition normalizeOutboundGovernanceCollisionMode : string -> string := one_of "warn" ["block"].
Definition normalizeOutboundGovernanceAction : string -> string :=
  one_of "none" ["stop_campaign"; "stop_workspace"; "pause_workspace"; "suppress_campaign";
                 "suppress_workspace"].

Record outboundGovernancePolicy : Type := mkGovernancePolicy {
  RecipientCollisionMode : string; DomainCollisionMode : string; MaxActivePerDomain : Z;
  PositiveDomainAction : string; NegativeDomainAction : string; UnsubscribeDomainAction : string;
  HostileDomainAction : string
}.

Definition parseOutboundGovernancePolicy (raw : string) : outboundGovernancePolicy :=
  let fields := policy_fields raw in
  let t name dflt := read_field name get_text dflt fields in
  mkGovernancePolicy
    (normalizeOutboundGovernanceCollisionMode (t "recipient_collision_mode" "warn"))
    (normalizeOutboundGovernanceCollisionMode (t "domain_collision_mode" "warn"))
    (Z.max 0 (read_field "max_active_per_domain" get_int 0 fields))
    (normalizeOutboundGovernanceAction (t "positive_domain_action" "none"))
    (normalizeOutboundGovernanceAction (t "negative_domain_action" "none"))
    (normalizeOutboundGovernanceAction (t "unsubscribe_domain_action" "suppress_workspace"))
    (normalizeOutboundGovernanceAction (t "hostile_domain_action" "suppress_workspace")).

(** The first that is not blank, trimmed. *)
Definition firstNonEmptyString (values : list string) : string := firstNonEmptyThreadValue values.

Record outboundTaskPolicy : Type := mkTaskPolicy {
  tp_Title : string; tp_Instructions : string; tp_ActionLabel : string
}.

Definition parseOutboundTaskPolicy (raw : string) : outboundTaskPolicy :=
  let fields := policy_fields raw in
  mkTaskPolicy (TrimSpace (read_field "title" get_text "" fields))
    (TrimSpace (read_field "instructions" get_text "" fields))
    (firstNonEmptyString [read_field "action_label" get_text "Mark handled and continue" fields;
                          "Mark handled and continue"]).

Record outboundSeedContext : Type := mkSeedContext {
  sd_AccountID : string; sd_ThreadID : string; sd_MessageID : string; sd_ThreadSubject : string;
  sd_Mailbox : string
}.

Definition parseOutboundSeedContext (raw : string) : outboundSeedContext :=
  let fields := policy_fields raw in
  let t name := TrimSpace (read_field name get_text "" fields) in
  mkSeedContext (t "account_id") (t "thread_id") (t "message_id") (t "thread_subject") (t "mailbox").

(** The branches of a step: nothing when a value is not a text.  Where two keys
    fold to the same one, Go's map order decides; here the later counts. *)
Definition branch_text (v : Json) : option string :=
  match v with JText s => Some s | JNull => Some "" | _ => None end.

Definition parseOutboundBranchPolicy (raw : string) : list (string * string) :=
  match mapM (fun kv => (pair (fst kv)) <$> branch_text (snd kv)) (policy_fields raw) with
  | None => []
  | Some parsed =>
      List.filter (fun kv => negb (String.eqb (fst kv) "") && negb (String.eqb (snd kv) "")
                             && negb (String.eqb (snd kv) "default"))
        (map (fun kv => (fold_trim (fst kv), fold_trim (snd kv))) parsed)
  end.

(** ** Provider caps *)

Definition NormalizeMailProviderType : string -> string := one_of "generic" ["gmail"; "libero"].

Record outboundProviderPacing : Type := mkPacing {
  pp_DailyCap : Z; pp_HourlyCap : Z; pp_GapSeconds : Z
}.

Definition outboundProviderPacingForAccount (a : MailAccount) : outboundProviderPacing :=
  let t := NormalizeMailProviderType (ma_ProviderType a) in
  if String.eqb t "gmail" then mkPacing 150 20 120
  else if String.eqb t "libero" then mkPacing 100 12 240
  else mkPacing 80 10 240.

(** ** Templates *)

Definition token_rune (r : Z) : bool :=
  is_digit r || ((65 <=? r) && (r <=? 90)) || ((97 <=? r) && (r <=? 122)) || (r =? 95) || (r =? 46).

Definition outboundTemplateTokenRx : Re :=
  let blanks := Many (One perl_space) in
  Cat (lit 123) (Cat (lit 123) (Cat blanks (Cat (Some1 (One token_rune))
    (Cat blanks (Cat (lit 125) (lit 125)))))).

(** The key in a token: what stands between the braces. *)
Definition token_key (token : list Z) : string :=
  fold_trim (of_runes (take (length token - 4) (drop 2 token))).

(** [ReplaceAllStringFunc] with the tokens met. *)
Fixpoint replace_tokens (fuel : nat) (value : string -> string) (l : list Z) :
    list Z * list string :=
  match fuel with
  | O => (l, [])
  | S fuel' =>
      match Find outboundTemplateTokenRx l with
      | Some (before, m, rest) =>
          let '(out, keys) := replace_tokens fuel' value rest in
          (before ++ runes (value (token_key m)) ++ out, token_key m :: keys)
      | None => (l, [])
      end
  end.

Definition template_value (vars : list (string * string)) (key : string) : string :=
  match List.find (fun kv => String.eqb (fst kv) key) vars with
  | Some kv => TrimSpace (snd kv)
  | None => ""
  end.

(** The text, and the variables it wants that have no value. *)
Definition renderOutboundTemplate (text : string) (vars : list (string * string)) :
    string * list string :=
  let l := runes text in
  let '(out, keys) := replace_tokens (length l) (template_value vars) l in
  (TrimSpace (of_runes out),
   sort_strings (distinct_from []
     (List.filter (fun k => String.eqb (template_value vars k) "") keys))).

(** A word with its first rune in upper case and the rest in lower case. *)
Definition capitalise (l : list Z) : list Z :=
  match l with r :: l' => rune_upper r :: map rune_lower l' | [] => [] end.

Definition outboundFallbackName (email : string) : string :=
  let l := trim_space (runes email) in
  let local := match l with
               | 64 :: _ => l
               | _ => (fix upto l := match l with
                                     | [] => []
                                     | r :: l' => if r =? 64 then [] else r :: upto l'
                                     end) l
               end in
  let spaced := trim_space (map (fun r => if (r =? 46) || (r =? 95) || (r =? 45) then 32 else r)
                             local) in
  match spaced with
  | [] => "there"
  | _ => of_runes (join_runes [32] (map capitalise (Fields spaced)))
  end.

Definition outboundFirstName (name email : string) : string :=
  let base := TrimSpace name in
  let base := if String.eqb base "" then outboundFallbackName email else base in
  match Fields (runes base) with
  | w :: _ => of_runes w
  | [] => outboundFallbackName email
  end.

(** ** The footer *)

Definition quote : string := of_bytes [34].
Definition newline : string := of_bytes [10].

Definition compliance_footer : string :=
  "To opt out of future outreach, reply with " +:+ quote +:+ "unsubscribe" +:+ quote +:+ ".".

Definition appendOutboundComplianceFooter (body : string) (c : outboundCompliancePolicy) : string :=
  let body := TrimSpace body in
  if negb (UnsubscribeRequired c) then body
  else if EqualFold (TrimSpace (FooterMode c)) "none" then body
  else if String.eqb body "" then compliance_footer
  else body +:+ newline +:+ newline +:+ "--" +:+ newline +:+ compliance_footer.

(** ** Classifying replies *)

Definition containsAnyFold (haystack : string) (needles : list string) : bool :=
  let value := fold_trim haystack in
  existsb (fun item => negb (String.eqb item "") && Contains value (ToLower item)) needles.

Definition outboundBounceMarkers : list string :=
  ["delivery status notification"; "delivery failure"; "mail delivery failed"; "undeliverable";
   "returned mail"; "failure notice"].
Definition outboundOOOMarkers : list string :=
  ["out of office"; "out-of-office"; "automatic reply"; "auto reply"; "auto-reply"; "autoreply";
   "vacation responder"; "away from the office"].
Definition outboundUnsubscribeMarkers : list string :=
  ["unsubscribe"; "remove me"; "don't contact me"; "do not contact me"; "stop emailing me";
   "stop contacting me"; "take me off"; "не пишите мне"].
Definition outboundNotInterestedMarkers : list string :=
  ["not interested"; "no interest"; "no thanks"; "not a fit"; "pass on this"; "not for us";
   "не интересно"].
Definition outboundPositiveMarkers : list string :=
  ["interested"; "sounds good"; "let's talk"; "lets talk"; "happy to chat"; "looks relevant";
   "давайте обсудим"].
Definition outboundMeetingMarkers : list string :=
  ["meeting"; "calendar"; "schedule"; "book time"; "book a call"; "call next week"; "demo";
   "встреч"; "созвон"].
Definition outboundWrongPersonMarkers : list string :=
  ["wrong person"; "not the right person"; "not the best person"; "left the company";
   "no longer work here"; "i'm not the right"; "не тот человек"].
Definition outboundReferralMarkers : list string :=
  ["reach out to"; "contact "; "speak with"; "talk to"; "loop in"; "connect with"].
Definition outboundObjectionMarkers : list string :=
  ["budget"; "timing"; "already use"; "already working with"; "contract"; "security review"].
Definition outboundHostileMarkers : list string :=
  ["stop spamming"; "spam me"; "fuck off"; "leave me alone"; "иди нах"].

Definition extractReplyBodyFingerprint (m : IndexedMessage) : string :=
  let body := TrimSpace (im_BodyText m) in
  ToLower (if String.eqb body "" then TrimSpace (im_Snippet m) else body).

(** What the markers are looked for in. *)
Definition reply_text (m : IndexedMessage) : string :=
  Join newline [fold_trim (im_Subject m); extractReplyBodyFingerprint m; fold_trim (im_FromValue m);
                fold_trim (im_RawSource m)].

(** ** Dates of return *)

Definition ascii_letter (r : Z) : bool :=
  ((65 <=? r) && (r <=? 90)) || ((97 <=? r) && (r <=? 122)).
(** [A-Z] and [a-z] under [(?i)]. *)
Definition folded_letter (r : Z) : bool := ascii_letter r || (r =? 383) || (r =? 8490).
Definition folded_word (s : string) : Re := word fold_lit (runes s).
Definition some_space : Re := Some1 (One perl_space).
Definition digit : Re := One is_digit.
Definition digit12 : Re := Between1 2 digit.

Definition return_phrase : Re :=
  Cat (any_of [folded_word "until"; folded_word "back on";
               Cat (folded_word "return") (Cat (Opt (folded_word "ing")) (folded_word " on"));
               folded_word "available on"]) some_space.

Definition return_value : Re :=
  any_of
    [Cat (One folded_letter) (Cat (Cat (One folded_letter) (Between1 7 (One folded_letter)))
       (Cat some_space (Cat digit12
         (Opt (Cat (lit 44) (Cat (Many (One perl_space))
            (Cat digit (Cat digit (Cat digit digit)))))))));
     Cat (Cat digit (Cat digit (Cat digit digit))) (Cat (lit 45) (Cat (Cat digit digit)
       (Cat (lit 45) (Cat digit digit))));
     Cat digit12 (Cat (lit 47) (Cat digit12 (Cat (lit 47) (Cat digit (Between1 3 digit)))))].

Definition outboundReturnDateRx : Re := Cat return_phrase return_value.

(** The group of the expression: what follows the phrase. *)
Definition return_date_text (m : list Z) : list Z :=
  trim_space (RemoveMatch (Cat AtBegin return_phrase) m).

(** [time.Parse] of the layouts the code tries. *)
Definition fixed2 (l : list Z) : option (Z * list Z) :=
  match l with
  | a :: b :: l' => if is_digit a && is_digit b then Some (decimal [a; b], l') else None
  | _ => None
  end.
Definition one_or_two (l : list Z) : option (Z * list Z) :=
  match fixed2 l with
  | Some x => Some x
  | None => match l with a :: l' => if is_digit a then Some (a - 48, l') else None | [] => None end
  end.
Definition four_digits (l : list Z) : option (Z * list Z) :=
  if (4 <=? Z.of_nat (length l)) && forallb is_digit (take 4 l)
  then Some (decimal (take 4 l), drop 4 l) else None.
Definition expect (c : Z) (l : list Z) : option (list Z) :=
  match l with r :: l' => if r =? c then Some l' else None | [] => None end.
(** A space of a layout stands for any number of spaces. *)
Fixpoint blanks (l : list Z) : list Z :=
  match l with r :: l' => if r =? 32 then blanks l' else l | [] => [] end.

Definition month_names : list string :=
  ["january"; "february"; "march"; "april"; "may"; "june"; "july"; "august"; "september";
   "october"; "november"; "december"].

Definition ascii_lower_letter (r : Z) : Z := if (65 <=? r) && (r <=? 90) then r + 32 else r.

Fixpoint month_at (i : Z) (names : list (list Z)) (l : list Z) : option (Z * list Z) :=
  match names with
  | [] => None
  | n :: names' =>
      if bool_decide (map ascii_lower_letter (take (length n) l) = n)
      then Some (i, drop (length n) l) else month_at (i + 1) names' l
  end.
Definition long_month (l : list Z) : option (Z * list Z) := month_at 1 (map bytes month_names) l.
Definition short_month (l : list Z) : option (Z * list Z) :=
  month_at 1 (map (fun n => take 3 (bytes n)) month_names) l.

(** A year, a month and a day that exist. *)
Definition real_date (y m d : Z) (rest : list Z) : option (Z * Z * Z) :=
  match rest with
  | [] => if (1 <=? m) && (m <=? 12) && (1 <=? d) && (d <=? days_in y m) then Some (y, m, d)
          else None
  | _ => None
  end.

Definition layout_iso (l : list Z) : option (Z * Z * Z) :=
  '(y, l) ← four_digits l; l ← expect 45 l; '(m, l) ← fixed2 l; l ← expect 45 l;
  '(d, l) ← fixed2 l; real_date y m d l.
Definition layout_slashes (part year : list Z -> option (Z * list Z)) (l : list Z) :
    option (Z * Z * Z) :=
  '(m, l) ← part l; l ← expect 47 l; '(d, l) ← part l; l ← expect 47 l;
  '(y, l) ← year l; real_date y m d l.
Definition two_digit_year (l : list Z) : option (Z * list Z) :=
  '(y, l) ← fixed2 l; Some ((if 69 <=? y then y + 1900 else y + 2000), l).
Definition layout_month_year (month : list Z -> option (Z * list Z)) (l : list Z) :
    option (Z * Z * Z) :=
  '(m, l) ← month l; l ← match l with r :: _ => if r =? 32 then Some (blanks l) else None
                                    | [] => None end;
  '(d, l) ← one_or_two l; l ← expect 44 l;
  l ← match l with r :: _ => if (r =? 32) || is_digit r then Some (blanks l) else None | [] => None end;
  '(y, l) ← four_digits l; real_date y m d l.
Definition layout_month (month : list Z -> option (Z * list Z)) (l : list Z) : option (Z * Z * Z) :=
  '(m, l) ← month l; l ← match l with r :: _ => if r =? 32 then Some (blanks l) else None
                                    | [] => None end;
  '(d, l) ← one_or_two l; real_date 0 m d l.

(** The layouts in order, and whether the code takes their year. *)
Definition layouts : list ((list Z -> option (Z * Z * Z)) * bool) :=
  [(layout_iso, true); (layout_slashes fixed2 four_digits, true);
   (layout_slashes one_or_two four_digits, true); (layout_slashes fixed2 two_digit_year, false);
   (layout_month_year short_month, true); (layout_month_year long_month, true);
   (layout_month short_month, false); (layout_month long_month, false)].

Fixpoint first_layout (ls : list ((list Z -> option (Z * Z * Z)) * bool)) (l : list Z) :
    option (Z * Z * Z * bool) :=
  match ls with
  | [] => None
  | (parse, dated) :: ls' =>
      match parse l with Some x => Some (x, dated) | None => first_layout ls' l end
  end.

Definition day_length : Z := 86400 * Second.

(** Nine in the morning of the next such day. *)
Definition next_such_day (now m d : Z) : Z :=
  let '(year, _, _) := civil_date (now / day_length) in
  let day := days_of year m d in
  let at_nine := day * day_length + 9 * 3600 * Second in
  if at_nine <? now then
    let '(y, m, d) := civil_date day in days_of (y + 1) m d * day_length + 9 * 3600 * Second
  else at_nine.

Definition parseOutboundOOOReturnDate (now : Z) (m : IndexedMessage) : Z :=
  let candidate := runes (im_Subject m +:+ newline +:+ im_BodyText m) in
  match Find outboundReturnDateRx candidate with
  | None => ZeroTime
  | Some (_, found, _) =>
      match first_layout layouts (return_date_text found) with
      | None => ZeroTime
      | Some ((y, mo, d), true) => days_of y mo d * day_length
      | Some ((_, mo, d), false) => next_such_day now mo d
      end
  end.

(** The outcome, its confidence in hundredths, and when to resume. *)
Definition classifyOutboundReply (now : Z) (m : IndexedMessage) : string * Z * Z :=
  let body := extractReplyBodyFingerprint m in
  let from := fold_trim (im_FromValue m) in
  let raw := fold_trim (im_RawSource m) in
  let joined := reply_text m in
  let has := containsAnyFold joined in
  if containsAnyFold from ["mailer-daemon"; "postmaster"] || has outboundBounceMarkers
  then ("bounce", 98, ZeroTime)
  else if Contains raw "auto-submitted: auto-replied" || has outboundOOOMarkers
  then ("out_of_office", 90, parseOutboundOOOReturnDate now m)
  else if Contains raw "auto-submitted:" then ("auto_reply_other", 70, ZeroTime)
  else if has outboundUnsubscribeMarkers then ("unsubscribe_request", 96, ZeroTime)
  else if has outboundHostileMarkers then ("hostile", 90, ZeroTime)
  else if has outboundWrongPersonMarkers then
    if Contains body "@" || has outboundReferralMarkers then ("referral", 82, ZeroTime)
    else ("wrong_person", 90, ZeroTime)
  else if has outboundNotInterestedMarkers then ("not_interested", 90, ZeroTime)
  else if has outboundMeetingMarkers then ("meeting_intent", 86, ZeroTime)
  else if has outboundPositiveMarkers then ("positive_interest", 82, ZeroTime)
  else if has outboundObjectionMarkers then ("objection", 68, ZeroTime)
  else if Contains body "?" then ("question", 62, ZeroTime)
  else ("manual_review_required", 35, ZeroTime).

(** ** Steps and branches *)

Definition outboundStepByPosition (steps : list OutboundCampaignStep) (position : Z) :
    option OutboundCampaignStep :=
  List.find (fun s => os_Position s =? position) steps.

Definition outboundBranchActionForOutcome (step : OutboundCampaignStep) (outcome : string) : string :=
  let key := normalizeReplyOutcome outcome in
  if String.eqb key "" then ""
  else match List.find (fun kv => String.eqb (fst kv) key)
               (rev (parseOutboundBranchPolicy (os_BranchPolicyJSON step))) with
       | Some kv => fold_trim (snd kv)
       | None => ""
       end.

(** [Sscanf("%d")] into a zero: blanks, a sign and digits. *)
Definition scan_int (s : string) : Z :=
  let l := blanks (bytes s) in
  let digits_of l := decimal ((fix run l := match l with
                                            | b :: l' => if is_digit b then b :: run l' else []
                                            | [] => []
                                            end) l) in
  match l with
  | 45 :: l' => - digits_of l'
  | 43 :: l' => digits_of l'
  | _ => digits_of l
  end.

(** The step's branch for the outcome, when it has one that applies. *)
Definition applyOutboundReplyBranch (campaign : OutboundCampaign) (now : Z)
    (e : OutboundEnrollment) (steps : list OutboundCampaignStep) (outcome : string) :
    option OutboundEnrollment :=
  if is_one_of ["unsubscribe_request"; "bounce"; "hostile"] (normalizeReplyOutcome outcome) then None
  else
    step ← outboundStepByPosition steps (oe_CurrentStepPosition e);
    let action := outboundBranchActionForOutcome step outcome in
    if is_one_of ["continue"; "next_step"] action then
      Some (e <| oe_Status := "scheduled" |> <| oe_PauseReason := "" |> <| oe_StopReason := "" |>
              <| oe_NextActionAt := now |>)
    else if String.eqb action "pause" then
      Some (e <| oe_Status := "paused" |> <| oe_PauseReason := "branch_pause" |>
              <| oe_StopReason := "" |> <| oe_NextActionAt := ZeroTime |>)
    else if String.eqb action "manual_review" then
      Some (e <| oe_Status := "manual_only" |> <| oe_ManualOwnerUserID := oc_UserID campaign |>
              <| oe_PauseReason := "branch_manual_review" |> <| oe_StopReason := "" |>
              <| oe_NextActionAt := ZeroTime |>)
    else if String.eqb action "stop" then
      Some (e <| oe_Status := "stopped" |>
              <| oe_StopReason := firstNonEmptyString [outcome; "branch_stop"] |>
              <| oe_PauseReason := "" |> <| oe_NextActionAt := ZeroTime |>)
    else if HasPrefix action "manual_task:" then
      target ← outboundStepByPosition steps (scan_int (TrimSpace (TrimPrefix action "manual_task:")));
      if String.eqb (os_Kind target) "manual_task" then
        Some (e <| oe_Status := "scheduled" |> <| oe_CurrentStepPosition := os_Position target - 1 |>
                <| oe_PauseReason := "" |> <| oe_StopReason := "" |> <| oe_NextActionAt := now |>)
      else None
    else None.

(** The first step before anything was sent, then the one after the current. *)
Definition stepForOutboundSend (steps : list OutboundCampaignStep) (e : OutboundEnrollment) :
    option OutboundCampaignStep :=
  let steps := order_by (by_num os_Position Models.ASC) steps in
  if String.eqb (TrimSpace (oe_LastSentMessageID e)) "" then head steps
  else List.find (fun s => os_Position s =? oe_CurrentStepPosition e + 1) steps.

Definition recipientStateStatusForOutcome (outcome : string) : string :=
  let o := normalizeReplyOutcome outcome in
  if String.eqb o "positive_interest" then "interested"
  else if String.eqb o "meeting_intent" then "meeting_booked"
  else if is_one_of ["question"; "objection"; "referral"; "out_of_office"; "auto_reply_other";
                     "manual_review_required"] o then "replied"
  else if String.eqb o "wrong_person" then "wrong_person"
  else if String.eqb o "not_interested" then "not_interested"
  else if String.eqb o "unsubscribe_request" then "unsubscribed"
  else if String.eqb o "bounce" then "hard_bounce"
  else if String.eqb o "hostile" then "suppressed"
  else "active".

Definition sample_reply (subject body : string) : IndexedMessage :=
  plain_message "m1" "acct-1" "INBOX" 7 "" "" "" "" "bob@example.org" "" "" "" subject "" body ""
    false false false ZeroTime ZeroTime 0.

Example classify_ex :
  map (fun b => fst (fst (classifyOutboundReply 0 (sample_reply "Re: hi" b))))
    ["Sounds good, send it over."; "Could you share numbers?"; "We already work with someone.";
     "I'm not the right person, talk to eve@example.org"; "No thanks."; "ok"]
  = ["positive_interest"; "question"; "manual_review_required"; "referral"; "not_interested";
     "manual_review_required"].
Proof. vm_compute. reflexivity. Qed.

Example return_dates :
  let at_ b := parseOutboundOOOReturnDate (1700000000 * Second) (sample_reply "Away" b) in
  map (fun b => rfc3339 (at_ b))
    ["I am out until 2024-02-29."; "Returning on March 3, 2024!"; "back on Jan 2";
     "away until 12/31/2023"; "until 01/02/29"; "return on December 24"]
  = ["2024-02-29T00:00:00Z"; "2024-03-03T00:00:00Z"; "2024-01-02T09:00:00Z";
     "2023-12-31T00:00:00Z"; "2024-01-02T09:00:00Z"; "2023-12-24T09:00:00Z"].
Proof. vm_compute. reflexivity. Qed.

Example render_ex :
  renderOutboundTemplate "Hi {{ Name }}, {{x.y}} {{ }} {{name}}" [("name", " Ada ")]
  = ("Hi Ada,  {{ }} Ada", ["x.y"]).
Proof. vm_compute. reflexivity. Qed.
Example names_ex : map outboundFallbackName ["ada.lovelace@x.org"; "@x.org"; "__@x"; ""]
  = ["Ada Lovelace"; "@x Org"; "there"; "there"].
Proof. vm_compute. reflexivity. Qed.
