(* ===== verification/GoFmt.v ===== *)
(** * GoFmt: fmt, the payloads of events and SHA-1

    [fmt.Sprint] of decoded JSON, [%q], [json.Marshal] of the maps the program
    writes, and crypto/sha1 (FIPS 180-4).  A number of more than fifteen
    significant digits prints here with the digits it was written with. *)

From S2P Require Import Prelude Unicode GoStrings Effects GoStd GoText Json MessageIds Models.
Local Open Scope Z_scope.

(** ** SHA-1 *)
Module Sha1.
Import Sha256.

Definition rotl (n x : Z) : Z := w32 (Z.lor (Z.shiftl x n) (Z.shiftr x (32 - n))).

Definition H0 : list Z := [1732584193; 4023233417; 2562383102; 271733878; 3285377520].

(** The message schedule, latest word first. *)
Fixpoint extend (n : nat) (ws : list Z) : list Z :=
  match n with
  | O => ws
  | S n' =>
      let w i := nth i ws 0 in
      extend n' (rotl 1 (Z.lxor (Z.lxor (w 2%nat) (w 7%nat)) (Z.lxor (w 13%nat) (w 15%nat))) :: ws)
  end.

(** The function and the constant of each twenty rounds. *)
Definition f (t : nat) (b c d : Z) : Z * Z :=
  if Nat.ltb t 20 then (Ch b c d, 1518500249)
  else if Nat.ltb t 40 then (Z.lxor (Z.lxor b c) d, 1859775393)
  else if Nat.ltb t 60 then (Maj b c d, 2400959708)
  else (Z.lxor (Z.lxor b c) d, 3395469782).

Definition round (st : list Z) (tw : nat * Z) : list Z :=
  match st with
  | [a; b; c; d; e] =>
      let '(v, k) := f (fst tw) b c d in
      [w32 (rotl 5 a + v + e + k + snd tw); a; rotl 30 b; c; d]
  | _ => st
  end.

Definition compress (h block : list Z) : list Z :=
  let ws := rev (extend 64 (rev (words 16 block))) in
  zip_with add32 h (fold_left round (zip (List.seq 0 80) ws) h).

Fixpoint blocks (fuel : nat) (h : list Z) (l : list Z) : list Z :=
  match fuel, l with
  | S fuel', _ :: _ => blocks fuel' (compress h (take 64 l)) (drop 64 l)
  | _, _ => h
  end.

Definition sum (msg : list Z) : list Z :=
  let p := pad msg in flat_map (bytes_of_word 4) (blocks (length p) H0 p).
End Sha1.

Example sha1_abc : hex_encode (Sha1.sum (bytes "abc")) = "a9993e364706816aba3e25717850c26c9cd0d89d".
Proof. vm_compute. reflexivity. Qed.
Example sha1_empty : hex_encode (Sha1.sum []) = "da39a3ee5e6b4b0d3255bfef95601890afd80709".
Proof. vm_compute. reflexivity. Qed.

(** ** fmt *)

(** [strconv.Quote] of one byte; what is not ASCII is left as it is. *)
Definition quote_byte (b : Z) : list Z :=
  if (b =? 34) || (b =? 92) then [92; b]
  else if b =? 7 then [92; 97] else if b =? 8 then [92; 98] else if b =? 12 then [92; 102]
  else if b =? 10 then [92; 110] else if b =? 13 then [92; 114] else if b =? 9 then [92; 116]
  else if b =? 11 then [92; 118]
  else if (b <? 32) || (b =? 127) then [92; 120; hex_digit (b / 16); hex_digit (b mod 16)]
  else [b].

Definition Quote (s : string) : string := of_bytes ([34] ++ flat_map quote_byte (bytes s) ++ [34]).

Fixpoint strip_zeros (l : list Z) : list Z :=
  match l with b :: l' => if b =? 48 then strip_zeros l' else l | [] => [] end.
Definition strip_last_zeros (l : list Z) : list Z := rev (strip_zeros (rev l)).

(** The literal's sign, integer digits, fraction digits and exponent. *)
Definition number_parts (l : list Z) : bool * list Z * list Z * Z :=
  let '(neg, l) := match l with 45 :: l' => (true, l') | _ => (false, l) end in
  let '(int, l) := digit_run l in
  let '(frac, l) := match l with 46 :: l' => digit_run l' | _ => ([], l) end in
  let exp := match l with
             | _ :: 45 :: l' => - decimal l'
             | _ :: 43 :: l' => decimal l'
             | _ :: l' => decimal l'
             | [] => 0
             end in
  (neg, int, frac, exp).

Definition exponent_text (e : Z) : list Z :=
  let digits := bytes (itoa (Z.abs e)) in
  [101; if e <? 0 then 45 else 43] ++ (if Z.abs e <? 10 then [48] else []) ++ digits.

(** [%v] of the [float64] a JSON number denotes: the shortest digits, with an
    exponent when it is below -4 or at least 6. *)
Definition float_text (text : string) : string :=
  let '(neg, int, frac, exp) := number_parts (bytes text) in
  let digits := strip_zeros (int ++ frac) in
  let point := Z.of_nat (length digits) - Z.of_nat (length frac) + exp in
  let digits := strip_last_zeros digits in
  let n := Z.of_nat (length digits) in
  let unsigned :=
    match digits with
    | [] => [48]
    | d :: rest =>
        if (point - 1 <? -4) || (6 <=? point - 1) then
          [d] ++ (match rest with [] => [] | _ => 46 :: rest end) ++ exponent_text (point - 1)
        else if point <=? 0 then [48; 46] ++ repeat 48 (Z.to_nat (- point)) ++ digits
        else if n <=? point then digits ++ repeat 48 (Z.to_nat (point - n))
        else take (Z.to_nat point) digits ++ [46] ++ drop (Z.to_nat point) digits
    end in
  of_bytes ((if neg then [45] else []) ++ unsigned).

(** A map decoded from JSON holds the last value of a key, and prints its keys
    in order. *)
Fixpoint insert_new {A} (kv : string * A) (l : list (string * A)) : list (string * A) :=
  match l with
  | [] => [kv]
  | kv' :: l' =>
      if String.eqb (fst kv) (fst kv') then l
      else if key_leb (fst kv) (fst kv') then kv :: l else kv' :: insert_new kv l'
  end.

Definition decoded_map {A} (fields : list (string * A)) : list (string * A) :=
  fold_right insert_new [] fields.

(** [obj[key]] *)
Definition map_field (key : string) (fields : list (string * Json)) : option Json :=
  snd <$> List.find (fun kv => String.eqb (fst kv) key) (rev fields).

(** [fmt.Sprint] of a decoded value. *)
Fixpoint Sprint (v : Json) : string :=
  match v with
  | JNull => "<nil>"
  | JBoolean true => "true"
  | JBoolean false => "false"
  | JNumber t => float_text t
  | JText s => s
  | JArray l => "[" +:+ Join " " (map Sprint l) +:+ "]"
  | JObject fields =>
      "map[" +:+ Join " " (map (fun kv => fst kv +:+ ":" +:+ snd kv)
                             (decoded_map (map (fun kv => (fst kv, Sprint (snd kv))) fields))) +:+ "]"
  end.

(** [fmt.Sprint(obj[key])] *)
Definition Sprint_field (key : string) (fields : list (string * Json)) : string :=
  Sprint (default JNull (map_field key fields)).

Example Sprint_ex :
  map (fun s => option_map Sprint (json_unmarshal s))
    ["12"; "-0.50"; "1234567"; "123456"; "1e21"; "0.00001"; "[1, null, true]"; "0"]
  = map Some ["12"; "-0.5"; "1.234567e+06"; "123456"; "1e+21"; "1e-05"; "[1 <nil> true]"; "0"].
Proof. vm_compute. reflexivity. Qed.
Example Sprint_map_ex :
  Sprint (JObject [("b", JText "x"); ("a", JNull); ("b", JText "y")]) = "map[a:<nil> b:y]".
Proof. vm_compute. reflexivity. Qed.

(** ** json.Marshal of a [map[string]any] *)

Inductive Payload : Type :=
| PText (s : string)
| PInt (n : Z)
| PBool (b : bool)
| PTexts (l : list string)
| PHundredths (n : Z)   (* a float64 *)
| PTime (t : Z)
| PNull
| PObject (fields : list (string * string)).

(** [time.RFC3339Nano] *)
Definition rfc3339nano (t : Z) : string :=
  let nanos := bytes (itoa (Second + t mod Second)) in
  match strip_last_zeros (drop 1 nanos) with
  | [] => rfc3339 t
  | frac => of_bytes (take 19 (bytes (rfc3339 t)) ++ [46] ++ frac ++ [90])
  end.

Definition hundredths (n : Z) : list Z :=
  let whole := bytes (format_int (Z.quot n 100)) in
  let sign := if (n <? 0) && (-100 <? n) then [45] else [] in
  sign ++ whole ++
  match strip_last_zeros (two_digits (Z.abs n mod 100)) with [] => [] | frac => 46 :: frac end.

Definition payload_value (v : Payload) : list Z :=
  match v with
  | PText s => json_string s
  | PInt n => bytes (format_int n)
  | PBool b => bytes (if b then "true" else "false")
  | PTexts l => [91] ++ bytes (Join "," (map (fun s => of_bytes (json_string s)) l)) ++ [93]
  | PHundredths n => hundredths n
  | PTime t => json_string (rfc3339nano t)
  | PNull => bytes "null"
  | PObject fields => bytes (json_object (map (fun kv => (fst kv, JString (snd kv))) fields))
  end.

Definition payload_json (fields : list (string * Payload)) : string :=
  let field kv := of_bytes (json_string (fst kv) ++ [58] ++ payload_value (snd kv)) in
  "{" +:+ Join "," (map field (fold_right insert_key [] fields)) +:+ "}".

Example payload_ex :
  map (fun b => if b =? 34 then 39 else b)
    (bytes (payload_json [("n", PInt 7); ("l", PTexts ["a"; "b"]); ("c", PHundredths 96);
                          ("t", PTime 1500000000); ("d", PHundredths 100); ("e", PHundredths 5)]))
  = bytes "{'c':0.96,'d':1,'e':0.05,'l':['a','b'],'n':7,'t':'1970-01-01T00:00:01.5Z'}".
Proof. vm_compute. reflexivity. Qed.
#[global] Opaque payload_json.

(** A struct, whose fields keep their order; a nil slice is [null]. *)
Definition payload_struct (fields : list (string * Payload)) : string :=
  "{" +:+ Join "," (map (fun kv => of_bytes (json_string (fst kv) ++ [58] ++ payload_value (snd kv))) fields) +:+ "}".
Definition slice (l : list string) : Payload := match l with [] => PNull | _ => PTexts l end.
