(* ===== verification/OutboundSenders.v ===== *)
(** * OutboundSenders: whom a campaign's message is from

    The choice of the sending account and identity in
    internal/service/outbound.go, by the campaign's policy: the contact's
    preferred sender, one sender, a pool or a reply funnel picked by a hash of
    the recipient, or the owner of an existing thread; and the step rendered
    for them. *)

From S2P Require Import Prelude Unicode GoStrings Effects GoStd GoText Json Threading Models Users Mfa.
From S2P Require Import MailAccounts Host Identity MailModels MailSenders DraftSend OutboundStore Outbound.
From S2P Require Import GoFmt.
Local Open Scope Z_scope.

Record outboundSenderSelection : Type := mkSelection {
  sel_Account : MailAccount; sel_SenderProfileID : string; sel_HeaderFromName : string;
  sel_HeaderFromEmail : string; sel_EnvelopeFrom : string; sel_ReplyTo : string;
  sel_ReplyAccountID : string; sel_ReplyFunnelID : string; sel_CollectorAccountID : string
}.
#[export] Instance eta_outboundSenderSelection : Eta outboundSenderSelection := fun s =>
  mkSelection (sel_Account s) (sel_SenderProfileID s) (sel_HeaderFromName s)
    (sel_HeaderFromEmail s) (sel_EnvelopeFrom s) (sel_ReplyTo s) (sel_ReplyAccountID s)
    (sel_ReplyFunnelID s) (sel_CollectorAccountID s).

(** ** Pure parts *)

(** The first two bytes of the hash, modulo the length. *)
Definition outboundDeterministicIndex (seed : string) (length : nat) : nat :=
  match length with
  | O => O
  | _ => let sum := Sha1.sum (bytes (fold_trim seed)) in
         Z.to_nat ((nth 0 sum 0 * 256 + nth 1 sum 0) mod Z.of_nat length)
  end.

Definition nonempty_trimmed (l : list string) : list string :=
  List.filter (fun v => negb (String.eqb v "")) (map TrimSpace l).

(** The identifiers an object lists, or else the one it names. *)
Definition policy_object_ids (fields : list (string * Json)) : list string :=
  let listed := flat_map (fun key =>
      match map_field key fields with
      | Some (JArray items) => nonempty_trimmed (map Sprint items)
      | _ => []
      end) ["sender_profile_ids"; "sender_profiles"; "account_ids"; "accounts"; "ids"] in
  match listed with
  | [] => take 1 (List.filter (fun v => negb (String.eqb v "") && negb (String.eqb v "<nil>"))
                    (map (fun key => TrimSpace (Sprint_field key fields))
                       ["sender_profile_id"; "sender_profile"; "account_id"; "id"]))
  | _ => listed
  end.

Definition policy_text_ids (trimmed : string) : list string :=
  if Contains trimmed "," then nonempty_trimmed (Split trimmed (ascii_of 44)) else [trimmed].

Definition outboundPolicyIDs (raw : string) : list string :=
  let trimmed := TrimSpace raw in
  if String.eqb trimmed "" then []
  else match (if HasPrefix trimmed "[" then decode_strings trimmed else None) with
       | Some l => nonempty_trimmed l
       | None =>
           match (if HasPrefix trimmed "{" then json_unmarshal trimmed else None) with
           | Some (JObject fields) =>
               match policy_object_ids fields with
               | [] => policy_text_ids trimmed
               | ids => ids
               end
           | _ => policy_text_ids trimmed
           end
       end.

Definition outboundActiveAccount (account : MailAccount) : bool :=
  EqualFold (TrimSpace (ma_Status account)) "active"
  || String.eqb (TrimSpace (ma_Status account)) "".

(** A default identity with an address, the one of the login, or the first. *)
Definition choose_identity (account : MailAccount) (identities : list MailIdentityRow) :
    option MailIdentityRow :=
  let named i := negb (String.eqb (TrimSpace (mi_FromEmail i)) "") in
  match List.find (fun i => mi_IsDefault i && named i) identities with
  | Some i => Some i
  | None =>
      match List.find (fun i => EqualFold (TrimSpace (mi_FromEmail i)) (TrimSpace (ma_Login account)))
              identities with
      | Some i => Some i
      | None => match identities with
                | i :: _ => if named i then Some i else None
                | [] => None
                end
      end
  end.

Definition identity_selection (account : MailAccount) (i : MailIdentityRow) :
    outboundSenderSelection :=
  mkSelection account (mi_ID i) (TrimSpace (mi_DisplayName i)) (TrimSpace (mi_FromEmail i))
    (TrimSpace (mi_FromEmail i)) (TrimSpace (mi_ReplyTo i)) (ma_ID account) "" "".

Definition login_selection (account : MailAccount) (s : outboundSenderSelection) :
    Res outboundSenderSelection :=
  let login := TrimSpace (ma_Login account) in
  if String.eqb login "" then Fail (ErrText "selected sender account is missing login")
  else Ok (s <| sel_HeaderFromName := TrimSpace (ma_DisplayName account) |>
             <| sel_HeaderFromEmail := login |> <| sel_EnvelopeFrom := login |>
             <| sel_ReplyAccountID := ma_ID account |>).

Section Senders.
Context {host : Host}.

(** The first of [l] on which [f] succeeds. *)
Fixpoint first_success {A B} (f : A -> ODB B) (l : list A) : ODB (option B) :=
  match l with
  | [] => ret None
  | a :: l' =>
      let! r := attempt (f a) in
      match r with
      | Ok b => ret (Some b)
      | Fail _ => first_success f l'
      end
  end.

(** [m], or on an error whatever [k] makes of it. *)
Definition or_else {A} (m : ODB A) (k : GoErr -> ODB A) : ODB A :=
  let! r := attempt m in match r with Ok a => ret a | Fail e => k e end.

Definition outboundDefaultIdentityForAccount (account : MailAccount) : ODB MailIdentityRow :=
  let! identities := on_mail (ListMailIdentities (ma_ID account)) in
  match choose_identity account identities with
  | Some i => ret i
  | None => throw ErrNotFound
  end.

Definition outboundSelectionFromAccount (account : MailAccount) : ODB outboundSenderSelection :=
  if negb (outboundActiveAccount account)
  then throw (ErrText "selected sender account is not available for sending")
  else
    let! r := attempt (outboundDefaultIdentityForAccount account) in
    let selection := match r with
                     | Ok i => identity_selection account i
                     | Fail _ => mkSelection account "" "" "" "" "" "" "" ""
                     end in
    if negb (String.eqb (sel_HeaderFromEmail selection) "") then ret selection
    else of_res (login_selection account selection).

(** An account with an identifier, if the read succeeds. *)
Definition bound_account (m : ODB MailThreadBinding) : ODB string :=
  let! r := attempt m in
  ret match r with Ok b => TrimSpace (tb_AccountID b) | Fail _ => "" end.

Definition outboundThreadOwnerAccountID (e : OutboundEnrollment) : ODB string :=
  let! byID := if negb (String.eqb (TrimSpace (oe_ThreadBindingID e)) "")
               then bound_account (GetMailThreadBindingByID (oe_ThreadBindingID e)) else ret "" in
  if negb (String.eqb byID "") then ret byID
  else
    let! byEnrollment := bound_account (GetMailThreadBindingByEnrollment (oe_ID e)) in
    if negb (String.eqb byEnrollment "") then ret byEnrollment
    else ret (TrimSpace (sd_AccountID (parseOutboundSeedContext (oe_SeedContextJSON e)))).

Definition no_thread_owner : GoErr :=
  ErrText "existing thread owner mailbox is not available for this recipient".

Definition outboundSelectionFromThreadOwner (u : User) (e : OutboundEnrollment) :
    ODB outboundSenderSelection :=
  let! accountID := outboundThreadOwnerAccountID e in
  if String.eqb accountID "" then throw no_thread_owner
  else
    let! account := or_else (on_accounts (GetMailAccountByID (u_ID u) accountID))
                      (fun _ => throw no_thread_owner) in
    outboundSelectionFromAccount account.

Definition outboundSelectionFromSenderProfile (u : User) (senderProfileID : string) :
    ODB outboundSenderSelection :=
  let! profile := on_mail (GetSenderProfileByID u (TrimSpace senderProfileID)) in
  if String.eqb (TrimSpace (pf_AccountID profile)) ""
  then throw (ErrText "selected sender requires a sending account")
  else
    let! account := on_accounts (GetMailAccountByID (u_ID u) (pf_AccountID profile)) in
    if negb (outboundActiveAccount account)
    then throw (ErrText "selected sender is not available for sending")
    else
      let from := TrimSpace (pf_FromEmail profile) in
      if String.eqb from "" then throw (ErrText "selected sender is missing from_email")
      else
        let name := TrimSpace (pf_Name profile) in
        ret (mkSelection account (pf_ID profile)
               (if String.eqb name "" then outboundFallbackName from else name)
               from from (TrimSpace (pf_ReplyTo profile)) (ma_ID account) "" "").

(** A candidate names a sender profile or an account; or its last error. *)
Definition pool_candidate (u : User) (candidate : string) :
    ODB (outboundSenderSelection + GoErr) :=
  let! r := attempt (outboundSelectionFromSenderProfile u candidate) in
  match r with
  | Ok selection => ret (inl selection)
  | Fail e =>
      let! a := attempt (on_accounts (GetMailAccountByID (u_ID u) candidate)) in
      match a with
      | Fail _ => ret (inr e)
      | Ok account =>
          let! r := attempt (outboundSelectionFromAccount account) in
          ret match r with Ok selection => inl selection | Fail e' => inr e' end
      end
  end.

Fixpoint try_pool (u : User) (candidates : list string) (lastErr : GoErr) :
    ODB outboundSenderSelection :=
  match candidates with
  | [] => throw lastErr
  | candidate :: rest =>
      let! r := pool_candidate u candidate in
      match r with
      | inl selection => ret selection
      | inr e => try_pool u rest e
      end
  end.

(** The candidates from the recipient's index on, then those before it. *)
Definition outboundSelectionFromPolicyPool (u : User) (policyRef seed : string) :
    ODB outboundSenderSelection :=
  let ids := outboundPolicyIDs policyRef in
  match ids with
  | [] => throw (ErrText "campaign sender pool is empty")
  | _ =>
      let index := outboundDeterministicIndex seed (length ids) in
      try_pool u (drop index ids ++ take index ids)
        (ErrText "campaign sender pool has no usable sender")
  end.

(** The identity a funnel's row names, when it is of the row's account. *)
Definition row_selection (funnel : ReplyFunnel) (row : ReplyFunnelAccount) (account : MailAccount) :
    ODB (option outboundSenderSelection) :=
  if String.eqb (TrimSpace (fa_SenderIdentityID row)) "" then ret None
  else
    let! r := attempt (on_mail (GetMailIdentityByID (fa_SenderIdentityID row))) in
    ret match r with
        | Ok i => if String.eqb (mi_AccountID i) (ma_ID account)
                  then Some (identity_selection account i <| sel_ReplyFunnelID := rf_ID funnel |>
                               <| sel_CollectorAccountID := TrimSpace (rf_CollectorAccountID funnel) |>)
                  else None
        | Fail _ => None
        end.

(** That identity if it has an address, or the account's own sender. *)
Definition source_selection (funnel : ReplyFunnel) (row : ReplyFunnelAccount)
    (account : MailAccount) : ODB outboundSenderSelection :=
  let! named := row_selection funnel row account in
  match named with
  | Some s =>
      if negb (String.eqb (TrimSpace (sel_HeaderFromEmail s)) "") then ret s
      else
        let! base := outboundSelectionFromAccount account in
        ret (base <| sel_ReplyFunnelID := rf_ID funnel |>
               <| sel_CollectorAccountID := TrimSpace (rf_CollectorAccountID funnel) |>)
  | None =>
      let! base := outboundSelectionFromAccount account in
      ret (base <| sel_ReplyFunnelID := rf_ID funnel |>
             <| sel_CollectorAccountID := TrimSpace (rf_CollectorAccountID funnel) |>)
  end.

(** Replies go to the collector when the mode says so, or has no other place. *)
Definition collect_replies (mode : string) (collector : MailAccount)
    (cs s : outboundSenderSelection) : outboundSenderSelection :=
  let to_collector :=
    s <| sel_ReplyTo := firstNonEmptyString [TrimSpace (sel_ReplyTo cs);
           TrimSpace (sel_HeaderFromEmail cs); TrimSpace (ma_Login collector)] |>
      <| sel_ReplyAccountID := ma_ID collector |> in
  let mode := fold_trim mode in
  if String.eqb mode "collector" then to_collector
  else if String.eqb mode "smart" && String.eqb (TrimSpace (sel_ReplyTo s)) "" then to_collector
  else s.

(** [found] is what finding a usable collector changes besides. *)
Definition with_collector (u : User) (funnel : ReplyFunnel)
    (found : MailAccount -> outboundSenderSelection -> outboundSenderSelection)
    (s : outboundSenderSelection) : ODB outboundSenderSelection :=
  if String.eqb (TrimSpace (rf_CollectorAccountID funnel)) "" then ret s
  else
    let! r := attempt (on_accounts (GetMailAccountByID (u_ID u) (rf_CollectorAccountID funnel))) in
    match r with
    | Ok collector =>
        if outboundActiveAccount collector then
          let! c := attempt (outboundSelectionFromAccount collector) in
          ret match c with
              | Ok cs => collect_replies (rf_ReplyMode funnel) collector cs (found collector s)
              | Fail _ => s
              end
        else ret s
    | Fail _ => ret s
    end.

Definition source_row (row : ReplyFunnelAccount) : bool :=
  EqualFold (TrimSpace (fa_Role row)) "source".

Definition outboundSelectionFromReplyFunnelAccount (u : User) (funnelID accountID : string) :
    ODB outboundSenderSelection :=
  let! funnel := GetReplyFunnelByID (u_ID u) funnelID in
  let! accounts := ListReplyFunnelAccounts (rf_ID funnel) in
  match List.find (fun row => source_row row
                     && String.eqb (TrimSpace (fa_AccountID row)) (TrimSpace accountID)) accounts with
  | None => throw (ErrText "reply funnel does not include the seeded thread owner mailbox")
  | Some row =>
      let! account := on_accounts (GetMailAccountByID (u_ID u) (fa_AccountID row)) in
      let! s := source_selection funnel row account in
      with_collector u funnel (fun _ s => s) s
  end.

Definition outboundSelectionFromReplyFunnel (u : User) (funnelID seed : string) :
    ODB outboundSenderSelection :=
  let! funnel := GetReplyFunnelByID (u_ID u) funnelID in
  let! accounts := ListReplyFunnelAccounts (rf_ID funnel) in
  let rows := order_by (then_by (by_num fa_Position ASC) (by_text fa_AccountID ASC))
                (List.filter source_row accounts) in
  match nth_error rows (outboundDeterministicIndex seed (length rows)) with
  | None => throw (ErrText "reply funnel has no source accounts")
  | Some row =>
      let! account := on_accounts (GetMailAccountByID (u_ID u) (fa_AccountID row)) in
      let! s := source_selection funnel row account in
      with_collector u funnel (fun collector s => s <| sel_CollectorAccountID := ma_ID collector |>)
        (s <| sel_ReplyAccountID := ma_ID account |>)
  end.

Definition not_configured : GoErr := ErrText "campaign sender is not configured".

(** The contact's sender, the contact's account, or the first usable account. *)
Definition preferred_selection (u : User) (contact : Contact) : ODB outboundSenderSelection :=
  let named id := negb (String.eqb (TrimSpace id) "") in
  let! bySender := if named (ct_PreferredSenderID contact)
                   then first_success (outboundSelectionFromSenderProfile u)
                          [ct_PreferredSenderID contact]
                   else ret None in
  match bySender with
  | Some s => ret s
  | None =>
      let! byAccount :=
        if named (ct_PreferredAccountID contact)
        then first_success (fun id =>
               let! account := on_accounts (GetMailAccountByID (u_ID u) id) in
               outboundSelectionFromAccount account) [ct_PreferredAccountID contact]
        else ret None in
      match byAccount with
      | Some s => ret s
      | None =>
          let! accounts := on_accounts (ListMailAccounts (u_ID u)) in
          let! usable := first_success outboundSelectionFromAccount
                           (List.filter outboundActiveAccount accounts) in
          match usable with
          | Some s => ret s
          | None => throw (ErrText "no usable sending account is available")
          end
      end
  end.

Definition policy_selection (u : User) (campaign : OutboundCampaign) (contact : Contact)
    (e : OutboundEnrollment) : ODB outboundSenderSelection :=
  let kind := normalizeOutboundSenderPolicyKind (oc_SenderPolicyKind campaign) in
  let ids := outboundPolicyIDs (oc_SenderPolicyRef campaign) in
  if String.eqb kind "thread_owner" then outboundSelectionFromThreadOwner u e
  else if String.eqb kind "single_sender" then
    match ids with
    | [] => throw not_configured
    | id :: _ =>
        or_else (outboundSelectionFromSenderProfile u id) (fun _ =>
          let! account := or_else (on_accounts (GetMailAccountByID (u_ID u) id))
                            (fun _ => throw not_configured) in
          outboundSelectionFromAccount account)
    end
  else if String.eqb kind "campaign_pool" then
    outboundSelectionFromPolicyPool u (oc_SenderPolicyRef campaign) (oe_RecipientEmail e)
  else if String.eqb kind "reply_funnel" then
    match ids with
    | [] => throw (ErrText "reply funnel is not configured")
    | id :: _ => outboundSelectionFromReplyFunnel u id (oe_RecipientEmail e)
    end
  else preferred_selection u contact.

Definition resolveOutboundSenderSelection (u : User) (campaign : OutboundCampaign)
    (contact : Contact) (e : OutboundEnrollment) : ODB outboundSenderSelection :=
  let otherwise := policy_selection u campaign contact e in
  if EqualFold (TrimSpace (oc_CampaignMode campaign)) "existing_threads" then
    let kind := normalizeOutboundSenderPolicyKind (oc_SenderPolicyKind campaign) in
    if String.eqb kind "thread_owner" then outboundSelectionFromThreadOwner u e
    else if String.eqb kind "reply_funnel" then
      match outboundPolicyIDs (oc_SenderPolicyRef campaign) with
      | [] => otherwise
      | id :: _ =>
          let! accountID := outboundThreadOwnerAccountID e in
          if String.eqb accountID "" then otherwise
          else or_else (outboundSelectionFromReplyFunnelAccount u id accountID) (fun _ => otherwise)
      end
    else or_else (outboundSelectionFromThreadOwner u e) (fun _ => otherwise)
  else otherwise.

Definition loadOutboundContact (u : User) (e : OutboundEnrollment) : ODB Contact :=
  if negb (String.eqb (TrimSpace (oe_ContactID e)) "")
  then GetContactByID (u_ID u) (oe_ContactID e)
  else throw ErrNotFound.

Definition no_contact : Contact := mkContact "" "" "" "" "" "" ZeroTime ZeroTime.

Definition outboundSelectionName (s : outboundSenderSelection) : string :=
  let name := TrimSpace (sel_HeaderFromName s) in
  if String.eqb name "" then outboundFallbackName (sel_HeaderFromEmail s) else name.

(** A stored recipient has its domain; one with neither a domain nor an [@]
    would be sliced out of range. *)
Definition outboundTemplateVars (contact : Contact) (e : OutboundEnrollment)
    (s : outboundSenderSelection) : list (string * string) :=
  let recipient := fold_trim (oe_RecipientEmail e) in
  let domain := TrimSpace (oe_RecipientDomain e) in
  let domain := if String.eqb domain ""
                then match after_last 64 (bytes recipient) with
                     | Some rest => TrimSpace (of_bytes rest)
                     | None => ""
                     end
                else domain in
  let name := firstNonEmptyString [ct_Name contact; oe_ContactName e; outboundFallbackName recipient] in
  let first := outboundFirstName name recipient in
  [("name", name); ("contact.name", name); ("first_name", first); ("contact.first_name", first);
   ("email", recipient); ("contact.email", recipient); ("domain", domain);
   ("contact.domain", domain); ("sender_name", outboundSelectionName s);
   ("sender_email", TrimSpace (sel_HeaderFromEmail s));
   ("account_login", TrimSpace (ma_Login (sel_Account s)))].

Record outboundRenderedStep : Type := mkRendered {
  rd_Step : OutboundCampaignStep; rd_Subject : string; rd_Body : string;
  rd_Missing : list string; rd_Selection : outboundSenderSelection
}.

Definition renderOutboundStep (u : User) (campaign : OutboundCampaign)
    (step : OutboundCampaignStep) (e : OutboundEnrollment) : ODB outboundRenderedStep :=
  let! r := attempt (loadOutboundContact u e) in
  let contact := match r with Ok c => c | Fail _ => no_contact end in
  let! selection := resolveOutboundSenderSelection u campaign contact e in
  let vars := outboundTemplateVars contact e selection in
  let '(subject, missingSubject) := renderOutboundTemplate (os_SubjectTemplate step) vars in
  let '(body, missingBody) := renderOutboundTemplate (os_BodyTemplate step) vars in
  let missing := missingSubject
    ++ List.filter (fun item => negb (existsb (String.eqb item) missingSubject)) missingBody in
  ret (mkRendered step subject body (order_by (by_text (fun s => s) ASC) missing) selection).
End Senders.

Example outboundPolicyIDs_ex :
  let q s := of_bytes (map (fun b => if b =? 39 then 34 else b) (bytes s)) in
  map (fun s => outboundPolicyIDs (q s))
    [" a , b,"; "['x',' ','y']"; "{'ids':[1,'b'],'accounts':['a']}"; "{'account_id':' z '}"; "{'a':1,'b':2}";
     "[1]"; ""]
  = [["a"; "b"]; ["x"; "y"]; ["a"; "1"; "b"]; ["z"]; [q "{'a':1"; q "'b':2}"]; ["[1]"]; []].
Proof. vm_compute. reflexivity. Qed.
Example outboundDeterministicIndex_ex :
  map (outboundDeterministicIndex " ABC ") [0; 1; 7; 100]%nat = [0; 0; 3; 17]%nat.
Proof. vm_compute. reflexivity. Qed.
