(* ===== verification/OutboundDispatch.v ===== *)
(** * OutboundDispatch: a due enrollment is acted on

    [DispatchOutboundEnrollment] of internal/service/outbound.go with the loops
    of internal/workers/mail_workers.go that call it.  The mail client of an
    account is known by the login and password it is called with. *)

From S2P Require Import Prelude Unicode GoStrings Effects GoStd GoText Json Threading Models Users Mfa.
From S2P Require Import MailAccounts Host Identity MailModels MailSenders DraftSend OutboundStore Outbound.
From S2P Require Import GoFmt OutboundSenders.
Local Open Scope Z_scope.

(** ** Pure parts *)

(** The domain of the address, cut where the trimmed one has its last [@]. *)
Definition message_host (fromEmail : string) : string :=
  let trimmed := bytes (TrimSpace fromEmail) in
  match after_last 64 trimmed with
  | Some (x :: rest) =>
      TrimSpace (of_bytes (drop (length trimmed - length (x :: rest)) (bytes fromEmail)))
  | _ => "despatch.local"
  end.

(** The thread a binding continues: its first and its last message. *)
Definition binding_references (b : MailThreadBinding) : list string :=
  let root := NormalizeMessageIDHeader (tb_RootOutboundMessageID b) in
  let last := NormalizeMessageIDHeader (tb_LastOutboundMessageID b) in
  let references := if String.eqb root "" then [] else [root] in
  NormalizeMessageIDHeaders
    (references ++ (if negb (String.eqb last "")
                       && (String.eqb root "" || negb (String.eqb root last)) then [last] else [])).

Definition outbound_request (campaign : OutboundCampaign) (rendered : outboundRenderedStep)
    (e : OutboundEnrollment) (binding : MailThreadBinding) (messageID : string) : SendRequest :=
  let s := rd_Selection rendered in
  let compliance := parseOutboundCompliancePolicy (oc_CompliancePolicyJSON campaign) in
  let body := appendOutboundComplianceFooter (rd_Body rendered) compliance in
  let subject := TrimSpace (rd_Subject rendered) in
  let threaded := String.eqb (os_ThreadMode (rd_Step rendered)) "same_thread"
                  && negb (String.eqb (TrimSpace (tb_LastOutboundMessageID binding)) "") in
  let subject := if threaded && String.eqb subject ""
                 then firstNonEmptyString [tb_ThreadSubject binding; subject] else subject in
  let subject := if String.eqb (TrimSpace subject) ""
                    && negb (String.eqb (TrimSpace (tb_ThreadSubject binding)) "")
                 then TrimSpace (tb_ThreadSubject binding) else subject in
  mkSendRequest (sel_HeaderFromEmail s) (sel_HeaderFromName s) (sel_HeaderFromEmail s)
    (sel_EnvelopeFrom s) (sel_ReplyTo s) [oe_RecipientEmail e] [] [] subject body ""
    (if threaded then NormalizeMessageIDHeader (tb_LastOutboundMessageID binding) else "")
    (if threaded then binding_references binding else []) messageID [] "".

Definition no_binding : MailThreadBinding :=
  mkBinding "" "" "" "" "" "" "" "" "" "" "" "" "" "" "" "" "" ZeroTime ZeroTime ZeroTime.

Definition seeded (seed : outboundSeedContext) : bool :=
  negb (String.eqb (sd_AccountID seed) "") || negb (String.eqb (sd_ThreadID seed) "")
  || negb (String.eqb (sd_MessageID seed) "") || negb (String.eqb (sd_ThreadSubject seed) "").

(** The thread an enrollment was seeded with, before anything was sent. *)
Definition seed_binding (campaign : OutboundCampaign) (s : outboundSenderSelection)
    (e : OutboundEnrollment) (seed : outboundSeedContext) (id : string) (now : Z) :
    MailThreadBinding :=
  no_binding <| tb_ID := id |>
    <| tb_AccountID := firstNonEmptyString [sd_AccountID seed; ma_ID (sel_Account s)] |>
    <| tb_ThreadID := sd_ThreadID seed |> <| tb_BindingType := "manual" |>
    <| tb_CampaignID := oc_ID campaign |> <| tb_EnrollmentID := oe_ID e |>
    <| tb_OwnerUserID := oc_UserID campaign |> <| tb_RecipientEmail := oe_RecipientEmail e |>
    <| tb_RecipientDomain := oe_RecipientDomain e |>
    <| tb_RootOutboundMessageID := sd_MessageID seed |>
    <| tb_LastOutboundMessageID := sd_MessageID seed |>
    <| tb_ThreadSubject := sd_ThreadSubject seed |> <| tb_CreatedAt := now |>.

Definition fresh_binding (id : string) (req : SendRequest) (now : Z) : MailThreadBinding :=
  no_binding <| tb_ID := id |> <| tb_BindingType := "campaign" |>
    <| tb_RootOutboundMessageID := sr_MessageID req |> <| tb_ThreadSubject := sr_Subject req |>
    <| tb_CreatedAt := now |>.

(** The binding after the message went out. *)
Definition sent_binding (campaign : OutboundCampaign) (s : outboundSenderSelection)
    (e : OutboundEnrollment) (req : SendRequest) (b : MailThreadBinding) : MailThreadBinding :=
  let b := if negb (String.eqb (TrimSpace (sel_ReplyFunnelID s)) "")
           then b <| tb_BindingType := "reply_funnel" |> <| tb_FunnelID := sel_ReplyFunnelID s |>
                  <| tb_CollectorAccountID := sel_CollectorAccountID s |>
           else b in
  let keep_or v dflt := if String.eqb (TrimSpace v) "" then dflt else v in
  b <| tb_AccountID := ma_ID (sel_Account s) |>
    <| tb_ReplyAccountID := firstNonEmptyString [sel_ReplyAccountID s; ma_ID (sel_Account s)] |>
    <| tb_ReplySenderProfileID := sel_SenderProfileID s |>
    <| tb_OwnerUserID := oc_UserID campaign |> <| tb_CampaignID := oc_ID campaign |>
    <| tb_EnrollmentID := oe_ID e |> <| tb_RecipientEmail := oe_RecipientEmail e |>
    <| tb_RecipientDomain := oe_RecipientDomain e |>
    <| tb_RootOutboundMessageID := keep_or (tb_RootOutboundMessageID b) (sr_MessageID req) |>
    <| tb_LastOutboundMessageID := sr_MessageID req |>
    <| tb_ThreadSubject := keep_or (tb_ThreadSubject b) (sr_Subject req) |>.

(** The enrollment after the message went out: scheduled for the next step, or
    waiting for a reply. *)
Definition sent_enrollment (steps : list OutboundCampaignStep) (step : OutboundCampaignStep)
    (s : outboundSenderSelection) (bindingID messageID : string) (now : Z)
    (e : OutboundEnrollment) : OutboundEnrollment :=
  let e := e <| oe_ThreadBindingID := bindingID |> <| oe_SenderAccountID := ma_ID (sel_Account s) |>
    <| oe_SenderProfileID := sel_SenderProfileID s |> <| oe_ReplyFunnelID := sel_ReplyFunnelID s |>
    <| oe_LastSentMessageID := messageID |> <| oe_LastSentAt := now |>
    <| oe_CurrentStepPosition := os_Position step |> <| oe_PauseReason := "" |>
    <| oe_StopReason := "" |> <| oe_ReplyOutcome := "" |> <| oe_ReplyConfidence := 0 |> in
  match stepForOutboundSend steps e with
  | Some next => e <| oe_Status := "scheduled" |>
                   <| oe_NextActionAt := now + Z.max 0 (os_WaitIntervalMinutes next) * Minute |>
  | None => e <| oe_Status := "waiting_reply" |> <| oe_NextActionAt := ZeroTime |>
  end.

(** The enrollment at a task for a person. *)
Definition task_enrollment (campaign : OutboundCampaign) (step : OutboundCampaignStep)
    (e : OutboundEnrollment) : OutboundEnrollment :=
  e <| oe_Status := "manual_only" |> <| oe_CurrentStepPosition := os_Position step |>
    <| oe_ManualOwnerUserID := oc_UserID campaign |> <| oe_PauseReason := "manual_task" |>
    <| oe_StopReason := "" |> <| oe_NextActionAt := ZeroTime |>.

(** Sent events of the account since an instant. *)
Definition sent_by (senderAccountID : string) (since : Z) (v : OutboundEvent) : bool :=
  String.eqb (ov_EventKind v) "step_sent" && negb (ov_CreatedAt v <? since)
  && match json_unmarshal (ov_EventPayloadJSON v) with
     | Some (JObject fields) =>
         String.eqb (TrimSpace (Sprint_field "sender_account_id" fields)) (TrimSpace senderAccountID)
     | Some JNull => String.eqb "<nil>" (TrimSpace senderAccountID)
     | _ => false
     end.

Section Dispatch.
Context {host : Host} {servers : MailServers}.

Fixpoint sends_of_campaigns (senderAccountID : string) (since : Z)
    (campaigns : list OutboundCampaign) : ODB Z :=
  match campaigns with
  | [] => ret 0
  | c :: rest =>
      let! events := ListOutboundCampaignEvents (oc_ID c) 5000 in
      let! n := sends_of_campaigns senderAccountID since rest in
      ret (Z.of_nat (affected (sent_by senderAccountID since) events) + n)
  end.

Definition outboundAccountSendsSince (userID senderAccountID : string) (since : Z) : ODB Z :=
  let! campaigns := ListOutboundCampaigns userID in
  sends_of_campaigns senderAccountID since campaigns.

(** The enrollment is saved and the event recorded, whose error is dropped. *)
Definition settle (campaign : OutboundCampaign) (e : OutboundEnrollment)
    (kind payload actorRef : string) : ODB unit :=
  let! _ := UpsertOutboundEnrollment e in
  ignore (AppendOutboundEvent
    (mkEvent "" (oc_ID campaign) (oe_ID e) kind payload "worker" actorRef ZeroTime)).

Definition complete (campaign : OutboundCampaign) (e : OutboundEnrollment) : ODB unit :=
  settle campaign (e <| oe_Status := "completed" |> <| oe_NextActionAt := ZeroTime |>
                     <| oe_PauseReason := "" |> <| oe_StopReason := "" |>)
    "completed_no_more_steps" "" "".

Definition hand_over_task (campaign : OutboundCampaign) (step : OutboundCampaignStep)
    (e : OutboundEnrollment) : ODB unit :=
  let task := parseOutboundTaskPolicy (os_TaskPolicyJSON step) in
  settle campaign (task_enrollment campaign step e) "manual_task_due"
    (payload_json [("step_position", PInt (os_Position step)); ("title", PText (tp_Title task));
       ("instructions", PText (tp_Instructions task)); ("action_label", PText (tp_ActionLabel task))])
    "".

(** Left to a person, for a reason. *)
Definition needs_person (reason : string) (e : OutboundEnrollment) : OutboundEnrollment :=
  e <| oe_Status := "manual_only" |> <| oe_PauseReason := reason |> <| oe_NextActionAt := ZeroTime |>.

Definition render_failed (campaign : OutboundCampaign) (e : OutboundEnrollment) (err : GoErr) :
    ODB unit :=
  do! settle campaign (needs_person "send_failed" e) "preflight_blocked"
        (of_bytes (bytes "{" ++ [34] ++ bytes "reason" ++ [34; 58]) +:+ Quote (err_text err) +:+ "}") "" in
  throw err.

Definition stop_suppressed (campaign : OutboundCampaign) (e : OutboundEnrollment)
    (s : OutboundSuppression) : ODB unit :=
  settle campaign (e <| oe_Status := "stopped" |>
      <| oe_StopReason := firstNonEmptyString [su_Reason s; "suppressed"] |>
      <| oe_PauseReason := "" |> <| oe_NextActionAt := ZeroTime |>)
    "preflight_blocked"
    (payload_json [("scope_kind", PText (su_ScopeKind s)); ("scope_value", PText (su_ScopeValue s));
                   ("reason", PText (su_Reason s)); ("source_kind", PText (su_SourceKind s))])
    "suppression".

(** Put off because the account has used up a cap of its provider. *)
Definition put_off (campaign : OutboundCampaign) (e : OutboundEnrollment) (delay : Z)
    (payload : list (string * Payload)) : ODB unit :=
  let! now := time_Now in
  settle campaign (e <| oe_Status := "scheduled" |> <| oe_PauseReason := "provider_pacing" |>
                     <| oe_NextActionAt := now + delay |>)
    "provider_pacing_delayed" (payload_json payload) "".

(** Whether a cap over the last [window] is used up; a cap of zero is none. *)
Definition cap_reached (campaign : OutboundCampaign) (account : MailAccount) (cap window : Z) :
    ODB bool :=
  if 0 <? cap then
    let! now := time_Now in
    let! sends := outboundAccountSendsSince (oc_UserID campaign) (ma_ID account) (now - window) in
    ret (cap <=? sends)
  else ret false.

(** Runs [k] unless a cap puts the enrollment off. *)
Definition with_pacing (campaign : OutboundCampaign) (e : OutboundEnrollment)
    (account : MailAccount) (k : ODB unit) : ODB unit :=
  if RespectProviderCaps (parseOutboundSchedulePolicy (oc_SchedulePolicyJSON campaign)) then
    let pacing := outboundProviderPacingForAccount account in
    let! daily := cap_reached campaign account (pp_DailyCap pacing) (24 * Hour) in
    if daily then
      put_off campaign e (12 * Hour) [("sender_account_id", PText (ma_ID account));
        ("window", PText "24h"); ("daily_cap", PInt (pp_DailyCap pacing))]
    else
      let! hourly := cap_reached campaign account (pp_HourlyCap pacing) Hour in
      if hourly then
        put_off campaign e (Z.max (15 * Minute) (pp_GapSeconds pacing * Second))
          [("sender_account_id", PText (ma_ID account)); ("window", PText "1h");
           ("hourly_cap", PInt (pp_HourlyCap pacing)); ("gap_seconds", PInt (pp_GapSeconds pacing))]
      else k
  else k.

(** The thread of the enrollment: stored, seeded, or none yet. *)
Definition enrollment_binding (campaign : OutboundCampaign) (s : outboundSenderSelection)
    (e : OutboundEnrollment) : ODB MailThreadBinding :=
  let! r := attempt (GetMailThreadBindingByEnrollment (oe_ID e)) in
  let binding := match r with Ok b => b | Fail _ => no_binding end in
  let seed := parseOutboundSeedContext (oe_SeedContextJSON e) in
  if String.eqb (TrimSpace (tb_ID binding)) "" && seeded seed then
    let! id := uuid_NewString in
    let! now := time_Now in
    ret (seed_binding campaign s e seed id now)
  else ret binding.

Definition nextOutboundMessageID (fromEmail : string) : ODB string :=
  let! id := uuid_NewString in
  ret ("<outbound-" +:+ id +:+ "@" +:+ message_host fromEmail +:+ ">").

Definition message_refused (campaign : OutboundCampaign) (e : OutboundEnrollment) (err : GoErr) :
    ODB unit :=
  settle campaign (needs_person "send_failed" e) "send_failed"
    (payload_json [("error", PText (err_text err))]) "".

(** The message is out: its thread, the enrollment and the event follow. *)
Definition record_sent (campaign : OutboundCampaign) (steps : list OutboundCampaignStep)
    (step : OutboundCampaignStep) (s : outboundSenderSelection) (e : OutboundEnrollment)
    (binding : MailThreadBinding) (req : SendRequest) : ODB unit :=
  let! now := time_Now in
  let! binding := if String.eqb (TrimSpace (tb_ID binding)) ""
                  then let! id := uuid_NewString in ret (fresh_binding id req now)
                  else ret binding in
  let! binding := UpsertMailThreadBinding (sent_binding campaign s e req binding) in
  settle campaign (sent_enrollment steps step s (tb_ID binding) (sr_MessageID req) now e) "step_sent"
    (payload_json [("step_position", PInt (os_Position step)); ("message_id", PText (sr_MessageID req));
       ("sender_account_id", PText (ma_ID (sel_Account s)));
       ("sender_profile_id", PText (sel_SenderProfileID s));
       ("recipient_email", PText (oe_RecipientEmail e));
       ("recipient_domain", PText (oe_RecipientDomain e));
       ("reply_funnel_id", PText (sel_ReplyFunnelID s));
       ("collector_account", PText (sel_CollectorAccountID s))]) "".

Definition send_step (campaign : OutboundCampaign) (steps : list OutboundCampaignStep)
    (rendered : outboundRenderedStep) (e : OutboundEnrollment) : ODB unit :=
  let s := rd_Selection rendered in
  let! binding := enrollment_binding campaign s e in
  let! messageID := nextOutboundMessageID (sel_HeaderFromEmail s) in
  let req := outbound_request campaign rendered e binding messageID in
  let! pass := of_res (DecryptString (ma_SecretEnc (sel_Account s))) in
  let! sent := attempt (on_mail (send_message (ma_Login (sel_Account s)) pass req)) in
  match sent with
  | Fail err => message_refused campaign e err
  | Ok _ => record_sent campaign steps (rd_Step rendered) s e binding req
  end.

(** A step whose text is complete: not to the suppressed, nor beyond a cap. *)
Definition deliver (campaign : OutboundCampaign) (steps : list OutboundCampaignStep)
    (rendered : outboundRenderedStep) (e : OutboundEnrollment) : ODB unit :=
  let! now := time_Now in
  let! r := attempt (GetActiveOutboundSuppression (oc_UserID campaign) (oe_RecipientEmail e)
                       (oe_RecipientDomain e) (oc_ID campaign) now) in
  match r with
  | Ok s => stop_suppressed campaign e s
  | Fail ErrNotFound => with_pacing campaign e (sel_Account (rd_Selection rendered))
                          (send_step campaign steps rendered e)
  | Fail err => throw err
  end.

Definition DispatchOutboundEnrollment (e : OutboundEnrollment) : ODB unit :=
  let! campaign := GetOutboundCampaignByIDAny (oe_CampaignID e) in
  let! user := on_accounts (GetUserByID (oc_UserID campaign)) in
  let! steps := ListOutboundCampaignSteps (oc_ID campaign) in
  match stepForOutboundSend steps e with
  | None => complete campaign e
  | Some step =>
      if String.eqb (os_Kind step) "manual_task" then hand_over_task campaign step e
      else
        let! r := attempt (renderOutboundStep user campaign step e) in
        match r with
        | Fail err => render_failed campaign e err
        | Ok rendered =>
            match rd_Missing rendered with
            | [] => deliver campaign steps rendered e
            | missing => settle campaign (needs_person "template_missing" e) "preflight_blocked"
                           (payload_json [("missing", PTexts missing)]) ""
            end
        end
  end.

(** ** The worker's loop *)

Fixpoint dispatch_items (items : list OutboundEnrollment) : ODB unit :=
  match items with
  | [] => ret tt
  | e :: rest => let! _ := attempt (DispatchOutboundEnrollment e) in dispatch_items rest
  end.

Definition resume_item (e : OutboundEnrollment) : ODB unit :=
  let! now := time_Now in
  let! _ := UpsertOutboundEnrollment (e <| oe_Status := "scheduled" |> <| oe_PauseReason := "" |>
                                        <| oe_NextActionAt := now |>) in
  ignore (AppendOutboundEvent
    (mkEvent "" (oe_CampaignID e) (oe_ID e) "resume_requested" "" "worker" "ooo" ZeroTime)).

Fixpoint resume_items (items : list OutboundEnrollment) : ODB unit :=
  match items with
  | [] => ret tt
  | e :: rest => let! _ := attempt (resume_item e) in resume_items rest
  end.

Definition resumeOutboundOOO : ODB unit :=
  let! now := time_Now in
  let! r := attempt (ListOutboundOOOResumeDue now 50) in
  match r with Ok items => resume_items items | Fail _ => ret tt end.

Definition processOutboundDue : ODB unit :=
  do! resumeOutboundOOO in
  let! now := time_Now in
  let! r := attempt (ListDueOutboundEnrollments now 50) in
  match r with Ok items => dispatch_items items | Fail _ => ret tt end.
End Dispatch.
