(* ===== verification/OutboundReplies.v ===== *)
(** * OutboundReplies: what a reply does to a campaign

    [ProcessOutboundIndexedMessage], the outcomes applied by the classifier or
    by hand, what they do to the other recipients of the domain, and the
    actions of the reply inbox, of internal/service/outbound.go. *)

From S2P Require Import Prelude Unicode GoStrings Effects GoStd GoText Json Threading Models Users Mfa.
From S2P Require Import MailAccounts Host Identity MailModels Drafts MailSenders OutboundStore Outbound.
From S2P Require Import GoFmt OutboundSenders OutboundDispatch.
Local Open Scope Z_scope.

(** ** What the policies make of an outcome *)

(** What an outcome does to the recipient's domain. *)
Definition domain_action (campaign : OutboundCampaign) (outcome : string) : string :=
  let reply := parseOutboundReplyPolicy (oc_ReplyPolicyJSON campaign) in
  let suppression := parseOutboundSuppressionPolicy (oc_SuppressionPolicyJSON campaign) in
  let governance := parseOutboundGovernancePolicy (oc_GovernancePolicyJSON campaign) in
  let governed action otherwise := if String.eqb action "none" then otherwise else action in
  let stop_if b := if b : bool then "stop_campaign" else "none" in
  let o := normalizeReplyOutcome outcome in
  if is_one_of ["positive_interest"; "meeting_intent"] o then
    governed (PositiveDomainAction governance)
      (stop_if (StopSameDomainOnReply reply || StopSameDomainOnPositive reply
                || SameDomainPositiveStop suppression))
  else if is_one_of ["not_interested"; "wrong_person"; "referral"] o then
    governed (NegativeDomainAction governance)
      (stop_if (StopSameDomainOnReply reply || StopSameDomainOnNegative reply
                || SameDomainNegativeStop suppression))
  else if String.eqb o "unsubscribe_request" then
    governed (UnsubscribeDomainAction governance)
      (if SameDomainUnsubscribeSuppress suppression then
         if WorkspaceSuppressUnsubscribe suppression then "suppress_workspace"
         else "suppress_campaign"
       else "stop_campaign")
  else if String.eqb o "hostile" then
    governed (HostileDomainAction governance)
      (if SameDomainHostileSuppress suppression || SuppressSameDomainOnHostile reply
       then "suppress_workspace" else "stop_campaign")
  else "none".

(** Another recipient of the domain, stopped or paused. *)
Definition governed_enrollment (action : string) (other : OutboundEnrollment) : OutboundEnrollment :=
  if String.eqb action "pause_workspace" then
    other <| oe_Status := "paused" |> <| oe_PauseReason := "same_domain_reply" |>
      <| oe_StopReason := "" |> <| oe_NextActionAt := ZeroTime |>
  else
    other <| oe_Status := "stopped" |> <| oe_StopReason := "same_domain_reply" |>
      <| oe_PauseReason := "" |> <| oe_NextActionAt := ZeroTime |>.

Definition spared (action : string) (campaign : OutboundCampaign) (e other : OutboundEnrollment) :
    bool :=
  String.eqb (oe_ID other) (oe_ID e)
  || (is_one_of ["stop_campaign"; "suppress_campaign"] action
      && negb (has_campaign (oc_ID campaign) other)).

(** The status an outcome gives the enrollment when no branch decides. *)
Definition outcome_enrollment (campaign : OutboundCampaign) (resumeAt : Z) (outcome : string)
    (e : OutboundEnrollment) : OutboundEnrollment :=
  let reply := parseOutboundReplyPolicy (oc_ReplyPolicyJSON campaign) in
  let stopped := e <| oe_Status := "stopped" |> <| oe_StopReason := outcome |> in
  let by_hand := e <| oe_Status := "manual_only" |> <| oe_ManualOwnerUserID := oc_UserID campaign |> in
  if is_one_of ["positive_interest"; "meeting_intent"] outcome then stopped
  else if String.eqb outcome "question" then if PauseOnQuestion reply then by_hand else stopped
  else if String.eqb outcome "objection" then if PauseOnObjection reply then by_hand else stopped
  else if is_one_of ["referral"; "wrong_person"; "not_interested"; "hostile"] outcome then stopped
  else if String.eqb outcome "unsubscribe_request" then
    e <| oe_Status := "unsubscribed" |> <| oe_StopReason := outcome |>
  else if String.eqb outcome "bounce" then
    e <| oe_Status := "bounced" |> <| oe_StopReason := outcome |>
  else if String.eqb outcome "out_of_office" then
    if PauseOnOutOfOffice reply then
      let paused := e <| oe_Status := "paused" |> <| oe_PauseReason := "out_of_office" |> in
      if AutoResumeOutOfOffice reply && negb (IsZero resumeAt)
      then paused <| oe_NextActionAt := resumeAt |> else paused
    else by_hand
  else if is_one_of ["auto_reply_other"; "manual_review_required"] outcome then
    if PauseOnManualReview reply then by_hand
    else e <| oe_Status := "paused" |> <| oe_PauseReason := "manual_review" |>
  else if StopOnReply reply then e <| oe_Status := "stopped" |> <| oe_StopReason := "reply" |>
  else e.

Definition replied_binding (indexed : IndexedMessage) (replyAt : Z) (b : MailThreadBinding) :
    MailThreadBinding :=
  let keep_or v old := if String.eqb (TrimSpace v) "" then old else v in
  b <| tb_LastReplyMessageID := im_ID indexed |> <| tb_LastReplyAt := replyAt |>
    <| tb_ThreadID := keep_or (im_ThreadID indexed) (tb_ThreadID b) |>
    <| tb_ThreadSubject := keep_or (im_Subject indexed) (tb_ThreadSubject b) |>.

Definition replied_state (campaign : OutboundCampaign) (e : OutboundEnrollment) (outcome : string)
    (replyAt : Z) : RecipientState :=
  mkRecipientState (oc_UserID campaign) (oe_RecipientEmail e) (oe_ContactID e)
    (oe_RecipientDomain e) (recipientStateStatusForOutcome outcome) "workspace" replyAt outcome
    ZeroTime
    (if String.eqb outcome "unsubscribe_request" then "unsubscribe_request"
     else if String.eqb outcome "hostile" then "hostile_reply"
     else if String.eqb outcome "bounce" then "bounce" else "") "" ZeroTime.

(** The suppression of the recipient an outcome asks for. *)
Definition recipient_suppression (campaign : OutboundCampaign) (e : OutboundEnrollment)
    (outcome : string) : option OutboundSuppression :=
  let suppression := parseOutboundSuppressionPolicy (oc_SuppressionPolicyJSON campaign) in
  let compliance := parseOutboundCompliancePolicy (oc_CompliancePolicyJSON campaign) in
  let scoped everywhere reason source :=
    Some (mkSuppression "" (oc_UserID campaign) "recipient" (oe_RecipientEmail e)
            (if everywhere : bool then "" else oc_ID campaign) reason source ZeroTime ZeroTime ZeroTime) in
  if String.eqb outcome "unsubscribe_request" then
    scoped (EqualFold (TrimSpace (UnsubscribeScope compliance)) "workspace"
        || WorkspaceSuppressUnsubscribe suppression) "recipient requested unsubscribe" "unsubscribe"
  else if String.eqb outcome "bounce" then
    scoped (WorkspaceSuppressBounce suppression) "hard bounce" "bounce"
  else if String.eqb outcome "hostile" then scoped true "hostile reply" "reply_policy"
  else None.

Section Replies.
Context {host : Host} {parsers : MailParsers}.

(** ** Applying an outcome *)

Fixpoint govern_others (campaign : OutboundCampaign) (e : OutboundEnrollment) (action : string)
    (others : list OutboundEnrollment) : ODB unit :=
  match others with
  | [] => ret tt
  | other :: rest =>
      if spared action campaign e other then govern_others campaign e action rest
      else
        let! _ := UpsertOutboundEnrollment (governed_enrollment action other) in
        do! ignore (AppendOutboundEvent (mkEvent "" (oc_ID campaign) (oe_ID other)
              "domain_governed" "" "classifier" action ZeroTime)) in
        govern_others campaign e action rest
  end.

Definition applyOutcomeDomainActions (campaign : OutboundCampaign) (e : OutboundEnrollment)
    (outcome : string) : ODB unit :=
  let action := domain_action campaign outcome in
  do! when (negb (String.eqb action "none"))
        (let! others := ListActiveOutboundEnrollmentsByDomain (oc_UserID campaign)
                          (oe_RecipientDomain e) "" in
         govern_others campaign e action others) in
  when (is_one_of ["suppress_campaign"; "suppress_workspace"] action)
    (let! _ := UpsertOutboundSuppression (mkSuppression "" (oc_UserID campaign) "domain"
                 (oe_RecipientDomain e)
                 (if String.eqb action "suppress_workspace" then "" else oc_ID campaign)
                 ("domain suppression due to " +:+ outcome) "reply_policy" ZeroTime ZeroTime ZeroTime) in
     ret tt).

(** The reply's date, its arrival, or now. *)
Definition reply_time (indexed : IndexedMessage) : ODB Z :=
  if negb (IsZero (im_DateHeader indexed)) then ret (im_DateHeader indexed)
  else if negb (IsZero (im_InternalDate indexed)) then ret (im_InternalDate indexed)
  else time_Now.

(** The enrollment a reply is first recorded on. *)
Definition replied_enrollment (b : MailThreadBinding) (indexed : IndexedMessage) (outcome : string)
    (confidence : Z) (e : OutboundEnrollment) : OutboundEnrollment :=
  e <| oe_ThreadBindingID := tb_ID b |> <| oe_ReplyOutcome := outcome |>
    <| oe_ReplyConfidence := confidence |> <| oe_LastReplyMessageID := im_ID indexed |>
    <| oe_NextActionAt := ZeroTime |> <| oe_PauseReason := "" |> <| oe_StopReason := "" |>.

(** The two events of a reply; their errors are dropped. *)
Definition reply_events (campaign : OutboundCampaign) (e : OutboundEnrollment)
    (indexed : IndexedMessage) (outcome : string) (confidence : Z) : ODB unit :=
  do! ignore (AppendOutboundEvent (mkEvent "" (oc_ID campaign) (oe_ID e) "reply_detected"
        (payload_json [("message_id", PText (im_ID indexed)); ("thread_id", PText (im_ThreadID indexed));
                       ("outcome", PText outcome)]) "worker" "" ZeroTime)) in
  ignore (AppendOutboundEvent (mkEvent "" (oc_ID campaign) (oe_ID e) "reply_classified"
    (payload_json [("message_id", PText (im_ID indexed)); ("reply_outcome", PText outcome);
       ("reply_confidence", PHundredths confidence); ("status", PText (oe_Status e));
       ("pause_reason", PText (oe_PauseReason e)); ("stop_reason", PText (oe_StopReason e));
       ("next_action_at", PTime (oe_NextActionAt e))]) "classifier" outcome ZeroTime)).

Definition applyOutboundReplyOutcome (campaign : OutboundCampaign) (e : OutboundEnrollment)
    (binding : MailThreadBinding) (indexed : IndexedMessage) (outcome : string) (confidence : Z)
    (resumeAt : Z) : ODB unit :=
  let outcome := normalizeReplyOutcome outcome in
  let! replyAt := reply_time indexed in
  let binding := replied_binding indexed replyAt binding in
  let! _ := UpsertMailThreadBinding binding in
  let e := replied_enrollment binding indexed outcome confidence e in
  let! r := attempt (ListOutboundCampaignSteps (oc_ID campaign)) in
  let steps := match r with Ok l => l | Fail _ => [] end in
  let! now := time_Now in
  let e := match applyOutboundReplyBranch campaign now e steps outcome with
           | Some e' => e'
           | None => outcome_enrollment campaign resumeAt outcome e
           end in
  let! _ := UpsertOutboundEnrollment e in
  let! _ := UpsertRecipientState (replied_state campaign e outcome replyAt) in
  do! match recipient_suppression campaign e outcome with
      | Some s => let! _ := UpsertOutboundSuppression s in ret tt
      | None => ret tt
      end in
  do! applyOutcomeDomainActions campaign e outcome in
  reply_events campaign e indexed outcome confidence.

(** ** Incoming messages *)

(** The message is from the account itself or one of its identities. *)
Definition outboundLooksLikeSelfMessage (indexed : IndexedMessage) (account : MailAccount)
    (identities : list MailIdentityRow) : bool :=
  let normalized v := match NormalizeMailboxAddress v with Ok a => [fold_trim a] | Fail _ => [] end in
  let candidates := normalized (ma_Login account)
    ++ flat_map (fun i => normalized (mi_FromEmail i) ++ normalized (mi_ReplyTo i)) identities in
  let from := TrimSpace (im_FromValue indexed) in
  let senders := match parse_address_list from with
                 | Some (a :: l) => a :: l
                 | r => match parse_address from with Some a => [a] | None => default [] r end
                 end in
  existsb (fun a => is_one_of candidates (fold_trim a)) senders.

(** The thread a message of our own was sent in. *)
Definition note_own_message (account : MailAccount) (indexed : IndexedMessage) : ODB unit :=
  if String.eqb (TrimSpace (im_MessageIDHeader indexed)) "" then ret tt
  else
    let! r := attempt (FindMailThreadBindingByOutboundMessageID (ma_ID account)
                         (im_MessageIDHeader indexed)) in
    match r with
    | Fail _ => ret tt
    | Ok b =>
        let keep_or v old := if String.eqb (TrimSpace v) "" then old else v in
        let! _ := UpsertMailThreadBinding (b
              <| tb_ThreadID := keep_or (im_ThreadID indexed) (tb_ThreadID b) |>
              <| tb_ThreadSubject := keep_or (im_Subject indexed) (tb_ThreadSubject b) |>) in
        ret tt
    end.

Definition reply_headers (indexed : IndexedMessage) : list string :=
  let inReplyTo := NormalizeMessageIDHeader (im_InReplyToHeader indexed) in
  NormalizeMessageIDHeaders (ParseMessageIDList (im_ReferencesHeader indexed)
    ++ (if String.eqb inReplyTo "" then [] else [inReplyTo])).

Definition ProcessOutboundIndexedMessage (account : MailAccount) (indexed : IndexedMessage) :
    ODB unit :=
  do! note_own_message account indexed in
  let! identities := on_mail (ListMailIdentities (ma_ID account)) in
  if outboundLooksLikeSelfMessage indexed account identities then ret tt
  else
    match reply_headers indexed with
    | [] => ret tt
    | headers =>
        let! r := attempt (FindMailThreadBindingByReplyHeaders (ma_ID account) headers) in
        match r with
        | Fail ErrNotFound => ret tt
        | Fail err => throw err
        | Ok binding =>
            if String.eqb (TrimSpace (tb_LastReplyMessageID binding)) (TrimSpace (im_ID indexed))
            then ret tt
            else
              let! campaign := GetOutboundCampaignByIDAny (tb_CampaignID binding) in
              let! e := GetOutboundEnrollmentByID (oc_UserID campaign) (tb_EnrollmentID binding) in
              let! now := time_Now in
              let '(outcome, confidence, resumeAt) := classifyOutboundReply now indexed in
              applyOutboundReplyOutcome campaign e binding indexed outcome confidence resumeAt
        end
    end.

(** ** By hand *)

(** The stored thread, or an empty one. *)
Definition binding_or_none (enrollmentID : string) : ODB MailThreadBinding :=
  let! r := attempt (GetMailThreadBindingByEnrollment enrollmentID) in
  match r with
  | Ok b => ret b
  | Fail ErrNotFound => ret no_binding
  | Fail err => throw err
  end.

(** The last reply of a thread as the binding tells it. *)
Definition told_reply (b : MailThreadBinding) : IndexedMessage :=
  plain_message (tb_LastReplyMessageID b) "" "" 0 (tb_ThreadID b) "" "" "" "" "" "" ""
    (tb_ThreadSubject b) "" "" "" false false false (tb_LastReplyAt b) (tb_LastReplyAt b) ZeroTime.

Definition last_reply (b : MailThreadBinding) : ODB IndexedMessage :=
  let replyAccountID := firstNonEmptyString [tb_ReplyAccountID b; tb_CollectorAccountID b;
                                             tb_AccountID b] in
  if negb (String.eqb (TrimSpace (tb_LastReplyMessageID b)) "")
     && negb (String.eqb replyAccountID "") then
    let! r := attempt (on_mail (GetIndexedMessageByID replyAccountID (tb_LastReplyMessageID b))) in
    ret match r with Ok item => item | Fail _ => told_reply b end
  else ret (told_reply b).

Definition ApplyManualReplyOutcome (u : User) (enrollmentID outcome : string) (confidence : Z) :
    ODB unit :=
  let! e := GetOutboundEnrollmentByID (u_ID u) enrollmentID in
  let! campaign := GetOutboundCampaignByID (u_ID u) (oe_CampaignID e) in
  let! binding := binding_or_none (oe_ID e) in
  let! indexed := last_reply binding in
  let confidence := if confidence <=? 0 then 100 else confidence in
  applyOutboundReplyOutcome campaign e binding indexed outcome confidence ZeroTime.

(** What an action of the reply inbox makes of the enrollment, [None] for an
    unknown one. *)
Definition ops_enrollment (u : User) (action scopeValue : string) (until now : Z)
    (e : OutboundEnrollment) : option OutboundEnrollment :=
  if String.eqb action "takeover" then
    Some (e <| oe_Status := "manual_only" |> <| oe_ManualOwnerUserID := u_ID u |>
            <| oe_PauseReason := "" |> <| oe_NextActionAt := ZeroTime |>)
  else if String.eqb action "pause" then
    Some (e <| oe_Status := "paused" |> <| oe_PauseReason := "manual_pause" |>
            <| oe_NextActionAt := until |>)
  else if String.eqb action "resume" then
    Some (e <| oe_Status := "scheduled" |> <| oe_PauseReason := "" |> <| oe_NextActionAt := now |>)
  else if String.eqb action "stop" then
    Some (e <| oe_Status := "stopped" |>
            <| oe_StopReason := firstNonEmptyString [scopeValue; "manual_stop"] |>
            <| oe_PauseReason := "" |> <| oe_NextActionAt := ZeroTime |>)
  else if String.eqb action "suppress_recipient" then
    Some (e <| oe_Status := "stopped" |> <| oe_StopReason := "manual_suppression" |>
            <| oe_NextActionAt := ZeroTime |>)
  else if String.eqb action "suppress_domain" then
    Some (e <| oe_Status := "stopped" |> <| oe_StopReason := "manual_domain_suppression" |>
            <| oe_NextActionAt := ZeroTime |>)
  else None.

(** The suppression an action asks for: of the recipient everywhere, of the
    domain in the campaign. *)
Definition ops_suppression (u : User) (campaign : OutboundCampaign) (action scopeValue : string)
    (until : Z) (e : OutboundEnrollment) : option OutboundSuppression :=
  if String.eqb action "suppress_recipient" then
    Some (mkSuppression "" (u_ID u) "recipient" (firstNonEmptyString [scopeValue; oe_RecipientEmail e])
            "" "manual suppression" "manual" until ZeroTime ZeroTime)
  else if String.eqb action "suppress_domain" then
    Some (mkSuppression "" (u_ID u) "domain" (firstNonEmptyString [scopeValue; oe_RecipientDomain e])
            (oc_ID campaign) "manual domain suppression" "manual" until ZeroTime ZeroTime)
  else None.

Definition ApplyReplyOpsAction (u : User) (enrollmentID action scopeValue : string) (until : Z) :
    ODB unit :=
  let! e := GetOutboundEnrollmentByID (u_ID u) enrollmentID in
  let! campaign := GetOutboundCampaignByID (u_ID u) (oe_CampaignID e) in
  let! binding := binding_or_none (oe_ID e) in
  let action := fold_trim action in
  let! now := if String.eqb action "resume" then time_Now else ret ZeroTime in
  do! match ops_suppression u campaign action scopeValue until e with
      | Some s => let! _ := UpsertOutboundSuppression s in ret tt
      | None => ret tt
      end in
  match ops_enrollment u action scopeValue until now e with
  | None => throw (ErrText "unsupported reply-ops action")
  | Some e' =>
      let! _ := UpsertOutboundEnrollment e' in
      do! when (negb (String.eqb (TrimSpace (tb_ID binding)) "")
                && String.eqb (TrimSpace (tb_OwnerUserID binding)) "")
            (let! _ := UpsertMailThreadBinding (binding <| tb_OwnerUserID := oc_UserID campaign |>) in
             ret tt) in
      ignore (AppendOutboundEvent
        (mkEvent "" (oc_ID campaign) (oe_ID e) action "" "user" (u_ID u) ZeroTime))
  end.
End Replies.
