(* ===== verification/OutboundLaunch.v ===== *)
(** * OutboundLaunch: checking a campaign and starting it

    [PreflightOutboundCampaign] and [LaunchOutboundCampaign] of
    internal/service/outbound.go. *)

From S2P Require Import Prelude Unicode GoStrings Effects GoStd GoText Json Threading MessageIds Models.
From S2P Require Import Users Mfa MailAccounts Host Identity MailModels MailSenders OutboundStore Outbound.
From S2P Require Import GoFmt OutboundSenders OutboundDispatch OutboundReplies.
Local Open Scope Z_scope.

Record OutboundPreflightIssue : Type := mkIssue {
  is_Code : string; is_Severity : string; is_Recipient : string; is_Domain : string;
  is_SenderRef : string; is_Message : string; is_Blocking : bool; is_CampaignID : string;
  is_EnrollmentID : string
}.

(** An issue of the whole campaign, and one of a recipient. *)
Definition campaign_issue (code severity message : string) (blocking : bool) : OutboundPreflightIssue :=
  mkIssue code severity "" "" "" message blocking "" "".
Definition recipient_issue (e : OutboundEnrollment) (code severity senderRef message : string)
    (blocking : bool) (campaignID : string) : OutboundPreflightIssue :=
  mkIssue code severity (oe_RecipientEmail e) (oe_RecipientDomain e) senderRef message blocking
    campaignID "".

Definition issue_if (b : bool) (i : OutboundPreflightIssue) : list OutboundPreflightIssue :=
  if b then [i] else [].

(** ** Checks that read nothing *)

Definition existing_threads (campaign : OutboundCampaign) : bool :=
  EqualFold (TrimSpace (oc_CampaignMode campaign)) "existing_threads".

Definition step_issues (campaign : OutboundCampaign) (step : OutboundCampaignStep) :
    list OutboundPreflightIssue :=
  issue_if (String.eqb (os_Kind step) "manual_task"
            && String.eqb (tp_Title (parseOutboundTaskPolicy (os_TaskPolicyJSON step))) "")
    (campaign_issue "manual_task_missing_title" "error"
       ("Manual task step " +:+ format_int (os_Position step) +:+ " must have a task title.") true)
  ++ issue_if (existing_threads campaign && String.eqb (os_Kind step) "email"
               && negb (String.eqb (os_ThreadMode step) "same_thread"))
    (campaign_issue "existing_threads_new_thread_step" "warning"
       ("Step " +:+ format_int (os_Position step) +:+ " starts a new thread even though this campaign is configured to continue existing threads.") false).

Definition thread_seeded (e : OutboundEnrollment) : bool :=
  let seed := parseOutboundSeedContext (oe_SeedContextJSON e) in
  negb (String.eqb (TrimSpace (oe_ThreadBindingID e)) "") || negb (String.eqb (sd_AccountID seed) "")
  || negb (String.eqb (sd_ThreadID seed) "") || negb (String.eqb (sd_MessageID seed) "").

(** The recipients that share the domain; a blank one is not counted. *)
Definition domain_count (enrollments : list OutboundEnrollment) (domain : string) : Z :=
  if String.eqb (TrimSpace domain) "" then 0
  else Z.of_nat (affected (fun e => String.eqb (oe_RecipientDomain e) domain) enrollments).

Section Launch.
Context {host : Host}.

Definition outboundSendCounts24h (campaignID senderAccountID domain : string) : ODB (Z * Z) :=
  let! events := ListOutboundCampaignEvents campaignID 5000 in
  let! now := time_Now in
  let recent v := String.eqb (ov_EventKind v) "step_sent" && negb (ov_CreatedAt v <? now - 24 * Hour) in
  let field key v := match json_unmarshal (ov_EventPayloadJSON v) with
                     | Some (JObject fields) => Some (TrimSpace (Sprint_field key fields))
                     | Some JNull => Some "<nil>"
                     | _ => None
                     end in
  ret (Z.of_nat (affected (fun v => recent v
         && match field "sender_account_id" v with
            | Some t => String.eqb t (TrimSpace senderAccountID) | None => false end) events),
       Z.of_nat (affected (fun v => recent v
         && match field "recipient_domain" v with
            | Some t => EqualFold t (TrimSpace domain) | None => false end) events)).

(** Sends of each account over the last day and hour, counted once. *)
Definition SendCache : Type := (list (string * Z) * list (string * Z))%type.

Definition cached (id : string) (cache : list (string * Z)) : option Z :=
  snd <$> List.find (fun kv => String.eqb (fst kv) id) cache.

Section Preflight.
Variables (u : User) (campaign : OutboundCampaign) (steps : list OutboundCampaignStep).
Variable (enrollments : list OutboundEnrollment).

Let schedule := parseOutboundSchedulePolicy (oc_SchedulePolicyJSON campaign).
Let governance := parseOutboundGovernancePolicy (oc_GovernancePolicyJSON campaign).

(** Another campaign that is at work on the recipient, or on the domain; a
    failed read is no issue. *)
Definition elsewhere (e : OutboundEnrollment) (code mode message : string)
    (read : ODB (list OutboundEnrollment)) : ODB (list OutboundPreflightIssue) :=
  let! r := attempt read in
  let block := String.eqb mode "block" in
  ret match r with
      | Ok (other :: _) => [recipient_issue e code (if block then "error" else "warning") "" message
                              block (oe_CampaignID other)]
      | _ => []
      end.

Definition suppression_issues (e : OutboundEnrollment) : ODB (list OutboundPreflightIssue) :=
  let! now := time_Now in
  let! r := attempt (GetActiveOutboundSuppression (u_ID u) (oe_RecipientEmail e)
                       (oe_RecipientDomain e) (oc_ID campaign) now) in
  match r with
  | Ok s => ret [recipient_issue e "recipient_suppressed" "error" ""
                   (firstNonEmptyString [su_Reason s; "Recipient or domain is suppressed."]) true ""]
  | Fail ErrNotFound => ret []
  | Fail err => throw err
  end.

(** The steps rendered in order, up to the first without a sender. *)
Fixpoint render_issues (e : OutboundEnrollment) (accountID : string)
    (steps : list OutboundCampaignStep) : ODB (list OutboundPreflightIssue) :=
  match steps with
  | [] => ret []
  | step :: rest =>
      if String.eqb (os_Kind step) "manual_task" then render_issues e accountID rest
      else
        let! r := attempt (renderOutboundStep u campaign step e) in
        match r with
        | Fail err => ret [recipient_issue e "sender_unavailable" "error" accountID (err_text err) true ""]
        | Ok rendered =>
            let! later := render_issues e accountID rest in
            ret (issue_if (match rd_Missing rendered with [] => false | _ => true end)
                   (recipient_issue e "missing_template_variables" "error" ""
                      ("Missing template values: " +:+ Join ", " (rd_Missing rendered)) true "")
                 ++ later)
        end
  end.

(** A count from the cache, or read and put there. *)
Definition counted_sends (accountID : string) (window : Z) (cache : list (string * Z)) :
    ODB (Z * list (string * Z)) :=
  match cached accountID cache with
  | Some n => ret (n, cache)
  | None =>
      let! now := time_Now in
      let! n := outboundAccountSendsSince (u_ID u) accountID (now - window) in
      ret (n, (accountID, n) :: cache)
  end.

Definition over (limit n : Z) : bool := (0 <? limit) && (limit <=? n).

Definition pacing_issues (e : OutboundEnrollment) (account : MailAccount) (caches : SendCache) :
    ODB (list OutboundPreflightIssue * SendCache) :=
  if negb (RespectProviderCaps schedule) then ret ([], caches)
  else
    let id := ma_ID account in
    let! (daily, cache24) := counted_sends id (24 * Hour) (fst caches) in
    let! (hourly, cache1) := counted_sends id Hour (snd caches) in
    let pacing := outboundProviderPacingForAccount account in
    let warn code message := recipient_issue e code "warning" id message false "" in
    let above limit cap := (0 <? limit) && (0 <? cap) && (cap <? limit) in
    ret (issue_if (over (pp_DailyCap pacing) daily)
           (warn "provider_daily_soft_cap" "Sender mailbox is already at the provider-aware daily soft cap.")
         ++ issue_if (over (pp_HourlyCap pacing) hourly)
           (warn "provider_hourly_soft_cap" "Sender mailbox is already at the provider-aware hourly soft cap.")
         ++ issue_if (above (MaxSendsPerDay schedule) (pp_DailyCap pacing))
           (warn "campaign_daily_cap_above_provider_soft_cap" "Campaign daily cap is above the provider-aware soft cap for this mailbox.")
         ++ issue_if (above (MaxSendsPerHour schedule) (pp_HourlyCap pacing))
           (warn "campaign_hourly_cap_above_provider_soft_cap" "Campaign hourly cap is above the provider-aware soft cap for this mailbox."),
         (cache24, cache1)).

Definition daily_issues (e : OutboundEnrollment) (accountID : string) :
    ODB (list OutboundPreflightIssue) :=
  if (0 <? MaxSendsPerDay schedule) || (0 <? MaxSendsPerDomainPerDay schedule) then
    let! (sender, domain) := outboundSendCounts24h (oc_ID campaign) accountID (oe_RecipientDomain e) in
    ret (issue_if (over (MaxSendsPerDay schedule) sender)
           (recipient_issue e "sender_daily_cap" "warning" accountID
              "Sender daily cap would be exceeded." false "")
         ++ issue_if (over (MaxSendsPerDomainPerDay schedule) domain)
           (recipient_issue e "domain_daily_cap" "warning" ""
              "Campaign domain cap would be exceeded." false ""))
  else ret [].

(** The sender of a recipient, and what hangs on it. *)
Definition sender_issues (e : OutboundEnrollment) (caches : SendCache) :
    ODB (list OutboundPreflightIssue * SendCache) :=
  let! r := attempt (loadOutboundContact u e) in
  let contact := match r with Ok c => c | Fail _ => no_contact end in
  let! s := attempt (resolveOutboundSenderSelection u campaign contact e) in
  match s with
  | Fail err => ret ([recipient_issue e "sender_unavailable" "error" "" (err_text err) true ""], caches)
  | Ok selection =>
      let id := ma_ID (sel_Account selection) in
      let seed := parseOutboundSeedContext (oe_SeedContextJSON e) in
      let mismatch := issue_if (existing_threads campaign && negb (String.eqb (sd_AccountID seed) "")
                                && negb (String.eqb (TrimSpace id) (sd_AccountID seed)))
        (recipient_issue e "thread_owner_mismatch" "warning" id
           "Campaign will reopen an existing thread from a different mailbox than the thread owner."
           false "") in
      let! rendered := render_issues e id steps in
      let! (pacing, caches) := pacing_issues e (sel_Account selection) caches in
      let! daily := daily_issues e id in
      ret (mismatch ++ rendered ++ pacing ++ daily, caches)
  end.

Definition recipient_issues (e : OutboundEnrollment) (caches : SendCache) :
    ODB (list OutboundPreflightIssue * SendCache) :=
  let cap := MaxActivePerDomain governance in
  let crowded := issue_if ((0 <? cap) && (cap <? domain_count enrollments (oe_RecipientDomain e)))
    (recipient_issue e "domain_active_cap" "warning" ""
       ("Domain exceeds the configured active recipient cap (" +:+ format_int cap +:+ ").")
       (String.eqb (DomainCollisionMode governance) "block") "") in
  let! suppressed := suppression_issues e in
  let! busy := elsewhere e "recipient_active_elsewhere" (RecipientCollisionMode governance)
                 "Recipient is already active in another campaign."
                 (ListActiveOutboundEnrollmentsByRecipient (u_ID u) (oe_RecipientEmail e) (oc_ID campaign)) in
  let! worked := elsewhere e "domain_active_elsewhere" (DomainCollisionMode governance)
                   "Another campaign is already working this domain."
                   (ListActiveOutboundEnrollmentsByDomain (u_ID u) (oe_RecipientDomain e) (oc_ID campaign)) in
  let! (sender, caches) := sender_issues e caches in
  ret (crowded ++ suppressed ++ busy ++ worked ++ sender, caches).

(** A recipient seen before is only reported. *)
Fixpoint recipients_issues (seen : list string) (caches : SendCache)
    (items : list OutboundEnrollment) : ODB (list OutboundPreflightIssue) :=
  match items with
  | [] => ret []
  | e :: rest =>
      let key := fold_trim (oe_RecipientEmail e) in
      if is_one_of seen key then
        let! later := recipients_issues seen caches rest in
        ret (recipient_issue e "duplicate_recipient" "error" ""
               "Recipient appears more than once in this campaign." true "" :: later)
      else
        let! (issues, caches) := recipient_issues e caches in
        let! later := recipients_issues (key :: seen) caches rest in
        ret (issues ++ later)
  end.
End Preflight.

Definition PreflightOutboundCampaign (u : User) (campaign : OutboundCampaign) :
    ODB (list OutboundPreflightIssue) :=
  let! steps := ListOutboundCampaignSteps (oc_ID campaign) in
  let perStep := flat_map (step_issues campaign) steps in
  match steps with
  | [] => ret (perStep ++ [campaign_issue "missing_steps" "error"
                             "Campaign must contain at least one step." true])
  | _ =>
      let early := perStep ++ issue_if (negb (existsb (fun s => String.eqb (os_Kind s) "email") steps))
        (campaign_issue "no_email_steps" "warning"
           "Campaign has no email steps and will only create manual tasks." false) in
      let! enrollments := ListOutboundEnrollmentsByCampaign (u_ID u) (oc_ID campaign) in
      match enrollments with
      | [] => ret (early ++ [campaign_issue "missing_recipients" "error"
                               "Campaign must contain at least one recipient." true])
      | _ =>
          let unseeded := issue_if (existing_threads campaign
                                    && negb (existsb thread_seeded enrollments))
            (campaign_issue "missing_existing_thread_context" "error"
               "Existing-thread campaign has no seeded mailbox threads yet. Import recipients from a saved mailbox search or thread-aware audience source first." true) in
          let! perRecipient := recipients_issues u campaign steps enrollments [] ([], []) enrollments in
          let compliance := parseOutboundCompliancePolicy (oc_CompliancePolicyJSON campaign) in
          ret (early ++ unseeded ++ perRecipient
               ++ issue_if (Promotional compliance && negb (UnsubscribeRequired compliance))
                    (campaign_issue "promotional_without_unsubscribe" "warning"
                       "Promotional campaign does not require unsubscribe handling." false))
      end
  end.

(** Enrollments that a launch schedules: not ended, waiting or held. *)
Definition launchable (e : OutboundEnrollment) : bool :=
  negb (is_one_of ["completed"; "stopped"; "bounced"; "unsubscribed"; "waiting_reply"; "paused";
                   "manual_only"] (oe_Status e)).

Fixpoint launch_enrollments (now : Z) (items : list OutboundEnrollment) : ODB unit :=
  match items with
  | [] => ret tt
  | e :: rest =>
      do! when (launchable e)
            (let! _ := UpsertOutboundEnrollment (e <| oe_Status := "scheduled" |>
                         <| oe_NextActionAt := coalesceTime (oe_NextActionAt e) now |>) in ret tt) in
      launch_enrollments now rest
  end.

Definition LaunchOutboundCampaign (u : User) (campaignID : string) :
    ODB (list OutboundPreflightIssue) :=
  let! campaign := GetOutboundCampaignByID (u_ID u) campaignID in
  let! issues := PreflightOutboundCampaign u campaign in
  if existsb is_Blocking issues then ret issues
  else
    let! enrollments := ListOutboundEnrollmentsByCampaign (u_ID u) (oc_ID campaign) in
    let! now := time_Now in
    do! launch_enrollments now enrollments in
    do! SetOutboundCampaignStatus (u_ID u) (oc_ID campaign) "running" now ZeroTime in
    ret issues.
End Launch.

(** * OutboundPlaybooks: ready-made campaigns

    The catalog of internal/service/outbound.go, literally, and
    [ApplyOutboundPlaybook], which rewrites a campaign after one of them. *)

Record OutboundPlaybookStep : Type := mkPlaybookStep {
  ps_Position : Z; ps_Kind : string; ps_ThreadMode : string; ps_SubjectTemplate : string;
  ps_BodyTemplate : string; ps_WaitIntervalMinutes : Z; ps_TaskPolicy : list (string * Payload);
  ps_BranchPolicy : list (string * Payload)
}.

Record OutboundPlaybook : Type := mkPlaybook {
  pb_Key : string; pb_Name : string; pb_Description : string; pb_GoalKind : string;
  pb_CampaignMode : string; pb_AudienceSourceKind : string; pb_SenderPolicyKind : string;
  pb_ReplyPolicy : list (string * Payload); pb_SuppressionPolicy : list (string * Payload);
  pb_SchedulePolicy : list (string * Payload); pb_CompliancePolicy : list (string * Payload);
  pb_GovernancePolicy : list (string * Payload); pb_Steps : list OutboundPlaybookStep
}.

(** A text of several lines. *)
Definition lines (l : list string) : string := Join newline l.

Definition thread_revival : OutboundPlaybook :=
  mkPlaybook "thread_revival" "Thread Revival"
    "Continue dormant Gmail, Libero, and other connected mailbox threads from the original conversation owner."
    "thread_revival" "existing_threads" "saved_search" "thread_owner"
    [("stop_on_reply", PBool true); ("pause_on_question", PBool true);
     ("pause_on_objection", PBool true); ("pause_on_manual_review", PBool true);
     ("pause_on_out_of_office", PBool true); ("auto_resume_out_of_office", PBool true)]
    [("same_domain_unsubscribe_suppress", PBool true);
     ("same_domain_hostile_suppress", PBool true);
     ("workspace_suppress_unsubscribe", PBool true); ("workspace_suppress_bounce", PBool true)]
    [("respect_provider_caps", PBool true)]
    [("unsubscribe_required", PBool true); ("unsubscribe_scope", PText "recipient");
     ("tracking_mode", PText "none"); ("footer_mode", PText "compliance")]
    [("recipient_collision_mode", PText "block"); ("domain_collision_mode", PText "block");
     ("max_active_per_domain", PInt 2); ("positive_domain_action", PText "pause_workspace");
     ("negative_domain_action", PText "stop_workspace");
     ("unsubscribe_domain_action", PText "suppress_workspace");
     ("hostile_domain_action", PText "suppress_workspace")]
    [mkPlaybookStep 1 "email" "same_thread" "" (lines ["Hi {{first_name}},"; "";
       "Bumping this thread in case it got buried."; "";
       "Does this still sit with you, or is there a better owner for it?"; ""; "Best,";
       "{{sender_name}}"]) 2880 [] [("question", PText "manual_task:2");
       ("objection", PText "manual_task:2"); ("wrong_person", PText "manual_task:2");
       ("referral", PText "manual_task:2"); ("out_of_office", PText "manual_task:2");
       ("auto_reply_other", PText "manual_task:2");
       ("manual_review_required", PText "manual_task:2")];
     mkPlaybookStep 2 "manual_task" "same_thread" "" "" 0
       [("title", PText "Review the live thread and respond from the same mailbox");
       ("instructions", PText "Use the original Gmail, Libero, or connected mailbox owner for continuity. Resolve questions, confirm referrals, or decide whether the thread should continue.");
       ("action_label", PText "Handled, continue sequence")] [];
     mkPlaybookStep 3 "email" "same_thread" "" (lines
       ["Following up once more in case this is still relevant on your side."; "";
       "If there is a better owner for this thread, I would really appreciate a redirect."; "";
       "Best,"; "{{sender_name}}"]) 0 [] []].

Definition find_owner : OutboundPlaybook :=
  mkPlaybook "find_owner" "Find The Right Owner"
    "Start a concise outbound thread and branch wrong-person or referral replies into a human follow-up step."
    "find_owner" "new_threads" "contact_group" "reply_funnel"
    [("stop_on_reply", PBool true); ("pause_on_question", PBool true);
     ("pause_on_objection", PBool true); ("pause_on_manual_review", PBool true);
     ("pause_on_out_of_office", PBool true); ("auto_resume_out_of_office", PBool true)]
    [("same_domain_unsubscribe_suppress", PBool true);
     ("same_domain_hostile_suppress", PBool true);
     ("workspace_suppress_unsubscribe", PBool true); ("workspace_suppress_bounce", PBool true)]
    [("respect_provider_caps", PBool true)]
    [("unsubscribe_required", PBool true); ("unsubscribe_scope", PText "recipient");
     ("tracking_mode", PText "none"); ("footer_mode", PText "compliance")]
    [("recipient_collision_mode", PText "block"); ("domain_collision_mode", PText "warn");
     ("max_active_per_domain", PInt 3); ("positive_domain_action", PText "pause_workspace");
     ("negative_domain_action", PText "stop_workspace");
     ("unsubscribe_domain_action", PText "suppress_workspace");
     ("hostile_domain_action", PText "suppress_workspace")]
    [mkPlaybookStep 1 "email" "new_thread" "Quick question for {{domain}}" (lines
       ["Hi {{first_name}},"; "";
       "Could you point me to the best person for this topic on your side?"; "";
       "If that is you, I can send the short version here."; ""; "Best,"; "{{sender_name}}"])
       4320 [] [("wrong_person", PText "manual_task:2"); ("referral", PText "manual_task:2");
       ("question", PText "manual_task:2"); ("objection", PText "manual_task:2");
       ("manual_review_required", PText "manual_task:2")];
     mkPlaybookStep 2 "manual_task" "same_thread" "" "" 0
       [("title", PText "Work the reply or referral by hand");
       ("instructions", PText "If the recipient names another owner, update contacts and continue from the right mailbox. If they ask a question, answer directly before continuing.");
       ("action_label", PText "Handled, continue")] [];
     mkPlaybookStep 3 "email" "same_thread" "" (lines
       ["Wanted to circle back in case this should go to someone else on your team."; "";
       "Happy to redirect if you point me to the right owner."; ""; "Best,"; "{{sender_name}}"])
       0 [] []].

Definition reengage_dormant : OutboundPlaybook :=
  mkPlaybook "reengage_dormant" "Re-Engage Dormant Accounts"
    "Restart cold but relevant accounts with strong domain governance and a manual branch for nuanced replies."
    "reengage_dormant" "new_threads" "saved_search" "campaign_pool"
    [("stop_on_reply", PBool true); ("pause_on_question", PBool true);
     ("pause_on_objection", PBool true); ("pause_on_manual_review", PBool true);
     ("pause_on_out_of_office", PBool true); ("auto_resume_out_of_office", PBool true)]
    [("same_domain_unsubscribe_suppress", PBool true);
     ("same_domain_hostile_suppress", PBool true);
     ("workspace_suppress_unsubscribe", PBool true); ("workspace_suppress_bounce", PBool true)]
    [("respect_provider_caps", PBool true)]
    [("unsubscribe_required", PBool true); ("unsubscribe_scope", PText "recipient");
     ("tracking_mode", PText "none"); ("footer_mode", PText "compliance")]
    [("recipient_collision_mode", PText "block"); ("domain_collision_mode", PText "block");
     ("max_active_per_domain", PInt 2); ("positive_domain_action", PText "pause_workspace");
     ("negative_domain_action", PText "stop_workspace");
     ("unsubscribe_domain_action", PText "suppress_workspace");
     ("hostile_domain_action", PText "suppress_workspace")]
    [mkPlaybookStep 1 "email" "new_thread" "Re-opening the conversation with {{domain}}" (lines
       ["Hi {{first_name}},"; "";
       "Reaching out because this still looks relevant for {{domain}} and I did not want to assume the timing was just wrong.";
       ""; "If this is still worth a look, I can send a concise update."; ""; "Best,";
       "{{sender_name}}"]) 4320 [] [("question", PText "manual_task:2");
       ("objection", PText "manual_task:2"); ("manual_review_required", PText "manual_task:2")];
     mkPlaybookStep 2 "manual_task" "same_thread" "" "" 0
       [("title", PText "Review nuanced replies before the next follow-up");
       ("instructions", PText "Handle pricing, timing, and security objections directly from the mailbox that already owns the relationship.");
       ("action_label", PText "Handled, continue")] [];
     mkPlaybookStep 3 "email" "same_thread" "" (lines
       ["Checking once more before I close the loop on my side."; "";
       "If there is no fit right now, a quick no is totally fine."; ""; "Best,";
       "{{sender_name}}"]) 0 [] []].

Definition outboundPlaybookCatalog : list OutboundPlaybook := [thread_revival; find_owner; reengage_dormant].

Definition outboundPlaybookByKey (key : string) : option OutboundPlaybook :=
  List.find (fun p => EqualFold (TrimSpace (pb_Key p)) (TrimSpace key)) outboundPlaybookCatalog.

Definition mustCompactOutboundJSON (raw : list (string * Payload)) : string :=
  match raw with [] => "{}" | _ => payload_json raw end.

Definition OutboundPlaybooks : list OutboundPlaybook := outboundPlaybookCatalog.

(** The campaign after the playbook. *)
Definition playbook_campaign (p : OutboundPlaybook) (c : OutboundCampaign) : OutboundCampaign :=
  let keep_or v old := if String.eqb (TrimSpace v) "" then old else v in
  c <| oc_GoalKind := pb_GoalKind p |> <| oc_PlaybookKey := pb_Key p |>
    <| oc_CampaignMode := pb_CampaignMode p |>
    <| oc_AudienceSourceKind := keep_or (pb_AudienceSourceKind p) (oc_AudienceSourceKind c) |>
    <| oc_SenderPolicyKind := keep_or (pb_SenderPolicyKind p) (oc_SenderPolicyKind c) |>
    <| oc_ReplyPolicyJSON := mustCompactOutboundJSON (pb_ReplyPolicy p) |>
    <| oc_SuppressionPolicyJSON := mustCompactOutboundJSON (pb_SuppressionPolicy p) |>
    <| oc_SchedulePolicyJSON := mustCompactOutboundJSON (pb_SchedulePolicy p) |>
    <| oc_CompliancePolicyJSON := mustCompactOutboundJSON (pb_CompliancePolicy p) |>
    <| oc_GovernancePolicyJSON := mustCompactOutboundJSON (pb_GovernancePolicy p) |>.

Definition playbook_step (campaignID : string) (s : OutboundPlaybookStep) : OutboundCampaignStep :=
  mkStep "" campaignID (ps_Position s) (ps_Kind s) (ps_ThreadMode s) (ps_SubjectTemplate s)
    (ps_BodyTemplate s) (ps_WaitIntervalMinutes s) "{}" (mustCompactOutboundJSON (ps_TaskPolicy s))
    (mustCompactOutboundJSON (ps_BranchPolicy s)) true false false true ZeroTime ZeroTime.

Section Playbooks.
Context {host : Host}.

Fixpoint create_steps (campaignID : string) (items : list OutboundPlaybookStep) : ODB unit :=
  match items with
  | [] => ret tt
  | s :: rest =>
      let! _ := CreateOutboundCampaignStep (playbook_step campaignID s) in
      create_steps campaignID rest
  end.

Definition ApplyOutboundPlaybook (u : User) (campaignID playbookKey : string) (replaceSteps : bool) :
    ODB (OutboundCampaign * list OutboundCampaignStep) :=
  let! campaign := GetOutboundCampaignByID (u_ID u) campaignID in
  match outboundPlaybookByKey playbookKey with
  | None => throw (ErrText "playbook not found")
  | Some playbook =>
      let! updated := UpdateOutboundCampaign (playbook_campaign playbook campaign) in
      do! when replaceSteps (DeleteOutboundCampaignSteps (oc_ID updated)) in
      let! currentSteps := ListOutboundCampaignSteps (oc_ID updated) in
      do! when (replaceSteps || match currentSteps with [] => true | _ => false end)
            (create_steps (oc_ID updated) (pb_Steps playbook)) in
      let! steps := ListOutboundCampaignSteps (oc_ID updated) in
      ret (updated, steps)
  end.
End Playbooks.
