(* ===== verification/OutboundFacts.v ===== *)
(** * OutboundFacts: who is written to, after a concrete campaign

    Two recipients of one domain, one of whom has been written to, in a
    campaign of two messages sent from one account; the servers take every
    message.  Used by the examples that show the theorems' hypotheses can hold. *)

From S2P Require Import Prelude Unicode GoStrings Effects GoStd GoText Json Threading Models Users Mfa.
From S2P Require Import MailAccounts Host Identity MailModels Drafts MailSenders DraftSend Sample.
From S2P Require Import SenderFacts ScheduledFacts OutboundStore Outbound GoFmt OutboundSenders.
From S2P Require Import OutboundDispatch OutboundReplies OutboundLaunch.
Local Open Scope Z_scope.

Definition some_campaign (id status : string) : OutboundCampaign :=
  mkCampaign id "user-1" "Spring" status "general_outreach" "" "new_threads" "manual" ""
    "single_sender" "acct-1" "{}" "{}" "{}" "{}" "{}" 0 0 ZeroTime ZeroTime 0 0 0 0 0 0 0 0 0.

Definition some_step (id kind : string) (position : Z) (body : string) : OutboundCampaignStep :=
  mkStep id "camp-1" position kind "same_thread" "Hello" body 60 "{}" "{}" "{}" true false false true 0 0.

Definition some_enrollment (id email status lastSent : string) (position : Z) : OutboundEnrollment :=
  mkEnrollment id "camp-1" "" email "corp.test" "" "" "" "" status position lastSent
    ZeroTime ZeroTime "" "" "" 0 "" "{}" 0 0 "" "" "" "" "" "" "" ZeroTime.

Definition some_binding : MailThreadBinding :=
  mkBinding "bind-1" "acct-1" "" "campaign" "camp-1" "enr-2" "" "acct-1" "" "" "user-1"
    "carol@corp.test" "corp.test" "m1@work.test" "m1@work.test" "" "Hello" ZeroTime 0 0.

Definition outbound_db (status : string) : OutboundDB :=
  mkOutboundDB sender_db [some_campaign "camp-1" status]
    [some_step "step-1" "email" 1 "Hi {{first_name}}"; some_step "step-2" "email" 2 "Hi again"]
    [some_enrollment "enr-1" "bob@corp.test" "scheduled" "" 0;
     some_enrollment "enr-2" "carol@corp.test" "waiting_reply" "<m1@work.test>" 1]
    [] [] [some_binding] [] [] [] [].

Definition outbound_world (d : OutboundDB) : World OutboundDB := mkWorld d [] 0 0 [].

#[export] Instance outbound_servers : MailServers := taking_servers.
#[export] Instance outbound_parsers : MailParsers := {|
  parse_address_list s := if Contains s "@" then Some [s] else None;
  parse_address s := if Contains s "@" then Some s else None;
  decode_words s := Some s |}.

(** Who was written to, and where the enrollments stand. *)
Definition written_to (d : OutboundDB) : list string :=
  flat_map (fun c => match c with CallSend _ _ req => sr_To req | _ => [] end) (m_calls (o_mail d)).
Definition standing (d : OutboundDB) : list (string * string) :=
  map (fun e => (oe_ID e, oe_Status e)) (o_enrollments d).

Definition after {A} (m : ODB A) (d : OutboundDB) : OutboundDB := w_db (snd (m (outbound_world d))).

(** The due recipient is written to and scheduled for the second message. *)
Example tick_ex : let d := after processOutboundDue (outbound_db "running") in
  written_to d = ["bob@corp.test"]
  /\ standing d = [("enr-1", "scheduled"); ("enr-2", "waiting_reply")]
  /\ map ov_EventKind (o_events d) = ["step_sent"]
  /\ map oe_CurrentStepPosition (o_enrollments d) = [1; 1].
Proof. vm_compute. repeat split; reflexivity. Qed.

Definition reply_from_carol (body : string) : IndexedMessage :=
  plain_message "msg-9" "acct-1" "INBOX" 9 "th-1" "<r9@corp.test>" "<m1@work.test>" ""
    "carol@corp.test" "alice@work.test" "" "" "Re: Hello" "" body "" false false false
    (sample_now 5) (sample_now 5) 0.

(** Her unsubscribe stops the sequence for the whole domain. *)
Example unsubscribe_ex :
  let d := after (ProcessOutboundIndexedMessage (sender_account "acct-1" "user-1" "alice@work.test")
                    (reply_from_carol "Please unsubscribe me.")) (outbound_db "running") in
  standing d = [("enr-1", "stopped"); ("enr-2", "unsubscribed")]
  /\ map (fun s => (su_ScopeKind s, su_ScopeValue s)) (o_suppressions d)
     = [("recipient", "carol@corp.test"); ("domain", "corp.test")].
Proof. vm_compute. repeat split; reflexivity. Qed.

(** A reply that quotes the program's own footer counts as an unsubscribe,
    however glad it is. *)
Example quoted_footer_unsubscribes :
  let d := after (ProcessOutboundIndexedMessage (sender_account "acct-1" "user-1" "alice@work.test")
                    (reply_from_carol ("Sounds good, let's talk tomorrow." +:+ newline +:+ "> "
                                       +:+ compliance_footer))) (outbound_db "running") in
  map (fun e => (oe_ReplyOutcome e, oe_Status e)) (o_enrollments d)
  = [("", "stopped"); ("unsubscribe_request", "unsubscribed")].
Proof. vm_compute. reflexivity. Qed.

(** A message that was sent is sent again when its thread cannot be stored. *)
Example unstored_thread_resends :
  let w := mkWorld (outbound_db "running") (repeat false 15 ++ [true]) 0 0 [] in
  let d := w_db (snd (processOutboundDue w)) in
  written_to d = ["bob@corp.test"] /\ standing d = standing (outbound_db "running")
  /\ written_to (after processOutboundDue d) = ["bob@corp.test"; "bob@corp.test"].
Proof. vm_compute. repeat split; reflexivity. Qed.

(** Someone who unsubscribed everywhere, and is then suppressed by hand for a
    while, may be written to again when the time has passed. *)
Definition wary_campaign : OutboundCampaign :=
  (some_campaign "camp-1" "running") <| oc_CompliancePolicyJSON :=
    of_bytes (map (fun b => if b =? 39 then 34 else b) (bytes "{'unsubscribe_scope':'workspace'}")) |>.

Example timed_suppression_ends_unsubscribe :
  let expiry d := map su_ExpiresAt (List.filter (fun s => String.eqb (su_ScopeKind s) "recipient")
                                      (o_suppressions d)) in
  let unsubscribed := after (ProcessOutboundIndexedMessage
      (sender_account "acct-1" "user-1" "alice@work.test") (reply_from_carol "Please unsubscribe me."))
      (outbound_db "running" <| o_campaigns := [wary_campaign] |>) in
  let suppressed := after (ApplyReplyOpsAction sender_user "enr-2" "suppress_recipient" "" (sample_now 9))
      unsubscribed in
  expiry unsubscribed = [ZeroTime] /\ expiry suppressed = [sample_now 9].
Proof. vm_compute. repeat split; reflexivity. Qed.

(** * OutboundFacts: whom campaigns do not write to

    The worker writes to nobody who is suppressed, and an unsubscribe is one
    for good.  [still] collects the handlers that send nothing and leave
    suppressions and campaigns alone. *)

(** ** Handlers that send nothing and leave suppressions and campaigns alone *)

Definition calls_kept (d d' : MailDB) : Prop := m_calls d' = m_calls d.
#[export] Instance calls_kept_preorder : PreOrder calls_kept.
Proof. split; [by intros d|]. intros a b c ? ?. unfold calls_kept in *. by etrans. Qed.

(** All that campaigns keep. *)
Definition untouched (d d' : OutboundDB) : Prop :=
  m_calls (o_mail d') = m_calls (o_mail d) /\ o_campaigns d' = o_campaigns d
  /\ o_steps d' = o_steps d /\ o_enrollments d' = o_enrollments d /\ o_events d' = o_events d
  /\ o_recipients d' = o_recipients d /\ o_bindings d' = o_bindings d
  /\ o_suppressions d' = o_suppressions d.
#[export] Instance untouched_preorder : PreOrder untouched.
Proof.
  split; [by intros d|]. intros a b c (?&?&?&?&?&?&?&?) (?&?&?&?&?&?&?&?).
  unfold untouched. split_and!; congruence.
Qed.

Definition still (d d' : OutboundDB) : Prop :=
  m_calls (o_mail d') = m_calls (o_mail d) /\ o_suppressions d' = o_suppressions d
  /\ o_campaigns d' = o_campaigns d.
#[export] Instance still_preorder : PreOrder still.
Proof. split; [by intros d|]. intros a b c (?&?&?) (?&?&?). split_and!; by etrans. Qed.


Section Still.
Context {host : Host} {parsers : MailParsers}.

Lemma calls_on_base {A} (m : DBM A) : spec calls_kept 0 anydb (on_base m) any.
Proof.
  intros [d fs t u tr] Hk _. unfold on_base. destruct (m _) as [r [b fs' t' u' tr']]; simpl.
  split_and!; [lia|by apply rtc_once|by destruct r].
Qed.

Lemma untouched_on_mail {A} (m : MDB A) :
  spec calls_kept 0 anydb m any -> spec untouched 0 anydb (on_mail m) any.
Proof.
  intros Hm [d fs t u tr] Hk _. unfold on_mail.
  destruct (Hm (mkWorld (o_mail d) fs t u tr) (Nat.le_0_l _) I) as (_ & Hs & _).
  destruct (m _) as [r [b fs' t' u' tr']]; simpl in *.
  split_and!; [lia| |by destruct r]. apply rtc_once. apply rtc_collapse in Hs; [|apply _]. done.
Qed.

(** Statements that compute the rows of a table, or replace them. *)
Lemma spec_rows {DB R} (step : DB -> DB -> Prop) (f : DB -> Res R) (g : R -> DB -> DB) :
  (forall rows d, step d (g rows d)) ->
  spec step 0 anydb (statement (fun d => match f d with Ok rows => Ok (tt, g rows d) | Fail e => Fail e end))
    any.
Proof.
  intros H. apply spec_statement. intros d a d' _ E. destruct (f d); [|done].
  injection E as <- <-. split; [by apply rtc_once|done].
Qed.

Ltac plain_statement :=
  first [apply spec_rows; intros ? ?|apply spec_exec_any; intros ?; apply rtc_once];
  unfold still, untouched, calls_kept; split_and?; reflexivity.

Lemma calls_upsertProfile inp : spec calls_kept 0 anydb (UpsertSessionMailProfile inp) any.
Proof. unfold UpsertSessionMailProfile, GetSessionMailProfile. spec_walk. plain_statement. Qed.
Hint Resolve calls_upsertProfile calls_on_base untouched_on_mail : despatch.

Lemma calls_identities id : spec calls_kept 0 anydb (ListMailIdentities id) any.
Proof. unfold ListMailIdentities. spec_walk. Qed.
Hint Resolve calls_identities : despatch.
Lemma calls_identity id : spec calls_kept 0 anydb (GetMailIdentityByID id) any.
Proof. unfold GetMailIdentityByID. spec_walk. Qed.
Lemma calls_aliases dflt al accounts : spec calls_kept 0 anydb (alias_profiles dflt al accounts) any.
Proof. revert al. induction accounts as [|a l IH]; intros al; simpl; spec_walk. Qed.
Hint Resolve calls_aliases : despatch.
Lemma calls_profiles u : spec calls_kept 0 anydb (ListSenderProfiles u) any.
Proof.
  unfold ListSenderProfiles, EnsureSessionMailProfile, GetSessionMailProfile, GetUserPreferences.
  spec_walk.
Qed.
Hint Resolve calls_profiles : despatch.
Lemma calls_profile u id : spec calls_kept 0 anydb (GetSenderProfileByID u id) any.
Proof. unfold GetSenderProfileByID. spec_walk. Qed.
Hint Resolve calls_identity calls_profile : despatch.

Lemma untouched_on_accounts {A} (m : DBM A) : spec untouched 0 anydb (on_accounts m) any.
Proof. apply untouched_on_mail, calls_on_base. Qed.
Hint Resolve untouched_on_accounts : despatch.

(** ** Choosing a sender *)

Lemma untouched_selectionFromAccount a : spec untouched 0 anydb (outboundSelectionFromAccount a) any.
Proof. unfold outboundSelectionFromAccount, outboundDefaultIdentityForAccount. spec_walk. Qed.
Hint Resolve untouched_selectionFromAccount : despatch.

Lemma untouched_firstSuccess {A B} (f : A -> ODB B) l :
  (forall a, spec untouched 0 anydb (f a) any) -> spec untouched 0 anydb (first_success f l) any.
Proof. intros Hf. induction l as [|a l IH]; simpl; spec_walk. Qed.

Lemma untouched_orElse {A} (m : ODB A) k :
  spec untouched 0 anydb m any -> (forall e, spec untouched 0 anydb (k e) any) ->
  spec untouched 0 anydb (or_else m k) any.
Proof. intros Hm Hk. unfold or_else. spec_walk. Qed.

Lemma untouched_threadOwner e : spec untouched 0 anydb (outboundThreadOwnerAccountID e) any.
Proof.
  unfold outboundThreadOwnerAccountID, bound_account, GetMailThreadBindingByID,
    GetMailThreadBindingByEnrollment. spec_walk.
Qed.
Hint Resolve untouched_threadOwner : despatch.

Lemma untouched_fromThreadOwner u e : spec untouched 0 anydb (outboundSelectionFromThreadOwner u e) any.
Proof.
  unfold outboundSelectionFromThreadOwner. spec_walk. apply untouched_orElse; spec_walk.
Qed.
Lemma untouched_fromProfile u id : spec untouched 0 anydb (outboundSelectionFromSenderProfile u id) any.
Proof. unfold outboundSelectionFromSenderProfile. spec_walk. Qed.
Hint Resolve untouched_fromThreadOwner untouched_fromProfile : despatch.

Lemma untouched_pool u l e : spec untouched 0 anydb (try_pool u l e) any.
Proof. revert e. induction l as [|c l IH]; intros e; simpl; unfold pool_candidate; spec_walk. Qed.
Hint Resolve untouched_pool : despatch.

Lemma untouched_source f row a : spec untouched 0 anydb (source_selection f row a) any.
Proof. unfold source_selection, row_selection. spec_walk. Qed.
Lemma untouched_collector u f g s : spec untouched 0 anydb (with_collector u f g s) any.
Proof. unfold with_collector. spec_walk. Qed.
Hint Resolve untouched_source untouched_collector : despatch.

Lemma untouched_funnelAccount u f a :
  spec untouched 0 anydb (outboundSelectionFromReplyFunnelAccount u f a) any.
Proof.
  unfold outboundSelectionFromReplyFunnelAccount, GetReplyFunnelByID, ListReplyFunnelAccounts.
  spec_walk.
Qed.
Lemma untouched_funnel u f seed : spec untouched 0 anydb (outboundSelectionFromReplyFunnel u f seed) any.
Proof.
  unfold outboundSelectionFromReplyFunnel, GetReplyFunnelByID, ListReplyFunnelAccounts. spec_walk.
Qed.
Hint Resolve untouched_funnelAccount untouched_funnel : despatch.

Lemma untouched_preferred u c : spec untouched 0 anydb (preferred_selection u c) any.
Proof.
  unfold preferred_selection. spec_walk; apply untouched_firstSuccess; intros; spec_walk.
Qed.
Hint Resolve untouched_preferred : despatch.

Lemma untouched_policy u c ct e : spec untouched 0 anydb (policy_selection u c ct e) any.
Proof.
  unfold policy_selection, outboundSelectionFromPolicyPool. spec_walk.
  apply untouched_orElse; [spec_walk|intros]. spec_walk. apply untouched_orElse; spec_walk.
Qed.
Hint Resolve untouched_policy : despatch.

Lemma untouched_resolve u c ct e : spec untouched 0 anydb (resolveOutboundSenderSelection u c ct e) any.
Proof.
  unfold resolveOutboundSenderSelection. spec_walk; apply untouched_orElse; spec_walk.
Qed.
Hint Resolve untouched_resolve : despatch.

Lemma untouched_render u c s e : spec untouched 0 anydb (renderOutboundStep u c s e) any.
Proof. unfold renderOutboundStep, loadOutboundContact, GetContactByID. spec_walk. Qed.
Hint Resolve untouched_render : despatch.

(** A refinement of a finer relation refines the coarser one. *)
Lemma spec_mono {DB A} (R S : DB -> DB -> Prop) D (m : M DB A) Q :
  (forall a b, R a b -> S a b) -> spec R 0 D m Q -> spec S 0 D m Q.
Proof.
  intros HRS Hm w Hk Hw. destruct (Hm w Hk Hw) as (? & Hs & ?). split_and!; [done| |done].
  clear -HRS Hs. induction Hs; [apply rtc_refl|by eapply rtc_l; [apply HRS|]].
Qed.

Lemma untouched_still {A} (m : ODB A) : spec untouched 0 anydb m any -> spec still 0 anydb m any.
Proof. apply spec_mono. unfold untouched, still. naive_solver. Qed.
Hint Resolve untouched_still : despatch.

(** ** Recording what happened *)

Lemma still_upsertEnrollment e : spec still 0 anydb (UpsertOutboundEnrollment e) any.
Proof.
  unfold UpsertOutboundEnrollment, fresh_id, GetOutboundEnrollmentByCampaignEmail, get_enrollment.
  spec_walk. plain_statement.
Qed.
Lemma still_event v : spec still 0 anydb (AppendOutboundEvent v) any.
Proof. unfold AppendOutboundEvent, fresh_id. spec_walk. plain_statement. Qed.
Lemma still_upsertBinding b : spec still 0 anydb (UpsertMailThreadBinding b) any.
Proof.
  unfold UpsertMailThreadBinding, fresh_id, GetMailThreadBindingByID. spec_walk; plain_statement.
Qed.
Lemma still_upsertRecipient r : spec still 0 anydb (UpsertRecipientState r) any.
Proof. unfold UpsertRecipientState, GetRecipientState. spec_walk. plain_statement. Qed.
Hint Resolve still_upsertEnrollment still_event still_upsertBinding still_upsertRecipient : despatch.

Lemma still_settle c e k p r : spec still 0 anydb (settle c e k p r) any.
Proof. unfold settle. spec_walk. Qed.
Hint Resolve still_settle : despatch.
Lemma still_complete c e : spec still 0 anydb (complete c e) any.
Proof. unfold complete. apply still_settle. Qed.
Lemma still_handOver c s e : spec still 0 anydb (hand_over_task c s e) any.
Proof. unfold hand_over_task. apply still_settle. Qed.
Lemma still_stop c e s : spec still 0 anydb (stop_suppressed c e s) any.
Proof. unfold stop_suppressed. apply still_settle. Qed.

Lemma untouched_sends id since l : spec untouched 0 anydb (sends_of_campaigns id since l) any.
Proof. induction l as [|c l IH]; simpl; unfold ListOutboundCampaignEvents; spec_walk. Qed.
Hint Resolve untouched_sends : despatch.
Lemma untouched_cap c a cap window : spec untouched 0 anydb (cap_reached c a cap window) any.
Proof. unfold cap_reached, outboundAccountSendsSince, ListOutboundCampaigns. spec_walk. Qed.
Lemma still_putOff c e delay p : spec still 0 anydb (put_off c e delay p) any.
Proof. unfold put_off. spec_walk. Qed.
Lemma still_recordSent c steps step s e b req : spec still 0 anydb (record_sent c steps step s e b req) any.
Proof. unfold record_sent. spec_walk. Qed.
Hint Resolve untouched_cap still_putOff still_recordSent : despatch.

Lemma untouched_binding c s e : spec untouched 0 anydb (enrollment_binding c s e) any.
Proof. unfold enrollment_binding, GetMailThreadBindingByEnrollment. spec_walk. Qed.
Lemma untouched_messageID from : spec untouched 0 anydb (nextOutboundMessageID from) any.
Proof. unfold nextOutboundMessageID. spec_walk. Qed.
Hint Resolve untouched_binding untouched_messageID : despatch.

Lemma still_resume l : spec still 0 anydb (resume_items l) any.
Proof. induction l as [|e l IH]; simpl; unfold resume_item; spec_walk. Qed.
Hint Resolve still_resume : despatch.
Lemma still_resumeOOO : spec still 0 anydb resumeOutboundOOO any.
Proof. unfold resumeOutboundOOO, ListOutboundOOOResumeDue, list_enrollments. spec_walk. Qed.

(** ** Nobody suppressed is written to *)

Context {servers : MailServers}.

(** No suppression in force at [now] keeps the campaign from the recipient. *)
Definition unsuppressed (d : OutboundDB) (c : OutboundCampaign) (e : OutboundEnrollment) (now : Z) :
    Prop :=
  forall s, In s (o_suppressions d) ->
    suppresses (oc_UserID c) (fold_trim (oe_RecipientEmail e)) (fold_trim (oe_RecipientDomain e))
      (TrimSpace (oc_ID c)) now s = false.

(** The enrollment's campaign. *)
Definition campaign_of (d : OutboundDB) (e : OutboundEnrollment) (c : OutboundCampaign) : Prop :=
  In c (o_campaigns d) /\ oc_ID c = TrimSpace (oe_CampaignID e).

(** One message, to one of [items] alone, whom nothing suppresses at a reading
    of the clock; or no message at all. *)
Inductive polite (items : list OutboundEnrollment) (d d' : OutboundDB) : Prop :=
| polite_still : still d d' -> polite items d d'
| polite_send e c n login pass req :
    In e items -> campaign_of d e c -> unsuppressed d c e (env_now n) ->
    sr_To req = [oe_RecipientEmail e] -> sr_CC req = [] -> sr_BCC req = [] ->
    m_calls (o_mail d') = m_calls (o_mail d) ++ [CallSend login pass req] ->
    o_suppressions d' = o_suppressions d -> o_campaigns d' = o_campaigns d ->
    polite items d d'.

(** What holds of campaigns and suppressions stays. *)
Lemma polite_keep {A} items (D : OutboundDB -> Prop) (m : ODB A) :
  spec still 0 anydb m any -> (forall d d', still d d' -> D d -> D d') ->
  spec (polite items) 0 D m (fun _ => D).
Proof.
  intros Hm HD w Hk Hw. destruct (Hm w Hk I) as (? & Hs & _).
  apply rtc_collapse in Hs; [|apply _].
  split_and!; [done|by apply rtc_once, polite_still|]. destruct (fst (m w)); eauto.
Qed.

Lemma polite_any {A} items (m : ODB A) :
  spec still 0 anydb m any -> spec (polite items) 0 anydb m any.
Proof. intros Hm. eapply spec_weaken; [by apply (polite_keep items anydb)|done|done]. Qed.

Lemma now_reading {DB} step (D : DB -> Prop) :
  spec step 0 D time_Now (fun t d => D d /\ exists n, t = env_now n).
Proof. intros w Hk HD. simpl. split_and!; [lia|done|done|]. by eexists. Qed.

Lemma attempt_query {DB A} step (D : DB -> Prop) (f : DB -> Res A) :
  spec step 0 D (attempt (query f)) (fun r d => D d /\ (r = f d \/ r = Fail ErrDriver)).
Proof.
  intros w Hk HD. rewrite attempt_eq, query_eq. cbn [fst snd]. rewrite next_db.
  split_and!; [lia|done|done|]. destruct (faulty w); auto.
Qed.

(** The campaign a dispatch has read. *)
Definition read_campaign (e : OutboundEnrollment) (c : OutboundCampaign) (d : OutboundDB) : Prop :=
  exists c0, campaign_of d e c0 /\ oc_UserID c0 = oc_UserID c /\ oc_ID c0 = oc_ID c.

Definition clear_to_send (e : OutboundEnrollment) (c : OutboundCampaign) (n : nat) (d : OutboundDB) :
    Prop :=
  exists c0, campaign_of d e c0 /\ unsuppressed d c0 e (env_now n).

Lemma still_read e c d d' : still d d' -> read_campaign e c d -> read_campaign e c d'.
Proof.
  intros (_ & _ & Hc) (c0 & [Hin Hid] & ?). exists c0. unfold campaign_of. by rewrite Hc.
Qed.
Lemma still_clear e c n d d' : still d d' -> clear_to_send e c n d -> clear_to_send e c n d'.
Proof.
  intros (_ & Hs & Hc) (c0 & [Hin Hid] & Hu). exists c0. unfold campaign_of, unsuppressed.
  by rewrite Hc, Hs.
Qed.

Lemma first_of_none {A B} (f : A -> B) (leb : A -> A -> bool) l :
  first_of (map f (order_by leb l)) = Fail ErrNotFound -> l = [].
Proof.
  intros H. destruct (order_by leb l) as [|a o] eqn:E; [|done].
  destruct l as [|x l]; [done|].
  assert (Hin : In x (order_by leb (x :: l))) by (apply in_order_by; by left).
  by rewrite E in Hin.
Qed.

Lemma polite_sent items e c n login pass req :
  In e items -> sr_To req = [oe_RecipientEmail e] -> sr_CC req = [] -> sr_BCC req = [] ->
  spec (polite items) 0 (clear_to_send e c n) (attempt (on_mail (send_message login pass req))) any.
Proof.
  intros He Hto Hcc Hbcc [d fs t u tr] Hk (c0 & Hc & Hu). rewrite attempt_eq. simpl in *.
  split_and!; [lia| |done]. apply rtc_once. by eapply polite_send.
Qed.

Lemma polite_sendStep e c n campaign steps rendered items :
  In e items ->
  spec (polite items) 0 (clear_to_send e c n) (send_step campaign steps rendered e) any.
Proof.
  intros He. unfold send_step. cbv zeta.
  eapply spec_bind; [apply polite_keep; [spec_walk|apply still_clear]|intros b].
  eapply spec_bind; [apply polite_keep; [spec_walk|apply still_clear]|intros id].
  eapply spec_bind; [apply polite_keep; [spec_walk|apply still_clear]|intros pass].
  eapply spec_bind; [by apply polite_sent|intros r].
  apply polite_any. destruct r; unfold message_refused; spec_walk.
Qed.

Lemma polite_pacing e c n campaign a k items :
  spec (polite items) 0 (clear_to_send e c n) k any ->
  spec (polite items) 0 (clear_to_send e c n) (with_pacing campaign e a k) any.
Proof.
  intros Hk. unfold with_pacing. destruct (RespectProviderCaps _); [|done]. cbv zeta.
  eapply spec_bind; [apply polite_keep; [spec_walk|apply still_clear]|intros daily].
  destruct daily; [by eapply spec_any, polite_any, still_putOff|].
  eapply spec_bind; [apply polite_keep; [spec_walk|apply still_clear]|intros hourly].
  destruct hourly; [by eapply spec_any, polite_any, still_putOff|done].
Qed.

Lemma polite_deliver e campaign steps rendered items :
  In e items ->
  spec (polite items) 0 (read_campaign e campaign) (deliver campaign steps rendered e) any.
Proof.
  intros He. unfold deliver.
  eapply spec_bind; [apply now_reading|intros t].
  eapply spec_bind; [apply attempt_query|intros r]. simpl.
  destruct r as [s|err].
  - eapply spec_any, polite_any, still_stop.
  - destruct (decide (err = ErrNotFound)) as [->|Hn].
    + intros w Hk [[(c0 & Hc & Hu & Hid) [n ->]] [Hr|Hr]]; [|done].
      symmetry in Hr. apply first_of_none in Hr.
      apply (polite_pacing e c0 n); [by apply polite_sendStep|done|].
      exists c0. split; [done|]. intros s Hs. rewrite Hu, Hid.
      destruct (suppresses _ _ _ _ _ s) eqn:E; [|done].
      assert (Hin : In s []) by (rewrite <- Hr; by apply filter_In). done.
    + destruct err; try done; apply spec_throw.
Qed.

(** Dispatching one of the items writes only to them, politely. *)
Lemma polite_dispatch e items :
  In e items -> spec (polite items) 0 anydb (DispatchOutboundEnrollment e) any.
Proof.
  intros He. unfold DispatchOutboundEnrollment.
  eapply (spec_bind _ _ _ _ _ (fun c d => read_campaign e c d)).
  { unfold GetOutboundCampaignByIDAny. eapply spec_weaken; [apply spec_query|done|].
    intros c d [_ Hq]. unfold campaigns_by in Hq.
    destruct (List.filter _ (o_campaigns d)) as [|c0 l] eqn:E; [done|]. simpl in Hq. injection Hq as <-.
    assert (Hin : In c0 (c0 :: l)) by by left. rewrite <- E in Hin.
    apply filter_In in Hin as [Hin Hid]. apply String.eqb_eq in Hid. by exists c0. }
  intros campaign.
  eapply spec_bind; [apply polite_keep; [spec_walk|apply still_read]|intros user].
  eapply spec_bind; [apply polite_keep; [unfold ListOutboundCampaignSteps; spec_walk|apply still_read]|intros steps].
  destruct (stepForOutboundSend steps e) as [step|];
    [|eapply spec_any, polite_any, still_complete].
  destruct (String.eqb (os_Kind step) "manual_task");
    [eapply spec_any, polite_any, still_handOver|].
  eapply spec_bind; [apply polite_keep; [spec_walk|apply still_read]|intros r].
  destruct r as [rendered|err].
  - destruct (rd_Missing rendered); [by apply polite_deliver|].
    eapply spec_any, polite_any, still_settle.
  - unfold render_failed. eapply spec_any, polite_any. spec_walk.
Qed.

Lemma polite_items l items :
  (forall e, In e l -> In e items) -> spec (polite items) 0 anydb (dispatch_items l) any.
Proof.
  induction l as [|e l IH]; intros Hl; simpl; [by apply spec_ret|].
  apply spec_seq.
  - apply spec_attempt_any. apply polite_dispatch, Hl. by left.
  - intros _. apply IH. intros e' He'. apply Hl. by right.
Qed.

(** The enrollments the worker finds due. *)
Definition due_items (now : Z) (d : OutboundDB) : list OutboundEnrollment :=
  map (scan_joined d) (take 50 (order_by (fun a b =>
      by_num (fun e => coalesceTime (oe_NextActionAt e) (oe_CreatedAt e)) ASC (snd a) (snd b))
    (enrollments_where (due_enrollment now) d))).

(** C18. A run of the worker, whatever fails and whatever the servers answer,
    resumes paused enrollments without writing to anyone, and then, if it can
    read what is due, goes on by steps of which each either sends nothing or
    sends one message to one due recipient alone, in a campaign and at a time
    in which no suppression of the campaign's owner holds for the recipient's
    address or domain; suppressions and campaigns stay as they are. *)
Theorem worker_respects_suppressions w :
  exists d1 now, still (w_db w) d1
    /\ rtc (polite (due_items now d1)) d1 (w_db (snd (processOutboundDue w))).
Proof.
  unfold processOutboundDue, bind at 1.
  destruct (still_resumeOOO w (Nat.le_0_l _) I) as (_ & Hs & _).
  apply rtc_collapse in Hs; [|apply _].
  destruct (resumeOutboundOOO w) as [[[]|e] w1]; cbn [fst snd] in *;
    [|exists (w_db w1), 0; split; [done|apply rtc_refl]].
  exists (w_db w1), (env_now (w_tick w1)). split; [done|].
  set (w2 := w1 <| w_tick := S (w_tick w1) |>).
  rewrite (bind_eq _ _ _ (env_now (w_tick w1)) w2) by done.
  rewrite bind_attempt. unfold ListDueOutboundEnrollments, list_enrollments. rewrite query_eq.
  cbn [fst snd]. destruct (faulty w2); [apply rtc_refl|].
  by destruct (polite_items (due_items (env_now (w_tick w1)) (w_db w1)) _ (fun _ H => H) (next w2)
            (Nat.le_0_l _) I) as (_ & ? & _).
Qed.

(** ** An unsubscribe is for good *)

(** The suppression keeps the user's campaign from the recipient at all times. *)
Definition for_good (userID email campaignID : string) (d : OutboundDB) : Prop :=
  exists s, In s (o_suppressions d) /\ su_UserID s = userID /\ IsZero (su_ExpiresAt s) = true
    /\ su_ScopeKind s = "recipient" /\ nocase (su_ScopeValue s) (fold_trim email) = true
    /\ (su_CampaignID s = "" \/ su_CampaignID s = campaignID).

Lemma for_good_suppresses userID email campaignID d :
  for_good userID email campaignID d ->
  exists s, In s (o_suppressions d)
    /\ forall domain now, suppresses userID (fold_trim email) domain campaignID now s = true.
Proof.
  intros (s & Hin & Hu & Hx & Hk & Hv & Hc). exists s. split; [done|]. intros domain now.
  unfold suppresses. rewrite Hu, Hx, Hk, Hv, String.eqb_refl. simpl.
  destruct Hc as [->| ->]; rewrite ?String.eqb_refl; [done|by rewrite orb_true_r].
Qed.

Lemma still_for_good u e c d d' : still d d' -> for_good u e c d -> for_good u e c d'.
Proof. intros (_ & Hs & _) (s & H). exists s. by rewrite Hs. Qed.

(** Politeness leaves no room for a message to such a recipient. *)
Lemma no_message_to_suppressed e u c d d' :
  rtc (polite [e]) d d' -> for_good u (oe_RecipientEmail e) (TrimSpace c) d ->
  (forall c0, campaign_of d e c0 -> oc_UserID c0 = u /\ TrimSpace (oc_ID c0) = TrimSpace c) ->
  still d d'.
Proof.
  intros Hr. induction Hr as [d|d1 d2 d3 Hp _ IH]; intros Hs Hc; [done|].
  assert (H12 : still d1 d2).
  { destruct Hp as [|e0 c0 n login pass req [<-|[]] Hc0 Hu]; [done|].
    destruct (for_good_suppresses _ _ _ _ Hs) as (s & Hin & Hall).
    destruct (Hc c0 Hc0) as [Hu0 Hi0]. specialize (Hu s Hin).
    rewrite Hu0, Hi0, Hall in Hu. done. }
  etrans; [exact H12|]. apply IH; [by eapply still_for_good|].
  destruct H12 as (_ & _ & Hcs). intros c0 [Hin Hid]. apply Hc. split; [|done]. by rewrite <- Hcs.
Qed.

Notation all_steps := (fun _ _ : OutboundDB => True).

Lemma kept_by_still {A} (D : OutboundDB -> Prop) (m : ODB A) :
  spec still 0 anydb m any -> (forall d d', still d d' -> D d -> D d') ->
  spec all_steps 0 D m (fun _ => D).
Proof.
  intros Hm HD w Hk Hw. destruct (Hm w Hk I) as (? & Hs & _).
  apply rtc_collapse in Hs; [|apply _].
  split_and!; [done|by apply rtc_once|]. destruct (fst (m w)); eauto.
Qed.

Definition trimmed_ids (d : OutboundDB) : Prop :=
  forall s, In s (o_suppressions d) -> TrimSpace (su_ID s) = su_ID s.

Lemma still_trimmed d d' : still d d' -> trimmed_ids d -> trimmed_ids d'.
Proof. intros (_ & Hs & _) H. unfold trimmed_ids. by rewrite Hs. Qed.

(** Storing a suppression without an end leaves the others as lasting. *)
Lemma upsert_keeps_for_good u e c inp :
  IsZero (su_ExpiresAt inp) = true ->
  spec all_steps 0 (for_good u e c) (UpsertOutboundSuppression inp) (fun _ => for_good u e c).
Proof.
  intros Hx. unfold UpsertOutboundSuppression.
  eapply spec_bind; [apply kept_by_still; [spec_walk|apply still_for_good]|intros now].
  eapply spec_bind; [apply kept_by_still; [unfold fresh_id; spec_walk|apply still_for_good]|intros id].
  cbv zeta. set (inp' := inp <| su_ID := id |> <| su_UserID := _ |> <| su_ScopeKind := _ |>
    <| su_ScopeValue := _ |> <| su_CampaignID := _ |> <| su_Reason := _ |> <| su_SourceKind := _ |>
    <| su_CreatedAt := _ |> <| su_UpdatedAt := _ |>).
  assert (Hx' : IsZero (su_ExpiresAt inp') = true) by done. clearbody inp'.
  eapply spec_bind; [apply kept_by_still; [spec_walk|apply still_for_good]|intros existing].
  eapply (spec_bind _ _ _ _ _ (fun _ => for_good u e c));
    [|intros []; apply kept_by_still; [spec_walk|apply still_for_good]].
  destruct existing as [s0|].
  - apply spec_exec. intros d (s & Hin & H). split; [by apply rtc_once|].
    eexists. split; [apply in_update_rows; eexists; split; [exact Hin|reflexivity]|].
    destruct (String.eqb _ _); [|done]. cbn. tauto.
  - apply spec_statement. intros d a d' (s & Hin & H) E. split; [by apply rtc_once|].
    destruct (insert_row _ _ _) as [rows|] eqn:Er; [|done]. injection E as <- <-.
    apply insert_row_ok in Er as [-> _]. exists s. split; [|done]. apply in_app_iff. by left.
Qed.

(** Storing a suppression of a recipient without an end makes it lasting, also
    when one of the same scope was there, with an end or not. *)
Lemma upsert_makes_for_good u email c reason source :
  TrimSpace u = u ->
  spec all_steps 0 trimmed_ids
    (UpsertOutboundSuppression
       (mkSuppression "" u "recipient" email c reason source ZeroTime ZeroTime ZeroTime))
    (fun _ d => exists c', c' = TrimSpace c /\ for_good u email c' d).
Proof.
  intros Hu. unfold UpsertOutboundSuppression.
  eapply spec_bind; [apply kept_by_still; [spec_walk|apply still_trimmed]|intros now].
  eapply spec_bind; [apply kept_by_still; [unfold fresh_id; spec_walk|apply still_trimmed]|intros id].
  cbv zeta. match goal with |- context [same_scope ?x] => set (row := x) end.
  assert (Hr : su_UserID row = u /\ su_ScopeKind row = "recipient"
               /\ su_ScopeValue row = fold_trim email /\ su_CampaignID row = TrimSpace c
               /\ IsZero (su_ExpiresAt row) = true) by by split_and!.
  clearbody row. destruct Hr as (Hru & Hrk & Hrv & Hrc & Hrx).
  eapply spec_bind; [apply spec_query|intros existing].
  eapply (spec_bind _ _ _ _ _ (fun _ d => for_good u email (TrimSpace c) d));
    [|intros []; eapply spec_weaken; [apply kept_by_still; [spec_walk|apply still_for_good]|done|eauto]].
  destruct existing as [s0|].
  - apply spec_exec. intros d [Ht Hq]. split; [by apply rtc_once|].
    injection Hq as Hq. apply List.find_some in Hq as [Hin Hs]. unfold same_scope in Hs.
    apply andb_true_iff in Hs as [[[Hsu Hsk]%andb_true_iff Hsv]%andb_true_iff Hsc]. breflect.
    eexists. split; [apply in_update_rows; eexists; split; [exact Hin|reflexivity]|].
    rewrite (Ht _ Hin), String.eqb_refl. cbn -[nocase]. rewrite <- Hrv.
    split_and!; [congruence|done|congruence|exact Hsv|right; congruence].
  - apply spec_statement. intros d a d' _ E. split; [by apply rtc_once|].
    destruct (insert_row _ _ _) as [rows|] eqn:Er; [|done]. injection E as <- <-.
    apply insert_row_ok in Er as [-> _]. exists row. split; [apply in_app_iff; right; by left|].
    split_and!; [done..| |by right]. rewrite Hrv. apply String.eqb_refl.
Qed.

(** ** Outcomes *)

Lemma still_govern c e a l : spec still 0 anydb (govern_others c e a l) any.
Proof. induction l as [|o l IH]; simpl; spec_walk. Qed.
Lemma still_replyEvents c e m o n : spec still 0 anydb (reply_events c e m o n) any.
Proof. unfold reply_events. spec_walk. Qed.
Hint Resolve still_govern still_replyEvents : despatch.

Lemma domainActions_for_good u email c campaign e outcome :
  spec all_steps 0 (for_good u email c) (applyOutcomeDomainActions campaign e outcome)
    (fun _ => for_good u email c).
Proof.
  unfold applyOutcomeDomainActions. cbv zeta.
  eapply spec_bind; [apply kept_by_still|intros ?].
  - unfold ListActiveOutboundEnrollmentsByDomain, list_enrollments. spec_walk.
  - apply still_for_good.
  - destruct (is_one_of _ _); [|by apply spec_ret]. unfold when.
    eapply spec_bind; [by apply upsert_keeps_for_good|intros s]. by apply spec_ret.
Qed.

(** What an unsubscribe leaves behind, when it succeeds. *)
Lemma unsubscribe_stores campaign e binding indexed outcome confidence resumeAt :
  normalizeReplyOutcome outcome = "unsubscribe_request" ->
  TrimSpace (oc_UserID campaign) = oc_UserID campaign ->
  spec all_steps 0 trimmed_ids
    (applyOutboundReplyOutcome campaign e binding indexed outcome confidence resumeAt)
    (fun _ => for_good (oc_UserID campaign) (oe_RecipientEmail e) (TrimSpace (oc_ID campaign))).
Proof.
  intros Ho Hu. unfold applyOutboundReplyOutcome. rewrite Ho. cbv zeta.
  eapply spec_bind; [apply kept_by_still; [unfold reply_time; spec_walk|apply still_trimmed]|intros replyAt].
  eapply spec_bind; [apply kept_by_still; [spec_walk|apply still_trimmed]|intros b].
  eapply spec_bind; [apply kept_by_still; [unfold ListOutboundCampaignSteps; spec_walk|apply still_trimmed]|intros steps].
  eapply spec_bind; [apply kept_by_still; [spec_walk|apply still_trimmed]|intros now].
  replace (applyOutboundReplyBranch _ _ _ _ "unsubscribe_request") with (@None OutboundEnrollment) by done.
  match goal with |- context [UpsertOutboundEnrollment ?x] => set (e1 := x) end.
  assert (He : oe_RecipientEmail e1 = oe_RecipientEmail e) by done. clearbody e1.
  eapply spec_bind; [apply kept_by_still; [spec_walk|apply still_trimmed]|intros e2].
  eapply spec_bind; [apply kept_by_still; [spec_walk|apply still_trimmed]|intros rc].
  unfold recipient_suppression. simpl (String.eqb _ _). cbv zeta. rewrite He.
  match goal with |- context [EqualFold ?x ?y || ?z] => destruct (EqualFold x y || z) end.
  all: (eapply (spec_bind _ _ _ _ _ (fun _ => for_good (oc_UserID campaign) (oe_RecipientEmail e)
         (TrimSpace (oc_ID campaign)))); [|intros []]).
  1,3: eapply spec_bind; [by apply upsert_makes_for_good|intros s; apply spec_ret].
  1,2: intros d (c' & -> & (s' & H)); exists s'; tauto.
  all: eapply spec_bind; [apply domainActions_for_good|intros ?].
  all: apply kept_by_still; [spec_walk|apply still_for_good].
Qed.
End Still.

#[export] Hint Resolve calls_upsertProfile calls_on_base untouched_on_mail calls_identities
  calls_aliases calls_profiles calls_identity calls_profile untouched_on_accounts
  untouched_selectionFromAccount untouched_threadOwner untouched_fromThreadOwner
  untouched_fromProfile untouched_pool untouched_source untouched_collector
  untouched_funnelAccount untouched_funnel untouched_preferred untouched_policy
  untouched_resolve untouched_render untouched_still still_upsertEnrollment still_event
  still_upsertBinding still_upsertRecipient still_settle untouched_sends untouched_cap
  still_putOff still_recordSent untouched_binding untouched_messageID still_resume still_govern
  still_replyEvents : despatch.

(** Carol unsubscribes by her reply; a later message to her is due in the same
    campaign under another enrollment. *)
Definition carol_unsubscribes : ODB unit :=
  applyOutboundReplyOutcome (some_campaign "camp-1" "running")
    (some_enrollment "enr-2" "carol@corp.test" "waiting_reply" "<m1@work.test>" 1) some_binding
    (reply_from_carol "Please unsubscribe me.") "unsubscribe_request" 95 ZeroTime.
Definition carol_again : OutboundEnrollment :=
  some_enrollment "enr-3" "carol@corp.test" "scheduled" "" 0.
