(* ===== verification/OutboundRules.v ===== *)
(** * OutboundRules: what replies, steps and launches do

    Every reply ends or holds the sequence; a task that comes first is never
    passed; steps cannot be reordered; a suppression can be shortened; the
    playbooks read back as they are written; a blocked launch changes nothing. *)

From S2P Require Import Prelude Unicode GoStrings Effects GoStd GoText Json Threading Models Users Mfa.
From S2P Require Import MailAccounts Host Identity MailModels Drafts MailSenders Sample OutboundStore.
From S2P Require Import Outbound GoFmt OutboundSenders OutboundDispatch OutboundReplies OutboundLaunch.
From S2P Require Import OutboundFacts.
Local Open Scope Z_scope.

Section Rules.
Context {host : Host} {parsers : MailParsers} {servers : MailServers}.

(** ** Replies end or hold the sequence *)

Lemma outcome_cases outcome :
  normalizeReplyOutcome outcome = outcome ->
  In outcome ["positive_interest"; "meeting_intent"; "question"; "objection"; "referral";
              "wrong_person"; "not_interested"; "unsubscribe_request"; "out_of_office"; "bounce";
              "auto_reply_other"; "hostile"; "manual_review_required"; ""].
Proof.
  unfold normalizeReplyOutcome, one_of. intros H.
  destruct (existsb _ _) eqn:E; rewrite H in *; [|subst; simpl; tauto].
  apply existsb_exists in E as (x & Hin & Hx%String.eqb_eq). subst x. simpl in *. tauto.
Qed.

(** C21. A reply that no branch of the current step answers takes the enrollment
    out of the worker's way: at no time and in no campaign is it due any more,
    and the worker resumes it only when the author is out of the office, said
    when they are back, and the policy asks for it, and not before that day.
    Requests to unsubscribe, bounces and hostile replies are never left to a
    branch, and end the sequence. *)
Theorem reply_halts_sequence campaign binding indexed confidence now steps e outcome resumeAt :
  outcome <> "" -> normalizeReplyOutcome outcome = outcome ->
  let e' := outcome_enrollment campaign resumeAt outcome
              (replied_enrollment binding indexed outcome confidence e) in
  (forall now' c', due_enrollment now' c' e' = false)
  /\ (forall now' c', resume_due now' c' e' = true ->
       outcome = "out_of_office" /\ IsZero resumeAt = false /\ resumeAt <= now'
       /\ AutoResumeOutOfOffice (parseOutboundReplyPolicy (oc_ReplyPolicyJSON campaign)) = true)
  /\ (is_one_of ["unsubscribe_request"; "bounce"; "hostile"] outcome = true ->
       applyOutboundReplyBranch campaign now e steps outcome = None
       /\ In (oe_Status e') ["unsubscribed"; "bounced"; "stopped"]).
Proof.
  intros Hne Hn. apply outcome_cases in Hn. cbv zeta.
  unfold outcome_enrollment, replied_enrollment, due_enrollment, resume_due.
  generalize (parseOutboundReplyPolicy (oc_ReplyPolicyJSON campaign)) as policy. intros policy.
  repeat (destruct Hn as [<-|Hn]; [|]); [..|destruct Hn].
  14: by destruct Hne.
  all: cbn -[applyOutboundReplyBranch].
  all: repeat match goal with |- context [if ?b then _ else _] => destruct b eqn:? end; cbn -[applyOutboundReplyBranch].
  all: (split; [by intros; rewrite andb_false_r|]).
  all: (split; [|try done; by intros _; split; [|tauto]]).
  all: intros now' c' H; destruct (String.eqb (oc_Status c') _); simpl in H; try done.
  destruct (IsZero resumeAt); simpl in *; [done|]. breflect. split_and!; try done.
Qed.

(** ** Tasks *)

(** A task that comes first is never passed: until something was sent, the
    step after it is the task again, whatever a person does. *)
Lemma first_task_repeats steps campaign step u action scope until now e e' :
  stepForOutboundSend steps e = Some step -> TrimSpace (oe_LastSentMessageID e) = "" ->
  ops_enrollment u action scope until now (task_enrollment campaign step e) = Some e' ->
  stepForOutboundSend steps e' = Some step.
Proof.
  intros Hs Hn Ho.
  assert (He : oe_LastSentMessageID e' = oe_LastSentMessageID e).
  { revert Ho. unfold ops_enrollment. by repeat (case_match; try done); intros [= <-]. }
  unfold stepForOutboundSend in *. cbv zeta in *. by rewrite He, Hn in *.
Qed.

(** ** Steps are not reordered *)

Lemma update_steps_clash p f s r rows : forall before,
  In s rows -> p s = true -> In r (before ++ rows) -> p r = false ->
  (forall s', p s' = true -> step_clash (f s') r = true) ->
  update_steps p f before rows = Fail ErrConstraint.
Proof.
  induction rows as [|x rows IH]; intros before Hs Hp Hr Hnr Hc; [done|]. simpl.
  assert (Hx : x <> r -> In r (before ++ rows)).
  { intros Hne. apply in_app_iff in Hr as [Hr|[->|Hr]]; [|done|]; apply in_app_iff; auto. }
  destruct (p x) eqn:Ex.
  - assert (Hin : In r (before ++ rows)) by (apply Hx; congruence).
    assert (existsb (step_clash (f x)) (before ++ rows) = true) as ->; [|done].
    apply existsb_exists. eauto.
  - apply IH; [|done| |done|done].
    + destruct Hs as [->|Hs]; [congruence|done].
    + apply in_app_iff. apply in_app_iff in Hr as [Hr|[->|Hr]]; simpl; auto.
Qed.

(** The first statement of such an order. *)
Lemma first_placement_clashes campaignID stepID now d s r :
  In s (o_steps d) -> In r (o_steps d) ->
  os_CampaignID s = TrimSpace campaignID -> os_ID s = TrimSpace stepID ->
  os_CampaignID r = TrimSpace campaignID -> os_ID r <> TrimSpace stepID -> os_Position r = 1 ->
  update_steps (fun s => String.eqb (os_CampaignID s) (TrimSpace campaignID)
                         && step_has (TrimSpace stepID) s)
    (fun s => s <| os_Position := 1 |> <| os_UpdatedAt := now |>) [] (o_steps d) = Fail ErrConstraint.
Proof.
  intros Hs Hr Hsc Hsi Hrc Hri Hrp. unfold step_has.
  apply (update_steps_clash _ _ s r); [done| |done| |].
  - by rewrite Hsc, Hsi, !String.eqb_refl.
  - apply andb_false_iff. right. by apply String.eqb_neq.
  - intros s' H%andb_true_iff. destruct H as [Hc%String.eqb_eq _]. unfold step_clash.
    apply orb_true_iff. right. apply andb_true_iff. split; [|by rewrite Hrp].
    apply String.eqb_eq. by rewrite Hrc.
Qed.

(** Steps cannot be put in another order: an order that begins with a step
    of the campaign while another one holds position 1 always fails on the
    unique position, before anything is moved, and leaves the database as it
    was; this under any faults. *)
Theorem reorder_of_steps_fails campaignID stepID rest w s r :
  In s (o_steps (w_db w)) -> In r (o_steps (w_db w)) ->
  os_CampaignID s = TrimSpace campaignID -> os_ID s = TrimSpace stepID ->
  os_CampaignID r = TrimSpace campaignID -> os_ID r <> TrimSpace stepID -> os_Position r = 1 ->
  exists e w', ReorderOutboundCampaignSteps campaignID (stepID :: rest) w = (Fail e, w')
               /\ w_db w' = w_db w /\ (w_faults w = [] -> e = ErrConstraint).
Proof.
  intros Hs Hr Hsc Hsi Hrc Hri Hrp. unfold ReorderOutboundCampaignSteps.
  assert (Hfst : exists w1, place_steps campaignID 1 (stepID :: rest) (next w)
                 = (Fail (if faulty (next w) then ErrDriver else ErrConstraint), w1)).
  { simpl. unfold bind at 1, time_Now, update_steps_statement, bind. rewrite statement_eq.
    cbn [w_db faulty w_faults]. unfold faulty. simpl.
    destruct (hd false (tail (w_faults w))); [by eexists|].
    rewrite (first_placement_clashes campaignID stepID _ _ s r) by done. by eexists. }
  destruct Hfst as [w1 Hp].
  assert (Hb : exists e w2, bind (query (fun _ => Ok tt)) (fun _ => bind (place_steps campaignID 1 (stepID :: rest))
       (fun a => bind (query (fun _ => Ok tt)) (fun _ => ret a))) w = (Fail e, w2)
       /\ (w_faults w = [] -> e = ErrConstraint)).
  { unfold bind at 1. rewrite query_eq. unfold faulty in *. destruct (hd false (w_faults w)) eqn:Ef.
    - eexists _, _. split; [done|]. intros E. by rewrite E in Ef.
    - unfold bind at 1. rewrite Hp. eexists _, _. split; [done|]. intros E. simpl. by rewrite E. }
  destruct Hb as (e & w2 & Hb & He). unfold transaction. rewrite Hb. destruct w2 as [d fs t u tr].
  by eexists _, _.
Qed.

(** ** Launching *)

Lemma untouched_elsewhere e code mode message (read : ODB (list OutboundEnrollment)) :
  spec untouched 0 anydb read any -> spec untouched 0 anydb (elsewhere e code mode message read) any.
Proof. intros Hr. unfold elsewhere. spec_walk. Qed.

Lemma untouched_renderIssues u c e id l : spec untouched 0 anydb (render_issues u c e id l) any.
Proof. induction l as [|s l IH]; simpl; spec_walk. Qed.
Hint Resolve untouched_renderIssues : despatch.

Lemma untouched_counted u id window cache : spec untouched 0 anydb (counted_sends u id window cache) any.
Proof. unfold counted_sends, outboundAccountSendsSince, ListOutboundCampaigns. spec_walk. Qed.
Hint Resolve untouched_counted : despatch.

Lemma untouched_senderIssues u c steps e caches :
  spec untouched 0 anydb (sender_issues u c steps e caches) any.
Proof.
  unfold sender_issues, pacing_issues, daily_issues, outboundSendCounts24h, ListOutboundCampaignEvents,
    loadOutboundContact, GetContactByID. spec_walk.
Qed.
Hint Resolve untouched_senderIssues : despatch.

Lemma untouched_recipient u c steps es e caches :
  spec untouched 0 anydb (recipient_issues u c steps es e caches) any.
Proof.
  unfold recipient_issues, suppression_issues, GetActiveOutboundSuppression. spec_walk.
  all: apply untouched_elsewhere; unfold ListActiveOutboundEnrollmentsByRecipient,
    ListActiveOutboundEnrollmentsByDomain, list_enrollments; spec_walk.
Qed.
Hint Resolve untouched_recipient : despatch.

Lemma untouched_recipients u c steps es l : forall seen caches,
  spec untouched 0 anydb (recipients_issues u c steps es seen caches l) any.
Proof. induction l as [|e l IH]; intros; simpl; spec_walk. Qed.
Hint Resolve untouched_recipients : despatch.

Lemma untouched_preflight u c : spec untouched 0 anydb (PreflightOutboundCampaign u c) any.
Proof.
  unfold PreflightOutboundCampaign, ListOutboundCampaignSteps, ListOutboundEnrollmentsByCampaign,
    list_enrollments. spec_walk.
Qed.

(** C22. A launch that answers a blocking issue has changed nothing of the
    campaigns: no campaign, step, enrollment, event, recipient, thread or
    suppression, and no message was sent; this under any faults. *)
Theorem blocked_launch_changes_nothing u campaignID w issues w' :
  LaunchOutboundCampaign u campaignID w = (Ok issues, w') ->
  existsb is_Blocking issues = true -> untouched (w_db w) (w_db w').
Proof.
  unfold LaunchOutboundCampaign. intros H Hb.
  apply bind_ok in H as (c & w1 & Hc & H). apply query_done in Hc as [_ Hc].
  apply bind_ok in H as (found & w2 & Hp & H).
  destruct (untouched_preflight u c w1 (Nat.le_0_l _) I) as (_ & Hs & _).
  apply rtc_collapse in Hs; [|apply _]. rewrite Hp in Hs. cbn [snd] in Hs. rewrite Hc in Hs.
  destruct (existsb is_Blocking found) eqn:Ef; [by injection H as <- <-|].
  apply bind_ok in H as (es & w3 & _ & H). apply bind_ok in H as (now & w4 & _ & H).
  apply bind_ok in H as ([] & w5 & _ & H). apply bind_ok in H as ([] & w6 & _ & H).
  injection H as -> _. congruence.
Qed.
End Rules.

(** ** Playbooks *)

(** Each field of a policy is read back from its text as it was set. *)
Definition reads_back (raw : list (string * Payload)) : bool :=
  match json_unmarshal (mustCompactOutboundJSON raw) with
  | Some (JObject fields) =>
      forallb (fun kv =>
        match snd kv, map_field (fst kv) fields with
        | PText s, Some (JText s') => String.eqb s s'
        | PBool b, Some (JBoolean b') => Bool.eqb b b'
        | PInt n, Some (JNumber t) => bool_decide (int64_text t = Some n)
        | _, _ => false
        end) raw
  | _ => false
  end.

(** Every branch of a step names a known action; a task it names is a step of
    the playbook for a person. *)
Definition branches_ok (steps : list OutboundCampaignStep) (s : OutboundCampaignStep) : bool :=
  forallb (fun kv =>
      is_one_of ["continue"; "next_step"; "pause"; "manual_review"; "stop"] (snd kv)
      || (HasPrefix (snd kv) "manual_task:"
          && match outboundStepByPosition steps (scan_int (TrimPrefix (snd kv) "manual_task:")) with
             | Some target => String.eqb (os_Kind target) "manual_task"
             | None => false
             end)) (parseOutboundBranchPolicy (os_BranchPolicyJSON s)).

Definition blank_campaign : OutboundCampaign :=
  mkCampaign "" "" "" "" "" "" "" "" "" "" "" "" "" "" "" "" ZeroTime ZeroTime ZeroTime ZeroTime
    0 0 0 0 0 0 0 0 0.

Definition no_issues (p : OutboundPlaybook) (s : OutboundCampaignStep) : bool :=
  match step_issues (playbook_campaign p blank_campaign) s with [] => true | _ => false end.

(** The playbooks are sound: what they say in their policies is what the
    parser reads back from the stored text, for every playbook and step; their
    steps stand at positions 1, 2, ...; no step of theirs raises an issue at
    launch or has an unknown branch; and each asks for the footer that lets a
    recipient opt out. *)
Theorem playbooks_are_sound :
  forall p, In p outboundPlaybookCatalog ->
  let steps := map (fun s => scanOutboundCampaignStep (stored_step (playbook_step "c" s))) (pb_Steps p) in
  forallb reads_back ([pb_ReplyPolicy p; pb_SuppressionPolicy p; pb_SchedulePolicy p;
      pb_CompliancePolicy p; pb_GovernancePolicy p]
      ++ flat_map (fun s => [ps_TaskPolicy s; ps_BranchPolicy s]) (pb_Steps p)) = true
  /\ map os_Position steps = map Z.of_nat (List.seq 1 (length steps))
  /\ forallb (no_issues p) steps = true /\ forallb (branches_ok steps) steps = true
  /\ UnsubscribeRequired (parseOutboundCompliancePolicy
       (mustCompactOutboundJSON (pb_CompliancePolicy p))) = true.
Proof.
  intros p [<-|[<-|[<-|[]]]]; repeat (split; [vm_compute; reflexivity|]); vm_compute; reflexivity.
Qed.

Lemma playbooks_are_sound_witness :
  exists p, outboundPlaybookByKey "thread_revival" = Some p
  /\ UnsubscribeRequired (parseOutboundCompliancePolicy
       (mustCompactOutboundJSON (pb_CompliancePolicy p))) = true.
Proof.
  eexists. split; [vm_compute; reflexivity|]. eapply (playbooks_are_sound _ (or_introl eq_refl)).
Defined.

(** ** Examples *)

(** Somebody out of the office until a day known, in a campaign of defaults. *)
Lemma reply_halts_sequence_witness :
  let e' := outcome_enrollment (some_campaign "camp-1" "running") (sample_now 9) "out_of_office"
              (replied_enrollment some_binding (reply_from_carol "I am out of the office.")
                 "out_of_office" 90
                 (some_enrollment "enr-2" "carol@corp.test" "waiting_reply" "<m1@work.test>" 1)) in
  (forall now c, due_enrollment now c e' = false)
  /\ (forall now c, resume_due now c e' = true -> sample_now 9 <= now).
Proof.
  destruct (reply_halts_sequence (some_campaign "camp-1" "running") some_binding
    (reply_from_carol "I am out of the office.") 90 0 []
    (some_enrollment "enr-2" "carol@corp.test" "waiting_reply" "<m1@work.test>" 1)
    "out_of_office" (sample_now 9)) as (H1 & H2 & _); [done|reflexivity|].
  split; [exact H1|]. intros now c H. by destruct (H2 now c H) as (_ & _ & Hle & _).
Defined.

Lemma reorder_of_steps_fails_witness :
  exists w', ReorderOutboundCampaignSteps "camp-1" ["step-2"; "step-1"]
               (outbound_world (outbound_db "draft")) = (Fail ErrConstraint, w')
             /\ w_db w' = outbound_db "draft".
Proof.
  destruct (reorder_of_steps_fails "camp-1" "step-2" ["step-1"] (outbound_world (outbound_db "draft"))
    (some_step "step-2" "email" 2 "Hi again") (some_step "step-1" "email" 1 "Hi {{first_name}}"))
    as (e & w' & H & Hd & He); [simpl; tauto|simpl; tauto|done..|].
  exists w'. rewrite <- (He eq_refl). by split.
Defined.

(** A campaign in which someone has unsubscribed is not launched again. *)
Definition after_unsubscribe : OutboundDB := after carol_unsubscribes (outbound_db "paused").
Lemma blocking_answer (r : Res (list OutboundPreflightIssue) * World OutboundDB) :
  match fst r with Ok l => existsb is_Blocking l | Fail _ => false end = true ->
  exists issues w', r = (Ok issues, w') /\ existsb is_Blocking issues = true.
Proof. destruct r as [[issues|e] w']; intros H; [by exists issues, w'|discriminate H]. Qed.

Lemma relaunch_blocked :
  exists issues w', LaunchOutboundCampaign SenderFacts.sender_user "camp-1"
      (outbound_world after_unsubscribe) = (Ok issues, w') /\ existsb is_Blocking issues = true.
Proof. apply blocking_answer. vm_compute. reflexivity. Qed.

Lemma blocked_launch_changes_nothing_witness :
  exists issues w', LaunchOutboundCampaign SenderFacts.sender_user "camp-1"
      (outbound_world after_unsubscribe) = (Ok issues, w')
    /\ existsb is_Blocking issues = true /\ untouched (w_db (outbound_world after_unsubscribe)) (w_db w').
Proof.
  destruct relaunch_blocked as (issues & w' & E & Hb). exists issues, w'. split; [exact E|]. split; [exact Hb|].
  exact (blocked_launch_changes_nothing _ _ _ _ _ E Hb).
Defined.
