(* ===== verification/OutboundTypes.v ===== *)
(** * OutboundTypes: what holds whatever is asked of campaigns

    [TableRelation] states what a relation between databases needs so that every
    handler of campaigns, the worker included, keeps it: that the writes of the
    single tables keep it.  Two instances: the tables hold what their columns
    and keys declare ([typed]), and a suppression without an end stays
    ([for_good]), so that an unsubscribe is one for good. *)

From S2P Require Import Prelude Unicode GoStrings Effects GoStd GoText Json Threading Models Users Mfa.
From S2P Require Import MailAccounts Host Identity MailModels Drafts MailSenders Sample OutboundStore.
From S2P Require Import Outbound GoFmt OutboundSenders OutboundDispatch OutboundReplies OutboundLaunch.
From S2P Require Import OutboundFacts OutboundRules.
Local Open Scope Z_scope.

(** ** Types *)

Definition campaign_statuses : list string := ["draft"; "running"; "paused"; "completed"; "archived"].
Definition enrollment_statuses : list string :=
  ["pending"; "scheduled"; "sending"; "waiting_reply"; "paused"; "stopped"; "completed"; "bounced";
   "unsubscribed"; "manual_only"].
Definition reply_outcomes : list string :=
  [""; "positive_interest"; "meeting_intent"; "question"; "objection"; "referral"; "wrong_person";
   "not_interested"; "unsubscribe_request"; "out_of_office"; "bounce"; "auto_reply_other"; "hostile";
   "manual_review_required"].
Definition goal_kinds : list string :=
  ["general_outreach"; "thread_revival"; "find_owner"; "referral_request"; "reengage_dormant"].
Definition audience_kinds : list string :=
  ["manual"; "contact_group"; "saved_search"; "csv_import"].
Definition sender_policies : list string :=
  ["preferred_sender"; "single_sender"; "campaign_pool"; "reply_funnel"; "thread_owner"].
Definition recipient_statuses : list string :=
  ["active"; "replied"; "interested"; "not_interested"; "wrong_person"; "meeting_booked";
   "unsubscribed"; "hard_bounce"; "suppressed"].

Definition campaign_typed (c : OutboundCampaign) : Prop :=
  In (oc_Status c) campaign_statuses /\ In (oc_CampaignMode c) ["new_threads"; "existing_threads"]
  /\ In (oc_GoalKind c) goal_kinds /\ In (oc_AudienceSourceKind c) audience_kinds
  /\ In (oc_SenderPolicyKind c) sender_policies.
Definition step_typed (s : OutboundCampaignStep) : Prop :=
  In (os_Kind s) ["email"; "manual_task"] /\ In (os_ThreadMode s) ["same_thread"; "new_thread"].
Definition enrollment_typed (e : OutboundEnrollment) : Prop :=
  In (oe_Status e) enrollment_statuses /\ In (oe_ReplyOutcome e) reply_outcomes.
Definition recipient_typed (r : RecipientState) : Prop :=
  In (rc_Status r) recipient_statuses /\ In (rc_LastReplyOutcome r) reply_outcomes
  /\ In (rc_Scope r) ["workspace"; "campaign_only"].
Definition binding_typed (b : MailThreadBinding) : Prop :=
  In (tb_BindingType b) ["campaign"; "reply_funnel"; "manual"].
Definition suppression_typed (s : OutboundSuppression) : Prop :=
  In (su_ScopeKind s) ["recipient"; "domain"]
  /\ In (su_SourceKind s) ["manual"; "unsubscribe"; "bounce"; "reply_policy"; "compliance"].

(** Unique keys beside the identifiers: a campaign has one step at a position, a
    recipient is enrolled once in a campaign and known once to a user, a scope
    is suppressed once. *)
Definition step_key (s : OutboundCampaignStep) : string * Z := (os_CampaignID s, os_Position s).
Definition enrollment_key (e : OutboundEnrollment) : string * string :=
  (oe_CampaignID e, sql_lower (oe_RecipientEmail e)).
Definition recipient_key (r : RecipientState) : string * string :=
  (rc_UserID r, sql_lower (rc_RecipientEmail r)).
Definition suppression_key (s : OutboundSuppression) : string * string * string * string :=
  (su_UserID s, su_ScopeKind s, sql_lower (su_ScopeValue s), su_CampaignID s).

Definition keys_of_steps (rows : list OutboundCampaignStep) : Prop :=
  List.NoDup (map os_ID rows) /\ List.NoDup (map step_key rows).
Definition keys_of_enrollments (rows : list OutboundEnrollment) : Prop :=
  List.NoDup (map oe_ID rows) /\ List.NoDup (map enrollment_key rows).
Definition keys_of_suppressions (rows : list OutboundSuppression) : Prop :=
  List.NoDup (map su_ID rows) /\ List.NoDup (map suppression_key rows).

(** The kinds of every row and the keys of all seven tables. *)
Record typed (d : OutboundDB) : Prop := mkTyped {
  ty_campaigns : Forall campaign_typed (o_campaigns d) /\ List.NoDup (map oc_ID (o_campaigns d));
  ty_steps : Forall step_typed (o_steps d) /\ keys_of_steps (o_steps d);
  ty_enrollments : Forall enrollment_typed (o_enrollments d) /\ keys_of_enrollments (o_enrollments d);
  ty_events : List.NoDup (map ov_ID (o_events d));
  ty_recipients : Forall recipient_typed (o_recipients d)
                  /\ List.NoDup (map recipient_key (o_recipients d));
  ty_bindings : Forall binding_typed (o_bindings d) /\ List.NoDup (map tb_ID (o_bindings d));
  ty_suppressions : Forall suppression_typed (o_suppressions d)
                    /\ keys_of_suppressions (o_suppressions d)
}.

Definition keeps_types (d d' : OutboundDB) : Prop := typed d -> typed d'.
#[export] Instance keeps_types_preorder : PreOrder keeps_types.
Proof. split; [intros d H; exact H|]. intros a b c H1 H2 H. apply H2, H1, H. Qed.

Lemma one_of_In dflt names raw : In (one_of dflt names raw) (dflt :: names).
Proof.
  unfold one_of. destruct (existsb _ _) eqn:E; [|by left].
  apply existsb_exists in E as (x & Hin & ->%String.eqb_eq). by right.
Qed.

Lemma Forall_update {R} (P : R -> Prop) p (f : R -> R) rows :
  (forall r, P r -> P (f r)) -> Forall P rows -> Forall P (update_rows p f rows).
Proof.
  rewrite !List.Forall_forall. intros Hf H r (r0 & Hin & ->)%in_update_rows. destruct (p r0); auto.
Qed.

Lemma Forall_delete {R} (P : R -> Prop) p (rows : list R) :
  Forall P rows -> Forall P (delete_rows p rows).
Proof.
  rewrite !List.Forall_forall. intros H r Hr%in_delete_rows. apply H, Hr.
Qed.

Lemma Forall_snoc {R} (P : R -> Prop) r (rows : list R) : P r -> Forall P rows -> Forall P (rows ++ [r]).
Proof. intros Hr H. apply Forall_app. split; [done|by repeat constructor]. Qed.

Lemma Forall_insert {R} (P : R -> Prop) clash r (rows rows' : list R) :
  P r -> insert_row clash r rows = Ok rows' -> Forall P rows -> Forall P rows'.
Proof. intros Hr [-> _]%insert_row_ok. by apply Forall_snoc. Qed.

Lemma NoDup_delete {R K} (key : R -> K) p rows :
  List.NoDup (map key rows) -> List.NoDup (map key (delete_rows p rows)).
Proof.
  unfold delete_rows. induction rows as [|r rows IH]; simpl; [done|].
  intros H. apply NoDup_cons_iff in H as [Hn Hd].
  destruct (negb (p r)); [|auto]. simpl. constructor; [|auto].
  intros Hin. apply Hn. apply in_map_iff in Hin as (r' & Hk & Hr'). apply filter_In in Hr' as [Hr' _].
  apply in_map_iff. eauto.
Qed.

Lemma snoc_keys {R K} (key : R -> K) r rows :
  (forall r0, In r0 rows -> key r0 <> key r) ->
  List.NoDup (map key rows) -> List.NoDup (map key (rows ++ [r])).
Proof.
  intros Hr H. rewrite map_app. apply List.NoDup_app; [done|by repeat constructor; intros []|].
  intros k (r0 & Hk & Hin)%in_map_iff [<-|[]]. by apply (Hr r0).
Qed.

(** Keys that [update_steps] checks stay unique. *)
Lemma update_steps_keys {K} (key : OutboundCampaignStep -> K) p f rows :
  (forall s s0, key s = key s0 -> step_clash s s0 = true) -> forall before rows',
  List.NoDup (map key (before ++ rows)) -> update_steps p f before rows = Ok rows' ->
  List.NoDup (map key rows').
Proof.
  intros Hc. induction rows as [|s rows IH]; intros before rows' H; simpl.
  { intros [= <-]. rewrite app_nil_r in H. rewrite map_rev. by apply List.NoDup_rev. }
  assert (Hmid : List.NoDup (key s :: map key (before ++ rows))).
  { eapply Permutation.Permutation_NoDup; [|exact H]. rewrite !map_app. simpl.
    symmetry. apply Permutation.Permutation_middle. }
  destruct (p s); [|by apply IH].
  destruct (existsb _ _) eqn:E; [done|]. apply IH. apply NoDup_cons_iff in Hmid as [_ Hmid].
  constructor; [|exact Hmid]. intros (s0 & Hk & Hin)%in_map_iff.
  assert (existsb (step_clash (f s)) (before ++ rows) = true); [|congruence].
  apply existsb_exists. exists s0. split; [done|]. by apply Hc.
Qed.

(** ** The handlers of the tables *)

Section Types.
Context {host : Host} {parsers : MailParsers} {servers : MailServers}.

Lemma types_untouched {A} (m : ODB A) :
  spec untouched 0 anydb m any -> spec keeps_types 0 anydb m any.
Proof.
  apply spec_mono. intros a b (_ & Hc & Hs & He & Hv & Hr & Hb & Hp) [].
  by split; rewrite ?Hc, ?Hs, ?He, ?Hv, ?Hr, ?Hb, ?Hp.
Qed.
Hint Resolve types_untouched : despatch.

Lemma types_statement {A} (f : OutboundDB -> Res (A * OutboundDB)) :
  (forall d a d', f d = Ok (a, d') -> keeps_types d d') -> spec keeps_types 0 anydb (statement f) any.
Proof. intros H. apply spec_statement. intros d a d' _ E. split; [|done]. apply rtc_once. eauto. Qed.

Lemma types_exec (f : OutboundDB -> OutboundDB) :
  (forall d, keeps_types d (f d)) -> spec keeps_types 0 anydb (exec f) any.
Proof. intros H. apply spec_exec_any. intros d. by apply rtc_once. Qed.

Lemma types_found (m : ODB nat) :
  spec keeps_types 0 anydb m any -> spec keeps_types 0 anydb (found_row m) any.
Proof. intros H. unfold found_row. spec_walk. Qed.

(** A change of one table. *)
Lemma typed_campaigns d rows :
  typed d -> Forall campaign_typed rows -> List.NoDup (map oc_ID rows) ->
  typed (d <| o_campaigns := rows |>).
Proof. by intros []. Qed.
Lemma typed_steps d rows :
  typed d -> Forall step_typed rows -> keys_of_steps rows -> typed (d <| o_steps := rows |>).
Proof. by intros []. Qed.
Lemma typed_enrollments d rows :
  typed d -> Forall enrollment_typed rows -> keys_of_enrollments rows ->
  typed (d <| o_enrollments := rows |>).
Proof. by intros []. Qed.
Lemma typed_events d rows :
  typed d -> List.NoDup (map ov_ID rows) -> typed (d <| o_events := rows |>).
Proof. by intros []. Qed.
Lemma typed_recipients d rows :
  typed d -> Forall recipient_typed rows -> List.NoDup (map recipient_key rows) ->
  typed (d <| o_recipients := rows |>).
Proof. by intros []. Qed.
Lemma typed_bindings d rows :
  typed d -> Forall binding_typed rows -> List.NoDup (map tb_ID rows) ->
  typed (d <| o_bindings := rows |>).
Proof. by intros []. Qed.
Lemma typed_suppressions d rows :
  typed d -> Forall suppression_typed rows -> keys_of_suppressions rows ->
  typed (d <| o_suppressions := rows |>).
Proof. by intros []. Qed.

Lemma upsert_enrollment_typed inp rows rows' :
  enrollment_typed inp -> upsert_enrollment inp rows = Ok rows' ->
  Forall enrollment_typed rows -> Forall enrollment_typed rows'.
Proof.
  intros Hi. unfold upsert_enrollment. destruct (existsb _ _).
  - intros [= <-]. by apply Forall_update.
  - by apply Forall_insert.
Qed.

Lemma upsert_enrollment_keys inp rows rows' :
  upsert_enrollment inp rows = Ok rows' -> keys_of_enrollments rows -> keys_of_enrollments rows'.
Proof.
  unfold upsert_enrollment, keys_of_enrollments. destruct (existsb _ _) eqn:E.
  - intros [= <-] H. by rewrite !map_update_rows.
  - intros Hins [Hi Hk]. split; [by eapply NoDup_insert; [|exact Hins|done]; intros r0 Hr%String.eqb_neq|].
    apply insert_row_ok in Hins as [-> _]. apply snoc_keys; [|done]. intros r Hr [= Hc He].
    assert (existsb (same_enrollment inp) rows = true); [|congruence].
    apply existsb_exists. exists r. split; [done|].
    unfold same_enrollment, has_campaign, nocase. by rewrite Hc, He, !String.eqb_refl.
Qed.

Lemma types_upsertEnrollment inp : spec keeps_types 0 anydb (UpsertOutboundEnrollment inp) any.
Proof.
  unfold UpsertOutboundEnrollment, fresh_id, GetOutboundEnrollmentByCampaignEmail, get_enrollment.
  spec_walk. cbv zeta. apply types_statement. intros d r d' H.
  match type of H with context [upsert_enrollment ?x _] => set (row := x) in H end.
  assert (Hrow : enrollment_typed row) by (split; apply one_of_In). clearbody row.
  destruct (upsert_enrollment row (o_enrollments d)) as [rows|] eqn:E; [|done]. injection H as <- <-.
  intros H. apply typed_enrollments; [done|eapply upsert_enrollment_typed|eapply upsert_enrollment_keys];
    first [exact Hrow|exact E|exact (proj1 (ty_enrollments _ H))|exact (proj2 (ty_enrollments _ H))].
Qed.
Hint Resolve types_upsertEnrollment : despatch.

Lemma types_event v : spec keeps_types 0 anydb (AppendOutboundEvent v) any.
Proof.
  unfold AppendOutboundEvent, fresh_id. spec_walk; cbv zeta.
  all: apply types_statement; intros d x d' E H.
  all: match type of E with match ?i with _ => _ end = _ => destruct i as [rows|] eqn:Er; [|discriminate E] end.
  all: injection E as <- <-; apply typed_events; [exact H|].
  all: eapply NoDup_insert; [|exact Er|apply H]; intros r0 Hr%String.eqb_neq; congruence.
Qed.

Lemma typed_binding_upserted d row :
  binding_typed row -> typed d -> typed (d <| o_bindings := upsert_binding row (o_bindings d) |>).
Proof.
  intros Hrow H. destruct (ty_bindings _ H) as [Hb Hk]. apply typed_bindings; [done|..];
    unfold upsert_binding; destruct (existsb _ _) eqn:E.
  - by apply Forall_update.
  - by apply Forall_snoc.
  - unfold update_rows. rewrite map_map.
    erewrite map_ext; [exact Hk|]. intros r. simpl. destruct (String.eqb_spec (tb_ID r) (tb_ID row)); [|done].
    simpl. congruence.
  - apply snoc_keys; [|done]. intros r Hr He.
    assert (existsb (fun b => String.eqb (tb_ID b) (tb_ID row)) (o_bindings d) = true); [|congruence].
    apply existsb_exists. exists r. split; [done|]. by apply String.eqb_eq.
Qed.

Lemma types_upsertBinding b : spec keeps_types 0 anydb (UpsertMailThreadBinding b) any.
Proof.
  unfold UpsertMailThreadBinding, fresh_id, GetMailThreadBindingByID. spec_walk.
  all: apply types_exec; intros d; match goal with |- context [upsert_binding ?x _] => set (row := x) end.
  all: intros H; apply typed_binding_upserted; [apply one_of_In|exact H].
Qed.

Lemma upsert_recipient_keys inp rows :
  List.NoDup (map recipient_key rows) -> List.NoDup (map recipient_key (upsert_recipient inp rows)).
Proof.
  intros H. unfold upsert_recipient. cbv zeta. destruct (existsb _ _) eqn:E.
  - clear E. induction rows as [|r rows IH]; simpl; [done|]. apply NoDup_cons_iff in H as [Hn Hd].
    assert (Hkey : forall r, recipient_key (if recipient_is (rc_UserID inp) (rc_RecipientEmail inp) r
                     then inp <| rc_RecipientEmail := rc_RecipientEmail r |> else r) = recipient_key r).
    { intros r'. destruct (recipient_is _ _ r') eqn:Er; [|done].
      apply andb_true_iff in Er as [Hu%String.eqb_eq _]. unfold recipient_key. cbn -[sql_lower].
      by rewrite Hu. }
    constructor; [|auto]. rewrite Hkey. unfold update_rows. rewrite map_map.
    by rewrite (map_ext _ _ Hkey).
  - apply snoc_keys; [|done]. intros r Hr [= Hu He].
    assert (existsb (recipient_is (rc_UserID inp) (rc_RecipientEmail inp)) rows = true); [|congruence].
    apply existsb_exists. exists r. split; [done|].
    unfold recipient_is, nocase. by rewrite Hu, He, !String.eqb_refl.
Qed.

Lemma typed_recipient_upserted d row :
  recipient_typed row -> typed d -> typed (d <| o_recipients := upsert_recipient row (o_recipients d) |>).
Proof.
  intros Hrow H. destruct (ty_recipients _ H) as [Ht Hk].
  apply typed_recipients; [done| |by apply upsert_recipient_keys].
  unfold upsert_recipient. cbv zeta.
  destruct (existsb _ _); [apply Forall_update|apply Forall_snoc]; done.
Qed.

(** The columns of a row written, as they are normalised. *)
Lemma recipient_typed_by row s o c :
  rc_Status row = normalizeRecipientStateStatus s ->
  rc_LastReplyOutcome row = normalizeReplyOutcome o -> rc_Scope row = normalizeRecipientScope c ->
  recipient_typed row.
Proof. unfold recipient_typed. intros -> -> ->. split_and!; apply one_of_In. Qed.
Lemma suppression_typed_by row k s :
  su_ScopeKind row = normalizeSuppressionScopeKind k ->
  su_SourceKind row = normalizeSuppressionSourceKind s -> suppression_typed row.
Proof. unfold suppression_typed. intros -> ->. split; apply one_of_In. Qed.

Lemma types_upsertRecipient r : spec keeps_types 0 anydb (UpsertRecipientState r) any.
Proof.
  unfold UpsertRecipientState, GetRecipientState. spec_walk. cbv zeta. apply types_exec. intros d H.
  apply typed_recipient_upserted; [|exact H].
  eapply (recipient_typed_by _ (rc_Status r) (rc_LastReplyOutcome r) (rc_Scope r)); reflexivity.
Qed.

(** Only the reason, source and end of a stored suppression change. *)
Lemma typed_suppression_updated d p inp now :
  suppression_typed inp -> typed d ->
  typed (d <| o_suppressions := update_rows p (fun s => s <| su_Reason := su_Reason inp |>
     <| su_SourceKind := su_SourceKind inp |> <| su_ExpiresAt := su_ExpiresAt inp |>
     <| su_UpdatedAt := now |>) (o_suppressions d) |>).
Proof.
  intros [_ Hi] H. destruct (ty_suppressions _ H) as [Ht [Hid Hk]]. apply typed_suppressions; [done|..].
  - apply Forall_update; [|exact Ht]. by intros s [].
  - unfold keys_of_suppressions. by rewrite !map_update_rows.
Qed.

Lemma typed_suppression_inserted d row rows :
  suppression_typed row -> insert_row suppression_clash row (o_suppressions d) = Ok rows -> typed d ->
  typed (d <| o_suppressions := rows |>).
Proof.
  intros Hr Hi H. destruct (ty_suppressions _ H) as [Ht [Hid Hk]].
  apply typed_suppressions; [done|by eapply Forall_insert|split]; (eapply NoDup_insert; [|exact Hi|done]).
  - intros r0 Hc He. unfold suppression_clash in Hc. by rewrite He, String.eqb_refl in Hc.
  - intros r0 Hc [= Hu Hs Hv Hcid]. unfold suppression_clash, same_scope, nocase in Hc.
    rewrite Hu, Hs, Hv, Hcid, !String.eqb_refl in Hc. by rewrite orb_true_r in Hc.
Qed.

Lemma types_upsertSuppression inp : spec keeps_types 0 anydb (UpsertOutboundSuppression inp) any.
Proof.
  unfold UpsertOutboundSuppression, fresh_id. spec_walk; cbv zeta.
  - apply types_exec. intros d H. eapply typed_suppression_updated; [|exact H].
    eapply (suppression_typed_by _ (su_ScopeKind inp) (su_SourceKind inp)); reflexivity.
  - apply types_statement. intros d x d' E H.
    match type of E with match ?i with _ => _ end = _ => destruct i as [rows|] eqn:Er; [|discriminate E] end.
    injection E as <- <-. eapply typed_suppression_inserted; [|exact Er|exact H].
    eapply (suppression_typed_by _ (su_ScopeKind inp) (su_SourceKind inp)); reflexivity.
Qed.
Hint Resolve types_event types_upsertBinding types_upsertRecipient types_upsertSuppression : despatch.

Lemma campaign_typed_by row c :
  oc_Status row = normalizeOutboundCampaignStatus (oc_Status c) ->
  oc_CampaignMode row = normalizeOutboundCampaignMode (oc_CampaignMode c) ->
  oc_GoalKind row = normalizeOutboundGoalKind (oc_GoalKind c) ->
  oc_AudienceSourceKind row = normalizeOutboundAudienceSourceKind (oc_AudienceSourceKind c) ->
  oc_SenderPolicyKind row = normalizeOutboundSenderPolicyKind (oc_SenderPolicyKind c) ->
  campaign_typed row.
Proof. unfold campaign_typed. intros -> -> -> -> ->. split_and!; apply one_of_In. Qed.

Lemma step_typed_by row k m :
  os_Kind row = normalizeOutboundStepKind k -> os_ThreadMode row = normalizeOutboundThreadMode m ->
  step_typed row.
Proof.
  unfold step_typed. intros -> ->. split; [|apply one_of_In]. unfold normalizeOutboundStepKind.
  destruct (one_of_In "email" ["manual_task"; "email"] k) as [Hk|[Hk|[Hk|[]]]]; rewrite <- Hk;
    [by left|by right; left|by left].
Qed.

Ltac stored_campaign c :=
  apply (campaign_typed_by _ c); reflexivity.
Ltac stored_step s := eapply (step_typed_by _ (os_Kind s) (os_ThreadMode s)); reflexivity.

Lemma types_createCampaign c : spec keeps_types 0 anydb (CreateOutboundCampaign c) any.
Proof.
  unfold CreateOutboundCampaign, fresh_id, GetOutboundCampaignByID. spec_walk; cbv zeta.
  all: apply types_statement; intros d x d' E H.
  all: match type of E with match ?i with _ => _ end = _ => destruct i as [rows|] eqn:Er; [|discriminate E] end.
  all: injection E as <- <-; destruct (ty_campaigns _ H) as [Ht Hk].
  all: apply typed_campaigns; [exact H|eapply Forall_insert; [|exact Er|exact Ht]; stored_campaign c|].
  all: eapply NoDup_insert; [|exact Er|exact Hk]; intros r0 Hr%String.eqb_neq; congruence.
Qed.

Lemma types_updateCampaign c : spec keeps_types 0 anydb (UpdateOutboundCampaign c) any.
Proof.
  unfold UpdateOutboundCampaign, GetOutboundCampaignByID. spec_walk; cbv zeta.
  apply types_found, types_statement. intros d x d' E H. injection E as <- <-.
  destruct (ty_campaigns _ H) as [Ht Hk]. apply typed_campaigns; [exact H| |by rewrite map_update_rows].
  apply Forall_update; [|exact Ht]. intros r _. stored_campaign c.
Qed.

Lemma types_setStatus u id st l c : spec keeps_types 0 anydb (SetOutboundCampaignStatus u id st l c) any.
Proof.
  unfold SetOutboundCampaignStatus. spec_walk; cbv zeta.
  apply types_found, types_statement. intros d x d' E H. injection E as <- <-.
  destruct (ty_campaigns _ H) as [Ht Hk]. apply typed_campaigns; [exact H| |by rewrite map_update_rows].
  apply Forall_update; [|exact Ht]. intros r [_ Hm]. split; [apply one_of_In|exact Hm].
Qed.

Lemma update_steps_typed p f rows : (forall s, step_typed s -> step_typed (f s)) -> forall before rows',
  Forall step_typed before -> Forall step_typed rows -> update_steps p f before rows = Ok rows' ->
  Forall step_typed rows'.
Proof.
  intros Hf. induction rows as [|s rows IH]; intros before rows' Hb Hr; simpl.
  - intros [= <-]. by apply Forall_rev.
  - pose proof (List.Forall_inv Hr) as Hs. apply List.Forall_inv_tail in Hr. destruct (p s).
    + destruct (existsb _ _); [done|]. apply IH; [|done]. constructor; auto.
    + apply IH; [by constructor|done].
Qed.

Lemma same_place_clash s s0 : step_key s = step_key s0 -> step_clash s s0 = true.
Proof.
  intros [= Hc Hp]. unfold step_clash. by rewrite Hc, Hp, String.eqb_refl, Z.eqb_refl, orb_true_r.
Qed.

Lemma types_updateSteps p f :
  (forall s, step_typed s -> step_typed (f s)) ->
  spec keeps_types 0 anydb (update_steps_statement p f) any.
Proof.
  intros Hf. apply types_statement. intros d x d' E H.
  destruct (update_steps p f [] (o_steps d)) as [rows|] eqn:Er; [|done]. injection E as <- <-.
  destruct (ty_steps _ H) as [Ht [Hid Hk]].
  apply typed_steps; [done|eapply update_steps_typed; [exact Hf|constructor|exact Ht|exact Er]|].
  split; (eapply update_steps_keys; [|by rewrite app_nil_l|exact Er]); intros s s0 Hkey.
  - unfold step_clash. by rewrite Hkey, String.eqb_refl.
  - by apply same_place_clash.
Qed.

Lemma types_createStep s : spec keeps_types 0 anydb (CreateOutboundCampaignStep s) any.
Proof.
  unfold CreateOutboundCampaignStep, fresh_id, GetOutboundCampaignStepByID. spec_walk; cbv zeta.
  all: apply types_statement; intros d x d' E H.
  all: match type of E with match ?i with _ => _ end = _ => destruct i as [rows|] eqn:Er; [|discriminate E] end.
  all: injection E as <- <-; destruct (ty_steps _ H) as [Ht [Hid Hk]].
  all: apply typed_steps; [exact H|eapply Forall_insert; [|exact Er|exact Ht]; stored_step s|split].
  all: eapply NoDup_insert; [|exact Er|done]; intros r0 Hc Hkey.
  all: try by rewrite same_place_clash in Hc.
  all: unfold step_clash in Hc; by rewrite Hkey, String.eqb_refl in Hc.
Qed.

Lemma types_updateStep s : spec keeps_types 0 anydb (UpdateOutboundCampaignStep s) any.
Proof.
  unfold UpdateOutboundCampaignStep, GetOutboundCampaignStepByID. spec_walk; cbv zeta.
  apply types_found, types_updateSteps. intros s' _. stored_step s.
Qed.

Lemma typed_steps_deleted d p : typed d -> typed (d <| o_steps := delete_rows p (o_steps d) |>).
Proof.
  intros H. destruct (ty_steps _ H) as [Ht [Hid Hk]].
  apply typed_steps; [exact H|by apply Forall_delete|split; by apply NoDup_delete].
Qed.

Lemma types_deleteStep id : spec keeps_types 0 anydb (DeleteOutboundCampaignStep id) any.
Proof.
  apply types_found, types_statement. intros d x d' E H. injection E as <- <-.
  by apply typed_steps_deleted.
Qed.

Lemma types_deleteSteps id : spec keeps_types 0 anydb (DeleteOutboundCampaignSteps id) any.
Proof. apply types_exec. intros d H. by apply typed_steps_deleted. Qed.

Lemma types_reorder id l : spec keeps_types 0 anydb (ReorderOutboundCampaignSteps id l) any.
Proof.
  unfold ReorderOutboundCampaignSteps. apply spec_transaction. generalize 1.
  induction l as [|s l IH]; intros n; simpl; spec_walk. apply types_updateSteps. by intros s' [].
Qed.

Lemma types_unsuppress u id : spec keeps_types 0 anydb (DeleteOutboundSuppression u id) any.
Proof.
  apply types_found, types_statement. intros d x d' E H. injection E as <- <-.
  destruct (ty_suppressions _ H) as [Ht [Hid Hk]].
  apply typed_suppressions; [exact H|by apply Forall_delete|split; by apply NoDup_delete].
Qed.
Hint Resolve types_createCampaign types_updateCampaign types_setStatus types_createStep types_updateStep
  types_deleteStep types_deleteSteps types_reorder types_unsuppress : despatch.

(** ** The handlers of the service and the worker *)

(** A relation between databases that every write of a table keeps, as long as
    the suppressions stored are [allowed]; those without an end always are.
    (Deleting a suppression is left to who asks for it.) *)
Class TableRelation (R : OutboundDB -> OutboundDB -> Prop) (allowed : OutboundSuppression -> Prop) :
    Prop := {
  tr_preorder :: PreOrder R;
  tr_untouched : forall d d', untouched d d' -> R d d';
  tr_mail : forall d mail, R d (d <| o_mail := mail |>);
  tr_campaign : forall c, spec R 0 anydb (CreateOutboundCampaign c) any;
  tr_campaign_set : forall c, spec R 0 anydb (UpdateOutboundCampaign c) any;
  tr_status : forall u id st l c, spec R 0 anydb (SetOutboundCampaignStatus u id st l c) any;
  tr_step : forall s, spec R 0 anydb (CreateOutboundCampaignStep s) any;
  tr_step_set : forall s, spec R 0 anydb (UpdateOutboundCampaignStep s) any;
  tr_step_deleted : forall id, spec R 0 anydb (DeleteOutboundCampaignStep id) any;
  tr_steps_deleted : forall id, spec R 0 anydb (DeleteOutboundCampaignSteps id) any;
  tr_reordered : forall id l, spec R 0 anydb (ReorderOutboundCampaignSteps id l) any;
  tr_enrollment : forall e, spec R 0 anydb (UpsertOutboundEnrollment e) any;
  tr_event : forall v, spec R 0 anydb (AppendOutboundEvent v) any;
  tr_recipient : forall r, spec R 0 anydb (UpsertRecipientState r) any;
  tr_binding : forall b, spec R 0 anydb (UpsertMailThreadBinding b) any;
  tr_suppression : forall s, allowed s -> spec R 0 anydb (UpsertOutboundSuppression s) any;
  tr_endless : forall s, IsZero (su_ExpiresAt s) = true -> allowed s
}.

Section Keeping.
Context (R : OutboundDB -> OutboundDB -> Prop) (allowed : OutboundSuppression -> Prop).
Context {HR : TableRelation R allowed}.

Lemma keep_untouched {A} (m : ODB A) : spec untouched 0 anydb m any -> spec R 0 anydb m any.
Proof. apply spec_mono. intros d d'. apply tr_untouched. Qed.

(** The suppressions replies and policies store have no end. *)
Lemma keep_endless s :
  IsZero (su_ExpiresAt s) = true -> spec R 0 anydb (UpsertOutboundSuppression s) any.
Proof. intros H. by apply tr_suppression, tr_endless. Qed.

Lemma keep_asked (o : option OutboundSuppression) :
  (forall s, o = Some s -> allowed s) ->
  spec R 0 anydb
    (match o with Some s => let! _ := UpsertOutboundSuppression s in ret tt | None => ret tt end) any.
Proof.
  intros H. destruct o as [s|]; [|by apply spec_ret].
  apply spec_seq; [by apply tr_suppression, H|intros ?; by apply spec_ret].
Qed.

Lemma recipient_suppression_allowed c e o s : recipient_suppression c e o = Some s -> allowed s.
Proof.
  intros H. apply tr_endless. revert H. unfold recipient_suppression. cbv zeta.
  destruct (String.eqb o "unsubscribe_request"), (String.eqb o "bounce"), (String.eqb o "hostile");
    intros H; simplify_eq; done.
Qed.

Hint Resolve keep_untouched tr_campaign tr_campaign_set tr_status tr_step tr_step_set tr_step_deleted
  tr_steps_deleted tr_reordered tr_enrollment tr_event tr_recipient tr_binding : despatch.
Hint Extern 1 (spec _ _ _ (UpsertOutboundSuppression (mkSuppression _ _ _ _ _ _ _ _ _ _)) any) =>
  by apply keep_endless : despatch.

Lemma keep_settle c e k p r : spec R 0 anydb (settle c e k p r) any.
Proof. unfold settle. spec_walk. Qed.
Hint Resolve keep_settle : despatch.

Lemma keep_complete c e : spec R 0 anydb (complete c e) any.
Proof. unfold complete. apply keep_settle. Qed.
Lemma keep_handOver c s e : spec R 0 anydb (hand_over_task c s e) any.
Proof. unfold hand_over_task. apply keep_settle. Qed.
Lemma keep_stop c e s : spec R 0 anydb (stop_suppressed c e s) any.
Proof. unfold stop_suppressed. apply keep_settle. Qed.
Lemma keep_failed c e err : spec R 0 anydb (message_refused c e err) any.
Proof. unfold message_refused. apply keep_settle. Qed.
Lemma keep_putOff c e delay p : spec R 0 anydb (put_off c e delay p) any.
Proof. unfold put_off. spec_walk. Qed.
Lemma keep_sent c steps step s e b req : spec R 0 anydb (record_sent c steps step s e b req) any.
Proof. unfold record_sent. spec_walk. Qed.
Hint Resolve keep_complete keep_handOver keep_stop keep_failed keep_putOff keep_sent : despatch.

(** Nothing of the mail tables concerns these tables. *)
Lemma keep_mail {A} (m : MDB A) : spec R 0 anydb (on_mail m) any.
Proof.
  intros [d fs t u tr] Hk _. unfold on_mail. destruct (m _) as [r [b fs' t' u' tr']]; simpl.
  split_and!; [lia| |by destruct r]. apply rtc_once, tr_mail.
Qed.
Hint Resolve keep_mail : despatch.

Lemma keep_sendStep c steps r e : spec R 0 anydb (send_step c steps r e) any.
Proof. unfold send_step. spec_walk. Qed.
Hint Resolve keep_sendStep : despatch.

Lemma keep_deliver c steps r e : spec R 0 anydb (deliver c steps r e) any.
Proof. unfold deliver, GetActiveOutboundSuppression, with_pacing. spec_walk. Qed.
Hint Resolve keep_deliver : despatch.

Lemma keep_dispatch e : spec R 0 anydb (DispatchOutboundEnrollment e) any.
Proof.
  unfold DispatchOutboundEnrollment, GetOutboundCampaignByIDAny, ListOutboundCampaignSteps, render_failed.
  spec_walk.
Qed.
Hint Resolve keep_dispatch : despatch.

Lemma keep_items l : spec R 0 anydb (dispatch_items l) any.
Proof. induction l as [|e l IH]; simpl; spec_walk. Qed.
Lemma keep_resume l : spec R 0 anydb (resume_items l) any.
Proof. induction l as [|e l IH]; simpl; unfold resume_item; spec_walk. Qed.
Hint Resolve keep_items keep_resume : despatch.
Lemma keep_due : spec R 0 anydb processOutboundDue any.
Proof.
  unfold processOutboundDue, resumeOutboundOOO, ListOutboundOOOResumeDue, ListDueOutboundEnrollments,
    list_enrollments. spec_walk.
Qed.

Lemma keep_govern c e a l : spec R 0 anydb (govern_others c e a l) any.
Proof. induction l as [|o l IH]; simpl; spec_walk. Qed.
Hint Resolve keep_govern : despatch.

Lemma keep_outcome c e b m o n t : spec R 0 anydb (applyOutboundReplyOutcome c e b m o n t) any.
Proof.
  unfold applyOutboundReplyOutcome, reply_time, ListOutboundCampaignSteps, applyOutcomeDomainActions,
    ListActiveOutboundEnrollmentsByDomain, list_enrollments, reply_events. intros.
  repeat first [apply keep_asked, recipient_suppression_allowed | spec_step].
Qed.
Hint Resolve keep_outcome : despatch.

Lemma keep_message a m : spec R 0 anydb (ProcessOutboundIndexedMessage a m) any.
Proof.
  unfold ProcessOutboundIndexedMessage, note_own_message, FindMailThreadBindingByOutboundMessageID,
    FindMailThreadBindingByReplyHeaders, newest_binding, GetOutboundCampaignByIDAny,
    GetOutboundEnrollmentByID, get_enrollment. spec_walk.
Qed.

Lemma keep_manual u id o n : spec R 0 anydb (ApplyManualReplyOutcome u id o n) any.
Proof.
  unfold ApplyManualReplyOutcome, GetOutboundEnrollmentByID, get_enrollment, GetOutboundCampaignByID,
    binding_or_none, GetMailThreadBindingByEnrollment, last_reply. spec_walk.
Qed.

Lemma keep_action u id a v t :
  (forall c e s, ops_suppression u c (fold_trim a) v t e = Some s -> allowed s) ->
  spec R 0 anydb (ApplyReplyOpsAction u id a v t) any.
Proof.
  intros H. unfold ApplyReplyOpsAction, GetOutboundEnrollmentByID, get_enrollment,
    GetOutboundCampaignByID, binding_or_none, GetMailThreadBindingByEnrollment.
  repeat first [apply keep_asked, H | spec_step].
Qed.

Lemma keep_launchEnrollments now l : spec R 0 anydb (launch_enrollments now l) any.
Proof. induction l as [|e l IH]; simpl; spec_walk. Qed.
Hint Resolve keep_launchEnrollments untouched_preflight : despatch.
Lemma keep_launch u id : spec R 0 anydb (LaunchOutboundCampaign u id) any.
Proof.
  unfold LaunchOutboundCampaign, GetOutboundCampaignByID, ListOutboundEnrollmentsByCampaign,
    list_enrollments. spec_walk.
Qed.

Lemma keep_createSteps id l : spec R 0 anydb (create_steps id l) any.
Proof. induction l as [|s l IH]; simpl; spec_walk. Qed.
Hint Resolve keep_createSteps : despatch.
Lemma keep_playbook u id key replace : spec R 0 anydb (ApplyOutboundPlaybook u id key replace) any.
Proof. unfold ApplyOutboundPlaybook, GetOutboundCampaignByID, ListOutboundCampaignSteps. spec_walk. Qed.

(** ** Requests *)

(** What the worker and the handlers of the HTTP interface do to campaigns. *)
Inductive OutboundRequest :=
| WorkerTick
| IncomingMessage (account : MailAccount) (m : IndexedMessage)
| ManualOutcome (u : User) (enrollmentID outcome : string) (confidence : Z)
| ReplyOps (u : User) (enrollmentID action scopeValue : string) (until : Z)
| Launch (u : User) (campaignID : string)
| Playbook (u : User) (campaignID key : string) (replaceSteps : bool)
| CreateCampaign (c : OutboundCampaign)
| UpdateCampaign (c : OutboundCampaign)
| SetCampaignStatus (userID id status : string) (launchedAt completedAt : Z)
| CreateStep (s : OutboundCampaignStep)
| UpdateStep (s : OutboundCampaignStep)
| DeleteStep (id : string)
| DeleteSteps (campaignID : string)
| ReorderSteps (campaignID : string) (stepIDs : list string)
| Enroll (e : OutboundEnrollment)
| Suppress (s : OutboundSuppression)
| Unsuppress (userID id : string)
| Note (v : OutboundEvent).

Definition serve (r : OutboundRequest) : ODB unit :=
  match r with
  | WorkerTick => processOutboundDue
  | IncomingMessage a m => ProcessOutboundIndexedMessage a m
  | ManualOutcome u id o n => ApplyManualReplyOutcome u id o n
  | ReplyOps u id a v t => ApplyReplyOpsAction u id a v t
  | Launch u id => ignore (LaunchOutboundCampaign u id)
  | Playbook u id k b => ignore (ApplyOutboundPlaybook u id k b)
  | CreateCampaign c => ignore (CreateOutboundCampaign c)
  | UpdateCampaign c => ignore (UpdateOutboundCampaign c)
  | SetCampaignStatus u id s t1 t2 => SetOutboundCampaignStatus u id s t1 t2
  | CreateStep s => ignore (CreateOutboundCampaignStep s)
  | UpdateStep s => ignore (UpdateOutboundCampaignStep s)
  | DeleteStep id => DeleteOutboundCampaignStep id
  | DeleteSteps id => DeleteOutboundCampaignSteps id
  | ReorderSteps id l => ReorderOutboundCampaignSteps id l
  | Enroll e => ignore (UpsertOutboundEnrollment e)
  | Suppress s => ignore (UpsertOutboundSuppression s)
  | Unsuppress u id => DeleteOutboundSuppression u id
  | Note v => ignore (AppendOutboundEvent v)
  end.

Fixpoint serve_all (rs : list OutboundRequest) : ODB unit :=
  match rs with
  | [] => ret tt
  | r :: rest => do! ignore (serve r) in serve_all rest
  end.

(** The suppressions a request stores are allowed, and one it deletes may go. *)
Definition admitted (r : OutboundRequest) : Prop :=
  match r with
  | ReplyOps u _ action scopeValue until =>
      forall c e s, ops_suppression u c (fold_trim action) scopeValue until e = Some s -> allowed s
  | Suppress s => allowed s
  | Unsuppress u id => spec R 0 anydb (DeleteOutboundSuppression u id) any
  | _ => True
  end.

Lemma keep_serve r : admitted r -> spec R 0 anydb (serve r) any.
Proof.
  intros H. destruct r; simpl in *;
    eauto using keep_due, keep_message, keep_manual, keep_action, tr_suppression with despatch.
  all: apply spec_ignore; eauto using keep_launch, keep_playbook, tr_suppression with despatch.
Qed.

Lemma keep_serve_all rs w : Forall admitted rs -> R (w_db w) (w_db (snd (serve_all rs w))).
Proof.
  intros Hrs. assert (H : spec R 0 anydb (serve_all rs) any).
  { induction Hrs as [|r rs Hr _ IH]; simpl; [by apply spec_ret|]. apply spec_seq; [|done].
    by apply spec_ignore, keep_serve. }
  destruct (H w (Nat.le_0_l _) I) as (_ & Hs & _). by apply (rtc_collapse R) in Hs.
Qed.
End Keeping.

(** ** Types stay *)

#[export] Instance types_kept : TableRelation keeps_types (fun _ => True).
Proof.
  split; try done; eauto with despatch.
  - apply _.
  - intros d d' H Ht. destruct H as (_ & Hc & Hs & He & Hv & Hr & Hb & Hp).
    destruct Ht. by split; rewrite ?Hc, ?Hs, ?He, ?Hv, ?Hr, ?Hb, ?Hp.
  - by intros d mail [].
Qed.

(** C20. Whatever the worker, incoming mail and users ask for, in any order, under
    any driver faults and any answers of clock, random source, mail servers and
    parsers, the seven tables of campaigns stay [typed]: statuses, kinds,
    policies and outcomes are among those declared; identifiers are unique;
    a campaign has one step at a position; nobody is enrolled twice in a
    campaign, known twice to a user, or suppressed twice in the same scope. *)
Theorem outbound_tables_typed rs w : typed (w_db w) -> typed (w_db (snd (serve_all rs w))).
Proof.
  apply (keep_serve_all keeps_types (fun _ => True)).
  apply List.Forall_forall. intros r _. destruct r; try exact I; [done|]. apply types_unsuppress.
Qed.

(** ** Suppressions without an end stay *)

Section Lasting.
Context (u email campaignID : string).
Definition lasting (d d' : OutboundDB) : Prop :=
  for_good u email campaignID d -> for_good u email campaignID d'.

#[export] Instance lasting_preorder : PreOrder lasting.
Proof. split; [by intros d H|]. intros a b c H1 H2 H. by apply H2, H1. Qed.

Lemma same_suppressions d d' : o_suppressions d' = o_suppressions d -> lasting d d'.
Proof. intros H (s & Hs). exists s. by rewrite H. Qed.

Lemma lasting_still {A} (m : ODB A) : spec still 0 anydb m any -> spec lasting 0 anydb m any.
Proof. apply spec_mono. intros d d' (_ & H & _). by apply same_suppressions. Qed.
Hint Resolve lasting_still : despatch.

Lemma lasting_statement {A} (f : OutboundDB -> Res (A * OutboundDB)) :
  (forall d a d', f d = Ok (a, d') -> o_suppressions d' = o_suppressions d) ->
  spec lasting 0 anydb (statement f) any.
Proof.
  intros H. apply spec_statement. intros d a d' _ E. split; [|done].
  eapply rtc_once, same_suppressions, H, E.
Qed.

Ltac other_table :=
  unfold found_row; spec_walk; cbv zeta;
  apply lasting_statement; intros ? ? ? ?;
  repeat match goal with H : match ?x with _ => _ end = _ |- _ => destruct x; [|discriminate H] end;
  simplify_eq; reflexivity.

Lemma lasting_suppress s :
  IsZero (su_ExpiresAt s) = true -> spec lasting 0 anydb (UpsertOutboundSuppression s) any.
Proof.
  intros Hx. unfold UpsertOutboundSuppression, fresh_id. spec_walk; cbv zeta.
  - apply spec_exec_any. intros d. apply rtc_once. intros (s0 & Hin & H).
    eexists. split; [apply in_update_rows; eexists; split; [exact Hin|reflexivity]|].
    destruct (String.eqb _ _); [|exact H]. cbn. tauto.
  - apply spec_statement. intros d x d' _ E. split; [|done]. apply rtc_once. intros (s0 & Hin & H).
    match type of E with match ?i with _ => _ end = _ => destruct i as [rows|] eqn:Er; [|discriminate E] end.
    injection E as <- <-. apply insert_row_ok in Er as [-> _]. exists s0.
    split; [|exact H]. apply in_app_iff. by left.
Qed.

#[export] Instance lasting_kept : TableRelation lasting (fun s => IsZero (su_ExpiresAt s) = true).
Proof.
  split; [apply _|..].
  - intros d d' (_&_&_&_&_&_&_&H). by apply same_suppressions.
  - intros d mail. by apply same_suppressions.
  - intros c. unfold CreateOutboundCampaign, fresh_id, GetOutboundCampaignByID. other_table.
  - intros c. unfold UpdateOutboundCampaign, GetOutboundCampaignByID. other_table.
  - intros. unfold SetOutboundCampaignStatus. other_table.
  - intros s. unfold CreateOutboundCampaignStep, fresh_id, GetOutboundCampaignStepByID. other_table.
  - intros s. unfold UpdateOutboundCampaignStep, GetOutboundCampaignStepByID, update_steps_statement.
    other_table.
  - intros id. unfold DeleteOutboundCampaignStep. other_table.
  - intros id. unfold DeleteOutboundCampaignSteps. other_table.
  - intros id l. unfold ReorderOutboundCampaignSteps. apply spec_transaction. generalize 1.
    induction l as [|s l IH]; intros n; simpl; unfold update_steps_statement; other_table.
  - intros e. apply lasting_still, still_upsertEnrollment.
  - intros v. apply lasting_still, still_event.
  - intros r. apply lasting_still, still_upsertRecipient.
  - intros b. apply lasting_still, still_upsertBinding.
  - exact lasting_suppress.
  - done.
Qed.

(** The requests that neither delete a suppression nor store one with an end. *)
Definition lifts_nothing (r : OutboundRequest) : bool :=
  match r with
  | ReplyOps _ _ action _ until =>
      negb (is_one_of ["suppress_recipient"; "suppress_domain"] (fold_trim action)) || IsZero until
  | Suppress s => IsZero (su_ExpiresAt s)
  | Unsuppress _ _ => false
  | _ => true
  end.

Lemma for_good_lasts rs w :
  forallb lifts_nothing rs = true -> for_good u email campaignID (w_db w) ->
  for_good u email campaignID (w_db (snd (serve_all rs w))).
Proof.
  intros Hrs. apply (keep_serve_all lasting _). apply List.Forall_forall. intros r Hin.
  pose proof (proj1 (forallb_forall _ _) Hrs r Hin) as Hr. clear Hrs Hin.
  destruct r; simpl in *; try done. intros c e s. unfold ops_suppression.
  destruct (String.eqb (fold_trim action) "suppress_recipient"),
    (String.eqb (fold_trim action) "suppress_domain"); simpl in *; intros H; simplify_eq; done.
Qed.
End Lasting.

(** C19. Once a reply has been recorded as a request to unsubscribe, whatever
    failed on the way: after any later requests and runs of the worker that
    neither lift a suppression nor put an end to one, with whatever changes of
    campaigns, steps, enrollments and policies, and whatever fails, dispatching
    an enrollment of the same address in that campaign sends nothing. *)
Theorem unsubscribe_is_for_good campaign e binding indexed outcome confidence resumeAt w w1 rs e2 :
  normalizeReplyOutcome outcome = "unsubscribe_request" ->
  TrimSpace (oc_UserID campaign) = oc_UserID campaign -> trimmed_ids (w_db w) ->
  applyOutboundReplyOutcome campaign e binding indexed outcome confidence resumeAt w = (Ok tt, w1) ->
  forallb lifts_nothing rs = true ->
  let w2 := snd (serve_all rs w1) in
  oe_RecipientEmail e2 = oe_RecipientEmail e ->
  (forall c, campaign_of (w_db w2) e2 c ->
     oc_UserID c = oc_UserID campaign /\ TrimSpace (oc_ID c) = TrimSpace (oc_ID campaign)) ->
  still (w_db w2) (w_db (snd (DispatchOutboundEnrollment e2 w2))).
Proof.
  intros Ho Hu Ht Hrun Hrs w2 He Hc.
  destruct (unsubscribe_stores _ e binding indexed outcome confidence resumeAt Ho Hu w (Nat.le_0_l _) Ht)
    as (_ & _ & Hgood).
  rewrite Hrun in Hgood. cbn [fst snd] in Hgood.
  destruct (polite_dispatch e2 [e2] (or_introl eq_refl) w2 (Nat.le_0_l _) I) as (_ & Hp & _).
  eapply no_message_to_suppressed; [exact Hp| |exact Hc].
  rewrite He. by apply for_good_lasts.
Qed.
End Types.

Lemma sample_typed : typed (outbound_db "running").
Proof.
  split; unfold outbound_db;
    cbn [o_campaigns o_steps o_enrollments o_events o_recipients o_bindings o_suppressions].
  all: repeat split; try by (vm_compute; repeat constructor; intros H; repeat destruct H as [H|H];
                             try discriminate; destruct H).
  all: repeat (apply List.Forall_cons || apply List.Forall_nil); unfold binding_typed;
    repeat split; simpl; tauto.
Qed.

(** The sample's tables, after a run of the worker, an unsubscribe and a launch. *)
Lemma outbound_tables_typed_witness :
  typed (w_db (snd (serve_all [WorkerTick;
    IncomingMessage (SenderFacts.sender_account "acct-1" "user-1" "alice@work.test")
      (reply_from_carol "Please unsubscribe me."); Launch SenderFacts.sender_user "camp-1"]
    (outbound_world (outbound_db "running"))))).
Proof. exact (outbound_tables_typed _ (outbound_world (outbound_db "running")) sample_typed). Defined.

(** The campaign is paused, its steps are replaced, it is launched again, the
    worker runs, Carol is enrolled once more and another recipient suppressed. *)
Definition meanwhile : list OutboundRequest :=
  [SetCampaignStatus "user-1" "camp-1" "paused" ZeroTime ZeroTime; WorkerTick;
   Playbook SenderFacts.sender_user "camp-1" "reengage_dormant" true;
   Launch SenderFacts.sender_user "camp-1"; Enroll carol_again; WorkerTick;
   Suppress (mkSuppression "" "user-1" "recipient" "dave@corp.test" "" "asked" "manual" ZeroTime
               ZeroTime ZeroTime)].

Lemma campaigns_of_owner (d : OutboundDB) e2 (owner id : string) :
  forallb (fun c => String.eqb (oc_UserID c) owner && String.eqb (TrimSpace (oc_ID c)) id)
    (o_campaigns d) = true ->
  forall c, campaign_of d e2 c -> oc_UserID c = owner /\ TrimSpace (oc_ID c) = id.
Proof.
  intros H c [Hin _]. apply (proj1 (forallb_forall _ _) H) in Hin.
  by apply andb_true_iff in Hin as [->%String.eqb_eq ->%String.eqb_eq].
Qed.

Lemma unsubscribe_is_for_good_witness :
  let w1 := snd (carol_unsubscribes (outbound_world (outbound_db "running"))) in
  let w2 := snd (serve_all meanwhile w1) in
  fst (carol_unsubscribes (outbound_world (outbound_db "running"))) = Ok tt
  /\ still (w_db w2) (w_db (snd (DispatchOutboundEnrollment carol_again w2))).
Proof.
  split; [vm_compute; reflexivity|].
  apply (unsubscribe_is_for_good (some_campaign "camp-1" "running")
    (some_enrollment "enr-2" "carol@corp.test" "waiting_reply" "<m1@work.test>" 1) some_binding
    (reply_from_carol "Please unsubscribe me.") "unsubscribe_request" 95 ZeroTime
    (outbound_world (outbound_db "running"))
    (snd (carol_unsubscribes (outbound_world (outbound_db "running")))) meanwhile).
  - reflexivity.
  - reflexivity.
  - intros s [].
  - vm_compute. reflexivity.
  - reflexivity.
  - reflexivity.
  - apply campaigns_of_owner. vm_compute. reflexivity.
Defined.

(** Without her unsubscribe the same requests have messages sent. *)
Example others_would_be_written_to :
  let calls w := length (m_calls (o_mail (w_db (snd (DispatchOutboundEnrollment carol_again
                                                       (snd (serve_all meanwhile w))))))) in
  let w := outbound_world (outbound_db "running") in
  (0 < calls w)%nat /\ calls (snd (carol_unsubscribes w)) = 0%nat.
Proof. vm_compute. split; [repeat constructor|reflexivity]. Qed.
