(* ===== verification/FileSystem.v ===== *)
(** * FileSystem: what the program uses of package os and path/filepath

    A file system is a list of entries by path; a path is the list of its
    components, so [filepath.Join] and [filepath.Clean] act on lists.  Links are
    followed where they are the last component of a path.  Each system call
    either fails with a number and changes nothing, or does what it says at
    once; time stamps are not kept. *)

From S2P Require Import Prelude GoStrings Effects GoStd GoText.
Local Open Scope Z_scope.

(** ** Paths *)

Notation Path := (list string).

Definition slash : Ascii.ascii := ascii_of 47.

(** One component more, on an absolute path. *)
Definition step_path (p : Path) (c : string) : Path :=
  if String.eqb c "" || String.eqb c "." then p
  else if String.eqb c ".." then removelast p else p ++ [c].

(** [filepath.Join] of an absolute path and a name. *)
Definition join (p : Path) (name : string) : Path := fold_left step_path (Split name slash) p.

Definition path_text (p : Path) : string := "/" +:+ Join "/" p.

(** The components [filepath.Clean] leaves of a relative path. *)
Definition step_relative (p : Path) (c : string) : Path :=
  if String.eqb c "" || String.eqb c "." then p
  else if String.eqb c ".." then
    match rev p with
    | d :: _ => if String.eqb d ".." then p ++ [".."] else removelast p
    | [] => [".."]
    end
  else p ++ [c].

(** [filepath.Clean] *)
Definition Clean (s : string) : string :=
  if HasPrefix s "/" then path_text (join [] s)
  else match fold_left step_relative (Split s slash) [] with
       | [] => "."
       | p => Join "/" p
       end.

(** What follows the directory in the path. *)
Fixpoint strip (d p : Path) : option Path :=
  match d, p with
  | [], _ => Some p
  | a :: d', b :: p' => if String.eqb a b then strip d' p' else None
  | _ :: _, [] => None
  end.

Definition under (d p : Path) : bool := match strip d p with Some _ => true | None => false end.

(** Neither lies in the other. *)
Definition apart (p q : Path) : bool := negb (under p q) && negb (under q p).

Definition path_eqb (p q : Path) : bool := bool_decide (p = q).

Fixpoint path_leb (p q : Path) : bool :=
  match p, q with
  | [], _ => true
  | _ :: _, [] => false
  | a :: p', b :: q' =>
      match String.compare a b with Lt => true | Gt => false | Eq => path_leb p' q' end
  end.

(** ** Entries *)

Inductive Kind : Type := KFile (data : string) | KDir | KLink (target : Path).

Record Entry : Type := mkEntry { e_kind : Kind; e_mode : Z; e_uid : Z; e_gid : Z }.
#[export] Instance eta_Entry : Eta Entry := fun e => mkEntry (e_kind e) (e_mode e) (e_uid e) (e_gid e).

#[export] Instance Kind_eq_dec : EqDecision Kind.
Proof. solve_decision. Defined.
#[export] Instance Entry_eq_dec : EqDecision Entry.
Proof. solve_decision. Defined.

Definition is_dir (e : Entry) : bool := match e_kind e with KDir => true | _ => false end.
Definition is_link (e : Entry) : bool := match e_kind e with KLink _ => true | _ => false end.
Definition is_file (e : Entry) : bool := match e_kind e with KFile _ => true | _ => false end.

(** The newest entry of a path counts. *)
Definition FS : Type := list (Path * Entry).

Fixpoint find_path (fs : FS) (p : Path) : option Entry :=
  match fs with
  | [] => None
  | (q, e) :: fs' => if path_eqb q p then Some e else find_path fs' p
  end.

(** The root is always there. *)
Definition lookup_path (fs : FS) (p : Path) : option Entry :=
  match p with [] => Some (mkEntry KDir 493 0 0) | _ => find_path fs p end.

Definition put (p : Path) (e : Entry) (fs : FS) : FS :=
  (p, e) :: List.filter (fun qe => negb (path_eqb (fst qe) p)) fs.

Definition drop_tree (p : Path) (fs : FS) : FS := List.filter (fun qe => negb (under p (fst qe))) fs.

(** The entries below a path under their paths below another. *)
Definition move_path (src dst p : Path) : Path :=
  match strip src p with Some rest => dst ++ rest | None => p end.
Definition move_tree (src dst : Path) (fs : FS) : FS :=
  map (fun qe => (move_path src dst (fst qe), snd qe)) (drop_tree dst fs).

(** At most forty links in a row. *)
Fixpoint follow_links (fuel : nat) (fs : FS) (p : Path) : option Path :=
  match lookup_path fs p with
  | Some (mkEntry (KLink target) _ _ _) =>
      match fuel with O => None | S n => follow_links n fs target end
  | _ => Some p
  end.
Definition follow (fs : FS) (p : Path) : option Path := follow_links 40 fs p.

Definition parent (p : Path) : Path := removelast p.

(** The number for a path that is not there: [ENOTDIR] when an ancestor is no
    directory. *)
Fixpoint blocked (fs : FS) (done rest : Path) : bool :=
  match rest with
  | [] | [_] => false
  | c :: rest' =>
      match lookup_path fs (done ++ [c]) with
      | Some e => negb (is_dir e || is_link e) || blocked fs (done ++ [c]) rest'
      | None => false
      end
  end.
Definition missing (fs : FS) (p : Path) : Errno := if blocked fs [] p then ENOTDIR else ENOENT.

Definition os_error {A} (call : string) (p : Path) (e : Errno) : Res A :=
  Fail (ErrOS (call +:+ " " +:+ path_text p) e).

(** ** System calls *)

Definition Lstat (p : Path) (fs : FS) : Res Entry :=
  match lookup_path fs p with
  | Some e => Ok e
  | None => os_error "lstat" p (missing fs p)
  end.

Definition Stat (p : Path) (fs : FS) : Res Entry :=
  match follow fs p with
  | None => os_error "stat" p ELOOP
  | Some q => match lookup_path fs q with Some e => Ok e | None => os_error "stat" p (missing fs q) end
  end.

Definition umask : Z := 18.   (* 0022, systemd's default *)
Definition masked (mode : Z) : Z := Z.land (Z.land mode 511) (Z.lnot umask).

(** [os.MkdirAll]: the directories that are missing, outermost first. *)
Fixpoint make_dirs (uid gid mode : Z) (done rest : Path) (fs : FS) : Res FS :=
  match rest with
  | [] => Ok fs
  | c :: rest' =>
      let p := done ++ [c] in
      match Stat p fs with
      | Ok e => if is_dir e then make_dirs uid gid mode p rest' fs else os_error "mkdir" p ENOTDIR
      | Fail _ => make_dirs uid gid mode p rest' (put p (mkEntry KDir (masked mode) uid gid) fs)
      end
  end.
Definition MkdirAll (uid gid : Z) (p : Path) (mode : Z) (fs : FS) : Res FS := make_dirs uid gid mode [] p fs.

(** [os.OpenFile] for writing: what the path leads to is emptied or created. *)
Definition open_write (uid gid : Z) (p : Path) (data : string) (mode : Z) (excl : bool) (fs : FS) : Res FS :=
  if excl && match lookup_path fs p with Some _ => true | None => false end
  then os_error "open" p EEXIST
  else match follow fs p with
       | None => os_error "open" p ELOOP
       | Some q =>
           match lookup_path fs q with
           | Some e => if is_dir e then os_error "open" p EISDIR
                       else Ok (put q (e <| e_kind := KFile data |>) fs)
           | None =>
               match Stat (parent q) fs with
               | Ok e => if is_dir e then Ok (put q (mkEntry (KFile data) (masked mode) uid gid) fs)
                         else os_error "open" p ENOTDIR
               | Fail _ => os_error "open" p (missing fs q)
               end
           end
       end.

(** [os.ReadFile] *)
Definition read_file (p : Path) (fs : FS) : Res string :=
  match Stat p fs with
  | Ok (mkEntry (KFile data) _ _ _) => Ok data
  | Ok _ => os_error "read" p EISDIR
  | Fail (ErrOS _ e) => os_error "open" p e
  | Fail e => Fail e
  end.

Definition has_children (p : Path) (fs : FS) : bool :=
  existsb (fun qe => under p (fst qe) && negb (path_eqb (fst qe) p)) fs.

Definition Remove (p : Path) (fs : FS) : Res FS :=
  match lookup_path fs p with
  | None => os_error "remove" p (missing fs p)
  | Some e => if has_children p fs then os_error "remove" p ENOTEMPTY else Ok (drop_tree p fs)
  end.

(** A path that is not there is no error. *)
Definition RemoveAll (p : Path) (fs : FS) : Res FS := Ok (drop_tree p fs).

Definition rename_error (src dst : Path) (e : Errno) : Res FS :=
  Fail (ErrOS ("rename " +:+ path_text src +:+ " " +:+ path_text dst) e).

(** Go does not rename onto a directory. *)
Definition Rename (src dst : Path) (fs : FS) : Res FS :=
  match lookup_path fs src with
  | None => rename_error src dst (missing fs src)
  | Some e =>
      match lookup_path fs dst with
      | Some d =>
          if path_eqb src dst then Ok fs
          else if is_dir d then rename_error src dst EEXIST
          else if is_dir e then rename_error src dst ENOTDIR
          else Ok (move_tree src dst fs)
      | None =>
          if under src dst then rename_error src dst EINVAL
          else match lookup_path fs (parent dst) with
               | Some d => if is_dir d then Ok (move_tree src dst fs) else rename_error src dst ENOTDIR
               | None => rename_error src dst (missing fs dst)
               end
      end
  end.

Definition change (call : string) (p : Path) (f : Entry -> Entry) (fs : FS) : Res FS :=
  match follow fs p with
  | None => os_error call p ELOOP
  | Some q => match lookup_path fs q with
              | Some e => Ok (put q (f e) fs)
              | None => os_error call p (missing fs q)
              end
  end.
Definition Chmod (p : Path) (mode : Z) : FS -> Res FS := change "chmod" p (fun e => e <| e_mode := mode |>).
(** A uid of -1 is left alone. *)
Definition Chown (p : Path) (uid gid : Z) : FS -> Res FS :=
  change "chown" p (fun e => e <| e_uid := if uid =? -1 then e_uid e else uid |> <| e_gid := gid |>).

(** The names and entries of a directory, by name. *)
Fixpoint insert_entry (qe : Path * Entry) (l : FS) : FS :=
  match l with
  | [] => [qe]
  | qe' :: l' => if path_eqb (fst qe) (fst qe') then l
                 else if path_leb (fst qe) (fst qe') then qe :: l else qe' :: insert_entry qe l'
  end.
Definition sorted_entries (l : FS) : FS := fold_left (fun acc qe => insert_entry qe acc) l [].

(** A directory lists names only: no slash, not the directory itself or its
    parent. *)
Definition valid_name (name : string) : bool :=
  bool_decide (free_of slash name) && negb (existsb (String.eqb name) [""; "."; ".."]).
Definition child (p q : Path) : option string :=
  match strip p q with Some [name] => if valid_name name then Some name else None | _ => None end.

Definition ReadDir (p : Path) (fs : FS) : Res (list (string * Entry)) :=
  match Stat p fs with
  | Fail (ErrOS _ e) => os_error "open" p e
  | Fail e => Fail e
  | Ok e =>
      if is_dir e then
        Ok (flat_map (fun qe => match child (default p (follow fs p)) (fst qe) with
                                | Some name => [(name, snd qe)] | None => [] end)
              (sorted_entries fs))
      else os_error "readdirent" p ENOTDIR
  end.

(** What [filepath.WalkDir] visits: the root and all below it, in order. *)
Definition walk (p : Path) (fs : FS) : FS :=
  match lookup_path fs p with
  | Some e => if is_dir e then sorted_entries (List.filter (fun qe => under p (fst qe)) fs) else [(p, e)]
  | None => []
  end.

(** ** Laws *)

Lemma path_eqb_refl p : path_eqb p p = true.
Proof. by apply bool_decide_eq_true_2. Qed.
Lemma path_eqb_eq p q : path_eqb p q = true <-> p = q.
Proof. apply bool_decide_eq_true. Qed.
Lemma path_eqb_neq p q : path_eqb p q = false <-> p <> q.
Proof. apply bool_decide_eq_false. Qed.

Lemma strip_app d r : strip d (d ++ r) = Some r.
Proof. induction d as [|a d IH]; simpl; [done|]. by rewrite String.eqb_refl. Qed.

Lemma strip_some d p r : strip d p = Some r <-> p = d ++ r.
Proof.
  split; [|intros ->; apply strip_app]. revert p.
  induction d as [|a d IH]; intros p; simpl; [by intros [= ->]|].
  destruct p as [|b p]; [done|]. destruct (String.eqb_spec a b) as [->|]; [|done].
  intros H. f_equal. by apply IH.
Qed.

Lemma under_app d r : under d (d ++ r) = true.
Proof. unfold under. by rewrite strip_app. Qed.

Lemma under_iff d p : under d p = true <-> exists r, p = d ++ r.
Proof.
  unfold under. split.
  - destruct (strip d p) as [r|] eqn:E; [|done]. apply strip_some in E. eauto.
  - intros [r ->]. by rewrite strip_app.
Qed.

Lemma under_refl p : under p p = true.
Proof. apply under_iff. exists []. by rewrite app_nil_r. Qed.

Lemma under_trans a b c : under a b = true -> under b c = true -> under a c = true.
Proof. rewrite !under_iff. intros [r ->] [s ->]. exists (r ++ s). by rewrite app_assoc. Qed.

(** Two directories of one path are nested. *)
Lemma under_chain a b c : under a c = true -> under b c = true -> under a b = true \/ under b a = true.
Proof.
  rewrite !under_iff. intros [r ->] [s H]. revert b r s H.
  induction a as [|x a IH]; intros b r s H; [left; by exists b|].
  destruct b as [|y b]; [right; by exists (x :: a)|]. simpl in H. injection H as -> H.
  destruct (IH b r s H) as [[t ->]|[t ->]]; [left|right]; by exists t.
Qed.

Lemma apart_sym p q : apart p q = apart q p.
Proof. unfold apart. apply andb_comm. Qed.

Lemma apart_below p q r : apart p q = true -> under p (q ++ r) = false.
Proof.
  unfold apart. rewrite andb_true_iff, !negb_true_iff. intros [H1 H2].
  destruct (under p (q ++ r)) eqn:E; [|done].
  destruct (under_chain p q (q ++ r) E (under_app q r)); congruence.
Qed.

Lemma apart_root p q : apart p q = true -> p <> [].
Proof. intros H ->. unfold apart in H. simpl in H. done. Qed.

(** The tree below a path, entry by entry. *)
Definition below (fs : FS) (d : Path) (r : Path) : option Entry := lookup_path fs (d ++ r).

Lemma lookup_find fs p : p <> [] -> lookup_path fs p = find_path fs p.
Proof. by destruct p. Qed.

Lemma find_path_filter (P : Path -> bool) fs p :
  find_path (List.filter (fun qe => P (fst qe)) fs) p = if P p then find_path fs p else None.
Proof.
  induction fs as [|[q e] fs IH]; simpl; [by destruct (P p)|].
  destruct (P q) eqn:Eq; simpl; rewrite ?IH; destruct (path_eqb q p) eqn:E; try done;
    apply path_eqb_eq in E; subst q; by rewrite Eq.
Qed.

Lemma find_put p e fs q : find_path (put p e fs) q = if path_eqb p q then Some e else find_path fs q.
Proof.
  unfold put. simpl. destruct (path_eqb p q) eqn:E; [done|].
  rewrite (find_path_filter (fun q => negb (path_eqb q p))).
  destruct (path_eqb q p) eqn:E'; [|done]. apply path_eqb_eq in E'. apply path_eqb_neq in E. congruence.
Qed.

Lemma lookup_put p e fs q : p <> [] -> q <> [] ->
  lookup_path (put p e fs) q = if path_eqb p q then Some e else lookup_path fs q.
Proof. intros Hp Hq. rewrite !lookup_find by done. apply find_put. Qed.

Lemma find_drop_tree p fs q :
  find_path (drop_tree p fs) q = if under p q then None else find_path fs q.
Proof.
  unfold drop_tree. rewrite (find_path_filter (fun q => negb (under p q))). by destruct (under p q).
Qed.

Lemma find_move_tree src dst fs q :
  under src dst = false ->
  find_path (move_tree src dst fs) q =
  match strip dst q with
  | Some r => if under dst (src ++ r) then None else find_path fs (src ++ r)
  | None => if under src q then None else find_path fs q
  end.
Proof.
  intros Hsd. unfold move_tree.
  assert (Hf : forall l, (forall qe, In qe l -> under dst (fst qe) = false) ->
    find_path (map (fun qe => (move_path src dst (fst qe), snd qe)) l) q =
    match strip dst q with
    | Some r => find_path l (src ++ r)
    | None => if under src q then None else find_path l q
    end).
  { induction l as [|[p e] l IH]; intros Hl; simpl; [by destruct (strip dst q), (under src q)|].
    rewrite IH by (intros qe Hin; apply Hl; by right).
    specialize (Hl (p, e) (or_introl eq_refl)). simpl in Hl. unfold move_path.
    destruct (strip src p) as [s|] eqn:Es.
    - apply strip_some in Es as ->. destruct (strip dst q) as [r|] eqn:Ed.
      + apply strip_some in Ed as ->.
        destruct (path_eqb (dst ++ s) (dst ++ r)) eqn:E; destruct (path_eqb (src ++ s) (src ++ r)) eqn:E';
          try done; rewrite ?path_eqb_eq, ?path_eqb_neq in *; [|].
        * apply app_inv_head in E as ->. done.
        * apply app_inv_head in E' as ->. done.
      + destruct (path_eqb (dst ++ s) q) eqn:E.
        { apply path_eqb_eq in E as <-. by rewrite strip_app in Ed. }
        destruct (path_eqb (src ++ s) q) eqn:E'; [|done].
        apply path_eqb_eq in E' as <-. by rewrite under_app.
    - assert (Hp : under src p = false) by (unfold under; by rewrite Es).
      destruct (strip dst q) as [r|] eqn:Ed.
      + apply strip_some in Ed as ->.
        destruct (path_eqb p (dst ++ r)) eqn:E.
        { apply path_eqb_eq in E as ->. by rewrite under_app in Hl. }
        destruct (path_eqb p (src ++ r)) eqn:E'; [|done].
        apply path_eqb_eq in E' as ->. by rewrite under_app in Hp.
      + destruct (under src q) eqn:Eq; destruct (path_eqb p q) eqn:E; try done.
        apply path_eqb_eq in E as ->. congruence. }
  rewrite Hf.
  - destruct (strip dst q) as [r|] eqn:Ed; rewrite !find_drop_tree; [done|].
    assert (Hq : under dst q = false) by (unfold under; by rewrite Ed). by rewrite Hq.
  - intros qe Hin. unfold drop_tree in Hin. apply filter_In in Hin as [_ H]. by apply negb_true_iff in H.
Qed.

(** A tree that is removed or moved, and one that is elsewhere. *)
Lemma below_drop p fs r : p <> [] -> below (drop_tree p fs) p r = None.
Proof.
  intros Hp. unfold below. rewrite lookup_find by (by destruct p).
  by rewrite find_drop_tree, under_app.
Qed.

Lemma below_drop_apart p fs q r : apart p q = true -> below (drop_tree p fs) q r = below fs q r.
Proof.
  intros H. unfold below. assert (q <> []) by (rewrite apart_sym in H; by eapply apart_root).
  rewrite !lookup_find by (by destruct q). by rewrite find_drop_tree, apart_below.
Qed.

Lemma below_moved src dst fs r : apart src dst = true -> below (move_tree src dst fs) dst r = below fs src r.
Proof.
  intros H. assert (src <> []) by (by eapply apart_root).
  assert (dst <> []) by (rewrite apart_sym in H; by eapply apart_root).
  unfold below. rewrite !lookup_find by (by destruct src, dst).
  rewrite find_move_tree by (unfold apart in H; breflect; done).
  rewrite strip_app, apart_below; [done|by rewrite apart_sym].
Qed.

Lemma below_left src dst fs r : apart src dst = true -> below (move_tree src dst fs) src r = None.
Proof.
  intros H. assert (src <> []) by (by eapply apart_root).
  unfold below. rewrite lookup_find by (by destruct src).
  rewrite find_move_tree by (unfold apart in H; breflect; done).
  assert (Hu : under dst (src ++ r) = false) by (apply apart_below; by rewrite apart_sym).
  unfold under in Hu. destruct (strip dst (src ++ r)); [done|]. by rewrite under_app.
Qed.

Lemma below_moved_apart src dst fs q r :
  under src dst = false -> apart src q = true -> apart dst q = true ->
  below (move_tree src dst fs) q r = below fs q r.
Proof.
  intros Hsd Hs Hd. assert (q <> []) by (rewrite apart_sym in Hd; by eapply apart_root).
  unfold below. rewrite !lookup_find by (by destruct q).
  rewrite find_move_tree by done.
  pose proof (apart_below dst q r Hd) as Hu. unfold under in Hu. destruct (strip dst (q ++ r)); [done|].
  by rewrite apart_below.
Qed.

Lemma below_put_apart p e fs q r : under q p = false -> p <> [] -> q <> [] -> below (put p e fs) q r = below fs q r.
Proof.
  intros H Hp Hq. unfold below. rewrite !lookup_find by (by destruct q). rewrite find_put.
  destruct (path_eqb p (q ++ r)) eqn:E; [|done]. apply path_eqb_eq in E as ->. by rewrite under_app in H.
Qed.

(** ** Texts of paths *)

Lemma split_free l : ~ In slash l -> split_ascii slash l = [l].
Proof.
  induction l as [|a l IH]; simpl; intros H; [done|].
  destruct (Ascii.eqb_spec a slash) as [->|]; [exfalso; apply H; by left|].
  rewrite IH; [done|]. intros Hin. apply H. by right.
Qed.

Lemma split_glue l k : ~ In slash l -> split_ascii slash (l ++ slash :: k) = l :: split_ascii slash k.
Proof.
  induction l as [|a l IH]; intros H.
  - reflexivity.
  - cbn [app split_ascii]. destruct (Ascii.eqb_spec a slash) as [->|]; [exfalso; apply H; by left|].
    rewrite IH; [done|]. intros Hin. apply H. by right.
Qed.

Lemma Split_free s : free_of slash s -> Split s slash = [s].
Proof.
  intros H. unfold Split. rewrite split_free by done. simpl.
  by rewrite String.string_of_list_ascii_of_string.
Qed.

Lemma split_parts_free l w : In w (split_ascii slash l) -> ~ In slash w.
Proof.
  revert w. induction l as [|a l IH]; cbn [split_ascii]; intros w; [by intros [<-|[]] []|].
  destruct (Ascii.eqb_spec a slash) as [->|Hne].
  { intros [<-|Hin]; [by intros []|by apply IH]. }
  destruct (split_ascii slash l) as [|w' ws].
  - intros [<-|[]]. by intros [|[]].
  - intros [<-|Hin]; [|apply IH; by right]. intros [|Hin]; [done|]. by apply (IH w' (or_introl eq_refl)).
Qed.

Lemma Split_parts_free s c : In c (Split s slash) -> free_of slash c.
Proof.
  unfold Split, free_of. rewrite in_map_iff. intros (w & <- & Hin).
  rewrite String.list_ascii_of_string_of_list_ascii. by eapply split_parts_free.
Qed.

Lemma Split_Join p : p <> [] -> Forall (free_of slash) p -> Split (Join "/" p) slash = p.
Proof.
  intros Hne. destruct p as [|c p]; [done|]. clear Hne. revert c.
  induction p as [|d p IH]; intros c Hf; inversion_clear Hf as [|? ? Hc Hp].
  - by apply Split_free.
  - change (Join "/" (c :: d :: p)) with (c +:+ String slash (Join "/" (d :: p))).
    unfold Split. rewrite list_ascii_of_app. cbn [String.list_ascii_of_string].
    rewrite split_glue by done. cbn [map]. rewrite String.string_of_list_ascii_of_string.
    f_equal. apply IH. done.
Qed.

Definition plain (c : string) : bool := negb (String.eqb c "..").

Lemma fold_plain l p : forallb plain l = true -> exists r, fold_left step_path l p = p ++ r.
Proof.
  revert p. induction l as [|c l IH]; intros p; simpl; [exists []; by rewrite app_nil_r|].
  intros H. apply andb_true_iff in H as [Hc Hl]. unfold plain in Hc. apply negb_true_iff in Hc.
  unfold step_path at 2. destruct (String.eqb c "" || String.eqb c "."); [by apply IH|]. rewrite Hc.
  destruct (IH (p ++ [c]) Hl) as [r ->]. exists (c :: r). by rewrite <- app_assoc.
Qed.

Lemma join_valid p name : valid_name name = true -> join p name = p ++ [name].
Proof.
  unfold valid_name, join. intros H. apply andb_true_iff in H as [Hf Hn]. apply bool_decide_eq_true_1 in Hf.
  rewrite Split_free by done. cbn [fold_left]. unfold step_path. simpl in Hn.
  destruct (String.eqb name ""); [done|]. destruct (String.eqb name "."); [done|].
  by destruct (String.eqb name "..").
Qed.

(** The components that [Clean] keeps: [..] only in front. *)
Lemma step_relative_shape p c :
  (exists n r, p = repeat ".." n ++ r /\ forallb plain r = true /\ Forall (free_of slash) r) ->
  free_of slash c ->
  exists n r, step_relative p c = repeat ".." n ++ r /\ forallb plain r = true /\ Forall (free_of slash) r.
Proof.
  intros (n & r & -> & Hr & Hf) Hc. unfold step_relative.
  destruct (String.eqb c "" || String.eqb c "."); [by exists n, r|].
  destruct (String.eqb_spec c "..") as [->|Hne].
  - destruct r as [|d r'] using rev_ind.
    + rewrite app_nil_r. destruct n as [|n]; [by exists 1%nat, []|].
      assert (Hsnoc : repeat ".." (S n) = repeat ".." n ++ [".."]) by (simpl; apply repeat_cons).
      rewrite Hsnoc, rev_app_distr. cbn [rev app]. rewrite String.eqb_refl, <- Hsnoc.
      exists (S (S n)), []. rewrite app_nil_r. split_and!; [|done|done]. symmetry. apply repeat_cons.
    + clear IHr'. rewrite forallb_app in Hr. apply andb_true_iff in Hr as [Hr Hd]. simpl in Hd.
      rewrite andb_true_r in Hd. apply Forall_app in Hf as [Hf _].
      rewrite app_assoc, rev_app_distr. simpl. unfold plain in Hd. apply negb_true_iff in Hd. rewrite Hd.
      rewrite removelast_last. by exists n, r'.
  - exists n, (r ++ [c]). split_and!; [by rewrite app_assoc|..].
    + rewrite forallb_app, Hr. simpl. unfold plain. rewrite andb_true_r. apply negb_true_iff.
      by apply String.eqb_neq.
    + apply Forall_app. by repeat constructor.
Qed.

Lemma fold_relative_shape l p :
  (exists n r, p = repeat ".." n ++ r /\ forallb plain r = true /\ Forall (free_of slash) r) ->
  Forall (free_of slash) l ->
  exists n r, fold_left step_relative l p = repeat ".." n ++ r /\ forallb plain r = true /\ Forall (free_of slash) r.
Proof.
  revert p. induction l as [|c l IH]; intros p Hp Hl; [done|]. inversion_clear Hl. simpl.
  apply IH; [|done]. by apply step_relative_shape.
Qed.

Lemma step_path_plain p c : Forall (free_of slash) p -> forallb plain p = true -> free_of slash c ->
  Forall (free_of slash) (step_path p c) /\ forallb plain (step_path p c) = true.
Proof.
  intros Hp Hq Hc. unfold step_path. destruct (String.eqb c "" || String.eqb c "."); [done|].
  destruct (String.eqb_spec c "..").
  - destruct p as [|d p] using rev_ind; [done|]. rewrite removelast_last.
    rewrite forallb_app in Hq. apply andb_true_iff in Hq as [? _]. apply Forall_app in Hp as [? _]. done.
  - rewrite forallb_app, Hq. simpl. unfold plain at 1. split; [apply Forall_app; by repeat constructor|].
    rewrite andb_true_r. apply negb_true_iff. by apply String.eqb_neq.
Qed.

Lemma fold_path_plain l p : Forall (free_of slash) p -> forallb plain p = true -> Forall (free_of slash) l ->
  Forall (free_of slash) (fold_left step_path l p) /\ forallb plain (fold_left step_path l p) = true.
Proof.
  revert p. induction l as [|c l IH]; intros p Hp Hq Hl; [done|]. inversion_clear Hl. simpl.
  destruct (step_path_plain p c) as [? ?]; [done..|]. by apply IH.
Qed.

Lemma Split_all_free s : Forall (free_of slash) (Split s slash).
Proof. apply List.Forall_forall. intros c. apply Split_parts_free. Qed.

(** A cleaned path that does not begin with [..] joins below. *)
Lemma join_clean_under dest s :
  HasPrefix (Clean s) ".." = false -> exists r, join dest (Clean s) = dest ++ r.
Proof.
  unfold Clean. destruct (HasPrefix s "/").
  - intros _. unfold join at 1, path_text.
    destruct (fold_path_plain (Split s slash) []) as [Hf Hp]; [done|done|apply Split_all_free|].
    fold (join [] s) in Hf, Hp. set (q := join [] s) in *. clearbody q.
    change ("/" +:+ Join "/" q) with ("" +:+ String slash (Join "/" q)).
    unfold Split. rewrite list_ascii_of_app. cbn [String.list_ascii_of_string app].
    change (split_ascii slash (slash :: String.list_ascii_of_string (Join "/" q)))
      with (split_ascii slash ([] ++ slash :: String.list_ascii_of_string (Join "/" q))).
    rewrite split_glue by (by intros []).
    change (map String.string_of_list_ascii ([] :: split_ascii slash (String.list_ascii_of_string (Join "/" q))))
      with ("" :: Split (Join "/" q) slash).
    destruct q as [|c q]; [by exists []; rewrite app_nil_r|].
    rewrite Split_Join by done. apply fold_plain. done.
  - destruct (fold_relative_shape (Split s slash) []) as (n & r & -> & Hr & Hf);
      [by exists 0%nat, []|apply Split_all_free|].
    destruct n as [|n].
    + simpl repeat. rewrite app_nil_l. destruct r as [|c r]; [by exists []; rewrite app_nil_r|].
      intros _. unfold join. rewrite Split_Join by done. by apply fold_plain.
    + simpl repeat. cbn [app]. intros H. exfalso.
      destruct (repeat ".." n ++ r) as [|d l]; [done|].
      change (Join "/" (".." :: d :: l)) with (".." +:+ ("/" +:+ Join "/" (d :: l))) in H.
      by rewrite HasPrefix_app in H.
Qed.

Example fs_ex :
  let fs := put ["opt"; "web"; "a.js"] (mkEntry (KFile "1") 420 0 0)
              (put ["opt"; "web"] (mkEntry KDir 493 0 0) (put ["opt"] (mkEntry KDir 493 0 0) [])) in
  match Rename ["opt"; "web"] ["opt"; ".prev"] fs with
  | Ok fs' => (read_file ["opt"; ".prev"; "a.js"] fs', is_ok (Stat ["opt"; "web"] fs'),
               map fst (walk ["opt"] fs'))
  | Fail _ => (Ok "", true, [])
  end = (Ok "1", false, [["opt"]; ["opt"; ".prev"]; ["opt"; ".prev"; "a.js"]]).
Proof. vm_compute. reflexivity. Qed.

Example clean_ex : map Clean ["a/../b//c/."; "../x"; ""; "/../a"; "a/../../b"; "./"]
  = ["b/c"; "../x"; "."; "/a"; "../b"; "."].
Proof. vm_compute. reflexivity. Qed.
