(* ===== verification/GoTime.v ===== *)
(** * GoTime: dates there and back

    [time.Parse] of RFC 3339 as encoding/json reads a [time.Time], and that it
    reads back the instants [time.RFC3339Nano] writes: the calendar's cycle of
    400 years is checked year by year and day by day of a year. *)

From S2P Require Import Prelude GoStrings Effects GoStd GoText Json GoFmt.
Local Open Scope Z_scope.

(** ** The calendar *)

(** The first day of a year of the cycle, which begins in March. *)
Definition year_start (y : Z) : Z := 365 * y + y / 4 - y / 100.

(** The year a day of the cycle falls in, as [civil_date] computes it. *)
Definition scaled (doe : Z) : Z := doe - doe / 1460 + doe / 36524 - doe / 146096.
Definition year_of (doe : Z) : Z := scaled doe / 365.

Lemma scaled_step d : 0 <= d < 146096 -> scaled d <= scaled (d + 1).
Proof. unfold scaled. intros H. Z.to_euclidean_division_equations. lia. Qed.


Lemma scaled_mono a n : 0 <= a -> a + Z.of_nat n < 146097 -> scaled a <= scaled (a + Z.of_nat n).
Proof.
  intros Ha. induction n as [|n IH]; intros Hn; [by rewrite Z.add_0_r|].
  replace (a + Z.of_nat (S n)) with (a + Z.of_nat n + 1) by lia.
  etrans; [apply IH; lia|]. apply scaled_step. lia.
Qed.

Lemma year_of_mono a b : 0 <= a <= b -> b < 146097 -> year_of a <= year_of b.
Proof.
  intros H Hb. apply Z.div_le_mono; [lia|].
  replace b with (a + Z.of_nat (Z.to_nat (b - a))) by lia. apply scaled_mono; lia.
Qed.

(** The facts about each year: its first and last day fall in it, and it has
    366 days when the February it ends with has 29. *)
Definition leap (y : Z) : bool := (y mod 4 =? 0) && (negb (y mod 100 =? 0) || (y mod 400 =? 0)).
Definition year_length (y : Z) : Z := year_start (y + 1) - year_start y + (if y =? 399 then 1 else 0).

Definition year_ok (y : Z) : bool :=
  (year_of (year_start y) =? y) && (year_of (year_start y + year_length y - 1) =? y)
  && (year_length y =? (if leap (y + 1) then 366 else 365)).

Lemma years_ok : forallb year_ok (map Z.of_nat (seq 0 400)) = true.
Proof. vm_compute. reflexivity. Qed.

Lemma year_facts y : 0 <= y < 400 ->
  year_of (year_start y) = y /\ year_of (year_start y + year_length y - 1) = y
  /\ year_length y = (if leap (y + 1) then 366 else 365).
Proof.
  intros H. pose proof years_ok as Hok. rewrite forallb_forall in Hok.
  specialize (Hok y). unfold year_ok in Hok.
  rewrite !andb_true_iff, !Z.eqb_eq in Hok. destruct Hok as [[? ?] ?]; [|done].
  apply in_map_iff. exists (Z.to_nat y). rewrite in_seq. lia.
Qed.

(** Every day of the cycle falls in a year. *)
Lemma in_some_year n doe : (n < 400)%nat ->
  0 <= doe < year_start (Z.of_nat n) + year_length (Z.of_nat n) ->
  exists y, 0 <= y <= Z.of_nat n /\ year_start y <= doe < year_start y + year_length y.
Proof.
  induction n as [|n IH]; intros Hn H.
  - exists 0. split; [lia|]. exact H.
  - destruct (Z.le_gt_cases (year_start (Z.of_nat (S n))) doe) as [Hge|Hlt].
    + exists (Z.of_nat (S n)). lia.
    + destruct IH as (y & Hy & Hd); [lia| |exists y; lia].
      split; [lia|]. unfold year_length. replace (Z.of_nat (S n)) with (Z.of_nat n + 1) in Hlt by lia.
      destruct (Z.of_nat n =? 399) eqn:E; breflect; lia.
Qed.

Lemma year_of_range doe : 0 <= doe < 146097 ->
  exists y doy, year_of doe = y /\ doe = year_start y + doy /\ 0 <= y < 400
    /\ 0 <= doy < (if leap (y + 1) then 366 else 365).
Proof.
  intros H. destruct (in_some_year 399 doe) as (y & Hy & Hd).
  - lia.
  - change (year_start (Z.of_nat 399) + year_length (Z.of_nat 399)) with 146097. lia.
  - destruct (year_facts y) as (H1 & H2 & H3); [lia|].
    exists y, (doe - year_start y). rewrite <- H3. split; [|lia].
    assert (0 <= year_start y) by (unfold year_start; Z.to_euclidean_division_equations; lia).
    assert (Hb : year_start y + year_length y <= 146097).
    { rewrite H3. unfold year_start. destruct (leap (y + 1)) eqn:El; [|Z.to_euclidean_division_equations; lia].
      unfold leap in El. Z.to_euclidean_division_equations. lia. }
    pose proof (year_of_mono (year_start y) doe ltac:(lia) ltac:(lia)).
    pose proof (year_of_mono doe (year_start y + year_length y - 1) ltac:(lia) ltac:(lia)). lia.
Qed.

(** The days of a year, by month. *)
Definition month_of (doy : Z) : Z := let mp := (5 * doy + 2) / 153 in if mp <? 10 then mp + 3 else mp - 9.
Definition day_of (doy : Z) : Z := doy - (153 * ((5 * doy + 2) / 153) + 2) / 5 + 1.

Definition day_ok (doy : Z) : bool :=
  let m := month_of doy in
  let d := day_of doy in
  (1 <=? m) && (m <=? 12) && (1 <=? d)
  && (d <=? if m =? 2 then (if doy =? 365 then 29 else 28)
            else if (m =? 4) || (m =? 6) || (m =? 9) || (m =? 11) then 30 else 31)
  && ((153 * (if 2 <? m then m - 3 else m + 9) + 2) / 5 + (d - 1) =? doy)
  && (negb (doy =? 365) || (m =? 2)) && Bool.eqb (m <=? 2) (306 <=? doy).

Lemma days_ok : forallb day_ok (map Z.of_nat (seq 0 366)) = true.
Proof. vm_compute. reflexivity. Qed.

Lemma day_facts doy : 0 <= doy < 366 -> day_ok doy = true.
Proof.
  intros H. pose proof days_ok as Hok. rewrite forallb_forall in Hok. apply Hok.
  apply in_map_iff. exists (Z.to_nat doy). rewrite in_seq. lia.
Qed.

(** The date of a day is a date that exists, and leads back to the day. *)
Lemma civil_date_back days :
  let '(y, m, d) := civil_date days in
  1 <= m <= 12 /\ 1 <= d <= days_in y m /\ days_of y m d = days
  /\ (-719528 <= days < 2932897 -> 0 <= y <= 9999).
Proof.
  unfold civil_date. set (z := days + 719468). cbv zeta.
  destruct (year_of_range (z mod 146097)) as (y & doy & Hy & Hz & Hyr & Hdoy); [apply Z.mod_pos_bound; lia|].
  change ((_ - _ / 1460 + _ / 36524 - _ / 146096) / 365) with (year_of (z mod 146097)).
  rewrite Hy. replace (z mod 146097 - (365 * y + y / 4 - y / 100)) with doy
    by (rewrite Hz at 1; unfold year_start; lia).
  change (if (5 * doy + 2) / 153 <? 10 then (5 * doy + 2) / 153 + 3 else (5 * doy + 2) / 153 - 9)
    with (month_of doy).
  change (doy - (153 * ((5 * doy + 2) / 153) + 2) / 5 + 1) with (day_of doy).
  assert (Hd : day_ok doy = true) by (apply day_facts; destruct (leap (y + 1)); lia).
  unfold day_ok in Hd. rewrite !andb_true_iff in Hd.
  destruct Hd as [[[[[[H1 H2] H3] H4] H5] H6] Hm]. apply Bool.eqb_prop in Hm.
  rewrite ?Z.leb_le, ?Z.eqb_eq in *.
  generalize dependent (day_of doy). intros d H3 H4 H5.
  generalize dependent (month_of doy). intros m H1 H2 H4 H5 H6 Hm.
  set (era := z / 146097) in *.
  assert (Hz' : z = 146097 * era + year_start y + doy) by (pose proof (Z.div_mod z 146097); lia).
  split; [lia|]. split.
  - split; [lia|]. unfold days_in. destruct (Z.eqb_spec m 2) as [->|Hm2].
    + change (2 <=? 2) with true. cbv iota.
      replace (_ && _) with (leap (y + 1)); [destruct (doy =? 365) eqn:E; breflect; destruct (leap (y + 1)); lia|].
      unfold leap. replace ((y + era * 400 + 1) mod 4) with ((y + 1) mod 4).
      2: { replace (y + era * 400 + 1) with (y + 1 + era * 100 * 4) by lia. by rewrite Z.mod_add. }
      replace ((y + era * 400 + 1) mod 100) with ((y + 1) mod 100).
      2: { replace (y + era * 400 + 1) with (y + 1 + era * 4 * 100) by lia. by rewrite Z.mod_add. }
      replace ((y + era * 400 + 1) mod 400) with ((y + 1) mod 400); [done|].
      replace (y + era * 400 + 1) with (y + 1 + era * 400) by lia. by rewrite Z.mod_add.
    + done.
  - split.
    + unfold days_of.
      assert (Hy' : (if m <=? 2 then y + era * 400 + (if m <=? 2 then 1 else 0) - 1
                     else y + era * 400 + (if m <=? 2 then 1 else 0)) = y + era * 400)
        by (destruct (m <=? 2); lia).
      rewrite Hy'. rewrite Z.div_add, Z.mod_add by lia.
      rewrite Z.div_small, Z.mod_small by lia. unfold year_start in Hz'. lia.
    + intros Hr. rewrite H5.
      assert (0 <= year_start y <= 145731) by (unfold year_start; Z.to_euclidean_division_equations; lia).
      assert (Hdoy' : doy < 366) by (destruct (leap (y + 1)); lia).
      assert (-1 <= era <= 24) by lia. destruct (Z.leb_spec 306 doy).
      * assert (era = 24 -> y <> 399) by (intros -> ->; change (year_start 399) with 145731 in *; lia).
        assert (era = -1 -> y = 399); [|lia].
        intros ->. assert (145672 <= year_start y) by lia.
        unfold year_start in *. Z.to_euclidean_division_equations. lia.
      * assert (era = -1 -> False); lia.
Qed.

(** ** Reading a time *)

Definition zone_seconds (l : list Z) : Z :=
  match l with
  | [sign; h1; h2; _; m1; m2] =>
      (if sign =? 45 then -1 else 1) * (decimal [h1; h2] * 3600 + decimal [m1; m2] * 60)
  | _ => 0
  end.

(** Nanoseconds, and what follows; digits beyond the ninth are dropped. *)
Definition fraction (l : list Z) : Z * list Z :=
  match l with
  | 46 :: l' => let (ds, rest) := digit_run l' in (decimal (take 9 (ds ++ repeat 48 9)), rest)
  | _ => (0, l)
  end.

(** [time.Time.UnmarshalJSON] of the text of a string. *)
Definition parse_time (s : string) : option Z :=
  if rfc3339_ok s then
    let l := bytes s in
    let two i := decimal (take 2 (drop i l)) in
    let (ns, zone) := fraction (drop 19 l) in
    Some ((days_of (decimal (take 4 l)) (two 5%nat) (two 8%nat) * 86400 + two 11%nat * 3600
           + two 14%nat * 60 + two 17%nat - zone_seconds zone) * Second + ns)
  else None.

Example parse_time_ex :
  parse_time "2024-02-29T12:34:56Z" = Some 1709210096000000000
  /\ parse_time "2024-02-29T14:04:56.5+01:30" = Some 1709210096500000000
  /\ parse_time "2023-02-29T12:34:56Z" = None.
Proof. vm_compute. repeat split; reflexivity. Qed.

(** [time.Parse(time.RFC3339, s)] also takes one digit for the hour and a comma
    before the fraction.  (It takes an offset of 24 hours or of 60 minutes as
    well, which is not modelled.) *)
Definition lenient (l : list Z) : list Z :=
  let l := if nth 12 l 0 =? 58 then take 11 l ++ [48] ++ drop 11 l else l in
  if nth 19 l 0 =? 44 then take 19 l ++ [46] ++ drop 20 l else l.
Definition time_Parse (s : string) : option Z := parse_time (of_bytes (lenient (bytes s))).

Example time_Parse_ex :
  time_Parse "2024-02-29T2:34:56,5Z" = parse_time "2024-02-29T02:34:56.5Z"
  /\ time_Parse "2024-02-29T12:34:56Z" = parse_time "2024-02-29T12:34:56Z"
  /\ time_Parse "2024-02-29" = None.
Proof. vm_compute. repeat split; reflexivity. Qed.

(** ** What is written is read back *)

#[local] Transparent rfc3339.

Definition pair_digits (n : Z) : list Z := [48 + n / 10; 48 + n mod 10].

Lemma decimal_pair n : 0 <= n < 100 -> decimal (pair_digits n) = n.
Proof. intros. unfold decimal, pair_digits. simpl. Z.to_euclidean_division_equations. lia. Qed.

Lemma decimal_four n : 0 <= n < 10000 -> decimal (pair_digits (n / 100) ++ pair_digits (n mod 100)) = n.
Proof. intros. unfold decimal, pair_digits. simpl. Z.to_euclidean_division_equations. lia. Qed.

Lemma pair_is_digits n : 0 <= n < 100 -> forallb is_digit (pair_digits n) = true.
Proof.
  intros. unfold pair_digits, is_digit. simpl. rewrite !andb_true_iff, !Z.leb_le.
  Z.to_euclidean_division_equations. lia.
Qed.

(** Dates and times of a second, byte by byte. *)
Definition stamp (y m d hh mm ss : Z) : list Z :=
  pair_digits (y / 100) ++ pair_digits (y mod 100) ++ [45] ++ pair_digits m ++ [45] ++ pair_digits d
  ++ [84] ++ pair_digits hh ++ [58] ++ pair_digits mm ++ [58] ++ pair_digits ss.

Lemma stamp_parse y m d hh mm ss tail ns zone :
  0 <= y <= 9999 -> 1 <= m <= 12 -> 1 <= d <= days_in y m -> 0 <= hh < 24 -> 0 <= mm < 60 -> 0 <= ss < 60 ->
  is_bytes tail -> fraction_ok tail = true -> fraction tail = (ns, zone) ->
  parse_time (of_bytes (stamp y m d hh mm ss ++ tail))
  = Some ((days_of y m d * 86400 + hh * 3600 + mm * 60 + ss - zone_seconds zone) * Second + ns).
Proof.
  intros Hy Hm Hd Hh Hmm Hs Hb Hok Hf.
  assert (Hd31 : d <= 31).
  { etrans; [apply Hd|]. unfold days_in. repeat case_match; lia. }
  assert (Hbytes : bytes (of_bytes (stamp y m d hh mm ss ++ tail)) = stamp y m d hh mm ss ++ tail).
  { apply bytes_of_bytes, Forall_app. split; [|done]. unfold stamp, pair_digits. simpl.
    repeat apply Forall_cons_2; try apply Forall_nil_2; Z.to_euclidean_division_equations; lia. }
  unfold parse_time.
  assert (Hrfc : rfc3339_ok (of_bytes (stamp y m d hh mm ss ++ tail)) = true).
  { unfold rfc3339_ok. rewrite Hbytes. cbv zeta.
    unfold stamp. cbn [app pair_digits take drop nth length]. rewrite ?take_0.
    rewrite !andb_true_iff.
    pose proof (pair_is_digits (y / 100) ltac:(Z.to_euclidean_division_equations; lia)) as E1.
    pose proof (pair_is_digits (y mod 100) ltac:(Z.to_euclidean_division_equations; lia)) as E2.
    pose proof (pair_is_digits m ltac:(lia)) as E3. pose proof (pair_is_digits d ltac:(lia)) as E4.
    pose proof (pair_is_digits hh ltac:(lia)) as E5. pose proof (pair_is_digits mm ltac:(lia)) as E6.
    pose proof (pair_is_digits ss ltac:(lia)) as E7.
    unfold pair_digits in *. cbn [forallb] in *. rewrite !andb_true_iff in *.
    change (decimal [48 + ?a / 10; 48 + ?a mod 10]) with (decimal (pair_digits a)).
    change (decimal [48 + y / 100 / 10; _; _; _]) with (decimal (pair_digits (y / 100) ++ pair_digits (y mod 100))).
    rewrite decimal_four by lia. rewrite !decimal_pair by lia.
    repeat split; try tauto; try (apply Z.leb_le; lia); try (apply Z.ltb_lt; lia). }
  rewrite Hrfc, Hbytes. cbv zeta.
  replace (drop 19 (stamp y m d hh mm ss ++ tail)) with tail by done. rewrite Hf.
  unfold stamp. cbn [app pair_digits take drop]. rewrite ?take_0.
  change (decimal [48 + y / 100 / 10; _; _; _]) with (decimal (pair_digits (y / 100) ++ pair_digits (y mod 100))).
  change (decimal [48 + ?a / 10; 48 + ?a mod 10]) with (decimal (pair_digits a)).
  rewrite decimal_four by lia. by rewrite !decimal_pair by lia.
Qed.

(** Nine digits without their last zeros. *)
Lemma strip_zeros_split l : exists k, l = repeat 48 k ++ strip_zeros l.
Proof.
  induction l as [|b l [k IH]]; [by exists 0%nat|]. simpl. destruct (Z.eqb_spec b 48) as [->|].
  - exists (S k). simpl. by rewrite <- IH.
  - by exists 0%nat.
Qed.

Lemma strip_last_zeros_split l : exists k, l = strip_last_zeros l ++ repeat 48 k.
Proof.
  destruct (strip_zeros_split (rev l)) as [k H]. exists k. unfold strip_last_zeros.
  rewrite <- (rev_involutive l) at 1. rewrite H at 1. rewrite rev_app_distr, rev_repeat. done.
Qed.

Lemma digits_length fuel : forall k n, (k < fuel)%nat -> 10 ^ Z.of_nat k <= n < 10 ^ (Z.of_nat k + 1) ->
  length (digits fuel n) = S k.
Proof.
  induction fuel as [|fuel IH]; intros k n Hk Hn; [lia|]. cbn [digits].
  destruct k as [|k].
  - change (10 ^ Z.of_nat 0) with 1 in Hn. change (10 ^ (Z.of_nat 0 + 1)) with 10 in Hn.
    by destruct (Z.ltb_spec n 10); [|lia].
  - rewrite Nat2Z.inj_succ, Z.add_1_r, !Z.pow_succ_r in Hn by lia.
    assert (0 < 10 ^ Z.of_nat k) by lia.
    destruct (Z.ltb_spec n 10); [lia|]. rewrite length_app, (IH k); [simpl; lia|lia|].
    rewrite Z.add_1_r, Z.pow_succ_r by lia. Z.to_euclidean_division_equations. lia.
Qed.

Lemma digit_run_all l rest : forallb is_digit l = true ->
  (match rest with b :: _ => is_digit b | [] => false end) = false -> digit_run (l ++ rest) = (l, rest).
Proof.
  induction l as [|b l IH]; simpl; intros Hl Hr.
  - destruct rest as [|b rest]; [done|]. simpl. by rewrite Hr.
  - apply andb_true_iff in Hl as [-> Hl]. by rewrite IH.
Qed.

Lemma drop_digits_all l rest : forallb is_digit l = true ->
  (match rest with b :: _ => is_digit b | [] => false end) = false -> drop_digits (l ++ rest) = rest.
Proof.
  induction l as [|b l IH]; simpl; intros Hl Hr.
  - destruct rest as [|b rest]; [done|]. simpl. by rewrite Hr.
  - apply andb_true_iff in Hl as [-> Hl]. by apply IH.
Qed.

Lemma is_digit_bytes l : forallb is_digit l = true -> is_bytes l.
Proof.
  rewrite forallb_forall. intros H. apply List.Forall_forall. intros b Hb. specialize (H b Hb).
  unfold is_digit in H. breflect. lia.
Qed.

(** The nine digits of the nanoseconds. *)
Lemma nano_digits f : 0 <= f < Second ->
  exists l, drop 1 (bytes (itoa (Second + f))) = l /\ length l = 9%nat
    /\ forallb is_digit l = true /\ decimal l = f.
Proof.
  unfold Second. intros Hf. rewrite bytes_itoa by lia.
  destruct (digits_decimal 20 (1000000000 + f)) as (Hd & Hall & _); [lia|].
  assert (Hlen : length (digits 20 (1000000000 + f)) = 10%nat) by (apply (digits_length 20 9); lia).
  destruct (digits 20 (1000000000 + f)) as [|b l]; [done|]. exists l.
  change (drop 1 (b :: l)) with l. simpl in Hall. apply andb_true_iff in Hall as [Hb Hall].
  injection Hlen as Hlen. split_and!; [done|done|done|].
  assert (Hbound : forall l acc, forallb is_digit l = true ->
    fold_left (fun acc b => acc * 10 + (b - 48)) l acc = acc * 10 ^ Z.of_nat (length l) + decimal l
    /\ 0 <= decimal l < 10 ^ Z.of_nat (length l)).
  { clear. induction l as [|b l IH]; intros acc Hl; [unfold decimal; simpl; lia|].
    simpl in Hl. apply andb_true_iff in Hl as [Hb Hl]. unfold is_digit in Hb. breflect.
    destruct (IH (acc * 10 + (b - 48)) Hl) as [E1 B]. destruct (IH (0 * 10 + (b - 48)) Hl) as [E2 _].
    set (D := decimal l) in *. unfold decimal. cbn [fold_left length].
    rewrite E1, E2, Nat2Z.inj_succ, Z.pow_succ_r by lia. split; [ring|]. nia. }
  unfold decimal in Hd. cbn [fold_left] in Hd. destruct (Hbound l (0 * 10 + (b - 48)) Hall) as [E B].
  rewrite E, Hlen in Hd. rewrite Hlen in B. change (10 ^ Z.of_nat 9) with 1000000000 in *.
  unfold is_digit in Hb. breflect. lia.
Qed.

Lemma rfc3339_stamp t :
  let days := t / Second / 86400 in let s := (t / Second) mod 86400 in
  let '(y, m, d) := civil_date days in
  rfc3339 t = of_bytes (stamp y m d (s / 3600) (s / 60 mod 60) (s mod 60) ++ [90]).
Proof.
  cbv zeta. unfold rfc3339, Second. destruct (civil_date _) as [[y m] d]. unfold stamp, two_digits, pair_digits.
  by rewrite <- !app_assoc.
Qed.

(** Instants of the years 0 to 9999. *)
Definition writable (t : Z) : Prop := -719528 * 86400 * Second <= t < 2932897 * 86400 * Second.

Lemma parse_rfc3339nano t : writable t -> parse_time (rfc3339nano t) = Some t.
Proof.
  intros Ht. unfold writable in Ht.
  set (days := t / Second / 86400). set (s := (t / Second) mod 86400).
  assert (Hdays : -719528 <= days < 2932897)
    by (unfold days, Second in *; Z.to_euclidean_division_equations; lia).
  assert (Hs : 0 <= s < 86400) by (apply Z.mod_pos_bound; lia).
  pose proof (civil_date_back days) as Hc. pose proof (rfc3339_stamp t) as Hst. cbv zeta in Hst.
  fold days s in Hst. destruct (civil_date days) as [[y m] d].
  destruct Hc as (Hm & Hd & Hback & Hy). specialize (Hy Hdays).
  destruct (nano_digits (t mod Second)) as (l & Hl & Hlen & Hall & Hdec); [apply Z.mod_pos_bound; unfold Second; lia|].
  assert (Ht' : t = (days_of y m d * 86400 + s / 3600 * 3600 + s / 60 mod 60 * 60 + s mod 60 - 0) * Second + t mod Second).
  { rewrite Hback. pose proof (Z.div_mod t Second ltac:(unfold Second; lia)).
    pose proof (Z.div_mod (t / Second) 86400 ltac:(lia)). fold days s in H0.
    assert (s = s / 3600 * 3600 + s / 60 mod 60 * 60 + s mod 60) by (Z.to_euclidean_division_equations; lia). lia. }
  assert (Hparts : 0 <= s / 3600 < 24 /\ 0 <= s / 60 mod 60 < 60 /\ 0 <= s mod 60 < 60)
    by (Z.to_euclidean_division_equations; lia).
  unfold rfc3339nano. rewrite Hl, Hst.
  destruct (strip_last_zeros_split l) as [k Hk].
  destruct (strip_last_zeros l) as [|b frac] eqn:Efrac.
  - rewrite (stamp_parse y m d _ _ _ [90] 0 [90]); [|lia|lia|lia|lia|lia|lia|repeat constructor; lia|done|done].
    f_equal. rewrite Ht' at 1. simpl zone_seconds.
    assert (t mod Second = 0); [|lia]. rewrite <- Hdec, Hk. simpl. clear.
    assert (H : forall j, decimal (repeat 48 j) = 0).
    { intros j. induction j as [|j IH]; [done|exact IH]. }
    apply H.
  - assert (Hfr : forallb is_digit (b :: frac) = true).
    { rewrite Hk, forallb_app in Hall. by apply andb_true_iff in Hall as [? _]. }
    rewrite bytes_of_bytes.
    2: { apply Forall_app. split; [|repeat constructor; lia]. unfold stamp, pair_digits. simpl.
         assert (d <= 31) by (etrans; [apply Hd|]; unfold days_in; repeat case_match; lia).
         repeat apply Forall_cons_2; try apply Forall_nil_2; Z.to_euclidean_division_equations; lia. }
    replace (take 19 _) with (stamp y m d (s / 3600) (s / 60 mod 60) (s mod 60)) by done.
    rewrite (stamp_parse y m d _ _ _ ([46] ++ (b :: frac) ++ [90]) (t mod Second) [90]);
      [|lia|lia|lia|lia|lia|lia| | |].
    + f_equal. rewrite Ht' at 2. simpl zone_seconds. lia.
    + apply Forall_app. split; [repeat constructor; lia|]. apply Forall_app.
      split; [by apply is_digit_bytes|repeat constructor; lia].
    + simpl. simpl in Hfr. apply andb_true_iff in Hfr as [-> Hfr]. by rewrite drop_digits_all.
    + change ([46] ++ (b :: frac) ++ [90]) with (46 :: (b :: frac) ++ [90]). unfold fraction.
      rewrite digit_run_all by done. f_equal.
      rewrite <- Hdec. rewrite Hk at 1. rewrite Hk in Hlen. rewrite length_app, repeat_length in Hlen.
      replace (repeat 48 9) with (repeat 48 k ++ repeat 48 (9 - k)).
      2: { rewrite <- repeat_app. f_equal. lia. }
      rewrite app_assoc, take_app_length'; [done|]. rewrite length_app, repeat_length. lia.
Qed.

(** ** Structs with dates, written and read *)

Definition text_field (name v : string) : list (string * JSONValue) := [(name, JString v)].
(** [omitempty], which leaves out no date. *)
Definition text_omitempty (name v : string) : list (string * JSONValue) :=
  if String.eqb v "" then [] else [(name, JString v)].
Definition time_field (name : string) (t : Z) : list (string * JSONValue) := [(name, JString (rfc3339nano t))].
Definition bool_omitempty (name : string) (b : bool) : list (string * JSONValue) :=
  if b then [(name, JBool true)] else [].

(** [Time.MarshalJSON] refuses years outside 0 to 9999. *)
Definition year_writable (t : Z) : bool :=
  (-719528 * 86400 * Second <=? t) && (t <? 2932897 * 86400 * Second).
Definition ErrYear : GoErr :=
  ErrText "json: error calling MarshalJSON for type time.Time: Time.MarshalJSON: year outside of range [0,9999]".

Definition bool_field (name : string) (b : bool) : list (string * JSONValue) := [(name, JBool b)].
Definition int_field (name : string) (n : Z) : list (string * JSONValue) := [(name, JInt n)].

(** [json.Marshal] of a struct whose dates are [times]. *)
Definition marshal_struct (times : list Z) (fields : list (string * JSONValue)) : Res string :=
  if forallb year_writable times then Ok (json_struct fields) else Fail ErrYear.

(** Errors of encoding/json; the text is not kept.  A date that cannot be read
    ends the decoding with an error of package time, which is of another type
    than a syntax error or a value of the wrong type. *)
Definition ErrSyntax : GoErr := ErrPayload "invalid json".
Definition ErrFieldType : GoErr := ErrPayload "json: cannot unmarshal value".
Definition ErrDate : GoErr := ErrText "parsing time".

(** The value of a date field whose values can all be read. *)
Fixpoint decode_time_field (name : string) (acc : Z) (fields : list (string * Json)) : Z :=
  match fields with
  | [] => acc
  | (k, v) :: fields' =>
      if EqualFold k name then
        match v with
        | JText s => decode_time_field name (default acc (parse_time s)) fields'
        | _ => decode_time_field name acc fields'
        end
      else decode_time_field name acc fields'
  end.

Definition decode_struct {A} (times : list string) (zero : A)
    (f : list (string * Json) -> option A) (raw : string) : Res A :=
  match json_unmarshal raw with
  | None => Fail ErrSyntax
  | Some JNull => Ok zero
  | Some (JObject fields) =>
      if forallb (fun name => time_field_ok name fields) times
      then match f fields with Some a => Ok a | None => Fail ErrFieldType end
      else Fail ErrDate
  | Some _ => Fail ErrFieldType
  end.

(** ** Dates are plain text *)

Definition plain (l : list Z) : Prop := Forall (fun b => 0 <= b < 128) l.

Lemma plain_clean l : plain l -> clean (of_bytes l) = of_bytes l.
Proof.
  intros Hl. assert (Hb : is_bytes l) by (eapply List.Forall_impl; [|exact Hl]; simpl; lia).
  assert (Ha : is_ascii l = true).
  { unfold is_ascii. apply forallb_forall. intros b Hin. unfold plain in Hl. rewrite List.Forall_forall in Hl.
    specialize (Hl b Hin). lia. }
  unfold clean, of_runes, runes. rewrite bytes_of_bytes by done.
  destruct (decode_is_ascii l Ha Hb) as [-> ->]. done.
Qed.

Lemma stamp_plain y m d hh mm ss : 0 <= y <= 9999 -> 1 <= m <= 12 -> 1 <= d <= 31 -> 0 <= hh < 24 -> 0 <= mm < 60 ->
  0 <= ss < 60 -> plain (stamp y m d hh mm ss).
Proof.
  intros. unfold plain, stamp, pair_digits. simpl.
  repeat apply Forall_cons_2; try apply Forall_nil_2; Z.to_euclidean_division_equations; lia.
Qed.

Lemma digits_quoted l : forallb is_digit l = true -> plain l.
Proof.
  rewrite forallb_forall. intros H. apply List.Forall_forall. intros b Hb. specialize (H b Hb).
  unfold is_digit in H. breflect. lia.
Qed.

Lemma rfc3339nano_clean t : writable t -> clean (rfc3339nano t) = rfc3339nano t.
Proof.
  intros Ht. pose proof (rfc3339_stamp t) as Hst. cbv zeta in Hst.
  set (days := t / Second / 86400) in *. set (s := (t / Second) mod 86400) in *.
  assert (Hdays : -719528 <= days < 2932897)
    by (unfold days, writable, Second in *; Z.to_euclidean_division_equations; lia).
  assert (Hs : 0 <= s < 86400) by (apply Z.mod_pos_bound; lia).
  pose proof (civil_date_back days) as Hc. destruct (civil_date days) as [[y m] d].
  destruct Hc as (Hm & Hd & _ & Hy). specialize (Hy Hdays).
  assert (d <= 31) by (etrans; [apply Hd|]; unfold days_in; repeat case_match; lia).
  assert (Hparts : 0 <= s / 3600 < 24 /\ 0 <= s / 60 mod 60 < 60 /\ 0 <= s mod 60 < 60)
    by (Z.to_euclidean_division_equations; lia).
  pose proof (stamp_plain y m d (s / 3600) (s / 60 mod 60) (s mod 60) Hy Hm ltac:(lia)
    ltac:(tauto) ltac:(tauto) ltac:(tauto)) as Hp.
  assert (H90 : plain [90]) by (repeat constructor; lia).
  destruct (nano_digits (t mod Second)) as (l & Hl & _ & Hall & _); [apply Z.mod_pos_bound; unfold Second; lia|].
  unfold rfc3339nano. rewrite Hl, Hst. destruct (strip_last_zeros_split l) as [k Hk].
  destruct (strip_last_zeros l) as [|b frac].
  - apply plain_clean, Forall_app. by split.
  - assert (Hfr : forallb is_digit (b :: frac) = true).
    { rewrite Hk, forallb_app in Hall. by apply andb_true_iff in Hall as [? _]. }
    rewrite bytes_of_bytes.
    + apply plain_clean. apply Forall_app. split.
      * apply Forall_take. apply Forall_app. by split.
      * apply Forall_app. split; [repeat constructor; lia|]. apply Forall_app. split; [by apply digits_quoted|done].
    + eapply List.Forall_impl; [|apply Forall_app; split; [exact Hp|exact H90]]. simpl. lia.
Qed.

Lemma year_writable_iff t : year_writable t = true <-> writable t.
Proof. unfold year_writable, writable. rewrite andb_true_iff. lia. Qed.

(** ** Fields, one at a time *)

Section Fields.
Context (name k s : string) (rest : list (string * Json)).

Lemma text_hit acc : EqualFold k name = true -> decode_text_field name acc ((k, JText s) :: rest) = decode_text_field name s rest.
Proof. simpl. by intros ->. Qed.
Lemma text_miss acc v : EqualFold k name = false -> decode_text_field name acc ((k, v) :: rest) = decode_text_field name acc rest.
Proof. simpl. by intros ->. Qed.
Lemma time_hit acc t : EqualFold k name = true -> parse_time s = Some t ->
  decode_time_field name acc ((k, JText s) :: rest) = decode_time_field name t rest.
Proof. simpl. by intros -> ->. Qed.
Lemma time_miss acc v : EqualFold k name = false -> decode_time_field name acc ((k, v) :: rest) = decode_time_field name acc rest.
Proof. simpl. by intros ->. Qed.
Lemma int_hit acc n : EqualFold k name = true -> int64_text s = Some n ->
  decode_int_field name acc ((k, JNumber s) :: rest) = decode_int_field name n rest.
Proof. simpl. by intros -> ->. Qed.
Lemma int_miss acc v : EqualFold k name = false -> decode_int_field name acc ((k, v) :: rest) = decode_int_field name acc rest.
Proof. simpl. by intros ->. Qed.
Lemma ok_hit t : parse_time s = Some t -> time_field_ok name ((k, JText s) :: rest) = time_field_ok name rest.
Proof.
  unfold time_field_ok. intros H. cbn [forallb fst snd]. unfold parse_time in H. destruct (rfc3339_ok s); [|done].
  by rewrite orb_true_r.
Qed.
Lemma ok_miss v : EqualFold k name = false -> time_field_ok name ((k, v) :: rest) = time_field_ok name rest.
Proof. unfold time_field_ok. cbn [forallb fst snd]. by intros ->. Qed.
End Fields.

Ltac fields :=
  repeat first
    [ rewrite text_hit by reflexivity | rewrite text_miss by reflexivity
    | erewrite time_hit by (reflexivity || eassumption) | rewrite time_miss by reflexivity
    | erewrite int_hit by (reflexivity || eassumption) | rewrite int_miss by reflexivity
    | erewrite ok_hit by eassumption | rewrite ok_miss by reflexivity ].
