(* ===== verification/UpdateHost.v ===== *)
(** * UpdateHost: the machine the updater runs on

    The updater works on files, on the commands and servers of its machine and
    on the settings table.  [UpdateDB] holds the database, the file system, the
    errors of the system calls scheduled to fail, and the calls that left the
    process; [Machine] answers them.  Other programs may leave files behind
    while such a call runs ([leaves]). *)

From S2P Require Import Prelude GoStrings Effects GoStd GoText Models FileSystem.
Local Open Scope Z_scope.

(** ** Calls that leave the process *)

Inductive MachineCall : Type :=
| RunCommand (name : string) (args : list string)      (* exec.CommandContext *)
| HTTPGet (url : string) (headers : list (string * string))
| Sleep (d : Z)
| OpenSQLite (path : string).

#[export] Instance MachineCall_eq_dec : EqDecision MachineCall.
Proof. solve_decision. Defined.

Record HTTPResponse : Type := mkHTTPResponse {
  hr_StatusCode : Z; hr_ETag : string; hr_Body : string;
  hr_BodyErr : option string   (* the connection breaks after the body *)
}.

Inductive TarType : Type := TypeReg | TypeDir | TypeOther.
Record TarEntry : Type := mkTarEntry {
  th_Name : string; th_Typeflag : TarType; th_Mode : Z; th_Data : string
}.

(** What compress/gzip and archive/tar read from a file: entries, then the end
    of the archive or an error. *)
Record Archive : Type := mkArchive {
  ar_HeaderErr : option string;   (* of gzip.NewReader *)
  ar_Entries : list TarEntry;
  ar_EndErr : option string
}.

Class Machine : Type := {
  machine_os : string;                     (* runtime.GOOS, runtime.GOARCH *)
  machine_arch : string;
  process_id : Z;
  process_uid : Z;
  process_gid : Z;
  process_groups : option (list Z);        (* os.Getgroups *)
  getenv : string -> string;
  despatch_gid : option Z;                 (* of the account despatch, if there is one *)
  local_offset : Z -> Z;                   (* seconds east of UTC, at an instant in seconds *)
  linked_version : string; linked_commit : string; linked_build_time : string;
  linked_repo : string;
  file_time : nat -> Path -> Z;
  command_result : nat -> string -> list string -> string * option string;
  http_result : nat -> string -> list (string * string) -> string + HTTPResponse;
  database_opens : nat -> bool;
  leaves : nat -> MachineCall -> list (Path * Entry);
  read_archive : string -> Archive;
  ed25519_Verify : list Z -> string -> list Z -> bool   (* key, message, signature *)
}.

(** ** The state *)

Record UpdateDB : Type := mkUpdateDB {
  u_base : Database;
  u_fs : FS;
  u_errs : list Errno;            (* of the coming system calls that fail *)
  u_calls : list MachineCall      (* oldest first *)
}.
#[export] Instance eta_UpdateDB : Eta UpdateDB := fun d =>
  mkUpdateDB (u_base d) (u_fs d) (u_errs d) (u_calls d).

Abbreviation UDB := (M UpdateDB).

(** A function of the store. *)
Definition on_db {A} (m : DBM A) : UDB A := fun w =>
  let '(mkWorld d fs t u tr) := w in
  let '(r, mkWorld b fs' t' u' tr') := m (mkWorld (u_base d) fs t u tr) in
  (r, mkWorld (d <| u_base := b |>) fs' t' u' tr').

(** A system call; one that is scheduled to fail changes nothing. *)
Definition os_call {A} (what : string) (f : FS -> Res (A * FS)) : UDB A := fun w =>
  let '(mkWorld d fs t u tr) := w in
  match fs with
  | true :: fs' =>
      (Fail (ErrOS what (hd EIO (u_errs d))), mkWorld (d <| u_errs := tail (u_errs d) |>) fs' t u tr)
  | _ =>
      match f (u_fs d) with
      | Ok (a, g) => (Ok a, mkWorld (d <| u_fs := g |>) (tail fs) t u tr)
      | Fail e => (Fail e, mkWorld d (tail fs) t u tr)
      end
  end.

Definition os_read {A} (what : string) (f : FS -> Res A) : UDB A :=
  os_call what (fun g => match f g with Ok a => Ok (a, g) | Fail e => Fail e end).
Definition os_write (what : string) (f : FS -> Res FS) : UDB unit :=
  os_call what (fun g => match f g with Ok g' => Ok (tt, g') | Fail e => Fail e end).

Definition named (call : string) (p : Path) : string := call +:+ " " +:+ path_text p.

Definition leave (l : list (Path * Entry)) (fs : FS) : FS := fold_left (fun fs pe => put (fst pe) (snd pe) fs) l fs.

Section Machine.
Context {machine : Machine}.

Definition os_Stat (p : Path) : UDB Entry := os_read (named "stat" p) (Stat p).
Definition os_Lstat (p : Path) : UDB Entry := os_read (named "lstat" p) (Lstat p).
Definition os_ReadFile (p : Path) : UDB string := os_read (named "open" p) (read_file p).
Definition os_ReadDir (p : Path) : UDB (list (string * Entry)) := os_read (named "open" p) (ReadDir p).
Definition os_MkdirAll (p : Path) (mode : Z) : UDB unit :=
  os_write (named "mkdir" p) (MkdirAll process_uid process_gid p mode).
Definition os_Chmod (p : Path) (mode : Z) : UDB unit := os_write (named "chmod" p) (Chmod p mode).
Definition os_Chown (p : Path) (uid gid : Z) : UDB unit := os_write (named "chown" p) (Chown p uid gid).
Definition os_Remove (p : Path) : UDB unit := os_write (named "remove" p) (Remove p).
Definition os_RemoveAll (p : Path) : UDB unit := os_write (named "unlinkat" p) (RemoveAll p).
Definition os_Rename (src dst : Path) : UDB unit :=
  os_write ("rename " +:+ path_text src +:+ " " +:+ path_text dst) (Rename src dst).

(** [os.OpenFile] with [O_CREATE|O_TRUNC|O_WRONLY], or with [O_EXCL]. *)
Definition os_Create (p : Path) (mode : Z) : UDB unit :=
  os_write (named "open" p) (open_write process_uid process_gid p "" mode false).
Definition os_CreateNew (p : Path) (mode : Z) : UDB unit :=
  os_write (named "open" p) (open_write process_uid process_gid p "" mode true).
(** [File.Write] on a file just opened. *)
Definition file_Write (p : Path) (data : string) : UDB unit :=
  os_write (named "write" p) (open_write process_uid process_gid p data 0 false).
Definition os_WriteFile (p : Path) (data : string) (mode : Z) : UDB unit :=
  do! os_Create p mode in file_Write p data.

(** A call that leaves the process, and its place in the log. *)
Definition out_call (c : MachineCall) : UDB nat := fun w =>
  let d := w_db w in
  let n := length (u_calls d) in
  (Ok n, w <| w_db := d <| u_calls := u_calls d ++ [c] |> <| u_fs := leave (leaves n c) (u_fs d) |> |>).

(** [cmd.CombinedOutput] *)
Definition exec_Command (name : string) (args : list string) : UDB (string * option string) :=
  let! n := out_call (RunCommand name args) in ret (command_result n name args).

(** [client.Do] of a GET request. *)
Definition http_Do (url : string) (headers : list (string * string)) : UDB HTTPResponse :=
  let! n := out_call (HTTPGet url headers) in
  match http_result n url headers with inl msg => throw (ErrText msg) | inr resp => ret resp end.

Definition time_Sleep (d : Z) : UDB unit := do! out_call (Sleep d) in ret tt.

(** [info.ModTime] *)
Definition mod_time (p : Path) : UDB Z := fun w => (Ok (file_time (w_tick w) p), w).
End Machine.

(** ** Errors of system calls *)

Fixpoint os_errno (e : GoErr) : option Errno :=
  match e with ErrOS _ n => Some n | ErrWrap e' _ => os_errno e' | _ => None end.

(** [errors.Is] with [os.ErrNotExist], [os.ErrExist] and [os.ErrPermission]. *)
Definition Is_NotExist (e : GoErr) : bool := bool_decide (os_errno e = Some ENOENT).
Definition Is_Exist (e : GoErr) : bool :=
  bool_decide (os_errno e = Some EEXIST) || bool_decide (os_errno e = Some ENOTEMPTY).
Definition Is_Permission (e : GoErr) : bool :=
  bool_decide (os_errno e = Some EACCES) || bool_decide (os_errno e = Some EPERM).
Definition Is_errno (e : GoErr) (n : Errno) : bool := bool_decide (os_errno e = Some n).

(** The sentinel [os.ErrNotExist] itself. *)
Definition os_ErrNotExist : GoErr := ErrOS "file does not exist" ENOENT.

(** ** Texts of package strings *)

Definition drop_while (b : Z) : list Z -> list Z :=
  fix go l := match l with a :: l' => if a =? b then go l' else l | [] => [] end.

(** [strings.Trim] of one byte. *)
Definition TrimByte (s : string) (b : Z) : string :=
  of_bytes (rev (drop_while b (rev (drop_while b (bytes s))))).

(** [url.PathEscape] *)
Definition plain_path_byte (b : Z) : bool :=
  is_digit b || ((65 <=? b) && (b <=? 90)) || ((97 <=? b) && (b <=? 122))
  || existsb (Z.eqb b) (bytes "-_.~$&+=:@").
Definition upper_hex (n : Z) : Z := if n <? 10 then 48 + n else 55 + n.
Definition PathEscape (s : string) : string :=
  of_bytes (flat_map (fun b => if plain_path_byte b then [b] else [37; upper_hex (b / 16); upper_hex (b mod 16)])
              (bytes s)).

Example texts_ex :
  (TrimByte "--a-b--" 45, ReplaceAll "it's 'x'" "'" "_", text_fields "  a bb	c ", PathEscape "v1/ü@")
  = ("a-b", "it_s _x_", ["a"; "bb"; "c"], "v1%2F%C3%BC@").
Proof. vm_compute. reflexivity. Qed.
