(* ===== verification/UpdateModels.v ===== *)
(** * UpdateModels: the updater's data, its directories and its files

    update/types.go, paths.go, dir_contract.go, state.go, request_queue.go and
    the helpers of worker.go they use.  Instants are written in UTC, whatever
    their zone. *)

From S2P Require Import Prelude Unicode GoStrings Effects GoStd GoText Json Models Mfa GoFmt FileSystem.
From S2P Require Import GoTime UpdateHost.
Local Open Scope Z_scope.

(** ** Configuration (config/config.go) *)

Record UpdateConfig : Type := mkUpdateConfig {
  UpdateEnabled : bool;
  UpdateRepoOwner : string;
  UpdateRepoName : string;
  UpdateCheckIntervalMin : Z;
  UpdateGitHubToken : string;
  UpdateBackupKeep : Z;
  UpdateBaseDir : Path;
  UpdateInstallDir : Path;
  UpdateServiceName : string;
  UpdateSystemdUnitDir : Path;
  UpdateRequireSignature : bool;
  UpdateSignatureAsset : string;
  UpdateSigningPublicKeys : list string;
  MailSecEnabled : bool;
  MailSecSocket : string;
  ListenAddr : string;
  DBPath : string
}.
#[export] Instance eta_UpdateConfig : Eta UpdateConfig := fun c =>
  mkUpdateConfig (UpdateEnabled c) (UpdateRepoOwner c) (UpdateRepoName c) (UpdateCheckIntervalMin c)
    (UpdateGitHubToken c) (UpdateBackupKeep c) (UpdateBaseDir c) (UpdateInstallDir c)
    (UpdateServiceName c) (UpdateSystemdUnitDir c) (UpdateRequireSignature c)
    (UpdateSignatureAsset c) (UpdateSigningPublicKeys c) (MailSecEnabled c) (MailSecSocket c)
    (ListenAddr c) (DBPath c).

(** ** Data *)

Record ReleaseInfo : Type := mkReleaseInfo {
  rel_TagName : string; rel_Name : string; rel_PublishedAt : Z; rel_HTMLURL : string
}.
#[export] Instance eta_ReleaseInfo : Eta ReleaseInfo := fun r =>
  mkReleaseInfo (rel_TagName r) (rel_Name r) (rel_PublishedAt r) (rel_HTMLURL r).

Record ApplyRequest : Type := mkApplyRequest {
  rq_RequestID : string; rq_RequestedAt : Z; rq_RequestedBy : string; rq_Mode : string;
  rq_TargetVersion : string
}.
#[export] Instance eta_ApplyRequest : Eta ApplyRequest := fun r =>
  mkApplyRequest (rq_RequestID r) (rq_RequestedAt r) (rq_RequestedBy r) (rq_Mode r) (rq_TargetVersion r).

Definition ApplyStateIdle : string := "idle".
Definition ApplyStateQueued : string := "queued".
Definition ApplyStateInProgress : string := "in_progress".
Definition ApplyStateCompleted : string := "completed".
Definition ApplyStateFailed : string := "failed".
Definition ApplyStateRolledBack : string := "rolled_back".

Definition ApplyModeApply : string := "apply".
Definition ApplyModePrepare : string := "prepare".

Record ApplyStatus : Type := mkApplyStatus {
  as_State : string; as_RequestID : string; as_RequestedAt : Z; as_StartedAt : Z;
  as_FinishedAt : Z; as_TargetVersion : string; as_FromVersion : string; as_ToVersion : string;
  as_RolledBack : bool; as_Error : string
}.
#[export] Instance eta_ApplyStatus : Eta ApplyStatus := fun s =>
  mkApplyStatus (as_State s) (as_RequestID s) (as_RequestedAt s) (as_StartedAt s) (as_FinishedAt s)
    (as_TargetVersion s) (as_FromVersion s) (as_ToVersion s) (as_RolledBack s) (as_Error s).

(** The zero value. *)
Definition no_status : ApplyStatus := mkApplyStatus "" "" ZeroTime ZeroTime ZeroTime "" "" "" false "".
Definition no_request : ApplyRequest := mkApplyRequest "" ZeroTime "" "" "".

Definition AutoUpdateStateIdle : string := "idle".
Definition AutoUpdateStatePreparing : string := "preparing".
Definition AutoUpdateStateDownloaded : string := "downloaded".
Definition AutoUpdateStateScheduled : string := "scheduled".
Definition AutoUpdateStateApplying : string := "applying".
Definition AutoUpdateStateFailed : string := "failed".

Record AutoUpdateStatus : Type := mkAutoUpdateStatus {
  au_Enabled : bool; au_State : string; au_TargetVersion : string; au_DownloadedAt : Z;
  au_ScheduledFor : Z; au_Error : string
}.
#[export] Instance eta_AutoUpdateStatus : Eta AutoUpdateStatus := fun s =>
  mkAutoUpdateStatus (au_Enabled s) (au_State s) (au_TargetVersion s) (au_DownloadedAt s)
    (au_ScheduledFor s) (au_Error s).

Record ConfigDiagnostic : Type := mkConfigDiagnostic {
  cd_Reason : string; cd_Detail : string; cd_RepairHint : string
}.

Record VersionInfo : Type := mkVersionInfo {
  vi_Version : string; vi_Commit : string; vi_BuildTime : string; vi_SourceRepo : string
}.

Record StatusResponse : Type := mkStatusResponse {
  st_Enabled : bool; st_Configured : bool; st_Current : VersionInfo; st_Latest : option ReleaseInfo;
  st_LastCheckedAt : string; st_LastCheckError : string; st_UpdateAvailable : bool;
  st_Apply : ApplyStatus; st_AutoUpdate : AutoUpdateStatus;
  st_ConfigDiagnostic : option ConfigDiagnostic
}.
#[export] Instance eta_StatusResponse : Eta StatusResponse := fun s =>
  mkStatusResponse (st_Enabled s) (st_Configured s) (st_Current s) (st_Latest s)
    (st_LastCheckedAt s) (st_LastCheckError s) (st_UpdateAvailable s) (st_Apply s)
    (st_AutoUpdate s) (st_ConfigDiagnostic s).

Record autoUpdateStateRecord : Type := mkAutoRecord {
  ar_State : string; ar_TargetVersion : string; ar_DownloadedAt : Z; ar_ScheduledFor : Z;
  ar_Error : string; ar_DeferredVersion : string
}.
#[export] Instance eta_autoUpdateStateRecord : Eta autoUpdateStateRecord := fun r =>
  mkAutoRecord (ar_State r) (ar_TargetVersion r) (ar_DownloadedAt r) (ar_ScheduledFor r)
    (ar_Error r) (ar_DeferredVersion r).
Definition no_record : autoUpdateStateRecord := mkAutoRecord "" "" ZeroTime ZeroTime "" "".

(** ** JSON of the files *)

(** [json.MarshalIndent(v, "", "  ")] of a struct, and the line end after it. *)
Definition json_indented (fields : list (string * JSONValue)) : string :=
  let field kv := [10; 32; 32] ++ json_string (fst kv) ++ [58; 32] ++ json_value (snd kv) in
  of_bytes ([123] ++
    match fields with
    | [] => []
    | kv :: rest => field kv ++ flat_map (fun kv => [44] ++ field kv) rest ++ [10]
    end ++ [125; 10]).

Definition request_fields (r : ApplyRequest) : list (string * JSONValue) :=
  text_field "request_id" (rq_RequestID r) ++ time_field "requested_at" (rq_RequestedAt r)
  ++ text_field "requested_by" (rq_RequestedBy r) ++ text_omitempty "mode" (rq_Mode r)
  ++ text_omitempty "target_version" (rq_TargetVersion r).
Definition status_fields (s : ApplyStatus) : list (string * JSONValue) :=
  text_field "state" (as_State s) ++ text_omitempty "request_id" (as_RequestID s)
  ++ time_field "requested_at" (as_RequestedAt s) ++ time_field "started_at" (as_StartedAt s)
  ++ time_field "finished_at" (as_FinishedAt s)
  ++ text_omitempty "target_version" (as_TargetVersion s)
  ++ text_omitempty "from_version" (as_FromVersion s) ++ text_omitempty "to_version" (as_ToVersion s)
  ++ bool_omitempty "rolled_back" (as_RolledBack s) ++ text_omitempty "error" (as_Error s).
Definition record_fields (r : autoUpdateStateRecord) : list (string * JSONValue) :=
  text_field "state" (ar_State r) ++ text_omitempty "target_version" (ar_TargetVersion r)
  ++ time_field "downloaded_at" (ar_DownloadedAt r) ++ time_field "scheduled_for" (ar_ScheduledFor r)
  ++ text_omitempty "error" (ar_Error r) ++ text_omitempty "deferred_version" (ar_DeferredVersion r).

Definition marshal (times : list Z) (fields : list (string * JSONValue)) : Res string :=
  if forallb year_writable times then Ok (json_indented fields)
  else Fail ErrYear.
Definition apply_request_json (r : ApplyRequest) : Res string := marshal [rq_RequestedAt r] (request_fields r).
Definition status_json (s : ApplyStatus) : Res string :=
  marshal [as_RequestedAt s; as_StartedAt s; as_FinishedAt s] (status_fields s).
Definition record_json (r : autoUpdateStateRecord) : Res string :=
  marshal [ar_DownloadedAt r; ar_ScheduledFor r] (record_fields r).

Definition decode_apply_request : string -> Res ApplyRequest :=
  decode_struct ["requested_at"] no_request (fun l =>
    id ← decode_text_field "request_id" "" l;
    who ← decode_text_field "requested_by" "" l;
    mode ← decode_text_field "mode" "" l;
    target ← decode_text_field "target_version" "" l;
    Some (mkApplyRequest id (decode_time_field "requested_at" ZeroTime l) who mode target)).

Definition decode_status : string -> Res ApplyStatus :=
  decode_struct ["requested_at"; "started_at"; "finished_at"] no_status (fun l =>
    state ← decode_text_field "state" "" l;
    id ← decode_text_field "request_id" "" l;
    target ← decode_text_field "target_version" "" l;
    from ← decode_text_field "from_version" "" l;
    to ← decode_text_field "to_version" "" l;
    rolled ← decode_bool_field "rolled_back" false l;
    err ← decode_text_field "error" "" l;
    Some (mkApplyStatus state id (decode_time_field "requested_at" ZeroTime l)
            (decode_time_field "started_at" ZeroTime l) (decode_time_field "finished_at" ZeroTime l)
            target from to rolled err)).

Definition decode_record : string -> Res autoUpdateStateRecord :=
  decode_struct ["downloaded_at"; "scheduled_for"] no_record (fun l =>
    state ← decode_text_field "state" "" l;
    target ← decode_text_field "target_version" "" l;
    err ← decode_text_field "error" "" l;
    deferred ← decode_text_field "deferred_version" "" l;
    Some (mkAutoRecord state target (decode_time_field "downloaded_at" ZeroTime l)
            (decode_time_field "scheduled_for" ZeroTime l) err deferred)).

(** ** Path tokens (worker.go) *)

Definition path_token_rune (r : Z) : bool :=
  ((97 <=? r) && (r <=? 122)) || ((65 <=? r) && (r <=? 90)) || is_digit r
  || (r =? 45) || (r =? 95) || (r =? 46).

Definition sanitizePathToken (v : string) : string :=
  let v := TrimSpace v in
  if String.eqb v "" then "unknown"
  else
    let out := TrimByte (of_bytes (map (fun r => if path_token_rune r then r else 45) (runes v))) 45 in
    if String.eqb out "" then "unknown" else out.

(** ** Paths (paths.go) *)

Section Paths.
Variable cfg : UpdateConfig.

Definition requestDir : Path := join (UpdateBaseDir cfg) "request".
Definition statusDir : Path := join (UpdateBaseDir cfg) "status".
Definition lockDir : Path := join (UpdateBaseDir cfg) "lock".
Definition workDir : Path := join (UpdateBaseDir cfg) "work".
Definition backupsDir : Path := join (UpdateBaseDir cfg) "backups".
Definition requestPath : Path := join requestDir "update-request.json".
Definition statusPath : Path := join statusDir "update-status.json".
Definition autoStatusPath : Path := join statusDir "update-auto-status.json".
Definition lockPath : Path := join lockDir "update.lock".
Definition updaterPathUnitPath : Path := join (UpdateSystemdUnitDir cfg) "despatch-updater.path".
Definition updaterServiceUnitPath : Path := join (UpdateSystemdUnitDir cfg) "despatch-updater.service".
Definition updaterServiceOverrideDir : Path := join (UpdateSystemdUnitDir cfg) "despatch-updater.service.d".
Definition installDeployDir : Path := join (UpdateInstallDir cfg) "deploy".

Definition preparedPayloadDir (version : string) : Path :=
  let token := sanitizePathToken version in
  let token := if String.eqb (TrimSpace token) "" then "latest" else token in
  join workDir ("prepared-" +:+ token).

(** ** Directories (dir_contract.go) *)

Inductive updaterDirGroup : Type := updaterDirGroupRoot | updaterDirGroupDespatch.
Record updaterDirSpec : Type := mkDirSpec { ds_path : Path; ds_mode : Z; ds_group : updaterDirGroup }.

Definition updaterDirContract : list updaterDirSpec :=
  [ mkDirSpec (UpdateBaseDir cfg) 488 updaterDirGroupDespatch;
    mkDirSpec requestDir 504 updaterDirGroupDespatch;
    mkDirSpec statusDir 504 updaterDirGroupDespatch;
    mkDirSpec lockDir 488 updaterDirGroupRoot;
    mkDirSpec workDir 488 updaterDirGroupRoot;
    mkDirSpec backupsDir 488 updaterDirGroupRoot ].

Definition updaterRequestStatusContract : list updaterDirSpec :=
  [ mkDirSpec (UpdateBaseDir cfg) 488 updaterDirGroupDespatch;
    mkDirSpec requestDir 504 updaterDirGroupDespatch;
    mkDirSpec statusDir 504 updaterDirGroupDespatch ].

Definition updaterDirModeForPath (dirPath : Path) (fallback : Z) : Z :=
  match List.find (fun spec => path_eqb (ds_path spec) dirPath) updaterDirContract with
  | Some spec => ds_mode spec
  | None => fallback
  end.
End Paths.

(** Errors that are let pass. *)
Definition tolerate (ok : GoErr -> bool) (m : UDB unit) : UDB unit :=
  let! r := attempt m in
  match r with
  | Ok _ => ret tt
  | Fail e => if ok e then ret tt else throw e
  end.

(** [Chmod] to a mode, EPERM and EACCES tolerated. *)
Definition isUpdaterPermissionError : GoErr -> bool := Is_Permission.

Section Files.
Context {env : Env} {machine : Machine}.

Definition lookupDespatchGroupID : UDB Z :=
  match despatch_gid with
  | Some gid => ret gid
  | None => throw (ErrText "user: unknown user despatch")
  end.

Fixpoint ensure_dirs (strictPerms : bool) (owner : option Z) (specs : list updaterDirSpec) : UDB unit :=
  match specs with
  | [] => ret tt
  | spec :: specs' =>
      do! os_MkdirAll (ds_path spec) (ds_mode spec) in
      do! tolerate (fun e => negb (strictPerms || negb (isUpdaterPermissionError e)))
            (os_Chmod (ds_path spec) (ds_mode spec)) in
      do! match owner with
          | Some despatchGID =>
              let gid := match ds_group spec with updaterDirGroupDespatch => despatchGID | updaterDirGroupRoot => 0 end in
              os_Chown (ds_path spec) 0 gid
          | None => ret tt
          end in
      ensure_dirs strictPerms owner specs'
  end.

Definition ensureUpdaterDirSpecs (specs : list updaterDirSpec) (strictPerms enforceOwnership : bool) : UDB unit :=
  if enforceOwnership then
    let! gid := lookupDespatchGroupID in ensure_dirs strictPerms (Some gid) specs
  else ensure_dirs strictPerms None specs.

Definition ensureUpdaterRuntimeDirectories (cfg : UpdateConfig) : UDB unit :=
  ensureUpdaterDirSpecs (updaterDirContract cfg) true (process_uid =? 0).
Definition ensureUpdaterRequestStatusDirectories (cfg : UpdateConfig) : UDB unit :=
  ensureUpdaterDirSpecs (updaterRequestStatusContract cfg) false false.

Definition ensureUpdaterWritableDirectory (cfg : UpdateConfig) (dirPath : Path) : UDB unit :=
  let mode := updaterDirModeForPath cfg dirPath 488 in
  do! os_MkdirAll dirPath mode in
  tolerate isUpdaterPermissionError (os_Chmod dirPath mode).

(** ** JSON files (state.go) *)

Definition rejectSymlink (path : Path) : UDB unit :=
  let! r := attempt (os_Lstat path) in
  match r with
  | Fail e => if Is_NotExist e then ret tt else throw e
  | Ok info =>
      if is_link info then throw (ErrText ("refusing symlink path: " +:+ path_text path)) else ret tt
  end.

Definition readJSONFile {A} (decode : string -> Res A) (path : Path) : UDB A :=
  do! rejectSymlink path in
  let! raw := os_ReadFile path in
  of_res (decode raw).

Definition tmp_path (path : Path) (suffix : string) : Path :=
  match rev path with
  | name :: dir => rev dir ++ [name +:+ suffix]
  | [] => [suffix]
  end.

Definition writeJSONAtomic (path : Path) (payload : Res string) (mode parentMode : Z) : UDB unit :=
  do! rejectSymlink path in
  let parent := parent path in
  do! os_MkdirAll parent parentMode in
  do! tolerate isUpdaterPermissionError (os_Chmod parent parentMode) in
  let! raw := of_res payload in
  let tmp := tmp_path path ".tmp" in
  do! os_WriteFile tmp raw mode in
  os_Rename tmp path.

Definition readApplyStatus (cfgPath : Path) : UDB ApplyStatus :=
  let! r := attempt (readJSONFile decode_status cfgPath) in
  match r with
  | Fail e => if Is_NotExist e then ret (no_status <| as_State := ApplyStateIdle |>) else throw e
  | Ok st => ret (if String.eqb (as_State st) "" then st <| as_State := ApplyStateIdle |> else st)
  end.

Definition trimmed_record (st : autoUpdateStateRecord) : autoUpdateStateRecord :=
  let st := if String.eqb (ar_State st) "" then st <| ar_State := AutoUpdateStateIdle |> else st in
  st <| ar_TargetVersion := TrimSpace (ar_TargetVersion st) |>
     <| ar_Error := TrimSpace (ar_Error st) |>
     <| ar_DeferredVersion := TrimSpace (ar_DeferredVersion st) |>.

Definition idle_record : autoUpdateStateRecord := no_record <| ar_State := AutoUpdateStateIdle |>.

Definition readAutoUpdateState (path : Path) : UDB autoUpdateStateRecord :=
  let! r := attempt (readJSONFile decode_record path) in
  match r with
  | Fail e => if Is_NotExist e then ret idle_record else throw e
  | Ok st => ret (trimmed_record st)
  end.

Definition ensureDespatchReadable (path : Path) : UDB unit :=
  if negb (process_uid =? 0) then os_Chmod path 416
  else
    let! gid := lookupDespatchGroupID in
    do! os_Chown path (-1) gid in
    os_Chmod path 416.

Definition write_record (cfg : UpdateConfig) (rec : autoUpdateStateRecord) : UDB unit :=
  writeJSONAtomic (autoStatusPath cfg) (record_json rec) 416
    (updaterDirModeForPath cfg (statusDir cfg) 488).

Definition write_status (cfg : UpdateConfig) (st : ApplyStatus) : UDB unit :=
  writeJSONAtomic (statusPath cfg) (status_json st) 416
    (updaterDirModeForPath cfg (statusDir cfg) 488).

Definition writeAutoUpdateState (cfg : UpdateConfig) (rec : autoUpdateStateRecord) : UDB unit :=
  let rec := if String.eqb (ar_State rec) "" then rec <| ar_State := AutoUpdateStateIdle |> else rec in
  do! write_record cfg rec in
  tolerate isUpdaterPermissionError (ensureDespatchReadable (autoStatusPath cfg)).

(** ** The request queue (request_queue.go) *)

Definition updateQueuePickupGrace : Z := 30 * Second.

Definition normalizeApplyMode (mode : string) : string :=
  let m := ToLower (TrimSpace mode) in
  if String.eqb m "" || String.eqb m ApplyModeApply then ApplyModeApply
  else if String.eqb m ApplyModePrepare then ApplyModePrepare
  else ApplyModeApply.

(** [%020d] of an int64. *)
Definition zero_padded (width : nat) (n : Z) : string :=
  let ds := digits 20 (Z.abs n) in
  let sign := if n <? 0 then [45] else [] in
  of_bytes (sign ++ repeat 48 (width - length sign - length ds) ++ ds).

Definition requestQueuePath (req : ApplyRequest) (cfg : UpdateConfig) : UDB Path :=
  let requestID := sanitizePathToken (TrimSpace (rq_RequestID req)) in
  let requestID := if String.eqb requestID "" then "request" else requestID in
  let! ts := if IsZero (rq_RequestedAt req) then time_Now else ret (rq_RequestedAt req) in
  ret (join (requestDir cfg)
         ("update-request-" +:+ zero_padded 20 (int64 ts) +:+ "-" +:+ requestID +:+ ".json")).

(** [filepath.Glob(dir/update-request-*.json)], in a directory whose own path
    has no pattern characters; errors leave out matches. *)
Definition queue_name (name : string) : bool := HasPrefix name "update-request-" && HasSuffix name ".json".
Definition glob_requests (dir : Path) : UDB (list Path) :=
  let! fi := attempt (os_Stat dir) in
  match fi with
  | Fail _ => ret []
  | Ok info =>
      if negb (is_dir info) then ret []
      else
        let! names := attempt (os_ReadDir dir) in
        match names with
        | Fail _ => ret []
        | Ok l => ret (map (fun ne => join dir (fst ne)) (List.filter (fun ne => queue_name (fst ne)) l))
        end
  end.

Definition pendingRequestPaths (cfg : UpdateConfig) : UDB (list Path) :=
  let! r := attempt (os_Stat (requestPath cfg)) in
  let! first := match r with
                | Ok _ => ret [requestPath cfg]
                | Fail e => if Is_NotExist e then ret [] else throw e
                end in
  let! matches := glob_requests (requestDir cfg) in
  ret (first ++ List.filter (fun p => negb (existsb (path_eqb p) first)) matches).

Record pendingRequest : Type := mkPending { pd_Path : Path; pd_Request : ApplyRequest }.

Fixpoint read_pending (paths : list Path) : UDB (list pendingRequest) :=
  match paths with
  | [] => ret []
  | path :: paths' =>
      let! r := attempt (readJSONFile decode_apply_request path) in
      match r with
      | Fail e =>
          if Is_NotExist e then read_pending paths'
          else let! rest := read_pending paths' in
               ret (mkPending path (no_request <| rq_Mode := ApplyModeApply |>) :: rest)
      | Ok req =>
          let! rest := read_pending paths' in
          ret (mkPending path (req <| rq_Mode := normalizeApplyMode (rq_Mode req) |>) :: rest)
      end
  end.

Definition pendingRequests (cfg : UpdateConfig) : UDB (list pendingRequest) :=
  let! paths := pendingRequestPaths cfg in read_pending paths.

Definition firstPendingRequestPath (cfg : UpdateConfig) : UDB Path :=
  let! paths := pendingRequestPaths cfg in
  match paths with [] => throw os_ErrNotExist | p :: _ => ret p end.

Fixpoint remove_paths (paths : list Path) : UDB unit :=
  match paths with
  | [] => ret tt
  | path :: paths' => do! tolerate Is_NotExist (os_Remove path) in remove_paths paths'
  end.

Definition removePendingRequestPaths (cfg : UpdateConfig) : UDB unit :=
  let! paths := pendingRequestPaths cfg in remove_paths paths.

(** ** The version linked in (version/version.go) *)

Definition version_Current : VersionInfo :=
  let v := TrimSpace linked_version in
  let c := TrimSpace linked_commit in
  let r := TrimSpace linked_repo in
  mkVersionInfo (if String.eqb v "" then "dev" else v) (if String.eqb c "" then "unknown" else c)
    (TrimSpace linked_build_time)
    (if String.eqb r "" then "https://github.com/2high4schooltoday/despatch" else r).
End Files.

Example token_ex : map sanitizePathToken ["v1.2.3"; " a/b c "; "--"; ""; "../x"]
  = ["v1.2.3"; "a-b-c"; "unknown"; "unknown"; "..-x"].
Proof. vm_compute. reflexivity. Qed.
Example padded_ex : (zero_padded 20 1700000000000000000, zero_padded 20 (-5), int64 (2 ^ 63))
  = ("01700000000000000000", "-0000000000000000005", - 2 ^ 63).
Proof. vm_compute. reflexivity. Qed.
