(* ===== verification/UpdateRuntime.v ===== *)
(** * UpdateRuntime: what systemd says of the updater's units

    update/runtime_probe.go and the commands of worker.go: the probe of the
    path and service units, the executable their unit files name, and the texts
    that tell the operator what is wrong. *)

From S2P Require Import Prelude GoStrings Effects GoStd GoText Json MessageIds Models Mfa FileSystem GoTime.
From S2P Require Import UpdateHost UpdateModels.
Local Open Scope Z_scope.

Record systemdUnitState : Type := mkUnitState {
  us_Name : string; us_LoadState : string; us_ActiveState : string; us_SubState : string;
  us_Result : string; us_ProbeErr : option GoErr
}.
#[export] Instance eta_systemdUnitState : Eta systemdUnitState := fun s =>
  mkUnitState (us_Name s) (us_LoadState s) (us_ActiveState s) (us_SubState s) (us_Result s) (us_ProbeErr s).

Record updaterRuntimeStatus : Type := mkRuntimeStatus {
  rt_PathUnit : systemdUnitState; rt_ServiceUnit : systemdUnitState; rt_ServiceExecPath : string;
  rt_ServiceExecExists : bool; rt_ProbeErr : option GoErr
}.
#[export] Instance eta_updaterRuntimeStatus : Eta updaterRuntimeStatus := fun s =>
  mkRuntimeStatus (rt_PathUnit s) (rt_ServiceUnit s) (rt_ServiceExecPath s) (rt_ServiceExecExists s) (rt_ProbeErr s).

Definition is_some {A} (o : option A) : bool := match o with Some _ => true | None => false end.

(** ** Reading the states *)

Definition isSystemdLoadStateKnown (raw : string) : bool :=
  let state := ToLower (TrimSpace raw) in
  negb (existsb (String.eqb state) [""; "not-found"; "error"; "bad-setting"]).

Definition unit_Known (s : systemdUnitState) : bool := isSystemdLoadStateKnown (us_LoadState s).
Definition unit_Active (s : systemdUnitState) : bool := EqualFold (TrimSpace (us_ActiveState s)) "active".
Definition TriggerLimited (s : systemdUnitState) : bool :=
  Contains (ToLower (TrimSpace (us_Result s))) "trigger-limit".
Definition StartLimited (s : systemdUnitState) : bool :=
  Contains (ToLower (TrimSpace (us_Result s))) "start-limit".

Definition Healthy (s : updaterRuntimeStatus) : bool :=
  if is_some (rt_ProbeErr s) then false
  else if negb (unit_Known (rt_PathUnit s)) || negb (unit_Active (rt_PathUnit s)) then false
  else if negb (unit_Known (rt_ServiceUnit s)) then false
  else rt_ServiceExecExists s.

Definition stateOrUnknown (v : string) : string :=
  if String.eqb (TrimSpace v) "" then "unknown" else TrimSpace v.

(** ['\''] as a shell writes it inside single quotes. *)
Definition shell_quote : string := of_bytes [39; 34; 39; 34; 39].
Definition shQuote (v : string) : string := "'" +:+ ReplaceAll v "'" shell_quote +:+ "'".

Definition updaterRuntimeRepairHint : string :=
  "run systemctl status despatch-updater.path --no-pager && systemctl status despatch-updater.service --no-pager".
Definition updaterUnitInstallRepairHint (cfg : UpdateConfig) : string :=
  "install despatch-updater.path and despatch-updater.service into "
  +:+ shQuote (path_text (UpdateSystemdUnitDir cfg))
  +:+ ", run systemctl daemon-reload, then reset-failed and enable --now despatch-updater.path".
Definition updaterPathActivationRepairHint : string :=
  "run systemctl daemon-reload && systemctl reset-failed despatch-updater.service despatch-updater.path && systemctl enable --now despatch-updater.path".
Definition updaterPathResetRepairHint : string :=
  "run systemctl reset-failed despatch-updater.service despatch-updater.path && systemctl restart despatch-updater.path".
Definition updaterServiceExecRepairHint : string :=
  "reinstall the current release so /opt/despatch/despatch-update-worker or /opt/despatch/despatch matches despatch-updater.service, then run systemctl daemon-reload && systemctl reset-failed despatch-updater.service despatch-updater.path && systemctl restart despatch-updater.path".

Definition updaterPathFailureSummary (s : updaterRuntimeStatus) : string :=
  let part name v := if String.eqb (TrimSpace v) "" then [] else [name +:+ "=" +:+ stateOrUnknown v] in
  Join " " (
    ["path_load_state=" +:+ stateOrUnknown (us_LoadState (rt_PathUnit s));
     "path_active_state=" +:+ stateOrUnknown (us_ActiveState (rt_PathUnit s))]
    ++ part "path_sub_state" (us_SubState (rt_PathUnit s))
    ++ part "path_result" (us_Result (rt_PathUnit s))
    ++ part "service_active_state" (us_ActiveState (rt_ServiceUnit s))
    ++ part "service_sub_state" (us_SubState (rt_ServiceUnit s))
    ++ part "service_result" (us_Result (rt_ServiceUnit s))).

Definition updaterPathFailureDetail (s : updaterRuntimeStatus) : string :=
  "despatch-updater.path is not active (" +:+ updaterPathFailureSummary s +:+ ")".

Definition start_limited (s : updaterRuntimeStatus) : bool :=
  TriggerLimited (rt_PathUnit s) || StartLimited (rt_PathUnit s) || StartLimited (rt_ServiceUnit s).

Definition runtime_diagnostic (s : updaterRuntimeStatus) (cfg : UpdateConfig) : option ConfigDiagnostic :=
  match rt_ProbeErr s with
  | Some e =>
      Some (mkConfigDiagnostic "updater_runtime_probe_failed"
              ("cannot inspect updater runtime via systemctl: " +:+ err_text e) updaterRuntimeRepairHint)
  | None =>
      if negb (unit_Known (rt_ServiceUnit s)) then
        Some (mkConfigDiagnostic "updater_service_missing"
                ("despatch-updater.service is not known to systemd (load_state="
                 +:+ stateOrUnknown (us_LoadState (rt_ServiceUnit s)) +:+ ")")
                (updaterUnitInstallRepairHint cfg))
      else if negb (unit_Known (rt_PathUnit s)) || negb (unit_Active (rt_PathUnit s)) then
        if start_limited s then
          Some (mkConfigDiagnostic "updater_path_trigger_limited" (updaterPathFailureDetail s)
                  updaterPathResetRepairHint)
        else
          Some (mkConfigDiagnostic "updater_path_inactive" (updaterPathFailureDetail s)
                  updaterPathActivationRepairHint)
      else if String.eqb (TrimSpace (rt_ServiceExecPath s)) "" then
        Some (mkConfigDiagnostic "updater_worker_missing"
                "cannot resolve ExecStart for despatch-updater.service from installed unit files"
                updaterServiceExecRepairHint)
      else if negb (rt_ServiceExecExists s) then
        Some (mkConfigDiagnostic "updater_worker_missing"
                ("despatch-updater.service resolves to missing executable " +:+ rt_ServiceExecPath s)
                updaterServiceExecRepairHint)
      else None
  end.

Definition StaleQueueError (s : updaterRuntimeStatus) : string :=
  match rt_ProbeErr s with
  | Some e => "queued request was not picked up because updater runtime inspection failed: " +:+ err_text e
  | None =>
      if negb (unit_Known (rt_ServiceUnit s)) then
        "queued request was not picked up because despatch-updater.service is not installed or not known to systemd"
      else if negb (unit_Known (rt_PathUnit s)) || negb (unit_Active (rt_PathUnit s)) then
        if start_limited s then
          "queued request was not picked up because despatch-updater.path hit a systemd trigger/start limit ("
          +:+ updaterPathFailureSummary s +:+ ")"
        else "queued request was not picked up because " +:+ updaterPathFailureDetail s
      else if String.eqb (TrimSpace (rt_ServiceExecPath s)) "" || negb (rt_ServiceExecExists s) then
        "queued request was not picked up because despatch-updater.service does not resolve to a working updater executable"
      else "queued request was not picked up by updater runtime within 30s; requeue update"
  end.

(** ** The executable of the service *)

(** One line of a unit file: whether a [[Service]] section is open, and the
    first [ExecStart] since the last empty one. *)
Definition unit_line (st : bool * string) (line : string) : bool * string :=
  let '(inService, execStart) := st in
  let trimmed := TrimSpace line in
  if String.eqb trimmed "" || HasPrefix trimmed "#" || HasPrefix trimmed ";" then st
  else if HasPrefix trimmed "[" && HasSuffix trimmed "]" then (EqualFold trimmed "[Service]", execStart)
  else if negb inService || negb (HasPrefix trimmed "ExecStart=") then st
  else
    let value := TrimSpace (TrimPrefix trimmed "ExecStart=") in
    if String.eqb value "" then (inService, "")
    else if String.eqb execStart "" then (inService, value)
    else st.

Definition newline : Ascii.ascii := ascii_of 10.

Definition unit_file (execStart : string) (raw : string) : string :=
  snd (fold_left unit_line (Split raw newline) (false, execStart)).

Section Runtime.
Context {env : Env} {machine : Machine}.

(** The files that are there, and what they start. *)
Fixpoint read_units (files : list Path) (execStart : string) (foundAny : bool) : UDB (string * bool) :=
  match files with
  | [] => ret (execStart, foundAny)
  | path :: files' =>
      let! r := attempt (os_ReadFile path) in
      match r with
      | Fail e => if Is_NotExist e then read_units files' execStart foundAny else throw e
      | Ok raw => read_units files' (unit_file execStart raw) true
      end
  end.

Definition resolveUpdaterServiceExecPath (cfg : UpdateConfig) : UDB string :=
  let overrideDir := updaterServiceOverrideDir cfg in
  let! r := attempt (os_ReadDir overrideDir) in
  let! overrides := match r with
                    | Ok entries => ret (map (fun ne => join overrideDir (fst ne))
                                          (List.filter (fun ne => negb (is_dir (snd ne))) entries))
                    | Fail e => if Is_NotExist e then ret [] else throw e
                    end in
  let! found := read_units (updaterServiceUnitPath cfg :: overrides) "" false in
  let '(execStart, foundAny) := found in
  if negb foundAny then throw os_ErrNotExist
  else match text_fields execStart with
       | [] => throw (ErrText "no ExecStart found in updater service units")
       | path :: _ => ret path
       end.

(** ** systemctl *)

Definition systemctlShowValue (unitName property : string) : UDB string :=
  let! r := exec_Command "systemctl"
              ["show"; "--property=" +:+ TrimSpace property; "--value"; TrimSpace unitName] in
  match r with
  | (out, Some e) => throw (ErrText (e +:+ " (" +:+ TrimSpace out +:+ ")"))
  | (out, None) => ret (TrimSpace out)
  end.

Definition inspectSystemdUnit (unitName : string) : UDB systemdUnitState :=
  let state := mkUnitState (TrimSpace unitName) "" "" "" "" None in
  let! load := attempt (systemctlShowValue unitName "LoadState") in
  match load with
  | Fail e =>
      ret (state <| us_LoadState := "unknown" |> <| us_ActiveState := "unknown" |>
                 <| us_ProbeErr := Some (ErrText ("systemctl show " +:+ TrimSpace unitName
                                                  +:+ " failed: " +:+ err_text e)) |>)
  | Ok loadState =>
      let state := state <| us_LoadState := loadState |> in
      let! active := attempt (systemctlShowValue unitName "ActiveState") in
      match active with
      | Fail e =>
          ret (state <| us_ActiveState := "unknown" |>
                     <| us_ProbeErr := Some (ErrText ("systemctl show " +:+ TrimSpace unitName
                                                      +:+ " active state failed: " +:+ err_text e)) |>)
      | Ok activeState =>
          let state := state <| us_ActiveState := activeState |> in
          let! sub := attempt (systemctlShowValue unitName "SubState") in
          let state := match sub with Ok v => state <| us_SubState := v |> | Fail _ => state end in
          let! result := attempt (systemctlShowValue unitName "Result") in
          ret (match result with Ok v => state <| us_Result := v |> | Fail _ => state end)
      end
  end.

(** A path in a unit file is absolute. *)
Definition text_path (s : string) : Path := join [] s.

Definition defaultUpdaterRuntimeProbe (cfg : UpdateConfig) : UDB updaterRuntimeStatus :=
  let! pathUnit := inspectSystemdUnit "despatch-updater.path" in
  let! serviceUnit := inspectSystemdUnit "despatch-updater.service" in
  let status := mkRuntimeStatus pathUnit serviceUnit "" false None in
  let! exec := attempt (resolveUpdaterServiceExecPath cfg) in
  let execPath := match exec with Ok p => p | Fail _ => "" end in
  let status := status <| rt_ServiceExecPath := execPath |> in
  let! stat := if String.eqb (TrimSpace execPath) "" then ret None
               else let! r := attempt (os_Stat (text_path execPath)) in ret (Some r) in
  let finish (status : updaterRuntimeStatus) : UDB updaterRuntimeStatus :=
    let status := match exec with
                  | Fail e => if Is_NotExist e then status else status <| rt_ProbeErr := Some e |>
                  | Ok _ => status
                  end in
    ret (match us_ProbeErr pathUnit, us_ProbeErr serviceUnit with
         | Some e, _ | None, Some e => status <| rt_ProbeErr := Some e |>
         | None, None => status
         end) in
  match stat with
  | Some (Ok _) => finish (status <| rt_ServiceExecExists := true |>)
  | Some (Fail e) => if Is_NotExist e then finish status else ret (status <| rt_ProbeErr := Some e |>)
  | None => finish status
  end.

Definition runCmd (name : string) (args : list string) : UDB unit :=
  let! r := exec_Command name args in
  match r with
  | (_, None) => ret tt
  | (out, Some e) =>
      throw (ErrText (name +:+ " " +:+ Join " " args +:+ " failed: " +:+ e +:+ " (" +:+ TrimSpace out +:+ ")"))
  end.

Definition systemdUnitKnown (unitName : string) : UDB bool :=
  let unit := TrimSpace unitName in
  if String.eqb unit "" then ret false
  else
    let! r := exec_Command "systemctl" ["show"; "--property=LoadState"; "--value"; unit] in
    match r with
    | (_, Some _) => ret false
    | (out, None) => ret (isSystemdLoadStateKnown out)
    end.
End Runtime.

(** Go source text with real line ends. *)
Definition lines_text (l : list string) : string := Join (of_bytes [10]) l.

Example unit_file_ex :
  (unit_file "" (lines_text ["[Unit]"; "ExecStart=/no"; "[service]"; "# ExecStart=/a"; " ExecStart= /bin/w run"; "ExecStart=/b"]),
   unit_file "/bin/w" (lines_text ["[Service]"; "ExecStart="; "ExecStart=/bin/x"]))
  = ("/bin/w run", "/bin/x").
Proof. vm_compute. reflexivity. Qed.

(** * GitHub: the releases of the repository (update/github.go) *)

Record githubReleaseAsset : Type := mkAsset { ga_Name : string; ga_URL : string }.
Record githubRelease : Type := mkRelease {
  gr_TagName : string; gr_Name : string; gr_PublishedAt : string; gr_HTMLURL : string;
  gr_Draft : bool; gr_Prerelease : bool; gr_Assets : list githubReleaseAsset
}.
Definition no_release : githubRelease := mkRelease "" "" "" "" false false [].

(** ** Decoding *)

Definition decode_asset (v : Json) : option githubReleaseAsset :=
  match v with
  | JObject l => name ← decode_text_field "name" "" l;
                 url ← decode_text_field "browser_download_url" "" l; Some (mkAsset name url)
  | JNull => Some (mkAsset "" "")
  | _ => None
  end.

Fixpoint decode_list {A} (f : Json -> option A) (l : list Json) : option (list A) :=
  match l with
  | [] => Some []
  | v :: l' => a ← f v; rest ← decode_list f l'; Some (a :: rest)
  end.

Fixpoint decode_list_field {A} (f : Json -> option A) (name : string) (acc : list A)
    (fields : list (string * Json)) : option (list A) :=
  match fields with
  | [] => Some acc
  | (k, v) :: fields' =>
      if EqualFold k name then
        match v with
        | JArray l => items ← decode_list f l; decode_list_field f name items fields'
        | JNull => decode_list_field f name [] fields'
        | _ => None
        end
      else decode_list_field f name acc fields'
  end.

Definition decode_release (v : Json) : option githubRelease :=
  match v with
  | JObject l =>
      tag ← decode_text_field "tag_name" "" l;
      name ← decode_text_field "name" "" l;
      published ← decode_text_field "published_at" "" l;
      url ← decode_text_field "html_url" "" l;
      draft ← decode_bool_field "draft" false l;
      pre ← decode_bool_field "prerelease" false l;
      assets ← decode_list_field decode_asset "assets" [] l;
      Some (mkRelease tag name published url draft pre assets)
  | JNull => Some no_release
  | _ => None
  end.

Definition decode_releases (v : Json) : option (list githubRelease) :=
  match v with
  | JArray l => decode_list decode_release l
  | JNull => Some []
  | _ => None
  end.

(** ** Requests *)

(** The error of another status, [githubStatusError]. *)
Definition status_text (code : Z) : string := "github api returned status " +:+ format_int code.

Inductive Reply (A : Type) : Type :=
| NotModified (etag : string)
| Fetched (etag : string) (a : A)
| StatusError (code : Z).
Arguments NotModified {A} etag.
Arguments Fetched {A} etag a.
Arguments StatusError {A} code.

Section GitHub.
Context {env : Env} {machine : Machine} (cfg : UpdateConfig).

Definition baseURL : string := "https://api.github.com".

(** Go decodes after checking that the value is complete, so a connection that
    breaks inside it is the error of the connection. *)
Definition decode_body {A} (decode : Json -> option A) (resp : HTTPResponse) : Res A :=
  match json_decode (hr_Body resp) with
  | Some v => match decode v with Some a => Ok a | None => Fail ErrFieldType end
  | None => match hr_BodyErr resp with Some msg => Fail (ErrText msg) | None => Fail ErrSyntax end
  end.

Definition requestJSON {A} (decode : Json -> option A) (path etag : string) : UDB (Reply A) :=
  let token := TrimSpace (UpdateGitHubToken cfg) in
  let headers :=
    [("Accept", "application/vnd.github+json"); ("User-Agent", "despatch-updater/1")]
    ++ (if String.eqb token "" then [] else [("Authorization", "Bearer " +:+ token)])
    ++ (if String.eqb (TrimSpace etag) "" then [] else [("If-None-Match", etag)]) in
  let! resp := http_Do (TrimRightByte baseURL (ascii_of 47) +:+ path) headers in
  if hr_StatusCode resp =? 304 then ret (NotModified (hr_ETag resp))
  else if hr_StatusCode resp =? 200 then
    let! out := of_res (decode_body decode resp) in ret (Fetched (hr_ETag resp) out)
  else ret (StatusError (hr_StatusCode resp)).

Definition repo_path : string :=
  "/repos/" +:+ PathEscape (UpdateRepoOwner cfg) +:+ "/" +:+ PathEscape (UpdateRepoName cfg).

Definition status_error {A} (code : Z) : UDB A := throw (ErrText (status_text code)).

Definition latestReleaseRaw (etag : string) : UDB (Reply githubRelease) :=
  requestJSON decode_release (repo_path +:+ "/releases/latest") etag.

Definition latestAnyReleaseRaw (etag : string) : UDB (Reply githubRelease) :=
  let! r := requestJSON decode_releases (repo_path +:+ "/releases?per_page=10") etag in
  match r with
  | StatusError code => ret (StatusError code)
  | NotModified tag => ret (NotModified tag)
  | Fetched tag l =>
      match List.find (fun rel => negb (gr_Draft rel) && negb (String.eqb (TrimSpace (gr_TagName rel)) "")) l with
      | Some rel => ret (Fetched tag rel)
      | None => throw (ErrText "github releases list is empty")
      end
  end.

(** The newest release, its ETag, and whether it is the one known. *)
Definition latestPreferredReleaseRaw (etag : string) : UDB (githubRelease * string * bool) :=
  let answer (r : Reply githubRelease) : UDB (githubRelease * string * bool) :=
    match r with
    | Fetched tag rel => ret (rel, tag, false)
    | NotModified tag => ret (no_release, tag, true)
    | StatusError code => status_error code
    end in
  let! r := latestReleaseRaw etag in
  match r with
  | StatusError code =>
      if code =? 404 then let! fallback := latestAnyReleaseRaw etag in answer fallback
      else status_error code
  | _ => answer r
  end.

Definition releaseByTag (tag : string) : UDB githubRelease :=
  let! r := requestJSON decode_release (repo_path +:+ "/releases/tags/" +:+ PathEscape tag) "" in
  match r with
  | Fetched _ rel => ret rel
  | NotModified _ => ret no_release
  | StatusError code => status_error code
  end.

(** [time.Parse(time.RFC3339, s)]; the text of its error is not kept. *)
Definition toReleaseInfo (r : githubRelease) : Res ReleaseInfo :=
  let tag := TrimSpace (gr_TagName r) in
  if String.eqb tag "" then Fail (ErrText "latest release has empty tag")
  else
    let info t := Ok (mkReleaseInfo tag (TrimSpace (gr_Name r)) t (TrimSpace (gr_HTMLURL r))) in
    if String.eqb (TrimSpace (gr_PublishedAt r)) "" then info ZeroTime
    else match time_Parse (gr_PublishedAt r) with
         | Some t => info t
         | None => Fail (ErrText "invalid release timestamp")
         end.

Definition latestRelease (etag : string) : UDB (ReleaseInfo * string * bool) :=
  let! out := latestPreferredReleaseRaw etag in
  let '(rel, newETag, notModified) := out in
  if notModified then ret (mkReleaseInfo "" "" ZeroTime "", newETag, true)
  else let! info := of_res (toReleaseInfo rel) in ret (info, newETag, false).
End GitHub.

Fixpoint find_asset (assets : list githubReleaseAsset) (assetName : string) : option string :=
  match assets with
  | [] => None
  | a :: assets' =>
      if EqualFold (TrimSpace (ga_Name a)) (TrimSpace assetName) && negb (String.eqb (TrimSpace (ga_URL a)) "")
      then Some (TrimSpace (ga_URL a))
      else find_asset assets' assetName
  end.
Definition findAssetURL (rel : githubRelease) (assetName : string) : option string :=
  find_asset (gr_Assets rel) assetName.
