(* ===== verification/UpdateFiles.v ===== *)
(** * UpdateFiles: copying, swapping and unpacking

    The file operations of update/worker.go.  A walk takes its list of entries
    at once; nothing the callers do while they walk changes it. *)

From S2P Require Import Prelude GoStrings Effects GoStd GoText Models Middleware GoFmt FileSystem UpdateHost.
From S2P Require Import UpdateModels.
Local Open Scope Z_scope.

(** ** Walks *)

Definition walk_tree (p : Path) (fs : FS) : Res FS :=
  match Lstat p fs with Ok _ => Ok (walk p fs) | Fail e => Fail e end.

Section Each.
Context {A : Type}.
Fixpoint for_each (f : A -> UDB unit) (l : list A) : UDB unit :=
  match l with
  | [] => ret tt
  | a :: l' => do! f a in for_each f l'
  end.
End Each.

(** What a relative path is below a directory. *)
Definition below_dir (src dst path : Path) : Path := dst ++ default [] (strip src path).

Definition executable (mode : Z) : bool := negb (Z.land mode 73 =? 0).

(** ** Extraction *)

(** The components of the cleaned name of an entry, if it is let in. *)
Definition archive_target (dest : Path) (name : string) : option Path :=
  let cleaned := Clean (TrimPrefix name "/") in
  if String.eqb cleaned "." || HasPrefix cleaned ".." then None
  else
    let target := join dest cleaned in
    if negb (HasPrefix (path_text target) (path_text dest +:+ "/")) && negb (path_eqb target dest) then None
    else Some target.

Section Files.
Context {env : Env} {machine : Machine}.

Definition os_WalkDir (p : Path) : UDB FS := os_read (named "lstat" p) (walk_tree p).

Definition extract_entry (dest : Path) (hdr : TarEntry) : UDB unit :=
  match archive_target dest (th_Name hdr) with
  | None => throw (ErrText ("invalid archive path: " +:+ Quote (th_Name hdr)))
  | Some target =>
      match th_Typeflag hdr with
      | TypeDir => os_MkdirAll target 493
      | TypeReg =>
          do! os_MkdirAll (parent target) 493 in
          do! os_Create target (th_Mode hdr) in
          file_Write target (th_Data hdr)
      | TypeOther => ret tt
      end
  end.

Definition extractTarGz (src dest : Path) : UDB unit :=
  do! os_MkdirAll dest 488 in
  let! data := os_ReadFile src in
  let archive := read_archive data in
  match ar_HeaderErr archive with
  | Some msg => throw (ErrText msg)
  | None =>
      do! for_each (extract_entry dest) (ar_Entries archive) in
      match ar_EndErr archive with Some msg => throw (ErrText msg) | None => ret tt end
  end.

(** ** The payload *)

Definition required_paths : list string :=
  ["despatch"; "despatch-pam-reset-helper"; "despatch-update-worker"; "web"; "migrations"; "deploy"].

Fixpoint hasRequiredPaths (root : Path) (required : list string) : UDB bool :=
  match required with
  | [] => ret true
  | rel :: required' =>
      let! r := attempt (os_Stat (join root rel)) in
      match r with Fail _ => ret false | Ok _ => hasRequiredPaths root required' end
  end.

Definition preparedPayloadReady (path : Path) : UDB bool := hasRequiredPaths path required_paths.

Definition ErrPayloadMissing : GoErr :=
  ErrText "release payload missing required files (despatch, despatch-pam-reset-helper, despatch-update-worker, web, migrations, deploy)".

Definition findPayloadRoot (extractDir : Path) : UDB Path :=
  let! here := hasRequiredPaths extractDir required_paths in
  if here then ret extractDir
  else
    let! entries := os_ReadDir extractDir in
    match entries with
    | [(name, e)] =>
        if is_dir e then
          let root := join extractDir name in
          let! inside := hasRequiredPaths root required_paths in
          if inside then ret root else throw ErrPayloadMissing
        else throw ErrPayloadMissing
    | _ => throw ErrPayloadMissing
    end.

Definition webI18nNativeLibraryName : string :=
  if String.eqb machine_os "darwin" then "liblp_i18n.dylib"
  else if String.eqb machine_os "linux" then "liblp_i18n.so"
  else if String.eqb machine_os "windows" then "lp_i18n.dll"
  else "".

(** ** Copies *)

(** [os.Open], and reading what was opened. *)
Definition copyFile (src dst : Path) (mode : Z) : UDB unit :=
  do! os_Stat src in
  do! os_MkdirAll (parent dst) 493 in
  do! os_Create dst mode in
  let! data := os_ReadFile src in
  file_Write dst data.

Definition copy_entry (src dst : Path) (pe : Path * Entry) : UDB unit :=
  let target := below_dir src dst (fst pe) in
  if is_dir (snd pe) then os_MkdirAll target (e_mode (snd pe))
  else copyFile (fst pe) target (e_mode (snd pe)).

Definition copyDir (src dst : Path) : UDB unit :=
  let! entries := os_WalkDir src in for_each (copy_entry src dst) entries.

Definition normalize_entry (pe : Path * Entry) : UDB unit :=
  match e_kind (snd pe) with
  | KLink _ => ret tt
  | KDir => os_Chmod (fst pe) 493
  | KFile _ => os_Chmod (fst pe) (if executable (e_mode (snd pe)) then 493 else 420)
  end.

Definition normalizeRuntimeTreePermissions (root : Path) : UDB unit :=
  let! entries := os_WalkDir root in for_each normalize_entry entries.

(** ** Moves *)

Definition movePathWithCrossDeviceFallback (src dst : Path) : UDB unit :=
  let! r := attempt (os_Rename src dst) in
  match r with
  | Ok _ => ret tt
  | Fail err =>
      if negb (Is_errno err EXDEV) then
        if Is_NotExist err then
          let! s := attempt (os_Stat src) in
          match s with
          | Ok _ => throw err
          | Fail statErr => if Is_NotExist statErr then ret tt else throw statErr
          end
        else throw err
      else
        let! s := attempt (os_Stat src) in
        match s with
        | Fail e => if Is_NotExist e then ret tt else throw e
        | Ok info =>
            if is_dir info then do! copyDir src dst in os_RemoveAll src
            else do! copyFile src dst (e_mode info) in os_Remove src
        end
  end.

(** The error goes to standard error. *)
Definition archivePreviousPathBestEffort (src dst : Path) : UDB unit :=
  ignore (movePathWithCrossDeviceFallback src dst).

Definition swapPath (current staged previous : Path) : UDB unit :=
  do! os_Rename current previous in
  let! r := attempt (os_Rename staged current) in
  match r with
  | Ok _ => ret tt
  | Fail e => do! ignore (os_Rename previous current) in throw e
  end.

Definition swapPathOptional (current staged previous : Path) : UDB unit :=
  let! s := attempt (os_Stat current) in
  let! currentExists := match s with
                        | Ok _ => ret true
                        | Fail e => if Is_NotExist e then ret false else throw e
                        end in
  do! when currentExists (os_Rename current previous) in
  let! r := attempt (os_Rename staged current) in
  match r with
  | Ok _ => ret tt
  | Fail e => do! when currentExists (ignore (os_Rename previous current)) in throw e
  end.

(** ** Old directories *)

Definition trim_prepared (baseDir keepPath : Path) (ne : string * Entry) : UDB unit :=
  let name := TrimSpace (fst ne) in
  if negb (is_dir (snd ne)) then ret tt
  else if negb (HasPrefix name "prepared-") then ret tt
  else
    let path := join baseDir name in
    if path_eqb path keepPath then ret tt else ignore (os_RemoveAll path).

Definition trimPreparedPayloads (baseDir keepPath : Path) : UDB unit :=
  let! r := attempt (os_ReadDir baseDir) in
  match r with
  | Fail _ => ret tt
  | Ok entries => for_each (trim_prepared baseDir keepPath) entries
  end.

(** Newest first; directories of one age stay in the order of their names. *)
Fixpoint insert_newest (it : string * Z) (l : list (string * Z)) : list (string * Z) :=
  match l with
  | [] => [it]
  | it' :: l' => if snd it' <? snd it then it :: l else it' :: insert_newest it l'
  end.

Fixpoint dated (base : Path) (entries : list (string * Entry)) : UDB (list (string * Z)) :=
  match entries with
  | [] => ret []
  | (name, e) :: entries' =>
      if is_dir e then
        let! t := mod_time (join base name) in
        let! rest := dated base entries' in ret ((name, t) :: rest)
      else dated base entries'
  end.

Definition trimBackups (base : Path) (keep : Z) : UDB unit :=
  let! r := attempt (os_ReadDir base) in
  match r with
  | Fail _ => ret tt
  | Ok entries =>
      let! all := dated base entries in
      let all := fold_left (fun acc it => insert_newest it acc) all [] in
      for_each (fun it => ignore (os_RemoveAll (join base (fst it)))) (drop (Z.to_nat keep) all)
  end.

(** One round per pause of 200 ms until the deadline has passed. *)
Fixpoint poll_path (rounds : nat) (target : Path) (deadline : Z) : UDB bool :=
  let! r := attempt (os_Stat target) in
  match r with
  | Ok _ => ret true
  | Fail _ =>
      let! now := time_Now in
      if deadline <? now then ret false
      else
        do! time_Sleep (200 * 1000000) in
        match rounds with O => ret false | S n => poll_path n target deadline end
  end.

Definition waitForPath (path : string) (timeout : Z) : UDB bool :=
  let target := TrimSpace path in
  if String.eqb target "" then ret false
  else
    let! start := time_Now in
    poll_path (Z.to_nat (timeout / (200 * 1000000)) + 1) (join [] target) (start + timeout).
End Files.

Example archive_target_ex :
  map (archive_target ["w"]) ["a/b"; "/a"; "//etc/passwd"; "../x"; "a/../../x"; "./"; "..data/x"; "a/./b/"]
  = [Some ["w"; "a"; "b"]; Some ["w"; "a"]; Some ["w"; "etc"; "passwd"]; None; None; None; None;
     Some ["w"; "a"; "b"]].
Proof. vm_compute. reflexivity. Qed.

(** * UpdateEnv: the migration of the installed .env file

    migrateLegacyPasswordResetEnv of update/worker.go and its helpers: an
    installation whose password reset was set up for an unauthenticated local
    submission port is moved to port 25. *)

Definition equals_sign : Ascii.ascii := ascii_of 61.

(** ** The lines *)

(** The values by key, the newest first. *)
Definition envFileValues (lines : list string) : list (string * string) :=
  fold_left (fun values line =>
    match Cut line equals_sign with
    | Some (before, after) =>
        if String.eqb before "" then values
        else
          let key := TrimSpace before in
          if String.eqb key "" || HasPrefix key "#" then values
          else (key, TrimSpace after) :: values
    | None => values
    end) lines [].

Fixpoint env_value (values : list (string * string)) (key : string) : string :=
  match values with
  | [] => ""
  | (k, v) :: values' => if String.eqb k key then v else env_value values' key
  end.
Definition envValueTrimmed (values : list (string * string)) (key : string) : string :=
  TrimSpace (env_value values key).

Fixpoint envFileSet (lines : list string) (key value : string) : list string :=
  match lines with
  | [] => [key +:+ "=" +:+ value]
  | line :: lines' =>
      if HasPrefix line (key +:+ "=") then (key +:+ "=" +:+ value) :: lines'
      else line :: envFileSet lines' key value
  end.

(** ** What the values say *)

Definition truthy (v : string) : bool :=
  existsb (String.eqb v) ["1"; "true"; "yes"; "y"; "on"].
Definition envFlagTrue (values : list (string * string)) (key : string) : bool :=
  truthy (ToLower (TrimSpace (env_value values key))).

Definition installDeployMode (values : list (string * string)) : string :=
  let mode := envValueTrimmed values "INSTALL_DEPLOY_MODE" in
  if negb (String.eqb mode "") then mode else envValueTrimmed values "DEPLOY_MODE".

Definition isLoopbackResetSMTPHost (host : string) : bool :=
  existsb (String.eqb (ToLower (TrimSpace host))) ["127.0.0.1"; "localhost"; "::1"; "[::1]"].

Definition shouldMigrateLegacyPasswordResetEnv (values : list (string * string)) : bool :=
  if EqualFold (envValueTrimmed values "PASSWORD_RESET_SENDER") "log" then false
  else if negb (isLoopbackResetSMTPHost (envValueTrimmed values "SMTP_HOST")) then false
  else if negb (String.eqb (envValueTrimmed values "SMTP_PORT") "587") then false
  else if negb (envFlagTrue values "SMTP_STARTTLS") || envFlagTrue values "SMTP_TLS" then false
  else if negb (String.eqb (envValueTrimmed values "PASSWORD_RESET_SMTP_USER") "")
          || negb (String.eqb (envValueTrimmed values "SMTP_USER") "") then false
  else true.

Definition preferredPublicResetHost (values : list (string * string)) : string :=
  let host := envValueTrimmed values "PROXY_SERVER_NAME" in
  if EqualFold (installDeployMode values) "proxy" && negb (String.eqb host "") then host
  else envValueTrimmed values "BASE_DOMAIN".

Definition derivePasswordResetSenderDomain (host : string) : string :=
  let domain := ToLower (TrimSpace host) in
  if HasPrefix domain "mail." && (5 <? go_len domain) then TrimPrefix domain "mail."
  else if String.eqb domain "" then "example.com"
  else domain.

Definition shouldRewritePasswordResetFrom (current : string) (values : list (string * string)) : bool :=
  let current := ToLower (TrimSpace current) in
  if String.eqb current "" || HasSuffix current "@example.com" then true
  else
    let base := ToLower (TrimSpace (envValueTrimmed values "BASE_DOMAIN")) in
    let publicHost := ToLower (TrimSpace (preferredPublicResetHost values)) in
    String.eqb current ("no-reply@" +:+ base) || String.eqb current ("no-reply@" +:+ publicHost).

Definition shouldRewritePasswordResetBaseURL (current : string) : bool :=
  let current := ToLower (TrimSpace current) in
  if String.eqb current "" then true
  else Contains current "127.0.0.1" || Contains current "localhost" || Contains current "example.com".

(** [strings.Trim(s, "[]")] *)
Definition trim_brackets (s : string) : string :=
  let drop := fix go (l : list Z) := match l with
                | b :: l' => if (b =? 91) || (b =? 93) then go l' else l | [] => [] end in
  of_bytes (rev (drop (rev (drop (bytes s))))).

Definition colon : Ascii.ascii := ascii_of 58.

(** The host and port of [LISTEN_ADDR]. *)
Definition listen_parts (values : list (string * string)) : string * string :=
  let listen := envValueTrimmed values "LISTEN_ADDR" in
  if HasPrefix listen ":" then (envValueTrimmed values "BASE_DOMAIN", TrimPrefix listen ":")
  else match cut_last colon (String.list_ascii_of_string listen) with
       | Some (before, after) =>
           (trim_brackets (TrimSpace (String.string_of_list_ascii before)),
            TrimSpace (String.string_of_list_ascii after))
       | None => (envValueTrimmed values "BASE_DOMAIN", "8080")
       end.

Definition derivePasswordResetBaseURL (values : list (string * string)) : string :=
  if EqualFold (installDeployMode values) "proxy" then
    let host := envValueTrimmed values "PROXY_SERVER_NAME" in
    let host := if String.eqb host "" then envValueTrimmed values "BASE_DOMAIN" else host in
    let host := if String.eqb host "" then "127.0.0.1" else host in
    if envFlagTrue values "PROXY_TLS" then "https://" +:+ host else "http://" +:+ host
  else
    let '(host, port) := listen_parts values in
    let host := if existsb (String.eqb host) [""; "0.0.0.0"; "::"] || isLoopbackResetSMTPHost host
                then envValueTrimmed values "BASE_DOMAIN" else host in
    let host := if String.eqb host "" then "127.0.0.1" else host in
    let port := if String.eqb port "" then "8080" else port in
    "http://" +:+ host +:+ ":" +:+ port.

(** ** The file *)

Definition newline_text : string := of_bytes [10].

Definition env_lines (raw : string) : list string :=
  let lines := Split (ReplaceAll raw (of_bytes [13; 10]) newline_text) (ascii_of 10) in
  match rev lines with "" :: rest => rev rest | _ => lines end.

(** The new lines of a file that is to be migrated. *)
Definition migrated_lines (lines : list string) : option (list string) :=
  let values := envFileValues lines in
  if negb (shouldMigrateLegacyPasswordResetEnv values) then None
  else
    let baseDomain := preferredPublicResetHost values in
    let resetFrom := envValueTrimmed values "PASSWORD_RESET_FROM" in
    let targetFrom := "no-reply@" +:+ derivePasswordResetSenderDomain baseDomain in
    let lines := if shouldRewritePasswordResetFrom resetFrom values
                 then envFileSet lines "PASSWORD_RESET_FROM" targetFrom else lines in
    let lines := if shouldRewritePasswordResetBaseURL (envValueTrimmed values "PASSWORD_RESET_BASE_URL")
                 then envFileSet lines "PASSWORD_RESET_BASE_URL" (derivePasswordResetBaseURL values)
                 else lines in
    let lines := envFileSet lines "SMTP_PORT" "25" in
    let lines := envFileSet lines "SMTP_STARTTLS" "false" in
    let lines := envFileSet lines "SMTP_TLS" "false" in
    Some (if EqualFold (envValueTrimmed values "DOVECOT_AUTH_MODE") "pam"
             && negb (EqualFold (envValueTrimmed values "PASSWORD_RESET_SENDER") "log")
          then envFileSet lines "PASSWORD_RESET_EXTERNAL_SENDER_READY" "true" else lines).

Section Env.
Context {machine : Machine}.

Definition migrateLegacyPasswordResetEnv (path : Path) : UDB bool :=
  let! s := attempt (os_Stat path) in
  match s with
  | Fail e => if Is_NotExist e then ret false else throw e
  | Ok info =>
      let! raw := os_ReadFile path in
      match migrated_lines (env_lines raw) with
      | None => ret false
      | Some lines =>
          let tmp := tmp_path path ".tmp-reset-migration" in
          let output := Join newline_text lines +:+ newline_text in
          do! os_WriteFile tmp output (e_mode info) in
          let! r := attempt (os_Rename tmp path) in
          match r with
          | Ok _ => ret true
          | Fail e => do! ignore (os_Remove tmp) in throw e
          end
      end
  end.
End Env.

Example migrated_ex :
  migrated_lines ["# mail"; "SMTP_HOST=localhost"; "SMTP_PORT=587"; "SMTP_STARTTLS=true";
                  "BASE_DOMAIN = mail.Example.org"; "DOVECOT_AUTH_MODE=PAM"; "LISTEN_ADDR=127.0.0.1:8080"]
  = Some ["# mail"; "SMTP_HOST=localhost"; "SMTP_PORT=25"; "SMTP_STARTTLS=false";
          "BASE_DOMAIN = mail.Example.org"; "DOVECOT_AUTH_MODE=PAM"; "LISTEN_ADDR=127.0.0.1:8080";
          "PASSWORD_RESET_FROM=no-reply@example.org";
          "PASSWORD_RESET_BASE_URL=http://mail.Example.org:8080"; "SMTP_TLS=false";
          "PASSWORD_RESET_EXTERNAL_SENDER_READY=true"].
Proof. vm_compute. reflexivity. Qed.
