(* ===== verification/UpdateVerify.v ===== *)
(** * UpdateVerify: from a release to a payload that may be installed

    update/worker.go: the assets of a release, their download, the checksum and
    the signature, and prepareReleasePayload, which leaves a verified payload
    under the work directory. *)

From S2P Require Import Prelude GoStrings Effects GoStd GoText MessageIds Models GoFmt FileSystem UpdateHost.
From S2P Require Import UpdateModels UpdateRuntime UpdateFiles.
Local Open Scope Z_scope.

(** ** Assets *)

(** Names in order, without those that are there in another case. *)
Definition add_asset_name (out : list string) (name : string) : list string :=
  let n := TrimSpace (ToLower name) in
  if String.eqb n "" then out
  else if existsb (fun m => String.eqb (TrimSpace (ToLower m)) n) out then out
  else out ++ [name].

Definition arch_aliases (normalized : string) : list string :=
  normalized ::
  (if existsb (String.eqb normalized) ["amd64"; "x86_64"; "x64"] then ["amd64"; "x86_64"; "x64"]
   else if existsb (String.eqb normalized) ["arm64"; "aarch64"] then ["arm64"; "aarch64"]
   else []).

Definition archiveAssetCandidates (goarch arch : string) : list string :=
  let normalized := ToLower (TrimSpace arch) in
  let normalized := if String.eqb normalized "" then goarch else normalized in
  fold_left (fun out alias =>
    let a := TrimSpace (ToLower alias) in
    if String.eqb a "" then out
    else fold_left add_asset_name
           ["despatch-linux-" +:+ a +:+ ".tar.gz"; "despatch-linux-" +:+ a +:+ ".tgz";
            "despatch_" +:+ a +:+ "_linux.tar.gz"; "despatch_" +:+ a +:+ "_linux.tgz"] out)
    (arch_aliases normalized) [].

Fixpoint first_asset (rel : githubRelease) (candidates : list string) : option (string * string) :=
  match candidates with
  | [] => None
  | wanted :: candidates' =>
      match findAssetURL rel wanted with
      | Some url => Some (TrimSpace wanted, TrimSpace url)
      | None => first_asset rel candidates'
      end
  end.
Definition resolveArchiveAsset (rel : githubRelease) (goarch arch : string) : option (string * string) :=
  first_asset rel (archiveAssetCandidates goarch arch).

Fixpoint insert_text (s : string) (l : list string) : list string :=
  match l with
  | [] => [s]
  | t :: l' => if key_leb s t then s :: l else t :: insert_text s l'
  end.
Definition releaseAssetNames (rel : githubRelease) : list string :=
  match List.filter (fun n => negb (String.eqb n "")) (map (fun a => TrimSpace (ga_Name a)) (gr_Assets rel)) with
  | [] => ["<none>"]
  | names => fold_right insert_text [] names
  end.

(** ** Keys and signatures *)

(** [base64.StdEncoding.DecodeString]: padded. *)
Definition base64_padded (s : string) : option (list Z) :=
  let l := List.filter (fun b => negb ((b =? 10) || (b =? 13))) (bytes s) in
  if negb (Z.of_nat (length l) mod 4 =? 0) then None
  else match rev l with
       | 61 :: 61 :: r => b64_decode (rev r)
       | 61 :: r => b64_decode (rev r)
       | _ => b64_decode l
       end.
Definition base64_either (s : string) : option (list Z) :=
  match base64_padded s with Some l => Some l | None => base64_decode s end.

Definition decodePublicKey (raw : string) : Res (list Z) :=
  let key := TrimSpace raw in
  if String.eqb key "" then Fail (ErrText "empty update signing key")
  else match base64_either key with
       | None => Fail (ErrText "invalid update signing key encoding")
       | Some decoded =>
           if negb (Nat.eqb (length decoded) 32) then Fail (ErrText "invalid update signing key size")
           else Ok decoded
       end.

Definition decodeSignaturePayload (raw : string) : Res (list Z) :=
  let trimmed := TrimSpace raw in
  if String.eqb trimmed "" then Fail (ErrText "empty update signature")
  else match base64_either trimmed with
       | Some decoded =>
           if negb (Nat.eqb (length decoded) 64) then Fail (ErrText "invalid update signature size")
           else Ok decoded
       | None =>
           if go_len raw =? 64 then Ok (bytes raw)
           else Fail (ErrText "invalid update signature encoding")
       end.

(** ** Checksums *)

(** The checksum of the first line that names the archive. *)
Fixpoint listed_checksum (lines : list string) (archiveName : string) : string :=
  match lines with
  | [] => ""
  | line :: lines' =>
      match text_fields (TrimSpace line) with
      | sum :: name :: _ =>
          if String.eqb name archiveName || String.eqb (TrimPrefix name "*") archiveName then sum
          else listed_checksum lines' archiveName
      | _ => listed_checksum lines' archiveName
      end
  end.

(** ** URLs *)

(** The scheme [url.Parse] finds, in lower case; a URL it refuses for another
    reason is refused by the client. *)
Fixpoint scheme_of (acc l : list Z) : string :=
  match l with
  | b :: l' =>
      if ((97 <=? b) && (b <=? 122)) || ((65 <=? b) && (b <=? 90)) then scheme_of (acc ++ [b]) l'
      else if is_digit b || (b =? 43) || (b =? 45) || (b =? 46) then
        (if Nat.eqb (length acc) 0 then "" else scheme_of (acc ++ [b]) l')
      else if b =? 58 then ToLower (of_bytes acc)
      else ""
  | [] => ""
  end.
Definition url_Scheme (raw : string) : string := scheme_of [] (bytes raw).

Section Verify.
Context {env : Env} {machine : Machine} (cfg : UpdateConfig).

Definition verifyChecksumFile (checksumPath archivePath : Path) (archiveName : string) : UDB unit :=
  let! raw := os_ReadFile checksumPath in
  let expected := listed_checksum (Split raw (ascii_of 10)) archiveName in
  if String.eqb expected "" then throw (ErrText ("checksum for " +:+ archiveName +:+ " not found"))
  else
    let! data := os_ReadFile archivePath in
    let got := sha256_hex data in
    if negb (EqualFold (TrimSpace expected) got)
    then throw (ErrText ("checksum mismatch for " +:+ archiveName))
    else ret tt.

Fixpoint verify_any (keys : list string) (message : string) (signature : list Z) : Res unit :=
  match keys with
  | [] => Fail (ErrText "signature verification failed for checksums file")
  | key :: keys' =>
      match decodePublicKey key with
      | Fail e => Fail e
      | Ok pub => if ed25519_Verify pub message signature then Ok tt else verify_any keys' message signature
      end
  end.

Definition verifyChecksumSignature (checksumPath signaturePath : Path) (publicKeys : list string) : UDB unit :=
  match publicKeys with
  | [] => throw (ErrText "no update signing keys configured")
  | _ =>
      let! checksumBytes := os_ReadFile checksumPath in
      let! signatureRaw := os_ReadFile signaturePath in
      let! signature := of_res (decodeSignaturePayload signatureRaw) in
      of_res (verify_any publicKeys checksumBytes signature)
  end.

Definition downloadAsset (rawURL : string) (destPath : Path) : UDB unit :=
  if negb (String.eqb (url_Scheme rawURL) "https") then throw (ErrText "refusing non-https asset url")
  else
    let token := TrimSpace (UpdateGitHubToken cfg) in
    let headers := [("User-Agent", "despatch-updater/1")]
                   ++ (if String.eqb token "" then [] else [("Authorization", "Bearer " +:+ token)]) in
    let! resp := http_Do rawURL headers in
    if negb (hr_StatusCode resp =? 200)
    then throw (ErrText ("asset download failed with status " +:+ format_int (hr_StatusCode resp)))
    else
      do! os_MkdirAll (parent destPath) 488 in
      do! os_Create destPath 416 in
      do! file_Write destPath (hr_Body resp) in
      match hr_BodyErr resp with Some msg => throw (ErrText msg) | None => ret tt end.

Definition resolveRelease (targetVersion : string) : UDB githubRelease :=
  if negb (String.eqb targetVersion "") then releaseByTag cfg targetVersion
  else let! out := latestPreferredReleaseRaw cfg "" in
       let '(rel, _, _) := out in ret rel.

(** [defer]: the clean-up runs however the body ends. *)
Definition deferred {A} (m : UDB A) (cleanup : UDB unit) : UDB A :=
  let! r := attempt m in
  do! ignore cleanup in
  of_res r.

Definition asset_missing {A} (name : string) : UDB A :=
  throw (ErrText ("release asset " +:+ name +:+ " not found")).

(** The URL of the signature; none is wanted when signatures are not required. *)
Definition signature_url (release : githubRelease) : UDB string :=
  let signatureName := TrimSpace (UpdateSignatureAsset cfg) in
  if UpdateRequireSignature cfg then
    if String.eqb signatureName ""
    then throw (ErrText "UPDATE_SIGNATURE_ASSET is required when UPDATE_REQUIRE_SIGNATURE=true")
    else match findAssetURL release signatureName with
         | Some url => ret url
         | None => asset_missing signatureName
         end
  else ret "".

(** The optional files of a payload. *)
Definition copy_optional (src dst : Path) : UDB bool :=
  let! s := attempt (os_Stat src) in
  match s with
  | Ok _ => do! copyFile src dst 493 in ret true
  | Fail e => if Is_NotExist e then ret false else throw e
  end.

(** The payload's files one by one; whether it has the native library and the
    mail security service. *)
Definition copy_payload (from to : Path) : UDB (bool * bool) :=
  do! copyFile (join from "despatch") (join to "despatch") 493 in
  do! copyFile (join from "despatch-pam-reset-helper") (join to "despatch-pam-reset-helper") 493 in
  do! copyFile (join from "despatch-update-worker") (join to "despatch-update-worker") 493 in
  do! copyDir (join from "web") (join to "web") in
  do! copyDir (join from "migrations") (join to "migrations") in
  do! copyDir (join from "deploy") (join to "deploy") in
  let nativeLibraryName := webI18nNativeLibraryName in
  let! native := if String.eqb nativeLibraryName "" then ret false
                 else copy_optional (join from nativeLibraryName) (join to nativeLibraryName) in
  let! mailSec := copy_optional (join from "despatch-mailsec-service") (join to "despatch-mailsec-service") in
  ret (native, mailSec).

(** The archive in the run's own directory, checked and unpacked. *)
Definition fetch_payload (runWork : Path) (archiveName archiveURL checksumURL signatureURL : string) : UDB Path :=
  let archivePath := join runWork archiveName in
  let checksumPath := join runWork "checksums.txt" in
  do! downloadAsset archiveURL archivePath in
  do! downloadAsset checksumURL checksumPath in
  do! when (UpdateRequireSignature cfg)
        (let signaturePath := join runWork (TrimSpace (UpdateSignatureAsset cfg)) in
         do! downloadAsset signatureURL signaturePath in
         verifyChecksumSignature checksumPath signaturePath (UpdateSigningPublicKeys cfg)) in
  do! verifyChecksumFile checksumPath archivePath archiveName in
  let extracted := join runWork "extract" in
  do! extractTarGz archivePath extracted in
  findPayloadRoot extracted.

(** The payload under the name that later runs reuse. *)
Definition store_payload (payloadRoot preparedDir : Path) : UDB unit :=
  let tmpPrepared := tmp_path preparedDir ".tmp" in
  do! ignore (os_RemoveAll tmpPrepared) in
  deferred
    (do! os_MkdirAll tmpPrepared 488 in
     let! _copied := copy_payload payloadRoot tmpPrepared in
     do! ignore (os_RemoveAll preparedDir) in
     do! os_Rename tmpPrepared preparedDir in
     trimPreparedPayloads (workDir cfg) preparedDir)
    (os_RemoveAll tmpPrepared).

Definition prepareReleasePayload (targetVersion : string) : UDB (githubRelease * Path) :=
  let! release := resolveRelease (TrimSpace targetVersion) in
  let preparedDir := preparedPayloadDir cfg (gr_TagName release) in
  let! ready := preparedPayloadReady preparedDir in
  if ready then
    do! trimPreparedPayloads (workDir cfg) preparedDir in ret (release, preparedDir)
  else
    match resolveArchiveAsset release machine_arch machine_arch with
    | None =>
        throw (ErrText ("release archive for GOARCH=" +:+ machine_arch +:+ " not found (expected one of: "
                        +:+ Join ", " (archiveAssetCandidates machine_arch machine_arch)
                        +:+ "); available assets: " +:+ Join ", " (releaseAssetNames release)))
    | Some (archiveName, archiveURL) =>
        match findAssetURL release "checksums.txt" with
        | None => asset_missing "checksums.txt"
        | Some checksumURL =>
            let! signatureURL := signature_url release in
            let! now := time_Now in
            let runWork := join (workDir cfg)
              (".prepare-" +:+ sanitizePathToken (gr_TagName release) +:+ "-"
               +:+ sanitizePathToken (format_int (int64 now))) in
            do! ignore (os_RemoveAll runWork) in
            do! os_MkdirAll runWork 488 in
            deferred
              (let! payloadRoot := fetch_payload runWork archiveName archiveURL checksumURL signatureURL in
               do! store_payload payloadRoot preparedDir in
               ret (release, preparedDir))
              (os_RemoveAll runWork)
        end
    end.
End Verify.

Example candidates_ex : archiveAssetCandidates "amd64" " AMD64 "
  = ["despatch-linux-amd64.tar.gz"; "despatch-linux-amd64.tgz"; "despatch_amd64_linux.tar.gz";
     "despatch_amd64_linux.tgz"; "despatch-linux-x86_64.tar.gz"; "despatch-linux-x86_64.tgz";
     "despatch_x86_64_linux.tar.gz"; "despatch_x86_64_linux.tgz"; "despatch-linux-x64.tar.gz";
     "despatch-linux-x64.tgz"; "despatch_x64_linux.tar.gz"; "despatch_x64_linux.tgz"].
Proof. vm_compute. reflexivity. Qed.
Example scheme_ex : map url_Scheme ["HTTPS://x"; "http://x"; "//x"; "1a:b"; "a+1:b"; ""]
  = ["https"; "http"; ""; ""; "a+1"; ""].
Proof. vm_compute. reflexivity. Qed.
Example checksum_ex : listed_checksum ["# x"; "aa  b.tgz"; " cc *a.tgz x"; "dd a.tgz"] "a.tgz" = "cc".
Proof. vm_compute. reflexivity. Qed.
