(* ===== verification/UpdateApply.v ===== *)
(** * UpdateApply: installing a release, or putting the old one back

    applyRelease of update/worker.go.  The payload is copied to a stage
    directory inside the installation, each part of the installation is moved
    aside and the staged part moved in, and then the machine is brought up on
    the new parts; what fails after the swaps puts the old parts back. *)

From S2P Require Import Prelude GoStrings Effects GoStd GoText MessageIds Models Middleware FileSystem.
From S2P Require Import UpdateHost UpdateModels UpdateRuntime UpdateFiles UpdateVerify.
Local Open Scope Z_scope.

(** ** Health of the service *)

Definition JoinHostPort (host port : string) : string :=
  if Contains host ":" then "[" +:+ host +:+ "]:" +:+ port else host +:+ ":" +:+ port.

Definition localBaseURL (listenAddr : string) : string :=
  let addr := TrimSpace listenAddr in
  if String.eqb addr "" then "http://127.0.0.1:8080"
  else if HasPrefix addr ":" then "http://127.0.0.1" +:+ addr
  else match SplitHost addr, cut_last colon (String.list_ascii_of_string addr) with
       | Some host, Some (_, port) =>
           let host := TrimSpace host in
           let host := if existsb (String.eqb host) [""; "0.0.0.0"; "::"] then "127.0.0.1" else host in
           "http://" +:+ JoinHostPort host (String.string_of_list_ascii port)
       | _, _ => "http://127.0.0.1:8080"
       end.

Definition isReadOnlyOrPermissionError (e : GoErr) : bool := Is_Permission e || Is_errno e EROFS.

Section Health.
Context {env : Env} {machine : Machine}.

Fixpoint all_ok (base : string) (endpoints : list string) : UDB bool :=
  match endpoints with
  | [] => ret true
  | ep :: endpoints' =>
      let! r := attempt (http_Do (base +:+ ep) []) in
      match r with
      | Fail _ => ret false
      | Ok resp => if negb (hr_StatusCode resp =? 200) then ret false else all_ok base endpoints'
      end
  end.

Definition health_pause : Z := 1200 * 1000000.

(** One round per pause until the deadline has passed. *)
Fixpoint poll_health (rounds : nat) (base : string) (deadline : Z) : UDB unit :=
  let! allOK := all_ok base ["/health/live"; "/api/v1/setup/status"] in
  if allOK then ret tt
  else
    let! now := time_Now in
    if deadline <? now then throw (ErrText "health checks failed after restart")
    else
      do! time_Sleep health_pause in
      match rounds with
      | O => throw (ErrText "health checks failed after restart")
      | S n => poll_health n base deadline
      end.

Definition health_rounds : nat := 34.

Definition checkServiceHealth (listenAddr : string) : UDB unit :=
  let! start := time_Now in
  poll_health health_rounds (localBaseURL listenAddr) (start + 40 * Second).
End Health.

(** ** The parts of an installation *)

Record Swapped : Type := mkSwapped {
  pamSwapped : bool; workerSwapped : bool; deploySwapped : bool; nativeLibrarySwapped : bool;
  mailSecSwapped : bool
}.
#[export] Instance eta_Swapped : Eta Swapped := fun s =>
  mkSwapped (pamSwapped s) (workerSwapped s) (deploySwapped s) (nativeLibrarySwapped s) (mailSecSwapped s).

(** The version, whether the old parts were put back, and the error. *)
Record Outcome : Type := mkOutcome { o_version : string; o_rolled_back : bool; o_error : option GoErr }.

Section Apply.
Context {env : Env} {machine : Machine} (cfg : UpdateConfig).

Definition installed (name : string) : Path := join (UpdateInstallDir cfg) name.
Definition native : string := webI18nNativeLibraryName.

Section Run.
Variable runID : string.

Definition stageDir : Path := installed (".update-stage-" +:+ sanitizePathToken runID).
Definition previous (name : string) : Path := installed (".prev-" +:+ name +:+ "-" +:+ sanitizePathToken runID).

Definition prevBin : Path := previous "despatch".
Definition prevPam : Path := previous "pam-reset-helper".
Definition prevWorker : Path := previous "update-worker".
Definition prevWeb : Path := previous "web".
Definition prevMig : Path := previous "migrations".
Definition prevDeploy : Path := previous "deploy".
Definition prevNativeLibrary : Path := previous native.
Definition prevMailSec : Path := previous "mailsec".

Definition currentBin : Path := installed "despatch".
Definition currentPam : Path := installed "despatch-pam-reset-helper".
Definition currentWorker : Path := installed "despatch-update-worker".
Definition currentWeb : Path := installed "web".
Definition currentMig : Path := installed "migrations".
Definition currentDeploy : Path := installDeployDir cfg.
Definition currentNativeLibrary : Path := installed native.
Definition currentMailSec : Path := installed "despatch-mailsec-service".

Definition has_native : bool := negb (String.eqb native "").

(** ** Putting the old parts back *)

Definition put_back (prev current : Path) : UDB unit :=
  let! s := attempt (os_Stat prev) in
  match s with Ok _ => os_Rename prev current | Fail _ => ret tt end.

Definition rollback (sw : Swapped) : UDB unit :=
  do! ignore (os_RemoveAll currentWeb) in
  do! ignore (os_RemoveAll currentMig) in
  do! ignore (os_RemoveAll currentDeploy) in
  do! ignore (os_Remove currentBin) in
  do! when (pamSwapped sw) (ignore (os_Remove currentPam)) in
  do! when (workerSwapped sw) (ignore (os_Remove currentWorker)) in
  do! when (nativeLibrarySwapped sw && has_native) (ignore (os_Remove currentNativeLibrary)) in
  do! when (mailSecSwapped sw) (ignore (os_Remove currentMailSec)) in
  do! put_back prevWeb currentWeb in
  do! put_back prevMig currentMig in
  do! put_back prevBin currentBin in
  do! when (pamSwapped sw) (put_back prevPam currentPam) in
  do! when (workerSwapped sw) (put_back prevWorker currentWorker) in
  do! when (deploySwapped sw) (put_back prevDeploy currentDeploy) in
  do! when (nativeLibrarySwapped sw && has_native) (put_back prevNativeLibrary currentNativeLibrary) in
  when (mailSecSwapped sw) (put_back prevMailSec currentMailSec).

(** ** Moving the new parts in *)

Definition or_rollback (sw : Swapped) (m : UDB unit) : UDB unit :=
  let! r := attempt m in
  match r with
  | Ok _ => ret tt
  | Fail e => do! ignore (rollback sw) in throw e
  end.

Definition none_swapped : Swapped := mkSwapped false false false false false.

Definition swap_parts (nativePresent mailSecPresent : bool) : UDB Swapped :=
  let staged name := join stageDir name in
  do! swapPath currentBin (staged "despatch") prevBin in
  let sw := none_swapped in
  do! or_rollback sw (swapPathOptional currentPam (staged "despatch-pam-reset-helper") prevPam) in
  let sw := sw <| pamSwapped := true |> in
  do! or_rollback sw (swapPathOptional currentWorker (staged "despatch-update-worker") prevWorker) in
  let sw := sw <| workerSwapped := true |> in
  do! or_rollback sw (swapPath currentWeb (staged "web") prevWeb) in
  do! or_rollback sw (swapPath currentMig (staged "migrations") prevMig) in
  do! or_rollback sw (swapPathOptional currentDeploy (staged "deploy") prevDeploy) in
  let sw := sw <| deploySwapped := true |> in
  do! when nativePresent
        (or_rollback sw (swapPathOptional currentNativeLibrary (staged native) prevNativeLibrary)) in
  let sw := sw <| nativeLibrarySwapped := nativePresent |> in
  do! when mailSecPresent
        (or_rollback sw (swapPathOptional currentMailSec (staged "despatch-mailsec-service") prevMailSec)) in
  ret (sw <| mailSecSwapped := mailSecPresent |>).

(** ** Bringing the machine up on them *)

(** The old parts are put back: the answer is [err], or an error that says that
    they could not be.  [version] is what the answer names. *)
Definition undone (sw : Swapped) (version text : string) (err : GoErr) (after : UDB unit) : UDB Outcome :=
  let! r := attempt (rollback sw) in
  match r with
  | Fail rbErr => ret (mkOutcome version false (Some (ErrText (text +:+ "; rollback failed: " +:+ err_text rbErr))))
  | Ok _ => do! after in ret (mkOutcome version true (Some err))
  end.

(** A step, and the rest if it succeeds. *)
Definition step_or_undo {A} (sw : Swapped) (what : string) (err : GoErr -> GoErr) (m : UDB A)
    (rest : A -> UDB Outcome) : UDB Outcome :=
  let! r := attempt m in
  match r with
  | Ok a => rest a
  | Fail e => undone sw "" (what +:+ ": " +:+ err_text e) (err e) (ret tt)
  end.

Definition same_error (e : GoErr) : GoErr := e.

(** The unit files of the updater; whether systemd must read them again. *)
Fixpoint install_units (healthy : bool) (units : list (Path * Path * string)) : UDB (bool * option (string * GoErr)) :=
  match units with
  | [] => ret (false, None)
  | (src, dst, description) :: units' =>
      let! r := attempt (copyFile src dst 420) in
      match r with
      | Ok _ =>
          let! rest := install_units healthy units' in ret (true, snd rest)
      | Fail e =>
          if isReadOnlyOrPermissionError e && healthy then install_units healthy units'
          else ret (false, Some (description, e))
      end
  end.

Definition archive_previous (version : string) : UDB Outcome :=
  let! now := time_Now in
  let days := now / Second / 86400 in
  let s := (now / Second) mod 86400 in
  let '(y, m, d) := civil_date days in
  let stamp := of_bytes (two_digits (y / 100) ++ two_digits (y mod 100) ++ two_digits m ++ two_digits d ++ [84]
                         ++ two_digits (s / 3600) ++ two_digits (s / 60 mod 60) ++ two_digits (s mod 60)) in
  let backupDest := join (backupsDir cfg) (stamp +:+ "-" +:+ sanitizePathToken runID) in
  let! r := attempt (os_MkdirAll backupDest 488) in
  match r with
  | Fail _ => ret (mkOutcome version false None)
  | Ok _ =>
      do! archivePreviousPathBestEffort prevBin (join backupDest "despatch") in
      do! archivePreviousPathBestEffort prevPam (join backupDest "despatch-pam-reset-helper") in
      do! archivePreviousPathBestEffort prevWorker (join backupDest "despatch-update-worker") in
      do! when has_native (archivePreviousPathBestEffort prevNativeLibrary (join backupDest native)) in
      do! archivePreviousPathBestEffort prevMailSec (join backupDest "despatch-mailsec-service") in
      do! archivePreviousPathBestEffort prevWeb (join backupDest "web") in
      do! archivePreviousPathBestEffort prevMig (join backupDest "migrations") in
      do! archivePreviousPathBestEffort prevDeploy (join backupDest "deploy") in
      do! trimBackups (backupsDir cfg) (UpdateBackupKeep cfg) in
      ret (mkOutcome version false None)
  end.

Definition restart_service : UDB unit := runCmd "systemctl" ["restart"; UpdateServiceName cfg].

(** From the migration of the environment to the end. *)
Definition restart_and_check (sw : Swapped) (version : string) : UDB Outcome :=
  step_or_undo sw "password reset env migration failed"
    (fun e => ErrText ("password reset env migration failed: " +:+ err_text e))
    (migrateLegacyPasswordResetEnv (installed ".env")) (fun _ =>
  let! r := attempt restart_service in
  match r with
  | Fail e => undone sw "" ("service restart failed: " +:+ err_text e) e (ignore restart_service)
  | Ok _ =>
      let! h := attempt (checkServiceHealth (ListenAddr cfg)) in
      match h with
      | Fail e => undone sw version ("health check failed: " +:+ err_text e) e (ignore restart_service)
      | Ok _ => archive_previous version
      end
  end).

Definition start_mailsec (sw : Swapped) (mailSecPayloadPresent mailSecUnitNowPresent : bool) (version : string) :
    UDB Outcome :=
  if MailSecEnabled cfg && negb mailSecUnitNowPresent then
    undone sw "" "mailsec unit missing after update"
      (ErrText "mailsec is enabled but systemd unit despatch-mailsec.service is still missing after update") (ret tt)
  else if MailSecEnabled cfg || mailSecPayloadPresent || mailSecUnitNowPresent then
    step_or_undo sw "mailsec enable failed" same_error (runCmd "systemctl" ["enable"; "--now"; "despatch-mailsec"]) (fun _ =>
    let! up := if MailSecEnabled cfg then waitForPath (MailSecSocket cfg) (10 * Second) else ret true in
    if up then restart_and_check sw version
    else undone sw "" "mailsec socket missing after start"
           (ErrText ("mailsec is enabled but socket was not created at " +:+ TrimSpace (MailSecSocket cfg)
                     +:+ " after start")) (ret tt))
  else restart_and_check sw version.

Definition activate_units (sw : Swapped) (mailSecPayloadPresent reloadRequired : bool) (version : string) : UDB Outcome :=
  step_or_undo sw "systemd daemon-reload failed" same_error
    (when reloadRequired (runCmd "systemctl" ["daemon-reload"])) (fun _ =>
  do! ignore (runCmd "systemctl" ["reset-failed"; "despatch-updater.service"; "despatch-updater.path"]) in
  let! s := attempt (os_Stat (join (UpdateSystemdUnitDir cfg) "despatch-mailsec.service")) in
  match s with
  | Fail e =>
      if Is_NotExist e then
        let! known := systemdUnitKnown "despatch-mailsec.service" in
        step_or_undo sw "updater path activation failed" same_error
          (runCmd "systemctl" ["enable"; "--now"; "despatch-updater.path"]) (fun _ =>
        let! after := defaultUpdaterRuntimeProbe cfg in
        if negb (Healthy after) then
          let text := "updater runtime is unhealthy after unit refresh: " +:+ StaleQueueError after in
          undone sw "" text (ErrText text) (ret tt)
        else start_mailsec sw mailSecPayloadPresent known version)
      else undone sw "" ("mailsec unit stat failed: " +:+ err_text e) e (ret tt)
  | Ok _ =>
      step_or_undo sw "updater path activation failed" same_error
        (runCmd "systemctl" ["enable"; "--now"; "despatch-updater.path"]) (fun _ =>
      let! after := defaultUpdaterRuntimeProbe cfg in
      if negb (Healthy after) then
        let text := "updater runtime is unhealthy after unit refresh: " +:+ StaleQueueError after in
        undone sw "" text (ErrText text) (ret tt)
      else start_mailsec sw mailSecPayloadPresent true version)
  end).

(** The unit of the mail security service, if the payload has one. *)
Definition mailsec_unit (sw : Swapped) (mailSecUnitKnown mailSecPayloadPresent reloadRequired : bool)
    (version : string) : UDB Outcome :=
  let source := join currentDeploy "despatch-mailsec.service" in
  let! s := attempt (os_Stat source) in
  match s with
  | Ok _ =>
      let! r := attempt (copyFile source (join (UpdateSystemdUnitDir cfg) "despatch-mailsec.service") 420) in
      match r with
      | Ok _ => activate_units sw mailSecPayloadPresent true version
      | Fail e =>
          if isReadOnlyOrPermissionError e && mailSecUnitKnown
          then activate_units sw mailSecPayloadPresent true version
          else undone sw "" ("mailsec unit install failed: " +:+ err_text e) e (ret tt)
      end
  | Fail e =>
      if Is_NotExist e then activate_units sw mailSecPayloadPresent reloadRequired version
      else undone sw "" ("mailsec unit stat failed: " +:+ err_text e) e (ret tt)
  end.

Definition normalize_failed (tree : Path) : string := "runtime permission normalization failed for " +:+ path_text tree.

Fixpoint normalize_trees (sw : Swapped) (trees : list Path) (rest : UDB Outcome) : UDB Outcome :=
  match trees with
  | [] => rest
  | tree :: trees' =>
      step_or_undo sw (normalize_failed tree)
        (fun e => ErrText (normalize_failed tree +:+ ": " +:+ err_text e))
        (normalizeRuntimeTreePermissions tree) (fun _ => normalize_trees sw trees' rest)
  end.

Definition bring_up (sw : Swapped) (mailSecUnitKnown mailSecPayloadPresent : bool) (version : string) : UDB Outcome :=
  normalize_trees sw [currentWeb; currentMig; currentDeploy] (
  let updaterServiceSource := join currentDeploy "despatch-updater.service" in
  let updaterPathSource := join currentDeploy "despatch-updater.path" in
  step_or_undo sw "updater service unit missing after deploy refresh"
    (fun _ => ErrText "deploy payload is missing despatch-updater.service after refresh")
    (os_Stat updaterServiceSource) (fun _ =>
  step_or_undo sw "updater path unit missing after deploy refresh"
    (fun _ => ErrText "deploy payload is missing despatch-updater.path after refresh")
    (os_Stat updaterPathSource) (fun _ =>
  let! before := defaultUpdaterRuntimeProbe cfg in
  let! units := install_units (Healthy before)
    [(updaterServiceSource, updaterServiceUnitPath cfg, "updater service");
     (updaterPathSource, updaterPathUnitPath cfg, "updater path")] in
  match units with
  | (_, Some (description, e)) =>
      undone sw "" (description +:+ " unit install failed: " +:+ err_text e) e (ret tt)
  | (reloadRequired, None) =>
      mailsec_unit sw mailSecUnitKnown mailSecPayloadPresent reloadRequired version
  end))).

(** ** The whole *)

Definition ErrMailSecMissing : GoErr :=
  ErrText "mailsec is enabled but despatch-mailsec-service is missing in both current install and release payload".

Definition previousPaths : list Path :=
  [prevBin; prevPam; prevWorker; prevWeb; prevMig; prevDeploy; prevMailSec]
  ++ (if has_native then [prevNativeLibrary] else []).

Definition install_payload (payloadRoot : Path) (version : string) : UDB Outcome :=
  let! present := copy_payload payloadRoot stageDir in
  let '(nativePresent, mailSecPayloadPresent) := present in
  let! s := attempt (os_Stat currentMailSec) in
  let! currentMailSecPresent := match s with
                                | Ok _ => ret true
                                | Fail e => if Is_NotExist e then ret false else throw e
                                end in
  let! mailSecUnitKnown := systemdUnitKnown "despatch-mailsec.service" in
  if MailSecEnabled cfg && negb mailSecPayloadPresent && negb currentMailSecPresent then throw ErrMailSecMissing
  else
    do! for_each (fun p => ignore (os_RemoveAll p)) previousPaths in
    let! sw := swap_parts nativePresent mailSecPayloadPresent in
    bring_up sw mailSecUnitKnown mailSecPayloadPresent version.
End Run.

(** An error before the machine is brought up names no version. *)
Definition as_outcome (m : UDB Outcome) : UDB Outcome :=
  let! r := attempt m in
  match r with Ok o => ret o | Fail e => ret (mkOutcome "" false (Some e)) end.

Definition target_ok (target : string) : bool :=
  negb (String.eqb target "")
  && forallb (fun b => is_digit b || ((65 <=? b) && (b <=? 90)) || ((97 <=? b) && (b <=? 122))
                       || (b =? 46) || (b =? 95) || (b =? 45)) (bytes target).

Definition applyRelease (req : ApplyRequest) : UDB Outcome :=
  as_outcome
    (let target := TrimSpace (rq_TargetVersion req) in
     if negb (String.eqb target "") && negb (target_ok target) then throw ErrInvalidTargetVersion
     else
       let! prepared := prepareReleasePayload cfg target in
       let '(release, payloadRoot) := prepared in
       let runID := TrimSpace (rq_RequestID req) in
       let! runID := if String.eqb runID ""
                     then let! now := time_Now in ret ("run-" +:+ format_int (now / Second))
                     else ret runID in
       do! os_RemoveAll (stageDir runID) in
       do! os_MkdirAll (stageDir runID) 493 in
       deferred (install_payload runID payloadRoot (gr_TagName release)) (os_RemoveAll (stageDir runID))).
End Apply.

Example localBaseURL_ex : map localBaseURL [""; ":90"; "0.0.0.0:80"; "[::1]:80"; "host"; "10.0.0.1:81"]
  = ["http://127.0.0.1:8080"; "http://127.0.0.1:90"; "http://127.0.0.1:80"; "http://[::1]:80";
     "http://127.0.0.1:8080"; "http://10.0.0.1:81"].
Proof. vm_compute. reflexivity. Qed.
