(* ===== verification/UpdateManager.v ===== *)
(** * UpdateManager: the updater as the server sees it (update/manager.go)

    What the administrator's page and the background tick read, and the
    requests they leave for the worker. *)

From S2P Require Import Prelude GoStrings Effects GoStd GoText Json MessageIds Models Users Sessions Mfa.
From S2P Require Import GoFmt FileSystem GoTime UpdateHost UpdateModels UpdateRuntime UpdateApply.
Local Open Scope Z_scope.

Definition settingLastCheckAt : string := "update_last_check_at".
Definition settingETag : string := "update_etag".
Definition settingLatestTag : string := "update_latest_tag".
Definition settingLatestPublished : string := "update_latest_published_at".
Definition settingLatestURL : string := "update_latest_html_url".
Definition settingLastCheckError : string := "update_last_check_error".
Definition settingLastSuccessVer : string := "update_last_success_version".
Definition settingLastSuccessAt : string := "update_last_success_at".
Definition settingAutoUpdateOn : string := "update_auto_enabled".

(** ** Pure parts *)

Definition compareVersions (current latest : string) : bool :=
  let c := TrimSpace current in
  let l := TrimSpace latest in
  if String.eqb c "" || String.eqb l "" then false
  else if EqualFold c l then false
  else
    let trim v := TrimPrefix (ToLower (TrimSpace v)) "v" in
    negb (String.eqb (trim c) (trim l)).

Definition autoStatusFromRecord (rec : autoUpdateStateRecord) (enabled : bool) : AutoUpdateStatus :=
  mkAutoUpdateStatus enabled (if String.eqb (ar_State rec) "" then AutoUpdateStateIdle else ar_State rec)
    (TrimSpace (ar_TargetVersion rec)) (ar_DownloadedAt rec) (ar_ScheduledFor rec) (TrimSpace (ar_Error rec)).

Definition apply_busy (apply : ApplyStatus) : bool :=
  String.eqb (as_State apply) ApplyStateQueued || String.eqb (as_State apply) ApplyStateInProgress.

Definition presentAutoUpdateStatus (status : StatusResponse) (rec : autoUpdateStateRecord) (enabled : bool) :
    AutoUpdateStatus :=
  let auto := autoStatusFromRecord rec enabled in
  let auto :=
    if existsb (String.eqb (ar_State rec)) [AutoUpdateStateScheduled; AutoUpdateStateDownloaded; AutoUpdateStatePreparing]
       && apply_busy (st_Apply status)
    then
      let target := TrimSpace (as_TargetVersion (st_Apply status)) in
      let target := match st_Latest status with
                    | Some rel => if String.eqb target "" then TrimSpace (rel_TagName rel) else target
                    | None => target
                    end in
      if negb (String.eqb target "") && String.eqb target (TrimSpace (ar_TargetVersion rec))
      then auto <| au_State := AutoUpdateStateApplying |> else auto
    else auto in
  match st_Latest status with
  | Some rel =>
      if String.eqb (au_State auto) AutoUpdateStateIdle && enabled && st_UpdateAvailable status
      then auto <| au_TargetVersion := TrimSpace (rel_TagName rel) |> else auto
  | None => auto
  end.

Definition boolToSetting (v : bool) : string := if v then "1" else "0".

(** [%t] and [%#o]. *)
Definition bool_text (b : bool) : string := if b then "true" else "false".
Fixpoint octal_digits (fuel : nat) (n : Z) : list Z :=
  match fuel with
  | O => []
  | S k => (if n <? 8 then [] else octal_digits k (n / 8)) ++ [48 + n mod 8]
  end.
Definition octal (n : Z) : string :=
  if n =? 0 then "0" else "0" +:+ of_bytes (octal_digits 20 n).

Definition ApplyErrorCode (err : GoErr) : string :=
  if errors_Is err ErrUpdaterNotConfigured then "updater_not_configured"
  else if errors_Is err ErrUpdateInProgress then "update_in_progress"
  else if errors_Is err ErrInvalidTargetVersion then "invalid_target_version"
  else "update_request_failed".

Section Manager.
Context {env : Env} {machine : Machine} (cfg : UpdateConfig).

(** [time.Date] of two o'clock on the local day: the offset at the wall clock
    read as UTC is corrected once. *)
Definition nextNightlyWindow (now : Z) : Z :=
  let wall := now + local_offset (now / Second) * Second in
  let unix := wall / Second / 86400 * 86400 + 2 * 3600 in
  let utc := unix - local_offset unix in
  let scheduled := (unix - local_offset utc) * Second in
  if negb (now <? scheduled) then scheduled + 24 * Hour else scheduled.

(** ** Settings *)

Definition getSetting (key : string) : UDB string :=
  let! r := attempt (on_db (GetSetting key)) in
  match r with Ok (Some v) => ret (TrimSpace v) | _ => ret "" end.

Definition autoUpdateEnabled : UDB bool :=
  let! raw := on_db (GetSetting settingAutoUpdateOn) in
  match raw with
  | None => ret true
  | Some v => ret (negb (existsb (String.eqb (ToLower (TrimSpace v))) ["0"; "false"; "off"; "disabled"; "no"]))
  end.

Definition AutomaticEnabled : UDB bool := autoUpdateEnabled.

Definition put_setting (key value : string) : UDB unit := ignore (on_db (UpsertSetting key value)).

Definition shouldRefresh : UDB bool :=
  let! lastCheckRaw := getSetting settingLastCheckAt in
  if String.eqb (TrimSpace lastCheckRaw) "" then ret true
  else match time_Parse lastCheckRaw with
       | None => ret true
       | Some lastCheck =>
           let! now := time_Now in
           ret (lastCheck + UpdateCheckIntervalMin cfg * Minute <? now)
       end.

Definition refreshLatest : UDB unit :=
  let! etag := getSetting settingETag in
  let! r := attempt (latestRelease cfg etag) in
  let! now := time_Now in
  do! put_setting settingLastCheckAt (rfc3339 now) in
  match r with
  | Fail err => do! put_setting settingLastCheckError (err_text err) in throw err
  | Ok (latest, newETag, notModified) =>
      do! put_setting settingLastCheckError "" in
      do! when (negb (String.eqb newETag "")) (put_setting settingETag newETag) in
      if notModified then ret tt
      else
        do! put_setting settingLatestTag (TrimSpace (rel_TagName latest)) in
        do! put_setting settingLatestURL (TrimSpace (rel_HTMLURL latest)) in
        when (negb (IsZero (rel_PublishedAt latest)))
          (put_setting settingLatestPublished (rfc3339 (rel_PublishedAt latest)))
  end.

Definition MarkSuccess (targetVersion : string) : UDB unit :=
  do! put_setting settingLastSuccessVer (TrimSpace targetVersion) in
  let! now := time_Now in
  put_setting settingLastSuccessAt (rfc3339 now).

(** ** Whether the updater is set up *)

Definition processInGroup (gid : Z) : bool :=
  if process_gid =? gid then true
  else match process_groups with Some l => existsb (Z.eqb gid) l | None => false end.

Definition dirWritableByCurrentProcess (info : Entry) : bool :=
  if negb (is_dir info) then false
  else if process_uid =? 0 then true
  else
    let perm := e_mode info in
    let bits mask := Z.land perm mask =? mask in
    if process_uid =? e_uid info then bits 192
    else if processInGroup (e_gid info) then bits 24
    else bits 3.

Definition updaterPermissionRepairHint : string :=
  let q p := shQuote (path_text p) in
  "run as root: install -d -o despatch -g despatch -m 0750 " +:+ q (parent (UpdateBaseDir cfg))
  +:+ " && install -d -o root -g despatch -m 0750 " +:+ q (UpdateBaseDir cfg)
  +:+ " && install -d -o root -g despatch -m 0770 " +:+ q (requestDir cfg) +:+ " " +:+ q (statusDir cfg)
  +:+ " && install -d -o root -g root -m 0750 " +:+ q (lockDir cfg) +:+ " " +:+ q (workDir cfg)
  +:+ " " +:+ q (backupsDir cfg).

Fixpoint path_states (depth : nat) (cur : Path) : UDB (list string) :=
  match depth with
  | O => ret []
  | S n =>
      let! r := attempt (os_Stat cur) in
      let part := match r with
                  | Fail e => path_text cur +:+ "(err=" +:+ err_text e +:+ ")"
                  | Ok info => path_text cur +:+ "(mode=" +:+ octal (e_mode info) +:+ ")"
                  end in
      match cur with
      | [] => ret [part]
      | _ => let! rest := path_states n (parent cur) in ret (part :: rest)
      end
  end.
Definition describePathState (path : Path) (depth : nat) : UDB string :=
  let! parts := path_states (if Nat.eqb depth 0 then 1%nat else depth) path in ret (Join " -> " parts).

Definition checkWritablePath (dirPath : Path) (stage : string) : UDB (option ConfigDiagnostic) :=
  let reasonPrefix := if String.eqb (TrimSpace stage) "" then "path" else TrimSpace stage in
  let! pathState := describePathState dirPath 5 in
  let diagnostic detail :=
    Some (mkConfigDiagnostic (reasonPrefix +:+ "_dir_unwritable")
            (detail +:+ " (path_state=" +:+ pathState +:+ ")") updaterPermissionRepairHint) in
  let! r := attempt (os_Stat dirPath) in
  match r with
  | Fail e =>
      ret (diagnostic ("cannot access updater " +:+ reasonPrefix +:+ " directory " +:+ path_text dirPath
                       +:+ ": " +:+ err_text e))
  | Ok info =>
      if negb (is_dir info) then
        ret (diagnostic ("updater " +:+ reasonPrefix +:+ " path " +:+ path_text dirPath +:+ " is not a directory"))
      else if negb (dirWritableByCurrentProcess info) then
        ret (diagnostic ("updater " +:+ reasonPrefix +:+ " directory " +:+ path_text dirPath
                         +:+ " is not writable/searchable by the current service user"))
      else ret None
  end.

(** What keeps the updater from running, if anything does. *)
Definition unit_marker (path : Path) (missing reason hint : string) : UDB (option ConfigDiagnostic) :=
  let! r := attempt (os_Stat path) in
  match r with
  | Ok _ => ret None
  | Fail e =>
      let detail := if Is_NotExist e then "required updater " +:+ missing +:+ " is missing: " +:+ path_text path
                    else "cannot verify updater " +:+ missing +:+ " at " +:+ path_text path +:+ ": " +:+ err_text e in
      ret (Some (mkConfigDiagnostic reason detail hint))
  end.

Fixpoint first_diagnostic (checks : list (UDB (option ConfigDiagnostic))) : UDB (option ConfigDiagnostic) :=
  match checks with
  | [] => ret None
  | c :: checks' => let! d := c in match d with Some _ => ret d | None => first_diagnostic checks' end
  end.

Definition configurationStatus (runtimeStatus : updaterRuntimeStatus) : UDB (bool * option ConfigDiagnostic) :=
  if negb (UpdateEnabled cfg) then ret (false, None)
  else
    let! d := first_diagnostic
      [ unit_marker (updaterPathUnitPath cfg) "unit marker" "updater_unit_missing"
          ("install despatch-updater.path and despatch-updater.service into " +:+ path_text (UpdateSystemdUnitDir cfg)
           +:+ ", run systemctl daemon-reload, then enable despatch-updater.path");
        unit_marker (updaterServiceUnitPath cfg) "service unit" "updater_service_missing"
          (updaterUnitInstallRepairHint cfg);
        checkWritablePath (requestDir cfg) "request";
        checkWritablePath (statusDir cfg) "status";
        ret (runtime_diagnostic runtimeStatus cfg) ] in
    match d with Some _ => ret (false, d) | None => ret (true, None) end.

(** ** Requests that were not picked up *)

Definition readApplyStatusTolerant (path : Path) : UDB ApplyStatus :=
  let! r := attempt (readApplyStatus path) in
  match r with
  | Ok st => ret st
  | Fail e => if isUpdaterPermissionError e then ret (no_status <| as_State := ApplyStateIdle |>) else throw e
  end.

Definition staleQueuedApplyStatus (runtimeStatus : updaterRuntimeStatus) (current : ApplyStatus) : UDB ApplyStatus :=
  if negb (String.eqb (as_State current) ApplyStateQueued) then ret current
  else if IsZero (as_RequestedAt current) then ret current
  else
    let! now := time_Now in
    if now <? as_RequestedAt current + updateQueuePickupGrace then ret current
    else
      let! finished := time_Now in
      ret (current <| as_State := ApplyStateFailed |> <| as_FinishedAt := finished |>
                   <| as_Error := StaleQueueError runtimeStatus |>).

Definition recoverStaleQueuedApply (runtimeStatus : updaterRuntimeStatus) (current : ApplyStatus) : UDB ApplyStatus :=
  let! next := staleQueuedApplyStatus runtimeStatus current in
  if String.eqb (as_State next) (as_State current) && String.eqb (as_Error next) (as_Error current)
     && (as_FinishedAt next =? as_FinishedAt current)
  then ret current
  else
    do! removePendingRequestPaths cfg in
    do! write_status cfg next in
    do! ignore (ensureDespatchReadable (statusPath cfg)) in
    ret next.

(** The prepare requests older than the grace; [None] when one is younger. *)
Fixpoint stale_prepares (rec : autoUpdateStateRecord) (pending : list pendingRequest) : UDB (option (list Path)) :=
  match pending with
  | [] => ret (Some [])
  | item :: pending' =>
      let req := pd_Request item in
      let reqTarget := TrimSpace (rq_TargetVersion req) in
      if negb (String.eqb (normalizeApplyMode (rq_Mode req)) ApplyModePrepare) then stale_prepares rec pending'
      else if negb (String.eqb (ar_TargetVersion rec) "") && negb (String.eqb reqTarget "")
              && negb (String.eqb reqTarget (ar_TargetVersion rec)) then stale_prepares rec pending'
      else
        let! requestedAt :=
          if IsZero (rq_RequestedAt req) then
            let! r := attempt (os_Stat (pd_Path item)) in
            match r with Ok _ => mod_time (pd_Path item) | Fail _ => ret ZeroTime end
          else ret (rq_RequestedAt req) in
        let! young := if IsZero requestedAt then ret true
                      else let! now := time_Now in ret (now <? requestedAt + updateQueuePickupGrace) in
        if young then ret None
        else
          let! rest := stale_prepares rec pending' in
          ret (option_map (cons (pd_Path item)) rest)
  end.

(** Errors of permission end the recovery quietly. *)
Definition permission_ends {A} (m : UDB A) (rest : A -> UDB unit) : UDB unit :=
  let! r := attempt m in
  match r with
  | Ok a => rest a
  | Fail e => if isUpdaterPermissionError e then ret tt else throw e
  end.

Definition recoverStaleAutoPrepare (runtimeStatus : updaterRuntimeStatus) : UDB unit :=
  permission_ends (readAutoUpdateState (autoStatusPath cfg)) (fun rec =>
  if negb (String.eqb (ar_State rec) AutoUpdateStatePreparing) then ret tt
  else permission_ends (pendingRequests cfg) (fun pending =>
    let! stalePaths := stale_prepares rec pending in
    match stalePaths with
    | None | Some [] => ret tt
    | Some paths =>
        do! remove_paths paths in
        writeAutoUpdateState cfg
          (rec <| ar_State := AutoUpdateStateFailed |> <| ar_DownloadedAt := ZeroTime |>
               <| ar_ScheduledFor := ZeroTime |> <| ar_Error := StaleQueueError runtimeStatus |>)
    end)).

(** ** Queueing a request *)

Definition ErrQueue {A} (e : GoErr) : UDB A := throw (ErrWrap ErrUpdateRequestFailed (err_text e)).
Definition or_request_failed {A} (m : UDB A) : UDB A :=
  let! r := attempt m in match r with Ok a => ret a | Fail e => ErrQueue e end.

Definition queueRequest (requestedBy targetVersion requestID mode : string) : UDB ApplyRequest :=
  let! runtimeStatus := defaultUpdaterRuntimeProbe cfg in
  do! or_request_failed (recoverStaleAutoPrepare runtimeStatus) in
  let! current := or_request_failed (readApplyStatusTolerant (statusPath cfg)) in
  let! current := or_request_failed (recoverStaleQueuedApply runtimeStatus current) in
  let! conf := configurationStatus runtimeStatus in
  if negb (UpdateEnabled cfg) || negb (fst conf) then throw ErrUpdaterNotConfigured
  else
    let mode := normalizeApplyMode mode in
    let target := TrimSpace targetVersion in
    if negb (String.eqb target "") && negb (target_ok target) then throw ErrInvalidTargetVersion
    else
      let! requestID := if String.eqb (TrimSpace requestID) "" then uuid_NewString else ret (TrimSpace requestID) in
      if apply_busy current then throw ErrUpdateInProgress
      else
        let! pendingPaths := or_request_failed (pendingRequestPaths cfg) in
        match pendingPaths with
        | _ :: _ => throw ErrUpdateInProgress
        | [] =>
            let! now := time_Now in
            let req := mkApplyRequest requestID now (TrimSpace requestedBy) mode target in
            do! or_request_failed (ensureUpdaterRequestStatusDirectories cfg) in
            let! reqQueuePath := requestQueuePath req cfg in
            do! or_request_failed
                  (writeJSONAtomic reqQueuePath (apply_request_json req) 416
                     (updaterDirModeForPath cfg (requestDir cfg) 488)) in
            do! when (String.eqb mode ApplyModeApply)
                  (or_request_failed
                     (write_status cfg
                        (no_status <| as_State := ApplyStateQueued |> <| as_RequestID := rq_RequestID req |>
                                   <| as_RequestedAt := rq_RequestedAt req |>
                                   <| as_TargetVersion := rq_TargetVersion req |>))) in
            ret req
        end.

Definition QueueApply (requestedBy targetVersion requestID : string) : UDB ApplyRequest :=
  queueRequest requestedBy targetVersion requestID ApplyModeApply.
Definition QueuePrepare (requestedBy targetVersion requestID : string) : UDB ApplyRequest :=
  queueRequest requestedBy targetVersion requestID ApplyModePrepare.

(** ** The status page *)

(** [readAutoUpdateState], with the zero record when it may not be read. *)
Definition read_record_tolerant : UDB autoUpdateStateRecord :=
  let! r := attempt (readAutoUpdateState (autoStatusPath cfg)) in
  match r with
  | Ok rec => ret rec
  | Fail e => if isUpdaterPermissionError e then ret no_record else throw e
  end.

Definition latest_release_info : UDB (option ReleaseInfo) :=
  let! latestTag := getSetting settingLatestTag in
  if String.eqb latestTag "" then ret None
  else
    let! latestPublishedRaw := getSetting settingLatestPublished in
    let! latestURL := getSetting settingLatestURL in
    ret (Some (mkReleaseInfo latestTag ""
                 (if String.eqb latestPublishedRaw "" then ZeroTime
                  else default ZeroTime (time_Parse latestPublishedRaw)) latestURL)).

(** The caller gets an error of a forced check in place of the status. *)
Definition Status (forceCheck : bool) : UDB StatusResponse :=
  let! runtimeStatus := defaultUpdaterRuntimeProbe cfg in
  let! conf := configurationStatus runtimeStatus in
  let '(configured, configDiagnostic) := conf in
  do! recoverStaleAutoPrepare runtimeStatus in
  let! en := attempt autoUpdateEnabled in
  let autoEnabled := match en with Ok b => b | Fail _ => false end in
  let! autoRecord := read_record_tolerant in
  let! refresh := if UpdateEnabled cfg then (if forceCheck then ret true else shouldRefresh) else ret false in
  let! checkErr := if refresh then attempt refreshLatest else ret (Ok tt) in
  match checkErr, forceCheck with
  | Fail e, true => throw e
  | _, _ =>
      let! latest := latest_release_info in
      let available := match latest with
                       | Some rel => compareVersions (vi_Version version_Current) (rel_TagName rel)
                       | None => false end in
      let! lastCheckedAt := getSetting settingLastCheckAt in
      let! lastCheckError := getSetting settingLastCheckError in
      let lastCheckError := match checkErr with
                            | Fail e => if String.eqb lastCheckError "" then err_text e else lastCheckError
                            | Ok _ => lastCheckError end in
      let! apply := readApplyStatusTolerant (statusPath cfg) in
      let! apply := staleQueuedApplyStatus runtimeStatus apply in
      let status := mkStatusResponse (UpdateEnabled cfg) configured version_Current latest lastCheckedAt
                      lastCheckError available apply (autoStatusFromRecord autoRecord autoEnabled)
                      configDiagnostic in
      let finish (status : StatusResponse) : UDB StatusResponse :=
        ret (status <| st_AutoUpdate := presentAutoUpdateStatus status autoRecord autoEnabled |>) in
      if String.eqb (as_State apply) ApplyStateIdle && configured then
        let! pending := attempt (pendingRequests cfg) in
        match pending with
        | Fail e => if isUpdaterPermissionError e then ret status else throw e
        | Ok l =>
            if existsb (fun p => String.eqb (normalizeApplyMode (rq_Mode (pd_Request p))) ApplyModeApply) l
            then finish (status <| st_Apply := apply <| as_State := ApplyStateQueued |> |>)
            else finish status
        end
      else finish status
  end.

(** ** The automatic updates *)

Definition PersistAutomaticPreference (actorUserID : string) (enabled : bool) : UDB unit :=
  do! on_db (UpsertSetting settingAutoUpdateOn (boolToSetting enabled)) in
  ignore (on_db (InsertAudit (TrimSpace actorUserID) "update_auto" "automatic_updates"
                   (of_bytes ([123; 34] ++ bytes "enabled" ++ [34; 58] ++ bytes (bool_text enabled) ++ [125])))).

Definition SetAutomaticEnabled (actorUserID : string) (enabled : bool) : UDB AutoUpdateStatus :=
  do! PersistAutomaticPreference actorUserID enabled in
  let! rec := read_record_tolerant in
  let rec := if negb enabled && String.eqb (ar_State rec) AutoUpdateStateScheduled
             then rec <| ar_State := AutoUpdateStateDownloaded |> <| ar_ScheduledFor := ZeroTime |> else rec in
  do! tolerate isUpdaterPermissionError (write_record cfg rec) in
  ret (autoStatusFromRecord rec enabled).

Definition CancelScheduledUpdate (actorUserID : string) : UDB AutoUpdateStatus :=
  let! enabled := autoUpdateEnabled in
  let! rec := readAutoUpdateState (autoStatusPath cfg) in
  let rec := rec <| ar_DeferredVersion := TrimSpace (ar_TargetVersion rec) |>
                 <| ar_State := AutoUpdateStateDownloaded |> <| ar_ScheduledFor := ZeroTime |>
                 <| ar_Error := "" |> in
  do! write_record cfg rec in
  do! ignore (on_db (InsertAudit (TrimSpace actorUserID) "update_auto" "cancel_scheduled_update"
                (of_bytes ([123; 34] ++ bytes "target_version" ++ [34; 58]
                           ++ bytes (Quote (ar_TargetVersion rec)) ++ [125])))) in
  ret (autoStatusFromRecord rec enabled).

(** A record that says why an attempt of the tick failed. *)
Definition tick_failed (rec : autoUpdateStateRecord) (e : GoErr) : UDB unit :=
  ignore (write_record cfg (rec <| ar_State := AutoUpdateStateFailed |> <| ar_Error := err_text e |>)).

Definition start_prepare (latestTag : string) : UDB unit :=
  let rec := no_record <| ar_State := AutoUpdateStatePreparing |> <| ar_TargetVersion := latestTag |> in
  do! write_record cfg rec in
  let! r := attempt (queueRequest "system:auto-update" latestTag
                       ("auto-prepare-" +:+ sanitizePathToken latestTag) ApplyModePrepare) in
  match r with
  | Ok _ => ret tt
  | Fail e => if errors_Is e ErrUpdateInProgress then ret tt else tick_failed rec e
  end.

Definition tick_pending (status : StatusResponse) (rec : autoUpdateStateRecord) (latestTag : string) : UDB unit :=
  let! due := if String.eqb (ar_State rec) AutoUpdateStateScheduled && negb (IsZero (ar_ScheduledFor rec))
              then let! now := time_Now in ret (negb (now <? ar_ScheduledFor rec))
              else ret false in
  if due && String.eqb (as_State (st_Apply status)) ApplyStateIdle then
    let! r := attempt (queueRequest "system:auto-update" latestTag
                         ("auto-apply-" +:+ sanitizePathToken latestTag) ApplyModeApply) in
    match r with
    | Ok _ => ret tt
    | Fail e => if errors_Is e ErrUpdateInProgress then ret tt else tick_failed rec e
    end
  else ret tt.

(** The tick for a release that is newer and wanted. *)
Definition tick_enabled (status : StatusResponse) (rec : autoUpdateStateRecord) (latestTag : string) : UDB unit :=
  let stale := negb (String.eqb (ar_TargetVersion rec) "") && negb (String.eqb (ar_TargetVersion rec) latestTag) in
  let rec := if stale then idle_record else rec in
  do! when stale (ignore (write_record cfg rec)) in
  if String.eqb (ar_DeferredVersion rec) latestTag then ret tt
  else if existsb (String.eqb (ar_State rec))
            [AutoUpdateStatePreparing; AutoUpdateStateScheduled; AutoUpdateStateApplying]
  then tick_pending status rec latestTag
  else if String.eqb (ar_State rec) AutoUpdateStateDownloaded then
    let! now := time_Now in
    ignore (write_record cfg (rec <| ar_State := AutoUpdateStateScheduled |>
                                  <| ar_ScheduledFor := nextNightlyWindow now |> <| ar_Error := "" |>))
  else if String.eqb (ar_State rec) AutoUpdateStateFailed && String.eqb (TrimSpace (ar_TargetVersion rec)) latestTag
  then ret tt
  else start_prepare latestTag.

Definition AutomaticTick : UDB unit :=
  if negb (UpdateEnabled cfg) then ret tt
  else
    let! status := Status false in
    if negb (st_Configured status) then ret tt
    else
      let enabled := au_Enabled (st_AutoUpdate status) in
      let! rec := read_record_tolerant in
      let rec := if String.eqb (ar_State rec) "" then rec <| ar_State := AutoUpdateStateIdle |> else rec in
      let latestTag := match st_Latest status with Some rel => TrimSpace (rel_TagName rel) | None => "" end in
      if String.eqb latestTag "" || negb (st_UpdateAvailable status) then
        when (negb (String.eqb (ar_State rec) AutoUpdateStateIdle && String.eqb (ar_TargetVersion rec) ""
                    && String.eqb (ar_Error rec) "" && String.eqb (ar_DeferredVersion rec) ""))
          (ignore (write_record cfg idle_record))
      else if negb enabled then
        when (String.eqb (ar_State rec) AutoUpdateStateScheduled)
          (ignore (write_record cfg (rec <| ar_State := AutoUpdateStateDownloaded |>
                                         <| ar_ScheduledFor := ZeroTime |> <| ar_Error := "" |>)))
      else tick_enabled status rec latestTag.
End Manager.

Example compare_ex : map (fun p => compareVersions (fst p) (snd p))
    [("v1.2.0", "1.2.0"); ("1.2.0", "1.1.0"); ("dev", "V1"); ("", "v1")] = [false; true; true; false].
Proof. vm_compute. reflexivity. Qed.
Example octal_ex : map octal [488; 0; 7] = ["0750"; "0"; "07"].
Proof. vm_compute. reflexivity. Qed.
