(* ===== verification/UpdateWorker.v ===== *)
(** * UpdateWorker: the privileged process that serves the queue

    RunWorkerFromEnv and runWorker of update/worker.go, and the tick of
    workers/update_workers.go.  The worker runs once per start: it takes the
    lock, serves the first request, and leaves. *)

From S2P Require Import Prelude GoStrings Effects GoStd GoText Json MessageIds Models Mfa GoFmt FileSystem.
From S2P Require Import UpdateHost UpdateModels UpdateRuntime UpdateFiles UpdateVerify UpdateApply.
From S2P Require Import UpdateManager.
Local Open Scope Z_scope.

Fixpoint isInvalidApplyRequestPayloadError (e : GoErr) : bool :=
  match e with
  | ErrPayload _ => true
  | ErrWrap e' _ => isInvalidApplyRequestPayloadError e'
  | _ => false
  end.

Section Worker.
Context {env : Env} {machine : Machine} (cfg : UpdateConfig).

(** The status file, readable by the server; errors are ignored. *)
Definition publish_status (st : ApplyStatus) : UDB unit :=
  do! ignore (write_status cfg st) in
  ignore (ensureDespatchReadable (statusPath cfg)).

Definition discard_invalid (reqPath : Path) : UDB unit :=
  let! now := time_Now in
  do! ignore (os_Remove reqPath) in
  publish_status
    (no_status <| as_State := ApplyStateFailed |>
               <| as_RequestID := "invalid-request-" +:+ format_int (now / Second) |>
               <| as_RequestedAt := now |> <| as_StartedAt := now |> <| as_FinishedAt := now |>
               <| as_FromVersion := vi_Version version_Current |>
               <| as_Error := "invalid updater request payload; discarded" |>).

(** A change of the automatic record, when it can be read; errors of writing
    are ignored. *)
Definition on_record (f : autoUpdateStateRecord -> option autoUpdateStateRecord) : UDB unit :=
  let! r := attempt (readAutoUpdateState (autoStatusPath cfg)) in
  match r with
  | Fail _ => ret tt
  | Ok rec => match f rec with Some rec' => ignore (writeAutoUpdateState cfg rec') | None => ret tt end
  end.

(** The record follows a request for its own version. *)
Definition record_for (target : string) (f : autoUpdateStateRecord -> autoUpdateStateRecord)
    (rec : autoUpdateStateRecord) : option autoUpdateStateRecord :=
  if negb (String.eqb target "") && String.eqb (TrimSpace (ar_TargetVersion rec)) target
  then Some (f rec) else None.

Definition run_prepare (reqPath : Path) (req : ApplyRequest) : UDB unit :=
  let matchTarget := TrimSpace (rq_TargetVersion req) in
  do! on_record (fun rec =>
        let t := TrimSpace (ar_TargetVersion rec) in
        if String.eqb t matchTarget || String.eqb t ""
        then Some (rec <| ar_State := AutoUpdateStatePreparing |> <| ar_TargetVersion := matchTarget |>
                       <| ar_Error := "" |>)
        else None) in
  do! tolerate Is_NotExist (os_Remove reqPath) in
  let! r := attempt (prepareReleasePayload cfg matchTarget) in
  match r with
  | Fail err =>
      do! on_record (fun rec =>
            Some (rec <| ar_State := AutoUpdateStateFailed |> <| ar_TargetVersion := matchTarget |>
                      <| ar_Error := err_text err |>)) in
      throw err
  | Ok (release, _) =>
      let! downloaded := time_Now in
      let! now := time_Now in
      writeAutoUpdateState cfg
        (no_record <| ar_State := AutoUpdateStateScheduled |>
                   <| ar_TargetVersion := TrimSpace (gr_TagName release) |>
                   <| ar_DownloadedAt := downloaded |> <| ar_ScheduledFor := nextNightlyWindow now |>)
  end.

(** What the run has come to: the status to publish, and the error. *)
Definition serve_apply (req : ApplyRequest) (failed : ApplyStatus) : UDB (ApplyStatus * option GoErr) :=
  let target := TrimSpace (rq_TargetVersion req) in
  if negb (String.eqb target "") && negb (target_ok target) then
    ret (failed <| as_Error := err_text ErrInvalidTargetVersion |>, Some ErrInvalidTargetVersion)
  else
    let! o := applyRelease cfg req in
    match o_error o with
    | Some err =>
        do! on_record (record_for target (fun rec =>
              rec <| ar_State := AutoUpdateStateFailed |> <| ar_Error := err_text err |>)) in
        ret (failed <| as_Error := err_text err |> <| as_ToVersion := o_version o |>
                    <| as_RolledBack := o_rolled_back o |>
                    <| as_State := if o_rolled_back o then ApplyStateRolledBack else ApplyStateFailed |>,
             Some err)
    | None =>
        let! r := attempt (readAutoUpdateState (autoStatusPath cfg)) in
        do! match r with
            | Fail _ => ret tt
            | Ok rec =>
                let recTarget := TrimSpace (ar_TargetVersion rec) in
                when (negb (String.eqb recTarget "") && String.eqb recTarget (TrimSpace (o_version o)))
                  (do! ignore (writeAutoUpdateState cfg idle_record) in
                   ignore (os_RemoveAll (preparedPayloadDir cfg recTarget)))
            end in
        let! n := out_call (OpenSQLite (DBPath cfg)) in
        do! when (database_opens n) (MarkSuccess (o_version o)) in
        ret (failed <| as_State := ApplyStateCompleted |> <| as_ToVersion := o_version o |>, None)
    end.

Definition run_apply (reqPath : Path) (req : ApplyRequest) : UDB unit :=
  let! started := time_Now in
  let target := TrimSpace (rq_TargetVersion req) in
  let status := no_status <| as_State := ApplyStateInProgress |> <| as_RequestID := rq_RequestID req |>
                          <| as_RequestedAt := rq_RequestedAt req |> <| as_StartedAt := started |>
                          <| as_TargetVersion := target |> <| as_FromVersion := vi_Version version_Current |> in
  do! publish_status status in
  do! on_record (record_for target (fun rec =>
        rec <| ar_State := AutoUpdateStateApplying |> <| ar_Error := "" |>)) in
  do! tolerate Is_NotExist (os_Remove reqPath) in
  let! finished := time_Now in
  let! served := serve_apply req
                   (status <| as_State := ApplyStateFailed |> <| as_FinishedAt := finished |>) in
  let '(final, err) := served in
  let! finished := time_Now in
  do! publish_status (final <| as_FinishedAt := finished |>) in
  do! ignore (os_Remove reqPath) in
  match err with Some e => throw e | None => ret tt end.

(** The body of the run, under the lock. *)
Definition serve_first : UDB unit :=
  let! r := attempt (firstPendingRequestPath cfg) in
  match r with
  | Fail e => if Is_NotExist e then ret tt else throw e
  | Ok reqPath =>
      let! read := attempt (readJSONFile decode_apply_request reqPath) in
      match read with
      | Fail e =>
          if Is_NotExist e then ret tt
          else if isInvalidApplyRequestPayloadError e then discard_invalid reqPath
          else throw e
      | Ok req =>
          let! req := if String.eqb (TrimSpace (rq_RequestID req)) ""
                      then let! now := time_Now in
                           ret (req <| rq_RequestID := "update-" +:+ format_int (now / Second) |>)
                      else ret req in
          let! req := if IsZero (rq_RequestedAt req)
                      then let! now := time_Now in ret (req <| rq_RequestedAt := now |>)
                      else ret req in
          let req := req <| rq_Mode := normalizeApplyMode (rq_Mode req) |> in
          if String.eqb (rq_Mode req) ApplyModePrepare then run_prepare reqPath req
          else run_apply reqPath req
      end
  end.

Definition lock_text (now : Z) : string :=
  "pid=" +:+ format_int process_id +:+ " started_at=" +:+ rfc3339 now +:+ of_bytes [10].

Definition runWorker : UDB unit :=
  if negb (UpdateEnabled cfg) then ignore (removePendingRequestPaths cfg)
  else
    do! ensureUpdaterRuntimeDirectories cfg in
    let! r := attempt (os_CreateNew (lockPath cfg) 416) in
    match r with
    | Fail e => if Is_Exist e then ret tt else throw e
    | Ok _ =>
        let! now := time_Now in
        do! ignore (file_Write (lockPath cfg) (lock_text now)) in
        deferred serve_first (os_Remove (lockPath cfg))
    end.
End Worker.

(** ** The entry point of the process *)

Section Entry.
Context {env : Env} {machine : Machine}.

Definition envOrDefault (key fallback : string) : string :=
  let v := TrimSpace (getenv key) in if String.eqb v "" then fallback else v.

Definition envBoolLoose (key : string) (fallback : bool) : bool :=
  let raw := TrimSpace (getenv key) in
  if String.eqb raw "" then fallback
  else if existsb (String.eqb (ToLower raw)) ["1"; "true"; "yes"; "y"; "on"] then true
  else if existsb (String.eqb (ToLower raw)) ["0"; "false"; "no"; "n"; "off"] then false
  else fallback.

(** Only the fields the bootstrap reads. *)
Definition bootstrapWorkerConfigFromEnv : UpdateConfig :=
  mkUpdateConfig (envBoolLoose "UPDATE_ENABLED" true) "" "" 0 "" 0
    (join [] (envOrDefault "UPDATE_BASE_DIR" "/var/lib/despatch/update")) [] "" [] false "" [] false "" "" "".

(** [config.Load] is the caller's: it gives a configuration or an error. *)
Definition RunWorkerFromEnv (load : Res UpdateConfig) : UDB unit :=
  let bootstrapCfg := bootstrapWorkerConfigFromEnv in
  let! pending := pendingRequestPaths bootstrapCfg in
  match pending with
  | [] => ret tt
  | _ =>
      if negb (UpdateEnabled bootstrapCfg) then ignore (removePendingRequestPaths bootstrapCfg)
      else let! cfg := of_res load in runWorker cfg
  end.

(** The server's loop: a tick at the start and one a minute; an error is only
    logged. *)
Fixpoint runUpdateLoop (ticks : nat) (cfg : UpdateConfig) : UDB unit :=
  do! ignore (AutomaticTick cfg) in
  match ticks with O => ret tt | S n => runUpdateLoop n cfg end.
End Entry.
