(* ===== verification/UpdateTree.v ===== *)
(** * UpdateTree: where the updater writes

    [sound] is the invariant of the directories the updater works in: no
    symbolic links, and every entry in a directory.  [confined areas m] says
    that [m] keeps it and changes nothing outside [areas], whatever system
    calls fail, apart from what other programs write in the places that are
    [foreign] to the updater. *)

From S2P Require Import Prelude GoStrings Effects GoStd GoText Models FileSystem UpdateHost UpdateModels.
Local Open Scope Z_scope.

(** ** The invariant *)

Section Sound.
Context (cfg : UpdateConfig).

Definition inside (q : Path) : bool := under (UpdateInstallDir cfg) q || under (UpdateBaseDir cfg) q.
Definition unit_files : list Path :=
  [updaterServiceUnitPath cfg; updaterPathUnitPath cfg;
   join (UpdateSystemdUnitDir cfg) "despatch-mailsec.service"].
Definition guarded (q : Path) : bool := inside q || existsb (path_eqb q) unit_files.

Record sound (fs : FS) : Prop := {
  sound_links : forall q e, guarded q = true -> find_path fs q = Some e -> is_link e = false;
  sound_closed : forall p c e, inside p = true -> find_path fs (p ++ [c]) = Some e ->
    exists e', lookup_path fs p = Some e' /\ is_dir e' = true
}.

Lemma inside_guarded q : inside q = true -> guarded q = true.
Proof. unfold guarded. by intros ->. Qed.

Lemma inside_under p q : inside p = true -> under p q = true -> inside q = true.
Proof.
  unfold inside. rewrite !orb_true_iff. intros [H|H] Hu; [left|right]; by eapply under_trans.
Qed.

Lemma inside_app p r : inside p = true -> inside (p ++ r) = true.
Proof. intros H. eapply inside_under; [exact H|apply under_app]. Qed.

Lemma root_entry : lookup_path [] [] = Some (mkEntry KDir 493 0 0).
Proof. done. Qed.

(** No link is followed from a guarded path. *)
Lemma guarded_follow fs p : sound fs -> guarded p = true -> follow fs p = Some p.
Proof.
  intros Hs Hg. unfold follow. cbn [follow_links].
  destruct (lookup_path fs p) as [[k m u g]|] eqn:E; [|done].
  destruct k as [| |t]; [done..|]. exfalso. destruct p as [|a p]; [done|].
  pose proof (sound_links fs Hs _ _ Hg E) as H. done.
Qed.

Lemma guarded_Stat fs p : sound fs -> guarded p = true ->
  Stat p fs = match lookup_path fs p with Some e => Ok e | None => os_error "stat" p (missing fs p) end.
Proof. intros Hs Hg. unfold Stat. by rewrite guarded_follow. Qed.

Lemma parent_app (p : Path) c : parent (p ++ [c]) = p.
Proof. apply removelast_last. Qed.

Lemma split_parent (p : Path) : p <> [] -> exists c, p = parent p ++ [c].
Proof. intros H. destruct p as [|c p] using rev_ind; [done|]. exists c. by rewrite parent_app. Qed.

Lemma find_lookup fs q e : find_path fs q = Some e -> q <> [] -> lookup_path fs q = Some e.
Proof. intros H Hq. by rewrite lookup_find. Qed.

Lemma not_self (p : Path) c : path_eqb (p ++ [c]) p = false.
Proof. apply path_eqb_neq. intros H. apply (f_equal length) in H. rewrite length_app in H. simpl in H. lia. Qed.

Lemma sound_put fs p e : sound fs -> p <> [] -> (guarded p = true -> is_link e = false) ->
  (inside p = true -> is_dir e = true \/ forall e', lookup_path fs p = Some e' -> is_dir e' = false) ->
  (inside (parent p) = true -> exists e', lookup_path fs (parent p) = Some e' /\ is_dir e' = true) ->
  sound (put p e fs).
Proof.
  intros Hs Hne Hl Hdir Hpar. split.
  - intros q e' Hg. rewrite find_put. destruct (path_eqb p q) eqn:E.
    + apply path_eqb_eq in E as <-. intros [= <-]. by apply Hl.
    + by apply (sound_links fs Hs).
  - intros q c e' Hin Hf. rewrite find_put in Hf.
    assert (Hlook : forall q', q' <> p -> lookup_path (put p e fs) q' = lookup_path fs q').
    { intros q' Hq'. destruct q' as [|a q']; [done|]. rewrite lookup_put by done.
      by rewrite (proj2 (path_eqb_neq p (a :: q'))). }
    destruct (path_eqb p (q ++ [c])) eqn:E.
    + apply path_eqb_eq in E. subst p. rewrite parent_app in Hpar. rewrite Hlook; [by apply Hpar|].
      intros H. by apply (proj1 (path_eqb_neq _ _) (not_self q c)).
    + destruct (sound_closed fs Hs q c e' Hin Hf) as (e0 & He0 & Hd0).
      destruct (decide (q = p)) as [->|Hq]; [|by rewrite Hlook; eauto].
      rewrite lookup_put by done. rewrite path_eqb_refl. exists e. split; [done|].
      destruct (Hdir Hin) as [H|H]; [done|]. specialize (H _ He0). congruence.
Qed.

Lemma sound_drop fs p : sound fs -> sound (drop_tree p fs).
Proof.
  intros Hs. split.
  - intros q e Hg. rewrite find_drop_tree. destruct (under p q); [done|]. by apply (sound_links fs Hs).
  - intros q c e Hin. rewrite find_drop_tree. destruct (under p (q ++ [c])) eqn:E; [done|]. intros Hf.
    destruct (sound_closed fs Hs q c e Hin Hf) as (e0 & He0 & Hd0). exists e0. split; [|done].
    destruct q as [|a q]; [done|]. rewrite lookup_find in * by done. rewrite find_drop_tree.
    destruct (under p (a :: q)) eqn:E'; [|done].
    assert (under p ((a :: q) ++ [c]) = true); [|congruence]. eapply under_trans; [exact E'|apply under_app].
Qed.

Lemma under_snoc p q c : under p (q ++ [c]) = true -> under p q = true \/ p = q ++ [c].
Proof.
  intros H. apply under_iff in H as [r H]. destruct r as [|d r] using rev_ind.
  - right. by rewrite app_nil_r in H.
  - left. clear IHr. rewrite app_assoc in H. apply app_inj_tail in H as [-> _]. apply under_app.
Qed.

(** What contains something is a directory. *)
Lemma inside_dir fs src r e : sound fs -> inside src = true -> r <> [] -> find_path fs (src ++ r) = Some e ->
  exists e', lookup_path fs src = Some e' /\ is_dir e' = true.
Proof.
  intros Hs Hin. revert e. induction r as [|c r IH] using rev_ind; intros e Hr; [done|].
  rewrite app_assoc. intros Hf.
  destruct (sound_closed fs Hs _ _ _ (inside_app src r Hin) Hf) as (e0 & He0 & Hd).
  destruct r as [|a r]; [rewrite app_nil_r in He0; by eexists|].
  apply (IH e0); [done|]. by rewrite lookup_find in He0 by (by destruct src).
Qed.

Lemma sound_move fs src dst : sound fs -> under src dst = false -> dst <> [] -> src <> [] ->
  inside src = true ->
  (inside (parent dst) = true -> exists e, lookup_path fs (parent dst) = Some e /\ is_dir e = true) ->
  sound (move_tree src dst fs).
Proof.
  intros Hs Hsd Hd0 Hs0 Hin Hpar. split.
  - intros q e Hg. rewrite find_move_tree by done. destruct (strip dst q) as [r|] eqn:Er.
    + destruct (under dst (src ++ r)); [done|]. intros Hf. eapply (sound_links fs Hs); [|exact Hf].
      apply inside_guarded. by apply inside_app.
    + destruct (under src q); [done|]. by apply (sound_links fs Hs).
  - intros q c e Hq. rewrite find_move_tree by done.
    assert (Hlook : forall q', under dst q' = false -> under src q' = false ->
      lookup_path (move_tree src dst fs) q' = lookup_path fs q').
    { intros q' H1 H2. destruct q' as [|a q']; [done|]. rewrite !lookup_find by done.
      rewrite find_move_tree by done. unfold under in H1. destruct (strip dst (a :: q')); [done|]. by rewrite H2. }
    destruct (strip dst (q ++ [c])) as [r|] eqn:Er.
    + apply strip_some in Er.
      destruct (under dst (src ++ r)) eqn:Eu; [done|]. intros Hf.
      destruct r as [|d r] using rev_ind.
      * rewrite app_nil_r in Er. subst dst. rewrite parent_app in Hpar.
        destruct (Hpar Hq) as (ep & Hep & Hdp). exists ep. split; [|done]. rewrite Hlook; [done| |].
        -- destruct (under (q ++ [c]) q) eqn:E; [|done]. exfalso. apply under_iff in E as [s E].
           apply (f_equal length) in E. rewrite !length_app in E. simpl in E. lia.
        -- destruct (under src q) eqn:E; [|done]. exfalso.
           assert (under src (q ++ [c]) = true); [|congruence]. eapply under_trans; [exact E|apply under_app].
      * clear IHr. rewrite app_assoc in Er. apply app_inj_tail in Er as [-> ->].
        rewrite app_assoc in Hf. destruct (sound_closed fs Hs _ _ _ (inside_app src r Hin) Hf) as (e0 & He0 & Hde).
        exists e0. split; [|done]. rewrite lookup_find by (by destruct dst).
        rewrite find_move_tree by done. rewrite strip_app.
        rewrite lookup_find in He0 by (by destruct src).
        destruct (under dst (src ++ r)) eqn:E; [|done].
        assert (under dst (src ++ r ++ [d]) = true); [|congruence].
        rewrite app_assoc. eapply under_trans; [exact E|apply under_app].
    + destruct (under src (q ++ [c])) eqn:Eu; [done|]. intros Hf.
      destruct (sound_closed fs Hs q c e Hq Hf) as (e0 & He0 & Hde). exists e0. split; [|done].
      rewrite Hlook; [done| |].
      * destruct (under dst q) eqn:E; [|done]. apply under_iff in E as [s ->].
        rewrite <- app_assoc, strip_app in Er. done.
      * destruct (under src q) eqn:E; [|done].
        assert (under src (q ++ [c]) = true); [|congruence]. eapply under_trans; [exact E|apply under_app].
Qed.
End Sound.

(** ** Writes that stay in their areas *)

Definition in_areas (areas : list Path) (p : Path) : bool := existsb (fun a => under a p) areas.
Definition off (areas : list Path) (q : Path) : bool := forallb (fun a => apart a q) areas.

Lemma off_under areas p q : in_areas areas p = true -> off areas q = true -> apart p q = true.
Proof.
  unfold in_areas, off. rewrite existsb_exists, forallb_forall. intros (a & Hin & Ha) H.
  specialize (H a Hin). unfold apart in *. apply andb_true_iff in H as [H1 H2].
  rewrite !negb_true_iff in *. apply andb_true_iff. rewrite !negb_true_iff. split.
  - destruct (under p q) eqn:E; [|done]. rewrite (under_trans a p q) in H1; done.
  - destruct (under q p) eqn:E; [|done]. destruct (under_chain a q p Ha E); congruence.
Qed.

Lemma off_app areas q r : off areas q = true -> off areas (q ++ r) = true.
Proof.
  unfold off. rewrite !forallb_forall. intros H a Ha. specialize (H a Ha).
  unfold apart. rewrite apart_below by done. simpl. apply negb_true_iff.
  destruct (under (q ++ r) a) eqn:E; [|done]. unfold apart in H. apply andb_true_iff in H as [_ H].
  apply negb_true_iff in H. rewrite (under_trans q (q ++ r) a) in H; [done|apply under_app|done].
Qed.

Lemma in_areas_app areas p r : in_areas areas p = true -> in_areas areas (p ++ r) = true.
Proof.
  unfold in_areas. rewrite !existsb_exists. intros (a & Hin & Ha). exists a. split; [done|].
  eapply under_trans; [exact Ha|apply under_app].
Qed.

Section Confined.
Context {env : Env} {machine : Machine} (cfg : UpdateConfig).

(** Where other programs write, never among the updater's own files. *)
Class Foreign : Type := {
  foreign : Path -> bool;
  foreign_leaves : forall n c pe, In pe (leaves n c) -> foreign (fst pe) = true;
  foreign_guarded : forall q, foreign q = true -> guarded cfg q = false
}.
Context {others : Foreign}.

Definition same_outside (areas : list Path) (fs fs' : FS) : Prop :=
  forall q, off areas q = true -> foreign q = false -> find_path fs' q = find_path fs q.

Definition confined {A} (areas : list Path) (m : UDB A) : Prop := forall w,
  sound cfg (u_fs (w_db w)) ->
  sound cfg (u_fs (w_db (snd (m w))))
  /\ same_outside areas (u_fs (w_db w)) (u_fs (w_db (snd (m w))))
  /\ (w_faults w = [] -> w_faults (snd (m w)) = []).

Implicit Types areas : list Path.

(** An action that leaves the files alone. *)
Lemma confined_pure {A} areas (m : UDB A) :
  (forall w, u_fs (w_db (snd (m w))) = u_fs (w_db w) /\ (w_faults w = [] -> w_faults (snd (m w)) = [])) ->
  confined areas m.
Proof. intros H w Hs. destruct (H w) as [-> Hf]. split_and!; [done|by intros q ? ?|done]. Qed.

Lemma confined_ret {A} areas (a : A) : confined areas (ret a).
Proof. by apply confined_pure. Qed.
Lemma confined_throw {A} areas e : confined (A := A) areas (throw e).
Proof. by apply confined_pure. Qed.
Lemma confined_of_res {A} areas (r : Res A) : confined areas (of_res r).
Proof. by apply confined_pure. Qed.
Lemma confined_now areas : confined areas time_Now.
Proof. by apply confined_pure. Qed.
Lemma confined_uuid areas : confined areas uuid_NewString.
Proof. by apply confined_pure. Qed.
Lemma confined_mod_time areas p : confined areas (mod_time p).
Proof. by apply confined_pure. Qed.

Lemma confined_bind {A B} areas (m : UDB A) (f : A -> UDB B) :
  confined areas m -> (forall a, confined areas (f a)) -> confined areas (bind m f).
Proof.
  intros Hm Hf w Hs. unfold bind. destruct (Hm w Hs) as (Hs1 & Hd1 & Hf1).
  destruct (m w) as [[a|e] w1]; simpl in *; [|done].
  destruct (Hf a w1 Hs1) as (Hs2 & Hd2 & Hf2). split_and!; [done| |auto].
  intros q Ho Hn. by rewrite Hd2, Hd1.
Qed.

Lemma confined_attempt {A} areas (m : UDB A) : confined areas m -> confined areas (attempt m).
Proof. intros Hm w Hs. rewrite attempt_eq. by apply Hm. Qed.
Lemma confined_ignore {A} areas (m : UDB A) : confined areas m -> confined areas (ignore m).
Proof. intros Hm w Hs. rewrite ignore_eq. by apply Hm. Qed.
Lemma confined_when areas b (m : UDB unit) : (b = true -> confined areas m) -> confined areas (when b m).
Proof. destruct b; intros H; [by apply H|apply confined_ret]. Qed.

Lemma confined_weaken {A} areas areas' (m : UDB A) :
  (forall q, off areas' q = true -> off areas q = true) -> confined areas m -> confined areas' m.
Proof.
  intros H Hm w Hs. destruct (Hm w Hs) as (? & Hd & ?). split_and!; [done| |done].
  intros q Ho. apply Hd. by apply H.
Qed.

(** *** System calls *)

Lemma confined_os_call {A} areas what (f : FS -> Res (A * FS)) :
  (forall fs a fs', sound cfg fs -> f fs = Ok (a, fs') -> sound cfg fs' /\ same_outside areas fs fs') ->
  confined areas (os_call what f).
Proof.
  intros H [d fl t u tr] Hs. unfold os_call. simpl in Hs.
  assert (Hgo : forall r, r = match f (u_fs d) with
    | Ok (a, g) => (Ok a, mkWorld (d <| u_fs := g |>) (tail fl) t u tr)
    | Fail e => (Fail e, mkWorld d (tail fl) t u tr) end ->
    sound cfg (u_fs (w_db (snd r))) /\ same_outside areas (u_fs d) (u_fs (w_db (snd r)))
    /\ (fl = [] -> w_faults (snd r) = [])).
  { intros r ->. destruct (f (u_fs d)) as [[a g]|e] eqn:E; simpl.
    - destruct (H _ _ _ Hs E). split_and!; [done|done|by intros ->].
    - split_and!; [done|by intros q ? ?|by intros ->]. }
  destruct fl as [|[] fl]; [by apply Hgo| |by apply Hgo]. simpl.
  split_and!; [done|by intros q ? ?|done].
Qed.

Lemma confined_os_read {A} areas what (f : FS -> Res A) : confined areas (os_read what f).
Proof.
  apply confined_os_call. intros fs a fs' Hs. destruct (f fs); [|done]. intros [= _ <-].
  split; [done|by intros q ? ?].
Qed.

Lemma confined_os_write areas what (f : FS -> Res FS) :
  (forall fs fs', sound cfg fs -> f fs = Ok fs' -> sound cfg fs' /\ same_outside areas fs fs') ->
  confined areas (os_write what f).
Proof.
  intros H. apply confined_os_call. intros fs a fs' Hs. destruct (f fs) eqn:E; [|done]. intros [= _ <-].
  by apply H.
Qed.

Definition writable_at areas (p : Path) : Prop := in_areas areas p = true /\ guarded cfg p = true.

Lemma put_outside areas p e fs : in_areas areas p = true -> same_outside areas fs (put p e fs).
Proof.
  intros Hp q Ho _. rewrite find_put. destruct (path_eqb p q) eqn:E; [|done].
  apply path_eqb_eq in E as <-. pose proof (off_under _ _ _ Hp Ho) as H.
  unfold apart in H. by rewrite under_refl in H.
Qed.

Lemma drop_outside areas p fs : in_areas areas p = true -> same_outside areas fs (drop_tree p fs).
Proof.
  intros Hp q Ho _. rewrite find_drop_tree. pose proof (off_under _ _ _ Hp Ho) as H.
  unfold apart in H. by destruct (under p q).
Qed.

Lemma confined_Remove areas p : writable_at areas p -> confined areas (os_Remove p).
Proof.
  intros [Hp _]. apply confined_os_write. intros fs fs' Hs. unfold Remove.
  destruct (lookup_path fs p); [|done]. destruct (has_children p fs); [done|]. intros [= <-].
  split; [by apply sound_drop|by apply drop_outside].
Qed.

Lemma confined_RemoveAll areas p : writable_at areas p -> confined areas (os_RemoveAll p).
Proof.
  intros [Hp _]. apply confined_os_write. intros fs fs' Hs [= <-].
  split; [by apply sound_drop|by apply drop_outside].
Qed.

Lemma confined_change areas what call p f :
  writable_at areas p -> (forall e, e_kind (f e) = e_kind e) -> confined areas (os_write what (change call p f)).
Proof.
  intros [Hp Hg] Hk. apply confined_os_write. intros fs fs' Hs. unfold change.
  rewrite (guarded_follow cfg) by done. destruct (lookup_path fs p) as [e|] eqn:E; [|done]. intros [= <-].
  split; [|by apply put_outside].
  assert (Hroot : p = [] \/ p <> []) by (destruct p; [by left|by right]).
  destruct Hroot as [->|Hne].
  { split.
    - intros q e' Hq. rewrite find_put. destruct (path_eqb [] q) eqn:Eq; [|by apply (sound_links _ _ Hs)].
      intros [= <-]. simpl in E. injection E as <-. unfold is_link. by rewrite Hk.
    - intros q c e' Hq. rewrite find_put. destruct (path_eqb [] (q ++ [c])) eqn:Eq; [|].
      { apply path_eqb_eq in Eq. by destruct q. }
      intros Hf. destruct (sound_closed _ _ Hs q c e' Hq Hf) as (e0 & He0 & Hd). exists e0. split; [|done].
      destruct q as [|a q]; [done|]. by rewrite lookup_find, find_put in * by done. }
  apply sound_put; [done|done| | |].
  - intros _. unfold is_link. rewrite Hk. rewrite lookup_find in E by done.
    pose proof (sound_links _ _ Hs _ _ Hg E) as H. exact H.
  - intros _. destruct (is_dir e) eqn:Ed; [left; unfold is_dir in *; by rewrite Hk|right].
    intros e' He'. congruence.
  - intros Hin. destruct (split_parent p Hne) as [c Hc].
    rewrite lookup_find in E by done. rewrite Hc in E. by apply (sound_closed _ _ Hs _ _ _ Hin E).
Qed.

Lemma confined_Chmod areas p mode : writable_at areas p -> confined areas (os_Chmod p mode).
Proof. intros H. by apply confined_change. Qed.
Lemma confined_Chown areas p uid gid : writable_at areas p -> confined areas (os_Chown p uid gid).
Proof. intros H. by apply confined_change. Qed.

Lemma open_write_confined areas uid gid p data mode excl fs fs' : writable_at areas p -> sound cfg fs ->
  open_write uid gid p data mode excl fs = Ok fs' -> sound cfg fs' /\ same_outside areas fs fs'.
Proof.
  intros [Hp Hg] Hs. unfold open_write. destruct (excl && _); [done|].
  rewrite (guarded_follow cfg) by done.
  destruct (lookup_path fs p) as [e|] eqn:E.
  - destruct (is_dir e) eqn:Ed; [done|]. intros [= <-]. split; [|by apply put_outside].
    assert (Hne : p <> []) by (intros ->; simpl in E; injection E as <-; done).
    apply sound_put; [done|done|done| |].
    + intros _. right. intros e' He'. congruence.
    + intros Hin. destruct (split_parent p Hne) as [c Hc].
      rewrite lookup_find in E by done. rewrite Hc in E. by apply (sound_closed _ _ Hs _ _ _ Hin E).
  - destruct (Stat (parent p) fs) as [ep|] eqn:Ep; [|done].
    destruct (is_dir ep) eqn:Ed; [|done]. intros [= <-]. split; [|by apply put_outside].
    assert (Hne : p <> []) by (intros ->; done).
    apply sound_put; [done|done|done| |].
    + intros _. right. intros e' He'. congruence.
    + intros Hin. rewrite (guarded_Stat cfg) in Ep; [|done|by apply inside_guarded].
      destruct (lookup_path fs (parent p)); [|done]. injection Ep as ->. by eexists.
Qed.

Lemma confined_Create areas p mode : writable_at areas p -> confined areas (os_Create p mode).
Proof. intros H. apply confined_os_write. intros fs fs' Hs. by apply open_write_confined. Qed.
Lemma confined_CreateNew areas p mode : writable_at areas p -> confined areas (os_CreateNew p mode).
Proof. intros H. apply confined_os_write. intros fs fs' Hs. by apply open_write_confined. Qed.
Lemma confined_Write areas p data : writable_at areas p -> confined areas (file_Write p data).
Proof. intros H. apply confined_os_write. intros fs fs' Hs. by apply open_write_confined. Qed.
Lemma confined_WriteFile areas p data mode : writable_at areas p -> confined areas (os_WriteFile p data mode).
Proof. intros H. apply confined_bind; [by apply confined_Create|]. intros _. by apply confined_Write. Qed.

(** Directories are made along the path only. *)
Lemma make_dirs_sound uid gid mode rest : forall done fs fs', sound cfg fs ->
  (inside cfg done = true -> exists e, lookup_path fs done = Some e /\ is_dir e = true) ->
  make_dirs uid gid mode done rest fs = Ok fs' ->
  sound cfg fs' /\ forall q, under q (done ++ rest) = false -> find_path fs' q = find_path fs q.
Proof.
  induction rest as [|c rest IH]; intros dn fs fs' Hs Hdn; simpl; [by intros [= <-]|].
  replace (dn ++ c :: rest) with ((dn ++ [c]) ++ rest) by (by rewrite <- app_assoc).
  assert (Hne : dn ++ [c] <> []) by (by destruct dn).
  destruct (Stat (dn ++ [c]) fs) as [e|e] eqn:E.
  - destruct (is_dir e) eqn:Ed; [|done]. apply IH; [done|]. intros Hin.
    rewrite (guarded_Stat cfg) in E; [|done|by apply inside_guarded].
    destruct (lookup_path fs (dn ++ [c])); [|done]. injection E as ->. by eexists.
  - assert (Hs' : sound cfg (put (dn ++ [c]) (mkEntry KDir (masked mode) uid gid) fs)).
    { apply sound_put; [done|done|done|by left|]. rewrite parent_app. exact Hdn. }
    assert (Hhere : inside cfg (dn ++ [c]) = true -> exists e, lookup_path
      (put (dn ++ [c]) (mkEntry KDir (masked mode) uid gid) fs) (dn ++ [c]) = Some e /\ is_dir e = true).
    { intros _. rewrite lookup_put, path_eqb_refl by done. by eexists. }
    intros H. destruct (IH _ _ _ Hs' Hhere H) as [Hs'' Hq].
    split; [done|]. intros q Hu. rewrite Hq by done. rewrite find_put.
    destruct (path_eqb (dn ++ [c]) q) eqn:Eq; [|done]. apply path_eqb_eq in Eq as <-.
    by rewrite under_app in Hu.
Qed.

Lemma confined_MkdirAll areas p mode : in_areas areas p = true -> confined areas (os_MkdirAll p mode).
Proof.
  intros Hp. apply confined_os_write. intros fs fs' Hs H. unfold MkdirAll in H.
  assert (Hroot : inside cfg [] = true -> exists e, lookup_path fs [] = Some e /\ is_dir e = true)
    by (intros _; by eexists).
  destruct (make_dirs_sound _ _ _ _ _ _ _ Hs Hroot H) as [Hs' Hq].
  split; [done|]. intros q Ho _. apply Hq. simpl. pose proof (off_under _ _ _ Hp Ho) as Ha.
  unfold apart in Ha. apply andb_true_iff in Ha as [_ Ha]. by apply negb_true_iff in Ha.
Qed.

Lemma confined_Rename areas src dst :
  writable_at areas src -> writable_at areas dst -> inside cfg src = true -> confined areas (os_Rename src dst).
Proof.
  intros [Hsa _] [Hda Hdg] Hin. apply confined_os_write. intros fs fs' Hs. unfold Rename.
  destruct (lookup_path fs src) as [es|] eqn:Es; [|done].
  assert (Hmove : under src dst = false -> dst <> [] -> src <> [] ->
    (inside cfg (parent dst) = true -> exists e, lookup_path fs (parent dst) = Some e /\ is_dir e = true) ->
    sound cfg (move_tree src dst fs) /\ same_outside areas fs (move_tree src dst fs)).
  { intros Hsd Hd0 Hs0 Hpar. split; [by apply sound_move|]. intros q Ho _. rewrite find_move_tree by done.
    pose proof (off_under _ _ _ Hsa Ho) as H1. pose proof (off_under _ _ _ Hda Ho) as H2.
    unfold apart in *. apply andb_true_iff in H1 as [H1 _]. apply andb_true_iff in H2 as [H2 _].
    rewrite !negb_true_iff in *. rewrite H1. unfold under in H2. by destruct (strip dst q). }
  destruct (lookup_path fs dst) as [ed|] eqn:Ed.
  - destruct (path_eqb src dst) eqn:Eq; [intros [= <-]; split; [done|by intros ? ? ?]|].
    destruct (is_dir ed) eqn:Edd; [done|]. destruct (is_dir es) eqn:Esd; [done|]. intros [= <-].
    assert (Hd0 : dst <> []) by (intros ->; simpl in Ed; injection Ed as <-; done).
    assert (Hs0 : src <> []) by (intros ->; simpl in Es; injection Es as <-; done).
    apply Hmove; [|done|done|].
    + destruct (under src dst) eqn:Eu; [|done]. exfalso. apply under_iff in Eu as [r ->].
      apply path_eqb_neq in Eq. assert (Hr : r <> []) by (intros ->; by rewrite app_nil_r in Eq).
      rewrite lookup_find in Ed by done.
      destruct (inside_dir cfg fs src r ed Hs Hin Hr Ed) as (e & He & Hde). congruence.
    + intros Hip. destruct (split_parent dst Hd0) as [c Hc]. rewrite lookup_find in Ed by done.
      rewrite Hc in Ed. by apply (sound_closed _ _ Hs _ _ _ Hip Ed).
  - destruct (under src dst) eqn:Eu; [done|]. destruct (lookup_path fs (parent dst)) as [ep|] eqn:Ep; [|done].
    destruct (is_dir ep) eqn:Epd; [|done]. intros [= <-]. apply Hmove; [done| | |].
    + by intros ->.
    + intros ->. done.
    + intros _. by exists ep.
Qed.

(** *** Calls that leave the process *)

Lemma leave_lookup l fs q : (forall pe, In pe l -> path_eqb (fst pe) q = false) ->
  find_path (leave l fs) q = find_path fs q.
Proof.
  unfold leave. revert fs. induction l as [|[p e] l IH]; intros fs H; [done|]. simpl.
  rewrite IH by (intros pe Hpe; apply H; by right). rewrite find_put.
  by rewrite (H (p, e) (or_introl eq_refl) : path_eqb p q = false).
Qed.

Lemma foreign_inside q : foreign q = true -> inside cfg q = false.
Proof.
  intros H. apply foreign_guarded in H. destruct (inside cfg q) eqn:E; [|done].
  by rewrite inside_guarded in H.
Qed.

Lemma leaves_same n c fs q : foreign q = false -> find_path (leave (leaves n c) fs) q = find_path fs q.
Proof.
  intros Hq. apply leave_lookup. intros pe Hpe. apply path_eqb_neq. intros <-.
  apply foreign_leaves in Hpe. congruence.
Qed.

Lemma guarded_native q : guarded cfg q = true -> foreign q = false.
Proof. intros H. destruct (foreign q) eqn:E; [|done]. apply foreign_guarded in E. congruence. Qed.

Lemma sound_leave n c fs : sound cfg fs -> sound cfg (leave (leaves n c) fs).
Proof.
  intros Hs. split.
  - intros q e Hg. rewrite leaves_same by by apply guarded_native. by apply (sound_links _ _ Hs).
  - intros p d e Hin. rewrite leaves_same by by apply guarded_native, inside_guarded, inside_app.
    intros Hf. destruct (sound_closed _ _ Hs p d e Hin Hf) as (e0 & He0 & Hd). exists e0. split; [|done].
    destruct p as [|a p]; [done|]. rewrite lookup_find in * by done.
    by rewrite leaves_same by by apply guarded_native, inside_guarded.
Qed.

Lemma confined_out_call areas c : confined areas (out_call c).
Proof.
  intros [d fl t u tr] Hs. simpl. split_and!; [by apply sound_leave| |done].
  intros q _ Hq. by apply leaves_same.
Qed.

Lemma confined_on_db {A} areas (m : DBM A) :
  (forall w, w_faults w = [] -> w_faults (snd (m w)) = []) -> confined areas (on_db m).
Proof.
  intros H [d fl t u tr] Hs. unfold on_db. specialize (H (mkWorld (u_base d) fl t u tr)).
  destruct (m _) as [r [b fl' t' u' tr']]. simpl in *. split_and!; [done|by intros q ? ?|done].
Qed.
End Confined.
