(* ===== verification/UpdateConfined.v ===== *)
(** * UpdateConfined: an update writes in its own directories only

    The rules of [confined] for the files of update/worker.go, up to
    prepareReleasePayload, which writes below the work directory whatever the
    archive holds and whatever fails. *)

From S2P Require Import Prelude GoStrings Effects GoStd GoText MessageIds Models Mfa GoFmt FileSystem.
From S2P Require Import UpdateHost UpdateModels UpdateRuntime UpdateFiles UpdateVerify UpdateTree.
Local Open Scope Z_scope.

Section Copy.
Context {env : Env} {machine : Machine} (cfg : UpdateConfig) {others : Foreign cfg}.

Lemma confined_copyFile_to areas src dst mode : in_areas areas (parent dst) = true -> writable_at cfg areas dst ->
  confined cfg areas (copyFile src dst mode).
Proof.
  intros Hp Hd. unfold copyFile, os_Stat, os_ReadFile. apply confined_bind; [apply confined_os_read|]. intros _.
  apply confined_bind; [by apply confined_MkdirAll|]. intros _.
  apply confined_bind; [by apply confined_Create|]. intros _.
  apply confined_bind; [apply confined_os_read|]. intros data. by apply confined_Write.
Qed.
End Copy.

(** Below a directory, not the directory itself. *)
Definition strictly (a p : Path) : bool := under a (parent p) && negb (path_eqb p []).

Lemma strictly_under a p : strictly a p = true -> under a p = true.
Proof.
  unfold strictly. intros H. apply andb_true_iff in H as [H Hne]. apply negb_true_iff, path_eqb_neq in Hne.
  destruct (split_parent p Hne) as [c Hc]. rewrite Hc. eapply under_trans; [exact H|apply under_app].
Qed.

Lemma strictly_parent a p : strictly a p = true -> under a (parent p) = true.
Proof. unfold strictly. intros H. by apply andb_true_iff in H as [H _]. Qed.

Lemma strictly_snoc a p c : under a p = true -> strictly a (p ++ [c]) = true.
Proof.
  intros H. unfold strictly. rewrite parent_app, H. apply negb_true_iff, path_eqb_neq. by destruct p.
Qed.

Lemma strictly_app a p r : strictly a p = true -> strictly a (p ++ r) = true.
Proof.
  intros H. destruct r as [|c r] using rev_ind; [by rewrite app_nil_r|]. rewrite app_assoc.
  apply strictly_snoc. apply (under_trans a p); [by apply strictly_under|apply under_app].
Qed.

Lemma tmp_path_snoc p c suffix : tmp_path (p ++ [c]) suffix = p ++ [c +:+ suffix].
Proof. unfold tmp_path. by rewrite rev_app_distr; simpl; rewrite rev_involutive. Qed.

Lemma strictly_tmp a p suffix : strictly a p = true -> strictly a (tmp_path p suffix) = true.
Proof.
  intros H. pose proof (strictly_parent _ _ H) as Hp. unfold strictly in H. apply andb_true_iff in H as [_ H].
  apply negb_true_iff, path_eqb_neq in H. destruct (split_parent p H) as [c Hc]. rewrite Hc, tmp_path_snoc.
  by apply strictly_snoc.
Qed.

Lemma archive_target_under dest name target :
  archive_target dest name = Some target -> exists r, target = dest ++ r.
Proof.
  unfold archive_target. destruct (_ || _) eqn:E; [done|]. destruct (_ && _); [done|]. intros [= <-].
  apply orb_false_iff in E as [_ E]. by apply join_clean_under.
Qed.

Create HintDb confined.

Section Rules.
Context {env : Env} {machine : Machine} (cfg : UpdateConfig) {others : Foreign cfg}.

Lemma confined_for_each {A} areas (f : A -> UDB unit) l :
  (forall a, In a l -> confined cfg areas (f a)) -> confined cfg areas (for_each f l).
Proof.
  induction l as [|a l IH]; intros H; [apply confined_ret|]. apply confined_bind; [by apply H; left|].
  intros _. apply IH. intros b Hb. apply H. by right.
Qed.

Lemma confined_deferred {A} areas (m : UDB A) c :
  confined cfg areas m -> confined cfg areas c -> confined cfg areas (deferred m c).
Proof.
  intros Hm Hc. apply confined_bind; [by apply confined_attempt|]. intros r.
  apply confined_bind; [by apply confined_ignore|]. intros _. apply confined_of_res.
Qed.

Lemma confined_tolerate areas ok m : confined cfg areas m -> confined cfg areas (tolerate ok m).
Proof.
  intros Hm. apply confined_bind; [by apply confined_attempt|]. intros [[]|e]; [apply confined_ret|].
  destruct (ok e); [apply confined_ret|apply confined_throw].
Qed.
End Rules.

#[export] Hint Resolve confined_ret confined_throw confined_of_res confined_now confined_uuid
  confined_mod_time confined_os_read confined_out_call : confined.

(** Walk through a handler; the writes that are left are the ones that need a
    reason. *)
Ltac confined_step :=
  match goal with
  | |- confined _ _ _ => solve [eauto 3 with confined]
  | |- confined _ _ (bind _ _) => apply confined_bind; [|intros ?]
  | |- confined _ _ (attempt _) => apply confined_attempt
  | |- confined _ _ (ignore _) => apply confined_ignore
  | |- confined _ _ (when _ _) => apply confined_when; intros ?
  | |- confined _ _ (tolerate _ _) => apply confined_tolerate
  | |- confined _ _ (deferred _ _) => apply confined_deferred
  | |- confined _ _ (for_each _ _) => apply confined_for_each; intros ? ?
  | |- confined _ _ (let _ := _ in _) => cbv zeta
  | |- confined _ _ (match ?x with _ => _ end) => destruct x eqn:?
  end.
Ltac confined_walk := intros; repeat confined_step.

(** ** Reading *)

Section Reading.
Context {env : Env} {machine : Machine} (cfg : UpdateConfig) {others : Foreign cfg}.
Implicit Types areas : list Path.

Lemma confined_exec areas name args : confined cfg areas (exec_Command name args).
Proof. unfold exec_Command. confined_walk. Qed.
Lemma confined_http areas url headers : confined cfg areas (http_Do url headers).
Proof. unfold http_Do. confined_walk. Qed.
Lemma confined_sleep areas d : confined cfg areas (time_Sleep d).
Proof. unfold time_Sleep. confined_walk. Qed.
#[local] Hint Resolve confined_exec confined_http confined_sleep : confined.

Lemma confined_runCmd areas name args : confined cfg areas (runCmd name args).
Proof. unfold runCmd. confined_walk. Qed.
Lemma confined_systemdUnitKnown areas u : confined cfg areas (systemdUnitKnown u).
Proof. unfold systemdUnitKnown. confined_walk. Qed.
Lemma confined_showValue areas u p : confined cfg areas (systemctlShowValue u p).
Proof. unfold systemctlShowValue. confined_walk. Qed.
#[local] Hint Resolve confined_showValue : confined.
Lemma confined_inspect areas u : confined cfg areas (inspectSystemdUnit u).
Proof. unfold inspectSystemdUnit. confined_walk. Qed.
Lemma confined_read_units areas files : forall s b, confined cfg areas (read_units files s b).
Proof.
  induction files as [|p files IH]; intros s b; simpl; [apply confined_ret|]. confined_walk; apply IH.
Qed.
#[local] Hint Resolve confined_read_units confined_inspect : confined.
Lemma confined_resolveExec areas c : confined cfg areas (resolveUpdaterServiceExecPath c).
Proof. unfold resolveUpdaterServiceExecPath, os_ReadDir. confined_walk. Qed.
#[local] Hint Resolve confined_resolveExec : confined.
Lemma confined_probe areas c : confined cfg areas (defaultUpdaterRuntimeProbe c).
Proof. unfold defaultUpdaterRuntimeProbe, os_Stat. confined_walk. Qed.

Lemma confined_requestJSON {A} areas c (decode : Json.Json -> option A) path etag :
  confined cfg areas (requestJSON c decode path etag).
Proof. unfold requestJSON. confined_walk. Qed.
#[local] Hint Resolve confined_requestJSON : confined.
Lemma confined_latestPreferred areas c etag : confined cfg areas (latestPreferredReleaseRaw c etag).
Proof. unfold latestPreferredReleaseRaw, latestReleaseRaw, latestAnyReleaseRaw, status_error. confined_walk. Qed.
#[local] Hint Resolve confined_latestPreferred : confined.
Lemma confined_resolveRelease areas c v : confined cfg areas (resolveRelease c v).
Proof. unfold resolveRelease, releaseByTag, status_error. confined_walk. Qed.
Lemma confined_latestRelease areas c etag : confined cfg areas (latestRelease c etag).
Proof. unfold latestRelease. confined_walk. Qed.

Lemma confined_hasRequired areas root l : confined cfg areas (hasRequiredPaths root l).
Proof. induction l as [|r l IH]; simpl; unfold os_Stat; confined_walk; exact IH. Qed.
#[local] Hint Resolve confined_hasRequired : confined.
Lemma confined_ready areas p : confined cfg areas (preparedPayloadReady p).
Proof. unfold preparedPayloadReady. confined_walk. Qed.
Lemma confined_findPayloadRoot areas p : confined cfg areas (findPayloadRoot p).
Proof. unfold findPayloadRoot, os_ReadDir. confined_walk. Qed.

Lemma confined_verify areas s a n : confined cfg areas (verifyChecksumFile s a n).
Proof. unfold verifyChecksumFile, os_ReadFile. confined_walk. Qed.
Lemma confined_verifySignature areas s a keys : confined cfg areas (verifyChecksumSignature s a keys).
Proof. unfold verifyChecksumSignature, os_ReadFile. confined_walk. Qed.
Lemma confined_signature_url areas c r : confined cfg areas (signature_url c r).
Proof. unfold signature_url, asset_missing. confined_walk. Qed.
End Reading.

#[export] Hint Resolve confined_exec confined_http confined_sleep confined_runCmd confined_systemdUnitKnown
  confined_probe confined_resolveRelease confined_latestRelease confined_hasRequired confined_ready
  confined_findPayloadRoot confined_verify confined_verifySignature confined_signature_url : confined.

(** ** Writing below a directory of the updater *)

Section Below.
Context {env : Env} {machine : Machine} (cfg : UpdateConfig) {others : Foreign cfg}.
Context (areas : list Path) (a : Path) (Ha : In a areas) (Hin : inside cfg a = true).

Lemma below_areas p : under a p = true -> in_areas areas p = true.
Proof. intros H. apply existsb_exists. by exists a. Qed.

Lemma below_writable p : strictly a p = true -> writable_at cfg areas p.
Proof.
  intros H%strictly_under. split; [by apply below_areas|]. apply inside_guarded. by eapply inside_under.
Qed.

Lemma confined_extract_entry dest hdr : strictly a dest = true -> confined cfg areas (extract_entry dest hdr).
Proof.
  intros Hd. unfold extract_entry. destruct (archive_target dest (th_Name hdr)) as [target|] eqn:E; [|confined_walk].
  apply archive_target_under in E as [r ->]. pose proof (strictly_app a dest r Hd) as Ht.
  destruct (th_Typeflag hdr).
  - apply confined_bind; [by apply confined_MkdirAll, below_areas, strictly_parent|]. intros _.
    apply confined_bind; [by apply confined_Create, below_writable|]. intros _.
    by apply confined_Write, below_writable.
  - by apply confined_MkdirAll, below_areas, strictly_under.
  - apply confined_ret.
Qed.

Lemma confined_extractTarGz src dest : strictly a dest = true -> confined cfg areas (extractTarGz src dest).
Proof.
  intros Hd. unfold extractTarGz, os_ReadFile.
  apply confined_bind; [by apply confined_MkdirAll, below_areas, strictly_under|]. confined_walk.
  by apply confined_extract_entry.
Qed.

Lemma confined_copyFile src dst mode : strictly a dst = true -> confined cfg areas (copyFile src dst mode).
Proof.
  intros Hd. apply confined_copyFile_to; [by apply below_areas, strictly_parent|by apply below_writable].
Qed.

Lemma confined_copyDir src dst : strictly a dst = true -> confined cfg areas (copyDir src dst).
Proof.
  intros Hd. unfold copyDir, os_WalkDir. confined_walk. unfold copy_entry, below_dir.
  destruct (is_dir (snd _)).
  - by apply confined_MkdirAll, below_areas, strictly_under, strictly_app.
  - by apply confined_copyFile, strictly_app.
Qed.

Lemma confined_copy_optional src dst : strictly a dst = true -> confined cfg areas (copy_optional src dst).
Proof. intros Hd. unfold copy_optional, os_Stat. confined_walk. by apply confined_copyFile. Qed.

Lemma confined_copy_payload from to : under a to = true -> confined cfg areas (copy_payload from to).
Proof.
  intros Hu. unfold copy_payload.
  assert (Hname : forall name, valid_name name = true -> strictly a (join to name) = true).
  { intros name Hv. rewrite join_valid by done. by apply strictly_snoc. }
  do 3 (apply confined_bind; [by apply confined_copyFile, Hname|intros _]).
  do 3 (apply confined_bind; [by apply confined_copyDir, Hname|intros _]).
  apply confined_bind; [|intros ?; apply confined_bind; [by apply confined_copy_optional, Hname|confined_walk]].
  destruct (String.eqb webI18nNativeLibraryName "") eqn:E; [apply confined_ret|].
  apply confined_copy_optional, Hname. unfold webI18nNativeLibraryName in *. by repeat destruct (String.eqb machine_os _).
Qed.

Lemma confined_downloadAsset url dest : strictly a dest = true -> confined cfg areas (downloadAsset cfg url dest).
Proof.
  intros Hd. unfold downloadAsset. cbv zeta. destruct (negb _); [confined_walk|].
  apply confined_bind; [confined_walk|]. intros resp. destruct (negb _); [confined_walk|].
  apply confined_bind; [by apply confined_MkdirAll, below_areas, strictly_parent|]. intros _.
  apply confined_bind; [by apply confined_Create, below_writable|]. intros _.
  apply confined_bind; [by apply confined_Write, below_writable|]. confined_walk.
Qed.

Lemma confined_writeJSON path payload mode parentMode :
  strictly a path = true -> strictly a (parent path) = true \/ writable_at cfg areas (parent path) ->
  confined cfg areas (writeJSONAtomic path payload mode parentMode).
Proof.
  intros Hp Hpar. unfold writeJSONAtomic, rejectSymlink, os_Lstat. cbv zeta.
  assert (Hw : writable_at cfg areas (parent path)) by (destruct Hpar; [by apply below_writable|done]).
  apply confined_bind; [confined_walk|]. intros _.
  apply confined_bind; [by apply confined_MkdirAll, Hw|]. intros _.
  apply confined_bind; [by apply confined_tolerate, confined_Chmod|]. intros _.
  apply confined_bind; [confined_walk|]. intros raw.
  apply confined_bind; [by apply confined_WriteFile, below_writable, strictly_tmp|]. intros _.
  apply confined_Rename; [by apply below_writable, strictly_tmp|by apply below_writable|].
  eapply inside_under; [exact Hin|]. by apply strictly_under, strictly_tmp.
Qed.

End Below.

(** ** Names *)

Lemma free_bytes s : free_of slash s <-> ~ In 47 (bytes s).
Proof.
  unfold free_of, bytes. rewrite in_map_iff. split.
  - intros H (a & Ha & Hin). apply H. rewrite <- (ascii_of_byte_of a), Ha in Hin. exact Hin.
  - intros H Hin. apply H. exists slash. by split.
Qed.

Lemma free_app s t : free_of slash (s +:+ t) <-> free_of slash s /\ free_of slash t.
Proof. rewrite !free_bytes, bytes_app, in_app_iff. tauto. Qed.

Lemma valid_name_intro s : free_of slash s -> existsb (String.eqb s) [""; "."; ".."] = false -> valid_name s = true.
Proof. intros H1 H2. unfold valid_name. rewrite H2. by rewrite bool_decide_eq_true_2. Qed.

Lemma TrimSpace_free s : free_of slash s -> free_of slash (TrimSpace s).
Proof.
  rewrite !free_bytes, bytes_TrimSpace. intros H Hin. apply H.
  destruct (trim_front_suffix space2 space3 (bytes s)) as [k Hk]. fold (trim_left (bytes s)) in Hk.
  destruct (trim_right_prefix (trim_left (bytes s))) as [q Hq]. rewrite Hk, Hq.
  apply in_app_iff. right. apply in_app_iff. by left.
Qed.

Lemma drop_while_incl b l x : In x (drop_while b l) -> In x l.
Proof.
  induction l as [|c l IH]; simpl; [done|]. destruct (c =? b); [|done]. intros H. right. by apply IH.
Qed.

Lemma TrimByte_incl s b x : In x (bytes (TrimByte s b)) -> In x (bytes s).
Proof.
  unfold TrimByte. rewrite bytes_of_bytes.
  - intros H%in_rev%drop_while_incl%in_rev%drop_while_incl. done.
  - pose proof (bytes_is_bytes s) as H. unfold is_bytes in *. rewrite List.Forall_forall in *.
    intros y Hy%in_rev%drop_while_incl%in_rev%drop_while_incl. by apply H.
Qed.

Lemma token_rune_range r : path_token_rune r = true -> 45 <= r <= 122 /\ r <> 47.
Proof. unfold path_token_rune, is_digit. rewrite !orb_true_iff, !andb_true_iff. intros H. lia. Qed.

Lemma sanitize_bytes v b : In b (bytes (sanitizePathToken v)) -> 45 <= b <= 122 /\ b <> 47.
Proof.
  assert (Hunk : forall b, In b (bytes "unknown") -> 45 <= b <= 122 /\ b <> 47).
  { intros c Hc. vm_compute in Hc. repeat destruct Hc as [<-|Hc]; done || lia. }
  unfold sanitizePathToken. destruct (String.eqb (TrimSpace v) ""); [by apply Hunk|].
  destruct (String.eqb _ ""); [by apply Hunk|]. intros H%TrimByte_incl.
  assert (Hall : Forall (fun r => 45 <= r <= 122 /\ r <> 47)
    (map (fun r => if path_token_rune r then r else 45) (runes (TrimSpace v)))).
  { apply List.Forall_forall. intros r (x & <- & _)%in_map_iff. destruct (path_token_rune x) eqn:E; [|lia].
    by apply token_rune_range. }
  rewrite bytes_of_bytes in H.
  - rewrite List.Forall_forall in Hall. by apply Hall.
  - eapply List.Forall_impl; [|exact Hall]. simpl. lia.
Qed.

Lemma sanitize_free v : free_of slash (sanitizePathToken v).
Proof. apply free_bytes. intros H%sanitize_bytes. lia. Qed.

Ltac literal_free := apply free_bytes; vm_compute; intuition discriminate.

(** A literal followed by tokens is the name of a file. *)
Ltac valid_token :=
  apply valid_name_intro; [repeat (apply free_app; split); first [apply sanitize_free|literal_free]|reflexivity].

Lemma HasPrefix_split s p : HasPrefix s p = true -> exists t, s = p +:+ t.
Proof.
  unfold HasPrefix. revert s. induction p as [|a p IH]; intros s H; [by exists s|].
  destruct s as [|b s]; [done|]. simpl in H. destruct (Ascii.ascii_dec a b) as [->|]; [|done].
  destruct (IH s H) as [t ->]. by exists t.
Qed.

Lemma ReadDir_valid p fs l ne : ReadDir p fs = Ok l -> In ne l -> valid_name (fst ne) = true.
Proof.
  unfold ReadDir. destruct (Stat p fs) as [e|[]]; try done. destruct (is_dir e); [|done]. intros [= <-].
  rewrite in_flat_map. intros ([q e'] & _ & Hin). unfold child in Hin.
  destruct (strip _ _) as [[|c [|d r]]|]; try done. destruct (valid_name c) eqn:E; [|done].
  destruct Hin as [<-|[]]. done.
Qed.

Section Reads.
Context {env : Env} {machine : Machine} (cfg : UpdateConfig) {others : Foreign cfg}.

(** What a read answers is what the function says of some file system. *)
Lemma confined_read_then {A B} areas what (f : FS -> Res A) (k : Res A -> UDB B) :
  (forall a fs, f fs = Ok a -> confined cfg areas (k (Ok a))) -> (forall e, confined cfg areas (k (Fail e))) ->
  confined cfg areas (bind (attempt (os_read what f)) k).
Proof.
  intros Hok Hfail w Hs.
  assert (Hr : exists r w', attempt (os_read what f) w = (Ok r, w') /\ u_fs (w_db w') = u_fs (w_db w)
    /\ (w_faults w = [] -> w_faults w' = []) /\ match r with Ok a => exists fs, f fs = Ok a | Fail _ => True end).
  { destruct w as [d fl t u tr]. unfold attempt, os_read, os_call.
    destruct fl as [|[] fl]; [| |]; try (destruct (f (u_fs d)) eqn:E); eexists _, _; split_and!; try done;
      by exists (u_fs d). }
  destruct Hr as (r & w' & Hr & Hfs & Hfl & Hpost). unfold bind. rewrite Hr.
  assert (Hk : confined cfg areas (k r)).
  { destruct r as [a|e]; [|done]. destruct Hpost as [fs E]. by eapply Hok. }
  rewrite <- Hfs in Hs |- *. destruct (Hk w' Hs) as (? & ? & ?). split_and!; [done|done|auto].
Qed.

Lemma confined_read_bind {A B} areas what (f : FS -> Res A) (k : A -> UDB B) :
  (forall a fs, f fs = Ok a -> confined cfg areas (k a)) -> confined cfg areas (bind (os_read what f) k).
Proof.
  intros H w Hs.
  assert (Hbind : bind (os_read what f) k w
    = bind (attempt (os_read what f)) (fun r => match r with Ok a => k a | Fail e => throw e end) w).
  { unfold bind, attempt. by destruct (os_read what f w) as [[a|e] w']. }
  rewrite Hbind. apply confined_read_then; [done|intros e; apply confined_throw|done].
Qed.

Lemma confined_trimPrepared areas a keep : In a areas -> inside cfg a = true ->
  confined cfg areas (trimPreparedPayloads a keep).
Proof.
  intros Ha Hin. unfold trimPreparedPayloads, os_ReadDir. apply confined_read_then; [|intros e; apply confined_ret].
  intros l fs Hl. apply confined_for_each. intros ne Hne. unfold trim_prepared. cbv zeta.
  destruct (negb (is_dir _)); [apply confined_ret|]. destruct (HasPrefix _ _) eqn:Hp; [|apply confined_ret].
  simpl negb. cbv iota. destruct (path_eqb _ _); [apply confined_ret|].
  apply confined_ignore, confined_RemoveAll. eapply below_writable; [exact Ha|exact Hin|].
  pose proof (ReadDir_valid _ _ _ _ Hl Hne) as Hv. unfold valid_name in Hv. apply andb_true_iff in Hv as [Hv _].
  apply bool_decide_eq_true_1 in Hv. rewrite join_valid.
  - apply strictly_snoc, under_refl.
  - apply valid_name_intro; [by apply TrimSpace_free|].
    apply HasPrefix_split in Hp as [t ->]. reflexivity.
Qed.
End Reads.

(** ** The layout of the directories *)

(** What the configuration of an installation looks like: the directories lie
    apart, the signature is a file name, and so are the archive's candidates. *)
Class Layout (cfg : UpdateConfig) (arch : string) : Prop := {
  lay_apart : apart (UpdateInstallDir cfg) (UpdateBaseDir cfg) = true;
  lay_install_units : apart (UpdateInstallDir cfg) (UpdateSystemdUnitDir cfg) = true;
  lay_base_units : apart (UpdateBaseDir cfg) (UpdateSystemdUnitDir cfg) = true;
  lay_signature : UpdateRequireSignature cfg = true -> valid_name (TrimSpace (UpdateSignatureAsset cfg)) = true;
  lay_archive : forallb (fun n => valid_name (TrimSpace n)) (archiveAssetCandidates arch arch) = true
}.

Section Prepare.
Context {env : Env} {machine : Machine} (cfg : UpdateConfig) {others : Foreign cfg}.

Lemma workDir_eq : workDir cfg = UpdateBaseDir cfg ++ ["work"].
Proof. unfold workDir. by rewrite join_valid. Qed.

Lemma inside_base r : inside cfg (UpdateBaseDir cfg ++ r) = true.
Proof. unfold inside. rewrite (under_app (UpdateBaseDir cfg)). apply orb_true_r. Qed.
Lemma inside_install r : inside cfg (UpdateInstallDir cfg ++ r) = true.
Proof. unfold inside. by rewrite (under_app (UpdateInstallDir cfg)). Qed.
Lemma inside_work : inside cfg (workDir cfg) = true.
Proof. rewrite workDir_eq. apply inside_base. Qed.

Lemma join_name p name : valid_name name = true -> strictly p (join p name) = true.
Proof. intros H. rewrite join_valid by done. apply strictly_snoc, under_refl. Qed.

Lemma preparedDir_strictly v : strictly (workDir cfg) (preparedPayloadDir cfg v) = true.
Proof.
  unfold preparedPayloadDir. cbv zeta. apply join_name.
  destruct (String.eqb (TrimSpace (sanitizePathToken v)) ""); [done|]. valid_token.
Qed.

Lemma first_asset_in rel l name url : first_asset rel l = Some (name, url) -> exists n, In n l /\ name = TrimSpace n.
Proof.
  induction l as [|n l IH]; simpl; [done|]. destruct (findAssetURL rel n).
  - intros [= <- _]. exists n. by split; [left|].
  - intros H. destruct (IH H) as (m & Hm & ->). exists m. by split; [right|].
Qed.

Section Areas.
Context (areas : list Path) (Hwork : In (workDir cfg) areas) `{!Layout cfg machine_arch}.

Lemma confined_store_payload root dir : strictly (workDir cfg) dir = true ->
  confined cfg areas (store_payload cfg root dir).
Proof.
  intros Hd. pose proof (strictly_tmp _ _ ".tmp" Hd) as Ht. unfold store_payload. cbv zeta.
  pose proof (below_writable cfg areas _ Hwork inside_work) as Hw.
  pose proof inside_work as Hin.
  apply confined_bind; [by apply confined_ignore, confined_RemoveAll, Hw|]. intros _.
  apply confined_deferred; [|by apply confined_RemoveAll, Hw].
  apply confined_bind; [by eapply confined_MkdirAll, below_areas, strictly_under|]. intros _.
  apply confined_bind; [by eapply confined_copy_payload, strictly_under|]. intros _.
  apply confined_bind; [by apply confined_ignore, confined_RemoveAll, Hw|]. intros _.
  apply confined_bind; [|intros _; by apply confined_trimPrepared].
  apply confined_Rename; [by apply Hw|by apply Hw|]. eapply inside_under; [exact Hin|]. by apply strictly_under.
Qed.

Lemma confined_fetch_payload runWork name u1 u2 u3 : strictly (workDir cfg) runWork = true ->
  valid_name name = true -> confined cfg areas (fetch_payload cfg runWork name u1 u2 u3).
Proof.
  intros Hr Hn. pose proof inside_work as Hin. unfold fetch_payload. cbv zeta.
  assert (Hj : forall n, valid_name n = true -> strictly (workDir cfg) (join runWork n) = true).
  { intros n Hv. rewrite join_valid by done. apply strictly_app. done. }
  apply confined_bind; [by eapply confined_downloadAsset, Hj|]. intros _.
  apply confined_bind; [by eapply confined_downloadAsset, Hj|]. intros _.
  apply confined_bind.
  { apply confined_when. intros Hreq. apply confined_bind; [|intros _; apply confined_verifySignature].
    eapply confined_downloadAsset; [done|done|]. by apply Hj, lay_signature. }
  intros _. apply confined_bind; [apply confined_verify|]. intros _.
  apply confined_bind; [by eapply confined_extractTarGz, Hj|]. intros _. apply confined_findPayloadRoot.
Qed.

(** Whatever the archive holds and whatever fails, preparing a release writes
    below the work directory only. *)
Lemma confined_prepare target : confined cfg areas (prepareReleasePayload cfg target).
Proof.
  pose proof inside_work as Hin. unfold prepareReleasePayload.
  apply confined_bind; [apply confined_resolveRelease|]. intros release.
  pose proof (preparedDir_strictly (gr_TagName release)) as Hd. cbv zeta.
  set (dir := preparedPayloadDir cfg (gr_TagName release)) in *. clearbody dir.
  apply confined_bind; [apply confined_ready|]. intros [].
  { apply confined_bind; [by apply confined_trimPrepared|intros _; apply confined_ret]. }
  destruct (resolveArchiveAsset release machine_arch machine_arch) as [[name url]|] eqn:Ea; [|apply confined_throw].
  assert (Hname : valid_name name = true).
  { apply first_asset_in in Ea as (n & Hn & ->). pose proof lay_archive as Hl. rewrite forallb_forall in Hl. by apply Hl. }
  destruct (findAssetURL release "checksums.txt"); [|apply confined_throw].
  apply confined_bind; [apply confined_signature_url|]. intros sig.
  apply confined_bind; [apply confined_now|]. intros now. cbv zeta.
  set (runWork := join (workDir cfg) _).
  assert (Hr : strictly (workDir cfg) runWork = true).
  { apply join_name. valid_token. }
  clearbody runWork. pose proof (below_writable cfg areas _ Hwork inside_work _ Hr) as Hw.
  apply confined_bind; [by apply confined_ignore, confined_RemoveAll|]. intros _.
  apply confined_bind; [by apply confined_MkdirAll, Hw|]. intros _.
  apply confined_deferred; [|by apply confined_RemoveAll].
  apply confined_bind; [by apply confined_fetch_payload|]. intros root.
  apply confined_bind; [by apply confined_store_payload|]. intros _. apply confined_ret.
Qed.
End Areas.
End Prepare.
