(* ===== verification/UpdateRollback.v ===== *)
(** * UpdateRollback: a release that does not come up leaves the old one

    What the swaps and the rollback of UpdateApply do to the trees of the
    installation.  [held l] says of each path of [l] what stands there. *)

From S2P Require Import Prelude GoStrings Effects GoStd GoText Models Mfa FileSystem UpdateHost UpdateModels.
From S2P Require Import UpdateRuntime UpdateFiles UpdateVerify UpdateApply UpdateTree UpdateConfined.
Local Open Scope Z_scope.

(** ** Claims about trees *)

Inductive Claim : Type :=
| Tree (T : Path -> option Entry)   (* exactly these entries *)
| NotDir                            (* no directory *)
| Whatever.

Definition absent : Claim := Tree (fun _ => None).

Definition claim (fs : FS) (qc : Path * Claim) : Prop :=
  match snd qc with
  | Tree T => forall r, below fs (fst qc) r = T r
  | NotDir => forall e, below fs (fst qc) [] = Some e -> is_dir e = false
  | Whatever => True
  end.

Section Held.
Context {env : Env} {machine : Machine} (cfg : UpdateConfig) {others : Foreign cfg}.

Definition held (l : list (Path * Claim)) (d : UpdateDB) : Prop :=
  sound cfg (u_fs d) /\ Forall (claim (u_fs d)) l.

Lemma held_incl l l' d : incl l' l -> held l d -> held l' d.
Proof. intros Hi [Hs Hl]. split; [done|]. rewrite List.Forall_forall in *. auto. Qed.

Definition framed (areas : list Path) (l : list (Path * Claim)) : Prop :=
  Forall (fun qc => off areas (fst qc) = true /\ inside cfg (fst qc) = true) l.

Lemma claim_same areas fs fs' qc : same_outside cfg areas fs fs' ->
  off areas (fst qc) = true -> inside cfg (fst qc) = true -> fst qc <> [] -> claim fs qc -> claim fs' qc.
Proof.
  intros Hsame Ho Hi Hne. destruct qc as [q c]. simpl in *.
  assert (Hb : forall r, below fs' q r = below fs q r).
  { intros r. unfold below. rewrite !lookup_find by (by destruct q). apply Hsame; [by apply off_app|].
    by apply (guarded_native cfg), inside_guarded, inside_app. }
  destruct c as [T| |]; unfold claim; simpl; intros H; [intros r|intros e|done]; rewrite Hb; apply H.
Qed.

Lemma off_nonempty areas q : areas <> [] -> off areas q = true -> q <> [].
Proof.
  intros Hne H ->. destruct areas as [|a areas]; [done|]. simpl in H. apply andb_true_iff in H as [H _].
  rewrite apart_sym in H. by apply apart_root in H.
Qed.

(** A confined action keeps what is claimed outside its areas. *)
Lemma confined_keeps {A} areas l (m : UDB A) : areas <> [] ->
  confined cfg areas m -> framed areas l -> keeps (held l) m.
Proof.
  intros Hne Hm Hf w [Hfl [Hs Hl]]. destruct (Hm w Hs) as (Hs' & Hsame & Hfl').
  split; [by apply Hfl'|]. split; [done|]. unfold framed in Hf. rewrite List.Forall_forall in *.
  intros qc Hq. destruct (Hf qc Hq). eapply claim_same; [exact Hsame|done|done| |by apply Hl].
  by eapply off_nonempty.
Qed.

(** [r] of a system call, in a world without faults. *)
Lemma os_call_run {A} what (f : FS -> Res (A * FS)) w : w_faults w = [] ->
  os_call what f w = match f (u_fs (w_db w)) with
                     | Ok (a, g) => (Ok a, w <| w_db := w_db w <| u_fs := g |> |>)
                     | Fail e => (Fail e, w)
                     end.
Proof.
  destruct w as [d fl t u tr]. simpl. intros ->. unfold os_call. destruct (f (u_fs d)) as [[a g]|e]; done.
Qed.

Lemma runs_os_write J what (f : FS -> Res FS) (Q : Res unit -> UpdateDB -> Prop) :
  (forall d, J d -> match f (u_fs d) with Ok g => Q (Ok tt) (d <| u_fs := g |>) | Fail e => Q (Fail e) d end) ->
  runs J (os_write what f) Q.
Proof.
  intros H w [Hf HJ]. unfold os_write. rewrite os_call_run by done. specialize (H _ HJ).
  by destruct (f (u_fs (w_db w))).
Qed.

Lemma runs_os_read {A} J what (f : FS -> Res A) (Q : Res A -> UpdateDB -> Prop) :
  (forall d, J d -> Q (f (u_fs d)) d) -> runs J (os_read what f) Q.
Proof.
  intros H w [Hf HJ]. unfold os_read. rewrite os_call_run by done. specialize (H _ HJ).
  destruct (f (u_fs (w_db w))) eqn:E; simpl; [|done]. split; [done|].
  destruct w as [[b g es cs] fl t u tr]. simpl in *. done.
Qed.

Lemma runs_ignore {A} J (m : UDB A) (Q : UpdateDB -> Prop) :
  runs J m (fun _ d => Q d) -> runs J (ignore m) (fun r d => match r with Ok _ => Q d | Fail _ => False end).
Proof. intros H w Hw. rewrite ignore_eq. by apply H. Qed.

(** ** The steps *)

Lemma below_root fs p : p <> [] -> below fs p [] = find_path fs p.
Proof. intros H. unfold below. rewrite app_nil_r. by apply lookup_find. Qed.

Lemma absent_tree fs p : sound cfg fs -> inside cfg p = true -> p <> [] -> lookup_path fs p = None ->
  forall r, below fs p r = None.
Proof.
  intros Hs Hin Hne Hl r. destruct (below fs p r) as [e|] eqn:E; [|done]. exfalso.
  destruct r as [|c r]; [unfold below in E; rewrite app_nil_r in E; congruence|].
  unfold below in E. rewrite lookup_find in E by (by destruct p).
  destruct (inside_dir cfg fs p (c :: r) e Hs Hin ltac:(done) E) as (e' & He' & _). congruence.
Qed.

Lemma in_find fs q e : In (q, e) fs -> exists e', find_path fs q = Some e'.
Proof.
  induction fs as [|[q' e'] fs IH]; simpl; [done|]. intros [[= -> ->]|H]; [rewrite path_eqb_refl; by eexists|].
  destruct (path_eqb q' q); [by eexists|by apply IH].
Qed.

Lemma no_children fs p : sound cfg fs -> inside cfg p = true ->
  (forall e, lookup_path fs p = Some e -> is_dir e = false) -> has_children p fs = false.
Proof.
  intros Hs Hin Hnd. destruct (has_children p fs) eqn:E; [|done]. exfalso.
  unfold has_children in E. apply existsb_exists in E as ([q e] & Hq & H). simpl in H.
  apply andb_true_iff in H as [Hu Hn]. apply negb_true_iff, path_eqb_neq in Hn.
  apply under_iff in Hu as [r ->]. apply in_find in Hq as [e' He'].
  destruct (inside_dir cfg fs p r e' Hs Hin) as (e0 & He0 & Hd); [|done|].
  - intros ->. by rewrite app_nil_r in Hn.
  - rewrite (Hnd _ He0) in Hd. done.
Qed.

Definition own (p : Path) : Prop := inside cfg p = true /\ p <> [].

Lemma own_writable areas p : In p areas -> own p -> writable_at cfg areas p.
Proof.
  intros Hin [Hp _]. split; [|by apply inside_guarded]. apply existsb_exists. exists p.
  split; [done|apply under_refl].
Qed.

Lemma claims_keep areas l d fs' : areas <> [] -> framed areas l -> sound cfg fs' ->
  same_outside cfg areas (u_fs d) fs' -> held l d -> Forall (claim fs') l.
Proof.
  intros Hne Hf Hs' Hsame [_ Hl]. unfold framed in Hf. rewrite List.Forall_forall in *. intros qc Hq.
  destruct (Hf qc Hq). eapply claim_same; [exact Hsame|done|done| |by apply Hl]. by eapply off_nonempty.
Qed.

Lemma RemoveAll_runs l p : own p -> framed [p] l ->
  runs (held l) (ignore (os_RemoveAll p))
    (fun r d => match r with Ok _ => held ((p, absent) :: l) d | Fail _ => False end).
Proof.
  intros Hp Hf. apply runs_ignore, runs_os_write. intros d Hd. simpl.
  assert (Hs' : sound cfg (drop_tree p (u_fs d))) by (apply sound_drop, Hd).
  split; [done|]. constructor.
  - intros r. apply below_drop, Hp.
  - eapply claims_keep; [| exact Hf| exact Hs'| |exact Hd]; [done|]. apply drop_outside. simpl. by rewrite under_refl.
Qed.

(** A file that is removed is gone. *)
Lemma Remove_runs l p : own p -> framed [p] l ->
  runs (held ((p, NotDir) :: l)) (ignore (os_Remove p))
    (fun r d => match r with Ok _ => held ((p, absent) :: l) d | Fail _ => False end).
Proof.
  intros [Hin Hne] Hf. apply runs_ignore, runs_os_write. intros d [Hs Hl]. inversion_clear Hl as [|? ? Hc Hl'].
  assert (Hnd : forall e, lookup_path (u_fs d) p = Some e -> is_dir e = false).
  { intros e He. apply Hc. by rewrite below_root, <- lookup_find by done. }
  unfold Remove. destruct (lookup_path (u_fs d) p) as [e|] eqn:El.
  - rewrite no_children by (rewrite ?El; done).
    assert (Hs' : sound cfg (drop_tree p (u_fs d))) by by apply sound_drop.
    split; [done|]. constructor; [intros r; by apply below_drop|].
    eapply claims_keep; [|exact Hf|exact Hs'| |by split]; [done|]. apply drop_outside. simpl. by rewrite under_refl.
  - split; [done|]. constructor; [|done]. intros r. by apply absent_tree.
Qed.

Lemma moved_claim src dst fs c : apart src dst = true -> claim fs (src, c) -> claim (move_tree src dst fs) (dst, c).
Proof.
  intros Ha. unfold claim. simpl. destruct c as [T| |]; intros H; [intros r|intros e|done];
    rewrite below_moved by done; apply H.
Qed.

(** What is renamed stands at its new place. *)
Lemma Rename_runs l src dst c : own src -> own dst -> apart src dst = true -> framed [src; dst] l ->
  runs (held ((src, c) :: l)) (os_Rename src dst)
    (fun r d => match r with
                | Ok _ => held ((dst, c) :: (src, absent) :: l) d
                | Fail _ => held ((src, c) :: l) d end).
Proof.
  intros Hsrc Hdst Ha Hf. apply runs_os_write. intros d Hd.
  pose proof (confined_Rename (machine := machine) cfg [src; dst] src dst) as Hconf.
  assert (Hok : forall fs', Rename src dst (u_fs d) = Ok fs' ->
    fs' = move_tree src dst (u_fs d) -> held ((dst, c) :: (src, absent) :: l) (d <| u_fs := fs' |>)).
  { intros fs' E ->. destruct Hd as [Hs Hl]. inversion_clear Hl as [|? ? Hc Hl'].
    destruct (Hconf) with (w := mkWorld d [] 0%nat 0%nat (@nil Effect)) as (Hs' & Hsame & _);
      [by apply own_writable; [left|]|by apply own_writable; [right; left|]|apply Hsrc|exact Hs|].
    unfold os_Rename, os_write in Hs', Hsame. rewrite os_call_run in Hs', Hsame by done.
    simpl in Hs', Hsame. rewrite E in Hs', Hsame. simpl in Hs', Hsame.
    split; [exact Hs'|]. constructor; [by apply moved_claim|]. constructor; [intros r; by apply below_left|].
    by apply (claims_keep [src; dst] l d); [done|done|done|done|split]. }
  destruct (Rename src dst (u_fs d)) as [fs'|e] eqn:E; [|done]. apply (Hok fs' eq_refl).
  unfold Rename in E. destruct (lookup_path (u_fs d) src) as [es|]; [|done].
  destruct (lookup_path (u_fs d) dst) as [ed|].
  - destruct (path_eqb src dst) eqn:Eq.
    { apply path_eqb_eq in Eq as ->. unfold apart in Ha. by rewrite under_refl in Ha. }
    destruct (is_dir ed); [done|]. destruct (is_dir es); [done|]. by injection E as <-.
  - destruct (under src dst); [done|]. destruct (lookup_path (u_fs d) (parent dst)) as [ep|]; [|done].
    destruct (is_dir ep); [|done]. by injection E as <-.
Qed.

(** An absent path fails to be found; a path that is there is found. *)
Lemma Stat_runs l p : own p ->
  runs (held l) (attempt (os_Stat p))
    (fun r d => match r with
                | Ok (Ok e) => held l d /\ lookup_path (u_fs d) p = Some e
                | Ok (Fail _) => held l d /\ lookup_path (u_fs d) p = None
                | Fail _ => False end).
Proof.
  intros [Hin _]. eapply runs_weaken; [apply runs_attempt, runs_os_read|].
  - intros d Hd. simpl. instantiate (1 := fun r d => match r with
      | Ok e => held l d /\ lookup_path (u_fs d) p = Some e
      | Fail _ => held l d /\ lookup_path (u_fs d) p = None end). simpl.
    rewrite (guarded_Stat cfg) by (apply Hd || by apply inside_guarded).
    by destruct (lookup_path (u_fs d) p).
  - intros [[e|e]|e] d; done.
Qed.

Lemma framed_incl areas areas' l : incl areas' areas -> framed areas l -> framed areas' l.
Proof.
  intros Hi. unfold framed. rewrite !List.Forall_forall. intros H qc Hq. destruct (H qc Hq) as [Ho Hin].
  split; [|done]. unfold off in *. rewrite forallb_forall in *. auto.
Qed.

Lemma framed_cons areas p c l : own p -> forallb (fun a => apart a p) areas = true ->
  framed areas l -> framed areas ((p, c) :: l).
Proof. intros [Hin _] Ha Hf. by constructor. Qed.

Lemma runs_pre {A} (J J' : UpdateDB -> Prop) (m : UDB A) Q : (forall d, J' d -> J d) -> runs J m Q -> runs J' m Q.
Proof. intros H Hm w [Hf HJ]. apply Hm. split; [done|]. by apply H. Qed.

(** The failure of an action says nothing of what it leaves. *)
Definition on_ok {A} (Q : A -> UpdateDB -> Prop) (r : Res A) (d : UpdateDB) : Prop :=
  match r with Ok a => Q a d | Fail _ => True end.

Lemma move_in stg cur s m : own stg -> own cur -> apart stg cur = true -> framed [stg; cur] m ->
  runs (held ((stg, s) :: m)) (os_Rename stg cur) (on_ok (fun _ => held ((cur, s) :: m))).
Proof.
  intros. eapply runs_weaken; [by apply Rename_runs|].
  intros [[]|e] d; simpl; [|done]. apply held_incl. intros x. simpl. tauto.
Qed.

Lemma runs_attempt_then {A B} J (m : UDB A) (k : Res A -> UDB B) (P : Res A -> UpdateDB -> Prop) Q :
  runs J m P -> (forall r, runs (P r) (k r) Q) -> runs J (bind (attempt m) k) Q.
Proof.
  intros Hm Hk. eapply runs_bind; [|exact Hk].
  eapply runs_weaken; [by apply runs_attempt|]. by intros [r|e] d.
Qed.

Lemma runs_ok_bind {A B} J (m : UDB A) (k : A -> UDB B) (R : A -> UpdateDB -> Prop) (Q : B -> UpdateDB -> Prop) :
  runs J m (on_ok R) -> (forall a, runs (R a) (k a) (on_ok Q)) -> runs J (bind m k) (on_ok Q).
Proof. intros Hm Hk. eapply runs_bind; [|exact Hk]. eapply runs_weaken; [exact Hm|]. by intros [a|e] d. Qed.

Lemma on_ok_weaken {A} J (m : UDB A) (Q Q' : A -> UpdateDB -> Prop) :
  runs J m (on_ok Q) -> (forall a d, Q a d -> Q' a d) -> runs J m (on_ok Q').
Proof. intros Hm H. eapply runs_weaken; [exact Hm|]. intros [a|e] d; simpl; auto. Qed.

Lemma runs_fails {A B} J (m : UDB A) e (Q : B -> UpdateDB -> Prop) :
  keeps J m -> runs J (bind m (fun _ => throw (A := B) e)) (on_ok Q).
Proof.
  intros Hm w Hw. unfold bind. specialize (Hm w Hw). destruct (m w) as [[a|e'] w']; simpl in *;
    by destruct Hm.
Qed.

(** Where the failure of the second move is handled. *)
Lemma second_move {A} J stg cur (undo : UDB A) Q :
  runs J (os_Rename stg cur) (on_ok (fun _ => Q)) -> keeps anydb undo ->
  runs J (bind (attempt (os_Rename stg cur)) (fun r =>
            match r with Ok _ => ret tt | Fail e => bind undo (fun _ => throw e) end)) (on_ok (fun _ => Q)).
Proof.
  intros Hm Hu. eapply runs_attempt_then; [exact Hm|]. intros [[]|e]; [by apply runs_ret|].
  eapply runs_pre; [|by apply runs_fails]. done.
Qed.

Lemma keeps_any_write what f : keeps anydb (os_write what f).
Proof. intros w [Hf _]. unfold os_write. rewrite os_call_run by done. by destruct (f _). Qed.

Section Swap.
Variables (cur stg prev : Path) (l : list (Path * Claim)).
Hypothesis Hcur : own cur.
Hypothesis Hstg : own stg.
Hypothesis Hprev : own prev.
Hypothesis Hcs : apart cur stg = true.
Hypothesis Hcp : apart cur prev = true.
Hypothesis Hsp : apart stg prev = true.
Hypothesis Hl : framed [cur; stg; prev] l.

Lemma move_aside c s :
  runs (held ((cur, c) :: (stg, s) :: l)) (os_Rename cur prev)
    (on_ok (fun _ => held ((stg, s) :: (prev, c) :: l))).
Proof.
  eapply runs_weaken; [apply Rename_runs; [done..|]|].
  - apply framed_cons; [done|simpl; rewrite Hcs, (apart_sym prev stg), Hsp; done|].
    eapply framed_incl; [|exact Hl]. intros x. simpl. tauto.
  - intros [[]|e] d; simpl; [|done]. apply held_incl. intros x. simpl. tauto.
Qed.

Lemma then_in c s :
  runs (held ((stg, s) :: (prev, c) :: l)) (os_Rename stg cur) (on_ok (fun _ => held ((prev, c) :: (cur, s) :: l))).
Proof.
  eapply runs_weaken; [apply move_in; [done|done|by rewrite apart_sym|]|].
  - apply framed_cons; [done|simpl; by rewrite Hsp, Hcp|].
    eapply framed_incl; [|exact Hl]. intros x. simpl. tauto.
  - intros [[]|e] d; simpl; [|done]. apply held_incl. intros x. simpl. tauto.
Qed.

Lemma swapPath_runs c s :
  runs (held ((cur, c) :: (stg, s) :: l)) (swapPath cur stg prev)
    (on_ok (fun _ => held ((prev, c) :: (cur, s) :: l))).
Proof.
  unfold swapPath. eapply runs_ok_bind; [apply move_aside|]. intros [].
  apply second_move; [apply then_in|]. apply keeps_ignore, keeps_any_write.
Qed.

Lemma swapPathOptional_runs T s :
  runs (held ((cur, Tree T) :: (stg, s) :: (prev, absent) :: l)) (swapPathOptional cur stg prev)
    (on_ok (fun _ => held ((prev, Tree T) :: (cur, s) :: l))).
Proof.
  unfold swapPathOptional. eapply runs_bind; [|intros r].
  { eapply runs_weaken; [apply Stat_runs, Hcur|].
    intros [[e|e]|e] d H; [| |done].
    - instantiate (1 := fun r d => match r with
        | Ok e => held ((cur, Tree T) :: (stg, s) :: (prev, absent) :: l) d
        | Fail _ => held ((stg, s) :: (prev, Tree T) :: l) d end). apply H.
    - simpl. destruct H as [[Hs Hc] Hno]. split; [done|].
      inversion_clear Hc as [|? ? H1 H2]. inversion_clear H2 as [|? ? H3 H4]. inversion_clear H4 as [|? ? H5 H6].
      constructor; [done|]. constructor; [|done]. intros r0. unfold claim in H1, H5. simpl in *.
      rewrite H5, <- H1. symmetry. apply absent_tree; [done|apply Hcur|apply Hcur|done]. }
  eapply runs_ok_bind with (R := fun (b : bool) => if b then held ((cur, Tree T) :: (stg, s) :: l)
                                   else held ((stg, s) :: (prev, Tree T) :: l)).
  { destruct r as [e|e]; [apply runs_ret; intros d; apply held_incl; intros x; simpl; tauto|].
    destruct (Is_NotExist e); [by apply runs_ret|by apply runs_throw]. }
  intros b. eapply runs_ok_bind with (R := fun _ : unit => held ((stg, s) :: (prev, Tree T) :: l)).
  { destruct b; simpl; [apply move_aside|by apply runs_ret]. }
  intros _. apply second_move; [apply then_in|]. apply keeps_when, keeps_ignore, keeps_any_write.
Qed.
End Swap.

(** An old part comes back to where nothing stands. *)
Lemma put_back_runs prev cur T l : own prev -> own cur -> apart prev cur = true -> framed [prev; cur] l ->
  runs (held ((prev, Tree T) :: (cur, absent) :: l)) (put_back prev cur) (on_ok (fun _ => held ((cur, Tree T) :: l))).
Proof.
  intros Hp Hc Ha Hl. unfold put_back. eapply runs_bind; [|intros r].
  { eapply runs_weaken; [apply Stat_runs, Hp|].
    intros [[e|e]|e] d H; [| |done].
    - instantiate (1 := fun r d => match r with
        | Ok e => held ((prev, Tree T) :: l) d
        | Fail _ => held ((cur, Tree T) :: l) d end). simpl. destruct H as [H _].
      revert H. apply held_incl. intros x. simpl. tauto.
    - simpl. destruct H as [[Hs Hcl] Hno]. split; [done|].
      inversion_clear Hcl as [|? ? H1 H2]. inversion_clear H2 as [|? ? H3 H4].
      constructor; [|done]. intros r0. unfold claim in H1, H3. simpl in *.
      rewrite H3, <- H1. symmetry. apply absent_tree; [done|apply Hp|apply Hp|done]. }
  destruct r as [e|e]; [by apply move_in|by apply runs_ret].
Qed.
End Held.
