(* ===== verification/UpdateRestore.v ===== *)
(** * UpdateRestore: the parts of the installation, moved aside and back

    The swaps and the rollback of UpdateApply on the parts by name: after the
    swaps every old part stands under its previous name, and after a rollback
    that succeeds it stands where it was. *)

From S2P Require Import Prelude GoStrings Effects GoStd GoText Models Mfa FileSystem UpdateHost UpdateModels.
From S2P Require Import UpdateRuntime UpdateFiles UpdateVerify UpdateApply UpdateTree UpdateConfined.
From S2P Require Import UpdateRollback.
Local Open Scope Z_scope.

(** ** Actions that schedule no faults *)

Lemma keeps_os_read_any {A} what (f : FS -> Res A) : keeps anydb (os_read what f).
Proof. intros w [Hf _]. unfold os_read. rewrite os_call_run by done. by destruct (f _). Qed.
Lemma keeps_out_call_any {machine : Machine} c : keeps anydb (out_call c).
Proof. by intros w Hw. Qed.
Lemma keeps_mod_time_any {machine : Machine} p : keeps anydb (mod_time p).
Proof. by intros w Hw. Qed.
#[export] Hint Resolve keeps_any_write keeps_os_read_any keeps_out_call_any keeps_mod_time_any : keeps.

Section Any.
Context {env : Env} {machine : Machine}.

Lemma keeps_for_each {A} (f : A -> UDB unit) l : (forall a, keeps anydb (f a)) -> keeps anydb (for_each f l).
Proof. intros H. induction l; simpl; keeps_walk. Qed.

Lemma keeps_copyFile src dst mode : keeps anydb (copyFile src dst mode).
Proof. unfold copyFile, os_Stat, os_MkdirAll, os_Create, os_ReadFile, file_Write. keeps_walk. Qed.
#[local] Hint Resolve keeps_copyFile : keeps.
Lemma keeps_copyDir src dst : keeps anydb (copyDir src dst).
Proof.
  unfold copyDir, os_WalkDir. keeps_walk. apply keeps_for_each. intros pe. unfold copy_entry, os_MkdirAll. keeps_walk.
Qed.
#[local] Hint Resolve keeps_copyDir : keeps.
Lemma keeps_archive src dst : keeps anydb (archivePreviousPathBestEffort src dst).
Proof.
  unfold archivePreviousPathBestEffort, movePathWithCrossDeviceFallback, os_Rename, os_Stat, os_RemoveAll, os_Remove.
  keeps_walk.
Qed.
Lemma keeps_trimBackups base keep : keeps anydb (trimBackups base keep).
Proof.
  unfold trimBackups, os_ReadDir. keeps_walk.
  - match goal with |- keeps _ (dated _ ?l) => induction l as [|[n e] l IH]; simpl; keeps_walk; exact IH end.
  - apply keeps_for_each. intros it. unfold os_RemoveAll. keeps_walk.
Qed.

Lemma keeps_put_back p c : keeps anydb (put_back p c).
Proof. unfold put_back, os_Stat, os_Rename. keeps_walk. Qed.
#[local] Hint Resolve keeps_put_back : keeps.
Lemma keeps_rollback cfg run sw : keeps anydb (rollback cfg run sw).
Proof. unfold rollback, os_RemoveAll, os_Remove. keeps_walk. Qed.
End Any.
#[export] Hint Resolve keeps_archive keeps_trimBackups keeps_rollback : keeps.

(** ** The parts by name *)

Lemma apart_app d r s : apart (d ++ r) (d ++ s) = apart r s.
Proof.
  assert (H : forall r s, under (d ++ r) (d ++ s) = under r s).
  { intros x y. unfold under. induction d as [|a d IH]; simpl; [done|]. by rewrite String.eqb_refl. }
  unfold apart. by rewrite !H.
Qed.

Section Parts.
Context {env : Env} {machine : Machine} (cfg : UpdateConfig) {others : Foreign cfg} `{!Layout cfg machine_arch}.
Variable run : string.

Definition at_install (r : Path) : Path := UpdateInstallDir cfg ++ r.

Lemma install_nonempty r : at_install r <> [].
Proof.
  unfold at_install. pose proof lay_apart as H. apply apart_root in H. by destruct (UpdateInstallDir cfg).
Qed.

Lemma own_install r : own cfg (at_install r).
Proof. split; [apply inside_install|apply install_nonempty]. Qed.

Lemma installed_eq name : valid_name name = true -> installed cfg name = at_install [name].
Proof. apply join_valid. Qed.

Definition tok : string := sanitizePathToken run.
Definition aside (name : string) : Path := at_install [".prev-" +:+ name +:+ "-" +:+ tok].
Definition staged (name : string) : Path := at_install [".update-stage-" +:+ tok] ++ [name].

Lemma own_staged name : own cfg (staged name).
Proof. unfold staged, at_install. rewrite <- app_assoc. apply (own_install (_ ++ _)). Qed.

Lemma previous_eq name : free_of slash name -> previous cfg run name = aside name.
Proof.
  intros H. apply join_valid. apply valid_name_intro; [|done].
  repeat (apply free_app; split); [literal_free|done|literal_free|apply sanitize_free].
Qed.

Lemma stageDir_eq : stageDir cfg run = at_install [".update-stage-" +:+ tok].
Proof. apply join_valid. valid_token. Qed.

Lemma staged_eq name : valid_name name = true -> join (stageDir cfg run) name = staged name.
Proof. intros H. by rewrite stageDir_eq, join_valid by done. Qed.

Lemma native_cases : native = "" \/ native = "liblp_i18n.dylib" \/ native = "liblp_i18n.so" \/ native = "lp_i18n.dll".
Proof. unfold native, webI18nNativeLibraryName. repeat destruct (String.eqb machine_os _); auto. Qed.

Lemma native_names : has_native = true ->
  native = "liblp_i18n.dylib" \/ native = "liblp_i18n.so" \/ native = "lp_i18n.dll".
Proof. unfold has_native. destruct native_cases as [->|H]; [done|by intros _]. Qed.

Lemma native_valid : has_native = true -> valid_name native = true.
Proof. by intros [->|[->| ->]]%native_names. Qed.

Lemma native_free : free_of slash native.
Proof. destruct native_cases as [->|[->|[->| ->]]]; literal_free. Qed.
End Parts.

(** Paths of the installation that are not each other's. *)
Ltac name_case :=
  first [reflexivity
        | match goal with H : has_native = true |- _ => destruct (native_names H) as [->|[->| ->]]; reflexivity end].
Ltac apart_names :=
  unfold aside, staged, at_install;
  first [rewrite apart_app; name_case
        | rewrite <- ?app_assoc; rewrite apart_app; name_case].
Ltac off_names := unfold off; cbn [forallb fst]; repeat (apply andb_true_intro; split; [apart_names|]); reflexivity.
Ltac frame_names :=
  repeat (apply List.Forall_cons; [split; [off_names|first [exact (inside_install _ _)|exact (proj1 (own_staged _ _ _))]]|]);
  apply List.Forall_nil.
Ltac incl_names := let x := fresh in intros x; simpl; tauto.

Ltac reorder := let x := fresh in intros x; rewrite ?in_app_iff; simpl; tauto.

(** A step on one part, with the claims on the others framed. *)
Ltac back_step lem l frames :=
  eapply on_ok_weaken; [eapply runs_pre; [|apply (lem l); [frames|..]; try apart_names]; intros ?; apply held_incl; reorder
    |intros [] ?; apply held_incl; reorder].
Ltac six_frames Hrest :=
  apply List.Forall_cons; [split; [off_names|exact (inside_install _ _)]|];
  apply Forall_app; split; [frame_names|eapply Hrest; simpl; tauto].
Ltac back_frames Hrest := apply Forall_app; split; [frame_names|apply Hrest; simpl; tauto].

Section Swaps.
Context {env : Env} {machine : Machine} (cfg : UpdateConfig) {others : Foreign cfg} `{!Layout cfg machine_arch}.
Variable run : string.
Variable T : string -> Path -> option Entry.   (* the old trees, by name *)

Abbreviation cur := (fun name => at_install cfg [name]).
Abbreviation prev := (aside cfg run).
Abbreviation stg := (staged cfg run).

(** A part that may be missing, before and after its swap. *)
Definition part_before (name old : string) (present : bool) : list (Path * Claim) :=
  (cur name, Tree (T name)) :: if present then [(stg name, NotDir); (prev old, absent)] else [].
Definition part_after (name old : string) (present : bool) : list (Path * Claim) :=
  if present then [(prev old, Tree (T name)); (cur name, NotDir)] else [(cur name, Tree (T name))].

Definition native_before (present : bool) : list (Path * Claim) :=
  if has_native then part_before native native present else [].
Definition native_after (present : bool) : list (Path * Claim) :=
  if has_native then part_after native native present else [].

Definition before (nat ms : bool) : list (Path * Claim) :=
  [(cur "despatch", Tree (T "despatch")); (stg "despatch", NotDir)]
  ++ part_before "despatch-pam-reset-helper" "pam-reset-helper" true
  ++ part_before "despatch-update-worker" "update-worker" true
  ++ [(cur "web", Tree (T "web")); (stg "web", Whatever);
      (cur "migrations", Tree (T "migrations")); (stg "migrations", Whatever);
      (cur "deploy", Tree (T "deploy")); (stg "deploy", Whatever); (prev "deploy", absent)]
  ++ native_before nat ++ part_before "despatch-mailsec-service" "mailsec" ms.

Definition after (nat ms : bool) : list (Path * Claim) :=
  part_after "despatch" "despatch" true
  ++ part_after "despatch-pam-reset-helper" "pam-reset-helper" true
  ++ part_after "despatch-update-worker" "update-worker" true
  ++ [(prev "web", Tree (T "web")); (prev "migrations", Tree (T "migrations")); (prev "deploy", Tree (T "deploy"))]
  ++ native_after nat ++ part_after "despatch-mailsec-service" "mailsec" ms.

Lemma or_rollback_runs J sw m Q : runs J m (on_ok (fun _ => Q)) -> runs J (or_rollback cfg run sw m) (on_ok (fun _ => Q)).
Proof.
  intros Hm. unfold or_rollback. eapply runs_attempt_then; [exact Hm|]. intros [[]|e]; [by apply runs_ret|].
  eapply runs_pre; [|apply runs_fails, keeps_ignore, keeps_rollback]. done.
Qed.

(** One part, whatever else is claimed. *)
Lemma swap_part name old c s l : framed cfg [cur name; stg name; prev old] l ->
  apart (cur name) (stg name) = true -> apart (cur name) (prev old) = true -> apart (stg name) (prev old) = true ->
  runs (held cfg ((cur name, c) :: (stg name, s) :: l)) (swapPath (cur name) (stg name) (prev old))
    (on_ok (fun _ => held cfg ((prev old, c) :: (cur name, s) :: l))).
Proof. intros. apply swapPath_runs; try done; first [exact (own_install cfg _)|exact (own_staged cfg run _)]. Qed.

Lemma swap_optional name old s l : framed cfg [cur name; stg name; prev old] l ->
  apart (cur name) (stg name) = true -> apart (cur name) (prev old) = true -> apart (stg name) (prev old) = true ->
  runs (held cfg ((cur name, Tree (T name)) :: (stg name, s) :: (prev old, absent) :: l))
    (swapPathOptional (cur name) (stg name) (prev old))
    (on_ok (fun _ => held cfg ((prev old, Tree (T name)) :: (cur name, s) :: l))).
Proof. intros. apply swapPathOptional_runs; try done; first [exact (own_install cfg _)|exact (own_staged cfg run _)]. Qed.

Lemma part_names :
  currentBin cfg = cur "despatch" /\ currentPam cfg = cur "despatch-pam-reset-helper"
  /\ currentWorker cfg = cur "despatch-update-worker" /\ currentWeb cfg = cur "web"
  /\ currentMig cfg = cur "migrations" /\ currentDeploy cfg = cur "deploy"
  /\ currentMailSec cfg = cur "despatch-mailsec-service"
  /\ prevBin cfg run = prev "despatch" /\ prevPam cfg run = prev "pam-reset-helper"
  /\ prevWorker cfg run = prev "update-worker" /\ prevWeb cfg run = prev "web"
  /\ prevMig cfg run = prev "migrations" /\ prevDeploy cfg run = prev "deploy"
  /\ prevMailSec cfg run = prev "mailsec".
Proof.
  clear T. unfold currentBin, currentPam, currentWorker, currentWeb, currentMig, currentDeploy, currentMailSec,
    prevBin, prevPam, prevWorker, prevWeb, prevMig, prevDeploy, prevMailSec, installDeployDir.
  rewrite !installed_eq, !previous_eq by (reflexivity || literal_free).
  by split_and!.
Qed.

Lemma native_path : has_native = true ->
  currentNativeLibrary cfg = cur native /\ prevNativeLibrary cfg run = prev native
  /\ join (stageDir cfg run) native = stg native.
Proof.
  clear T. intros H. unfold currentNativeLibrary, prevNativeLibrary.
  rewrite installed_eq, previous_eq, staged_eq; [done|by apply native_valid|apply native_free|by apply native_valid].
Qed.

Ltac pieces H := apply H; [frame_names|simpl; tauto].
Ltac swap_next sw l frames :=
  apply or_rollback_runs; eapply runs_weaken;
    [eapply runs_pre; [|apply (sw l); [frames|apart_names..]]; intros ?; apply held_incl; reorder
    |intros [[]|?] ?; [apply held_incl; reorder|done]].

(** The claims on the six parts that every release has, once they are swapped. *)
Definition six_after : list (Path * Claim) :=
  part_after "despatch" "despatch" true
  ++ part_after "despatch-pam-reset-helper" "pam-reset-helper" true
  ++ part_after "despatch-update-worker" "update-worker" true
  ++ [(prev "web", Tree (T "web"))] ++ [(prev "migrations", Tree (T "migrations"))]
  ++ [(prev "deploy", Tree (T "deploy"))].

Lemma after_eq nat ms : after nat ms = six_after ++ native_after nat ++ part_after "despatch-mailsec-service" "mailsec" ms.
Proof. reflexivity. Qed.

(** The native library and the mail security service. *)
Lemma swap_extras nat ms : (nat = true -> has_native = true) ->
  let sw := mkSwapped true true true false false in
  runs (held cfg (six_after ++ native_before nat ++ part_before "despatch-mailsec-service" "mailsec" ms))
    (do! when nat (or_rollback cfg run sw
           (swapPathOptional (currentNativeLibrary cfg) (join (stageDir cfg run) native) (prevNativeLibrary cfg run))) in
     let sw := sw <| nativeLibrarySwapped := nat |> in
     do! when ms (or_rollback cfg run sw
           (swapPathOptional (cur "despatch-mailsec-service") (join (stageDir cfg run) "despatch-mailsec-service")
              (prev "mailsec"))) in
     ret (sw <| mailSecSwapped := ms |>))
    (on_ok (fun sw d => sw = mkSwapped true true true nat ms /\ held cfg (after nat ms) d)).
Proof.
  intros Hnat sw. rewrite after_eq. cbv zeta.
  eapply runs_ok_bind with (R := fun _ => held cfg (six_after ++ native_after nat ++ part_before "despatch-mailsec-service" "mailsec" ms)).
  { destruct nat; [|unfold native_before, native_after; by apply runs_ret].
    specialize (Hnat eq_refl). destruct (native_path Hnat) as (-> & -> & ->). unfold native_before, native_after.
    rewrite Hnat. swap_next (swap_optional native native NotDir)
      (six_after ++ part_before "despatch-mailsec-service" "mailsec" ms)
      ltac:(unfold six_after, part_before; destruct ms; cbn [app]; frame_names). }
  intros _. eapply runs_ok_bind with (R := fun _ => held cfg (six_after ++ native_after nat ++ part_after "despatch-mailsec-service" "mailsec" ms)).
  { destruct ms; [|by apply runs_ret]. rewrite staged_eq by reflexivity.
    swap_next (swap_optional "despatch-mailsec-service" "mailsec" NotDir) (six_after ++ native_after nat)
      ltac:(unfold six_after, native_after, part_after; destruct has_native eqn:?, nat; cbn [app]; frame_names). }
  intros _. apply runs_ret. intros d H. by split.
Qed.

(** After the swaps every old part stands aside. *)
Lemma swap_parts_runs nat ms : (nat = true -> has_native = true) ->
  runs (held cfg (before nat ms)) (swap_parts cfg run nat ms)
    (on_ok (fun sw d => sw = mkSwapped true true true nat ms /\ held cfg (after nat ms) d)).
Proof.
  intros Hnat. unfold swap_parts. cbv zeta.
  destruct part_names as (-> & -> & -> & -> & -> & -> & -> & -> & -> & -> & -> & -> & -> & ->).
  rewrite (staged_eq cfg run "despatch"), (staged_eq cfg run "despatch-pam-reset-helper"),
    (staged_eq cfg run "despatch-update-worker"), (staged_eq cfg run "web"), (staged_eq cfg run "migrations"),
    (staged_eq cfg run "deploy") by reflexivity.
  set (rest := native_before nat ++ part_before "despatch-mailsec-service" "mailsec" ms).
  assert (Hrest : forall name old, In (name, old)
      [("despatch", "despatch"); ("despatch-pam-reset-helper", "pam-reset-helper");
       ("despatch-update-worker", "update-worker"); ("web", "web"); ("migrations", "migrations"); ("deploy", "deploy")] ->
    framed cfg [cur name; stg name; prev old] rest).
  { intros name old Hin. unfold rest, native_before, part_before. simpl in Hin.
    destruct has_native eqn:Hn, nat, ms; cbn [app]; repeat destruct Hin as [[= <- <-]|Hin]; try done; frame_names. }
  (* the claims the later steps carry along *)
  set (web3 := [(cur "web", Tree (T "web")); (stg "web", Whatever)]).
  set (mig3 := [(cur "migrations", Tree (T "migrations")); (stg "migrations", Whatever)]).
  set (dep3 := [(cur "deploy", Tree (T "deploy")); (stg "deploy", Whatever); (prev "deploy", absent)]).
  set (pam3 := part_before "despatch-pam-reset-helper" "pam-reset-helper" true).
  set (wrk3 := part_before "despatch-update-worker" "update-worker" true).
  set (bin4 := part_after "despatch" "despatch" true).
  set (pam4 := part_after "despatch-pam-reset-helper" "pam-reset-helper" true).
  set (wrk4 := part_after "despatch-update-worker" "update-worker" true).
  set (web4 := [(prev "web", Tree (T "web"))]). set (mig4 := [(prev "migrations", Tree (T "migrations"))]).
  set (dep4 := [(prev "deploy", Tree (T "deploy"))]).
  assert (Hpieces : forall name old l, framed cfg [cur name; stg name; prev old] l ->
    In (name, old) [("despatch", "despatch"); ("despatch-pam-reset-helper", "pam-reset-helper");
       ("despatch-update-worker", "update-worker"); ("web", "web"); ("migrations", "migrations"); ("deploy", "deploy")] ->
    framed cfg [cur name; stg name; prev old] (l ++ rest)).
  { intros name old l Hl Hin. apply Forall_app. split; [exact Hl|by apply Hrest]. }
  eapply runs_ok_bind with (R := fun _ => held cfg ((bin4 ++ pam3 ++ wrk3 ++ web3 ++ mig3 ++ dep3) ++ rest)).
  { apply (swap_part "despatch" "despatch" (Tree (T "despatch")) NotDir ((pam3 ++ wrk3 ++ web3 ++ mig3 ++ dep3) ++ rest));
      [|apart_names..]. apply Hpieces; [frame_names|simpl; tauto]. }
  intros _. eapply runs_ok_bind with (R := fun _ => held cfg ((bin4 ++ pam4 ++ wrk3 ++ web3 ++ mig3 ++ dep3) ++ rest)).
  { swap_next (swap_optional "despatch-pam-reset-helper" "pam-reset-helper" NotDir)
      ((bin4 ++ wrk3 ++ web3 ++ mig3 ++ dep3) ++ rest) ltac:(pieces Hpieces). }
  intros _. eapply runs_ok_bind with (R := fun _ => held cfg ((bin4 ++ pam4 ++ wrk4 ++ web3 ++ mig3 ++ dep3) ++ rest)).
  { swap_next (swap_optional "despatch-update-worker" "update-worker" NotDir)
      ((bin4 ++ pam4 ++ web3 ++ mig3 ++ dep3) ++ rest) ltac:(pieces Hpieces). }
  intros _. eapply runs_ok_bind with (R := fun _ => held cfg ((bin4 ++ pam4 ++ wrk4 ++ web4 ++ mig3 ++ dep3) ++ rest)).
  { swap_next (swap_part "web" "web" (Tree (T "web")) Whatever) ((bin4 ++ pam4 ++ wrk4 ++ mig3 ++ dep3) ++ rest) ltac:(pieces Hpieces). }
  intros _. eapply runs_ok_bind with (R := fun _ => held cfg ((bin4 ++ pam4 ++ wrk4 ++ web4 ++ mig4 ++ dep3) ++ rest)).
  { swap_next (swap_part "migrations" "migrations" (Tree (T "migrations")) Whatever)
      ((bin4 ++ pam4 ++ wrk4 ++ web4 ++ dep3) ++ rest) ltac:(pieces Hpieces). }
  intros _. eapply runs_ok_bind with (R := fun _ => held cfg ((bin4 ++ pam4 ++ wrk4 ++ web4 ++ mig4 ++ dep4) ++ rest)).
  { swap_next (swap_optional "deploy" "deploy" Whatever) ((bin4 ++ pam4 ++ wrk4 ++ web4 ++ mig4) ++ rest) ltac:(pieces Hpieces). }
  intros _. set (six := bin4 ++ pam4 ++ wrk4 ++ web4 ++ mig4 ++ dep4).
  exact (swap_extras nat ms Hnat).
Qed.

(** ** The way back *)

Definition part_gone (name old : string) (present : bool) : list (Path * Claim) :=
  if present then [(prev old, Tree (T name)); (cur name, absent)] else [(cur name, Tree (T name))].
Definition part_back (name : string) : list (Path * Claim) := [(cur name, Tree (T name))].
Definition native_gone (present : bool) : list (Path * Claim) :=
  if has_native then part_gone native native present else [].
Definition native_back : list (Path * Claim) := if has_native then part_back native else [].

Definition six_back : list (Path * Claim) :=
  part_back "despatch" ++ part_back "despatch-pam-reset-helper" ++ part_back "despatch-update-worker"
  ++ part_back "web" ++ part_back "migrations" ++ part_back "deploy".

(** Every part as it was. *)
Definition restored : list (Path * Claim) := six_back ++ native_back ++ part_back "despatch-mailsec-service".

Lemma dir_gone name c old l : framed cfg [cur name] ((prev old, c) :: l) ->
  runs (held cfg ((prev old, c) :: l)) (ignore (os_RemoveAll (cur name)))
    (on_ok (fun _ => held cfg ((prev old, c) :: (cur name, absent) :: l))).
Proof.
  intros Hf. eapply runs_weaken; [apply (RemoveAll_runs (machine := machine) cfg); [exact (own_install cfg _)|exact Hf]|].
  intros [a|e] d; simpl; [|done]. apply held_incl. incl_names.
Qed.

Lemma file_gone name c old l : framed cfg [cur name] ((prev old, c) :: l) ->
  runs (held cfg ((prev old, c) :: (cur name, NotDir) :: l)) (ignore (os_Remove (cur name)))
    (on_ok (fun _ => held cfg ((prev old, c) :: (cur name, absent) :: l))).
Proof.
  intros Hf. eapply runs_pre; [|eapply runs_weaken; [apply (Remove_runs (machine := machine) cfg); [exact (own_install cfg _)|exact Hf]|]].
  - intros d. apply held_incl. incl_names.
  - intros [a|e] d; simpl; [|done]. apply held_incl. incl_names.
Qed.

Lemma comes_back name old l : framed cfg [prev old; cur name] l -> apart (prev old) (cur name) = true ->
  runs (held cfg ((prev old, Tree (T name)) :: (cur name, absent) :: l)) (put_back (prev old) (cur name))
    (on_ok (fun _ => held cfg ((cur name, Tree (T name)) :: l))).
Proof. intros. apply (put_back_runs (machine := machine) cfg); try done; exact (own_install cfg _). Qed.



(** The six parts go, with claims on the others alongside. *)
Definition six_gone : list (Path * Claim) :=
  part_gone "despatch" "despatch" true ++ part_gone "despatch-pam-reset-helper" "pam-reset-helper" true
  ++ part_gone "despatch-update-worker" "update-worker" true ++ part_gone "web" "web" true
  ++ part_gone "migrations" "migrations" true ++ part_gone "deploy" "deploy" true.

Definition six_names : list (string * string) :=
  [("despatch", "despatch"); ("despatch-pam-reset-helper", "pam-reset-helper");
   ("despatch-update-worker", "update-worker"); ("web", "web"); ("migrations", "migrations"); ("deploy", "deploy")].

Definition framed_six (rest : list (Path * Claim)) : Prop :=
  forall name old, In (name, old) six_names -> framed cfg [prev old; cur name] rest.

Lemma six_go sw rest (k : UDB unit) Q : framed_six rest -> pamSwapped sw = true -> workerSwapped sw = true ->
  runs (held cfg (six_gone ++ rest)) k (on_ok (fun _ => Q)) ->
  runs (held cfg (six_after ++ rest))
    (do! ignore (os_RemoveAll (cur "web")) in
     do! ignore (os_RemoveAll (cur "migrations")) in
     do! ignore (os_RemoveAll (cur "deploy")) in
     do! ignore (os_Remove (cur "despatch")) in
     do! when (pamSwapped sw) (ignore (os_Remove (cur "despatch-pam-reset-helper"))) in
     do! when (workerSwapped sw) (ignore (os_Remove (cur "despatch-update-worker"))) in k) (on_ok (fun _ => Q)).
Proof.
  intros Hr -> -> Hk.
  assert (Hrest : forall name old, In (name, old) six_names -> framed cfg [cur name] rest).
  { intros name old Hin. eapply framed_incl; [|apply (Hr _ _ Hin)]. intros x. simpl. tauto. }
  set (bin := part_after "despatch" "despatch" true). set (pam := part_after "despatch-pam-reset-helper" "pam-reset-helper" true).
  set (wrk := part_after "despatch-update-worker" "update-worker" true).
  set (web := [(prev "web", Tree (T "web"))]). set (mig := [(prev "migrations", Tree (T "migrations"))]).
  set (dep := [(prev "deploy", Tree (T "deploy"))]).
  set (web' := part_gone "web" "web" true). set (mig' := part_gone "migrations" "migrations" true).
  set (dep' := part_gone "deploy" "deploy" true). set (bin' := part_gone "despatch" "despatch" true).
  set (pam' := part_gone "despatch-pam-reset-helper" "pam-reset-helper" true).
  eapply runs_ok_bind with (R := fun _ => held cfg ((bin ++ pam ++ wrk ++ web' ++ mig ++ dep) ++ rest)).
  { back_step (dir_gone "web" (Tree (T "web")) "web") ((bin ++ pam ++ wrk ++ mig ++ dep) ++ rest) ltac:(six_frames Hrest). }
  intros _. eapply runs_ok_bind with (R := fun _ => held cfg ((bin ++ pam ++ wrk ++ web' ++ mig' ++ dep) ++ rest)).
  { back_step (dir_gone "migrations" (Tree (T "migrations")) "migrations")
      ((bin ++ pam ++ wrk ++ web' ++ dep) ++ rest) ltac:(six_frames Hrest). }
  intros _. eapply runs_ok_bind with (R := fun _ => held cfg ((bin ++ pam ++ wrk ++ web' ++ mig' ++ dep') ++ rest)).
  { back_step (dir_gone "deploy" (Tree (T "deploy")) "deploy")
      ((bin ++ pam ++ wrk ++ web' ++ mig') ++ rest) ltac:(six_frames Hrest). }
  intros _. eapply runs_ok_bind with (R := fun _ => held cfg ((bin' ++ pam ++ wrk ++ web' ++ mig' ++ dep') ++ rest)).
  { back_step (file_gone "despatch" (Tree (T "despatch")) "despatch")
      ((pam ++ wrk ++ web' ++ mig' ++ dep') ++ rest) ltac:(six_frames Hrest). }
  intros _. eapply runs_ok_bind with (R := fun _ => held cfg ((bin' ++ pam' ++ wrk ++ web' ++ mig' ++ dep') ++ rest)).
  { back_step (file_gone "despatch-pam-reset-helper" (Tree (T "despatch-pam-reset-helper")) "pam-reset-helper")
      ((bin' ++ wrk ++ web' ++ mig' ++ dep') ++ rest) ltac:(six_frames Hrest). }
  intros _. eapply runs_ok_bind with (R := fun _ => held cfg (six_gone ++ rest)); [|by intros _].
  back_step (file_gone "despatch-update-worker" (Tree (T "despatch-update-worker")) "update-worker")
    ((bin' ++ pam' ++ web' ++ mig' ++ dep') ++ rest) ltac:(six_frames Hrest).
Qed.
End Swaps.
