(* ===== verification/UpdateUndo.v ===== *)
(** * UpdateUndo: what fails after the swaps is undone: a rollback restores every part *)

From S2P Require Import Prelude GoStrings Effects GoStd GoText MessageIds Models Mfa FileSystem UpdateHost.
From S2P Require Import UpdateModels UpdateRuntime UpdateFiles UpdateVerify UpdateApply UpdateTree.
From S2P Require Import UpdateConfined UpdateRollback UpdateRestore.
Local Open Scope Z_scope.

Section Return.
Context {env : Env} {machine : Machine} (cfg : UpdateConfig) {others : Foreign cfg} `{!Layout cfg machine_arch}.
Variable run : string.
Variable T : string -> Path -> option Entry.

Abbreviation cur := (fun name => at_install cfg [name]).
Abbreviation prev := (aside cfg run).

Lemma six_return sw rest (k : UDB unit) Q : framed_six cfg run rest -> pamSwapped sw = true ->
  workerSwapped sw = true -> deploySwapped sw = true ->
  runs (held cfg (six_back cfg T ++ rest)) k (on_ok (fun _ => Q)) ->
  runs (held cfg (six_gone cfg run T ++ rest))
    (do! put_back (prev "web") (cur "web") in
     do! put_back (prev "migrations") (cur "migrations") in
     do! put_back (prev "despatch") (cur "despatch") in
     do! when (pamSwapped sw) (put_back (prev "pam-reset-helper") (cur "despatch-pam-reset-helper")) in
     do! when (workerSwapped sw) (put_back (prev "update-worker") (cur "despatch-update-worker")) in
     do! when (deploySwapped sw) (put_back (prev "deploy") (cur "deploy")) in k) (on_ok (fun _ => Q)).
Proof.
  intros Hrest -> -> -> Hk.
  set (bin := part_gone cfg run T "despatch" "despatch" true).
  set (pam := part_gone cfg run T "despatch-pam-reset-helper" "pam-reset-helper" true).
  set (wrk := part_gone cfg run T "despatch-update-worker" "update-worker" true).
  set (mig := part_gone cfg run T "migrations" "migrations" true).
  set (dep := part_gone cfg run T "deploy" "deploy" true).
  set (bin' := part_back cfg T "despatch"). set (pam' := part_back cfg T "despatch-pam-reset-helper").
  set (wrk' := part_back cfg T "despatch-update-worker"). set (web' := part_back cfg T "web").
  set (mig' := part_back cfg T "migrations").
  eapply runs_ok_bind with (R := fun _ => held cfg ((bin ++ pam ++ wrk ++ web' ++ mig ++ dep) ++ rest)).
  { back_step (comes_back cfg run T "web" "web") ((bin ++ pam ++ wrk ++ mig ++ dep) ++ rest) ltac:(back_frames Hrest). }
  intros _. eapply runs_ok_bind with (R := fun _ => held cfg ((bin ++ pam ++ wrk ++ web' ++ mig' ++ dep) ++ rest)).
  { back_step (comes_back cfg run T "migrations" "migrations") ((bin ++ pam ++ wrk ++ web' ++ dep) ++ rest)
      ltac:(back_frames Hrest). }
  intros _. eapply runs_ok_bind with (R := fun _ => held cfg ((bin' ++ pam ++ wrk ++ web' ++ mig' ++ dep) ++ rest)).
  { back_step (comes_back cfg run T "despatch" "despatch") ((pam ++ wrk ++ web' ++ mig' ++ dep) ++ rest)
      ltac:(back_frames Hrest). }
  intros _. eapply runs_ok_bind with (R := fun _ => held cfg ((bin' ++ pam' ++ wrk ++ web' ++ mig' ++ dep) ++ rest)).
  { back_step (comes_back cfg run T "despatch-pam-reset-helper" "pam-reset-helper")
      ((bin' ++ wrk ++ web' ++ mig' ++ dep) ++ rest) ltac:(back_frames Hrest). }
  intros _. eapply runs_ok_bind with (R := fun _ => held cfg ((bin' ++ pam' ++ wrk' ++ web' ++ mig' ++ dep) ++ rest)).
  { back_step (comes_back cfg run T "despatch-update-worker" "update-worker")
      ((bin' ++ pam' ++ web' ++ mig' ++ dep) ++ rest) ltac:(back_frames Hrest). }
  intros _. eapply runs_ok_bind with (R := fun _ => held cfg (six_back cfg T ++ rest)); [|by intros _].
  back_step (comes_back cfg run T "deploy" "deploy") ((bin' ++ pam' ++ wrk' ++ web' ++ mig') ++ rest)
    ltac:(back_frames Hrest).
Qed.

(** The claims on the optional parts frame the six, whatever has become of them. *)
Lemma extras_framed a b : (a = native_after cfg run T true \/ a = native_gone cfg run T true \/ a = native_back cfg T) ->
  (b = part_after cfg run T "despatch-mailsec-service" "mailsec" true
   \/ b = part_gone cfg run T "despatch-mailsec-service" "mailsec" true
   \/ b = part_back cfg T "despatch-mailsec-service") -> framed_six cfg run (a ++ b).
Proof.
  intros Ha Hb name old Hin. unfold native_after, native_gone, native_back, part_after, part_gone, part_back in *.
  destruct has_native eqn:Hn; apply Forall_app; split.
  - simpl in Hin. destruct Ha as [->|[->| ->]]; repeat destruct Hin as [[= <- <-]|Hin]; try done; frame_names.
  - simpl in Hin. destruct Hb as [->|[->| ->]]; repeat destruct Hin as [[= <- <-]|Hin]; try done; frame_names.
  - destruct Ha as [->|[->| ->]]; apply List.Forall_nil.
  - simpl in Hin. destruct Hb as [->|[->| ->]]; repeat destruct Hin as [[= <- <-]|Hin]; try done; frame_names.
Qed.

Lemma native_after_false : native_after cfg run T false = native_back cfg T.
Proof. done. Qed.

(** A part that is not there any more, or was never moved. *)
Definition native_mid (nat : bool) : list (Path * Claim) := if nat then native_gone cfg run T true else native_back cfg T.
Definition mailsec_mid (ms : bool) : list (Path * Claim) :=
  if ms then part_gone cfg run T "despatch-mailsec-service" "mailsec" true else part_back cfg T "despatch-mailsec-service".

Lemma extras_go nat ms (k : UDB unit) Q :
  runs (held cfg (six_gone cfg run T ++ native_mid nat ++ mailsec_mid ms)) k (on_ok (fun _ => Q)) ->
  runs (held cfg (six_gone cfg run T ++ native_after cfg run T nat ++ part_after cfg run T "despatch-mailsec-service" "mailsec" ms))
    (do! when (nat && has_native) (ignore (os_Remove (currentNativeLibrary cfg))) in
     do! when ms (ignore (os_Remove (cur "despatch-mailsec-service"))) in k) (on_ok (fun _ => Q)).
Proof.
  intros Hk.
  eapply runs_ok_bind with (R := fun _ => held cfg (six_gone cfg run T ++ native_mid nat
    ++ part_after cfg run T "despatch-mailsec-service" "mailsec" ms)).
  { destruct nat; [|by apply runs_ret]. simpl. unfold native_after, native_mid, native_gone.
    destruct has_native eqn:Hn; [|by apply runs_ret].
    destruct (native_path cfg run Hn) as (-> & _).
    back_step (file_gone cfg run T native (Tree (T native)) native)
      (six_gone cfg run T ++ part_after cfg run T "despatch-mailsec-service" "mailsec" ms)
      ltac:(apply List.Forall_cons; [split; [off_names|exact (inside_install _ _)]|];
            unfold six_gone, part_gone, part_after; destruct ms; cbn [app]; frame_names). }
  intros _. eapply runs_ok_bind with (R := fun _ => held cfg (six_gone cfg run T ++ native_mid nat ++ mailsec_mid ms));
    [|intros _; exact Hk].
  destruct ms; [|by apply runs_ret].
  back_step (file_gone cfg run T "despatch-mailsec-service" (Tree (T "despatch-mailsec-service")) "mailsec")
    (six_gone cfg run T ++ native_mid nat)
    ltac:(apply List.Forall_cons; [split; [off_names|exact (inside_install _ _)]|];
          unfold six_gone, part_gone, native_mid, native_gone, native_back, part_back, part_gone;
          destruct has_native eqn:?, nat; cbn [app]; frame_names).
Qed.

Lemma extras_return nat ms :
  runs (held cfg (six_back cfg T ++ native_mid nat ++ mailsec_mid ms))
    (do! when (nat && has_native) (put_back (prevNativeLibrary cfg run) (currentNativeLibrary cfg)) in
     when ms (put_back (prev "mailsec") (cur "despatch-mailsec-service"))) (on_ok (fun _ => held cfg (restored cfg T))).
Proof.
  eapply runs_ok_bind with (R := fun _ => held cfg (six_back cfg T ++ native_back cfg T ++ mailsec_mid ms)).
  { destruct nat; [|by apply runs_ret]. simpl. unfold native_mid, native_gone, native_back.
    destruct has_native eqn:Hn; [|by apply runs_ret].
    destruct (native_path cfg run Hn) as (-> & -> & _).
    back_step (comes_back cfg run T native native) (six_back cfg T ++ mailsec_mid ms)
      ltac:(unfold six_back, part_back, mailsec_mid, part_gone; destruct ms; cbn [app]; frame_names). }
  intros _. unfold restored. destruct ms; [|by apply runs_ret].
  back_step (comes_back cfg run T "despatch-mailsec-service" "mailsec") (six_back cfg T ++ native_back cfg T)
    ltac:(unfold six_back, part_back, native_back; destruct has_native eqn:?; cbn [app]; frame_names).
Qed.

(** A rollback that reports no error leaves every part as it was. *)
Lemma rollback_runs nat ms :
  runs (held cfg (after cfg run T nat ms)) (rollback cfg run (mkSwapped true true true nat ms))
    (on_ok (fun _ => held cfg (restored cfg T))).
Proof.
  unfold rollback.
  destruct (part_names cfg run) as (-> & -> & -> & -> & -> & -> & -> & -> & -> & -> & -> & -> & -> & ->).
  rewrite (after_eq cfg run T nat ms).
  assert (H1 : framed_six cfg run (native_after cfg run T nat ++ part_after cfg run T "despatch-mailsec-service" "mailsec" ms)).
  { apply extras_framed; [destruct nat|destruct ms]; auto. }
  assert (H2 : framed_six cfg run (native_mid nat ++ mailsec_mid ms)).
  { apply extras_framed; [destruct nat|destruct ms]; unfold native_mid, mailsec_mid; auto. }
  apply (six_go cfg run T (mkSwapped true true true nat ms)); [exact H1|done|done|].
  apply extras_go. apply (six_return (mkSwapped true true true nat ms)); [exact H2|done..|]. apply extras_return.
Qed.
End Return.

(** * UpdateBounds: installing a release writes in four places

    [confined] for applyRelease: below the work and backup directories, in the
    installation and in the directory of unit files, whatever fails. *)

(** ** Walks *)

Lemma insert_entry_in x qe l : In x (insert_entry qe l) -> x = qe \/ In x l.
Proof.
  induction l as [|y l IH]; simpl; [intros [->|[]]; by left|].
  destruct (path_eqb (fst qe) (fst y)); [by right|]. destruct (path_leb (fst qe) (fst y)); simpl.
  - intros [->|H]; [by left|by right].
  - intros [->|H]; [by right; left|]. destruct (IH H) as [->|H']; [by left|by right; right].
Qed.

Lemma sorted_entries_in x l : In x (sorted_entries l) -> In x l.
Proof.
  unfold sorted_entries. assert (H : forall acc, In x (fold_left (fun acc qe => insert_entry qe acc) l acc) ->
    In x l \/ In x acc).
  { induction l as [|y l IH]; simpl; intros acc Hin; [by right|].
    destruct (IH _ Hin) as [H|H]; [by left; right|].
    apply insert_entry_in in H as [->|H]; [by left; left|by right]. }
  intros Hin. by destruct (H [] Hin) as [|[]].
Qed.

Lemma walk_under p fs l qe : walk_tree p fs = Ok l -> In qe l -> under p (fst qe) = true.
Proof.
  unfold walk_tree, walk. destruct (Lstat p fs) as [e|]; [|done]. intros [= <-].
  destruct (lookup_path fs p) as [e'|]; [|done]. destruct (is_dir e').
  - intros H%sorted_entries_in%filter_In. apply H.
  - intros [<-|[]]. apply under_refl.
Qed.

Section Bounds.
Context {env : Env} {machine : Machine} (cfg : UpdateConfig) {others : Foreign cfg} `{!Layout cfg machine_arch}.

Definition apply_areas : list Path :=
  [workDir cfg; backupsDir cfg; UpdateInstallDir cfg; UpdateSystemdUnitDir cfg].

Lemma confined_normalize areas root : in_areas areas root = true -> inside cfg root = true ->
  confined cfg areas (normalizeRuntimeTreePermissions root).
Proof.
  intros Ha Hin. unfold normalizeRuntimeTreePermissions, os_WalkDir. apply confined_read_bind.
  intros l fs Hl. apply confined_for_each. intros pe Hpe. pose proof (walk_under _ _ _ _ Hl Hpe) as Hu.
  assert (Hw : writable_at cfg areas (fst pe)).
  { split; [|by apply inside_guarded; eapply inside_under].
    apply under_iff in Hu as [r ->]. by apply in_areas_app. }
  unfold normalize_entry. destruct (e_kind (snd pe)); [by apply confined_Chmod..|apply confined_ret].
Qed.

Lemma unit_writable areas u : In (UpdateSystemdUnitDir cfg) areas -> In u (unit_files cfg) ->
  in_areas areas (parent u) = true /\ writable_at cfg areas u.
Proof.
  intros Ha Hu.
  assert (Hs : strictly (UpdateSystemdUnitDir cfg) u = true).
  { unfold unit_files, updaterServiceUnitPath, updaterPathUnitPath in Hu. simpl in Hu.
    repeat destruct Hu as [<-|Hu]; [..|done]; by apply join_name. }
  split; [by eapply below_areas, strictly_parent|]. split; [by eapply below_areas, strictly_under|].
  unfold guarded. apply orb_true_iff. right. apply existsb_exists. exists u. split; [done|apply path_eqb_refl].
Qed.

Lemma confined_unit areas src u mode : In (UpdateSystemdUnitDir cfg) areas -> In u (unit_files cfg) ->
  confined cfg areas (copyFile src u mode).
Proof. intros Ha Hu. destruct (unit_writable areas u Ha Hu). by apply confined_copyFile_to. Qed.

Lemma confined_install_units areas healthy units : In (UpdateSystemdUnitDir cfg) areas ->
  (forall u, In u units -> In (snd (fst u)) (unit_files cfg)) -> confined cfg areas (install_units healthy units).
Proof.
  intros Ha. induction units as [|[[src dst] what] units IH]; intros Hu; simpl; [apply confined_ret|].
  apply confined_bind; [by apply confined_attempt, confined_unit, (Hu _ (or_introl eq_refl))|].
  intros [|e]; [apply confined_bind; [apply IH; intros u Hin; apply Hu; by right|confined_walk]|].
  destruct (_ && healthy); [apply IH; intros u Hin; apply Hu; by right|apply confined_ret].
Qed.

Lemma confined_poll_path areas n : forall p d, confined cfg areas (poll_path n p d).
Proof. induction n as [|n IH]; intros p d; simpl; unfold os_Stat; confined_walk; apply IH. Qed.
Lemma confined_waitForPath areas p d : confined cfg areas (waitForPath p d).
Proof. unfold waitForPath. cbv zeta. destruct (String.eqb _ ""); [confined_walk|]. confined_walk. apply confined_poll_path. Qed.

Lemma confined_all_ok areas base l : confined cfg areas (all_ok base l).
Proof. induction l as [|e l IH]; simpl; confined_walk; exact IH. Qed.
Lemma confined_poll_health areas n : forall b d, confined cfg areas (poll_health n b d).
Proof.
  induction n as [|n IH]; intros b d; cbn [poll_health]; (apply confined_bind; [apply confined_all_ok|]);
    confined_walk; apply IH.
Qed.
Lemma confined_health areas a : confined cfg areas (checkServiceHealth a).
Proof. unfold checkServiceHealth. confined_walk. apply confined_poll_health. Qed.

Lemma confined_env areas : In (UpdateInstallDir cfg) areas ->
  confined cfg areas (migrateLegacyPasswordResetEnv (installed cfg ".env")).
Proof.
  intros Ha. assert (Hin : inside cfg (UpdateInstallDir cfg) = true) by (rewrite <- (app_nil_r (UpdateInstallDir cfg)); apply inside_install).
  assert (Hp : strictly (UpdateInstallDir cfg) (installed cfg ".env") = true) by by apply join_name.
  pose proof (strictly_tmp _ _ ".tmp-reset-migration" Hp) as Ht.
  pose proof (below_writable cfg areas _ Ha Hin) as Hw.
  unfold migrateLegacyPasswordResetEnv, os_Stat, os_ReadFile. confined_walk.
  - by apply confined_WriteFile, Hw.
  - apply confined_Rename; [by apply Hw|by apply Hw|]. eapply inside_under; [exact Hin|by apply strictly_under].
  - by apply confined_Remove, Hw.
Qed.
End Bounds.

(** * UpdateUndo: what fails after the swaps is undone

    The part of applyRelease (update/worker.go) that brings the machine up on
    the new parts: it writes nowhere among the old parts that stand aside, so
    that an answer that says "rolled back" is true. *)

Section Undo.
Context {env : Env} {machine : Machine} (cfg : UpdateConfig) {others : Foreign cfg} `{!Layout cfg machine_arch}.
Variable run : string.
Variable T : string -> Path -> option Entry.

Abbreviation cur := (fun name => at_install cfg [name]).

(** Where the machine is brought up: the new trees, the unit files and the
    environment file. *)
Definition up_areas : list Path :=
  [cur "web"; cur "migrations"; cur "deploy"; cur ".env"; cur ".env.tmp-reset-migration"; UpdateSystemdUnitDir cfg].

Lemma apart_units r : apart (UpdateSystemdUnitDir cfg) (UpdateInstallDir cfg ++ r) = true.
Proof.
  rewrite apart_sym. pose proof (off_app [UpdateSystemdUnitDir cfg] (UpdateInstallDir cfg) r) as H.
  unfold off in H. simpl in H. rewrite !andb_true_r in H. rewrite apart_sym. apply H.
  rewrite apart_sym. apply lay_install_units.
Qed.

Ltac up_off := unfold off, up_areas, aside, at_install; cbn [forallb fst];
  repeat (apply andb_true_intro; split; [first [apply apart_units|rewrite apart_app; name_case]|]); reflexivity.
Ltac up_frame := repeat (apply List.Forall_cons; [split; [up_off|exact (inside_install _ _)]|]); apply List.Forall_nil.

Lemma up_framed nat ms : framed cfg up_areas (after cfg run T nat ms).
Proof.
  unfold after, part_after, native_after, part_after. destruct has_native eqn:Hn, nat, ms; cbn [app]; up_frame.
Qed.

Lemma up_keeps {A} nat ms (m : UDB A) : confined cfg up_areas m -> keeps (held cfg (after cfg run T nat ms)) m.
Proof. intros H. eapply confined_keeps; [|exact H|apply up_framed]. done. Qed.

Lemma units_framed : framed cfg [UpdateSystemdUnitDir cfg] (restored cfg T).
Proof. unfold restored, six_back, native_back, part_back. destruct has_native eqn:Hn; cbn [app]; up_frame. Qed.

Lemma restart_keeps : keeps (held cfg (restored cfg T)) (ignore (restart_service cfg)).
Proof.
  eapply confined_keeps; [|apply confined_ignore, (confined_runCmd cfg [UpdateSystemdUnitDir cfg])|apply units_framed].
  done.
Qed.

(** An answer that says the old parts are back is right. *)
Definition honest (o : Outcome) (d : UpdateDB) : Prop := o_rolled_back o = true -> held cfg (restored cfg T) d.

Section Swapped.
Variables (nat ms : bool).
Let sw := mkSwapped true true true nat ms.
Let J := held cfg (after cfg run T nat ms).

Lemma undone_runs version text err aft : keeps (held cfg (restored cfg T)) aft ->
  runs J (undone cfg run sw version text err aft) (on_ok honest).
Proof.
  intros Ha. unfold undone. eapply runs_attempt_then; [apply (rollback_runs cfg run T)|].
  intros [[]|e]; [|by apply runs_ret]. eapply runs_ok_bind with (R := fun _ => held cfg (restored cfg T)).
  - eapply runs_weaken; [by apply runs_keeps|]. by intros [[]|e].
  - intros _. apply runs_ret. by intros d Hd _.
Qed.

Lemma undone_quiet version text err : runs J (undone cfg run sw version text err (ret tt)) (on_ok honest).
Proof. apply undone_runs, keeps_ret. Qed.

Lemma up_step {A} (m : UDB A) (k : Res A -> UDB Outcome) : confined cfg up_areas m ->
  (forall r, runs J (k r) (on_ok honest)) -> runs J (bind (attempt m) k) (on_ok honest).
Proof. intros Hm Hk. eapply runs_attempt_then; [by apply runs_keeps, up_keeps|]. exact Hk. Qed.

Lemma up_bind {A} (m : UDB A) (k : A -> UDB Outcome) : confined cfg up_areas m ->
  (forall a, runs J (k a) (on_ok honest)) -> runs J (bind m k) (on_ok honest).
Proof.
  intros Hm Hk. eapply runs_ok_bind; [|exact Hk]. eapply runs_weaken; [by apply runs_keeps, up_keeps|].
  by intros [a|e] d.
Qed.

Lemma checked_runs {A} what err (m : UDB A) rest : confined cfg up_areas m ->
  (forall a, runs J (rest a) (on_ok honest)) -> runs J (step_or_undo cfg run sw what err m rest) (on_ok honest).
Proof. intros Hm Hk. apply up_step; [done|]. intros [a|e]; [apply Hk|apply undone_quiet]. Qed.

(** *** The stages, last first *)

Lemma archive_runs version : runs J (archive_previous cfg run version) (on_ok honest).
Proof.
  assert (H : runs anydb (archive_previous cfg run version) (on_ok (fun o _ => o_rolled_back o = false))).
  { unfold archive_previous. eapply runs_then; [apply keeps_now|done|]. intros now.
    destruct (civil_date _) as [[y m] d]. cbv zeta. unfold os_MkdirAll.
    eapply runs_then; [apply keeps_attempt, keeps_any_write|done|].
    intros [[]|e]; [|by apply runs_ret].
    repeat (eapply runs_then; [solve [eauto 3 with keeps|apply keeps_when, keeps_archive]|done|intros _]).
    by apply runs_ret. }
  eapply runs_pre; [|eapply on_ok_weaken; [exact H|]]; [done|]. intros o d Ho Hr. congruence.
Qed.

Lemma env_confined : confined cfg up_areas (migrateLegacyPasswordResetEnv (installed cfg ".env")).
Proof.
  rewrite installed_eq by done. unfold migrateLegacyPasswordResetEnv, os_Stat, os_ReadFile.
  assert (Ht : tmp_path (cur ".env") ".tmp-reset-migration" = cur ".env.tmp-reset-migration").
  { unfold at_install. by rewrite tmp_path_snoc. }
  assert (Hw : forall name, In (cur name) up_areas -> writable_at cfg up_areas (cur name)).
  { intros name Hin. by apply own_writable, own_install. }
  assert (He : writable_at cfg up_areas (cur ".env")) by (apply Hw; unfold up_areas; simpl; tauto).
  assert (Hm : writable_at cfg up_areas (cur ".env.tmp-reset-migration")) by (apply Hw; unfold up_areas; simpl; tauto).
  cbv zeta. rewrite Ht. confined_walk.
  - by apply confined_WriteFile.
  - apply confined_Rename; [done|done|apply inside_install].
  - by apply confined_Remove.
Qed.

Lemma restart_and_check_runs version : runs J (restart_and_check cfg run sw version) (on_ok honest).
Proof.
  unfold restart_and_check. apply checked_runs; [apply env_confined|]. intros _.
  apply up_step; [apply confined_runCmd|]. intros [[]|e]; [|apply undone_runs, restart_keeps].
  apply up_step; [apply confined_health|]. intros [[]|e]; [apply archive_runs|apply undone_runs, restart_keeps].
Qed.

Lemma start_mailsec_runs present known version : runs J (start_mailsec cfg run sw present known version) (on_ok honest).
Proof.
  unfold start_mailsec. destruct (_ && _); [apply undone_quiet|].
  destruct (_ || _); [|apply restart_and_check_runs].
  apply checked_runs; [apply confined_runCmd|]. intros _.
  apply up_bind; [destruct (MailSecEnabled cfg); [apply confined_waitForPath|apply confined_ret]|].
  intros [|]; [apply restart_and_check_runs|apply undone_quiet].
Qed.

Lemma activate_units_runs present reload version :
  runs J (activate_units cfg run sw present reload version) (on_ok honest).
Proof.
  unfold activate_units. apply checked_runs; [destruct reload; [apply confined_runCmd|apply confined_ret]|]. intros _.
  apply up_bind; [apply confined_ignore, confined_runCmd|]. intros _.
  assert (Hlast : forall known, runs J (step_or_undo cfg run sw "updater path activation failed" same_error
    (runCmd "systemctl" ["enable"; "--now"; "despatch-updater.path"]) (fun _ =>
      let! after := defaultUpdaterRuntimeProbe cfg in
      if negb (Healthy after) then
        let text := "updater runtime is unhealthy after unit refresh: " +:+ StaleQueueError after in
        undone cfg run sw "" text (ErrText text) (ret tt)
      else start_mailsec cfg run sw present known version)) (on_ok honest)).
  { intros known. apply checked_runs; [apply confined_runCmd|]. intros _.
    apply up_bind; [apply confined_probe|]. intros probe.
    destruct (negb _); [apply undone_quiet|apply start_mailsec_runs]. }
  apply up_step; [apply confined_os_read|]. intros [s|e]; [apply Hlast|].
  destruct (Is_NotExist e); [|apply undone_quiet].
  apply up_bind; [apply confined_systemdUnitKnown|]. intros known. apply Hlast.
Qed.

Lemma units_in u : In u (unit_files cfg) -> forall src mode, confined cfg up_areas (copyFile src u mode).
Proof. intros Hu src mode. apply confined_unit; [unfold up_areas; simpl; tauto|done]. Qed.

Lemma mailsec_unit_runs known present reload version :
  runs J (mailsec_unit cfg run sw known present reload version) (on_ok honest).
Proof.
  unfold mailsec_unit. cbv zeta. apply up_step; [apply confined_os_read|]. intros [s|e].
  - apply up_step; [apply units_in; unfold unit_files; simpl; tauto|].
    intros [[]|e]; [apply activate_units_runs|]. destruct (_ && _); [apply activate_units_runs|apply undone_quiet].
  - destruct (Is_NotExist e); [apply activate_units_runs|apply undone_quiet].
Qed.

Lemma normalize_trees_runs trees rest : (forall tree, In tree trees -> In tree up_areas /\ inside cfg tree = true) ->
  runs J rest (on_ok honest) -> runs J (normalize_trees cfg run sw trees rest) (on_ok honest).
Proof.
  intros Ht Hr. induction trees as [|tree trees IH]; [exact Hr|]. simpl.
  destruct (Ht tree (or_introl eq_refl)) as [Ha Hin]. apply checked_runs.
  - apply confined_normalize; [|done]. apply existsb_exists. exists tree. split; [done|apply under_refl].
  - intros _. apply IH. intros t H. apply Ht. by right.
Qed.

Lemma bring_up_runs known present version : runs J (bring_up cfg run sw known present version) (on_ok honest).
Proof.
  unfold bring_up. cbv zeta. apply normalize_trees_runs.
  { destruct (part_names cfg run) as (_ & _ & _ & -> & -> & -> & _). intros tree H. unfold up_areas.
    simpl in H |- *. repeat destruct H as [<-|H]; [..|done]; (split; [tauto|apply inside_install]). }
  apply checked_runs; [apply confined_os_read|]. intros _.
  apply checked_runs; [apply confined_os_read|]. intros _.
  apply up_bind; [apply confined_probe|]. intros probe.
  apply up_bind.
  - apply confined_install_units; [unfold up_areas; simpl; tauto|].
    intros u H. unfold unit_files. simpl in H |- *. repeat destruct H as [<-|H]; simpl; tauto.
  - intros [reload [[text e]|]]; [apply undone_quiet|apply mailsec_unit_runs].
Qed.
End Swapped.
End Undo.
