(* ===== verification/UpdateStage.v ===== *)
(** * UpdateStage: the payload beside the installation

    What applyRelease (update/worker.go) does before the swaps: the payload is
    copied to the stage directory and old leftovers go.  The files staged are
    files, and nothing else of the installation changes. *)

From S2P Require Import Prelude GoStrings Effects GoStd GoText MessageIds Models Mfa FileSystem UpdateHost.
From S2P Require Import UpdateModels UpdateRuntime UpdateFiles UpdateVerify UpdateApply UpdateTree.
From S2P Require Import UpdateConfined UpdateRollback UpdateRestore UpdateUndo.
Local Open Scope Z_scope.

(** ** Copies, by the path written *)

Section Copies.
Context {env : Env} {machine : Machine} (cfg : UpdateConfig) {others : Foreign cfg}.

(** The directories above a path of an area. *)
Lemma confined_MkdirAll_above areas p r mode : in_areas areas (p ++ r) = true -> confined cfg areas (os_MkdirAll p mode).
Proof.
  intros Hp. apply confined_os_write. intros fs fs' Hs H. unfold MkdirAll in H.
  assert (Hroot : inside cfg [] = true -> exists e, lookup_path fs [] = Some e /\ is_dir e = true)
    by (intros _; by eexists).
  destruct (make_dirs_sound cfg _ _ _ _ _ _ _ Hs Hroot H) as [Hs' Hq].
  split; [done|]. intros q Ho _. apply Hq. simpl. pose proof (off_under _ _ _ Hp Ho) as Ha.
  unfold apart in Ha. apply andb_true_iff in Ha as [_ Ha]. apply negb_true_iff in Ha.
  destruct (under q p) eqn:E; [|done]. rewrite (under_trans q p (p ++ r)) in Ha; [done|done|apply under_app].
Qed.

Lemma confined_MkdirAll_parent areas p mode : in_areas areas p = true -> p <> [] ->
  confined cfg areas (os_MkdirAll (parent p) mode).
Proof. intros Hp Hne. destruct (split_parent p Hne) as [c Hc]. apply confined_MkdirAll_above with [c]. by rewrite <- Hc. Qed.

Lemma confined_copyFile_at areas src dst mode : writable_at cfg areas dst -> dst <> [] ->
  confined cfg areas (copyFile src dst mode).
Proof.
  intros Hd Hne. unfold copyFile, os_Stat, os_ReadFile. apply confined_bind; [apply confined_os_read|]. intros _.
  apply confined_bind; [apply confined_MkdirAll_parent; [apply Hd|done]|]. intros _.
  apply confined_bind; [by apply confined_Create|]. intros _.
  apply confined_bind; [apply confined_os_read|]. intros data. by apply confined_Write.
Qed.

Lemma confined_copyDir_at areas src dst : in_areas areas dst = true -> own cfg dst ->
  confined cfg areas (copyDir src dst).
Proof.
  intros Ha [Hin Hne]. unfold copyDir, os_WalkDir. confined_walk. unfold copy_entry, below_dir.
  assert (Hunder : forall r, in_areas areas (dst ++ r) = true) by (intros r; by apply in_areas_app).
  destruct (is_dir (snd _)); [by apply confined_MkdirAll, Hunder|].
  apply confined_copyFile_at; [split; [by apply Hunder|by apply inside_guarded, inside_app]|by destruct dst].
Qed.

(** What is written is a file. *)
Lemma open_write_file uid gid p data mode excl fs fs' : guarded cfg p = true -> sound cfg fs -> p <> [] ->
  open_write uid gid p data mode excl fs = Ok fs' -> exists e, find_path fs' p = Some e /\ is_dir e = false.
Proof.
  intros Hg Hs Hne. unfold open_write. destruct (excl && _); [done|]. rewrite (guarded_follow cfg) by done.
  destruct (lookup_path fs p) as [e|].
  - destruct (is_dir e); [done|]. intros [= <-]. rewrite find_put, path_eqb_refl. by eexists.
  - destruct (Stat (parent p) fs) as [ep|]; [|done]. destruct (is_dir ep); [|done]. intros [= <-].
    rewrite find_put, path_eqb_refl. by eexists.
Qed.

Lemma Write_runs l p data : own cfg p -> framed cfg [p] l ->
  runs (held cfg l) (file_Write p data) (on_ok (fun _ => held cfg ((p, NotDir) :: l))).
Proof.
  intros [Hin Hne] Hf. assert (Hw : writable_at cfg [p] p) by (apply own_writable; [by left|done]).
  apply runs_os_write. intros d Hd.
  destruct (open_write process_uid process_gid p data 0 false (u_fs d)) as [fs'|] eqn:E; [|done].
  pose proof (open_write_confined cfg [p] _ _ _ _ _ _ _ _ Hw (proj1 Hd) E) as [Hs' Hsame].
  split; [done|]. constructor.
  - intros e He. simpl in *. rewrite below_root in He by done.
    destruct (open_write_file _ _ _ _ _ _ _ _ (inside_guarded _ _ Hin) (proj1 Hd) Hne E) as (e' & He' & Hd').
    congruence.
  - by apply (claims_keep cfg [p] l d).
Qed.

Lemma confined_then {A B} areas l (m : UDB A) (k : A -> UDB B) Q : areas <> [] -> confined cfg areas m ->
  framed cfg areas l -> (forall a, runs (held cfg l) (k a) (on_ok Q)) -> runs (held cfg l) (bind m k) (on_ok Q).
Proof.
  intros Hne Hm Hf Hk. eapply runs_ok_bind; [|exact Hk].
  eapply runs_weaken; [by apply runs_keeps; eapply confined_keeps|]. by intros [a|e] d.
Qed.

(** A copy that succeeds has left a file. *)
Lemma copyFile_runs l src dst mode : own cfg dst -> framed cfg [dst] l ->
  runs (held cfg l) (copyFile src dst mode) (on_ok (fun _ => held cfg ((dst, NotDir) :: l))).
Proof.
  intros Ho Hf. assert (Hw : writable_at cfg [dst] dst) by (apply own_writable; [by left|done]).
  unfold copyFile, os_Stat, os_ReadFile.
  apply (confined_then [dst]); [done|apply confined_os_read|done|]. intros _.
  apply (confined_then [dst]); [done|apply confined_MkdirAll_parent; [apply Hw|apply Ho]|done|]. intros _.
  apply (confined_then [dst]); [done|by apply confined_Create|done|]. intros _.
  apply (confined_then [dst]); [done|apply confined_os_read|done|]. intros data. by apply Write_runs.
Qed.

Definition there (p : Path) (b : bool) : list (Path * Claim) := if b then [(p, NotDir)] else [].

Lemma copy_optional_runs l src dst : own cfg dst -> framed cfg [dst] l ->
  runs (held cfg l) (copy_optional src dst) (on_ok (fun b => held cfg (there dst b ++ l))).
Proof.
  intros Ho Hf. unfold copy_optional, os_Stat.
  apply (confined_then [dst]); [done|apply confined_attempt, confined_os_read|done|]. intros [s|e].
  - eapply runs_ok_bind; [by apply copyFile_runs|]. intros a. by apply runs_ret.
  - destruct (Is_NotExist e); [by apply runs_ret|by apply runs_throw].
Qed.
End Copies.

Section Stage.
Context {env : Env} {machine : Machine} (cfg : UpdateConfig) {others : Foreign cfg} `{!Layout cfg machine_arch}.
Variable run : string.
Variable T : string -> Path -> option Entry.

Abbreviation cur := (fun name => at_install cfg [name]).
Abbreviation prev := (aside cfg run).
Abbreviation stg := (staged cfg run).

Definition staged_files (nat ms : bool) : list (Path * Claim) :=
  there (stg "despatch-mailsec-service") ms ++ there (stg native) nat
  ++ [(stg "despatch-update-worker", NotDir); (stg "despatch-pam-reset-helper", NotDir); (stg "despatch", NotDir)].

Ltac old_frames := unfold restored, six_back, native_back, part_back, there;
  destruct has_native eqn:?; try discriminate; cbn [app]; frame_names.

(** The payload is staged, and the installation stands as before. *)
Lemma copy_payload_runs from :
  runs (held cfg (restored cfg T)) (copy_payload from (stageDir cfg run))
    (on_ok (fun present d => (fst present = true -> has_native = true)
       /\ held cfg (staged_files (fst present) (snd present) ++ restored cfg T) d)).
Proof.
  unfold copy_payload.
  rewrite (staged_eq cfg run "despatch"), (staged_eq cfg run "despatch-pam-reset-helper"),
    (staged_eq cfg run "despatch-update-worker"), (staged_eq cfg run "web"), (staged_eq cfg run "migrations"),
    (staged_eq cfg run "deploy"), (staged_eq cfg run "despatch-mailsec-service") by reflexivity.
  eapply runs_ok_bind; [apply (copyFile_runs cfg); [exact (own_staged cfg run _)|old_frames]|]. intros ?.
  eapply runs_ok_bind; [apply (copyFile_runs cfg); [exact (own_staged cfg run _)|old_frames]|]. intros ?.
  eapply runs_ok_bind; [apply (copyFile_runs cfg); [exact (own_staged cfg run _)|old_frames]|]. intros ?.
  assert (Hdir : forall name, in_areas [stg name] (stg name) = true).
  { intros name. simpl. by rewrite under_refl. }
  apply (confined_then cfg [stg "web"]); [done|by apply confined_copyDir_at; [|exact (own_staged cfg run _)]|old_frames|]. intros _.
  apply (confined_then cfg [stg "migrations"]); [done|by apply confined_copyDir_at; [|exact (own_staged cfg run _)]|old_frames|].
  intros _.
  apply (confined_then cfg [stg "deploy"]); [done|by apply confined_copyDir_at; [|exact (own_staged cfg run _)]|old_frames|].
  intros _. cbv zeta. set (files := (stg "despatch-update-worker", NotDir) :: _).
  eapply runs_ok_bind with (R := fun nat d => (nat = true -> has_native = true) /\ held cfg (there (stg native) nat ++ files) d).
  - fold native. destruct (String.eqb native "") eqn:E; [by apply runs_ret|].
    assert (Hn : has_native = true) by (unfold has_native; by rewrite E).
    rewrite staged_eq by by apply native_valid.
    eapply on_ok_weaken; [apply (copy_optional_runs cfg); [exact (own_staged cfg run _)|unfold files; old_frames]|]. done.
  - intros nat. eapply runs_ok_bind with (R := fun ms d => (nat = true -> has_native = true)
      /\ held cfg (there (stg "despatch-mailsec-service") ms ++ there (stg native) nat ++ files) d).
    + intros w [Hfl [Hnat Hd]].
      assert (Hr := copy_optional_runs cfg (there (stg native) nat ++ files) (join from "despatch-mailsec-service")
        (stg "despatch-mailsec-service") (own_staged cfg run _)).
      assert (Hf : framed cfg [stg "despatch-mailsec-service"] (there (stg native) nat ++ files)).
      { unfold files. destruct nat; [specialize (Hnat eq_refl)|]; old_frames. }
      destruct (Hr Hf w (conj Hfl Hd)) as [Hfl' HQ]. split; [done|].
      destruct (fst _) as [ms|e]; [|done]. by split.
    + intros ms. apply runs_ret. intros d [Hnat Hd]. split; [done|].
      unfold staged_files. rewrite <- !app_assoc. exact Hd.
Qed.

(** *** Leftovers of an earlier run of the same name *)

Definition gone_list : list (Path * Claim) :=
  (if has_native then [(prev native, absent)] else [])
  ++ [(prev "mailsec", absent); (prev "deploy", absent); (prev "migrations", absent); (prev "web", absent);
      (prev "update-worker", absent); (prev "pam-reset-helper", absent); (prev "despatch", absent)].

Ltac left_frames := unfold staged_files, restored, six_back, native_back, part_back, there; cbn [app]; frame_names.

Lemma cleared_runs nat ms : (nat = true -> has_native = true) ->
  runs (held cfg (staged_files nat ms ++ restored cfg T))
    (for_each (fun p => ignore (os_RemoveAll p)) (previousPaths cfg run))
    (on_ok (fun _ => held cfg (gone_list ++ staged_files nat ms ++ restored cfg T))).
Proof.
  intros Hnat. unfold previousPaths.
  destruct (part_names cfg run) as (_ & _ & _ & _ & _ & _ & _ & -> & -> & -> & -> & -> & -> & ->).
  assert (Hstep : forall l p (k : UDB unit) Q, own cfg p -> framed cfg [p] l ->
    runs (held cfg ((p, absent) :: l)) k (on_ok (fun _ => Q)) ->
    runs (held cfg l) (bind (ignore (os_RemoveAll p)) (fun _ => k)) (on_ok (fun _ => Q))).
  { intros l p k Q Hp Hl Hk. eapply runs_ok_bind; [|intros ?; exact Hk].
    eapply runs_weaken; [by apply (RemoveAll_runs (machine := machine) cfg)|]. by intros [[]|e]. }
  unfold gone_list. destruct has_native eqn:Hn.
  - destruct (native_path cfg run Hn) as (_ & -> & _). cbn [for_each app].
    destruct nat, ms; (do 8 (apply Hstep; [exact (own_install cfg _)|unfold staged_files, restored, six_back, native_back,
      part_back, there; rewrite ?Hn; cbn [app]; frame_names|])); apply runs_ret; intros d; apply held_incl; reorder.
  - destruct nat; [by specialize (Hnat eq_refl)|]. cbn [for_each app].
    destruct ms; (do 7 (apply Hstep; [exact (own_install cfg _)|unfold staged_files, restored, six_back, native_back,
      part_back, there; rewrite ?Hn; cbn [app]; frame_names|])); apply runs_ret; intros d; apply held_incl; reorder.
Qed.

Lemma held_whatever p l d : held cfg l d -> held cfg ((p, Whatever) :: l) d.
Proof. intros [Hs Hl]. split; [done|]. by constructor. Qed.

(** All that the swaps need. *)
Lemma ready_to_swap nat ms d : (nat = true -> has_native = true) ->
  held cfg (gone_list ++ staged_files nat ms ++ restored cfg T) d -> held cfg (before cfg run T nat ms) d.
Proof.
  intros Hnat H.
  apply (held_whatever (stg "web")), (held_whatever (stg "migrations")), (held_whatever (stg "deploy")) in H.
  revert H. apply held_incl. intros x.
  unfold before, part_before, native_before, gone_list, staged_files, restored, six_back, native_back, part_back, there.
  unfold part_before. destruct has_native eqn:Hn, nat, ms; try (by specialize (Hnat eq_refl));
    rewrite ?in_app_iff; simpl; rewrite ?in_app_iff; simpl; tauto.
Qed.
End Stage.
