(* ===== verification/UpdateSafety.v ===== *)
(** * UpdateSafety: what an update promises about the installation

    The theorems on applyRelease (update/worker.go): an answer that says
    "rolled back" leaves every part of the installation as it was, and
    preparing a release writes below the work directory only. *)

From S2P Require Import Prelude GoStrings Effects GoStd GoText Json MessageIds Models Mfa GoFmt FileSystem.
From S2P Require Import GoTime UpdateHost UpdateModels UpdateRuntime UpdateFiles UpdateVerify UpdateApply.
From S2P Require Import UpdateTree UpdateConfined UpdateRollback UpdateRestore UpdateUndo UpdateStage.
Local Open Scope Z_scope.

Section Safety.
Context {env : Env} {machine : Machine} (cfg : UpdateConfig) {others : Foreign cfg} `{!Layout cfg machine_arch}.

Section Run.
Variable run : string.
Variable T : string -> Path -> option Entry.

Abbreviation before_swaps nat ms := (held cfg (staged_files cfg run nat ms ++ restored cfg T)).

Lemma read_keeps {A} l (m : UDB A) : (forall areas, confined cfg areas m) ->
  framed cfg [UpdateSystemdUnitDir cfg] l -> keeps (held cfg l) m.
Proof. intros Hm Hl. eapply confined_keeps; [|apply Hm|exact Hl]. done. Qed.

Lemma units_off r : off [UpdateSystemdUnitDir cfg] (UpdateInstallDir cfg ++ r) = true.
Proof. unfold off. simpl. by rewrite apart_units. Qed.

Lemma all_framed l : Forall (fun qc => exists r, fst qc = UpdateInstallDir cfg ++ r) l ->
  framed cfg [UpdateSystemdUnitDir cfg] l.
Proof.
  unfold framed. rewrite !List.Forall_forall. intros H qc Hq. destruct (H qc Hq) as [r ->].
  split; [apply units_off|apply inside_install].
Qed.

Lemma before_swaps_framed nat ms : framed cfg [UpdateSystemdUnitDir cfg] (staged_files cfg run nat ms ++ restored cfg T).
Proof.
  apply all_framed. unfold staged_files, restored, six_back, native_back, part_back, there, staged, at_install.
  destruct nat, ms, has_native; cbn [app]; repeat (apply List.Forall_cons; [cbn [fst];
    rewrite <- ?app_assoc; by eexists|]); apply List.Forall_nil.
Qed.

Lemma install_payload_runs payloadRoot version :
  runs (held cfg (restored cfg T)) (install_payload cfg run payloadRoot version) (on_ok (honest cfg T)).
Proof.
  unfold install_payload. eapply runs_ok_bind; [apply (copy_payload_runs cfg run T)|].
  intros [nat ms]. simpl fst. simpl snd. intros w [Hfl [Hnat Hd]]. revert w Hfl Hd.
  assert (Hall : runs (before_swaps nat ms)
    (let! s := attempt (os_Stat (currentMailSec cfg)) in
     let! currentMailSecPresent := match s with
                                   | Ok _ => ret true
                                   | Fail e => if Is_NotExist e then ret false else throw e
                                   end in
     let! mailSecUnitKnown := systemdUnitKnown "despatch-mailsec.service" in
     if MailSecEnabled cfg && negb ms && negb currentMailSecPresent then throw ErrMailSecMissing
     else
       do! for_each (fun p => ignore (os_RemoveAll p)) (previousPaths cfg run) in
       let! sw := swap_parts cfg run nat ms in
       bring_up cfg run sw mailSecUnitKnown ms version) (on_ok (honest cfg T)));
    [|intros w Hfl Hd; by apply Hall].
  assert (Hread : forall {A} (m : UDB A) (k : A -> UDB Outcome), (forall areas, confined cfg areas m) ->
    (forall a, runs (before_swaps nat ms) (k a) (on_ok (honest cfg T))) ->
    runs (before_swaps nat ms) (bind m k) (on_ok (honest cfg T))).
  { intros A m k Hm Hk. eapply runs_ok_bind; [|exact Hk].
    eapply runs_weaken; [apply runs_keeps, read_keeps; [exact Hm|apply before_swaps_framed]|]. by intros [a|e] d. }
  apply Hread; [intros areas; apply confined_attempt, confined_os_read|]. intros s.
  apply Hread; [intros areas; destruct s as [s|e]; [apply confined_ret|destruct (Is_NotExist e); confined_walk]|].
  intros present. apply Hread; [intros areas; apply confined_systemdUnitKnown|]. intros known.
  destruct (_ && _); [by apply runs_throw|].
  eapply runs_ok_bind; [by apply (cleared_runs cfg run T)|]. intros ?.
  eapply runs_ok_bind with (R := fun sw d => sw = mkSwapped true true true nat ms /\ held cfg (after cfg run T nat ms) d).
  - eapply runs_pre; [|by apply (swap_parts_runs cfg run T)]. intros d. by apply ready_to_swap.
  - intros sw w [Hfl [-> Hd]]. by apply (bring_up_runs cfg run T nat ms).
Qed.
End Run.

Lemma off_install a r : apart a (UpdateInstallDir cfg) = true -> apart a (UpdateInstallDir cfg ++ r) = true.
Proof.
  intros H. pose proof (off_app [a] (UpdateInstallDir cfg) r) as Ho. unfold off in Ho. simpl in Ho.
  rewrite !andb_true_r in Ho. by apply Ho.
Qed.

Lemma restored_framed T areas : (forall name, In name ["despatch"; "despatch-pam-reset-helper";
    "despatch-update-worker"; "web"; "migrations"; "deploy"; "despatch-mailsec-service"; "liblp_i18n.dylib";
    "liblp_i18n.so"; "lp_i18n.dll"] -> off areas (UpdateInstallDir cfg ++ [name]) = true) ->
  framed cfg areas (restored cfg T).
Proof.
  intros H. unfold restored, six_back, native_back, part_back, at_install.
  destruct has_native eqn:Hn; [destruct (native_names Hn) as [->|[->| ->]]|]; cbn [app];
    repeat (apply List.Forall_cons; [split; [apply H; simpl; tauto|apply inside_install]|]); apply List.Forall_nil.
Qed.

Lemma work_apart : apart (workDir cfg) (UpdateInstallDir cfg) = true.
Proof.
  rewrite workDir_eq, apart_sym. pose proof (off_app [UpdateInstallDir cfg] (UpdateBaseDir cfg) ["work"]) as Ho.
  unfold off in Ho. simpl in Ho. rewrite !andb_true_r in Ho. apply Ho, lay_apart.
Qed.

Lemma work_framed T : framed cfg [workDir cfg] (restored cfg T).
Proof. apply restored_framed. intros name _. unfold off. simpl. by rewrite off_install by apply work_apart. Qed.

Lemma stage_framed T run : framed cfg [stageDir cfg run] (restored cfg T).
Proof.
  apply restored_framed. rewrite stageDir_eq. intros name H. unfold off, at_install. cbn [forallb]. rewrite apart_app.
  simpl in H. repeat destruct H as [<-|H]; [..|done]; reflexivity.
Qed.

Lemma stage_writable run : writable_at cfg [stageDir cfg run] (stageDir cfg run).
Proof. rewrite stageDir_eq. apply own_writable; [by left|exact (own_install cfg _)]. Qed.

Lemma on_ok_frame {A} areas l (m : UDB A) : areas <> [] -> confined cfg areas m -> framed cfg areas l ->
  runs (held cfg l) m (on_ok (fun _ => held cfg l)).
Proof.
  intros Hne Hm Hl. eapply runs_weaken; [apply runs_keeps; eapply confined_keeps; [exact Hne|exact Hm|exact Hl]|]. by intros [a|e] d.
Qed.

Lemma quiet_runs {A} J (m : UDB A) : keeps anydb m -> runs J m (on_ok (fun _ _ => True)).
Proof. intros Hm. eapply runs_pre; [|eapply runs_weaken; [by apply runs_keeps|]]; [done|]. by intros [a|e]. Qed.

Lemma applyRelease_runs T req :
  runs (held cfg (restored cfg T)) (applyRelease cfg req) (on_ok (honest cfg T)).
Proof.
  unfold applyRelease, as_outcome. eapply runs_bind.
  2: { intros r. instantiate (1 := fun r => on_ok (honest cfg T) r). destruct r as [o|e]; by apply runs_ret. }
  eapply runs_weaken; [apply runs_attempt|intros [r|e] d H; [exact H|done]]. cbv zeta.
  destruct (_ && _); [by apply runs_throw|].
  eapply runs_ok_bind; [apply (on_ok_frame [workDir cfg]); [done|exact (confined_prepare cfg [workDir cfg] (or_introl eq_refl) _)|apply work_framed]|].
  intros [release payloadRoot].
  eapply runs_ok_bind with (R := fun _ => held cfg (restored cfg T)).
  { destruct (String.eqb _ ""); [|by apply runs_ret].
    eapply runs_ok_bind with (R := fun _ => held cfg (restored cfg T)); [|intros now; by apply runs_ret].
    eapply runs_weaken; [apply runs_keeps, keeps_now|]. by intros [a|e] d. }
  intros run. pose proof (stage_writable run) as Hw. pose proof (stage_framed T run) as Hf.
  eapply runs_ok_bind; [apply (on_ok_frame [stageDir cfg run]); [done|by apply confined_RemoveAll|done]|]. intros ?.
  eapply runs_ok_bind; [apply (on_ok_frame [stageDir cfg run]); [done|apply confined_MkdirAll, Hw|done]|]. intros ?.
  unfold deferred. eapply runs_attempt_then; [apply (install_payload_runs run T)|]. intros [o|e].
  - eapply runs_ok_bind with (R := fun _ => honest cfg T o); [|intros ?; by apply runs_of_res].
    destruct (o_rolled_back o) eqn:Eo.
    + eapply runs_pre; [|eapply on_ok_weaken; [apply (on_ok_frame [stageDir cfg run]);
        [done|by apply confined_ignore, confined_RemoveAll|exact Hf]|]]; [intros d Hd; by apply Hd|]. intros [] d Hd _. exact Hd.
    + eapply on_ok_weaken; [apply quiet_runs, keeps_ignore, keeps_any_write|]. intros ? d _ H. congruence.
  - eapply runs_ok_bind; [apply quiet_runs, keeps_ignore, keeps_any_write|]. intros ?. by apply runs_of_res.
Qed.

(** The parts of an installation that a release replaces. *)
Definition release_parts : list string :=
  ["despatch"; "despatch-pam-reset-helper"; "despatch-update-worker"; "web"; "migrations"; "deploy";
   "despatch-mailsec-service"] ++ (if has_native then [native] else []).

Lemma restored_now fs : sound cfg fs -> forall d, u_fs d = fs ->
  held cfg (restored cfg (fun name => below fs (at_install cfg [name]))) d.
Proof.
  intros Hs d <-. split; [done|]. unfold restored, six_back, native_back, part_back.
  destruct has_native; cbn [app]; repeat constructor.
Qed.

Lemma restored_parts T d name : In name release_parts -> held cfg (restored cfg T) d ->
  forall r, below (u_fs d) (installed cfg name) r = T name r.
Proof.
  intros Hin [_ Hl]. rewrite installed_eq.
  - unfold restored, six_back, native_back, part_back in Hl. unfold release_parts in Hin.
    assert (H : claim (u_fs d) (at_install cfg [name], Tree (T name))); [|exact H].
    rewrite List.Forall_forall in Hl. apply Hl. rewrite !in_app_iff in *. simpl in *.
    destruct has_native; simpl in *; repeat destruct Hin as [Hin|Hin]; subst; tauto.
  - unfold release_parts in Hin. apply in_app_iff in Hin as [Hin|Hin].
    + simpl in Hin. repeat destruct Hin as [<-|Hin]; done.
    + destruct has_native eqn:Hn; [|done]. destruct Hin as [<-|[]]. by apply native_valid.
Qed.

(** C11. An update that is rolled back leaves every part of the installation, file
    by file, as it was before the update began, when no system call fails for
    reasons of its own. *)
Theorem rolled_back_restores req w o w' name r :
  w_faults w = [] -> sound cfg (u_fs (w_db w)) ->
  applyRelease cfg req w = (Ok o, w') -> o_rolled_back o = true -> In name release_parts ->
  below (u_fs (w_db w')) (installed cfg name) r = below (u_fs (w_db w)) (installed cfg name) r.
Proof.
  intros Hf Hs Hrun Ho Hin.
  set (T := fun name => below (u_fs (w_db w)) (at_install cfg [name])).
  pose proof (restored_now _ Hs (w_db w) eq_refl) as Hheld.
  destruct (applyRelease_runs T req w (conj Hf Hheld)) as [_ HQ]. rewrite Hrun in HQ. simpl in HQ.
  rewrite (restored_parts T _ name Hin (HQ Ho)), (restored_parts T _ name Hin Hheld). done.
Qed.

(** C14. Whatever the archive of a release holds, whatever the servers answer and
    whatever system calls fail, preparing a release changes no entry outside
    the work directory, but for what other programs write. *)
Theorem prepare_confined target w q :
  sound cfg (u_fs (w_db w)) -> apart (workDir cfg) q = true -> foreign cfg q = false ->
  find_path (u_fs (w_db (snd (prepareReleasePayload cfg target w)))) q = find_path (u_fs (w_db w)) q.
Proof.
  intros Hs Ha Hq. destruct (confined_prepare cfg [workDir cfg] (or_introl eq_refl) target w Hs) as (_ & H & _).
  apply H; [|done]. unfold off. simpl. by rewrite Ha.
Qed.
End Safety.

(** * UpdateAreas: where an update may write

    [confined] for the whole of applyRelease (update/worker.go): below the work
    and backup directories, in the installation and in the directory of unit
    files, whatever fails. *)

Lemma insert_newest_in x it l : In x (insert_newest it l) -> x = it \/ In x l.
Proof.
  induction l as [|y l IH]; simpl; [intros [->|[]]; by left|]. destruct (snd y <? snd it); simpl.
  - intros [->|H]; [by left|by right].
  - intros [->|H]; [by right; left|]. destruct (IH H) as [->|H']; [by left|by right; right].
Qed.

Lemma newest_in x l : forall acc, In x (fold_left (fun acc it => insert_newest it acc) l acc) -> In x l \/ In x acc.
Proof.
  induction l as [|y l IH]; simpl; intros acc H; [by right|]. destruct (IH _ H) as [H'|H']; [by left; right|].
  apply insert_newest_in in H' as [->|H']; [by left; left|by right].
Qed.

Lemma drop_in {A} (x : A) n l : In x (drop n l) -> In x l.
Proof. rewrite <- (take_drop n l) at 2. rewrite in_app_iff. tauto. Qed.

(** ** The time in the name of a backup *)

Lemma stamp_free t : writable t ->
  let '(y, m, d) := civil_date (t / Second / 86400) in
  let s := (t / Second) mod 86400 in
  free_of slash (of_bytes (two_digits (y / 100) ++ two_digits (y mod 100) ++ two_digits m ++ two_digits d ++ [84]
                         ++ two_digits (s / 3600) ++ two_digits (s / 60 mod 60) ++ two_digits (s mod 60))).
Proof.
  intros Ht. unfold writable in Ht. set (days := t / Second / 86400). set (s := (t / Second) mod 86400).
  assert (Hdays : -719528 <= days < 2932897)
    by (unfold days, Second in *; Z.to_euclidean_division_equations; lia).
  assert (Hs : 0 <= s < 86400) by (apply Z.mod_pos_bound; lia).
  pose proof (civil_date_back days) as Hc. destruct (civil_date days) as [[y m] d].
  destruct Hc as (Hm & Hd & _ & Hy). specialize (Hy Hdays).
  assert (d <= 31) by (etrans; [apply Hd|]; unfold days_in; repeat case_match; lia).
  apply free_bytes. rewrite bytes_of_bytes.
  - rewrite !in_app_iff. unfold two_digits. simpl. Z.to_euclidean_division_equations. lia.
  - unfold two_digits. simpl. repeat apply Forall_cons_2; try apply Forall_nil_2; Z.to_euclidean_division_equations; lia.
Qed.

Lemma dash_name s t : existsb (String.eqb (s +:+ "-" +:+ t)) [""; "."; ".."] = false.
Proof.
  assert (H : forall l, ~ In 45 (bytes l) -> String.eqb (s +:+ "-" +:+ t) l = false).
  { intros l Hl. apply String.eqb_neq. intros <-. apply Hl. rewrite !bytes_app, !in_app_iff. simpl. tauto. }
  simpl. rewrite !H by (vm_compute; intuition discriminate). done.
Qed.

Section Areas.
Context {env : Env} {machine : Machine} (cfg : UpdateConfig) {others : Foreign cfg} `{!Layout cfg machine_arch}.
Context (areas : list Path) (Hinst : In (UpdateInstallDir cfg) areas) (Hunits : In (UpdateSystemdUnitDir cfg) areas)
  (Hwork : In (workDir cfg) areas) (Hback : In (backupsDir cfg) areas).

(** A path of the installation. *)
Definition ours (p : Path) : Prop := writable_at cfg areas p /\ inside cfg p = true /\ p <> [].

Lemma ours_below a p : In a areas -> inside cfg a = true -> strictly a p = true -> ours p.
Proof.
  intros Ha Hin Hp. pose proof (strictly_under _ _ Hp) as Hu. split_and!.
  - eapply below_writable; [exact Ha|exact Hin|exact Hp].
  - by eapply inside_under.
  - intros ->. unfold strictly in Hp. by rewrite andb_false_r in Hp.
Qed.

Lemma install_inside : inside cfg (UpdateInstallDir cfg) = true.
Proof. rewrite <- (app_nil_r (UpdateInstallDir cfg)). apply inside_install. Qed.

Lemma ours_installed name : valid_name name = true -> ours (installed cfg name).
Proof. intros H. eapply ours_below; [exact Hinst|exact install_inside|by apply join_name]. Qed.

Section Run.
Variable run : string.

Lemma ours_previous name : free_of slash name -> ours (previous cfg run name).
Proof.
  intros H. apply ours_installed. apply valid_name_intro; [|done].
  repeat (apply free_app; split); [literal_free|done|literal_free|apply sanitize_free].
Qed.

Lemma stage_strict : strictly (UpdateInstallDir cfg) (stageDir cfg run) = true.
Proof. apply join_name. valid_token. Qed.

Lemma ours_staged name : valid_name name = true -> ours (join (stageDir cfg run) name).
Proof.
  intros H. eapply ours_below; [exact Hinst|exact install_inside|]. rewrite join_valid by done.
  apply strictly_app, stage_strict.
Qed.

Lemma confined_rename_ours p q : ours p -> ours q -> confined cfg areas (os_Rename p q).
Proof. intros (? & ? & _) (? & _). by apply confined_Rename. Qed.

Lemma confined_put_back p q : ours p -> ours q -> confined cfg areas (put_back p q).
Proof. intros Hp Hq. unfold put_back, os_Stat. confined_walk. by apply confined_rename_ours. Qed.

Ltac ours_now :=
  first [apply ours_installed; reflexivity | apply ours_previous; literal_free | apply ours_staged; reflexivity].

Lemma native_ours : has_native = true ->
  ours (currentNativeLibrary cfg) /\ ours (prevNativeLibrary cfg run) /\ ours (join (stageDir cfg run) native).
Proof.
  intros H. split_and!; [by apply ours_installed, native_valid|apply ours_previous, native_free|by apply ours_staged, native_valid].
Qed.

Lemma confined_rollback sw : confined cfg areas (rollback cfg run sw).
Proof.
  unfold rollback.
  do 3 (apply confined_bind; [apply confined_ignore, confined_RemoveAll; ours_now|intros _]).
  apply confined_bind; [apply confined_ignore, confined_Remove; ours_now|intros _].
  do 2 (apply confined_bind; [apply confined_when; intros _; apply confined_ignore, confined_Remove; ours_now|intros _]).
  apply confined_bind; [apply confined_when; intros H; apply andb_true_iff in H as [_ H];
    apply confined_ignore, confined_Remove, (native_ours H)|intros _].
  apply confined_bind; [apply confined_when; intros _; apply confined_ignore, confined_Remove; ours_now|intros _].
  do 3 (apply confined_bind; [apply confined_put_back; ours_now|intros _]).
  do 3 (apply confined_bind; [apply confined_when; intros _; apply confined_put_back; ours_now|intros _]).
  apply confined_bind; [apply confined_when; intros H; apply andb_true_iff in H as [_ H];
    apply confined_put_back; apply (native_ours H)|intros _].
  apply confined_when; intros _; apply confined_put_back; ours_now.
Qed.

Lemma confined_swapPath c s p : ours c -> ours s -> ours p -> confined cfg areas (swapPath c s p).
Proof. intros. unfold swapPath. confined_walk; by apply confined_rename_ours. Qed.
Lemma confined_swapPathOptional c s p : ours c -> ours s -> ours p -> confined cfg areas (swapPathOptional c s p).
Proof. intros. unfold swapPathOptional, os_Stat. confined_walk; by apply confined_rename_ours. Qed.

Lemma confined_or_rollback sw m : confined cfg areas m -> confined cfg areas (or_rollback cfg run sw m).
Proof.
  intros Hm. unfold or_rollback. apply confined_bind; [by apply confined_attempt|]. intros [[]|e]; [apply confined_ret|].
  apply confined_bind; [apply confined_ignore, confined_rollback|]. intros _. apply confined_throw.
Qed.

Lemma confined_swap_parts nat ms : (nat = true -> has_native = true) -> confined cfg areas (swap_parts cfg run nat ms).
Proof.
  intros Hnat. unfold swap_parts. cbv zeta.
  apply confined_bind; [apply confined_swapPath; ours_now|intros _].
  do 2 (apply confined_bind; [apply confined_or_rollback, confined_swapPathOptional; ours_now|intros _]).
  do 2 (apply confined_bind; [apply confined_or_rollback, confined_swapPath; ours_now|intros _]).
  apply confined_bind; [apply confined_or_rollback, confined_swapPathOptional; ours_now|intros _].
  apply confined_bind; [apply confined_when; intros H; apply confined_or_rollback, confined_swapPathOptional;
    apply (native_ours (Hnat H))|intros _].
  apply confined_bind; [apply confined_when; intros _; apply confined_or_rollback, confined_swapPathOptional; ours_now|].
  intros _. apply confined_ret.
Qed.

Lemma confined_undone sw version text err aft : confined cfg areas aft ->
  confined cfg areas (undone cfg run sw version text err aft).
Proof.
  intros Ha. unfold undone. apply confined_bind; [apply confined_attempt, confined_rollback|]. intros [[]|e].
  - apply confined_bind; [exact Ha|]. intros _. apply confined_ret.
  - apply confined_ret.
Qed.

Lemma confined_checked {A} sw what err (m : UDB A) rest : confined cfg areas m ->
  (forall a, confined cfg areas (rest a)) -> confined cfg areas (step_or_undo cfg run sw what err m rest).
Proof.
  intros Hm Hk. unfold step_or_undo. apply confined_bind; [by apply confined_attempt|].
  intros [a|e]; [apply Hk|apply confined_undone, confined_ret].
Qed.

(** *** What is kept of old versions *)

Lemma inside_backups : inside cfg (backupsDir cfg) = true.
Proof. unfold backupsDir. rewrite join_valid by done. apply inside_base. Qed.

Lemma confined_move src dst : ours src -> ours dst -> confined cfg areas (movePathWithCrossDeviceFallback src dst).
Proof.
  intros Hs Hd. unfold movePathWithCrossDeviceFallback, os_Stat. destruct Hs as (Hws & His & Hns), Hd as (Hwd & Hid & Hnd).
  confined_walk.
  - by apply confined_Rename.
  - apply confined_copyDir_at; [apply Hwd|by split].
  - by apply confined_RemoveAll.
  - by apply confined_copyFile_at.
  - by apply confined_Remove.
Qed.

Lemma confined_dated base entries : confined cfg areas (dated base entries).
Proof. induction entries as [|[n e] entries IH]; simpl; confined_walk; exact IH. Qed.

(** What is dated is one of the entries. *)
Lemma dated_names base entries w l w' : dated base entries w = (Ok l, w') ->
  forall it, In it l -> exists e, In (fst it, e) entries.
Proof.
  revert l w w'. induction entries as [|[n e] entries IH]; simpl; intros l w w'; [by intros [= <- _]|].
  destruct (is_dir e).
  - unfold bind, mod_time. destruct (dated base entries _) as [[rest|err] w1] eqn:E; [|done].
    intros [= <- _] it [<-|Hit]; [by eexists; left|]. destruct (IH _ _ _ E it Hit) as [e' He']. by exists e'; right.
  - intros H it Hit. destruct (IH _ _ _ H it Hit) as [e' He']. by exists e'; right.
Qed.

Lemma confined_trimBackups keep : confined cfg areas (trimBackups (backupsDir cfg) keep).
Proof.
  unfold trimBackups, os_ReadDir. apply confined_read_then; [|intros e; apply confined_ret].
  intros entries fs Hl w Hs. unfold bind.
  destruct (confined_dated (backupsDir cfg) entries w Hs) as (Hs1 & Hsame1 & Hf1).
  pose proof (dated_names (backupsDir cfg) entries w) as Hn.
  destruct (dated (backupsDir cfg) entries w) as [[all|e] w1]; simpl in *; [|done].
  assert (Hc : confined cfg areas (for_each (fun it => ignore (os_RemoveAll (join (backupsDir cfg) (fst it))))
    (drop (Z.to_nat keep) (fold_left (fun acc it => insert_newest it acc) all [])))).
  { apply confined_for_each. intros it Hit. apply drop_in in Hit. apply newest_in in Hit as [Hit|[]].
    destruct (Hn _ _ eq_refl it Hit) as [e He]. apply confined_ignore, confined_RemoveAll.
    eapply ours_below; [exact Hback|exact inside_backups|]. apply join_name.
    exact (ReadDir_valid _ _ _ _ Hl He). }
  destruct (Hc w1 Hs1) as (Hs2 & Hsame2 & Hf2). split_and!; [done| |auto].
  intros q Ho Hq. by rewrite Hsame2, Hsame1.
Qed.

(** *** The directory of a backup *)

Lemma confined_now_bind {A} (k : Z -> UDB A) : (forall n, confined cfg areas (k (env_now n))) ->
  confined cfg areas (bind time_Now k).
Proof.
  intros Hk w Hs. unfold bind. destruct w as [d fl t u tr]. simpl.
  destruct (Hk t (mkWorld d fl (S t) u tr) Hs) as (? & ? & ?). by split_and!.
Qed.

(** The clock stays in the years that two pairs of digits write. *)
Context (Hclock : forall n, writable (env_now n)).

Lemma confined_archive_previous version : confined cfg areas (archive_previous cfg run version).
Proof.
  unfold archive_previous. apply confined_now_bind. intros n. pose proof (stamp_free (env_now n) (Hclock n)) as Hst.
  cbv zeta in Hst |- *. destruct (civil_date _) as [[y m] d]. set (stamp := of_bytes _) in *. clearbody stamp.
  set (dest := join (backupsDir cfg) _).
  assert (Hd : strictly (backupsDir cfg) dest = true).
  { apply join_name. apply valid_name_intro.
    - apply free_app. split; [apply Hst|]. apply free_app. split; [literal_free|apply sanitize_free].
    - by apply dash_name. }
  clearbody dest.
  assert (Hj : forall name, valid_name name = true -> ours (join dest name)).
  { intros name Hv. eapply ours_below; [exact Hback|exact inside_backups|]. rewrite join_valid by done. by apply strictly_app. }
  apply confined_bind; [apply confined_attempt, confined_MkdirAll|].
  { eapply below_areas; [exact Hback|by apply strictly_under]. }
  intros [[]|e]; [|apply confined_ret]. unfold archivePreviousPathBestEffort.
  do 3 (apply confined_bind; [apply confined_ignore, confined_move; [ours_now|by apply Hj]|intros _]).
  apply confined_bind; [apply confined_when; intros H; apply confined_ignore, confined_move;
    [apply (native_ours H)|by apply Hj, native_valid]|intros _].
  do 4 (apply confined_bind; [apply confined_ignore, confined_move; [ours_now|by apply Hj]|intros _]).
  apply confined_bind; [apply confined_trimBackups|]. intros _. apply confined_ret.
Qed.

(** *** Bringing the machine up *)

#[local] Hint Resolve confined_undone confined_health confined_waitForPath confined_archive_previous : confined.

Lemma confined_restart_and_check sw version : confined cfg areas (restart_and_check cfg run sw version).
Proof.
  unfold restart_and_check, restart_service. apply confined_checked; [by apply confined_env|]. intros _.
  confined_walk; apply confined_undone; confined_walk.
Qed.

Lemma confined_start_mailsec sw present known version : confined cfg areas (start_mailsec cfg run sw present known version).
Proof.
  pose proof (confined_restart_and_check sw version). unfold start_mailsec.
  destruct (_ && _); [apply confined_undone, confined_ret|]. destruct (_ || _); [|done].
  apply confined_checked; [confined_walk|]. intros _. confined_walk.
Qed.

Lemma confined_activate_units sw present reload version :
  confined cfg areas (activate_units cfg run sw present reload version).
Proof.
  pose proof (fun known => confined_start_mailsec sw present known version). unfold activate_units, os_Stat.
  apply confined_checked; [confined_walk|]. intros _.
  apply confined_bind; [confined_walk|]. intros _. apply confined_bind; [confined_walk|]. intros [s|e].
  - apply confined_checked; [confined_walk|]. intros _. confined_walk.
  - destruct (Is_NotExist e); [|apply confined_undone, confined_ret]. apply confined_bind; [confined_walk|]. intros known.
    apply confined_checked; [confined_walk|]. intros _. confined_walk.
Qed.

Lemma confined_mailsec_unit sw known present reload version :
  confined cfg areas (mailsec_unit cfg run sw known present reload version).
Proof.
  pose proof (fun r => confined_activate_units sw present r version). unfold mailsec_unit, os_Stat. cbv zeta.
  apply confined_bind; [confined_walk|]. intros [s|e].
  - apply confined_bind; [apply confined_attempt, confined_unit; [done|unfold unit_files; simpl; tauto]|].
    intros [[]|e]; [done|]. destruct (_ && _); [done|apply confined_undone, confined_ret].
  - destruct (Is_NotExist e); [done|apply confined_undone, confined_ret].
Qed.

Lemma confined_normalize_trees sw trees rest : (forall t, In t trees -> ours t) -> confined cfg areas rest ->
  confined cfg areas (normalize_trees cfg run sw trees rest).
Proof.
  intros Ht Hr. induction trees as [|tree trees IH]; [exact Hr|]. simpl.
  destruct (Ht tree (or_introl eq_refl)) as ([Ha _] & Hin & _). apply confined_checked; [by apply confined_normalize|].
  intros _. apply IH. intros t H. apply Ht. by right.
Qed.

Lemma confined_bring_up sw known present version : confined cfg areas (bring_up cfg run sw known present version).
Proof.
  unfold bring_up, os_Stat. cbv zeta. apply confined_normalize_trees.
  { intros t H. simpl in H. repeat destruct H as [<-|H]; [..|done]; ours_now. }
  apply confined_checked; [confined_walk|]. intros _. apply confined_checked; [confined_walk|]. intros _.
  apply confined_bind; [confined_walk|]. intros probe. apply confined_bind.
  - apply confined_install_units; [done|]. intros u H. unfold unit_files. simpl in H |- *.
    repeat destruct H as [<-|H]; simpl; tauto.
  - intros [reload [[text e]|]]; [apply confined_undone, confined_ret|apply confined_mailsec_unit].
Qed.

Lemma copy_optional_ours src dst : ours dst -> confined cfg areas (copy_optional src dst).
Proof. intros (Hw & _ & Hn). unfold copy_optional, os_Stat. confined_walk. by apply confined_copyFile_at. Qed.

(** The native library is only copied where it has a name. *)
Lemma copy_payload_native from to w nat ms w' : copy_payload from to w = (Ok (nat, ms), w') ->
  nat = true -> has_native = true.
Proof.
  unfold copy_payload, has_native, native. intros H. do 6 (apply bind_ok in H as (? & ? & _ & H)).
  cbv zeta in H. apply bind_ok in H as (b & w1 & Hb & H). apply bind_ok in H as (c & w2 & _ & H).
  injection H as <- <- _. destruct (String.eqb _ ""); [by injection Hb as <- _|done].
Qed.

Lemma confined_bind_post {A B} (m : UDB A) (f : A -> UDB B) (P : A -> Prop) : confined cfg areas m ->
  (forall w a w', m w = (Ok a, w') -> P a) -> (forall a, P a -> confined cfg areas (f a)) ->
  confined cfg areas (bind m f).
Proof.
  intros Hm HP Hf w Hs. unfold bind. destruct (Hm w Hs) as (Hs1 & Hd1 & Hf1). specialize (HP w).
  destruct (m w) as [[a|e] w1]; simpl in *; [|done].
  destruct (Hf a (HP _ _ eq_refl) w1 Hs1) as (Hs2 & Hd2 & Hf2). split_and!; [done| |auto].
  intros q Ho Hn. by rewrite Hd2, Hd1.
Qed.

Lemma confined_install_payload root version : confined cfg areas (install_payload cfg run root version).
Proof.
  unfold install_payload, os_Stat.
  apply (confined_bind_post _ _ (fun present => fst present = true -> has_native = true)).
  - eapply confined_copy_payload; [exact Hinst|exact install_inside|apply strictly_under, stage_strict].
  - intros w [nat ms] w'. apply copy_payload_native.
  - intros [nat ms] Hnat. confined_walk.
    + match goal with H : In ?p (previousPaths _ _) |- _ => rename H into Hp end. unfold previousPaths in Hp.
      apply confined_RemoveAll. apply in_app_iff in Hp as [Hp|Hp].
      * simpl in Hp. repeat destruct Hp as [<-|Hp]; [..|done]; ours_now.
      * destruct has_native eqn:Hn; [|done]. destruct Hp as [<-|[]]. by apply native_ours.
    + by apply confined_swap_parts.
    + apply confined_bring_up.
Qed.
End Run.

(** Whatever fails, an update changes its own directories, the installation
    and the unit files, and nothing else. *)
Lemma confined_applyRelease (Hclock : forall n, writable (env_now n)) req : confined cfg areas (applyRelease cfg req).
Proof.
  unfold applyRelease, as_outcome. apply confined_bind; [apply confined_attempt|confined_walk]. cbv zeta.
  destruct (_ && _); [apply confined_throw|]. apply confined_bind; [by apply confined_prepare|].
  intros [release root]. apply confined_bind; [confined_walk|]. intros run.
  pose proof (stage_strict run) as Hs.
  apply confined_bind; [apply confined_RemoveAll; by eapply ours_below; [|apply install_inside|]|intros _].
  apply confined_bind; [eapply confined_MkdirAll, below_areas; [exact Hinst|by apply strictly_under]|intros _].
  apply confined_deferred; [by apply confined_install_payload|].
  apply confined_RemoveAll. by eapply ours_below; [|apply install_inside|].
Qed.
End Areas.
