(* ===== verification/UpdateQueue.v ===== *)
(** * UpdateQueue: a worker that serves a request takes it off the queue

    runWorker and what it calls (update/worker.go, request_queue.go): the lock
    is held for the length of the run and released, the request served is gone
    when the run ends, and the other requests are left as they were. *)

From S2P Require Import Prelude GoStrings Effects GoStd GoText Json MessageIds Models Users Mfa GoFmt.
From S2P Require Import FileSystem GoTime UpdateHost UpdateModels UpdateRuntime UpdateFiles UpdateVerify.
From S2P Require Import UpdateApply UpdateManager UpdateWorker UpdateTree UpdateConfined UpdateRollback.
From S2P Require Import UpdateRestore UpdateUndo UpdateStage UpdateSafety.
Local Open Scope Z_scope.

(** ** Readings *)

Section Reads.
Context {env : Env} {machine : Machine}.

Lemma keeps_os_read {A} J what (f : FS -> Res A) : keeps J (os_read what f).
Proof.
  intros w [Hf HJ]. destruct (runs_os_read J what f (fun _ d => J d)) with (w := w) as [? ?]; [done|by split|by split].
Qed.

Lemma keeps_glob J dir : keeps J (glob_requests dir).
Proof. pose proof @keeps_os_read. unfold glob_requests, os_Stat, os_ReadDir. keeps_walk. Qed.

Lemma keeps_pending J cfg : keeps J (pendingRequestPaths cfg).
Proof. pose proof @keeps_os_read. pose proof @keeps_glob. unfold pendingRequestPaths, os_Stat. keeps_walk. Qed.

Lemma keeps_first J cfg : keeps J (firstPendingRequestPath cfg).
Proof. pose proof keeps_pending. unfold firstPendingRequestPath. keeps_walk. Qed.

(** The names the worker looks for: the single request and the pattern of the
    queue. *)
Definition worker_reads (name : string) : bool :=
  String.eqb name "update-request.json" || queue_name name.
Definition in_queue (cfg : UpdateConfig) (p : Path) : Prop :=
  exists c, valid_name c = true /\ worker_reads c = true /\ p = join (requestDir cfg) c.

Lemma glob_names dir w l w' : glob_requests dir w = (Ok l, w') ->
  Forall (fun p => exists c, valid_name c = true /\ worker_reads c = true /\ p = join dir c) l.
Proof.
  unfold glob_requests, os_Stat, os_ReadDir. intros H. apply bind_ok in H as (fi & w1 & _ & H).
  destruct fi as [info|e]; [|injection H as <- _; constructor].
  destruct (negb (is_dir info)); [injection H as <- _; constructor|].
  unfold bind in H at 1. rewrite attempt_eq in H.
  destruct (fst (os_read _ _ w1)) as [names|e] eqn:E; [|injection H as <- _; constructor].
  injection H as <- _. apply List.Forall_forall. intros p (ne & <- & Hin)%in_map_iff.
  apply filter_In in Hin as [Hin Hq]. exists (fst ne).
  assert (Hr : worker_reads (fst ne) = true) by (unfold worker_reads; rewrite Hq; apply orb_true_r).
  split; [|by split].
  unfold os_read, os_call in E. destruct w1 as [d fl t u tr].
  assert (Hread : ReadDir dir (u_fs d) = Ok names).
  { destruct fl as [|[] fl]; try done; by destruct (ReadDir dir (u_fs d)); simpl in E; congruence. }
  exact (ReadDir_valid _ _ _ _ Hread Hin).
Qed.

Lemma pending_names cfg w l w' : pendingRequestPaths cfg w = (Ok l, w') ->
  Forall (in_queue cfg) l.
Proof.
  unfold pendingRequestPaths, os_Stat. intros H. apply bind_ok in H as (s & w1 & _ & H).
  apply bind_ok in H as (first & w2 & Hfirst & H). apply bind_ok in H as (matches & w3 & Hm & H).
  injection H as <- _. apply Forall_app. split.
  - destruct s as [s|e]; [injection Hfirst as <- _; apply List.Forall_cons; [by exists "update-request.json"|apply List.Forall_nil]|].
    destruct (Is_NotExist e); [injection Hfirst as <- _; apply List.Forall_nil|done].
  - apply glob_names in Hm. unfold in_queue. rewrite List.Forall_forall in *. intros p [Hin _]%filter_In. auto.
Qed.

Lemma first_name cfg w p w' : firstPendingRequestPath cfg w = (Ok p, w') -> in_queue cfg p.
Proof.
  unfold firstPendingRequestPath. intros H. apply bind_ok in H as (l & w1 & Hl & H).
  apply pending_names in Hl. destruct l as [|q l]; [done|]. injection H as <- _. by inversion_clear Hl.
Qed.
End Reads.
#[export] Hint Resolve keeps_os_read keeps_first : keeps.

(** ** The files of the status *)

Section Status.
Context {env : Env} {machine : Machine} (cfg : UpdateConfig) {others : Foreign cfg}.
Context (areas : list Path) (Hstatus : In (statusDir cfg) areas).

Lemma base_dir name : valid_name name = true -> join (UpdateBaseDir cfg) name = UpdateBaseDir cfg ++ [name].
Proof. apply join_valid. Qed.

Lemma inside_status : inside cfg (statusDir cfg) = true.
Proof. unfold statusDir. rewrite base_dir by done. apply inside_base. Qed.

Lemma status_file name : valid_name name = true -> strictly (statusDir cfg) (join (statusDir cfg) name) = true.
Proof. apply join_name. Qed.

Lemma status_parent name : valid_name name = true -> parent (join (statusDir cfg) name) = statusDir cfg.
Proof. intros H. rewrite join_valid by done. apply parent_app. Qed.

Lemma status_own : writable_at cfg areas (statusDir cfg).
Proof.
  split; [|apply inside_guarded, inside_status]. apply existsb_exists. exists (statusDir cfg).
  split; [done|apply under_refl].
Qed.

Lemma confined_status_write name payload mode m : valid_name name = true ->
  confined cfg areas (writeJSONAtomic (join (statusDir cfg) name) payload mode m).
Proof.
  intros Hn. eapply confined_writeJSON; [exact Hstatus|exact inside_status|by apply status_file|].
  right. rewrite status_parent by done. apply status_own.
Qed.

Lemma confined_readable name : valid_name name = true ->
  confined cfg areas (ensureDespatchReadable (join (statusDir cfg) name)).
Proof.
  intros Hn. assert (Hw : writable_at cfg areas (join (statusDir cfg) name)).
  { eapply below_writable; [exact Hstatus|exact inside_status|by apply status_file]. }
  unfold ensureDespatchReadable, lookupDespatchGroupID. destruct (negb _); [by apply confined_Chmod|].
  apply confined_bind; [destruct despatch_gid; confined_walk|]. intros gid.
  apply confined_bind; [by apply confined_Chown|]. intros _. by apply confined_Chmod.
Qed.

Lemma confined_publish st : confined cfg areas (publish_status cfg st).
Proof.
  unfold publish_status, write_status. apply confined_bind; [by apply confined_ignore, confined_status_write|].
  intros _. by apply confined_ignore, confined_readable.
Qed.

Lemma confined_write_auto rec : confined cfg areas (writeAutoUpdateState cfg rec).
Proof.
  unfold writeAutoUpdateState, write_record. apply confined_bind; [by apply confined_status_write|].
  intros _. by apply confined_tolerate, confined_readable.
Qed.

Lemma confined_read_auto p : confined cfg areas (readAutoUpdateState p).
Proof. unfold readAutoUpdateState, readJSONFile, rejectSymlink, os_Lstat, os_ReadFile. confined_walk. Qed.

Lemma confined_on_record f : confined cfg areas (on_record cfg f).
Proof.
  unfold on_record. apply confined_bind; [apply confined_attempt, confined_read_auto|]. intros [rec|e]; [|confined_walk].
  destruct (f rec); [|confined_walk]. apply confined_ignore, confined_write_auto.
Qed.

Lemma confined_put_setting k v : confined cfg areas (put_setting k v).
Proof. unfold put_setting. apply confined_ignore, confined_on_db. change (calm (UpsertSetting k v)). unfold UpsertSetting. calm_walk. Qed.

Lemma confined_MarkSuccess v : confined cfg areas (MarkSuccess v).
Proof.
  unfold MarkSuccess. apply confined_bind; [apply confined_put_setting|]. intros _.
  apply confined_bind; [confined_walk|]. intros now. apply confined_put_setting.
Qed.
End Status.

(** ** Serving *)

Section Serve.
Context {env : Env} {machine : Machine} (cfg : UpdateConfig) {others : Foreign cfg} `{!Layout cfg machine_arch}.
Hypothesis Hclock : forall n, writable (env_now n).

(** Where a worker writes, but for the request and the lock. *)
Definition serve_areas : list Path :=
  [statusDir cfg; workDir cfg; backupsDir cfg; UpdateInstallDir cfg; UpdateSystemdUnitDir cfg].

Section In.
Context (areas : list Path) (Hareas : incl serve_areas areas).

Ltac area := apply Hareas; unfold serve_areas; simpl; tauto.

Lemma confined_serve_apply req failed : confined cfg areas (serve_apply cfg req failed).
Proof.
  assert (Hs : In (statusDir cfg) areas) by area. assert (Hw : In (workDir cfg) areas) by area.
  unfold serve_apply. cbv zeta. destruct (_ && _); [confined_walk|].
  apply confined_bind; [apply (confined_applyRelease cfg areas); [area..|exact Hclock]|]. intros o.
  destruct (o_error o).
  - apply confined_bind; [by apply confined_on_record|confined_walk].
  - apply confined_bind; [apply confined_attempt, confined_read_auto|]. intros r.
    apply confined_bind; [destruct r as [rec|e]; [|confined_walk]|].
    + cbv zeta. apply confined_when. intros _. apply confined_bind; [by apply confined_ignore, confined_write_auto|].
      intros _. apply confined_ignore, confined_RemoveAll. eapply below_writable; [exact Hw|apply inside_work|].
      apply preparedDir_strictly.
    + intros _. apply confined_bind; [confined_walk|]. intros n.
      apply confined_bind; [apply confined_when; intros _; apply confined_MarkSuccess|confined_walk].
Qed.

Lemma confined_run_prepare_rest target : confined cfg areas
  (let! r := attempt (prepareReleasePayload cfg target) in
   match r with
   | Fail err =>
       do! on_record cfg (fun rec =>
             Some (rec <| ar_State := AutoUpdateStateFailed |> <| ar_TargetVersion := target |>
                       <| ar_Error := err_text err |>)) in
       throw err
   | Ok (release, _) =>
       let! downloaded := time_Now in
       let! now := time_Now in
       writeAutoUpdateState cfg
         (no_record <| ar_State := AutoUpdateStateScheduled |>
                    <| ar_TargetVersion := TrimSpace (gr_TagName release) |>
                    <| ar_DownloadedAt := downloaded |> <| ar_ScheduledFor := nextNightlyWindow now |>)
   end).
Proof.
  assert (Hs : In (statusDir cfg) areas) by area. assert (Hw : In (workDir cfg) areas) by area.
  apply confined_bind; [apply confined_attempt; exact (confined_prepare cfg areas Hw target)|].
  intros [[release p]|e].
  - do 2 (apply confined_bind; [confined_walk|intros ?]). by apply confined_write_auto.
  - apply confined_bind; [by apply confined_on_record|confined_walk].
Qed.
End In.

(** *** The request *)

(** What serve_first does with a request it has read. *)
Definition serve_request (p : Path) (req : ApplyRequest) : UDB unit :=
  let! req := if String.eqb (TrimSpace (rq_RequestID req)) ""
               then let! now := time_Now in
                    ret (req <| rq_RequestID := "update-" +:+ format_int (now / Second) |>)
               else ret req in
   let! req := if IsZero (rq_RequestedAt req)
               then let! now := time_Now in ret (req <| rq_RequestedAt := now |>)
               else ret req in
   let req := req <| rq_Mode := normalizeApplyMode (rq_Mode req) |> in
   if String.eqb (rq_Mode req) ApplyModePrepare then run_prepare cfg p req
   else run_apply cfg p req.

Section AnyRequest.
Context (areas : list Path) (Hareas : incl serve_areas areas) (p : Path) (Hp : writable_at cfg areas p).

Lemma confined_request req : confined cfg areas (serve_request p req).
Proof.
  assert (Hs : In (statusDir cfg) areas) by (apply Hareas; unfold serve_areas; simpl; tauto).
  assert (Htake : confined cfg areas (os_Remove p)) by by apply confined_Remove.
  unfold serve_request. apply confined_bind; [confined_walk|]. intros req'.
  apply confined_bind; [confined_walk|]. intros req''. cbv zeta. destruct (String.eqb _ _).
  - unfold run_prepare. cbv zeta. apply confined_bind; [by apply confined_on_record|]. intros _.
    apply confined_bind; [by apply confined_tolerate|]. intros _.
    exact (confined_run_prepare_rest areas Hareas _).
  - unfold run_apply. apply confined_bind; [confined_walk|]. intros started. cbv zeta.
    apply confined_bind; [by apply confined_publish|]. intros _.
    apply confined_bind; [by apply confined_on_record|]. intros _.
    apply confined_bind; [by apply confined_tolerate|]. intros _.
    apply confined_bind; [confined_walk|]. intros finished.
    apply confined_bind; [exact (confined_serve_apply areas Hareas _ _)|]. intros [final err].
    apply confined_bind; [confined_walk|]. intros finished'.
    apply confined_bind; [by apply confined_publish|]. intros _.
    apply confined_bind; [by apply confined_ignore|]. confined_walk.
Qed.

Lemma confined_discard : confined cfg areas (discard_invalid cfg p).
Proof.
  unfold discard_invalid. apply confined_bind; [confined_walk|]. intros now.
  apply confined_bind; [by apply confined_ignore, confined_Remove|]. intros _. apply confined_publish.
  apply Hareas. unfold serve_areas. simpl. tauto.
Qed.
End AnyRequest.

Section Request.
Variable c : string.
Hypothesis Hc : valid_name c = true.
Let p : Path := join (requestDir cfg) c.

Lemma request_path : p = UpdateBaseDir cfg ++ ["request"; c].
Proof. unfold p, requestDir. rewrite !join_valid by done. by rewrite <- app_assoc. Qed.

Lemma base_nonempty : UpdateBaseDir cfg <> [].
Proof. intros H. pose proof lay_apart as Ha. rewrite H, apart_sym in Ha. by apply apart_root in Ha. Qed.

Lemma request_own : own cfg p.
Proof. rewrite request_path. split; [apply inside_base|]. pose proof base_nonempty. by destruct (UpdateBaseDir cfg). Qed.

Lemma apart_base a r : apart a (UpdateBaseDir cfg) = true -> apart a (UpdateBaseDir cfg ++ r) = true.
Proof.
  intros H. pose proof (off_app [a] (UpdateBaseDir cfg) r) as Ho. unfold off in Ho. simpl in Ho.
  rewrite !andb_true_r in Ho. by apply Ho.
Qed.

(** What lies in the base directory under another name is off the areas. *)
Lemma base_off r : forallb (fun name => apart [name] r) ["status"; "work"; "backups"] = true ->
  off serve_areas (UpdateBaseDir cfg ++ r) = true.
Proof.
  intros H. unfold off, serve_areas, statusDir, workDir, backupsDir. rewrite !join_valid by done. cbn [forallb] in *.
  rewrite !apart_app. apply andb_true_iff in H as [-> H]. apply andb_true_iff in H as [-> H].
  apply andb_true_iff in H as [-> _]. rewrite apart_base by apply lay_apart.
  rewrite apart_base; [done|]. rewrite apart_sym. apply lay_base_units.
Qed.

Lemma lock_path : lockPath cfg = UpdateBaseDir cfg ++ ["lock"; "update.lock"].
Proof. unfold lockPath, lockDir. rewrite !join_valid by done. by rewrite <- app_assoc. Qed.

Lemma lock_own : own cfg (lockPath cfg).
Proof. rewrite lock_path. split; [apply inside_base|]. pose proof base_nonempty. by destruct (UpdateBaseDir cfg). Qed.

Lemma serve_framed cl : framed cfg serve_areas [(p, cl)].
Proof. apply List.Forall_cons; [|apply List.Forall_nil]. split; [|apply request_own]. simpl. rewrite request_path. by apply base_off. Qed.

Lemma serve_keeps {A} cl (m : UDB A) : confined cfg serve_areas m -> keeps (held cfg [(p, cl)]) m.
Proof. intros Hm. eapply confined_keeps; [|exact Hm|apply serve_framed]. done. Qed.

Abbreviation taken := (fun _ d => held cfg [(p, absent)] d).

(** A removal that succeeds or finds nothing. *)
Lemma take_request (k : UDB unit) : runs (held cfg [(p, absent)]) k taken ->
  runs (held cfg [(p, NotDir)]) (bind (tolerate Is_NotExist (os_Remove p)) (fun _ => k)) taken.
Proof.
  intros Hk. pose proof request_own as Ho. eapply runs_bind with (R := fun _ => held cfg [(p, absent)]); [|intros ?; exact Hk].
  unfold tolerate. eapply runs_attempt_then with (P := fun _ => held cfg [(p, absent)]).
  - apply runs_os_write. intros d Hd.
    pose proof (Remove_runs (machine := machine) cfg [] p Ho (List.Forall_nil _) (mkWorld d [] 0%nat 0%nat []) (conj eq_refl Hd)) as [_ H].
    rewrite ignore_eq in H. unfold os_Remove, os_write in H. rewrite os_call_run in H by done. simpl in H.
    by destruct (Remove p (u_fs d)).
  - intros [a|e]; [by apply runs_ret|]. destruct (Is_NotExist e); [by apply runs_ret|by apply runs_throw].
Qed.

Lemma quiet_rest {A} (m : UDB A) (k : A -> UDB unit) : confined cfg serve_areas m ->
  (forall a, runs (held cfg [(p, absent)]) (k a) taken) -> runs (held cfg [(p, absent)]) (bind m k) taken.
Proof. intros Hm Hk. apply runs_then; [by apply serve_keeps|done|exact Hk]. Qed.

Lemma quiet_end (m : UDB unit) : confined cfg serve_areas m -> runs (held cfg [(p, absent)]) m taken.
Proof. intros Hm. by apply runs_keeps, serve_keeps. Qed.

Lemma all_areas : incl serve_areas serve_areas.
Proof. apply List.incl_refl. Qed.

(** Up to the removal nothing can fail. *)
Lemma before_taking {A} (m : UDB A) (k : A -> UDB unit) : confined cfg serve_areas m ->
  (forall w, exists a, fst (m w) = Ok a) ->
  (forall a, runs (held cfg [(p, NotDir)]) (k a) taken) -> runs (held cfg [(p, NotDir)]) (bind m k) taken.
Proof.
  intros Hm Hok Hk. eapply runs_bind; [|exact Hk]. intros w Hw. destruct (serve_keeps NotDir m Hm w Hw) as [Hf Hd].
  destruct (Hok w) as [a Ha]. by rewrite Ha.
Qed.

Lemma ignore_ok {DB A} (m : M DB A) w : exists a, fst (ignore m w) = Ok a.
Proof. rewrite ignore_eq. by eexists. Qed.

Lemma on_record_ok f w : exists a, fst (on_record cfg f w) = Ok a.
Proof.
  unfold on_record. rewrite bind_attempt. destruct (fst (readAutoUpdateState (autoStatusPath cfg) w)) as [rec|e]; [|by eexists].
  destruct (f rec); [apply ignore_ok|by eexists].
Qed.

Lemma publish_ok st w : exists a, fst (publish_status cfg st w) = Ok a.
Proof. unfold publish_status, bind. rewrite ignore_eq. apply ignore_ok. Qed.

Lemma run_prepare_takes req : runs (held cfg [(p, NotDir)]) (run_prepare cfg p req) taken.
Proof.
  unfold run_prepare. cbv zeta. apply before_taking; [apply confined_on_record; unfold serve_areas; simpl; tauto|apply on_record_ok|].
  intros _. apply take_request. apply quiet_end, (confined_run_prepare_rest serve_areas all_areas).
Qed.

Lemma run_apply_takes req : runs (held cfg [(p, NotDir)]) (run_apply cfg p req) taken.
Proof.
  assert (Hs : In (statusDir cfg) serve_areas) by (unfold serve_areas; simpl; tauto).
  unfold run_apply. apply before_taking; [apply confined_now|by eexists|]. intros started. cbv zeta.
  apply before_taking; [by apply confined_publish|apply publish_ok|]. intros _.
  apply before_taking; [by apply confined_on_record|apply on_record_ok|]. intros _.
  apply take_request. apply quiet_rest; [apply confined_now|]. intros finished.
  apply quiet_rest; [exact (confined_serve_apply serve_areas all_areas _ _)|]. intros [final err].
  apply quiet_rest; [apply confined_now|]. intros finished'.
  apply quiet_rest; [by apply confined_publish|]. intros _.
  eapply runs_bind with (R := fun _ => held cfg [(p, absent)]); [|intros ?; destruct err; [by apply runs_throw|by apply runs_ret]].
  eapply runs_pre; [|eapply runs_weaken; [apply (Remove_runs (machine := machine) cfg [] p request_own (List.Forall_nil _))|by intros [a|e]]].
  intros d [Hd Hl]. split; [done|]. inversion_clear Hl as [|? ? Hcl _]. apply List.Forall_cons; [|apply List.Forall_nil].
  intros e He. specialize (Hcl []). unfold claim in *. simpl in *. congruence.
Qed.

Lemma discard_takes : runs (held cfg [(p, NotDir)]) (discard_invalid cfg p) taken.
Proof.
  unfold discard_invalid. apply before_taking; [apply confined_now|by eexists|]. intros now.
  eapply runs_bind with (R := fun _ => held cfg [(p, absent)]).
  { eapply runs_weaken; [apply (Remove_runs (machine := machine) cfg [] p request_own (List.Forall_nil _))|by intros [a|e]]. }
  intros ?. apply quiet_end, confined_publish. unfold serve_areas; simpl; tauto.
Qed.
(** Whatever the request asks for, and however it ends. *)
Lemma request_takes req : runs (held cfg [(p, NotDir)])
  (serve_request p req) taken.
Proof.
  unfold serve_request.
  apply before_taking; [confined_walk|intros w; destruct (String.eqb _ ""); by eexists|]. intros req'.
  apply before_taking; [confined_walk|intros w; destruct (IsZero _); by eexists|]. intros req''. cbv zeta.
  destruct (String.eqb _ _); [apply run_prepare_takes|apply run_apply_takes].
Qed.
End Request.

(** What the first read of the queue says of a world without faults. *)
Lemma first_then {A} w p w1 (k : Res Path -> UDB A) : w_faults w = [] ->
  firstPendingRequestPath cfg w = (Ok p, w1) ->
  w_faults w1 = [] /\ w_db w1 = w_db w
  /\ bind (attempt (firstPendingRequestPath cfg)) k w = k (Ok p) w1.
Proof.
  intros Hf E. destruct (keeps_first (fun d => d = w_db w) cfg w (conj Hf eq_refl)) as [Hf1 Hd1].
  rewrite bind_attempt, E in *. by split_and!.
Qed.

Lemma read_json_run {A} (decode : string -> Res A) p w : w_faults w = [] -> sound cfg (u_fs (w_db w)) ->
  guarded cfg p = true -> (exists e, lookup_path (u_fs (w_db w)) p = Some e) ->
  exists w1, w_faults w1 = [] /\ w_db w1 = w_db w /\
    readJSONFile decode p w = (match read_file p (u_fs (w_db w)) with Ok raw => decode raw | Fail e => Fail e end, w1).
Proof.
  intros Hf Hs Hg [e He].
  assert (Hk : keeps (fun d => d = w_db w) (readJSONFile decode p)).
  { unfold readJSONFile, rejectSymlink, os_Lstat, os_ReadFile. keeps_walk. }
  destruct (Hk w (conj Hf eq_refl)) as [Hf1 Hd1]. exists (snd (readJSONFile decode p w)).
  split_and!; [done|done|]. rewrite (surjective_pairing (readJSONFile decode p w)) at 1. f_equal.
  assert (Hlink : is_link e = false).
  { destruct p as [|a p]; [simpl in He; by injection He as <-|]. rewrite lookup_find in He by done.
    eapply (sound_links cfg); [exact Hs|exact Hg|exact He]. }
  unfold readJSONFile, rejectSymlink. destruct w as [d fl t u tr]. simpl in Hf, Hs, He. subst fl.
  unfold os_Lstat, os_ReadFile, os_read, os_call, bind, attempt, Lstat. simpl. rewrite He. simpl. rewrite Hlink. simpl.
  by destruct (read_file p (u_fs d)).
Qed.

Lemma decode_request_errors raw e : decode_apply_request raw = Fail e -> e = ErrDate \/ exists msg, e = ErrPayload msg.
Proof.
  unfold decode_apply_request, decode_struct. intros H. repeat case_match; simplify_eq; first [by left|right; by eexists].
Qed.

(** Reading the first request, and what follows. *)
Lemma serve_first_run w p w1 raw : w_faults w = [] -> sound cfg (u_fs (w_db w)) ->
  firstPendingRequestPath cfg w = (Ok p, w1) -> read_file p (u_fs (w_db w)) = Ok raw ->
  own cfg p ->
  exists w2 m, w_faults w2 = [] /\ w_db w2 = w_db w /\ snd (serve_first cfg w) = snd (m w2)
    /\ (decode_apply_request raw = Fail ErrDate -> m = throw ErrDate)
    /\ (decode_apply_request raw <> Fail ErrDate ->
         (exists req, m = serve_request p req) \/ m = discard_invalid cfg p).
Proof.
  intros Hf Hs Hfirst Hraw Ho. unfold serve_first. destruct (first_then w p w1 (fun r =>
    match r with
    | Fail e => if Is_NotExist e then ret tt else throw e
    | Ok reqPath => let! read := attempt (readJSONFile decode_apply_request reqPath) in
        match read with
        | Fail e => if Is_NotExist e then ret tt
                    else if isInvalidApplyRequestPayloadError e then discard_invalid cfg reqPath else throw e
        | Ok req => serve_request reqPath req
        end
    end) Hf Hfirst) as (Hf1 & Hd1 & Hrun).
  assert (Hthere : exists e, lookup_path (u_fs (w_db w1)) p = Some e).
  { rewrite Hd1. unfold read_file in Hraw. rewrite (guarded_Stat cfg) in Hraw by (done || by apply inside_guarded, Ho).
    destruct (lookup_path (u_fs (w_db w)) p); [by eexists|]. by unfold os_error in Hraw. }
  destruct (read_json_run decode_apply_request p w1) as (w2 & Hf2 & Hd2 & Hread);
    [done|by rewrite Hd1|by apply inside_guarded, Ho|done|].
  rewrite Hd1 in Hd2, Hread. rewrite Hraw in Hread.
  assert (Hend : forall m : UDB unit, snd (bind (attempt (readJSONFile decode_apply_request p)) (fun read =>
      match read with
      | Fail e => if Is_NotExist e then ret tt
                  else if isInvalidApplyRequestPayloadError e then discard_invalid cfg p else throw e
      | Ok req => serve_request p req
      end) w1) = snd (m w2) -> snd (serve_first cfg w) = snd (m w2)).
  { intros m Hm. rewrite <- Hm. by rewrite <- Hrun. }
  destruct (decode_apply_request raw) as [req|e] eqn:Ed.
  - exists w2, (serve_request p req). split_and!; [done|done| |done|left; by eexists]. apply Hend.
    by rewrite bind_attempt, Hread.
  - destruct (decode_request_errors _ _ Ed) as [->|[msg ->]].
    + exists w2, (throw ErrDate). split_and!; [done|done| |done|done]. apply Hend. by rewrite bind_attempt, Hread.
    + exists w2, (discard_invalid cfg p). split_and!; [done|done| |done|by right]. apply Hend.
      by rewrite bind_attempt, Hread.
Qed.

(** What becomes of the first request when the worker goes on with it. *)
Lemma first_taken p m w2 raw :
  (exists req, m = serve_request p req) \/ m = discard_invalid cfg p ->
  w_faults w2 = [] -> sound cfg (u_fs (w_db w2)) -> in_queue cfg p ->
  read_file p (u_fs (w_db w2)) = Ok raw ->
  lookup_path (u_fs (w_db (snd (m w2)))) p = None
  /\ forall q, under (requestDir cfg) q = true -> apart p q = true ->
       find_path (u_fs (w_db (snd (m w2)))) q = find_path (u_fs (w_db w2)) q.
Proof.
  intros Hm Hf2 Hs (c & Hc & _ & ->) Hraw. set (p := join (requestDir cfg) c) in *.
  pose proof (request_own c Hc) as Ho. fold p in Ho.
  assert (Hh : held cfg [(p, NotDir)] (w_db w2)).
  { split; [done|]. apply List.Forall_cons; [|apply List.Forall_nil]. intros e He. simpl in *.
    rewrite below_root, <- lookup_find in He by apply Ho. unfold read_file in Hraw.
    rewrite (guarded_Stat cfg) in Hraw by (done || by apply inside_guarded, Ho). rewrite He in Hraw.
    by destruct e as [[] ? ? ?]. }
  assert (Hr : runs (held cfg [(p, NotDir)]) m (fun _ d => held cfg [(p, absent)] d)).
  { destruct Hm as [[req ->]| ->]; [by apply request_takes|by apply discard_takes]. }
  assert (Hco : confined cfg (p :: serve_areas) m).
  { assert (Hi : incl serve_areas (p :: serve_areas)) by (intros x; by right).
    assert (Hw : writable_at cfg (p :: serve_areas) p) by (apply own_writable; [by left|done]).
    destruct Hm as [[req ->]| ->]; [exact (confined_request _ Hi p Hw req)|exact (confined_discard _ Hi p Hw)]. }
  split.
  - destruct (Hr w2 (conj Hf2 Hh)) as [_ [_ Hl]]. inversion_clear Hl as [|? ? Hcl _].
    specialize (Hcl []). unfold claim in Hcl. simpl in Hcl. rewrite below_root in Hcl by apply Ho.
    by rewrite lookup_find by apply Ho.
  - intros q Hq Ha. destruct (Hco w2) as (_ & Hsame & _); [done|].
    apply under_iff in Hq as [r ->]. unfold requestDir in *. rewrite base_dir in * by done. rewrite <- app_assoc in *.
    apply Hsame.
    + unfold off. cbn [forallb]. apply andb_true_intro. split; [exact Ha|]. by apply base_off.
    + apply (guarded_native cfg), inside_guarded, inside_base.
Qed.

(** C15. A worker that finds a request, on a machine whose system calls do not
    fail of themselves: when the request's date is not a time, nothing changes,
    the request stays first; every other request is off the queue afterwards,
    whether the update it asks for is installed, fails or is rolled back or the
    request makes no sense, and everything that lies beside it in the directory
    of requests is as it was. *)
Theorem serve_consumes w p w1 raw :
  w_faults w = [] -> sound cfg (u_fs (w_db w)) -> firstPendingRequestPath cfg w = (Ok p, w1) ->
  read_file p (u_fs (w_db w)) = Ok raw ->
  let after := w_db (snd (serve_first cfg w)) in
  (decode_apply_request raw = Fail ErrDate -> after = w_db w)
  /\ (decode_apply_request raw <> Fail ErrDate ->
       lookup_path (u_fs after) p = None
       /\ forall q, under (requestDir cfg) q = true -> apart p q = true ->
            find_path (u_fs after) q = find_path (u_fs (w_db w)) q).
Proof.
  intros Hf Hs Hfirst Hraw after. pose proof (first_name _ _ _ _ Hfirst) as Hq.
  assert (Ho : own cfg p) by (destruct Hq as (c & Hc & _ & ->); by apply request_own).
  destruct (serve_first_run w p w1 raw) as (w2 & m & Hf2 & Hd2 & Hsnd & Hdate & Hm); [done..|].
  unfold after. rewrite Hsnd. rewrite <- Hd2 in Hs, Hraw |- *. split.
  - intros E. by rewrite (Hdate E).
  - intros E. eapply first_taken; [exact (Hm E)|done..|exact Hraw].
Qed.

(** ** The lock *)

(** Away from the directories of the contract. *)
Definition beside (q : Path) : Prop := Forall (fun spec => under q (ds_path spec) = false) (updaterDirContract cfg).

Section Dirs.
Context (fs0 : FS) (calls : list MachineCall).

Definition dirs_only (d : UpdateDB) : Prop :=
  sound cfg (u_fs d) /\ u_calls d = calls /\ forall q, beside q -> find_path (u_fs d) q = find_path fs0 q.

Lemma keeps_dirs_write what (f : FS -> Res FS) :
  (forall fs fs', sound cfg fs -> f fs = Ok fs' ->
    sound cfg fs' /\ forall q, beside q -> find_path fs' q = find_path fs q) -> keeps dirs_only (os_write what f).
Proof.
  intros H w [Hf (Hs & Hc & Hq)]. unfold os_write. rewrite os_call_run by done.
  destruct (f (u_fs (w_db w))) as [fs'|e] eqn:E; simpl; [|by split]. destruct (H _ _ Hs E) as [Hs' Hq'].
  split; [done|]. split_and!; [done|done|]. intros q Hb. simpl. rewrite Hq' by done. by apply Hq.
Qed.

Lemma beside_under q spec : beside q -> In spec (updaterDirContract cfg) -> under q (ds_path spec) = false.
Proof. unfold beside. rewrite List.Forall_forall. auto. Qed.

Lemma keeps_mkdir spec mode : In spec (updaterDirContract cfg) -> keeps dirs_only (os_MkdirAll (ds_path spec) mode).
Proof.
  intros Hin. apply keeps_dirs_write. intros fs fs' Hs H. unfold MkdirAll in H.
  assert (Hroot : inside cfg [] = true -> exists e, lookup_path fs [] = Some e /\ is_dir e = true) by (intros _; by eexists).
  destruct (make_dirs_sound cfg _ _ _ _ _ _ _ Hs Hroot H) as [Hs' Hsame]. split; [done|].
  intros q Hb. apply Hsame. by apply beside_under.
Qed.

Lemma contract_own spec : In spec (updaterDirContract cfg) -> own cfg (ds_path spec).
Proof.
  assert (H : forall r, own cfg (UpdateBaseDir cfg ++ r)).
  { intros r. split; [apply inside_base|]. pose proof base_nonempty. by destruct (UpdateBaseDir cfg). }
  unfold updaterDirContract, requestDir, statusDir, lockDir, workDir, backupsDir. rewrite !join_valid by done.
  intros Hin. simpl in Hin. rewrite <- (app_nil_r (UpdateBaseDir cfg)) in Hin at 1.
  repeat destruct Hin as [<-|Hin]; [..|done]; apply H.
Qed.

Lemma keeps_change spec what call f : In spec (updaterDirContract cfg) -> (forall e, e_kind (f e) = e_kind e) ->
  keeps dirs_only (os_write what (change call (ds_path spec) f)).
Proof.
  intros Hin Hk. pose proof (contract_own _ Hin) as Ho. apply keeps_dirs_write. intros fs fs' Hs H.
  assert (Hw : writable_at cfg [ds_path spec] (ds_path spec)) by (apply own_writable; [by left|done]).
  destruct (confined_change cfg [ds_path spec] what call (ds_path spec) f Hw Hk
    (mkWorld (mkUpdateDB empty_db fs [] []) [] 0%nat 0%nat []) Hs) as (Hs' & _ & _).
  unfold os_write in Hs'. rewrite os_call_run in Hs' by done. simpl in Hs'. rewrite H in Hs'. simpl in Hs'.
  split; [exact Hs'|]. intros q Hq. unfold change in H.
  rewrite (guarded_follow cfg) in H by (done || by apply inside_guarded, Ho).
  destruct (lookup_path fs (ds_path spec)); [|done]. injection H as <-. rewrite find_put.
  destruct (path_eqb (ds_path spec) q) eqn:E; [|done]. apply path_eqb_eq in E as <-.
  pose proof (beside_under _ _ Hq Hin) as Hu. by rewrite under_refl in Hu.
Qed.

Lemma keeps_tolerate ok m : keeps dirs_only m -> keeps dirs_only (tolerate ok m).
Proof. intros Hm. unfold tolerate. keeps_walk. Qed.

Lemma keeps_ensure strict owner specs : incl specs (updaterDirContract cfg) ->
  keeps dirs_only (ensure_dirs strict owner specs).
Proof.
  induction specs as [|spec specs IH]; intros Hi; simpl; [apply keeps_ret|].
  assert (Hin : In spec (updaterDirContract cfg)) by (apply Hi; by left).
  apply keeps_bind; [by apply keeps_mkdir|]. intros _.
  apply keeps_bind; [by apply keeps_tolerate, keeps_change|]. intros _.
  apply keeps_bind; [destruct owner; [by apply keeps_change|apply keeps_ret]|]. intros _.
  apply IH. intros x Hx. apply Hi. by right.
Qed.

Lemma keeps_runtime_dirs : keeps dirs_only (ensureUpdaterRuntimeDirectories cfg).
Proof.
  unfold ensureUpdaterRuntimeDirectories, ensureUpdaterDirSpecs, lookupDespatchGroupID.
  destruct (process_uid =? 0); [|apply keeps_ensure, List.incl_refl].
  apply keeps_bind; [destruct despatch_gid; keeps_walk|]. intros gid. apply keeps_ensure, List.incl_refl.
Qed.
End Dirs.

Lemma lock_beside : beside (lockPath cfg).
Proof.
  assert (H : forall r s, under (UpdateBaseDir cfg ++ r) (UpdateBaseDir cfg ++ s) = under r s).
  { intros r s. unfold under. induction (UpdateBaseDir cfg) as [|a l IH]; simpl; [done|]. by rewrite String.eqb_refl. }
  unfold beside, updaterDirContract, requestDir, statusDir, lockDir, workDir, backupsDir.
  rewrite lock_path, !join_valid by done. simpl ds_path.
  repeat (apply List.Forall_cons; [simpl ds_path; first [rewrite H; reflexivity
    | rewrite <- (app_nil_r (UpdateBaseDir cfg)) at 2; rewrite H; reflexivity]|]). apply List.Forall_nil.
Qed.

(** C16. While another worker holds the lock, a worker serves nothing: it calls no
    command and no server, and beside the modes and owners of the updater's
    directories it changes no entry at all. *)
Theorem lock_excludes w e :
  w_faults w = [] -> sound cfg (u_fs (w_db w)) -> UpdateEnabled cfg = true ->
  find_path (u_fs (w_db w)) (lockPath cfg) = Some e ->
  let after := w_db (snd (runWorker cfg w)) in
  u_calls after = u_calls (w_db w) /\ forall q, beside q -> find_path (u_fs after) q = find_path (u_fs (w_db w)) q.
Proof.
  intros Hf Hs He Hl after. set (J := dirs_only (u_fs (w_db w)) (u_calls (w_db w))).
  assert (Hr : runs J (runWorker cfg) (fun _ => J)).
  { unfold runWorker. rewrite He. apply runs_then; [apply keeps_runtime_dirs|done|]. intros _.
    eapply runs_attempt_then with (P := fun r d => J d /\ exists e', r = Fail e' /\ Is_Exist e' = true).
    - apply runs_os_write. intros d Hd. pose proof Hd as (_ & _ & Hq). specialize (Hq _ lock_beside). rewrite Hl in Hq.
      unfold open_write. rewrite lookup_find by apply lock_own. rewrite Hq. simpl. split; [done|].
      eexists. split; [reflexivity|]. done.
    - intros r w1 [Hf1 [Hd1 (e' & -> & He')]]. rewrite He'. by split. }
  destruct (Hr w) as [_ (_ & Hc & Hq)]; [|by split]. split; [done|]. by split_and!.
Qed.

Lemma confined_serve_first areas : incl serve_areas areas -> In (requestDir cfg) areas -> confined cfg areas (serve_first cfg).
Proof.
  intros Hi Hreq. unfold serve_first.
  apply (confined_bind_post cfg areas _ _ (fun r => match r with
    | Ok p => in_queue cfg p | Fail _ => True end)).
  - unfold firstPendingRequestPath, pendingRequestPaths, glob_requests, os_Stat, os_ReadDir. confined_walk.
  - intros w r w'. rewrite attempt_eq. intros [= <- <-].
    destruct (firstPendingRequestPath cfg w) as [[p|e] w1] eqn:E; [|done]. by eapply first_name.
  - intros [p|e]; [|confined_walk]. intros (c & Hc & _ & ->). set (p := join (requestDir cfg) c).
    assert (Hin : inside cfg (requestDir cfg) = true).
    { unfold requestDir. rewrite base_dir by done. apply inside_base. }
    assert (Hp : writable_at cfg areas p).
    { eapply below_writable; [exact Hreq|exact Hin|by apply join_name]. }
    clearbody p. apply confined_bind.
    + unfold readJSONFile, rejectSymlink, os_Lstat, os_ReadFile. confined_walk.
    + intros [req|e]; [exact (confined_request areas Hi p Hp req)|].
      destruct (Is_NotExist e); [confined_walk|]. destruct (isInvalidApplyRequestPayloadError e); [|confined_walk].
      exact (confined_discard areas Hi p Hp).
Qed.

Lemma lock_framed cl : framed cfg (requestDir cfg :: serve_areas) [(lockPath cfg, cl)].
Proof.
  apply List.Forall_cons; [|apply List.Forall_nil]. split; [|apply lock_own]. rewrite lock_path.
  change (apart (requestDir cfg) (UpdateBaseDir cfg ++ ["lock"; "update.lock"])
          && off serve_areas (UpdateBaseDir cfg ++ ["lock"; "update.lock"]) = true).
  rewrite base_off by reflexivity. unfold requestDir. rewrite base_dir, apart_app by done. reflexivity.
Qed.

(** A step that cannot fail. *)
Lemma runs_sure {A B} (J : UpdateDB -> Prop) (m : UDB A) (k : A -> UDB B) Q : keeps J m ->
  (forall w, exists a, fst (m w) = Ok a) -> (forall a, runs J (k a) Q) -> runs J (bind m k) Q.
Proof.
  intros Hm Hok Hk. eapply runs_bind; [|exact Hk]. intros w Hw. destruct (Hm w Hw) as [Hf Hd].
  destruct (Hok w) as [a Ha]. by rewrite Ha.
Qed.

Lemma attempt_ok {DB A} (m : M DB A) w : exists a, fst (attempt m w) = Ok a.
Proof. rewrite attempt_eq. by eexists. Qed.

Lemma written_file p data mode excl d fs' : own cfg p -> sound cfg (u_fs d) ->
  open_write process_uid process_gid p data mode excl (u_fs d) = Ok fs' -> held cfg [(p, NotDir)] (d <| u_fs := fs' |>).
Proof.
  intros Ho Hs E. assert (Hw : writable_at cfg [p] p) by (apply own_writable; [by left|done]).
  pose proof (open_write_confined cfg [p] _ _ _ _ _ _ _ _ Hw Hs E) as [Hs' _].
  destruct (open_write_file cfg _ _ _ _ _ _ _ _ (inside_guarded _ _ (proj1 Ho)) Hs (proj2 Ho) E) as (e' & He' & Hd').
  split; [done|]. apply List.Forall_cons; [|apply List.Forall_nil]. intros e0 He0. simpl in *.
  rewrite below_root in He0 by apply Ho. congruence.
Qed.

Lemma keeps_rewrite p data : own cfg p -> keeps (held cfg [(p, NotDir)]) (file_Write p data).
Proof.
  intros Ho w [Hf Hd]. unfold file_Write, os_write. rewrite os_call_run by done.
  destruct (open_write _ _ _ _ _ _ _) as [fs'|e] eqn:E; simpl; [|by split]. split; [done|].
  eapply written_file; [exact Ho|apply Hd|exact E].
Qed.

(** A worker that finds no lock leaves none behind, however its run ends. *)
Theorem lock_released w :
  w_faults w = [] -> sound cfg (u_fs (w_db w)) -> UpdateEnabled cfg = true ->
  find_path (u_fs (w_db w)) (lockPath cfg) = None ->
  find_path (u_fs (w_db (snd (runWorker cfg w)))) (lockPath cfg) = None.
Proof.
  intros Hf Hs He Hl. set (J := dirs_only (u_fs (w_db w)) (u_calls (w_db w))). pose proof lock_own as Ho.
  pose proof lock_beside as Hbeside. pose proof (lock_framed NotDir) as Hframed.
  set (P := lockPath cfg) in *. set (Q := fun (_ : Res unit) d => find_path (u_fs d) P = None).
  assert (HJ : forall d, J d -> find_path (u_fs d) P = None) by (intros d (_ & _ & Hq); by rewrite Hq).
  assert (Hr : runs J (runWorker cfg) Q); [|by destruct (Hr w)].
  unfold runWorker. rewrite He. apply runs_then; [apply keeps_runtime_dirs|intros ? d; apply HJ|]. intros _.
  eapply runs_attempt_then with (P := fun r d => match r with
    | Ok _ => held cfg [(P, NotDir)] d | Fail _ => find_path (u_fs d) P = None end).
  - apply runs_os_write. intros d Hd. destruct (open_write _ _ _ _ _ _ _) as [fs'|e] eqn:E; [|by apply HJ].
    eapply written_file; [exact Ho|apply Hd|exact E].
  - intros [[]|e]; [|destruct (Is_Exist e); [by apply runs_ret|by apply runs_throw]].
    apply runs_sure; [apply keeps_now|by eexists|]. intros now.
    apply runs_sure; [by apply keeps_ignore, keeps_rewrite|apply ignore_ok|]. intros _. unfold deferred.
    apply runs_sure; [|apply attempt_ok|].
    + eapply keeps_attempt, confined_keeps; [|apply (confined_serve_first (requestDir cfg :: serve_areas))|exact Hframed];
        [done|intros x; by right|by left].
    + intros r. eapply runs_bind with (R := fun _ => held cfg [(P, absent)]).
      { eapply runs_weaken; [apply (Remove_runs (machine := machine) cfg [] P Ho (List.Forall_nil _))|by intros [a|e]]. }
      intros ?. apply runs_of_res. intros d [_ Hd]. inversion_clear Hd as [|? ? Hc _]. specialize (Hc []).
      unfold claim in Hc. simpl in Hc. unfold Q. by rewrite <- below_root by apply Ho.
Qed.
End Serve.

(** ** What the updater verifies, and that its waits end

    The payload that is unpacked has the checksum that a signed list gives for
    it (update/worker.go), and the rounds that the polling loops are given are
    enough for a clock that advances with their pauses. *)

Section Verified.
Context {env : Env} {machine : Machine} (cfg : UpdateConfig).

Lemma os_read_ok {A} what (f : FS -> Res A) w a w' : os_read what f w = (Ok a, w') ->
  f (u_fs (w_db w)) = Ok a /\ u_fs (w_db w') = u_fs (w_db w).
Proof.
  unfold os_read, os_call. destruct w as [d fl t u tr]. simpl.
  destruct fl as [|[] fl]; try done; destruct (f (u_fs d)); try done; by intros [= -> <-].
Qed.

Lemma of_res_ok {DB A} (r : Res A) (w : World DB) a w' : of_res r w = (Ok a, w') -> r = Ok a /\ w' = w.
Proof. unfold of_res. destruct r; [by intros [= -> ->]|done]. Qed.

(** A signature that a list of keys accepts is accepted by one of them. *)
Lemma verify_any_ok keys message signature : verify_any keys message signature = Ok tt ->
  exists key pub, In key keys /\ decodePublicKey key = Ok pub /\ ed25519_Verify pub message signature = true.
Proof.
  induction keys as [|key keys IH]; simpl; [done|]. destruct (decodePublicKey key) as [pub|e] eqn:Ek; [|done].
  destruct (ed25519_Verify pub message signature) eqn:Ev.
  - intros _. exists key, pub. by split_and!; [left| |].
  - intros H. destruct (IH H) as (k & p & Hk & Hp & Hv). exists k, p. by split_and!; [right| |].
Qed.

(** What the files of a run say of the archive. *)
Definition signed_by (message : string) (signature_file : string) : Prop :=
  exists key pub signature, In key (UpdateSigningPublicKeys cfg) /\ decodePublicKey key = Ok pub
    /\ decodeSignaturePayload signature_file = Ok signature /\ ed25519_Verify pub message signature = true.

Definition listed (checksums archive name : string) : Prop :=
  listed_checksum (Split checksums (ascii_of 10)) name <> ""
  /\ EqualFold (TrimSpace (listed_checksum (Split checksums (ascii_of 10)) name)) (sha256_hex archive) = true.

Lemma verify_signature_ok checksumPath signaturePath w w' :
  verifyChecksumSignature checksumPath signaturePath (UpdateSigningPublicKeys cfg) w = (Ok tt, w') ->
  u_fs (w_db w') = u_fs (w_db w) /\ exists message raw,
    read_file checksumPath (u_fs (w_db w)) = Ok message /\ read_file signaturePath (u_fs (w_db w)) = Ok raw
    /\ signed_by message raw.
Proof.
  unfold verifyChecksumSignature. destruct (UpdateSigningPublicKeys cfg) as [|k ks] eqn:Ek; [done|]. rewrite <- Ek.
  intros H. apply bind_ok in H as (message & w1 & H1 & H). apply bind_ok in H as (raw & w2 & H2 & H).
  apply bind_ok in H as (signature & w3 & H3 & H). apply os_read_ok in H1 as [H1 E1]. apply os_read_ok in H2 as [H2 E2].
  apply of_res_ok in H3 as [H3 ->]. apply of_res_ok in H as [H ->]. rewrite E1 in *. split; [congruence|].
  exists message, raw. split_and!; [done|done|]. apply verify_any_ok in H as (key & pub & Hk & Hp & Hv).
  by exists key, pub, signature.
Qed.

Lemma verify_checksum_ok checksumPath archivePath name w w' :
  verifyChecksumFile checksumPath archivePath name w = (Ok tt, w') ->
  u_fs (w_db w') = u_fs (w_db w) /\ exists checksums archive,
    read_file checksumPath (u_fs (w_db w)) = Ok checksums /\ read_file archivePath (u_fs (w_db w)) = Ok archive
    /\ listed checksums archive name.
Proof.
  unfold verifyChecksumFile. intros H. apply bind_ok in H as (checksums & w1 & H1 & H).
  apply os_read_ok in H1 as [H1 E1]. cbv zeta in H. destruct (String.eqb_spec (listed_checksum (Split checksums (ascii_of 10)) name) "") as [|Hne]; [done|].
  apply bind_ok in H as (archive & w2 & H2 & H). apply os_read_ok in H2 as [H2 E2].
  destruct (EqualFold _ _) eqn:Ef; [|done]. injection H as <-. rewrite E1 in *. split; [congruence|].
  exists checksums, archive. by split_and!.
Qed.

Lemma download_https url dest w w' : downloadAsset cfg url dest w = (Ok tt, w') -> url_Scheme url = "https".
Proof. unfold downloadAsset. destruct (String.eqb_spec (url_Scheme url) "https"); [done|by intros [=]]. Qed.

(** C13. Nothing is unpacked that was not verified: when the archive of a run is
    unpacked, its bytes have the checksum that the list of checksums beside it
    gives for its name; if the configuration requires signatures, one of its
    keys has signed that list; and all of it came over https. *)
Theorem unpacked_is_verified runWork name archiveURL checksumURL signatureURL w root w' :
  fetch_payload cfg runWork name archiveURL checksumURL signatureURL w = (Ok root, w') ->
  exists w1 w2 checksums archive,
    extractTarGz (join runWork name) (join runWork "extract") w1 = (Ok tt, w2)
    /\ read_file (join runWork "checksums.txt") (u_fs (w_db w1)) = Ok checksums
    /\ read_file (join runWork name) (u_fs (w_db w1)) = Ok archive
    /\ listed checksums archive name
    /\ url_Scheme archiveURL = "https" /\ url_Scheme checksumURL = "https"
    /\ (UpdateRequireSignature cfg = true -> url_Scheme signatureURL = "https" /\ exists raw,
          read_file (join runWork (TrimSpace (UpdateSignatureAsset cfg))) (u_fs (w_db w1)) = Ok raw
          /\ signed_by checksums raw).
Proof.
  unfold fetch_payload. cbv zeta. intros H.
  apply bind_ok in H as ([] & w1 & Ha & H). apply bind_ok in H as ([] & w2 & Hc & H).
  apply bind_ok in H as ([] & w3 & Hs & H). apply bind_ok in H as ([] & w4 & Hv & H).
  apply bind_ok in H as ([] & w5 & Hx & H).
  apply verify_checksum_ok in Hv as (E & checksums & archive & Hsums & Harch & Hlisted).
  exists w4, w5, checksums, archive. rewrite E. split_and!; [done|done|done|done|by eapply download_https|by eapply download_https|].
  intros Hreq. rewrite Hreq in Hs. simpl in Hs. apply bind_ok in Hs as ([] & w2' & Hd & Hsig). split; [by eapply download_https|].
  apply verify_signature_ok in Hsig as (E' & message & raw & Hm & Hraw & Hby). rewrite E' in *.
  rewrite Hsums in Hm. injection Hm as <-. by exists raw.
Qed.
End Verified.

(** ** The waits *)

Section Waits.
Context {env : Env} {machine : Machine}.

Lemma all_ok_tick base endpoints w : w_tick (snd (all_ok base endpoints w)) = w_tick w
  /\ exists b, fst (all_ok base endpoints w) = Ok b.
Proof.
  revert w. induction endpoints as [|ep endpoints IH]; intros w; cbn [all_ok]; [split; [done|by eexists]|].
  rewrite bind_attempt. set (r := http_Do _ _ w). assert (Hr : w_tick (snd r) = w_tick w).
  { unfold r, http_Do, bind, out_call. by destruct (http_result _ _ _). }
  destruct (fst r) as [resp|e]; [|split; [exact Hr|by eexists]].
  destruct (negb _); [split; [exact Hr|by eexists]|]. rewrite <- Hr. apply IH.
Qed.

(** A clock that passes at least [pause] between two looks at it. *)
Definition advances (pause : Z) : Prop := forall n, env_now n + pause <= env_now (S n).

Definition health_failed : GoErr := ErrText "health checks failed after restart".

(** One round. *)
Lemma poll_health_round base deadline w : exists b w1 w2 w3, w_tick w3 = S (w_tick w) /\
  forall n, poll_health n base deadline w =
    if (b : bool) then (Ok tt, w1)
    else if deadline <? env_now (w_tick w) then (Fail health_failed, w2)
    else match n with O => (Fail health_failed, w3) | S n' => poll_health n' base deadline w3 end.
Proof.
  destruct (all_ok_tick base ["/health/live"; "/api/v1/setup/status"] w) as (Ht & b & Hb).
  destruct (all_ok base ["/health/live"; "/api/v1/setup/status"] w) as [r w1] eqn:Ew. simpl in Ht, Hb. subst r.
  exists b, w1, (snd (time_Now w1)), (snd (time_Sleep health_pause (snd (time_Now w1)))).
  destruct w1 as [d fl t u tr]. simpl in Ht. subst t. split; [done|].
  intros n. assert (H : poll_health n base deadline w = (if b then ret tt else
      let! now := time_Now in
      if deadline <? now then throw health_failed
      else do! time_Sleep health_pause in
           match n with O => throw health_failed | S n' => poll_health n' base deadline end)
    (mkWorld d fl (w_tick w) u tr)); [|rewrite H; destruct b; [done|]].
  - destruct n; cbn [poll_health]; erewrite bind_eq by exact Ew; done.
  - rewrite (bind_eq time_Now _ _ (env_now (w_tick w)) (snd (time_Now (mkWorld d fl (w_tick w) u tr)))) by done.
    destruct (_ <? _); [done|]. erewrite bind_eq by reflexivity. by destruct n.
Qed.

(** More rounds than it takes to pass the deadline change nothing. *)
Lemma poll_health_rounds base deadline : advances health_pause -> forall n k w,
  deadline < env_now (w_tick w) + Z.of_nat n * health_pause ->
  poll_health (n + k) base deadline w = poll_health n base deadline w.
Proof.
  intros Hadv n k. induction n as [|n IH]; intros w Hd;
    destruct (poll_health_round base deadline w) as (b & w1 & w2 & w3 & Ht & Hround); rewrite !Hround;
    destruct b; try done; destruct (Z.ltb_spec deadline (env_now (w_tick w))); try done; [lia|].
  apply IH. rewrite Ht. specialize (Hadv (w_tick w)). lia.
Qed.

(** The check of the service ends by its deadline, with the rounds it is given
    here: more of them would make no difference. *)
Theorem health_check_ends start base k w :
  advances health_pause -> start <= env_now (w_tick w) ->
  poll_health (health_rounds + k) base (start + 40 * Second) w
  = poll_health health_rounds base (start + 40 * Second) w.
Proof. intros Ha Hs. apply poll_health_rounds; [done|]. unfold health_rounds, health_pause, Second. lia. Qed.
End Waits.
