(* ===== verification/UpdateAtomic.v ===== *)
(** * UpdateAtomic: the files the server and the worker leave for each other

    update/state.go and types.go: what is written with MarshalIndent is read
    back, so that the worker serves the request that was queued. *)

From S2P Require Import Prelude Unicode GoStrings Effects GoStd GoText Json Models Mfa GoFmt FileSystem.
From S2P Require Import GoTime UpdateHost UpdateModels UpdateRuntime UpdateFiles UpdateWorker UpdateTree.
From S2P Require Import UpdateConfined UpdateRollback UpdateRestore UpdateStage UpdateQueue.
Local Open Scope Z_scope.

(** ** Structs with line ends *)

Definition line_runes (kv : string * JSONValue) : list Z :=
  [10; 32; 32] ++ text_runes (fst kv) ++ [58; 32] ++ value_runes (snd kv).
Definition lines_runes (kv : string * JSONValue) (kvs : list (string * JSONValue)) : list Z :=
  line_runes kv ++ flat_map (fun kv => 44 :: line_runes kv) kvs ++ [10; 125].

Lemma encode_line_runes kv :
  encode_runes (line_runes kv) = [10; 32; 32] ++ json_string (fst kv) ++ [58; 32] ++ json_value (snd kv).
Proof. unfold line_runes. by rewrite !encode_runes_app, encode_text_runes, encode_value_runes. Qed.

Lemma encode_lines_runes kv kvs :
  of_bytes (encode_runes (123 :: lines_runes kv kvs ++ [10])) = json_indented (kv :: kvs).
Proof.
  unfold json_indented, lines_runes. f_equal. change (123 :: ?l) with ([123] ++ l).
  rewrite !encode_runes_app, encode_line_runes.
  erewrite encode_runes_flat_map; [by rewrite <- !app_assoc|]. intros kv' _.
  change (44 :: ?l) with ([44] ++ l). rewrite encode_runes_app, encode_line_runes. reflexivity.
Qed.

Lemma line_runes_valid kv : forallb valid_rune (line_runes kv) = true.
Proof.
  unfold line_runes. rewrite !forallb_app, text_runes_valid.
  by rewrite value_runes_valid.
Qed.

Lemma lines_runes_valid kv kvs : forallb valid_rune (123 :: lines_runes kv kvs ++ [10]) = true.
Proof.
  unfold lines_runes. cbn [forallb]. rewrite !forallb_app, line_runes_valid. cbn [forallb andb].
  rewrite !andb_true_r. change (valid_rune 123) with true. cbn [andb]. induction kvs as [|kv' kvs IH]; [done|].
  cbn [flat_map app forallb]. rewrite forallb_app, line_runes_valid. exact IH.
Qed.

Lemma parse_lines_back kvs : forall kv n l,
  (length kvs < n)%nat -> forallb (fun kv => readable (snd kv)) (kv :: kvs) = true ->
  parse_fields (S n) (lines_runes kv kvs ++ l) = Some (map read_back (kv :: kvs), l).
Proof.
  induction kvs as [|kv' kvs IH]; intros kv n l Hn Hr; cbn [forallb] in Hr; apply andb_true_iff in Hr as [Hv Hr].
  - destruct n as [|n]; [simpl in Hn; lia|]. unfold lines_runes, line_runes.
    rewrite <- !app_assoc.
    change (text_runes (fst kv) ++ ?k) with (34 :: (tail (text_runes (fst kv)) ++ k)).
    cbn [parse_fields app skip_blanks Z.eqb Pos.eqb orb]. rewrite string_runes_text.
    cbn [mbind option_bind app flat_map skip_blanks Z.eqb Pos.eqb orb].
    change (parse_value (S n) (32 :: ?k)) with (parse_value (S n) k).
    rewrite parse_value_back by done. done.
  - destruct n as [|n]; [simpl in Hn; lia|]. unfold lines_runes, line_runes at 1.
    rewrite <- !app_assoc.
    change (text_runes (fst kv) ++ ?k) with (34 :: (tail (text_runes (fst kv)) ++ k)).
    cbn [parse_fields app skip_blanks Z.eqb Pos.eqb orb]. rewrite string_runes_text.
    cbn [mbind option_bind app flat_map skip_blanks Z.eqb Pos.eqb orb].
    change (parse_value (S n) (32 :: ?k)) with (parse_value (S n) k).
    rewrite parse_value_back by done. cbn [mbind option_bind skip_blanks Z.eqb Pos.eqb orb].
    specialize (IH kv' n l ltac:(simpl in Hn; lia) Hr). unfold lines_runes in IH.
    rewrite <- !app_assoc in IH. rewrite <- !app_assoc.
    cbn [parse_fields app] in IH. cbn [app]. rewrite IH. done.
Qed.

(** [Unmarshal] of an indented struct gives its fields back. *)
Lemma json_indented_back kv kvs :
  forallb (fun kv => readable (snd kv)) (kv :: kvs) = true ->
  json_unmarshal (json_indented (kv :: kvs)) = Some (JObject (map read_back (kv :: kvs))).
Proof.
  intros Hr. unfold json_unmarshal. rewrite <- encode_lines_runes.
  change (runes (of_bytes (encode_runes ?l))) with (runes (of_runes l)).
  rewrite runes_of_runes by apply lines_runes_valid.
  assert (Hlen : (length kvs + 2 < 2 * length (123%Z :: lines_runes kv kvs ++ [10%Z]))%nat).
  { unfold lines_runes. rewrite length_cons, !length_app.
    clear Hr. generalize (length (line_runes kv)) as m. intros m.
    induction kvs as [|k kvs IH]; simpl in *; [lia|]. rewrite ?length_app in *. simpl in *. lia. }
  unfold json_fuel. destruct (2 * _)%nat as [|[|n]]; [lia|lia|].
  cbn [parse_value skip_blanks Z.eqb Pos.eqb orb].
  pose proof (parse_lines_back kvs kv (S n) [10] ltac:(lia) Hr) as H.
  unfold lines_runes at 1. unfold line_runes at 1. cbn [app skip_blanks Z.eqb Pos.eqb orb].
  change (skip_blanks (text_runes (fst kv) ++ ?k)) with (34 :: (tail (text_runes (fst kv)) ++ k)).
  cbv iota. rewrite H. done.
Qed.

(** The texts of a request as a JSON file can hold them. *)
Definition clean_request (r : ApplyRequest) : ApplyRequest :=
  mkApplyRequest (clean (rq_RequestID r)) (rq_RequestedAt r) (clean (rq_RequestedBy r)) (clean (rq_Mode r))
    (clean (rq_TargetVersion r)).

(** The worker reads the request that the server wrote. *)
Theorem request_back r raw : apply_request_json r = Ok raw -> decode_apply_request raw = Ok (clean_request r).
Proof.
  unfold apply_request_json, marshal. destruct (forallb _ _) eqn:Hw; [|done]. intros [= <-].
  simpl in Hw. rewrite andb_true_r in Hw. apply year_writable_iff in Hw.
  pose proof (parse_rfc3339nano _ Hw) as Hp. pose proof (rfc3339nano_clean _ Hw) as Hc.
  destruct r as [id t who mode target]. cbn [rq_RequestID rq_RequestedAt rq_RequestedBy rq_Mode rq_TargetVersion] in *.
  unfold decode_apply_request, decode_struct, request_fields, text_field, time_field, text_omitempty.
  cbn [rq_RequestID rq_RequestedAt rq_RequestedBy rq_Mode rq_TargetVersion app].
  set (date := rfc3339nano t) in *. clearbody date.
  destruct (String.eqb_spec mode "") as [->|Hm], (String.eqb_spec target "") as [->|Ht]; cbn [app];
    rewrite json_indented_back by done; cbn [map forallb]; unfold read_back; cbn [fst snd]; rewrite ?Hc;
    change (clean "request_id") with "request_id"; change (clean "requested_at") with "requested_at";
    change (clean "requested_by") with "requested_by"; change (clean "mode") with "mode";
    change (clean "target_version") with "target_version"; fields; done.
Qed.

(** * UpdateAtomic: a JSON file is replaced at once or not at all

    writeJSONAtomic and readJSONFile (update/state.go), the files through which
    the server and the worker talk. *)

Section Atomic.
Context {env : Env} {machine : Machine} (cfg : UpdateConfig) {others : Foreign cfg}.

(** [m] changes nothing at [q], whatever fails. *)
Definition leaves_be {A} (q : Path) (m : UDB A) : Prop := forall w, sound cfg (u_fs (w_db w)) ->
  sound cfg (u_fs (w_db (snd (m w)))) /\ find_path (u_fs (w_db (snd (m w)))) q = find_path (u_fs (w_db w)) q.

Lemma be_bind {A B} q (m : UDB A) (f : A -> UDB B) : leaves_be q m -> (forall a, leaves_be q (f a)) ->
  leaves_be q (bind m f).
Proof.
  intros Hm Hf w Hs. unfold bind. destruct (Hm w Hs) as [Hs1 E1]. destruct (m w) as [[a|e] w1]; simpl in *; [|done].
  destruct (Hf a w1 Hs1). split; [done|congruence].
Qed.

Lemma be_attempt {A} q (m : UDB A) : leaves_be q m -> leaves_be q (attempt m).
Proof. intros Hm w Hs. rewrite attempt_eq. by apply Hm. Qed.

Lemma be_confined {A} areas q (m : UDB A) : confined cfg areas m -> off areas q = true -> inside cfg q = true ->
  leaves_be q m.
Proof.
  intros Hm Ho Hi w Hs. destruct (Hm w Hs) as (Hs' & Hsame & _). split; [done|]. apply Hsame; [done|].
  by apply (guarded_native cfg), inside_guarded.
Qed.

Lemma be_read {A} q what (f : FS -> Res A) : leaves_be q (os_read what f).
Proof.
  intros [d fl t u tr] Hs. unfold os_read, os_call. destruct fl as [|[] fl]; simpl; try done; by destruct (f (u_fs d)).
Qed.

Lemma be_ret {A} q (a : A) : leaves_be q (ret a).
Proof. by intros w. Qed.
Lemma be_throw {A} q e : leaves_be (A := A) q (throw e).
Proof. by intros w. Qed.

Lemma be_write q what (f : FS -> Res FS) :
  (forall fs fs', sound cfg fs -> f fs = Ok fs' -> sound cfg fs' /\ find_path fs' q = find_path fs q) ->
  leaves_be q (os_write what f).
Proof.
  intros H [d fl t u tr] Hs. unfold os_write, os_call. destruct fl as [|[] fl]; simpl; try done;
    destruct (f (u_fs d)) eqn:E; try done; by apply H.
Qed.

Lemma be_mkdir q p mode : under q p = false -> leaves_be q (os_MkdirAll p mode).
Proof.
  intros Hq. apply be_write. intros fs fs' Hs H. unfold MkdirAll in H.
  assert (Hroot : inside cfg [] = true -> exists e, lookup_path fs [] = Some e /\ is_dir e = true) by (intros _; by eexists).
  destruct (make_dirs_sound cfg _ _ _ _ _ _ _ Hs Hroot H) as [Hs' Hsame]. split; [done|]. by apply Hsame.
Qed.

Lemma be_chmod q p mode : own cfg p -> p <> q -> leaves_be q (os_Chmod p mode).
Proof.
  intros Ho Hne w Hs. assert (Hw : writable_at cfg [p] p) by (apply own_writable; [by left|done]).
  split; [apply (confined_Chmod cfg [p] p mode Hw w Hs)|].
  refine (proj2 (be_write q _ (Chmod p mode) _ w Hs)). clear w Hs. intros fs fs' Hs H.
  destruct (confined_Chmod (machine := machine) cfg [p] p mode Hw (mkWorld (mkUpdateDB empty_db fs [] []) [] 0%nat 0%nat []) Hs) as (Hs' & _ & _).
  unfold os_Chmod, os_write in Hs'. rewrite os_call_run in Hs' by done. simpl in Hs'. rewrite H in Hs'.
  split; [exact Hs'|]. unfold Chmod, change in H. rewrite (guarded_follow cfg) in H by (done || by apply inside_guarded, Ho).
  destruct (lookup_path fs p); [|done]. injection H as <-. rewrite find_put.
  by rewrite (proj2 (path_eqb_neq p q)).
Qed.

Lemma os_write_ok what (f : FS -> Res FS) w w' : os_write what f w = (Ok tt, w') -> f (u_fs (w_db w)) = Ok (u_fs (w_db w')).
Proof.
  unfold os_write, os_call. destruct w as [d fl t u tr]. simpl.
  destruct fl as [|[] fl]; try done; destruct (f (u_fs d)); try done; by intros [= <-].
Qed.

Section File.
Context (p : Path) (Hp : own cfg p) (Hpar : own cfg (parent p)).

Lemma tmp_apart : apart (tmp_path p ".tmp") p = true.
Proof.
  destruct (split_parent p (proj2 Hp)) as [c Hc]. rewrite Hc, tmp_path_snoc, apart_app. unfold apart, under. simpl.
  assert (Hne : (c +:+ ".tmp") <> c).
  { intros H. apply (f_equal (fun s => length (bytes s))) in H. rewrite bytes_app, length_app in H. simpl in H. lia. }
  rewrite (proj2 (String.eqb_neq _ _) Hne), (proj2 (String.eqb_neq _ _) (not_eq_sym Hne)). done.
Qed.

Lemma tmp_own : own cfg (tmp_path p ".tmp").
Proof.
  destruct (split_parent p (proj2 Hp)) as [c Hc]. 
  assert (Ht : tmp_path p ".tmp" = parent p ++ [c +:+ ".tmp"]) by (rewrite Hc at 1; apply tmp_path_snoc).
  rewrite Ht. split; [by apply inside_app, Hpar|]. by destruct (parent p).
Qed.

(** What comes before the new file is written beside the old one. *)
Definition make_room (parentMode : Z) : UDB unit :=
  do! rejectSymlink p in
  do! os_MkdirAll (parent p) parentMode in
  tolerate isUpdaterPermissionError (os_Chmod (parent p) parentMode).

Lemma room_be pm : leaves_be p (make_room pm).
Proof.
  unfold make_room. apply be_bind.
  { unfold rejectSymlink, os_Lstat. apply be_bind; [apply be_attempt, be_read|]. intros [e|e].
    - destruct (is_link e); [apply be_throw|apply be_ret].
    - destruct (Is_NotExist e); [apply be_ret|apply be_throw]. }
  destruct (split_parent p (proj2 Hp)) as [c Hc].
  assert (Hlen : length p = S (length (parent p))) by (rewrite Hc at 1; rewrite length_app; simpl; lia).
  intros _. apply be_bind.
  { apply be_mkdir. destruct (under p (parent p)) eqn:E; [|done]. apply under_iff in E as [r E].
    apply (f_equal length) in E. rewrite length_app in E. lia. }
  intros _. unfold tolerate. apply be_bind; [apply be_attempt, be_chmod; [done|]|].
  - intros H. rewrite H in Hlen. lia.
  - intros [[]|e]; [apply be_ret|]. destruct (isUpdaterPermissionError e); [apply be_ret|apply be_throw].
Qed.

Lemma tmp_be raw mode : leaves_be p (os_WriteFile (tmp_path p ".tmp") raw mode).
Proof.
  apply (be_confined [tmp_path p ".tmp"]); [|unfold off; simpl; by rewrite tmp_apart|apply Hp].
  apply confined_WriteFile, own_writable; [by left|apply tmp_own].
Qed.

Lemma write_split raw mode pm w : writeJSONAtomic p (Ok raw) mode pm w
  = bind (make_room pm) (fun _ => bind (os_WriteFile (tmp_path p ".tmp") raw mode) (fun _ => os_Rename (tmp_path p ".tmp") p)) w.
Proof.
  unfold writeJSONAtomic, make_room. cbv zeta. unfold bind, of_res, ret.
  destruct (rejectSymlink p w) as [[]  w1]; [|done]. destruct (os_MkdirAll _ _ w1) as [[] w2]; [|done].
  by destruct (tolerate _ _ w2) as [[] w3].
Qed.

Lemma open_write_content uid gid q data mode excl fs fs' : guarded cfg q = true -> sound cfg fs -> q <> [] ->
  open_write uid gid q data mode excl fs = Ok fs' -> exists e, find_path fs' q = Some e /\ e_kind e = KFile data.
Proof.
  intros Hg Hs Hne. unfold open_write. destruct (excl && _); [done|]. rewrite (guarded_follow cfg) by done.
  destruct (lookup_path fs q) as [e|].
  - destruct (is_dir e); [done|]. intros [= <-]. rewrite find_put, path_eqb_refl. by eexists.
  - destruct (Stat (parent q) fs) as [ep|]; [|done]. destruct (is_dir ep); [|done]. intros [= <-].
    rewrite find_put, path_eqb_refl. by eexists.
Qed.

Lemma tmp_written raw mode w w' : sound cfg (u_fs (w_db w)) -> os_WriteFile (tmp_path p ".tmp") raw mode w = (Ok tt, w') ->
  exists e, find_path (u_fs (w_db w')) (tmp_path p ".tmp") = Some e /\ e_kind e = KFile raw.
Proof.
  intros Hs H. unfold os_WriteFile in H. apply bind_ok in H as ([] & w1 & H1 & H).
  assert (Hw : writable_at cfg [tmp_path p ".tmp"] (tmp_path p ".tmp")) by (apply own_writable; [by left|apply tmp_own]).
  destruct (confined_Create cfg _ _ mode Hw w Hs) as (Hs1 & _ & _). rewrite H1 in Hs1.
  apply os_write_ok in H. eapply open_write_content; [| |apply tmp_own|exact H]; [apply inside_guarded, tmp_own|exact Hs1].
Qed.

Lemma renamed_entry fs fs' : Rename (tmp_path p ".tmp") p fs = Ok fs' ->
  find_path fs' p = find_path fs (tmp_path p ".tmp").
Proof.
  intros H. pose proof tmp_apart as Ha.
  assert (Hm : fs' = move_tree (tmp_path p ".tmp") p fs -> find_path fs' p = find_path fs (tmp_path p ".tmp")).
  { intros ->. pose proof (below_moved (tmp_path p ".tmp") p fs [] Ha) as Hb.
    rewrite !below_root in Hb by (apply Hp || apply tmp_own). exact Hb. }
  unfold Rename in H. destruct (lookup_path fs (tmp_path p ".tmp")) as [es|]; [|done].
  destruct (lookup_path fs p) as [ed|].
  - destruct (path_eqb (tmp_path p ".tmp") p) eqn:Eq.
    { apply path_eqb_eq in Eq. rewrite Eq in Ha. unfold apart in Ha. by rewrite under_refl in Ha. }
    destruct (is_dir ed); [done|]. destruct (is_dir es); [done|]. injection H as <-. by apply Hm.
  - destruct (under _ p); [done|]. destruct (lookup_path fs (parent p)) as [ep|]; [|done].
    destruct (is_dir ep); [|done]. injection H as <-. by apply Hm.
Qed.

(** Whatever system call fails while it is written, a JSON file holds the new
    text in full or is what it was, and it holds the new text if no error is
    reported. *)
Theorem write_atomic raw mode pm w :
  sound cfg (u_fs (w_db w)) ->
  let '(r, w') := writeJSONAtomic p (Ok raw) mode pm w in
  let old := find_path (u_fs (w_db w)) p in
  let new := find_path (u_fs (w_db w')) p in
  sound cfg (u_fs (w_db w'))
  /\ match r with
     | Ok _ => exists e, new = Some e /\ e_kind e = KFile raw
     | Fail _ => new = old
     end.
Proof.
  intros Hs. rewrite write_split. unfold bind at 1. destruct (room_be pm w Hs) as [Hs1 E1].
  destruct (make_room pm w) as [[a|e] w1]; [|done]. simpl in Hs1, E1. unfold bind.
  destruct (tmp_be raw mode w1 Hs1) as [Hs2 E2]. pose proof (tmp_written raw mode w1) as Hw.
  destruct (os_WriteFile _ _ _ w1) as [[[]|e] w2]; simpl in Hs2, E2; [|split; [done|congruence]].
  destruct (Hw w2 Hs1 eq_refl) as (e & He & Hk).
  assert (Hwr : forall q, own cfg q -> In q [tmp_path p ".tmp"; p] -> writable_at cfg [tmp_path p ".tmp"; p] q).
  { intros q Hq Hin. by apply own_writable. }
  destruct (confined_Rename cfg [tmp_path p ".tmp"; p] (tmp_path p ".tmp") p) with (w := w2) as (Hs3 & _ & _);
    [apply Hwr; [apply tmp_own|by left]|apply Hwr; [exact Hp|by right; left]|apply tmp_own|exact Hs2|].
  destruct (os_Rename _ p w2) as [[[]|e'] w3] eqn:E3; simpl in Hs3; (split; [exact Hs3|]).
  - apply os_write_ok, renamed_entry in E3. rewrite E3. by exists e.
  - unfold os_Rename, os_write, os_call in E3. destruct w2 as [d fl t u tr]. simpl in *.
    destruct fl as [|[] fl]; try (destruct (Rename _ _ _)); simplify_eq; simpl; congruence.
Qed.

(** C17. The worker reads the request that the server has queued. *)
Theorem request_handed_over r raw mode pm w w' w0 :
  sound cfg (u_fs (w_db w)) -> apply_request_json r = Ok raw -> writeJSONAtomic p (Ok raw) mode pm w = (Ok tt, w') ->
  w_faults w0 = [] -> u_fs (w_db w0) = u_fs (w_db w') ->
  fst (readJSONFile decode_apply_request p w0) = Ok (clean_request r).
Proof.
  intros Hs Hraw H Hf E. pose proof (write_atomic raw mode pm w Hs) as Hw. rewrite H in Hw.
  destruct Hw as (Hs' & e & He & Hk). rewrite <- E in *.
  assert (Hl : lookup_path (u_fs (w_db w0)) p = Some e) by by rewrite lookup_find by apply Hp.
  destruct (read_json_run cfg decode_apply_request p w0 Hf Hs' (inside_guarded _ _ (proj1 Hp))) as (w1 & _ & _ & ->); [by exists e|].
  unfold read_file. rewrite (guarded_Stat cfg) by (done || by apply inside_guarded, Hp). rewrite Hl.
  destruct e as [k m u g]. simpl in Hk. subst k. by apply request_back.
Qed.
End File.
End Atomic.
