(* ===== verification/UpdateServer.v ===== *)
(** * UpdateServer: the server's half of the updater asks, the worker acts

    update/manager.go runs in the server.  Whatever it does, it writes in the
    base directory of the updater only: it never touches the installation or
    the unit files.  A request it accepts is on disk. *)

From S2P Require Import Prelude GoStrings Effects GoStd GoText Json MessageIds Models Users Sessions Mfa.
From S2P Require Import GoFmt FileSystem GoTime UpdateHost UpdateModels UpdateRuntime UpdateFiles.
From S2P Require Import UpdateVerify UpdateApply UpdateManager UpdateWorker UpdateTree UpdateConfined.
From S2P Require Import UpdateRollback UpdateRestore UpdateUndo UpdateStage UpdateSafety UpdateQueue.
From S2P Require Import UpdateAtomic.
Local Open Scope Z_scope.

Section Posts.
Context {env : Env} {machine : Machine}.

(** What an action answers when it succeeds. *)
Definition always_answers {A} (m : UDB A) (P : A -> Prop) : Prop := forall w a w', m w = (Ok a, w') -> P a.

Lemma answers_bind {A B} (m : UDB A) (f : A -> UDB B) (P : A -> Prop) (Q : B -> Prop) :
  always_answers m P -> (forall a, P a -> always_answers (f a) Q) -> always_answers (bind m f) Q.
Proof. intros Hm Hf w b w' H. apply bind_ok in H as (a & w1 & Ha & Hb). eapply Hf; [by eapply Hm|exact Hb]. Qed.

Lemma answers_any {A B} (m : UDB A) (f : A -> UDB B) (Q : B -> Prop) :
  (forall a, always_answers (f a) Q) -> always_answers (bind m f) Q.
Proof. intros H. eapply answers_bind with (P := fun _ => True); [done|]. intros a _. apply H. Qed.

Lemma answers_ret {A} (a : A) (P : A -> Prop) : P a -> always_answers (ret a) P.
Proof. intros H w b w' [= <- _]. exact H. Qed.
Lemma answers_throw {A} e (P : A -> Prop) : always_answers (throw e) P.
Proof. by intros w b w' H. Qed.

Lemma answers_pending cfg : always_answers (pendingRequestPaths cfg) (Forall (in_queue cfg)).
Proof. intros w l w'. apply pending_names. Qed.

Lemma answers_read_pending cfg paths : Forall (in_queue cfg) paths ->
  always_answers (read_pending paths) (Forall (fun pd => in_queue cfg (pd_Path pd))).
Proof.
  induction 1 as [|p paths Hp _ IH]; simpl; [by apply answers_ret|]. apply answers_any. intros [req|e].
  - eapply answers_bind; [exact IH|]. intros rest Hr. apply answers_ret. by constructor.
  - destruct (Is_NotExist e); [exact IH|]. eapply answers_bind; [exact IH|]. intros rest Hr. apply answers_ret. by constructor.
Qed.

Lemma answers_requests cfg : always_answers (pendingRequests cfg) (Forall (fun pd => in_queue cfg (pd_Path pd))).
Proof. unfold pendingRequests. eapply answers_bind; [apply answers_pending|]. intros l. apply answers_read_pending. Qed.

Lemma answers_stale cfg rec pending : Forall (fun pd => in_queue cfg (pd_Path pd)) pending ->
  always_answers (stale_prepares rec pending) (fun r => match r with Some l => Forall (in_queue cfg) l | None => True end).
Proof.
  induction 1 as [|pd pending Hp _ IH]; cbn [stale_prepares]; [by apply answers_ret|]. cbv zeta.
  destruct (negb _); [exact IH|]. destruct (_ && _); [exact IH|]. apply answers_any. intros requestedAt.
  apply answers_any. intros [|]; [by apply answers_ret|]. eapply answers_bind; [exact IH|].
  intros [l|] Hl; apply answers_ret; [by constructor|done].
Qed.
End Posts.

Section Server.
Context {env : Env} {machine : Machine} (cfg : UpdateConfig) {others : Foreign cfg} `{!Layout cfg machine_arch}.

Abbreviation areas := [UpdateBaseDir cfg].

Lemma confined_answers {A B} (m : UDB A) (f : A -> UDB B) (P : A -> Prop) : confined cfg areas m -> always_answers m P ->
  (forall a, P a -> confined cfg areas (f a)) -> confined cfg areas (bind m f).
Proof. intros Hm HP Hf. by apply (confined_bind_post cfg areas m f P). Qed.

Lemma base_in r : in_areas areas (UpdateBaseDir cfg ++ r) = true.
Proof. unfold in_areas. simpl. by rewrite under_app. Qed.

Lemma base_writable r : writable_at cfg areas (UpdateBaseDir cfg ++ r).
Proof. split; [apply base_in|apply inside_guarded, inside_base]. Qed.

Lemma queue_path p : in_queue cfg p -> exists c, p = UpdateBaseDir cfg ++ ["request"; c].
Proof. intros (c & Hc & _ & ->). exists c. by apply request_path. Qed.

Lemma contract_path spec : In spec (updaterDirContract cfg) -> exists r, ds_path spec = UpdateBaseDir cfg ++ r.
Proof.
  unfold updaterDirContract, requestDir, statusDir, lockDir, workDir, backupsDir. rewrite !join_valid by done.
  intros H. simpl in H. rewrite <- (app_nil_r (UpdateBaseDir cfg)) in H at 1.
  repeat destruct H as [<-|H]; [..|done]; by eexists.
Qed.

Lemma confined_dirs strict owner specs : incl specs (updaterDirContract cfg) ->
  confined cfg areas (ensure_dirs strict owner specs).
Proof.
  induction specs as [|spec specs IH]; intros Hi; simpl; [apply confined_ret|].
  destruct (contract_path spec (Hi _ (or_introl eq_refl))) as [r Hr]. rewrite Hr.
  apply confined_bind; [apply confined_MkdirAll, base_in|]. intros _.
  apply confined_bind; [apply confined_tolerate, confined_Chmod, base_writable|]. intros _.
  apply confined_bind; [destruct owner; [apply confined_Chown, base_writable|apply confined_ret]|]. intros _.
  apply IH. intros x Hx. apply Hi. by right.
Qed.

(** A JSON file of the updater. *)
Lemma confined_json dir name payload mode pm : valid_name dir = true -> valid_name name = true ->
  confined cfg areas (writeJSONAtomic (join (join (UpdateBaseDir cfg) dir) name) payload mode pm).
Proof.
  intros Hd Hn. rewrite !join_valid by done. eapply (confined_writeJSON cfg areas (UpdateBaseDir cfg)); [by left| | |].
  - rewrite <- (app_nil_r (UpdateBaseDir cfg)). apply inside_base.
  - apply strictly_snoc, under_app.
  - left. rewrite parent_app. apply strictly_snoc, under_refl.
Qed.

Lemma confined_write_status st : confined cfg areas (write_status cfg st).
Proof. by apply confined_json. Qed.
Lemma confined_write_record rec : confined cfg areas (write_record cfg rec).
Proof. by apply confined_json. Qed.

Lemma confined_despatch_readable name : valid_name name = true ->
  confined cfg areas (ensureDespatchReadable (join (statusDir cfg) name)).
Proof.
  intros Hn. unfold statusDir. rewrite !join_valid by done. rewrite <- app_assoc.
  unfold ensureDespatchReadable, lookupDespatchGroupID. destruct (negb _); [apply confined_Chmod, base_writable|].
  apply confined_bind; [destruct despatch_gid; confined_walk|]. intros gid.
  apply confined_bind; [apply confined_Chown, base_writable|]. intros _. apply confined_Chmod, base_writable.
Qed.

Lemma confined_auto_state rec : confined cfg areas (writeAutoUpdateState cfg rec).
Proof.
  unfold writeAutoUpdateState. apply confined_bind; [apply confined_write_record|]. intros _.
  by apply confined_tolerate, confined_despatch_readable.
Qed.

(** *** Readings *)

Lemma confined_read_json {A} (decode : string -> Res A) p : confined cfg areas (readJSONFile decode p).
Proof. unfold readJSONFile, rejectSymlink, os_Lstat, os_ReadFile. confined_walk. Qed.
#[local] Hint Resolve confined_read_json : confined.
Lemma confined_readAuto p : confined cfg areas (readAutoUpdateState p).
Proof. unfold readAutoUpdateState. confined_walk. Qed.
Lemma confined_readStatus p : confined cfg areas (readApplyStatusTolerant p).
Proof. unfold readApplyStatusTolerant, readApplyStatus. confined_walk. Qed.
Lemma confined_pending : confined cfg areas (pendingRequestPaths cfg).
Proof. unfold pendingRequestPaths, glob_requests, os_Stat, os_ReadDir. confined_walk. Qed.
#[local] Hint Resolve confined_readAuto confined_readStatus confined_pending : confined.
Lemma confined_read_pending paths : confined cfg areas (read_pending paths).
Proof. induction paths as [|p paths IH]; simpl; confined_walk; exact IH. Qed.
#[local] Hint Resolve confined_read_pending : confined.
Lemma confined_requests : confined cfg areas (pendingRequests cfg).
Proof. unfold pendingRequests. confined_walk. Qed.
Lemma confined_stale rec pending : confined cfg areas (stale_prepares rec pending).
Proof. induction pending as [|pd pending IH]; cbn [stale_prepares]; unfold os_Stat; confined_walk; exact IH. Qed.
Lemma confined_staleStatus r st : confined cfg areas (staleQueuedApplyStatus r st).
Proof. unfold staleQueuedApplyStatus. confined_walk. Qed.
Lemma confined_path_states n : forall p, confined cfg areas (path_states n p).
Proof. induction n as [|n IH]; intros p; simpl; unfold os_Stat; confined_walk; apply IH. Qed.
#[local] Hint Resolve confined_requests confined_stale confined_staleStatus confined_path_states : confined.
Lemma confined_unit_marker p a b c : confined cfg areas (unit_marker p a b c).
Proof. unfold unit_marker, os_Stat. confined_walk. Qed.
Lemma confined_writable p stage : confined cfg areas (checkWritablePath cfg p stage).
Proof. unfold checkWritablePath, describePathState, os_Stat. confined_walk. Qed.
#[local] Hint Resolve confined_unit_marker confined_writable : confined.
Lemma confined_configuration r : confined cfg areas (configurationStatus cfg r).
Proof. unfold configurationStatus. cbn [first_diagnostic]. confined_walk. Qed.

Lemma confined_query {A} (f : Database -> Res A) : confined cfg areas (on_db (query f)).
Proof. apply confined_on_db. change (calm (query f)). apply calm_query. Qed.
Lemma confined_getSetting k : confined cfg areas (getSetting k).
Proof. pose proof @confined_query. unfold getSetting, GetSetting. confined_walk. Qed.
Lemma confined_enabled : confined cfg areas autoUpdateEnabled.
Proof. pose proof @confined_query. unfold autoUpdateEnabled, GetSetting. confined_walk. Qed.
Lemma confined_put k v : confined cfg areas (put_setting k v).
Proof. apply confined_put_setting. Qed.
#[local] Hint Resolve confined_configuration confined_getSetting confined_enabled confined_put : confined.
Lemma confined_shouldRefresh : confined cfg areas (shouldRefresh cfg).
Proof. unfold shouldRefresh. confined_walk. Qed.
Lemma confined_refresh : confined cfg areas (refreshLatest cfg).
Proof. unfold refreshLatest. confined_walk. Qed.
Lemma confined_latest_info : confined cfg areas latest_release_info.
Proof. unfold latest_release_info. confined_walk. Qed.
Lemma confined_record_tolerant : confined cfg areas (read_record_tolerant cfg).
Proof. unfold read_record_tolerant. confined_walk. Qed.
#[local] Hint Resolve confined_shouldRefresh confined_refresh confined_latest_info confined_record_tolerant
  confined_write_status confined_write_record confined_auto_state : confined.

(** *** Requests that were not picked up *)

Lemma confined_remove_paths paths : Forall (in_queue cfg) paths -> confined cfg areas (remove_paths paths).
Proof.
  induction 1 as [|p paths Hp _ IH]; simpl; [apply confined_ret|]. destruct (queue_path p Hp) as [c ->].
  apply confined_bind; [apply confined_tolerate, confined_Remove, base_writable|]. intros _. exact IH.
Qed.

Lemma confined_removePending : confined cfg areas (removePendingRequestPaths cfg).
Proof. eapply confined_answers; [apply confined_pending|apply answers_pending|apply confined_remove_paths]. Qed.

Lemma confined_recoverApply r st : confined cfg areas (recoverStaleQueuedApply cfg r st).
Proof.
  unfold recoverStaleQueuedApply. apply confined_bind; [apply confined_staleStatus|]. intros next.
  destruct (_ && _); [apply confined_ret|]. apply confined_bind; [apply confined_removePending|]. intros _.
  apply confined_bind; [apply confined_write_status|]. intros _.
  apply confined_bind; [by apply confined_ignore, confined_despatch_readable|]. confined_walk.
Qed.

Lemma confined_recoverPrepare r : confined cfg areas (recoverStaleAutoPrepare cfg r).
Proof.
  unfold recoverStaleAutoPrepare, permission_ends. apply confined_bind; [confined_walk|]. intros [rec|e]; [|confined_walk].
  destruct (negb _); [confined_walk|].
  apply (confined_answers _ _ (fun r => match r with Ok l => Forall (fun pd => in_queue cfg (pd_Path pd)) l | Fail _ => True end));
    [confined_walk| |].
  - intros w l w'. rewrite attempt_eq. intros [= <- _]. destruct (pendingRequests cfg w) as [[l|e] w1] eqn:E; [|done].
    eapply answers_requests, E.
  - intros [pending|e] Hp; [|confined_walk]. eapply confined_answers; [apply confined_stale|by apply answers_stale|].
    intros [[|p l]|] Hl; [confined_walk| |confined_walk].
    apply confined_bind; [by apply confined_remove_paths|]. intros _. apply confined_auto_state.
Qed.
#[local] Hint Resolve confined_recoverApply confined_recoverPrepare : confined.

(** *** Queueing *)

Lemma padded_free n : - 2 ^ 63 <= n < 2 ^ 63 -> free_of slash (zero_padded 20 n).
Proof.
  intros Hn. destruct (digits_decimal 20 (Z.abs n)) as (_ & Hall & _); [lia|].
  assert (H : Forall (fun b => 45 <= b <= 57 /\ b <> 47) ((if n <? 0 then [45] else [])
    ++ repeat 48 (20 - length (if n <? 0 then [45] else []) - length (digits 20 (Z.abs n))) ++ digits 20 (Z.abs n))).
  { apply Forall_app. split; [destruct (n <? 0); repeat constructor; lia|]. apply Forall_app. split.
    - apply List.Forall_forall. intros b Hb%repeat_spec. lia.
    - rewrite forallb_forall in Hall. apply List.Forall_forall. intros b Hb. specialize (Hall b Hb).
      unfold is_digit in Hall. breflect. lia. }
  unfold zero_padded. cbv zeta. apply free_bytes. rewrite bytes_of_bytes.
  - rewrite List.Forall_forall in H. intros Hin. by destruct (H _ Hin).
  - eapply List.Forall_impl; [|exact H]. simpl. lia.
Qed.

Lemma int64_range n : - 2 ^ 63 <= int64 n < 2 ^ 63.
Proof. unfold int64. pose proof (Z.mod_pos_bound (n + 2 ^ 63) (2 ^ 64) ltac:(lia)). lia. Qed.

Lemma answers_queue_path req : always_answers (requestQueuePath req cfg) (in_queue cfg).
Proof.
  unfold requestQueuePath. cbv zeta. apply answers_any. intros ts. apply answers_ret. eexists. split; [|split; [|reflexivity]].
  2: { apply orb_true_iff. right. unfold queue_name. rewrite HasPrefix_app.
       assert (Ha : forall a b c d e : string, a +:+ b +:+ c +:+ d +:+ e = (a +:+ b +:+ c +:+ d) +:+ e).
       { intros. by rewrite !str_append_assoc. }
       rewrite Ha. apply HasSuffix_app. }
  apply valid_name_intro; [|done]. apply free_app. split; [literal_free|]. apply free_app.
  split; [apply padded_free, int64_range|]. apply free_app. split; [literal_free|].
  apply free_app. split; [|literal_free]. destruct (String.eqb _ ""); [literal_free|apply sanitize_free].
Qed.

Lemma confined_or_failed {A} (m : UDB A) : confined cfg areas m -> confined cfg areas (or_request_failed m).
Proof. intros Hm. unfold or_request_failed, ErrQueue. apply confined_bind; [by apply confined_attempt|]. confined_walk. Qed.

Lemma or_failed_ok {A} (m : UDB A) w a w' : or_request_failed m w = (Ok a, w') -> m w = (Ok a, w').
Proof.
  unfold or_request_failed, ErrQueue. unfold bind. rewrite attempt_eq. destruct (m w) as [[b|e] w1]; simpl; [|done].
  by intros [= -> ->].
Qed.

(** The request and, when it asks for an installation, the status. *)
Definition leave_request (req : ApplyRequest) (mode : string) : UDB ApplyRequest :=
  let! reqQueuePath := requestQueuePath req cfg in
  do! or_request_failed
        (writeJSONAtomic reqQueuePath (apply_request_json req) 416 (updaterDirModeForPath cfg (requestDir cfg) 488)) in
  do! when (String.eqb mode ApplyModeApply)
        (or_request_failed
           (write_status cfg
              (no_status <| as_State := ApplyStateQueued |> <| as_RequestID := rq_RequestID req |>
                         <| as_RequestedAt := rq_RequestedAt req |>
                         <| as_TargetVersion := rq_TargetVersion req |>))) in
  ret req.

Lemma confined_leave req mode : confined cfg areas (leave_request req mode).
Proof.
  unfold leave_request. eapply confined_answers; [unfold requestQueuePath; cbv zeta; confined_walk|apply answers_queue_path|].
  intros p (c & Hc & _ & ->). apply confined_bind; [by apply confined_or_failed, confined_json|]. intros _.
  apply confined_bind; [|confined_walk]. apply confined_when. intros _. apply confined_or_failed, confined_write_status.
Qed.

Lemma confined_request_dirs : confined cfg areas (ensureUpdaterRequestStatusDirectories cfg).
Proof.
  unfold ensureUpdaterRequestStatusDirectories, ensureUpdaterDirSpecs.
  apply confined_dirs. intros x Hx. unfold updaterRequestStatusContract, updaterDirContract in *. simpl in *. tauto.
Qed.

Lemma confined_queue by_ target id mode : confined cfg areas (queueRequest cfg by_ target id mode).
Proof.
  unfold queueRequest. apply confined_bind; [confined_walk|]. intros runtime.
  apply confined_bind; [by apply confined_or_failed, confined_recoverPrepare|]. intros _.
  apply confined_bind; [by apply confined_or_failed, confined_readStatus|]. intros st.
  apply confined_bind; [by apply confined_or_failed, confined_recoverApply|]. intros current.
  apply confined_bind; [confined_walk|]. intros conf. destruct (_ || _); [confined_walk|]. cbv zeta.
  destruct (_ && _); [confined_walk|]. apply confined_bind; [confined_walk|]. intros rid.
  destruct (apply_busy current); [confined_walk|]. apply confined_bind; [apply confined_or_failed, confined_pending|].
  intros [|q l]; [|confined_walk]. apply confined_bind; [confined_walk|]. intros now.
  apply confined_bind; [|intros _; exact (confined_leave _ _)].
  apply confined_or_failed, confined_request_dirs.
Qed.
#[local] Hint Resolve confined_queue : confined.

(** *** The page and the tick *)

Lemma confined_Status force : confined cfg areas (Status cfg force).
Proof. unfold Status. confined_walk. Qed.

Lemma confined_audit a b c d : confined cfg areas (on_db (InsertAudit a b c d)).
Proof. apply confined_on_db. change (calm (InsertAudit a b c d)). unfold InsertAudit. calm_walk. Qed.
Lemma confined_upsert k v : confined cfg areas (on_db (UpsertSetting k v)).
Proof. apply confined_on_db. change (calm (UpsertSetting k v)). unfold UpsertSetting. calm_walk. Qed.
#[local] Hint Resolve confined_Status confined_audit confined_upsert : confined.

Lemma confined_SetAutomatic actor b : confined cfg areas (SetAutomaticEnabled cfg actor b).
Proof. unfold SetAutomaticEnabled, PersistAutomaticPreference. confined_walk. Qed.
Lemma confined_Cancel actor : confined cfg areas (CancelScheduledUpdate cfg actor).
Proof. unfold CancelScheduledUpdate. confined_walk. Qed.
Lemma confined_tick : confined cfg areas (AutomaticTick cfg).
Proof. unfold AutomaticTick, tick_enabled, tick_pending, start_prepare, tick_failed. confined_walk. Qed.

(** What the server does with the updater. *)
Inductive ServerCall : Type :=
| CallStatus (force : bool)
| CallQueue (requestedBy targetVersion requestID mode : string)
| CallSetAutomatic (actor : string) (enabled : bool)
| CallCancel (actor : string)
| CallTick.

Definition serve_call (c : ServerCall) : UDB unit :=
  match c with
  | CallStatus force => let! _st := Status cfg force in ret tt
  | CallQueue by_ target id mode => let! _req := queueRequest cfg by_ target id mode in ret tt
  | CallSetAutomatic actor enabled => let! _st := SetAutomaticEnabled cfg actor enabled in ret tt
  | CallCancel actor => let! _st := CancelScheduledUpdate cfg actor in ret tt
  | CallTick => AutomaticTick cfg
  end.

Definition serve_calls (l : list ServerCall) : UDB unit := for_each (fun c => ignore (serve_call c)) l.

(** C12. The server cannot touch the installation: whatever it is asked to do with
    the updater, and whatever fails, no entry outside the updater's base
    directory changes, but for what other programs write. *)
Theorem server_confined l w q :
  sound cfg (u_fs (w_db w)) -> apart (UpdateBaseDir cfg) q = true -> foreign cfg q = false ->
  find_path (u_fs (w_db (snd (serve_calls l w)))) q = find_path (u_fs (w_db w)) q.
Proof.
  intros Hs Ha Hq. assert (Hc : confined cfg areas (serve_calls l)).
  { pose proof confined_SetAutomatic. pose proof confined_Cancel. pose proof confined_tick.
    apply confined_for_each. intros c _. apply confined_ignore. destruct c; simpl; confined_walk. }
  destruct (Hc w Hs) as (_ & H & _). apply H; [|done]. unfold off. simpl. by rewrite Ha.
Qed.

Lemma written_ok p payload mode pm w w' : writeJSONAtomic p payload mode pm w = (Ok tt, w') ->
  exists raw, payload = Ok raw.
Proof.
  unfold writeJSONAtomic. cbv zeta. intros H. do 3 (apply bind_ok in H as (? & ? & _ & H)).
  apply bind_ok in H as (raw & w1 & Hr & _). apply of_res_ok in Hr as [Hr _]. by exists raw.
Qed.

Lemma left_request r mode w r' w' : sound cfg (u_fs (w_db w)) -> leave_request r mode w = (Ok r', w') ->
  r' = r /\ exists p raw e, in_queue cfg p /\ apply_request_json r = Ok raw
    /\ find_path (u_fs (w_db w')) p = Some e /\ e_kind e = KFile raw.
Proof.
  intros Hs H. unfold leave_request in H. apply bind_ok in H as (p & w1 & Hp & H).
  assert (Hs1 : sound cfg (u_fs (w_db w1))).
  { assert (Hc : confined cfg areas (requestQueuePath r cfg)) by (unfold requestQueuePath; cbv zeta; confined_walk).
    destruct (Hc w Hs) as [Hs1 _]. by rewrite Hp in Hs1. }
  apply answers_queue_path in Hp. destruct (queue_path p Hp) as [c Hpath].
  assert (Hnil : UpdateBaseDir cfg <> []) by exact (base_nonempty cfg).
  assert (Ho : own cfg p) by (rewrite Hpath; split; [apply inside_base|by destruct (UpdateBaseDir cfg)]).
  assert (Hpar : own cfg (parent p)).
  { replace p with ((UpdateBaseDir cfg ++ ["request"]) ++ [c]) by (by rewrite Hpath, <- app_assoc).
    rewrite parent_app. split; [apply inside_base|by destruct (UpdateBaseDir cfg)]. }
  apply bind_ok in H as ([] & w2 & Hw & H). apply or_failed_ok in Hw.
  destruct (written_ok _ _ _ _ _ _ Hw) as [raw Hraw]. rewrite Hraw in Hw.
  pose proof (write_atomic cfg p Ho Hpar raw 416 (updaterDirModeForPath cfg (requestDir cfg) 488) w1 Hs1) as Ha.
  rewrite Hw in Ha. destruct Ha as (Hs2 & e & He & Hk).
  apply bind_ok in H as ([] & w3 & Hstatus & H). injection H as <- <-. split; [done|].
  exists p, raw, e. split_and!; [done|done| |done].
  assert (Hbe : leaves_be cfg p (when (String.eqb mode ApplyModeApply) (or_request_failed (write_status cfg
    (no_status <| as_State := ApplyStateQueued |> <| as_RequestID := rq_RequestID r |>
       <| as_RequestedAt := rq_RequestedAt r |> <| as_TargetVersion := rq_TargetVersion r |>))))).
  { apply (be_confined cfg [statusDir cfg]).
    - apply confined_when. intros _. unfold or_request_failed, ErrQueue. apply confined_bind; [|confined_walk].
      apply confined_attempt. apply (confined_status_write cfg [statusDir cfg]); [by left|done].
    - unfold off, statusDir. simpl. rewrite Hpath, base_dir, apart_app by done. reflexivity.
    - apply Ho. }
  destruct (Hbe w2 Hs2) as [_ E]. rewrite Hstatus in E. simpl in E. by rewrite E.
Qed.

(** A request that the server accepts lies in the queue, in full, and asks for
    what the caller asked for. *)
Theorem accepted_is_queued by_ target id mode w req w' :
  sound cfg (u_fs (w_db w)) -> queueRequest cfg by_ target id mode w = (Ok req, w') ->
  rq_TargetVersion req = TrimSpace target /\ rq_Mode req = normalizeApplyMode mode
  /\ rq_RequestedBy req = TrimSpace by_
  /\ (rq_TargetVersion req = "" \/ target_ok (rq_TargetVersion req) = true)
  /\ exists p raw e, in_queue cfg p /\ apply_request_json req = Ok raw
       /\ find_path (u_fs (w_db w')) p = Some e /\ e_kind e = KFile raw.
Proof.
  intros Hs H. unfold queueRequest in H.
  assert (Hnext : forall {A B} (m : UDB A) (k : A -> UDB B) w b w', confined cfg areas m -> sound cfg (u_fs (w_db w)) ->
    bind m k w = (Ok b, w') -> exists a w1, sound cfg (u_fs (w_db w1)) /\ k a w1 = (Ok b, w')).
  { intros A B m k w1 b w2 Hm Hs1 Hb. apply bind_ok in Hb as (a & w3 & Ha & Hb). exists a, w3. split; [|done].
    destruct (Hm w1 Hs1) as [Hs3 _]. by rewrite Ha in Hs3. }
  apply Hnext in H as (runtime & w1 & Hs1 & H); [|confined_walk|done].
  apply Hnext in H as (? & w2 & Hs2 & H); [|by apply confined_or_failed, confined_recoverPrepare|done].
  apply Hnext in H as (st & w3 & Hs3 & H); [|by apply confined_or_failed, confined_readStatus|done].
  apply Hnext in H as (current & w4 & Hs4 & H); [|by apply confined_or_failed, confined_recoverApply|done].
  apply Hnext in H as (conf & w5 & Hs5 & H); [|confined_walk|done].
  destruct (_ || _); [done|]. cbv zeta in H. destruct (negb (String.eqb (TrimSpace target) "") && _) eqn:Et; [done|].
  apply Hnext in H as (rid & w6 & Hs6 & H); [|confined_walk|done].
  destruct (apply_busy current); [done|].
  apply Hnext in H as ([|q l] & w7 & Hs7 & H); [|done|by apply confined_or_failed, confined_pending|done].
  apply Hnext in H as (now & w8 & Hs8 & H); [|confined_walk|done].
  set (r := mkApplyRequest _ _ _ _ _) in H.
  apply Hnext in H as (? & w9 & Hs9 & H); [|by apply confined_or_failed, confined_request_dirs|done].
  destruct (left_request r (normalizeApplyMode mode) w9 req w' Hs9 H) as [-> Hleft]. split_and!; [done|done|done| |done].
  simpl. destruct (String.eqb_spec (TrimSpace target) ""); [by left|right]. simpl in Et. by apply negb_false_iff in Et.
Qed.
End Server.
