(* ===== verification/UpdateCases.v ===== *)
(** * UpdateCases: the theorems at work on a machine with one release to install

    An installation of version v1.0.0 in /opt/despatch, and a release v1.1.0
    whose archive the machine's servers hand out.  [healthy] says whether the
    service answers after its restart, [broken] which command of systemctl
    fails. *)

From S2P Require Import Prelude GoStrings Effects GoStd GoText Json MessageIds Models Users Mfa Sample GoFmt.
From S2P Require Import FileSystem GoTime UpdateHost UpdateModels UpdateRuntime UpdateFiles UpdateVerify.
From S2P Require Import UpdateApply UpdateManager UpdateWorker UpdateTree UpdateConfined UpdateRollback.
From S2P Require Import UpdateRestore UpdateSafety UpdateQueue UpdateAtomic UpdateServer.
Local Open Scope Z_scope.

(** Go source text with double quotes. *)
Definition quoted (s : string) : string := of_bytes (map (fun b => if b =? 39 then 34 else b) (bytes s)).

Definition update_cfg : UpdateConfig :=
  mkUpdateConfig true "2high4schooltoday" "despatch" 60 "" 3 ["var"; "update"] ["opt"; "despatch"] "despatch"
    ["etc"; "systemd"] true "checksums.txt.sig" ["AAAAAAAAAAAAAAAAAAAAAAAAAAAAAAAAAAAAAAAAAAA="] false "" ":8080"
    "/var/app.db".

Definition archive_name : string := "despatch-linux-amd64.tar.gz".

Definition release_json : string := quoted
  "{'tag_name':'v1.1.0','name':'1.1','published_at':'2024-05-01T10:00:00Z','html_url':'https://h/r','assets':[{'name':'despatch-linux-amd64.tar.gz','browser_download_url':'https://h/a'},{'name':'checksums.txt','browser_download_url':'https://h/c'},{'name':'checksums.txt.sig','browser_download_url':'https://h/s'}]}".

Definition checksums_text : string := sha256_hex "ARCHIVE" +:+ "  " +:+ archive_name +:+ of_bytes [10].
Definition signature_text : string := base64_encode (repeat 7 64) +:+ "==".

Definition http_ok (body : string) : string + HTTPResponse := inr (mkHTTPResponse 200 "" body None).

Definition service_unit (exec : string) : string := lines_text ["[Service]"; "ExecStart=" +:+ exec].

Definition release_entries : list TarEntry :=
  [ mkTarEntry "despatch" TypeReg 493 "bin2"; mkTarEntry "despatch-pam-reset-helper" TypeReg 493 "pam2";
    mkTarEntry "despatch-update-worker" TypeReg 493 "worker2"; mkTarEntry "web/" TypeDir 493 "";
    mkTarEntry "web/index.html" TypeReg 420 "page2"; mkTarEntry "migrations/" TypeDir 493 "";
    mkTarEntry "migrations/001.sql" TypeReg 420 "sql2"; mkTarEntry "deploy" TypeDir 493 "";
    mkTarEntry "deploy/despatch-updater.service" TypeReg 420 (service_unit "/opt/despatch/despatch-update-worker run");
    mkTarEntry "deploy/despatch-updater.path" TypeReg 420 "path2" ].

(** What systemctl answers. *)
Definition systemctl (broken : string) (args : list string) : string * option string :=
  match args with
  | "show" :: prop :: _ :: unit :: _ =>
      if String.eqb unit "despatch-mailsec.service" then ("not-found", None)
      else if String.eqb prop "--property=LoadState" then ("loaded", None)
      else if String.eqb prop "--property=ActiveState" then ("active", None)
      else ("", None)
  | verb :: _ => if String.eqb verb broken then ("no", Some "exit status 1") else ("", None)
  | [] => ("", None)
  end.

Definition update_machine (healthy : bool) (broken : string) : Machine := {|
  machine_os := "linux"; machine_arch := "amd64"; process_id := 42; process_uid := 0; process_gid := 0;
  process_groups := None; getenv := fun _ => ""; despatch_gid := Some 990; local_offset := fun _ => 0;
  linked_version := "v1.0.0"; linked_commit := ""; linked_build_time := ""; linked_repo := "";
  file_time := fun _ _ => 0;
  command_result := fun _ _ args => systemctl broken args;
  http_result := fun _ url _ =>
    if HasPrefix url "https://api.github.com" then http_ok release_json
    else if String.eqb url "https://h/a" then http_ok "ARCHIVE"
    else if String.eqb url "https://h/c" then http_ok checksums_text
    else if String.eqb url "https://h/s" then http_ok signature_text
    else if healthy then http_ok "ok" else inl "connection refused";
  database_opens := fun _ => true;
  leaves := fun _ _ => [];
  read_archive := fun data => if String.eqb data "ARCHIVE" then mkArchive None release_entries None
                              else mkArchive (Some "gzip: invalid header") [] None;
  ed25519_Verify := fun key msg sig => bool_decide (sig = repeat 7 64) && String.eqb msg checksums_text |}.

(** Two seconds pass between two looks at the clock, for a day. *)
#[export] Instance update_env : Env := {|
  env_now n := (1714600000 + Z.min (2 * Z.of_nat n) 86400) * Second; env_uuid n := "id"; env_rand n := Ok "r";
  env_reply _ _ := None |}.

Definition dir_entry : Entry := mkEntry KDir 493 0 0.
Definition file_entry (data : string) : Entry := mkEntry (KFile data) 420 0 0.

Definition installed_fs : FS :=
  map (fun de => (["opt"; "despatch"] ++ fst de, snd de))
    [ ([], dir_entry); (["despatch"], file_entry "bin1"); (["despatch-pam-reset-helper"], file_entry "pam1");
      (["despatch-update-worker"], file_entry "worker1"); (["web"], dir_entry);
      (["web"; "index.html"], file_entry "page1"); (["migrations"], dir_entry);
      (["migrations"; "001.sql"], file_entry "sql1"); (["deploy"], dir_entry);
      (["deploy"; "despatch-updater.service"], file_entry "unit1") ]
  ++ [ (["opt"], dir_entry); (["etc"], dir_entry); (["etc"; "systemd"], dir_entry);
       (["etc"; "systemd"; "despatch-updater.path"], file_entry "path1");
       (["etc"; "systemd"; "despatch-updater.service"],
        file_entry (service_unit "/opt/despatch/despatch-update-worker"));
       (["var"], dir_entry); (["var"; "update"], dir_entry); (["var"; "update"; "request"], dir_entry);
       (["var"; "update"; "status"], dir_entry); (["var"; "update"; "lock"], dir_entry);
       (["var"; "update"; "work"], dir_entry); (["var"; "update"; "backups"], dir_entry) ].

Definition update_world (fs : FS) : World UpdateDB := mkWorld (mkUpdateDB sample_db fs [] []) [] 0 0 [].

Definition queue_then_work {machine : Machine} : UDB unit :=
  do! QueueApply update_cfg "admin" "v1.1.0" "run-1" in runWorker update_cfg.

Definition fs_after (machine : Machine) (m : UDB unit) : FS := u_fs (w_db (snd (m (update_world installed_fs)))).

Definition contents (fs : FS) (p : Path) : option string :=
  match read_file p fs with Ok s => Some s | Fail _ => None end.
Definition opt (name : list string) : Path := ["opt"; "despatch"] ++ name.

Definition final_state (fs : FS) : option (string * string * string) :=
  match contents fs (statusPath update_cfg) with
  | Some raw => match decode_status raw with
                | Ok st => Some (as_State st, as_RequestID st, as_ToVersion st) | Fail _ => None end
  | None => None
  end.

(** * UpdateCases: the theorems on the updater at work

    Each theorem on the updater, applied to the machine above: its
    hypotheses hold there, and runs of the whole updater end as they say. *)

(** ** The hypotheses hold *)

Lemma find_in fs q e : find_path fs q = Some e -> In (q, e) fs.
Proof.
  induction fs as [|[q' e'] fs IH]; simpl; [done|]. destruct (path_eqb q' q) eqn:E; [|by right; apply IH].
  apply path_eqb_eq in E as ->. intros [= ->]. by left.
Qed.

Definition soundb (fs : FS) : bool :=
  forallb (fun qe => negb (is_link (snd qe))
    && match fst qe with
       | [] => true
       | q => match lookup_path fs (parent q) with Some e => is_dir e | None => false end
       end) fs.

Lemma soundb_sound cfg fs : soundb fs = true -> sound cfg fs.
Proof.
  unfold soundb. rewrite forallb_forall. intros H. split.
  - intros q e _ Hq. apply find_in, H in Hq. simpl in Hq. apply andb_true_iff in Hq as [Hq _]. by apply negb_true_iff in Hq.
  - intros p c e _ Hq. apply find_in, H in Hq. apply andb_true_iff in Hq as [_ Hq]. cbn [fst] in Hq.
    destruct (p ++ [c]) as [|a l] eqn:E; [by destruct p|]. rewrite <- E, parent_app in Hq.
    destruct (lookup_path fs p) as [e'|]; [|done]. by exists e'.
Qed.

#[export] Instance no_others healthy broken : @Foreign (update_machine healthy broken) update_cfg.
Proof. refine {| foreign := fun _ => false |}; done. Defined.

#[export] Instance update_layout : Layout update_cfg "amd64".
Proof. constructor; vm_compute; done. Qed.

Lemma installed_sound : sound update_cfg installed_fs.
Proof. apply soundb_sound. vm_compute. reflexivity. Qed.

Lemma clock_writable n : writable (env_now n).
Proof. unfold writable, env_now, update_env, Second. lia. Qed.

(** ** The theorems *)

Section Cases.

(** A service that does not answer: the release is rolled back. *)
Definition sick : Machine := update_machine false "".
Definition sick_request : ApplyRequest := mkApplyRequest "run-1" (env_now 0) "admin" "apply" "v1.1.0".

Abbreviation sick_run := (@applyRelease update_env sick update_cfg sick_request (update_world installed_fs)).

Lemma sick_outcome : match sick_run with (Ok o, _) => o_rolled_back o | _ => false end = true.
Proof. vm_compute. reflexivity. Qed.

Example rolled_back_restores_witness :
  match sick_run with
  | (Ok o, w') => below (u_fs (w_db w')) (opt ["web"]) ["index.html"] = Some (file_entry "page1")
  | _ => False
  end.
Proof.
  pose proof sick_outcome as Ho. destruct sick_run as [[o|e] w'] eqn:E; [|discriminate].
  exact (rolled_back_restores (machine := sick) update_cfg sick_request (update_world installed_fs) o w' "web" ["index.html"]
    eq_refl installed_sound E Ho (or_intror (or_intror (or_intror (or_introl eq_refl))))).
Defined.

(** The archive of the release changes nothing in the installation. *)
Abbreviation prepared_run := (@prepareReleasePayload update_env sick update_cfg "v1.1.0" (update_world installed_fs)).

Example prepare_confined_witness :
  find_path (u_fs (w_db (snd prepared_run))) (opt ["despatch"]) = Some (file_entry "bin1").
Proof.
  exact (prepare_confined (machine := sick) update_cfg "v1.1.0" (update_world installed_fs) (opt ["despatch"])
    installed_sound eq_refl eq_refl).
Defined.

(** *** The queue *)

Definition well : Machine := update_machine true "".

Definition queued_path : Path := ["var"; "update"; "request"; "update-request-01714600000000000000-run-1.json"].
Definition queued_request : ApplyRequest := mkApplyRequest "run-1" (env_now 0) "admin" "apply" "v1.1.0".
Definition queued_text : string := match apply_request_json queued_request with Ok raw => raw | Fail _ => "" end.
Definition queued_fs : FS := put queued_path (file_entry queued_text) installed_fs.

Lemma queued_sound : sound update_cfg queued_fs.
Proof. apply soundb_sound. vm_compute. reflexivity. Qed.

Lemma queued_first : fst (firstPendingRequestPath update_cfg (update_world queued_fs)) = Ok queued_path.
Proof. vm_compute. reflexivity. Qed.

Lemma queued_decodes : read_file queued_path queued_fs = Ok queued_text /\ decode_apply_request queued_text <> Fail ErrDate.
Proof. split; [vm_compute; reflexivity|]. vm_compute. discriminate. Qed.

Example serve_consumes_witness :
  lookup_path (u_fs (w_db (snd (@serve_first update_env well update_cfg (update_world queued_fs))))) queued_path = None.
Proof.
  pose proof queued_first as H. destruct (firstPendingRequestPath _ _) as [r w1] eqn:E. cbn [fst] in H. subst r.
  exact (proj1 (proj2 (serve_consumes (machine := well) update_cfg clock_writable (update_world queued_fs) queued_path w1
    queued_text eq_refl queued_sound E (proj1 queued_decodes)) (proj2 queued_decodes))).
Defined.

Definition locked_fs : FS := put (lockPath update_cfg) (file_entry "pid=1") queued_fs.

Lemma locked_sound : sound update_cfg locked_fs.
Proof. apply soundb_sound. vm_compute. reflexivity. Qed.

Lemma request_beside : beside update_cfg queued_path.
Proof. unfold beside. vm_compute. repeat constructor. Qed.

Example lock_excludes_witness :
  find_path (u_fs (w_db (snd (@runWorker update_env well update_cfg (update_world locked_fs))))) queued_path
  = Some (file_entry queued_text).
Proof.
  exact (proj2 (lock_excludes (machine := well) update_cfg (update_world locked_fs) (file_entry "pid=1")
    eq_refl locked_sound eq_refl eq_refl) queued_path request_beside).
Defined.

Example lock_released_witness :
  find_path (u_fs (w_db (snd (@runWorker update_env well update_cfg (update_world queued_fs))))) (lockPath update_cfg) = None.
Proof.
  exact (lock_released (machine := well) update_cfg clock_writable (update_world queued_fs) eq_refl queued_sound eq_refl eq_refl).
Defined.

(** *** Verification *)

Definition run_dir : Path := ["var"; "update"; "work"; "run"].
Abbreviation fetched := (@fetch_payload well update_cfg run_dir archive_name "https://h/a" "https://h/c" "https://h/s"
  (update_world installed_fs)).

Lemma fetched_ok : match fst fetched with Ok _ => true | Fail _ => false end = true.
Proof. vm_compute. reflexivity. Qed.

Example unpacked_is_verified_witness : exists checksums archive, listed checksums archive archive_name.
Proof.
  pose proof fetched_ok as H. destruct fetched as [[root|e] w'] eqn:E; [|discriminate].
  destruct (unpacked_is_verified update_cfg run_dir archive_name "https://h/a" "https://h/c" "https://h/s"
    (update_world installed_fs) root w' E) as (w1 & w2 & checksums & archive & _ & _ & _ & Hl & _).
  exact (ex_intro _ checksums (ex_intro _ archive Hl)).
Defined.

(** *** Waits *)

(** A clock that never stops. *)
Definition running_clock : Env := {|
  env_now n := (1714600000 + 2 * Z.of_nat n) * Second; env_uuid n := "id"; env_rand n := Ok "r";
  env_reply _ _ := None |}.

Lemma running_advances : @advances running_clock health_pause.
Proof. intros n. unfold health_pause, env_now, running_clock, Second. lia. Qed.

Example health_check_ends_witness :
  let start := @env_now running_clock 0 in
  @poll_health running_clock sick (health_rounds + 100) "http://127.0.0.1:8080" (start + 40 * Second) (update_world installed_fs)
  = @poll_health running_clock sick health_rounds "http://127.0.0.1:8080" (start + 40 * Second) (update_world installed_fs).
Proof.
  exact (@health_check_ends running_clock sick (@env_now running_clock 0) "http://127.0.0.1:8080" 100 (update_world installed_fs)
    running_advances (Z.le_refl _)).
Defined.

(** *** Files *)

Lemma status_owned : own update_cfg (statusPath update_cfg) /\ own update_cfg (parent (statusPath update_cfg)).
Proof. split; split; done. Qed.

(** The write of the new text fails, after the file was created beside the old one. *)
Abbreviation torn := (@writeJSONAtomic well (statusPath update_cfg) (Ok "new") 416 488
  (mkWorld (mkUpdateDB sample_db installed_fs [ENOSPC] []) [false; false; false; false; true] 0 0 [])).

Example write_atomic_witness :
  match torn with
  | (Fail _, w') => find_path (u_fs (w_db w')) (statusPath update_cfg) = None
  | (Ok _, w') => exists e, find_path (u_fs (w_db w')) (statusPath update_cfg) = Some e /\ e_kind e = KFile "new"
  end.
Proof.
  pose proof (write_atomic (machine := well) update_cfg (statusPath update_cfg) (proj1 status_owned) (proj2 status_owned)
    "new" 416 488 (mkWorld (mkUpdateDB sample_db installed_fs [ENOSPC] []) [false; false; false; false; true] 0 0 [])
    installed_sound) as H.
  destruct torn as [[[]|e] w']; exact (proj2 H).
Defined.

Example request_back_witness : decode_apply_request queued_text = Ok queued_request.
Proof. exact (request_back queued_request queued_text eq_refl). Defined.

Abbreviation handing_over := (@writeJSONAtomic well queued_path (Ok queued_text) 416 504 (update_world installed_fs)).

Lemma queued_owned : own update_cfg queued_path /\ own update_cfg (parent queued_path).
Proof. split; split; done. Qed.

Lemma handed_over : match fst handing_over with Ok _ => true | Fail _ => false end = true.
Proof. vm_compute. reflexivity. Qed.

Example request_handed_over_witness :
  fst (readJSONFile decode_apply_request queued_path (update_world (u_fs (w_db (snd handing_over))))) = Ok queued_request.
Proof.
  pose proof handed_over as H. destruct handing_over as [[[]|e] w'] eqn:E; [|discriminate].
  exact (request_handed_over (machine := well) update_cfg queued_path (proj1 queued_owned) (proj2 queued_owned)
    queued_request queued_text 416 504 (update_world installed_fs) w' (update_world (u_fs (w_db w')))
    installed_sound eq_refl E eq_refl eq_refl).
Defined.

(** *** The server *)

Example server_confined_witness :
  find_path (u_fs (w_db (snd (@serve_calls update_env well update_cfg
    [CallStatus true; CallQueue "admin" "v1.1.0" "" "apply"; CallTick; CallCancel "admin"] (update_world installed_fs)))))
    (opt ["despatch"]) = Some (file_entry "bin1").
Proof.
  exact (server_confined (machine := well) update_cfg
    [CallStatus true; CallQueue "admin" "v1.1.0" "" "apply"; CallTick; CallCancel "admin"] (update_world installed_fs)
    (opt ["despatch"]) installed_sound eq_refl eq_refl).
Defined.

Abbreviation queueing := (@queueRequest update_env well update_cfg "admin" "v1.1.0" "run-1" "apply" (update_world installed_fs)).

Lemma queueing_ok : match fst queueing with Ok _ => true | Fail _ => false end = true.
Proof. vm_compute. reflexivity. Qed.

Example accepted_is_queued_witness : exists p raw e,
  in_queue update_cfg p /\ find_path (u_fs (w_db (snd queueing))) p = Some e /\ e_kind e = KFile raw.
Proof.
  pose proof queueing_ok as H. destruct queueing as [[req|err] w'] eqn:E; [|discriminate].
  destruct (accepted_is_queued (machine := well) update_cfg "admin" "v1.1.0" "run-1" "apply" (update_world installed_fs) req w'
    installed_sound E) as (_ & _ & _ & _ & p & raw & e & Hp & _ & Hf & Hk).
  exact (ex_intro _ p (ex_intro _ raw (ex_intro _ e (conj Hp (conj Hf Hk))))).
Defined.
End Cases.
