(* ===== verification/MailIndex.v ===== *)
(** * MailIndex: what is known of the messages of an account

    The functions of internal/store/v2_store.go and sync_state.go on
    [message_index], [thread_index], [attachment_index] and [sync_state], with
    the full-text search.  [message_search_fts] is a view here: the triggers of
    migration 008 keep one row of it for each message, with the message's
    texts, and what SQLite's [MATCH] answers on them is the parameter
    [fts_match].  Rows of a table that compare equal in an [ORDER BY] come in
    the order they were inserted. *)

From S2P Require Import Prelude Unicode GoStrings Effects GoStd GoText Json Threading MessageIds Models Users Mfa.
From S2P Require Import MailAccounts Host Identity MailModels Drafts MailSenders DraftSend OutboundStore Outbound.

Local Open Scope Z_scope.

(** ** Data *)

(** A row of [thread_index]. *)
Record ThreadRow : Type := mkThreadRow {
  th_ID : string; th_AccountID : string; th_Mailbox : string; th_SubjectNorm : string;
  th_ParticipantsJSON : string; th_MessageCount : Z; th_UnreadCount : Z; th_HasAttachments :
  bool; th_HasFlagged : bool; th_Importance : Z; th_LatestMessage : string; th_LatestAt : Z;
  th_UpdatedAt : Z
}.
#[export] Instance eta_ThreadRow : Eta ThreadRow := fun r =>
  mkThreadRow (th_ID r) (th_AccountID r) (th_Mailbox r) (th_SubjectNorm r) (th_ParticipantsJSON
     r) (th_MessageCount r) (th_UnreadCount r) (th_HasAttachments r) (th_HasFlagged r)
     (th_Importance r) (th_LatestMessage r) (th_LatestAt r) (th_UpdatedAt r).

Record ThreadSummary : Type := mkThreadSummary {
  ts_ID : string; ts_AccountID : string; ts_Mailbox : string; ts_SubjectNorm : string;
  ts_Participants : list string; ts_MessageCount : Z; ts_UnreadCount : Z; ts_HasAttachments :
  bool; ts_HasFlagged : bool; ts_Importance : Z; ts_LatestMessage : string; ts_LatestAt : Z
}.
#[export] Instance eta_ThreadSummary : Eta ThreadSummary := fun r =>
  mkThreadSummary (ts_ID r) (ts_AccountID r) (ts_Mailbox r) (ts_SubjectNorm r) (ts_Participants
     r) (ts_MessageCount r) (ts_UnreadCount r) (ts_HasAttachments r) (ts_HasFlagged r)
     (ts_Importance r) (ts_LatestMessage r) (ts_LatestAt r).

Record IndexedAttachment : Type := mkIndexedAttachment {
  ia_ID : string; ia_MessageID : string; ia_AccountID : string; ia_Filename : string;
  ia_ContentType : string; ia_SizeBytes : Z; ia_InlinePart : bool; ia_CreatedAt : Z
}.
#[export] Instance eta_IndexedAttachment : Eta IndexedAttachment := fun r =>
  mkIndexedAttachment (ia_ID r) (ia_MessageID r) (ia_AccountID r) (ia_Filename r)
     (ia_ContentType r) (ia_SizeBytes r) (ia_InlinePart r) (ia_CreatedAt r).

(** A NULL time is [ZeroTime] and a NULL text empty, as the scan makes them. *)
Record SyncState : Type := mkSyncState {
  ss_ID : string; ss_AccountID : string; ss_Mailbox : string; ss_UIDValidity : Z; ss_UIDNext :
  Z; ss_ModSeq : Z; ss_LastFullSyncAt : Z; ss_LastDeltaSyncAt : Z; ss_LastError : string;
  ss_UpdatedAt : Z
}.
#[export] Instance eta_SyncState : Eta SyncState := fun r =>
  mkSyncState (ss_ID r) (ss_AccountID r) (ss_Mailbox r) (ss_UIDValidity r) (ss_UIDNext r)
     (ss_ModSeq r) (ss_LastFullSyncAt r) (ss_LastDeltaSyncAt r) (ss_LastError r) (ss_UpdatedAt
     r).

(** A bound of dates is present when its [Has] flag is set. *)
Record IndexedMessageFilter : Type := mkMessageFilter {
  mf_Query : string; mf_From : string; mf_To : string; mf_Subject : string; mf_DateFrom :
  option Z; mf_DateTo : option Z; mf_Unread : bool; mf_Flagged : bool; mf_HasAttachments :
  bool; mf_Waiting : bool; mf_Snoozed : bool; mf_FollowUp : bool; mf_CategoryID : string;
  mf_TagIDs : list string; mf_AccountIDs : list string
}.
#[export] Instance eta_IndexedMessageFilter : Eta IndexedMessageFilter := fun r =>
  mkMessageFilter (mf_Query r) (mf_From r) (mf_To r) (mf_Subject r) (mf_DateFrom r) (mf_DateTo
     r) (mf_Unread r) (mf_Flagged r) (mf_HasAttachments r) (mf_Waiting r) (mf_Snoozed r)
     (mf_FollowUp r) (mf_CategoryID r) (mf_TagIDs r) (mf_AccountIDs r).

Record IndexDB : Type := mkIndexDB {
  ix_out : OutboundDB; ix_threads : list ThreadRow; ix_attachments : list IndexedAttachment;
  ix_sync : list SyncState
}.
#[export] Instance eta_IndexDB : Eta IndexDB := fun r =>
  mkIndexDB (ix_out r) (ix_threads r) (ix_attachments r) (ix_sync r).

Abbreviation IDB := (M IndexDB).

(** A handler of the smaller database, run on the larger one. *)
Definition on_outbound {A} (m : ODB A) : IDB A := fun w =>
  let '(mkWorld d fs t u tr) := w in
  let '(r, mkWorld b fs' t' u' tr') := m (mkWorld (ix_out d) fs t u tr) in
  (r, mkWorld (d <| ix_out := b |>) fs' t' u' tr').

Definition on_index {A} (m : MDB A) : IDB A := on_outbound (on_mail m).

Definition messages (d : IndexDB) : list IndexedMessage := m_messages (o_mail (ix_out d)).
Definition with_messages (rows : list IndexedMessage) (d : IndexDB) : IndexDB :=
  let o := ix_out d in
  d <| ix_out := o <| o_mail := o_mail o <| m_messages := rows |> |> |>.

(** [WHERE] clauses. *)
Definition of_account (accountID : string) (m : IndexedMessage) : bool := String.eqb (im_AccountID m) accountID.
Definition in_mailbox (accountID mailbox : string) (m : IndexedMessage) : bool :=
  of_account accountID m && String.eqb (im_Mailbox m) mailbox.
Definition one_of (ids : list string) (id : string) : bool := existsb (String.eqb id) ids.

(** ** Threads from their messages *)

(** The participants are a set, in the order they came. *)
Record threadAgg : Type := mkThreadAgg {
  ta_ID : string; ta_AccountID : string; ta_Mailbox : string; ta_SubjectNorm : string;
  ta_Participants : list string; ta_MessageCount : Z; ta_UnreadCount : Z; ta_HasAttachments :
  bool; ta_HasFlagged : bool; ta_Importance : Z; ta_LatestMessage : string; ta_LatestAt : Z
}.
#[export] Instance eta_threadAgg : Eta threadAgg := fun r =>
  mkThreadAgg (ta_ID r) (ta_AccountID r) (ta_Mailbox r) (ta_SubjectNorm r) (ta_Participants r)
     (ta_MessageCount r) (ta_UnreadCount r) (ta_HasAttachments r) (ta_HasFlagged r)
     (ta_Importance r) (ta_LatestMessage r) (ta_LatestAt r).

Section Index.
Context {env : Env} {parsers : MailParsers}.

Definition threadSummarySubject (subject : string) : string :=
  let normalized := NormalizeThreadSubject subject in
  if String.eqb normalized "" then "(no subject)" else normalized.

Definition add_participant (from : string) (l : list string) : list string :=
  let from := TrimSpace from in
  if String.eqb from "" || one_of l from then l else l ++ [from].

Definition new_thread (accountID threadID : string) (m : IndexedMessage) : threadAgg :=
  mkThreadAgg threadID accountID (im_Mailbox m) (threadSummarySubject (im_Subject m)) [] 0 0 false false 0 "" ZeroTime.

Definition count_message (accountID : string) (m : IndexedMessage) (a : threadAgg) : threadAgg :=
  let later := IsZero (ta_LatestAt a) || (ta_LatestAt a <? im_InternalDate m) in
  a <| ta_MessageCount := ta_MessageCount a + 1 |>
    <| ta_UnreadCount := ta_UnreadCount a + (if im_Seen m then 0 else 1) |>
    <| ta_HasAttachments := ta_HasAttachments a || im_HasAttachments m |>
    <| ta_HasFlagged := ta_HasFlagged a || im_Flagged m |>
    <| ta_Importance := if ta_Importance a <? im_Importance m then im_Importance m else ta_Importance a |>
    <| ta_Participants := add_participant (im_FromValue m) (ta_Participants a) |>
    <| ta_LatestAt := if later then im_InternalDate m else ta_LatestAt a |>
    <| ta_LatestMessage := if later then NormalizeIndexedMessageID accountID (im_ID m) else ta_LatestMessage a |>.

(** One message into the map of threads; new threads come last. *)
Fixpoint into_threads (accountID : string) (m : IndexedMessage) (aggs : list threadAgg) : list threadAgg :=
  let threadID := NormalizeIndexedThreadID accountID (im_ThreadID m) in
  match aggs with
  | [] => [count_message accountID m (new_thread accountID threadID m)]
  | a :: aggs' =>
      if String.eqb (ta_ID a) threadID then count_message accountID m a :: aggs'
      else a :: into_threads accountID m aggs'
  end.

Definition aggregate (accountID : string) (rows : list IndexedMessage) : list threadAgg :=
  fold_left (fun aggs m => into_threads accountID m aggs) rows [].

(** [json.Marshal] of a list of strings. *)
Definition json_strings (l : list string) : string :=
  of_bytes ([91] ++
    match l with
    | [] => []
    | s :: l' => json_string s ++ flat_map (fun t => [44] ++ json_string t) l'
    end ++ [93]).

Definition thread_row (now : Z) (a : threadAgg) : ThreadRow :=
  mkThreadRow (ta_ID a) (ta_AccountID a) (ta_Mailbox a) (ta_SubjectNorm a)
    (json_strings (sort_strings (ta_Participants a))) (ta_MessageCount a) (ta_UnreadCount a)
    (ta_HasAttachments a) (ta_HasFlagged a) (ta_Importance a) (ta_LatestMessage a) (ta_LatestAt a) now.

Definition same_thread (t t0 : ThreadRow) : bool := String.eqb (th_ID t) (th_ID t0).

(** [INSERT ... ON CONFLICT(id) DO UPDATE], every other column of the new row. *)
Definition upsert_thread (t : ThreadRow) (rows : list ThreadRow) : list ThreadRow :=
  if existsb (same_thread t) rows then update_rows (same_thread t) (fun _ => t) rows else rows ++ [t].

Fixpoint upsert_threads (now : Z) (aggs : list threadAgg) : IDB unit :=
  match aggs with
  | [] => ret tt
  | a :: aggs' =>
      do! exec (fun d => d <| ix_threads := upsert_thread (thread_row now a) (ix_threads d) |>) in
      upsert_threads now aggs'
  end.

(** Rows of equal dates come in the order of insertion, which SQL leaves open;
    both queries use the same order. *)
Definition newest_internal (rows : list IndexedMessage) : list IndexedMessage :=
  order_by (in_order (fun m => KNum (im_InternalDate m)) DESC) rows.

Definition delete_threads (p : ThreadRow -> bool) : IDB unit :=
  exec (fun d => d <| ix_threads := delete_rows p (ix_threads d) |>).

Definition RebuildThreadIndex (accountID : string) : IDB unit :=
  let! rows := query (fun d => Ok (newest_internal (List.filter (of_account accountID) (messages d)))) in
  let threads := aggregate accountID rows in
  transaction (
    let! now := time_Now in
    do! upsert_threads now threads in
    match threads with
    | [] => delete_threads (fun t => String.eqb (th_AccountID t) accountID)
    | _ =>
        delete_threads (fun t => String.eqb (th_AccountID t) accountID
                                 && negb (one_of (sort_strings (map ta_ID threads)) (th_ID t)))
    end).

Definition normalizeThreadIDs (accountID : string) (threadIDs : list string) : list string :=
  distinct_from [] (map (NormalizeIndexedThreadID accountID) threadIDs).

Definition RefreshThreadIndex (accountID : string) (threadIDs : list string) : IDB unit :=
  let normalized := normalizeThreadIDs accountID threadIDs in
  match normalized with
  | [] => ret tt
  | _ =>
      let! rows := query (fun d => Ok (newest_internal (List.filter
                     (fun m => of_account accountID m && one_of normalized (im_ThreadID m)) (messages d)))) in
      let aggs := aggregate accountID rows in
      transaction (
        let! now := time_Now in
        do! upsert_threads now aggs in
        let missing := List.filter (fun id => negb (one_of (map ta_ID aggs) id)) normalized in
        match missing with
        | [] => ret tt
        | _ => delete_threads (fun t => String.eqb (th_AccountID t) accountID && one_of missing (th_ID t))
        end)
  end.

(** ** Writing messages *)

Definition same_message (m m0 : IndexedMessage) : bool := String.eqb (im_ID m) (im_ID m0).

(** [INSERT ... ON CONFLICT(id) DO UPDATE]: identifier, account and time of
    creation stay. *)
Definition upsert_message (inp : IndexedMessage) (rows : list IndexedMessage) : Res (list IndexedMessage) :=
  if existsb (same_message inp) rows then
    replace_each (same_message inp)
      (fun m => inp <| im_AccountID := im_AccountID m |> <| im_CreatedAt := im_CreatedAt m |>) [] rows
  else insert_row same_place inp rows.

Definition stored_message (now : Z) (inp : IndexedMessage) : IndexedMessage :=
  let id := NormalizeIndexedMessageID (im_AccountID inp) (im_ID inp) in
  let threadID := if String.eqb (TrimSpace (im_ThreadID inp)) "" then id else im_ThreadID inp in
  let date := if IsZero (im_DateHeader inp) then now else im_DateHeader inp in
  inp <| im_ID := id |>
      <| im_ThreadID := NormalizeIndexedThreadID (im_AccountID inp) threadID |>
      <| im_DateHeader := date |>
      <| im_InternalDate := if IsZero (im_InternalDate inp) then date else im_InternalDate inp |>
      <| im_MessageIDHeader := NormalizeMessageIDHeader (im_MessageIDHeader inp) |>
      <| im_InReplyToHeader := NormalizeMessageIDHeader (im_InReplyToHeader inp) |>
      <| im_ReferencesHeader := FormatMessageIDList (ParseMessageIDList (im_ReferencesHeader inp)) |>
      <| im_DKIMStatus := firstNonEmptyString [im_DKIMStatus inp; "unknown"] |>
      <| im_SPFStatus := firstNonEmptyString [im_SPFStatus inp; "unknown"] |>
      <| im_DMARCStatus := firstNonEmptyString [im_DMARCStatus inp; "unknown"] |>
      <| im_CreatedAt := now |> <| im_UpdatedAt := now |>.

(** The thread a message that is alone in it opens. *)
Definition opened_thread (now : Z) (m : IndexedMessage) : ThreadRow :=
  let from := TrimSpace (im_FromValue m) in
  mkThreadRow (im_ThreadID m) (im_AccountID m) (im_Mailbox m) (threadSummarySubject (im_Subject m))
    (json_strings (if String.eqb from "" then [] else [from])) 1 (if im_Seen m then 0 else 1)
    (im_HasAttachments m) (im_Flagged m) (im_Importance m) (im_ID m) (im_InternalDate m) now.

(** [ON CONFLICT(id) DO NOTHING]. *)
Definition open_thread (t : ThreadRow) (rows : list ThreadRow) : list ThreadRow :=
  if existsb (same_thread t) rows then rows else rows ++ [t].

Definition UpsertIndexedMessage (inp : IndexedMessage) : IDB IndexedMessage :=
  let! now := time_Now in
  let! inp := if String.eqb (TrimSpace (im_ID inp)) ""
              then let! id := uuid_NewString in ret (inp <| im_ID := id |>) else ret inp in
  let m := stored_message now inp in
  do! exec (fun d => d <| ix_threads := open_thread (opened_thread now m) (ix_threads d) |>) in
  do! statement (fun d => match upsert_message m (messages d) with
                          | Ok rows => Ok (tt, with_messages rows d)
                          | Fail e => Fail e
                          end) in
  on_index (GetIndexedMessageByID (im_AccountID m) (im_ID m)).

Definition attachment_of_message (accountID messageID : string) (a : IndexedAttachment) : bool :=
  String.eqb (ia_AccountID a) accountID && String.eqb (ia_MessageID a) messageID.

Fixpoint insert_attachments (accountID messageID : string) (now : Z) (items : list IndexedAttachment) : IDB unit :=
  match items with
  | [] => ret tt
  | item :: items' =>
      let! item := if String.eqb (TrimSpace (ia_ID item)) ""
                   then let! id := uuid_NewString in ret (item <| ia_ID := id |>) else ret item in
      let row := item <| ia_MessageID := messageID |> <| ia_AccountID := accountID |>
                      <| ia_CreatedAt := if IsZero (ia_CreatedAt item) then now else ia_CreatedAt item |> in
      do! statement (fun d =>
            match insert_row (fun a a0 => String.eqb (ia_ID a) (ia_ID a0)) row (ix_attachments d) with
            | Ok rows => Ok (tt, d <| ix_attachments := rows |>)
            | Fail e => Fail e
            end) in
      insert_attachments accountID messageID now items'
  end.

Definition delete_attachments (p : IndexedAttachment -> bool) : IDB unit :=
  exec (fun d => d <| ix_attachments := delete_rows p (ix_attachments d) |>).

Definition ReplaceIndexedAttachments (accountID messageID : string) (items : list IndexedAttachment) : IDB unit :=
  let messageID := NormalizeIndexedMessageID accountID messageID in
  if String.eqb (TrimSpace messageID) "" then throw (ErrText "message id is required")
  else transaction (
    do! delete_attachments (attachment_of_message accountID messageID) in
    let! now := time_Now in
    insert_attachments accountID messageID now items).

(** ** Mailboxes and accounts *)

Definition delete_messages (p : IndexedMessage -> bool) : IDB unit :=
  exec (fun d => with_messages (delete_rows p (messages d)) d).

Definition DeleteIndexedMessagesByMailbox (accountID mailbox : string) : IDB unit :=
  let mailbox := TrimSpace mailbox in
  if String.eqb mailbox "" then ret tt
  else transaction (
    do! exec (fun d => d <| ix_attachments := delete_rows (fun a => String.eqb (ia_AccountID a) accountID
              && one_of (map im_ID (List.filter (in_mailbox accountID mailbox) (messages d))) (ia_MessageID a))
              (ix_attachments d) |>) in
    delete_messages (in_mailbox accountID mailbox)).

Definition DeleteIndexedDataByAccount (accountID : string) : IDB unit :=
  let accountID := TrimSpace accountID in
  if String.eqb accountID "" then ret tt
  else transaction (
    do! delete_attachments (fun a => String.eqb (ia_AccountID a) accountID) in
    do! delete_messages (of_account accountID) in
    do! delete_threads (fun t => String.eqb (th_AccountID t) accountID) in
    exec (fun d => d <| ix_sync := delete_rows (fun s => String.eqb (ss_AccountID s) accountID) (ix_sync d) |>)).

Definition listMailboxThreadIDs (accountID : string) (mailboxes : list string) : IDB (list string) :=
  match normalizeMailboxFilters mailboxes with
  | [] => ret []
  | normalizedMailboxes =>
      let! threadIDs := query (fun d => Ok (map im_ThreadID (List.filter
            (fun m => of_account accountID m && one_of normalizedMailboxes (im_Mailbox m)) (messages d)))) in
      ret (normalizeThreadIDs accountID threadIDs)
  end.

(** The threads to refresh. *)
Definition RenameIndexedMailbox (accountID mailbox newMailbox : string) : IDB (list string) :=
  let mailbox := TrimSpace mailbox in
  let newMailbox := TrimSpace newMailbox in
  if String.eqb mailbox "" || String.eqb newMailbox "" || EqualFold mailbox newMailbox then ret []
  else
    let! threadIDs := listMailboxThreadIDs accountID [mailbox] in
    let! now := time_Now in
    do! statement (fun d => match move_message newMailbox (in_mailbox accountID mailbox) now (messages d) with
                            | Ok rows => Ok (tt, with_messages rows d)
                            | Fail e => Fail e
                            end) in
    ret threadIDs.

Definition DeleteIndexedMailbox (accountID mailbox : string) : IDB (list string) :=
  let mailbox := TrimSpace mailbox in
  if String.eqb mailbox "" then ret []
  else
    let! threadIDs := listMailboxThreadIDs accountID [mailbox] in
    do! DeleteIndexedMessagesByMailbox accountID mailbox in
    ret threadIDs.

(** ** How far a mailbox has been read *)

Definition sync_of (accountID mailbox : string) (s : SyncState) : bool :=
  String.eqb (ss_AccountID s) accountID && String.eqb (ss_Mailbox s) mailbox.

Definition GetSyncState (accountID mailbox : string) : IDB SyncState :=
  let! r := query (fun d => Ok (select1 (sync_of accountID (TrimSpace mailbox)) (ix_sync d))) in
  match r with Some s => ret s | None => throw ErrNotFound end.

(** [ON CONFLICT(account_id, mailbox) DO UPDATE]: the identifier stays. *)
Definition upsert_sync (inp : SyncState) (rows : list SyncState) : Res (list SyncState) :=
  let p := sync_of (ss_AccountID inp) (ss_Mailbox inp) in
  if existsb p rows then Ok (update_rows p (fun s => inp <| ss_ID := ss_ID s |>) rows)
  else insert_row (fun s s0 => String.eqb (ss_ID s) (ss_ID s0)) inp rows.

Definition UpsertSyncState (inp : SyncState) : IDB SyncState :=
  let! now := time_Now in
  let! inp := if String.eqb (TrimSpace (ss_ID inp)) ""
              then let! id := uuid_NewString in ret (inp <| ss_ID := id |>) else ret inp in
  let inp := inp <| ss_AccountID := TrimSpace (ss_AccountID inp) |> <| ss_Mailbox := TrimSpace (ss_Mailbox inp) |>
                 <| ss_LastError := if String.eqb (TrimSpace (ss_LastError inp)) "" then "" else ss_LastError inp |>
                 <| ss_UpdatedAt := now |> in
  do! statement (fun d => match upsert_sync inp (ix_sync d) with
                          | Ok rows => Ok (tt, d <| ix_sync := rows |>)
                          | Fail e => Fail e
                          end) in
  GetSyncState (ss_AccountID inp) (ss_Mailbox inp).

Definition DeleteSyncState (accountID mailbox : string) : IDB unit :=
  let mailbox := TrimSpace mailbox in
  if String.eqb mailbox "" then ret tt
  else exec (fun d => d <| ix_sync := delete_rows (sync_of accountID mailbox) (ix_sync d) |>).
End Index.
