(* ===== verification/MailSearch.v ===== *)
(** * MailSearch: listing and searching the mail index

    The queries of internal/store/v2_store.go on [message_index],
    [thread_index] and [attachment_index]: pages of threads and messages, of one
    account and merged over several, the filters, the full-text search, and how
    the thread of a new message is looked for. *)

From stdpp Require Import gmap.
From S2P Require Import Prelude Unicode GoStrings Effects GoStd GoText Json Threading MessageIds Models Users Mfa.
From S2P Require Import MailAccounts Host Identity MailModels Drafts MailSenders DraftSend OutboundStore.
From S2P Require Import Outbound MailIndex.

Local Open Scope Z_scope.

(** What [MATCH] answers for a query on the indexed texts of a message:
    subject, sender, recipients, snippet and body. *)
Class FullText : Type := { fts_match : string -> list string -> bool }.

(** [ORDER BY] several columns. *)
Fixpoint in_orders {R} (keys : list ((R -> SortKey) * SortOrder)) (a b : R) : bool :=
  match keys with
  | [] => true
  | (key, o) :: keys' => in_order key o a b && (negb (in_order key o b a) || in_orders keys' a b)
  end.

(** Go's [<] on strings. *)
Definition string_less (a b : string) : bool := negb (key_leb b a).

Definition normalizeIndexedAccountIDs (accountIDs : list string) : list string :=
  distinct_from [] (map TrimSpace accountIDs).

(** ** Sorting *)

Definition indexedMessageSortTime (item : IndexedMessage) : Z :=
  if IsZero (im_DateHeader item) then im_InternalDate item else im_DateHeader item.

Definition indexedMessageLess (a b : IndexedMessage) (sortOrder : string) : bool :=
  let at_ := indexedMessageSortTime a in
  let bt := indexedMessageSortTime b in
  let last := if String.eqb (im_AccountID a) (im_AccountID b)
              then string_less (im_ID a) (im_ID b)
              else string_less (im_AccountID a) (im_AccountID b) in
  let newest := if at_ =? bt then last else bt <? at_ in
  let text f := let x := fold_trim (f a) in let y := fold_trim (f b) in
                if String.eqb x y then newest else string_less x y in
  let order := fold_trim sortOrder in
  if String.eqb order "oldest" then (if at_ =? bt then last else at_ <? bt)
  else if String.eqb order "subject" then text im_Subject
  else if String.eqb order "sender" then text im_FromValue
  else newest.

(** [sort.SliceStable] *)
Definition sort_messages (sortOrder : string) (l : list IndexedMessage) : list IndexedMessage :=
  order_by (fun a b => negb (indexedMessageLess b a sortOrder)) l.

Definition indexedMessageOrderBy (sort : string) : list ((IndexedMessage -> SortKey) * SortOrder) :=
  let newest := (fun m => KNum (im_DateHeader m), DESC) in
  let sort := fold_trim sort in
  if String.eqb sort "oldest" then [(fun m => KNum (im_DateHeader m), ASC)]
  else if String.eqb sort "subject" then [(fun m => KText (im_Subject m), ASC); newest]
  else if String.eqb sort "sender" then [(fun m => KText (im_FromValue m), ASC); newest]
  else [newest].

(** ** Filters *)

Definition normalizeIndexedMessageFilter (f : IndexedMessageFilter) : IndexedMessageFilter :=
  f <| mf_Query := TrimSpace (mf_Query f) |> <| mf_From := TrimSpace (mf_From f) |>
    <| mf_To := TrimSpace (mf_To f) |> <| mf_Subject := TrimSpace (mf_Subject f) |>
    <| mf_CategoryID := TrimSpace (mf_CategoryID f) |>
    <| mf_TagIDs := normalizeIndexedAccountIDs (mf_TagIDs f) |>
    <| mf_AccountIDs := normalizeIndexedAccountIDs (mf_AccountIDs f) |>.

Definition indexedLikePattern (raw : string) : string := containing (fold_trim raw).

(** The clauses, as a test of a message. *)
Definition indexedMessageFilterClauses (filter : IndexedMessageFilter) (m : IndexedMessage) : bool :=
  let f := normalizeIndexedMessageFilter filter in
  let unless b t := b || t in
  let matches v pattern := sql_like (sql_lower v) (indexedLikePattern pattern) in
  unless (String.eqb (mf_From f) "") (matches (im_FromValue m) (mf_From f))
  && unless (String.eqb (mf_To f) "")
       (matches (im_ToValue m) (mf_To f) || matches (im_CCValue m) (mf_To f) || matches (im_BCCValue m) (mf_To f))
  && unless (String.eqb (mf_Subject f) "") (matches (im_Subject m) (mf_Subject f))
  && unless (negb (mf_Unread f)) (negb (im_Seen m))
  && unless (negb (mf_Flagged f)) (im_Flagged m)
  && unless (negb (mf_HasAttachments f)) (im_HasAttachments m)
  && match mf_DateFrom f with Some d => d <=? im_DateHeader m | None => true end
  && match mf_DateTo f with Some d => im_DateHeader m <=? d | None => true end.

(** No clause without mailboxes. *)
Definition mailboxFilterClause (mailboxes : list string) (m : IndexedMessage) : bool :=
  match normalizeMailboxFilters mailboxes with
  | [] => true
  | normalized => one_of normalized (im_Mailbox m)
  end.

(** [strings.NewReplacer] of texts none of which begins another: every one of
    [olds] by [new], from the left. *)
Fixpoint replace_each_of (fuel : nat) (olds : list (list Z)) (new l : list Z) : list Z :=
  match fuel, l with
  | S n, b :: l' =>
      match List.find (fun old => bool_decide (take (length old) l = old)) olds with
      | Some old => new ++ replace_each_of n olds new (drop (length old) l)
      | None => b :: replace_each_of n olds new l'
      end
  | _, _ => l
  end.

Definition indexedSearchTokenPattern : Re := Some1 (One rune_is_letter_or_number).

Definition quotation_mark : string := of_bytes [34].

Definition indexedFTSMatchQuery (raw : string) : string :=
  let raw := TrimSpace raw in
  if String.eqb raw "" then ""
  else
    let lower := bytes (ToLower raw) in
    let clean := of_bytes (replace_each_of (length lower) (map bytes ["from:"; "to:"; "subject:"]) [32] lower) in
    let tokens := map of_runes (FindAllString indexedSearchTokenPattern (runes clean)) in
    Join " AND " (map (fun token => quotation_mark
                                    +:+ ReplaceAll token quotation_mark (quotation_mark +:+ quotation_mark)
                                    +:+ quotation_mark)
      (List.filter (fun t => negb (String.eqb t "")) (map TrimSpace tokens))).

Example match_query_ex :
  indexedFTSMatchQuery " From:Ann photo:x_y (Q3) " =
  of_bytes (flat_map (fun b => if b =? 39 then [34] else [b]) (bytes "'ann' AND 'pho' AND 'x' AND 'y' AND 'q3'")).
Proof. vm_compute. reflexivity. Qed.

(** ** Queries *)

(** [json.Unmarshal] into a slice of strings: what is malformed leaves it
    empty, an element of another type is the empty string. *)
Definition unmarshal_strings (s : string) : list string :=
  match json_unmarshal s with
  | Some (JArray l) => map (fun v => match v with JText t => t | _ => "" end) l
  | _ => []
  end.

Definition thread_summary (t : ThreadRow) : ThreadSummary :=
  mkThreadSummary (th_ID t) (th_AccountID t) (th_Mailbox t) (th_SubjectNorm t)
    (unmarshal_strings (th_ParticipantsJSON t)) (th_MessageCount t) (th_UnreadCount t)
    (th_HasAttachments t) (th_HasFlagged t) (th_Importance t) (th_LatestMessage t) (th_LatestAt t).

Definition thread_order (sort : string) : list ((ThreadRow -> SortKey) * SortOrder) :=
  let latest o := (fun t => KNum (th_LatestAt t), o) in
  let sort := fold_trim sort in
  if String.eqb sort "oldest" then [latest ASC]
  else if String.eqb sort "subject" then [(fun t => KText (th_SubjectNorm t), ASC)]
  else if String.eqb sort "unread" then [(fun t => KNum (th_UnreadCount t), DESC); latest DESC]
  else if String.eqb sort "flagged" then [(fun t => KNum (if th_HasFlagged t then 1 else 0), DESC); latest DESC]
  else [latest DESC].

Section Search.
Context {env : Env} {parsers : MailParsers} {fts : FullText}.

Definition count_and_show {R A} (rows : IndexDB -> list R) (shown : list R -> list A) : IDB (list A * Z) :=
  let! total := query (fun d => Ok (Z.of_nat (length (rows d)))) in
  let! out := query (fun d => Ok (shown (rows d))) in
  ret (out, total).

Definition ListThreads (accountID mailbox sort : string) (limit offset : Z) : IDB (list ThreadSummary * Z) :=
  let p d t := String.eqb (th_AccountID t) accountID
               && (String.eqb (TrimSpace mailbox) ""
                   || existsb (fun m => String.eqb (im_AccountID m) (th_AccountID t)
                                        && String.eqb (im_ThreadID m) (th_ID t)
                                        && String.eqb (im_Mailbox m) mailbox) (messages d)) in
  count_and_show (fun d => List.filter (p d) (ix_threads d))
    (fun rows => map thread_summary (page (clampLimit limit) (clampOffset offset)
                   (order_by (in_orders (thread_order sort)) rows))).

(** The rows of the first candidate that has any, or of the last one. *)
Fixpoint first_rows {A} (rows : string -> IndexDB -> list A) (candidates : list string) : IDB (list A) :=
  match candidates with
  | [] => throw ErrNotFound
  | candidate :: rest =>
      let! out := query (fun d => Ok (rows candidate d)) in
      match out, rest with
      | _ :: _, _ | _, [] => ret out
      | [], _ => first_rows rows rest
      end
  end.

Definition ListMessagesByThread (accountID threadID : string) (limit offset : Z) : IDB (list IndexedMessage) :=
  first_rows (fun candidate d => page (clampLimit limit) (clampOffset offset)
      (order_by (in_order (fun m => KNum (im_DateHeader m)) DESC)
        (List.filter (fun m => of_account accountID m && String.eqb (im_ThreadID m) candidate) (messages d))))
    (indexedThreadIDCandidates accountID threadID).

Definition GetIndexedMessageAttachments (accountID messageID : string) : IDB (list IndexedAttachment) :=
  first_rows (fun candidate d => order_by (in_order (fun a => KNum (ia_CreatedAt a)) ASC)
      (List.filter (attachment_of_message accountID candidate) (ix_attachments d)))
    (indexedMessageIDCandidates accountID messageID).

Definition listIndexedMessagesForMailboxes (accountID : string) (mailboxes : list string)
    (filter : IndexedMessageFilter) (sort : string) (limit offset : Z) : IDB (list IndexedMessage * Z) :=
  let filter := normalizeIndexedMessageFilter filter in
  count_and_show (fun d => List.filter (fun m => of_account accountID m && mailboxFilterClause mailboxes m
                                          && indexedMessageFilterClauses filter m) (messages d))
    (fun rows => page (clampLimit limit) (clampOffset offset)
                   (order_by (in_orders (indexedMessageOrderBy sort)) rows)).

Definition one_mailbox (mailbox : string) : list string :=
  let trimmed := TrimSpace mailbox in if String.eqb trimmed "" then [] else [trimmed].

Definition ListIndexedMessages (accountID mailbox : string) (filter : IndexedMessageFilter) (sort : string)
    (limit offset : Z) : IDB (list IndexedMessage * Z) :=
  listIndexedMessagesForMailboxes accountID (one_mailbox mailbox) filter sort limit offset.

(** The row of [message_search_fts] of a message. *)
Definition fts_row (m : IndexedMessage) : list string :=
  [im_Subject m; im_FromValue m; im_ToValue m; im_Snippet m; im_BodyText m].

Definition searchIndexedMessagesForMailboxes (accountID : string) (mailboxes : list string)
    (filter : IndexedMessageFilter) (limit offset : Z) : IDB (list IndexedMessage * Z) :=
  let filter := normalizeIndexedMessageFilter filter in
  let matchQuery := indexedFTSMatchQuery (mf_Query filter) in
  if String.eqb (mf_Query filter) "" then
    listIndexedMessagesForMailboxes accountID mailboxes filter "" limit offset
  else if String.eqb matchQuery "" then
    listIndexedMessagesForMailboxes accountID mailboxes (filter <| mf_Query := "" |>) "" limit offset
  else
    count_and_show (fun d => List.filter (fun m => of_account accountID m && mailboxFilterClause mailboxes m
                        && indexedMessageFilterClauses filter m && fts_match matchQuery (fts_row m)) (messages d))
      (fun rows => page (clampLimit limit) (clampOffset offset)
                     (order_by (in_order (fun m => KNum (im_DateHeader m)) DESC) rows)).

Definition SearchIndexedMessages (accountID mailbox : string) (filter : IndexedMessageFilter)
    (limit offset : Z) : IDB (list IndexedMessage * Z) :=
  searchIndexedMessagesForMailboxes accountID (one_mailbox mailbox) filter limit offset.

(** The loop over the accounts: a page of each, and how many there are. *)
Fixpoint each_account (mailboxesByAccount : gmap string (list string))
    (fetch : string -> list string -> IDB (list IndexedMessage * Z)) (accountIDs : list string)
    : IDB (list IndexedMessage * Z) :=
  match accountIDs with
  | [] => ret ([], 0)
  | accountID :: rest =>
      let filtered := mailboxesByAccount !! accountID in
      let resolvedMailboxes := normalizeMailboxFilters (default [] filtered) in
      match filtered, resolvedMailboxes with
      | Some _, [] => each_account mailboxesByAccount fetch rest
      | _, _ =>
          let! (items, count) := fetch accountID resolvedMailboxes in
          let! (merged, total) := each_account mailboxesByAccount fetch rest in
          ret (items ++ merged, count + total)
      end
  end.

Definition merge_accounts (accountIDs : list string) (mailboxesByAccount : gmap string (list string))
    (fetch : Z -> string -> list string -> IDB (list IndexedMessage * Z)) (sortOrder : string) (limit offset : Z)
    : IDB (list IndexedMessage * Z) :=
  let limit := clampLimit limit in
  let offset := clampOffset offset in
  match normalizeIndexedAccountIDs accountIDs with
  | [] => ret ([], 0)
  | normalizedAccounts =>
      let fetchLimit := if int64 (limit + offset) <? limit then limit else int64 (limit + offset) in
      let! (merged, total) := each_account mailboxesByAccount (fetch fetchLimit) normalizedAccounts in
      ret (page limit offset (sort_messages sortOrder merged), total)
  end.

Definition ListIndexedMessagesByAccounts (accountIDs : list string) (mailboxesByAccount : gmap string (list string))
    (filter : IndexedMessageFilter) (sortOrder : string) (limit offset : Z) : IDB (list IndexedMessage * Z) :=
  merge_accounts accountIDs mailboxesByAccount (fun fetchLimit accountID mailboxes =>
    listIndexedMessagesForMailboxes accountID mailboxes filter sortOrder fetchLimit 0) sortOrder limit offset.

Definition SearchIndexedMessagesByAccounts (accountIDs : list string)
    (mailboxesByAccount : gmap string (list string)) (filter : IndexedMessageFilter) (limit offset : Z)
    : IDB (list IndexedMessage * Z) :=
  merge_accounts accountIDs mailboxesByAccount (fun fetchLimit accountID mailboxes =>
    searchIndexedMessagesForMailboxes accountID mailboxes filter fetchLimit 0) "" limit offset.

(** ** The thread of a message *)

Definition FindIndexedThreadIDByMessageHeaders (accountID : string) (messageIDs : list string) : IDB string :=
  match NormalizeMessageIDHeaders messageIDs with
  | [] => throw ErrNotFound
  | normalized =>
      let! rows := query (fun d => Ok (page 1 0 (order_by (in_order (fun m => KNum (im_InternalDate m)) ASC)
            (List.filter (fun m => of_account accountID m && one_of normalized (im_MessageIDHeader m))
               (messages d))))) in
      match rows with m :: _ => ret (im_ThreadID m) | [] => throw ErrNotFound end
  end.

(** The loop over the threads of the same subject: identifier, score and time
    of the best so far. *)
Definition better_thread (participants : list string) (best : string * Z * Z) (t : ThreadRow) : string * Z * Z :=
  let '(bestThreadID, bestScore, bestAt) := best in
  let score := ThreadParticipantsOverlap (unmarshal_strings (th_ParticipantsJSON t)) participants in
  if score =? 0 then best
  else if (bestScore <? score) || ((score =? bestScore) && (IsZero bestAt || (bestAt <? th_LatestAt t)))
  then (TrimSpace (th_ID t), score, th_LatestAt t) else best.

Definition thread_window : Z := 30 * 24 * Hour.

Definition FindIndexedThreadIDBySubjectParticipants (accountID subject : string) (participants : list string)
    (latestAt : Z) : IDB string :=
  let accountID := TrimSpace accountID in
  let subject := threadSummarySubject subject in
  let participants := NormalizeThreadParticipants [Join ", " participants] in
  if String.eqb accountID "" || String.eqb subject "(no subject)" || Nat.eqb (length participants) 0
  then throw ErrNotFound
  else
    let! latestAt := if IsZero latestAt then time_Now else ret latestAt in
    let windowStart := latestAt - thread_window in
    let! rows := query (fun d => Ok (page 25 0 (order_by (in_order (fun t => KNum (th_LatestAt t)) DESC)
          (List.filter (fun t => String.eqb (th_AccountID t) accountID && String.eqb (th_SubjectNorm t) subject
                                 && (windowStart <=? th_LatestAt t) && (th_LatestAt t <=? latestAt))
             (ix_threads d))))) in
    let '(bestThreadID, _, _) := fold_left (better_thread participants) rows ("", 0, ZeroTime) in
    if String.eqb bestThreadID "" then throw ErrNotFound else ret bestThreadID.

Definition HasIndexedMessagesReferencingThreadParent (accountID messageID expectedThreadID excludeMessageID : string)
    : IDB bool :=
  let accountID := TrimSpace accountID in
  let messageID := NormalizeMessageIDHeader messageID in
  let expectedThreadID := NormalizeIndexedThreadID accountID expectedThreadID in
  let excludeCandidates := indexedMessageIDCandidates accountID excludeMessageID in
  if String.eqb accountID "" || String.eqb messageID "" || String.eqb expectedThreadID "" then ret false
  else query (fun d => Ok (existsb (fun m =>
      of_account accountID m && negb (String.eqb (im_ThreadID m) expectedThreadID)
      && (String.eqb (im_InReplyToHeader m) messageID || String.eqb (im_ReferencesHeader m) messageID
          || sql_like (im_ReferencesHeader m) (messageID +:+ " %")
          || sql_like (im_ReferencesHeader m) ("% " +:+ messageID)
          || sql_like (im_ReferencesHeader m) ("% " +:+ messageID +:+ " %"))
      && match excludeCandidates with c :: _ => negb (String.eqb (im_ID m) c) | [] => true end) (messages d))).
End Search.
