(* ===== verification/MailTriage.v ===== *)
(** * MailTriage: snoozing, reminding, categories and tags of conversations

    internal/store/mail_triage.go, and the parts of internal/api that show the
    mail index with it: mail_triage.go, indexed_filters.go and the filter of
    router_v2.go for conversations that wait for an answer.  A NULL time is
    [ZeroTime] and a NULL text empty; a Go pointer is an option.  The tables of
    migration 030 are there without their foreign keys.  db.OpenSQLite does not
    switch them on; the migrations that main runs at every start do, for the one
    connection of the pool that runs them and for as long as it lives.  The
    model is of the statements that the other connections run. *)

From stdpp Require Import gmap.
From S2P Require Import Prelude Unicode GoStrings Effects GoStd GoText Json Threading MessageIds Models Users Mfa.
From S2P Require Import MailAccounts Host Identity MailModels Drafts MailSenders DraftSend OutboundStore Outbound.
From S2P Require Import GoFmt ServiceFacts MailIndex MailSearch.

Local Open Scope Z_scope.

(** ** Data *)

(** A row of [mail_triage_categories]; its [name_norm] is the name in lower
    case. *)
Record MailTriageCategory : Type := mkTriageCategory {
  tc_ID : string; tc_UserID : string; tc_Name : string; tc_CreatedAt : Z; tc_UpdatedAt : Z
}.
#[export] Instance eta_MailTriageCategory : Eta MailTriageCategory := fun r =>
  mkTriageCategory (tc_ID r) (tc_UserID r) (tc_Name r) (tc_CreatedAt r) (tc_UpdatedAt r).
(** A row of [mail_triage_tags], likewise. *)
Record MailTriageTag : Type := mkTriageTag {
  tt_ID : string; tt_UserID : string; tt_Name : string; tt_CreatedAt : Z; tt_UpdatedAt : Z
}.
#[export] Instance eta_MailTriageTag : Eta MailTriageTag := fun r =>
  mkTriageTag (tt_ID r) (tt_UserID r) (tt_Name r) (tt_CreatedAt r) (tt_UpdatedAt r).
(** [models.MailTriageCategoryRef], [models.MailTriageTagRef],
    [mail.TriageCategory] and [mail.TriageTag]. *)
Record TriageRef : Type := mkTriageRef {
  tf_ID : string; tf_Name : string
}.
#[export] Instance eta_TriageRef : Eta TriageRef := fun r =>
  mkTriageRef (tf_ID r) (tf_Name r).
(** [models.MailTriageState] and [mail.TriageState]. *)
Record MailTriageState : Type := mkTriageState {
  ms_SnoozedUntil : option Z; ms_ReminderAt : option Z; ms_Category : option TriageRef; ms_Tags
  : list TriageRef; ms_IsSnoozed : bool; ms_IsFollowUpDue : bool
}.
#[export] Instance eta_MailTriageState : Eta MailTriageState := fun r =>
  mkTriageState (ms_SnoozedUntil r) (ms_ReminderAt r) (ms_Category r) (ms_Tags r) (ms_IsSnoozed
     r) (ms_IsFollowUpDue r).
Record MailTriageTarget : Type := mkTriageTarget {
  tg_Source : string; tg_AccountID : string; tg_ThreadID : string; tg_Mailbox : string;
  tg_Subject : string; tg_From : string
}.
#[export] Instance eta_MailTriageTarget : Eta MailTriageTarget := fun r =>
  mkTriageTarget (tg_Source r) (tg_AccountID r) (tg_ThreadID r) (tg_Mailbox r) (tg_Subject r)
     (tg_From r).
Record MailTriageMutation : Type := mkTriageMutation {
  tm_SnoozedUntil : option Z; tm_ClearSnooze : bool; tm_ReminderAt : option Z; tm_ClearReminder
  : bool; tm_CategoryID : string; tm_CategoryName : string; tm_ClearCategory : bool;
  tm_AddTagIDs : list string; tm_AddTagNames : list string; tm_RemoveTagIDs : list string;
  tm_RemoveTagNames : list string; tm_ClearTags : bool
}.
#[export] Instance eta_MailTriageMutation : Eta MailTriageMutation := fun r =>
  mkTriageMutation (tm_SnoozedUntil r) (tm_ClearSnooze r) (tm_ReminderAt r) (tm_ClearReminder
     r) (tm_CategoryID r) (tm_CategoryName r) (tm_ClearCategory r) (tm_AddTagIDs r)
     (tm_AddTagNames r) (tm_RemoveTagIDs r) (tm_RemoveTagNames r) (tm_ClearTags r).
(** A row of [mail_thread_triage]. *)
Record MailThreadTriageRecord : Type := mkTriageRecord {
  tr_TriageKey : string; tr_UserID : string; tr_Source : string; tr_AccountID : string;
  tr_ThreadID : string; tr_Mailbox : string; tr_Subject : string; tr_FromValue : string;
  tr_CategoryID : string; tr_SnoozedUntil : Z; tr_ReminderAt : Z; tr_LastReminderNotifiedAt :
  Z; tr_CreatedAt : Z; tr_UpdatedAt : Z
}.
#[export] Instance eta_MailThreadTriageRecord : Eta MailThreadTriageRecord := fun r =>
  mkTriageRecord (tr_TriageKey r) (tr_UserID r) (tr_Source r) (tr_AccountID r) (tr_ThreadID r)
     (tr_Mailbox r) (tr_Subject r) (tr_FromValue r) (tr_CategoryID r) (tr_SnoozedUntil r)
     (tr_ReminderAt r) (tr_LastReminderNotifiedAt r) (tr_CreatedAt r) (tr_UpdatedAt r).
Record MailThreadTriageState : Type := mkThreadTriage {
  mt_Target : MailTriageTarget; mt_TriageKey : string; mt_Triage : MailTriageState
}.
#[export] Instance eta_MailThreadTriageState : Eta MailThreadTriageState := fun r =>
  mkThreadTriage (mt_Target r) (mt_TriageKey r) (mt_Triage r).
Record MailTriageReminder : Type := mkReminder {
  tn_TriageKey : string; tn_Source : string; tn_AccountID : string; tn_ThreadID : string;
  tn_Mailbox : string; tn_Subject : string; tn_From : string; tn_ReminderAt : Z
}.
#[export] Instance eta_MailTriageReminder : Eta MailTriageReminder := fun r =>
  mkReminder (tn_TriageKey r) (tn_Source r) (tn_AccountID r) (tn_ThreadID r) (tn_Mailbox r)
     (tn_Subject r) (tn_From r) (tn_ReminderAt r).
(** A row of [mail_thread_triage_tags]. *)
Record TriageLink : Type := mkTriageLink {
  tl_TriageKey : string; tl_TagID : string; tl_CreatedAt : Z
}.
#[export] Instance eta_TriageLink : Eta TriageLink := fun r =>
  mkTriageLink (tl_TriageKey r) (tl_TagID r) (tl_CreatedAt r).
Record TriageDB : Type := mkTriageDB {
  tx_index : IndexDB; tx_categories : list MailTriageCategory; tx_tags : list MailTriageTag;
  tx_records : list MailThreadTriageRecord; tx_links : list TriageLink
}.
#[export] Instance eta_TriageDB : Eta TriageDB := fun r =>
  mkTriageDB (tx_index r) (tx_categories r) (tx_tags r) (tx_records r) (tx_links r).

Abbreviation TDB := (M TriageDB).

Definition sql_ErrNoRows : GoErr := ErrText "sql: no rows in result set".

(** A handler of the mail index, run on the larger database. *)
Definition on_mail_index {A} (m : IDB A) : TDB A := fun w =>
  let '(mkWorld d fs t u tr) := w in
  let '(r, mkWorld b fs' t' u' tr') := m (mkWorld (tx_index d) fs t u tr) in
  (r, mkWorld (d <| tx_index := b |>) fs' t' u' tr').

Definition DefaultMailTriageState : MailTriageState := mkTriageState None None None [] false false.

Definition mailTriageSourceLive : string := "live".
Definition mailTriageSourceIndexed : string := "indexed".

Definition normalizeMailTriageSource (raw : string) : string :=
  if String.eqb (fold_trim raw) mailTriageSourceIndexed then mailTriageSourceIndexed else mailTriageSourceLive.

Definition normalizeMailTriageName (raw : string) : string := Join " " (text_fields (TrimSpace raw)).

Definition normalizeMailTriageTarget (target : MailTriageTarget) : MailTriageTarget :=
  let source := normalizeMailTriageSource (tg_Source target) in
  let accountID := TrimSpace (tg_AccountID target) in
  let threadID := TrimSpace (tg_ThreadID target) in
  mkTriageTarget source
    (if String.eqb source mailTriageSourceIndexed then TrimSpace accountID else accountID)
    (if String.eqb source mailTriageSourceIndexed then NormalizeIndexedThreadID (TrimSpace accountID) threadID
     else threadID)
    (TrimSpace (tg_Mailbox target)) (TrimSpace (tg_Subject target)) (TrimSpace (tg_From target)).

(** The key of the maps, with NUL between its parts. *)
Definition thread_key (source accountID threadID : string) : string :=
  let nul := of_bytes [0] in source +:+ nul +:+ accountID +:+ nul +:+ threadID.
Definition target_key (t : MailTriageTarget) : string := thread_key (tg_Source t) (tg_AccountID t) (tg_ThreadID t).

(** The first element of each key. *)
Fixpoint first_of_key {A} (key : A -> string) (seen : list string) (l : list A) : list A :=
  match l with
  | [] => []
  | x :: l' => if one_of seen (key x) then first_of_key key seen l'
               else x :: first_of_key key (key x :: seen) l'
  end.

Definition normalizeMailTriageTargets (items : list MailTriageTarget) : list MailTriageTarget :=
  first_of_key target_key []
    (List.filter (fun t => negb (String.eqb (tg_ThreadID t) "")) (map normalizeMailTriageTarget items)).

Definition deriveMailThreadTriageKey (userID : string) (target : MailTriageTarget) : string :=
  "tri:" +:+ hex_encode (take 12 (Sha256.sum (bytes (Join (of_bytes [10])
    (map TrimSpace [userID; tg_Source target; tg_AccountID target; tg_ThreadID target]))))).

Definition scan_name {R} (get : R -> string) (set : string -> R -> R) (r : R) : R :=
  set (normalizeMailTriageName (get r)) r.
Definition scanMailTriageCategory : MailTriageCategory -> MailTriageCategory :=
  scan_name tc_Name (fun n c => c <| tc_Name := n |>).
Definition scanMailTriageTag : MailTriageTag -> MailTriageTag := scan_name tt_Name (fun n t => t <| tt_Name := n |>).

(** [name COLLATE NOCASE ASC, id ASC] *)
Definition by_name {R} (name id : R -> string) : list ((R -> SortKey) * SortOrder) :=
  [(fun r => KText (sql_lower (name r)), ASC); (fun r => KText (id r), ASC)].

(** The keys of the two tables: the identifier, and the user with the name. *)
Definition same_category (c c0 : MailTriageCategory) : bool :=
  String.eqb (tc_ID c) (tc_ID c0)
  || (String.eqb (tc_UserID c) (tc_UserID c0) && String.eqb (ToLower (tc_Name c)) (ToLower (tc_Name c0))).
Definition same_tag (t t0 : MailTriageTag) : bool :=
  String.eqb (tt_ID t) (tt_ID t0)
  || (String.eqb (tt_UserID t) (tt_UserID t0) && String.eqb (ToLower (tt_Name t)) (ToLower (tt_Name t0))).
Definition category_at (userID id : string) (c : MailTriageCategory) : bool :=
  String.eqb (tc_UserID c) userID && String.eqb (tc_ID c) id.
Definition tag_at (userID id : string) (t : MailTriageTag) : bool :=
  String.eqb (tt_UserID t) userID && String.eqb (tt_ID t) id.
Definition category_named (userID name : string) (c : MailTriageCategory) : bool :=
  String.eqb (tc_UserID c) userID && String.eqb (ToLower (tc_Name c)) (ToLower name).
Definition tag_named (userID name : string) (t : MailTriageTag) : bool :=
  String.eqb (tt_UserID t) userID && String.eqb (ToLower (tt_Name t)) (ToLower name).

(** A [models.IndexedMessage] with the fields that are not columns. *)
Record ShownMessage : Type := mkShown {
  sh_Message : IndexedMessage; sh_TriageKey : string; sh_Triage : MailTriageState
}.
#[export] Instance eta_ShownMessage : Eta ShownMessage := fun r =>
  mkShown (sh_Message r) (sh_TriageKey r) (sh_Triage r).

(** [mail.MessageSummary]; a triage whose tags are nil is [None]. *)
Record MessageSummary : Type := mkSummary {
  mg_ID : string; mg_AccountID : string; mg_Mailbox : string; mg_Source : string; mg_From :
  string; mg_Subject : string; mg_Date : Z; mg_Seen : bool; mg_Flagged : bool; mg_Answered :
  bool; mg_Preview : string; mg_ThreadID : string; mg_TriageKey : string; mg_Triage : option
  MailTriageState
}.
#[export] Instance eta_MessageSummary : Eta MessageSummary := fun r =>
  mkSummary (mg_ID r) (mg_AccountID r) (mg_Mailbox r) (mg_Source r) (mg_From r) (mg_Subject r)
     (mg_Date r) (mg_Seen r) (mg_Flagged r) (mg_Answered r) (mg_Preview r) (mg_ThreadID r)
     (mg_TriageKey r) (mg_Triage r).

Section Triage.
Context {env : Env} {parsers : MailParsers} {fts : FullText}.

(** A constraint violation is [ErrConflict]. *)
Definition conflicting {A} (m : TDB A) : TDB A :=
  let! r := attempt m in
  match r with
  | Ok a => ret a
  | Fail ErrConstraint => throw ErrConflict
  | Fail e => throw e
  end.

(** ** Categories and tags *)

Definition ListMailTriageCategories (userID : string) : TDB (list MailTriageCategory) :=
  query (fun d => Ok (map scanMailTriageCategory (order_by (in_orders (by_name tc_Name tc_ID))
    (List.filter (fun c => String.eqb (tc_UserID c) userID) (tx_categories d))))).

Definition ListMailTriageTags (userID : string) : TDB (list MailTriageTag) :=
  query (fun d => Ok (map scanMailTriageTag (order_by (in_orders (by_name tt_Name tt_ID))
    (List.filter (fun t => String.eqb (tt_UserID t) userID) (tx_tags d))))).

Definition insert_category (c : MailTriageCategory) : TDB unit :=
  statement (fun d => match insert_row same_category c (tx_categories d) with
                      | Ok rows => Ok (tt, d <| tx_categories := rows |>)
                      | Fail e => Fail e
                      end).
Definition insert_tag (t : MailTriageTag) : TDB unit :=
  statement (fun d => match insert_row same_tag t (tx_tags d) with
                      | Ok rows => Ok (tt, d <| tx_tags := rows |>)
                      | Fail e => Fail e
                      end).

Definition CreateMailTriageCategory (inp : MailTriageCategory) : TDB MailTriageCategory :=
  let name := normalizeMailTriageName (tc_Name inp) in
  if String.eqb name "" then throw (ErrText "category name is required")
  else
    let! now := time_Now in
    let! inp := if String.eqb (TrimSpace (tc_ID inp)) ""
                then let! id := uuid_NewString in ret (inp <| tc_ID := id |>) else ret inp in
    let inp := inp <| tc_Name := name |> <| tc_CreatedAt := now |> <| tc_UpdatedAt := now |> in
    do! conflicting (insert_category inp) in
    ret inp.

Definition CreateMailTriageTag (inp : MailTriageTag) : TDB MailTriageTag :=
  let name := normalizeMailTriageName (tt_Name inp) in
  if String.eqb name "" then throw (ErrText "tag name is required")
  else
    let! now := time_Now in
    let! inp := if String.eqb (TrimSpace (tt_ID inp)) ""
                then let! id := uuid_NewString in ret (inp <| tt_ID := id |>) else ret inp in
    let inp := inp <| tt_Name := name |> <| tt_CreatedAt := now |> <| tt_UpdatedAt := now |> in
    do! conflicting (insert_tag inp) in
    ret inp.

(** [UPDATE] of the rows [p], whose new names must not clash with the others. *)
Definition rename_rows {R} (p : R -> bool) (clash : R -> R -> bool) (f : R -> R) (rows : list R) : Res (list R) :=
  if existsb (fun r => p r && existsb (fun r0 => negb (p r0) && clash (f r) r0) rows) rows
  then Fail ErrConstraint else Ok (update_rows p f rows).

Definition UpdateMailTriageCategory (inp : MailTriageCategory) : TDB MailTriageCategory :=
  let name := normalizeMailTriageName (tc_Name inp) in
  if String.eqb name "" then throw (ErrText "category name is required")
  else
    let! now := time_Now in
    let p := category_at (tc_UserID inp) (tc_ID inp) in
    let! n := conflicting (statement (fun d =>
                match rename_rows p same_category (fun c => c <| tc_Name := name |> <| tc_UpdatedAt := now |>)
                        (tx_categories d) with
                | Ok rows => Ok (affected p (tx_categories d), d <| tx_categories := rows |>)
                | Fail e => Fail e
                end)) in
    if Nat.eqb n 0 then throw ErrNotFound
    else
      let! r := query (fun d => Ok (select1 p (tx_categories d))) in
      match r with Some c => ret (scanMailTriageCategory c) | None => throw sql_ErrNoRows end.

Definition UpdateMailTriageTag (inp : MailTriageTag) : TDB MailTriageTag :=
  let name := normalizeMailTriageName (tt_Name inp) in
  if String.eqb name "" then throw (ErrText "tag name is required")
  else
    let! now := time_Now in
    let p := tag_at (tt_UserID inp) (tt_ID inp) in
    let! n := conflicting (statement (fun d =>
                match rename_rows p same_tag (fun t => t <| tt_Name := name |> <| tt_UpdatedAt := now |>)
                        (tx_tags d) with
                | Ok rows => Ok (affected p (tx_tags d), d <| tx_tags := rows |>)
                | Fail e => Fail e
                end)) in
    if Nat.eqb n 0 then throw ErrNotFound
    else
      let! r := query (fun d => Ok (select1 p (tx_tags d))) in
      match r with Some t => ret (scanMailTriageTag t) | None => throw sql_ErrNoRows end.

Definition DeleteMailTriageCategory (userID id : string) : TDB unit :=
  let! n := statement (fun d => Ok (affected (category_at userID id) (tx_categories d),
              d <| tx_categories := delete_rows (category_at userID id) (tx_categories d) |>)) in
  if Nat.eqb n 0 then throw ErrNotFound else ret tt.

Definition DeleteMailTriageTag (userID id : string) : TDB unit :=
  let! n := statement (fun d => Ok (affected (tag_at userID id) (tx_tags d),
              d <| tx_tags := delete_rows (tag_at userID id) (tx_tags d) |>)) in
  if Nat.eqb n 0 then throw ErrNotFound else ret tt.

(** ** The state of conversations *)

Definition buildMailThreadTriageState (now : Z) (target : MailTriageTarget) (record : MailThreadTriageRecord)
    (category : option TriageRef) (tags : list TriageRef) : MailThreadTriageState :=
  mkThreadTriage target (deriveMailThreadTriageKey (tr_UserID record) target)
    (mkTriageState (null_time (tr_SnoozedUntil record)) (null_time (tr_ReminderAt record)) category tags
       (negb (IsZero (tr_SnoozedUntil record)) && (now <? tr_SnoozedUntil record))
       (negb (IsZero (tr_ReminderAt record)) && negb (now <? tr_ReminderAt record))).

Definition buildDefaultMailThreadTriageState (now : Z) (userID : string) (target : MailTriageTarget)
    : MailThreadTriageState :=
  buildMailThreadTriageState now target
    (mkTriageRecord "" userID (tg_Source target) (tg_AccountID target) (tg_ThreadID target) "" "" "" ""
       ZeroTime ZeroTime ZeroTime ZeroTime ZeroTime) None [].

Definition scan_record (r : MailThreadTriageRecord) : MailThreadTriageRecord :=
  r <| tr_Source := normalizeMailTriageSource (tr_Source r) |> <| tr_AccountID := TrimSpace (tr_AccountID r) |>
    <| tr_ThreadID := TrimSpace (tr_ThreadID r) |> <| tr_Mailbox := TrimSpace (tr_Mailbox r) |>
    <| tr_Subject := TrimSpace (tr_Subject r) |> <| tr_FromValue := TrimSpace (tr_FromValue r) |>
    <| tr_CategoryID := TrimSpace (tr_CategoryID r) |>.

(** The last element, as a map keeps it. *)
Definition find_last {A} (p : A -> bool) (l : list A) : option A := List.find p (rev l).

Definition GetMailThreadTriageStates (userID : string) (targets : list MailTriageTarget)
    : TDB (list MailThreadTriageState) :=
  match normalizeMailTriageTargets targets with
  | [] => ret []
  | normalizedTargets =>
      let! now := time_Now in
      let key := deriveMailThreadTriageKey userID in
      let keys := map key normalizedTargets in
      let! records := query (fun d => Ok (map scan_record (List.filter
            (fun r => String.eqb (tr_UserID r) userID && one_of keys (tr_TriageKey r)) (tx_records d)))) in
      let categoryIDs := List.filter (fun id => negb (String.eqb id "")) (map tr_CategoryID records) in
      let! categories :=
        match categoryIDs with
        | [] => ret []
        | _ => query (fun d => Ok (map (fun c => mkTriageRef (tc_ID c) (normalizeMailTriageName (tc_Name c)))
                 (List.filter (fun c => String.eqb (tc_UserID c) userID && one_of categoryIDs (tc_ID c))
                    (tx_categories d))))
        end in
      let! tags := query (fun d => Ok (map (fun '(l, t) =>
            (tl_TriageKey l, mkTriageRef (tt_ID t) (normalizeMailTriageName (tt_Name t))))
            (order_by (in_orders (by_name (fun r => tt_Name (snd r)) (fun r => tt_ID (snd r))))
              (flat_map (fun l => map (fun t => (l, t)) (List.filter (fun t => String.eqb (tt_ID t) (tl_TagID l))
                                                           (tx_tags d)))
                 (List.filter (fun l => one_of keys (tl_TriageKey l)) (tx_links d)))))) in
      ret (map (fun target =>
             match find_last (fun r => String.eqb (tr_TriageKey r) (key target)) records with
             | None => buildDefaultMailThreadTriageState now userID target
             | Some record =>
                 buildMailThreadTriageState now
                   (default target (find_last (fun t => String.eqb (key t) (key target)) normalizedTargets))
                   record (find_last (fun c => String.eqb (tf_ID c) (tr_CategoryID record)) categories)
                   (map snd (List.filter (fun p => String.eqb (fst p) (key target)) tags))
             end) normalizedTargets)
  end.

(** ** Changing conversations *)

Definition getMailTriageCategoryTx (userID id : string) : TDB MailTriageCategory :=
  let! r := query (fun d => Ok (select1 (category_at userID id) (tx_categories d))) in
  match r with Some c => ret (scanMailTriageCategory c) | None => throw ErrNotFound end.

Definition getMailTriageTagTx (userID id : string) : TDB MailTriageTag :=
  let! r := query (fun d => Ok (select1 (tag_at userID id) (tx_tags d))) in
  match r with Some t => ret (scanMailTriageTag t) | None => throw ErrNotFound end.

Definition getMailTriageTagByNameTx (userID name : string) : TDB MailTriageTag :=
  let! r := query (fun d => Ok (select1 (tag_named userID (normalizeMailTriageName name)) (tx_tags d))) in
  match r with Some t => ret (scanMailTriageTag t) | None => throw ErrNotFound end.

(** After a clash the name is looked for again, up to [tries] times. *)
Fixpoint category_by_name (tries : nat) (userID name : string) : TDB string :=
  let name := normalizeMailTriageName name in
  if String.eqb name "" then ret ""
  else
    let! r := query (fun d => Ok (select1 (category_named userID name) (tx_categories d))) in
    match r with
    | Some c => ret (tc_ID c)
    | None =>
        let! now := time_Now in
        let! id := uuid_NewString in
        let! i := attempt (insert_category (mkTriageCategory id userID name now now)) in
        match i with
        | Ok _ => ret id
        | Fail ErrConstraint => match tries with
                                | O => throw ErrConstraint
                                | S tries' => category_by_name tries' userID name
                                end
        | Fail e => throw e
        end
    end.

(** Among as many fresh identifiers as there are categories, and one more, one
    is not taken. *)
Definition resolveMailTriageCategoryIDTx (userID categoryID categoryName : string) : TDB string :=
  let trimmed := TrimSpace categoryID in
  if negb (String.eqb trimmed "") then
    let! item := getMailTriageCategoryTx userID trimmed in ret (tc_ID item)
  else fun w => category_by_name (length (tx_categories (w_db w))) userID categoryName w.

Definition add_new (id : string) (l : list string) : list string := if one_of l id then l else l ++ [id].

Fixpoint tags_by_id (userID : string) (out ids : list string) : TDB (list string) :=
  match ids with
  | [] => ret out
  | id :: ids' =>
      let trimmed := TrimSpace id in
      if String.eqb trimmed "" then tags_by_id userID out ids'
      else
        let! item := getMailTriageTagTx userID trimmed in
        tags_by_id userID (add_new (tt_ID item) out) ids'
  end.

Fixpoint tags_by_name (userID : string) (createMissing : bool) (out names : list string) : TDB (list string) :=
  match names with
  | [] => ret out
  | rawName :: names' =>
      let name := normalizeMailTriageName rawName in
      if String.eqb name "" then tags_by_name userID createMissing out names'
      else
        let! found := attempt (getMailTriageTagByNameTx userID name) in
        match found with
        | Ok item => tags_by_name userID createMissing (add_new (tt_ID item) out) names'
        | Fail ErrNotFound =>
            if negb createMissing then tags_by_name userID createMissing out names'
            else
              let! now := time_Now in
              let! id := uuid_NewString in
              let! i := attempt (insert_tag (mkTriageTag id userID name now now)) in
              let! id := match i with
                         | Ok _ => ret id
                         | Fail ErrConstraint =>
                             let! item := getMailTriageTagByNameTx userID name in ret (tt_ID item)
                         | Fail e => throw e
                         end in
              tags_by_name userID createMissing (add_new id out) names'
        | Fail e => throw e
        end
  end.

Definition resolveMailTriageTagIDsTx (userID : string) (ids names : list string) (createMissing : bool)
    : TDB (list string) :=
  let! out := tags_by_id userID [] ids in
  tags_by_name userID createMissing out names.

Definition record_at (key : string) (r : MailThreadTriageRecord) : bool := String.eqb (tr_TriageKey r) key.
Definition link_of (key : string) (l : TriageLink) : bool := String.eqb (tl_TriageKey l) key.

Definition getMailThreadTriageRecordTx (userID : string) (target : MailTriageTarget) : TDB MailThreadTriageRecord :=
  let! r := query (fun d => Ok (select1 (record_at (deriveMailThreadTriageKey userID target)) (tx_records d))) in
  match r with Some x => ret (scan_record x) | None => throw ErrNotFound end.

Definition countMailThreadTriageTagsTx (triageKey : string) : TDB nat :=
  query (fun d => Ok (affected (link_of triageKey) (tx_links d))).

Definition mailThreadTriageHasState (record : MailThreadTriageRecord) (tagCount : nat) : bool :=
  negb (IsZero (tr_SnoozedUntil record)) || negb (IsZero (tr_ReminderAt record))
  || negb (String.eqb (TrimSpace (tr_CategoryID record)) "") || (0 <? Z.of_nat tagCount).

Definition is_some_time (t : option Z) : bool := match t with Some _ => true | None => false end.

Definition has_mutation (m : MailTriageMutation) (categoryID : string) (addTagIDs removeTagIDs : list string) : bool :=
  is_some_time (tm_SnoozedUntil m) || tm_ClearSnooze m || is_some_time (tm_ReminderAt m) || tm_ClearReminder m
  || negb (String.eqb categoryID "") || tm_ClearCategory m || negb (Nat.eqb (length addTagIDs) 0)
  || negb (Nat.eqb (length removeTagIDs) 0) || tm_ClearTags m.

(** The fields of a record after a mutation. *)
Definition mutate_record (m : MailTriageMutation) (categoryID : string) (now : Z) (target : MailTriageTarget)
    (r : MailThreadTriageRecord) : MailThreadTriageRecord :=
  let given v old := if String.eqb (TrimSpace v) "" then old else TrimSpace v in
  let r := r <| tr_Mailbox := given (tg_Mailbox target) (tr_Mailbox r) |>
             <| tr_Subject := given (tg_Subject target) (tr_Subject r) |>
             <| tr_FromValue := given (tg_From target) (tr_FromValue r) |> in
  let r := match tm_SnoozedUntil m with Some t => r <| tr_SnoozedUntil := t |> | None => r end in
  let r := if tm_ClearSnooze m then r <| tr_SnoozedUntil := ZeroTime |> else r in
  let r := match tm_ReminderAt m with
           | Some t => r <| tr_ReminderAt := t |> <| tr_LastReminderNotifiedAt := ZeroTime |>
           | None => r
           end in
  let r := if tm_ClearReminder m then r <| tr_ReminderAt := ZeroTime |> <| tr_LastReminderNotifiedAt := ZeroTime |>
           else r in
  let r := if tm_ClearCategory m then r <| tr_CategoryID := "" |>
           else if negb (String.eqb categoryID "") then r <| tr_CategoryID := categoryID |> else r in
  r <| tr_UpdatedAt := now |>.

(** The two keys of [mail_thread_triage]. *)
Definition same_record (r r0 : MailThreadTriageRecord) : bool :=
  String.eqb (tr_TriageKey r) (tr_TriageKey r0)
  || (String.eqb (tr_UserID r) (tr_UserID r0) && String.eqb (tr_Source r) (tr_Source r0)
      && String.eqb (tr_AccountID r) (tr_AccountID r0) && String.eqb (tr_ThreadID r) (tr_ThreadID r0)).

(** What the [UPDATE] sets; [nullStringValue] and [nullTimeValue] make NULLs. *)
Definition store_record (record : MailThreadTriageRecord) : TDB unit :=
  exec (fun d => d <| tx_records := update_rows (record_at (tr_TriageKey record))
    (fun r => r <| tr_Mailbox := tr_Mailbox record |> <| tr_Subject := tr_Subject record |>
                <| tr_FromValue := tr_FromValue record |>
                <| tr_CategoryID := if String.eqb (TrimSpace (tr_CategoryID record)) "" then "" else tr_CategoryID record |>
                <| tr_SnoozedUntil := tr_SnoozedUntil record |> <| tr_ReminderAt := tr_ReminderAt record |>
                <| tr_LastReminderNotifiedAt := tr_LastReminderNotifiedAt record |>
                <| tr_UpdatedAt := tr_UpdatedAt record |>) (tx_records d) |>).

Fixpoint add_links (key : string) (now : Z) (tagIDs : list string) : TDB unit :=
  match tagIDs with
  | [] => ret tt
  | tagID :: tagIDs' =>
      do! exec (fun d =>
            let l := mkTriageLink key tagID now in
            if existsb (fun l0 => link_of key l0 && String.eqb (tl_TagID l0) tagID) (tx_links d) then d
            else d <| tx_links := tx_links d ++ [l] |>) in
      add_links key now tagIDs'
  end.

Definition delete_links (p : TriageLink -> bool) : TDB unit :=
  exec (fun d => d <| tx_links := delete_rows p (tx_links d) |>).

(** What follows once the record of a conversation is there. *)
Definition change_record (mutation : MailTriageMutation) (categoryID : string) (addTagIDs removeTagIDs : list string)
    (now : Z) (target : MailTriageTarget) (record : MailThreadTriageRecord) : TDB unit :=
  let record := mutate_record mutation categoryID now target record in
  let key := tr_TriageKey record in
  do! store_record record in
  do! when (tm_ClearTags mutation) (delete_links (link_of key)) in
  do! add_links key now addTagIDs in
  do! when (negb (Nat.eqb (length removeTagIDs) 0))
        (delete_links (fun l => link_of key l && one_of removeTagIDs (tl_TagID l))) in
  let! tagCount := countMailThreadTriageTagsTx key in
  when (negb (mailThreadTriageHasState record tagCount))
    (exec (fun d => d <| tx_records := delete_rows (record_at key) (tx_records d) |>)).

Definition new_record (userID : string) (now : Z) (target : MailTriageTarget) : MailThreadTriageRecord :=
  mkTriageRecord (deriveMailThreadTriageKey userID target) userID (tg_Source target) (tg_AccountID target)
    (tg_ThreadID target) (tg_Mailbox target) (tg_Subject target) (tg_From target) "" ZeroTime ZeroTime ZeroTime now now.

Definition apply_to_target (userID : string) (mutation : MailTriageMutation) (categoryID : string)
    (addTagIDs removeTagIDs : list string) (now : Z) (target : MailTriageTarget) : TDB unit :=
  let change := change_record mutation categoryID addTagIDs removeTagIDs now target in
  let! found := attempt (getMailThreadTriageRecordTx userID target) in
  match found with
  | Ok record => change record
  | Fail ErrNotFound =>
      if has_mutation mutation categoryID addTagIDs removeTagIDs then
        let record := new_record userID now target in
        do! statement (fun d => match insert_row same_record record (tx_records d) with
                                | Ok rows => Ok (tt, d <| tx_records := rows |>)
                                | Fail e => Fail e
                                end) in
        change record
      else ret tt
  | Fail e => throw e
  end.

Fixpoint apply_to_targets (apply : MailTriageTarget -> TDB unit) (targets : list MailTriageTarget) : TDB unit :=
  match targets with
  | [] => ret tt
  | target :: targets' => do! apply target in apply_to_targets apply targets'
  end.

Definition ApplyMailThreadTriage (userID : string) (targets : list MailTriageTarget) (mutation : MailTriageMutation)
    : TDB (list MailThreadTriageState) :=
  match normalizeMailTriageTargets targets with
  | [] => ret []
  | normalizedTargets =>
      do! transaction (
        let! categoryID :=
          if tm_ClearCategory mutation then ret ""
          else
            let! r := attempt (resolveMailTriageCategoryIDTx userID (tm_CategoryID mutation) (tm_CategoryName mutation)) in
            match r with
            | Ok id => ret id
            | Fail ErrNotFound => ret ""
            | Fail e => throw e
            end in
        let! addTagIDs := resolveMailTriageTagIDsTx userID (tm_AddTagIDs mutation) (tm_AddTagNames mutation) true in
        let! removeTagIDs :=
          resolveMailTriageTagIDsTx userID (tm_RemoveTagIDs mutation) (tm_RemoveTagNames mutation) false in
        let! now := time_Now in
        apply_to_targets (apply_to_target userID mutation categoryID addTagIDs removeTagIDs now) normalizedTargets) in
      GetMailThreadTriageStates userID normalizedTargets
  end.

(** ** Reminders *)

Definition reminder_due (userID : string) (now : Z) (r : MailThreadTriageRecord) : bool :=
  String.eqb (tr_UserID r) userID && negb (IsZero (tr_ReminderAt r)) && (tr_ReminderAt r <=? now)
  && (IsZero (tr_LastReminderNotifiedAt r) || (tr_LastReminderNotifiedAt r <? tr_ReminderAt r)).

Definition reminder_of (r : MailThreadTriageRecord) : MailTriageReminder :=
  mkReminder (tr_TriageKey r) (normalizeMailTriageSource (tr_Source r)) (TrimSpace (tr_AccountID r))
    (TrimSpace (tr_ThreadID r)) (TrimSpace (tr_Mailbox r)) (TrimSpace (tr_Subject r)) (TrimSpace (tr_FromValue r))
    (tr_ReminderAt r).

Fixpoint mark_notified (now : Z) (items : list MailTriageReminder) : TDB unit :=
  match items with
  | [] => ret tt
  | item :: items' =>
      do! exec (fun d => d <| tx_records := update_rows (record_at (tn_TriageKey item))
            (fun r => r <| tr_LastReminderNotifiedAt := tn_ReminderAt item |> <| tr_UpdatedAt := now |>)
            (tx_records d) |>) in
      mark_notified now items'
  end.

(** What [defer tx.Rollback()] does for an error. *)
Definition rolled_back {A} (m : TDB A) : TDB A := fun w =>
  match m w with
  | (Ok a, w') => (Ok a, w')
  | (Fail e, mkWorld _ fs t u tr) => (Fail e, mkWorld (w_db w) fs t u tr)
  end.
Definition begin_or_commit : TDB unit := query (fun _ => Ok tt).

Definition PollDueMailTriageReminders (userID : string) (limit : Z) : TDB (list MailTriageReminder) :=
  let limit := if limit <=? 0 then 24 else if 100 <? limit then 100 else limit in
  rolled_back (
    do! begin_or_commit in
    let! now := time_Now in
    let! rows := query (fun d => Ok (page limit 0 (order_by
          (in_orders [(fun r => KNum (tr_ReminderAt r), ASC); (fun r => KNum (tr_UpdatedAt r), DESC)])
          (List.filter (reminder_due userID now) (tx_records d))))) in
    match map reminder_of rows with
    | [] => ret []
    | items =>
        do! mark_notified now items in
        do! begin_or_commit in
        ret items
    end).

(** ** The mail index with its triage (internal/api) *)

Definition trimmed_distinct (values : list string) : list string := distinct_from [] (map TrimSpace values).
Definition normalizeIndexedFilterTagIDs : list string -> list string := trimmed_distinct.
Definition normalizeIndexedFilterAccountIDs : list string -> list string := trimmed_distinct.

Definition queryBoolEnabled (raw : string) : bool := one_of ["1"; "true"; "yes"; "on"] (fold_trim raw).

Definition applyTriageIndexedViewFilter (view : string) (f : IndexedMessageFilter) : IndexedMessageFilter :=
  let view := fold_trim view in
  if String.eqb view "snoozed" then f <| mf_Snoozed := true |>
  else if one_of ["follow_up"; "follow-up"] view then f <| mf_FollowUp := true |>
  else f.

Definition applyLegacyIndexedViewFilter (view : string) (f : IndexedMessageFilter) : IndexedMessageFilter :=
  let v := fold_trim view in
  applyTriageIndexedViewFilter view
    (if String.eqb v "unread" then f <| mf_Unread := true |>
     else if String.eqb v "flagged" then f <| mf_Flagged := true |>
     else if String.eqb v "attachments" then f <| mf_HasAttachments := true |>
     else if String.eqb v "waiting" then f <| mf_Waiting := true |>
     else f).

(** The accounts of a filter, in its order; one that is not the user's is an
    error. *)
Fixpoint filtered_accounts (accounts : list MailAccount) (ids : list string) : Res (list MailAccount) :=
  match ids with
  | [] => Ok []
  | accountID :: ids' =>
      match find_last (fun a => String.eqb (TrimSpace (ma_ID a)) accountID) accounts with
      | None => Fail (ErrText ("filter_account_id " +:+ Quote accountID
                               +:+ " does not belong to current user scope"))
      | Some account =>
          match filtered_accounts accounts ids' with Ok l => Ok (account :: l) | Fail e => Fail e end
      end
  end.
Definition resolveIndexedFilteredAccounts (accounts : list MailAccount) (filterAccountIDs : list string)
    : Res (list MailAccount) :=
  match normalizeIndexedFilterAccountIDs filterAccountIDs with
  | [] => Ok accounts
  | ids => filtered_accounts accounts ids
  end.

Definition mailTriageExplicitFilterActive (f : IndexedMessageFilter) : bool :=
  mf_Snoozed f || mf_FollowUp f || negb (String.eqb (TrimSpace (mf_CategoryID f)) "")
  || negb (Nat.eqb (length (mf_TagIDs f)) 0).

Definition mailConversationFilterActive (f : IndexedMessageFilter) : bool :=
  mf_Waiting f || mailTriageExplicitFilterActive f.

Definition indexedMessageTriageTarget (item : IndexedMessage) : MailTriageTarget :=
  mkTriageTarget "indexed" (TrimSpace (im_AccountID item)) (TrimSpace (im_ThreadID item))
    (TrimSpace (im_Mailbox item)) (TrimSpace (im_Subject item)) (TrimSpace (im_FromValue item)).

Definition decorateIndexedMessageWithTriage (item : IndexedMessage) (triage : MailThreadTriageState) : ShownMessage :=
  mkShown item (TrimSpace (mt_TriageKey triage)) (mt_Triage triage).

Definition decorateIndexedMessagesWithTriage (userID : string) (items : list IndexedMessage) : TDB (list ShownMessage) :=
  match items with
  | [] => ret []
  | _ =>
      let! states := GetMailThreadTriageStates userID (map indexedMessageTriageTarget items) in
      let trimmed_key source accountID threadID := thread_key (TrimSpace source) (TrimSpace accountID) (TrimSpace threadID) in
      ret (map (fun item =>
             match find_last (fun s => let t := mt_Target s in
                       String.eqb (trimmed_key (tg_Source t) (tg_AccountID t) (tg_ThreadID t))
                         (trimmed_key "indexed" (im_AccountID item) (im_ThreadID item))) states with
             | Some triage => decorateIndexedMessageWithTriage item triage
             | None => mkShown item "" DefaultMailTriageState
             end) items)
  end.

Definition mailTriageTagMatch (item : MailTriageState) (required : list string) : bool :=
  match required with
  | [] => true
  | _ => existsb (fun tag => existsb (fun id => String.eqb (TrimSpace (tf_ID tag)) (TrimSpace id)) required)
           (ms_Tags item)
  end.

Definition mailTriageMatchesFilter (item : MailTriageState) (f : IndexedMessageFilter) : bool :=
  negb (mf_Snoozed f && negb (ms_IsSnoozed item))
  && negb (mf_FollowUp f && negb (is_some_time (ms_ReminderAt item)))
  && (String.eqb (mf_CategoryID f) ""
      || match ms_Category item with
         | Some c => String.eqb (TrimSpace (tf_ID c)) (TrimSpace (mf_CategoryID f))
         | None => false
         end)
  && mailTriageTagMatch item (mf_TagIDs f).

Definition mailTriageShouldHideSnoozed (item : MailTriageState) (f : IndexedMessageFilter) : bool :=
  ms_IsSnoozed item && negb (mailTriageExplicitFilterActive f).

(** The thread of a message, or the message itself. *)
Definition conversation_of (m : ShownMessage) : string :=
  let threadID := TrimSpace (im_ThreadID (sh_Message m)) in
  if String.eqb threadID "" then TrimSpace (im_ID (sh_Message m)) else threadID.

Definition collapseIndexedMessagesByThread (items : list ShownMessage) : list ShownMessage :=
  first_of_key conversation_of [] (List.filter (fun m => negb (String.eqb (conversation_of m) "")) items).

Definition triageTimeLess (a b : option Z) : bool :=
  match a, b with
  | None, _ => false
  | Some _, None => true
  | Some a, Some b => a <? b
  end.

(** The order of the two triage views, on a message's state, time and
    identifier. *)
Definition triage_less (f : IndexedMessageFilter) (a b : MailTriageState * Z * string) : bool :=
  let '(ta, at_, ida) := a in
  let '(tb, bt, idb) := b in
  let newest := if at_ =? bt then string_less (TrimSpace ida) (TrimSpace idb) else bt <? at_ in
  let by_time get rest := if triageTimeLess (get ta) (get tb) then true
                          else if triageTimeLess (get tb) (get ta) then false else rest in
  let follow_up := if mf_FollowUp f then
                     if negb (Bool.eqb (ms_IsFollowUpDue ta) (ms_IsFollowUpDue tb)) then ms_IsFollowUpDue ta
                     else by_time ms_ReminderAt newest
                   else newest in
  if mf_Snoozed f then by_time ms_SnoozedUntil follow_up else follow_up.

Definition shown_key (m : ShownMessage) : MailTriageState * Z * string :=
  (sh_Triage m, indexedMessageSortTime (sh_Message m), im_ID (sh_Message m)).

Definition sortIndexedMessagesForTriageView (f : IndexedMessageFilter) (items : list ShownMessage) : list ShownMessage :=
  order_by (fun a b => negb (triage_less f (shown_key b) (shown_key a))) items.

Definition stripIndexedTriageFilter (f : IndexedMessageFilter) : IndexedMessageFilter :=
  f <| mf_Waiting := false |> <| mf_Snoozed := false |> <| mf_FollowUp := false |> <| mf_CategoryID := "" |>
    <| mf_TagIDs := [] |>.

Definition indexedScopeAccountIDs (accounts : list MailAccount) : list string :=
  List.filter (fun id => negb (String.eqb id "")) (map (fun a => TrimSpace (ma_ID a)) accounts).

(** [strings.Trim] of angle brackets. *)
Definition strip_angles (s : string) : string :=
  let fix drop l := match l with
    | b :: l' => if existsb (Z.eqb b) [60; 62] then drop l' else l
    | [] => [] end in
  of_bytes (rev (drop (rev (drop (bytes s))))).

Definition indexedPrimaryEmail (raw : string) : string :=
  let raw := TrimSpace raw in
  if String.eqb raw "" then ""
  else match parse_address raw, parse_address_list raw with
  | Some a, _ => fold_trim a
  | None, Some (a :: _) => fold_trim a
  | None, _ =>
      let bracketed :=
        match Cut raw (ascii_of 60) with
        | Some (_, rest) => match Cut rest (ascii_of 62) with Some (inside, _) => Some inside | None => None end
        | None => None
        end in
      match bracketed with
      | Some inside => fold_trim inside
      | None => if Contains raw "@" then ToLower (strip_angles raw) else ""
      end
  end.

(** The newest message of each conversation, when someone else sent it and it
    is not answered. *)
Definition filterWaitingIndexedMessages (items : list ShownMessage) (selfEmails : list string) : list ShownMessage :=
  List.filter (fun m =>
      let sender := indexedPrimaryEmail (im_FromValue (sh_Message m)) in
      negb (im_Answered (sh_Message m)) && negb (String.eqb sender "")
      && negb (one_of (List.filter (fun e => negb (String.eqb e "")) (map fold_trim selfEmails)) sender))
    (collapseIndexedMessagesByThread items).

Definition indexedSelfEmails (u : User) (account : MailAccount) : TDB (list string) :=
  let! identities := attempt (on_mail_index (on_index (ListMailIdentities (ma_ID account)))) in
  let values := [ma_Login account; MailIdentity u]
                ++ match identities with Ok l => map mi_FromEmail l | Fail _ => [] end in
  ret (distinct_from [] (map fold_trim values)).

Fixpoint self_emails (u : User) (accounts : list MailAccount) : TDB (list string) :=
  match accounts with
  | [] => ret []
  | account :: accounts' =>
      let! values := indexedSelfEmails u account in
      let! rest := self_emails u accounts' in
      ret (values ++ rest)
  end.
Definition indexedAccountsSelfEmails (u : User) (accounts : list MailAccount) : TDB (list string) :=
  let! values := self_emails u accounts in
  ret (distinct_from [] (map fold_trim values)).

(** The loop over the batches; [Fail] of [ErrText "fuel"] is no error of the
    program. *)
Fixpoint accept_batches (fuel : nat) (userID : string) (fetch : Z -> TDB (list IndexedMessage))
    (filter : IndexedMessageFilter) (batchLimit rawOffset : Z) (accepted : list ShownMessage)
    : TDB (list ShownMessage) :=
  match fuel with
  | O => throw (ErrText "fuel")
  | S fuel' =>
      let! items := fetch rawOffset in
      match items with
      | [] => ret accepted
      | _ =>
          let! shown := decorateIndexedMessagesWithTriage userID items in
          let accepted := accepted ++ List.filter (fun m => negb (mailTriageShouldHideSnoozed (sh_Triage m) filter)
                                                            && mailTriageMatchesFilter (sh_Triage m) filter) shown in
          let n := Z.of_nat (length items) in
          if n <? batchLimit then ret accepted
          else accept_batches fuel' userID fetch filter batchLimit (rawOffset + n) accepted
      end
  end.

Definition queryIndexedMessagesWithTriage (fuel : nat) (u : User) (accounts : list MailAccount) (mailbox : string)
    (mailboxFilters : gmap string (list string)) (filter : IndexedMessageFilter) (pageNo pageSize : Z)
    (sortOrder : string) (preferSearch : bool) : TDB (list ShownMessage * Z) :=
  match indexedScopeAccountIDs accounts with
  | [] => ret ([], 0)
  | first :: more =>
      let accountIDs := first :: more in
      let offset := Z.max 0 (int64 ((pageNo - 1) * pageSize)) in
      let useSearch := preferSearch || negb (String.eqb (TrimSpace (mf_Query filter)) "") in
      let baseFilter := stripIndexedTriageFilter filter in
      let! selfEmails := if mf_Waiting filter then indexedAccountsSelfEmails u accounts else ret [] in
      let batchLimit := Z.max 120 (pageSize * 3) in
      let fetch rawOffset :=
        let! (items, _) := on_mail_index (
          match more, useSearch with
          | _ :: _, true => SearchIndexedMessagesByAccounts accountIDs mailboxFilters baseFilter batchLimit rawOffset
          | _ :: _, false =>
              ListIndexedMessagesByAccounts accountIDs mailboxFilters baseFilter sortOrder batchLimit rawOffset
          | [], true => SearchIndexedMessages first mailbox baseFilter batchLimit rawOffset
          | [], false => ListIndexedMessages first mailbox baseFilter sortOrder batchLimit rawOffset
          end) in
        ret items in
      let! accepted := accept_batches fuel (u_ID u) fetch filter batchLimit 0 [] in
      let accepted := if mf_Waiting filter then filterWaitingIndexedMessages accepted selfEmails else accepted in
      let accepted := if mailTriageExplicitFilterActive filter
                      then sortIndexedMessagesForTriageView filter (collapseIndexedMessagesByThread accepted)
                      else accepted in
      ret (page pageSize offset accepted, Z.of_nat (length accepted))
  end.

(** One round is enough for any page. *)
Definition queryIndexedMessages := queryIndexedMessagesWithTriage 1.
(** ** The live mailboxes with their triage (internal/api) *)

Definition liveTriageScanPageSize : Z := 50.
Definition liveTriageMaxPages : nat := 20.

Definition summary_triage (m : MessageSummary) : MailTriageState := default DefaultMailTriageState (mg_Triage m).

Definition presentLiveMessageSummary (item : MessageSummary) (mailbox : string) : MessageSummary :=
  let item := if String.eqb (TrimSpace (mg_Mailbox item)) "" then item <| mg_Mailbox := TrimSpace mailbox |> else item in
  let item := if String.eqb (TrimSpace (mg_ThreadID item)) ""
              then item <| mg_ThreadID := DeriveLiveThreadID "" "" [] (mg_Subject item) (mg_From item) |> else item in
  item <| mg_Source := "live" |> <| mg_Triage := Some (summary_triage item) |>.

Fixpoint distinct_summaries (seen : list string) (items : list MessageSummary) : list MessageSummary :=
  match items with
  | [] => []
  | item :: items' =>
      let id := TrimSpace (mg_ID item) in
      if String.eqb id "" then item :: distinct_summaries seen items'
      else if one_of seen id then distinct_summaries seen items'
      else item :: distinct_summaries (id :: seen) items'
  end.
Definition presentLiveMessageSummaries (items : list MessageSummary) (mailbox : string) : list MessageSummary :=
  map (fun item => presentLiveMessageSummary item mailbox) (distinct_summaries [] items).

Definition liveSummaryTriageTarget (item : MessageSummary) : MailTriageTarget :=
  mkTriageTarget "live" (TrimSpace (mg_AccountID item)) (TrimSpace (mg_ThreadID item))
    (TrimSpace (mg_Mailbox item)) (TrimSpace (mg_Subject item)) (TrimSpace (mg_From item)).

(** [modelTriageStateToMail] and [mailTriageStateToModel]: the texts trimmed. *)
Definition trim_ref (r : TriageRef) : TriageRef := mkTriageRef (TrimSpace (tf_ID r)) (TrimSpace (tf_Name r)).
Definition modelTriageStateToMail (s : MailTriageState) : MailTriageState :=
  s <| ms_Category := trim_ref <$> ms_Category s |> <| ms_Tags := map trim_ref (ms_Tags s) |>.

Definition decorateLiveMessageSummariesWithTriage (userID : string) (items : list MessageSummary)
    : TDB (list MessageSummary) :=
  match items with
  | [] => ret []
  | _ =>
      let! states := GetMailThreadTriageStates userID (map liveSummaryTriageTarget items) in
      let trimmed_key source accountID threadID := thread_key (TrimSpace source) (TrimSpace accountID) (TrimSpace threadID) in
      ret (map (fun item =>
             match find_last (fun s => let t := mt_Target s in
                       String.eqb (trimmed_key (tg_Source t) (tg_AccountID t) (tg_ThreadID t))
                         (trimmed_key "live" (mg_AccountID item) (mg_ThreadID item))) states with
             | Some triage => item <| mg_TriageKey := TrimSpace (mt_TriageKey triage) |>
                                   <| mg_Triage := Some (modelTriageStateToMail (mt_Triage triage)) |>
             | None => item
             end) items)
  end.

Definition liveSummaryMatchesTriageFilter (item : MessageSummary) : IndexedMessageFilter -> bool :=
  mailTriageMatchesFilter (modelTriageStateToMail (summary_triage item)).
Definition liveSummaryShouldHideSnoozed (item : MessageSummary) : IndexedMessageFilter -> bool :=
  mailTriageShouldHideSnoozed (modelTriageStateToMail (summary_triage item)).

Definition summary_thread (m : MessageSummary) : string :=
  let threadID := TrimSpace (mg_ThreadID m) in if String.eqb threadID "" then TrimSpace (mg_ID m) else threadID.
Definition collapseLiveMessageSummariesByThread (items : list MessageSummary) : list MessageSummary :=
  first_of_key summary_thread [] (List.filter (fun m => negb (String.eqb (summary_thread m) "")) items).

Definition sortLiveSummariesForTriageView (f : IndexedMessageFilter) (items : list MessageSummary)
    : list MessageSummary :=
  order_by (fun a b => negb (triage_less f
      (summary_triage b, mg_Date b, mg_ID b) (summary_triage a, mg_Date a, mg_ID a))) items.

(** The loop over the pages of the server, [fetch] its [Search] or
    [ListMessages]. *)
Fixpoint scan_live (pages : nat) (userID mailbox : string) (fetch : Z -> TDB (list MessageSummary))
    (filter : IndexedMessageFilter) (wanted scanPage : Z) (accepted : list MessageSummary)
    : TDB (list MessageSummary) :=
  match pages with
  | O => ret accepted
  | S pages' =>
      let! items := fetch scanPage in
      match items with
      | [] => ret accepted
      | _ =>
          let! items := decorateLiveMessageSummariesWithTriage userID (presentLiveMessageSummaries items mailbox) in
          let accepted := accepted ++ List.filter (fun m => negb (liveSummaryShouldHideSnoozed m filter)
                                                            && liveSummaryMatchesTriageFilter m filter) items in
          if negb (mailConversationFilterActive filter) && (wanted <=? Z.of_nat (length accepted)) then ret accepted
          else if Z.of_nat (length items) <? liveTriageScanPageSize then ret accepted
          else scan_live pages' userID mailbox fetch filter wanted (scanPage + 1) accepted
      end
  end.

Definition listLiveMessagesWithTriage (userID mailbox : string) (fetch : Z -> TDB (list MessageSummary))
    (pageNo pageSize : Z) (filter : IndexedMessageFilter) : TDB (list MessageSummary) :=
  let offset := Z.max 0 (int64 ((pageNo - 1) * pageSize)) in
  let! accepted := scan_live liveTriageMaxPages userID mailbox fetch filter (offset + pageSize) 1 [] in
  let accepted := if mailConversationFilterActive filter
                  then sortLiveSummariesForTriageView filter (collapseLiveMessageSummariesByThread accepted)
                  else accepted in
  ret (page pageSize offset accepted).
End Triage.

(** ** What a change of conversations touches *)

Definition other_keys (keys : list string) (key : string) : bool := negb (one_of keys key).

(** Conversations of other keys stay as they are, the mail index too, and
    categories and tags are only added, as the user's. *)
Definition triage_frame (userID : string) (keys : list string) (d d' : TriageDB) : Prop :=
  tx_index d' = tx_index d
  /\ List.filter (fun r => other_keys keys (tr_TriageKey r)) (tx_records d')
     = List.filter (fun r => other_keys keys (tr_TriageKey r)) (tx_records d)
  /\ List.filter (fun l => other_keys keys (tl_TriageKey l)) (tx_links d')
     = List.filter (fun l => other_keys keys (tl_TriageKey l)) (tx_links d)
  /\ (exists cs, tx_categories d' = tx_categories d ++ cs /\ Forall (fun c => tc_UserID c = userID) cs)
  /\ exists ts, tx_tags d' = tx_tags d ++ ts /\ Forall (fun t => tt_UserID t = userID) ts.

Section Frame.
Context {env : Env} {parsers : MailParsers} (userID : string) (keys : list string).
Local Abbreviation frame := (triage_frame userID keys).
Local Abbreviation in_frame := (fun m => spec frame 0 anydb m any).

#[local] Instance frame_preorder : PreOrder frame.
Proof.
  split.
  - intros d. split_and!; try done; exists []; by rewrite app_nil_r.
  - intros d1 d2 d3 (Hi & Hr & Hl & (cs & Hc & Fc) & (ts & Ht & Ft))
      (Hi' & Hr' & Hl' & (cs' & Hc' & Fc') & (ts' & Ht' & Ft')).
    split_and!; [congruence..| |].
    + exists (cs ++ cs'). rewrite Hc', Hc, app_assoc. by split; [|apply Forall_app].
    + exists (ts ++ ts'). rewrite Ht', Ht, app_assoc. by split; [|apply Forall_app].
Qed.

Lemma rtc_frame d d' : rtc frame d d' -> frame d d'.
Proof. induction 1; [done|by etrans]. Qed.

Lemma filter_update_outside {R} (q p : R -> bool) f rows :
  (forall r, p r = true -> q r = false /\ q (f r) = false) ->
  List.filter q (update_rows p f rows) = List.filter q rows.
Proof.
  intros H. unfold update_rows. induction rows as [|r rows IH]; [done|]. cbn. specialize (H r).
  destruct (p r); cbn; rewrite IH; [|done]. by destruct (H eq_refl) as [-> ->].
Qed.

Lemma filter_delete_outside {R} (q p : R -> bool) rows :
  (forall r, p r = true -> q r = false) -> List.filter q (delete_rows p rows) = List.filter q rows.
Proof.
  intros H. unfold delete_rows. induction rows as [|r rows IH]; [done|]. cbn. specialize (H r).
  destruct (p r); cbn; rewrite IH; [|done]. by rewrite (H eq_refl).
Qed.

Lemma frame_records p f d :
  (forall r, p r = true -> one_of keys (tr_TriageKey r) = true /\ tr_TriageKey (f r) = tr_TriageKey r) ->
  frame d (d <| tx_records := update_rows p f (tx_records d) |>).
Proof.
  intros H. split_and!; [done| |done|exists []; by rewrite app_nil_r..]. apply filter_update_outside.
  intros r Hr. unfold other_keys. destruct (H r Hr) as [Hk ->]. by rewrite Hk.
Qed.

Lemma frame_delete_record key d :
  one_of keys key = true -> frame d (d <| tx_records := delete_rows (record_at key) (tx_records d) |>).
Proof.
  intros H. split_and!; [done| |done|exists []; by rewrite app_nil_r..]. apply filter_delete_outside.
  intros r Hr%String.eqb_eq. unfold other_keys. by rewrite Hr, H.
Qed.

Lemma frame_delete_links p key d :
  one_of keys key = true -> (forall l, p l = true -> link_of key l = true) ->
  frame d (d <| tx_links := delete_rows p (tx_links d) |>).
Proof.
  intros H Hp. split_and!; [done|done| |exists []; by rewrite app_nil_r..]. apply filter_delete_outside.
  intros l Hl%Hp%String.eqb_eq. unfold other_keys. by rewrite Hl, H.
Qed.

Lemma frame_insert_record r d rows :
  one_of keys (tr_TriageKey r) = true -> insert_row same_record r (tx_records d) = Ok rows ->
  frame d (d <| tx_records := rows |>).
Proof.
  intros H [-> _]%insert_row_ok. split_and!; [done| |done|exists []; by rewrite app_nil_r..].
  cbn. rewrite List.filter_app. cbn. unfold other_keys at 2. by rewrite H, app_nil_r.
Qed.

Lemma acts_category_insert c : tc_UserID c = userID -> in_frame (insert_category c).
Proof.
  intros Hc. apply spec_statement. intros d a d' _ H.
  destruct (insert_row _ _ _) as [rows|] eqn:E; [|done]. injection H as <- <-. split; [|done]. apply rtc_once.
  apply insert_row_ok in E as [-> _].
  split_and!; try done; [exists [c]|exists []]; [|by rewrite app_nil_r]. by repeat constructor.
Qed.

Lemma acts_tag_insert t : tt_UserID t = userID -> in_frame (insert_tag t).
Proof.
  intros Hc. apply spec_statement. intros d a d' _ H.
  destruct (insert_row _ _ _) as [rows|] eqn:E; [|done]. injection H as <- <-. split; [|done]. apply rtc_once.
  apply insert_row_ok in E as [-> _].
  split_and!; try done; [exists []|exists [t]]; [by rewrite app_nil_r|]. by repeat constructor.
Qed.
#[local] Hint Resolve acts_category_insert acts_tag_insert : despatch.

Lemma acts_category_by_name tries name : in_frame (category_by_name tries userID name).
Proof.
  revert name. induction tries as [|tries IH]; intros name; cbn [category_by_name]; cbv zeta.
  all: destruct (String.eqb _ ""); [by apply spec_ret|]; apply spec_seq; [apply spec_query_any|]; intros [c|];
    [by apply spec_ret|]; apply spec_seq; [apply spec_now_any|]; intros now;
    apply spec_seq; [apply spec_uuid_any|]; intros id;
    apply spec_seq; [apply spec_attempt_any, acts_category_insert; done|]; intros [[]|e];
    [by apply spec_ret|]; destruct e; try apply spec_throw. apply IH.
Qed.

Lemma acts_resolve_category id name : in_frame (resolveMailTriageCategoryIDTx userID id name).
Proof.
  unfold resolveMailTriageCategoryIDTx. cbv zeta. destruct (negb _).
  - unfold getMailTriageCategoryTx. spec_walk.
  - intros w. apply acts_category_by_name.
Qed.

Lemma acts_tags_by_id out ids : in_frame (tags_by_id userID out ids).
Proof.
  revert out. induction ids as [|id ids IH]; intros out; cbn [tags_by_id]; cbv zeta; [by apply spec_ret|].
  destruct (String.eqb _ ""); [apply IH|]. apply spec_seq; [unfold getMailTriageTagTx; spec_walk|]. intros t. apply IH.
Qed.

Lemma acts_tags_by_name create out names : in_frame (tags_by_name userID create out names).
Proof.
  revert out. induction names as [|name names IH]; intros out; cbn [tags_by_name]; cbv zeta; [by apply spec_ret|].
  destruct (String.eqb _ ""); [apply IH|].
  apply spec_seq; [apply spec_attempt_any; unfold getMailTriageTagByNameTx; spec_walk|]. intros [t|e]; [apply IH|].
  destruct e; try apply spec_throw. destruct (negb create); [apply IH|].
  apply spec_seq; [apply spec_now_any|]. intros now. apply spec_seq; [apply spec_uuid_any|]. intros id.
  apply spec_seq; [by apply spec_attempt_any, acts_tag_insert|]. intros i.
  apply spec_seq; [unfold getMailTriageTagByNameTx; spec_walk|]. intros id'. apply IH.
Qed.

Lemma acts_resolve_tags ids names create : in_frame (resolveMailTriageTagIDsTx userID ids names create).
Proof. apply spec_seq; [apply acts_tags_by_id|]. intros out. apply acts_tags_by_name. Qed.

Lemma acts_add_links key now tagIDs : one_of keys key = true -> in_frame (add_links key now tagIDs).
Proof.
  intros Hk. induction tagIDs as [|id ids IH]; cbn [add_links]; [by apply spec_ret|].
  apply spec_seq; [|intros _; exact IH]. apply spec_exec_any. intros d. cbv zeta. apply rtc_once.
  destruct (existsb _ _); [reflexivity|]. split_and!; [done|done| |exists []; by rewrite app_nil_r..].
  cbn. rewrite List.filter_app. cbn. unfold other_keys at 2. by rewrite Hk, app_nil_r.
Qed.

Lemma mutate_record_key mutation categoryID now target r :
  tr_TriageKey (mutate_record mutation categoryID now target r) = tr_TriageKey r.
Proof.
  unfold mutate_record. cbv zeta.
  destruct (tm_SnoozedUntil _), (tm_ClearSnooze _), (tm_ReminderAt _), (tm_ClearReminder _), (tm_ClearCategory _);
    destruct (negb (String.eqb categoryID "")); reflexivity.
Qed.

Lemma acts_change mutation categoryID adds removes now target record :
  one_of keys (tr_TriageKey record) = true ->
  in_frame (change_record mutation categoryID adds removes now target record).
Proof.
  intros Hk. unfold change_record. cbv zeta. rewrite mutate_record_key.
  apply spec_seq.
  { apply spec_exec_any. intros d. apply rtc_once, frame_records. intros r Hr%String.eqb_eq.
    rewrite mutate_record_key in Hr. by rewrite Hr. }
  intros _. apply spec_seq.
  { apply spec_when, spec_exec_any. intros d. by eapply rtc_once, frame_delete_links. }
  intros _. apply spec_seq; [by apply acts_add_links|]. intros _. apply spec_seq.
  { apply spec_when, spec_exec_any. intros d. eapply rtc_once, frame_delete_links; [exact Hk|].
    by intros l [? _]%andb_true_iff. }
  intros _. apply spec_seq; [apply spec_query_any|]. intros n. apply spec_when, spec_exec_any.
  intros d. by apply rtc_once, frame_delete_record.
Qed.

Lemma acts_apply mutation categoryID adds removes now target :
  one_of keys (deriveMailThreadTriageKey userID target) = true ->
  in_frame (apply_to_target userID mutation categoryID adds removes now target).
Proof.
  intros Hk. unfold apply_to_target. cbv zeta.
  apply (spec_bind _ _ _ _ _ (fun r _ => match r with
           | Ok x => tr_TriageKey x = deriveMailThreadTriageKey userID target | Fail _ => True end)).
  { eapply spec_weaken; [apply (spec_attempt _ _ anydb _ (fun x _ => tr_TriageKey x = deriveMailThreadTriageKey userID target))
                        |done|by intros [?|?] ?].
    unfold getMailThreadTriageRecordTx. eapply spec_bind; [apply spec_query|]. intros [x|]; [|apply spec_throw].
    apply spec_ret. intros d [_ [= [_ Hx%String.eqb_eq]%find_In]]. exact Hx. }
  intros [x|e].
  - intros w Hw Hx. apply acts_change; [by rewrite Hx|done|done].
  - apply (spec_any _ _ _ _ any). destruct e; try apply spec_throw. destruct (has_mutation _ _ _ _); [|by apply spec_ret].
    apply spec_seq; [|intros _; apply acts_change; exact Hk].
    apply spec_statement. intros d a d' _ H. destruct (insert_row _ _ _) as [rows|] eqn:E; [|done].
    injection H as <- <-. split; [|done].
    apply rtc_once. eapply (frame_insert_record (new_record userID now target)); [exact Hk|exact E].
Qed.
End Frame.

(** C24. A change of conversations, whatever statement of it fails, touches no
    record and no tag of a conversation that was not named, nor the mail index;
    categories and tags are only added, to the user who asked. *)
Theorem triage_changes_named_conversations {env : Env} {parsers : MailParsers} (userID : string)
    (targets : list MailTriageTarget) (mutation : MailTriageMutation) (w : World TriageDB) :
  triage_frame userID (map (deriveMailThreadTriageKey userID) (normalizeMailTriageTargets targets))
    (w_db w) (w_db (snd (ApplyMailThreadTriage userID targets mutation w))).
Proof.
  set (keys := map _ _).
  assert (Hk : forall t, In t (normalizeMailTriageTargets targets) ->
            one_of keys (deriveMailThreadTriageKey userID t) = true).
  { intros x Hx. apply existsb_exists. exists (deriveMailThreadTriageKey userID x).
    split; [by apply in_map|apply String.eqb_refl]. }
  clearbody keys.
  assert (H : spec (triage_frame userID keys) 0 anydb (ApplyMailThreadTriage userID targets mutation) any).
  { unfold ApplyMailThreadTriage. destruct (normalizeMailTriageTargets targets) as [|t ts]; [by apply spec_ret|].
    apply spec_seq; [apply spec_transaction|intros _].
    - apply spec_seq; [destruct (tm_ClearCategory mutation); [by apply spec_ret|]|intros id].
      { apply spec_seq; [apply spec_attempt_any, acts_resolve_category|]. intros [?|[]]; spec_walk. }
      apply spec_seq; [apply acts_resolve_tags|intros adds]. apply spec_seq; [apply acts_resolve_tags|intros removes].
      apply spec_seq; [apply spec_now_any|intros now].
      induction (t :: ts) as [|x l IH]; cbn [apply_to_targets]; [by apply spec_ret|].
      apply spec_seq; [apply acts_apply, Hk; by left|]. intros _. apply IH. intros y Hy. apply Hk. by right.
    - unfold GetMailThreadTriageStates. spec_walk. }
  destruct (H w (Nat.le_0_l _) I) as (_ & Hs & _). by apply rtc_frame.
Qed.

(** ** Reminders *)

Definition mark_rows (now : Z) (rows : list MailThreadTriageRecord) (item : MailTriageReminder)
    : list MailThreadTriageRecord :=
  update_rows (record_at (tn_TriageKey item))
    (fun r => r <| tr_LastReminderNotifiedAt := tn_ReminderAt item |> <| tr_UpdatedAt := now |>) rows.

Definition poll_limit (limit : Z) : Z := if limit <=? 0 then 24 else if 100 <? limit then 100 else limit.

Lemma marked_rows {env : Env} now items w w' :
  mark_notified now items w = (Ok tt, w') ->
  tx_records (w_db w') = fold_left (mark_rows now) items (tx_records (w_db w)).
Proof.
  revert w. induction items as [|item items IH]; intros w; cbn [mark_notified fold_left].
  - by intros [= <-].
  - intros (u & w1 & H & Hr)%bind_ok. destruct u. apply exec_ok in H. rewrite (IH _ Hr), H. done.
Qed.

(** What becomes of a row: its last notification is that of a reported item of
    its key, if there is one. *)
Definition marked_from (items : list MailTriageReminder) (r0 r : MailThreadTriageRecord) : Prop :=
  tr_TriageKey r = tr_TriageKey r0 /\ tr_UserID r = tr_UserID r0 /\ tr_ReminderAt r = tr_ReminderAt r0
  /\ ((r = r0 /\ one_of (map tn_TriageKey items) (tr_TriageKey r0) = false)
      \/ exists item, In item items /\ tn_TriageKey item = tr_TriageKey r0
                      /\ tr_LastReminderNotifiedAt r = tn_ReminderAt item).

Lemma in_marked now items rows r :
  In r (fold_left (mark_rows now) items rows) -> exists r0, In r0 rows /\ marked_from items r0 r.
Proof.
  revert rows. induction items as [|item items IH]; intros rows; cbn [fold_left].
  - intros H. exists r. split; [done|]. split_and!; auto.
  - intros (r1 & (r0 & H0 & ->)%in_update_rows & Hk & Hu & Ha & Hl)%IH. exists r0. split; [done|].
    unfold marked_from. cbn [map one_of existsb]. rewrite (String.eqb_sym (tr_TriageKey r0)).
    unfold record_at in *. rewrite (String.eqb_sym (tn_TriageKey item)).
    destruct (String.eqb_spec (tr_TriageKey r0) (tn_TriageKey item)) as [E|E]; cbn in *.
    + split_and!; try done. right. destruct Hl as [[-> _]|(i & Hi & He & ->)].
      * exists item. auto.
      * exists i. auto.
    + split_and!; try done. destruct Hl as [[-> Hl]|(i & Hi & He & ->)]; [left; auto|right; exists i; auto].
Qed.

(** C26. A poll reports reminders that are due, as many as its limit at most,
    and none it has reported is due again however late the next poll comes;
    when no more than the limit are due, none of them is left. *)
Theorem reminders_are_reported_once {env : Env} (userID : string) (limit : Z) (w w' : World TriageDB)
    (items : list MailTriageReminder) :
  List.NoDup (map tr_TriageKey (tx_records (w_db w))) ->
  PollDueMailTriageReminders userID limit w = (Ok items, w') ->
  let now := env_now (w_tick w) in
  let due := List.filter (reminder_due userID now) (tx_records (w_db w)) in
  Z.of_nat (length items) <= poll_limit limit
  /\ (forall item, In item items -> exists r, In r due /\ item = reminder_of r)
  /\ (forall r later, In r (tx_records (w_db w')) -> one_of (map tn_TriageKey items) (tr_TriageKey r) = true ->
        reminder_due userID later r = false)
  /\ (Z.of_nat (length due) <= poll_limit limit ->
      forall r, In r (tx_records (w_db w')) -> reminder_due userID now r = false).
Proof.
  intros Hd H now due. unfold PollDueMailTriageReminders, rolled_back in H. cbv zeta in H.
  fold (poll_limit limit) in H.
  assert (Hlim : 0 <= poll_limit limit).
  { unfold poll_limit. destruct (Z.leb_spec limit 0); [lia|]. destruct (Z.ltb_spec 100 limit); lia. }
  destruct (bind begin_or_commit _ w) as [[l|e] [d' fs t u tr]] eqn:E; [|done]. injection H as -> <-.
  apply bind_ok in E as (x & w1 & Hb & E). unfold begin_or_commit in Hb. rewrite query_eq in Hb.
  destruct (faulty w); [done|]. injection Hb as _ <-.
  apply bind_ok in E as (now' & w2 & Hn & E). injection Hn as <- <-.
  change (env_now (w_tick (next w))) with now in E.
  apply bind_ok in E as (rows & w3 & [[= Hrows] Hw3]%query_done & E). change (w_db (next w <| w_tick := _ |>)) with (w_db w) in *.
  assert (Hin : forall r, In r rows -> In r due).
  { intros r Hr. rewrite <- Hrows in Hr. by apply in_page, in_order_by in Hr. }
  assert (Hitems : map reminder_of rows = items /\ tx_records d' = fold_left (mark_rows now) items (tx_records (w_db w))).
  { destruct (map reminder_of rows) as [|i l] eqn:Em; [injection E as <- ->; split; [done|]; cbn; by rewrite <- Hw3|].
    apply bind_ok in E as (y & w4 & Hm & E). apply bind_ok in E as (z & w5 & Hc & E). destruct y.
    apply query_done in Hc as [_ Hc]. injection E as <- ->. split; [done|].
    apply marked_rows in Hm. cbn in Hc. by rewrite Hc, Hm, Hw3. }
  destruct Hitems as [Hitems Hrec]. cbn.
  assert (Hreported : forall r, In r (tx_records d') -> one_of (map tn_TriageKey items) (tr_TriageKey r) = true ->
            forall later, reminder_due userID later r = false).
  { intros r Hr Hk later. rewrite Hrec in Hr. apply in_marked in Hr as (r0 & H0 & Ek & Eu & Ea & Hl).
    destruct Hl as [[_ Hl]|(item & Hi & Ei & El)]; [rewrite Ek in Hk; congruence|].
    rewrite <- Hitems in Hi. apply in_map_iff in Hi as (r1 & <- & [H1 Hdue]%Hin%filter_In).
    assert (r1 = r0) as ->.
    { by apply (NoDup_map_inj tr_TriageKey (tx_records (w_db w))). }
    unfold reminder_due in *. rewrite Eu, Ea, El. cbn in *.
    destruct (IsZero (tr_ReminderAt r0)); [by rewrite !andb_false_r in Hdue|].
    rewrite Z.ltb_irrefl, !andb_false_r. done. }
  split_and!.
  - rewrite <- Hitems, length_map, <- Hrows. by apply length_page.
  - intros item Hi. rewrite <- Hitems in Hi. apply in_map_iff in Hi as (r & <- & Hr). eauto.
  - intros r later Hr Hk. by apply Hreported.
  - intros Hall r Hr. destruct (reminder_due userID now r) eqn:Hdue; [|done]. exfalso.
    destruct (one_of (map tn_TriageKey items) (tr_TriageKey r)) eqn:Hk; [by rewrite Hreported in Hdue|].
    rewrite Hrec in Hr. apply in_marked in Hr as (r0 & H0 & Ek & _ & _ & Hl).
    destruct Hl as [[-> _]|(item & Hi & Ei & _)].
    + assert (Hx : In r0 rows).
      { rewrite <- Hrows. unfold page. rewrite drop_0, take_ge; [apply in_order_by, filter_In; done|].
        rewrite length_order_by. unfold due, now in Hall. lia. }
      apply (in_map reminder_of) in Hx. rewrite Hitems in Hx. apply (in_map tn_TriageKey) in Hx.
      apply not_true_iff_false in Hk. apply Hk, existsb_exists. exists (tr_TriageKey r0).
      split; [exact Hx|apply String.eqb_refl].
    + apply not_true_iff_false in Hk. apply Hk, existsb_exists. exists (tn_TriageKey item).
      split; [by apply in_map|]. apply String.eqb_eq. congruence.
Qed.

(** ** Clearing *)

(** The mutation that clears everything. *)
Definition clear_all : MailTriageMutation := mkTriageMutation None true None true "" "" true [] [] [] [] true.

Section Clear.
Context {env : Env} {parsers : MailParsers}.

#[local] Arguments delete_rows : simpl never.
#[local] Arguments update_rows : simpl never.

(** What clearing a conversation leaves of a database. *)
Definition cleared (key : string) (d : TriageDB) : TriageDB :=
  d <| tx_records := delete_rows (record_at key) (tx_records d) |> <| tx_links := delete_rows (link_of key) (tx_links d) |>.

Lemma delete_updated {R} (p : R -> bool) f (rows : list R) :
  (forall r, p (f r) = p r) -> delete_rows p (update_rows p f rows) = delete_rows p rows.
Proof.
  intros H. unfold delete_rows, update_rows. induction rows as [|r rows IH]; [done|]. cbn.
  destruct (p r) eqn:E; cbn; rewrite ?H, E; cbn; by rewrite IH.
Qed.

Lemma delete_app {R} (p : R -> bool) (l k : list R) : delete_rows p (l ++ k) = delete_rows p l ++ delete_rows p k.
Proof. apply List.filter_app. Qed.

Lemma affected_deleted {R} (p : R -> bool) rows : affected p (delete_rows p rows) = 0%nat.
Proof. apply affected_0. by intros r [_ H]%in_delete_rows. Qed.

Lemma clear_record now target record w :
  w_faults w = [] ->
  change_record clear_all "" [] [] now target record w
  = (Ok tt, w <| w_db := cleared (tr_TriageKey record) (w_db w) |>).
Proof.
  intros Hf. unfold change_record. cbv zeta. rewrite mutate_record_key. set (key := tr_TriageKey record).
  assert (Hkey : tr_TriageKey (mutate_record clear_all "" now target record) = key) by apply mutate_record_key.
  assert (Hstate : mailThreadTriageHasState (mutate_record clear_all "" now target record) 0 = false) by reflexivity.
  set (m := mutate_record _ _ _ _ _) in *. clearbody m.
  unfold store_record, delete_links, countMailThreadTriageTagsTx. rewrite bind_exec by done.
  cbn [when tm_ClearTags clear_all add_links length Nat.eqb negb]. rewrite bind_exec by done.
  unfold bind at 1. cbn [ret]. unfold bind at 1. cbn [ret]. rewrite bind_query by done.
  match goal with |- context [affected ?p ?l] =>
    assert (Ha : affected p l = 0%nat) by apply affected_deleted; rewrite Ha; clear Ha end.
  rewrite Hstate. cbn [negb when]. rewrite exec_run by done. rewrite Hkey.
  unfold cleared. destruct w as [[i cs ts rs ls] fs t u tr]. cbn.
  by rewrite delete_updated.
Qed.

(** The second key of the table holds, and the record is the only one that may
    have the first. *)
Lemma clear_target userID target now w :
  w_faults w = [] ->
  (forall r, In r (tx_records (w_db w)) -> same_record (new_record userID now target) r = true ->
     record_at (deriveMailThreadTriageKey userID target) r = true) ->
  apply_to_target userID clear_all "" [] [] now target w
  = (Ok tt, w <| w_db := cleared (deriveMailThreadTriageKey userID target) (w_db w) |>).
Proof.
  intros Hf Hk. set (key := deriveMailThreadTriageKey userID target) in *.
  unfold apply_to_target, getMailThreadTriageRecordTx. cbv zeta. fold key.
  rewrite bind_attempt, bind_query by done. unfold select1.
  destruct (List.find (record_at key) (tx_records (w_db w))) as [r|] eqn:E; cbn [ret throw fst snd].
  - apply find_In in E as [_ Hr%String.eqb_eq]. rewrite clear_record by done. cbn. by rewrite Hr.
  - cbn [has_mutation clear_all]. cbn.
    assert (Hnone : forall r, In r (tx_records (w_db w)) -> record_at key r = false) by (by apply find_none_iff).
    unfold bind. rewrite statement_run by done. unfold insert_row.
    assert (existsb (same_record (new_record userID now target)) (tx_records (w_db w)) = false) as ->.
    { apply not_true_iff_false. intros (r & Hr & Hs)%existsb_exists. specialize (Hk r Hr Hs).
      by rewrite Hnone in Hk. }
    rewrite clear_record by done. unfold cleared.
    assert (Hself : delete_rows (record_at key) [new_record userID now target] = []).
    { unfold delete_rows. cbn. unfold record_at. cbn. fold key. by rewrite String.eqb_refl. }
    change (tr_TriageKey (new_record userID now target)) with key.
    set (record := new_record userID now target) in *. clearbody record. destruct w as [[i cs ts rs ls] fs t u tr]. cbn.
    by rewrite delete_app, Hself, app_nil_r.
Qed.

Lemma states_run userID targets w :
  w_faults w = [] -> exists s w', GetMailThreadTriageStates userID targets w = (Ok s, w') /\ w_db w' = w_db w.
Proof.
  intros Hf. unfold GetMailThreadTriageStates. destruct (normalizeMailTriageTargets targets); [by do 2 eexists|].
  cbv zeta. unfold bind at 1. cbn [time_Now]. set (w1 := w <| w_tick := _ |>).
  assert (Hf1 : w_faults w1 = []) by done. assert (Hd1 : w_db w1 = w_db w) by done. clearbody w1.
  rewrite bind_query by done. cbv beta iota zeta.
  match goal with |- context [match ?l with [] => ret [] | _ :: _ => _ end] => destruct l end;
    [unfold bind at 1; cbn [ret]|rewrite bind_query by done]; rewrite bind_query by done; by do 2 eexists.
Qed.

Lemma other_than key k : other_keys [key] k = negb (String.eqb k key).
Proof. unfold other_keys, one_of. cbn. by rewrite orb_false_r. Qed.

Lemma filter_outside_key {R} (get : R -> string) key (rows : list R) :
  delete_rows (fun r => String.eqb (get r) key) rows = List.filter (fun r => other_keys [key] (get r)) rows.
Proof. apply List.filter_ext. intros r. by rewrite other_than. Qed.

Lemma filter_all {R} (q : R -> bool) rows : (forall r, In r rows -> q r = true) -> List.filter q rows = rows.
Proof.
  induction rows as [|r rows IH]; intros H; [done|]. cbn. rewrite (H r (or_introl eq_refl)), IH; [done|].
  intros x Hx. apply H. by right.
Qed.
End Clear.

(** C25. However a conversation has been changed that was in none of the tables,
    clearing it afterwards puts the tables of conversations and their tags back
    to what they were. *)
Theorem clearing_undoes_triage {env : Env} {parsers : MailParsers} (userID : string) (target t : MailTriageTarget)
    (d : TriageDB) (w : World TriageDB) :
  normalizeMailTriageTargets [target] = [t] ->
  (forall r now, In r (tx_records d) -> same_record (new_record userID now t) r = false) ->
  (forall l, In l (tx_links d) -> link_of (deriveMailThreadTriageKey userID t) l = false) ->
  triage_frame userID [deriveMailThreadTriageKey userID t] d (w_db w) ->
  w_faults w = [] ->
  exists s w', ApplyMailThreadTriage userID [target] clear_all w = (Ok s, w')
               /\ tx_records (w_db w') = tx_records d /\ tx_links (w_db w') = tx_links d
               /\ tx_index (w_db w') = tx_index d.
Proof.
  intros Ht Hr Hl (Hi & Hfr & Hfl & _ & _) Hf. set (key := deriveMailThreadTriageKey userID t) in *.
  assert (Hkey : forall r, In r (tx_records d) -> record_at key r = false).
  { intros r Hin. specialize (Hr r 0 Hin). unfold same_record in Hr. apply orb_false_iff in Hr as [Hr _].
    cbn in Hr. fold key in Hr. unfold record_at. by rewrite String.eqb_sym. }
  assert (Hrecords : delete_rows (record_at key) (tx_records (w_db w)) = tx_records d).
  { etrans; [exact (filter_outside_key tr_TriageKey key _)|]. rewrite Hfr. apply filter_all.
    intros r Hin. rewrite other_than. specialize (Hkey r Hin). unfold record_at in Hkey. by rewrite Hkey. }
  assert (Hlinks : delete_rows (link_of key) (tx_links (w_db w)) = tx_links d).
  { etrans; [exact (filter_outside_key tl_TriageKey key _)|]. rewrite Hfl. apply filter_all.
    intros l Hin. rewrite other_than. specialize (Hl l Hin). unfold link_of in Hl. by rewrite Hl. }
  unfold ApplyMailThreadTriage. rewrite Ht. cbn [tm_ClearCategory clear_all tm_AddTagIDs tm_AddTagNames
    tm_RemoveTagIDs tm_RemoveTagNames].
  set (now := env_now (w_tick w)). set (w1 := w <| w_tick := S (w_tick w) |> <| w_db := cleared key (w_db w) |>).
  assert (Hrun : apply_to_target userID clear_all "" [] [] now t (w <| w_tick := S (w_tick w) |>) = (Ok tt, w1)).
  { apply clear_target; [done|]. intros r Hin Hs. cbn in Hin. fold key.
    destruct (record_at key r) eqn:E; [done|]. exfalso.
    assert (Hind : In r (tx_records d)) by (rewrite <- Hrecords; by apply in_delete_rows).
    specialize (Hr r now Hind). congruence. }
  destruct (states_run userID [t] w1) as (s & w2 & Hs & Hd); [done|]. exists s, w2.
  unfold bind at 1. erewrite transaction_run; [|done| |].
  2: { cbn. unfold bind. cbn. fold now. rewrite Hrun. reflexivity. }
  2: done.
  rewrite Hs. split; [done|]. rewrite Hd. cbn. by rewrite Hrecords, Hlinks.
Qed.
