(* ===== verification/MailIndexFacts.v ===== *)
(** * MailIndexFacts: what holds of the mail index

    Refreshing threads against rebuilding them, how far the listing of the
    index reaches, which messages it shows, and that the keys of its tables
    stay unique. *)

From Stdlib Require Import Sorting.Sorted Sorting.Permutation.
From stdpp Require Import gmap.
From S2P Require Import Prelude Unicode GoStrings Effects GoStd GoText Json Threading MessageIds Models Users Mfa.
From S2P Require Import MailAccounts Host Identity MailModels Drafts MailSenders DraftSend OutboundStore Outbound.
From S2P Require Import ServiceFacts Sample SenderFacts MailIndex MailSearch MailTriage.

Local Open Scope Z_scope.

(** ** Answers *)

(** Whatever happens, an answer of [m] satisfies [P]. *)
Definition yields {DB A} (m : M DB A) (P : A -> Prop) : Prop := forall w a w', m w = (Ok a, w') -> P a.

Section Yields.
Context {DB : Type}.

Lemma yields_ret {A} (a : A) (P : A -> Prop) : P a -> yields (DB := DB) (ret a) P.
Proof. intros H w b w' [= <- _]. exact H. Qed.

Lemma yields_throw {A} e (P : A -> Prop) : yields (DB := DB) (throw e) P.
Proof. by intros w b w'. Qed.

Lemma yields_bind {A B} (m : M DB A) (f : A -> M DB B) P Q :
  yields m P -> (forall a, P a -> yields (f a) Q) -> yields (bind m f) Q.
Proof. intros Hm Hf w b w' (a & w1 & H1 & H2)%bind_ok. eapply Hf; [by eapply Hm|exact H2]. Qed.

Lemma yields_then {A B} (m : M DB A) (f : A -> M DB B) Q : (forall a, yields (f a) Q) -> yields (bind m f) Q.
Proof. intros Hf. eapply (yields_bind _ _ (fun _ => True)); [by intros w a w'|]. eauto. Qed.

Lemma yields_query {A} (f : DB -> Res A) (P : A -> Prop) :
  (forall d a, f d = Ok a -> P a) -> yields (query f) P.
Proof. intros H w a w' [Hq _]%query_done. by eapply H. Qed.

Lemma yields_weaken {A} (m : M DB A) (P Q : A -> Prop) : yields m P -> (forall a, P a -> Q a) -> yields m Q.
Proof. intros Hm H w a w' E. by eapply H, Hm. Qed.
End Yields.

Lemma yields_on_mail_index {A} (m : IDB A) P : yields m P -> yields (on_mail_index m) P.
Proof.
  intros Hm [d fs t u tr] a w' H. unfold on_mail_index in H.
  destruct (m _) as [r [b fs' t' u' tr']] eqn:E. injection H as -> _. by eapply Hm.
Qed.

(** ** How far a listing reaches *)

Definition short {A} (n : Z) (l : list A) : Prop := Z.of_nat (length l) <= n.

Lemma short_page {A} limit offset (l : list A) : 0 <= limit -> short limit (page limit offset l).
Proof. apply length_page. Qed.

Lemma short_le {A} m n (l : list A) : short m l -> m <= n -> short n l.
Proof. unfold short. lia. Qed.

Lemma short_filter {A} n p (l : list A) : short n l -> short n (List.filter p l).
Proof. unfold short. pose proof (filter_length_le p l). lia. Qed.

Lemma short_order_by {A} n leb (l : list A) : short n l -> short n (order_by leb l).
Proof.
  unfold short. by rewrite length_order_by.
Qed.

Lemma first_of_key_length {A} (key : A -> string) seen l : (length (first_of_key key seen l) <= length l)%nat.
Proof.
  revert seen. induction l as [|x l IH]; intros seen; [done|]. cbn.
  destruct (one_of _ _); cbn; [pose proof (IH seen)|pose proof (IH (key x :: seen))]; lia.
Qed.

Lemma short_collapse n l : short n l -> short n (collapseIndexedMessagesByThread l).
Proof.
  unfold collapseIndexedMessagesByThread. intros H%(short_filter n (fun m => negb (String.eqb (conversation_of m) ""))).
  unfold short in *. pose proof (first_of_key_length conversation_of []
    (List.filter (fun m => negb (String.eqb (conversation_of m) "")) l)). lia.
Qed.

Section Reach.
Context {env : Env} {parsers : MailParsers} {fts : FullText}.

Lemma counted_short {R A} (rows : IndexDB -> list R) (shown : list R -> list A) n :
  (forall l, short n (shown l)) -> yields (count_and_show rows shown) (fun r => short n (fst r)).
Proof.
  intros H. apply yields_then. intros total. eapply (yields_bind _ _ (short n)).
  - apply yields_query. intros d a [= <-]. apply H.
  - intros out Hout. by apply yields_ret.
Qed.

Lemma clamped_page {A} limit offset (l : list A) : short 100 (page (clampLimit limit) (clampOffset offset) l).
Proof. pose proof (clampLimit_bounds limit). eapply short_le; [apply short_page|]; lia. Qed.

Lemma list_short accountID mailboxes filter sort limit offset :
  yields (listIndexedMessagesForMailboxes accountID mailboxes filter sort limit offset) (fun r => short 100 (fst r)).
Proof. apply counted_short. intros l. apply clamped_page. Qed.

Lemma search_short accountID mailboxes filter limit offset :
  yields (searchIndexedMessagesForMailboxes accountID mailboxes filter limit offset) (fun r => short 100 (fst r)).
Proof.
  unfold searchIndexedMessagesForMailboxes. cbv zeta.
  destruct (String.eqb _ ""); [apply list_short|]. destruct (String.eqb _ ""); [apply list_short|].
  apply counted_short. intros l. apply clamped_page.
Qed.

Lemma merge_short accountIDs mailboxes fetch sortOrder limit offset :
  yields (merge_accounts accountIDs mailboxes fetch sortOrder limit offset) (fun r => short 100 (fst r)).
Proof.
  unfold merge_accounts. cbv zeta. destruct (normalizeIndexedAccountIDs accountIDs).
  - apply yields_ret. unfold short. simpl. lia.
  - apply yields_then. intros [merged total]. apply yields_ret. apply clamped_page.
Qed.

Lemma decorate_length userID items :
  yields (decorateIndexedMessagesWithTriage userID items) (fun l => length l = length items).
Proof.
  destruct items as [|item items]; [by apply yields_ret|].
  apply yields_then. intros states. apply yields_ret. by rewrite length_map.
Qed.

(** A batch that is not full is the last one. *)
Lemma accept_once fuel userID fetch filter batchLimit offset acc w :
  (forall o, yields (fetch o) (short 100)) -> 100 < batchLimit ->
  accept_batches (S fuel) userID fetch filter batchLimit offset acc w
  = accept_batches 1 userID fetch filter batchLimit offset acc w.
Proof.
  intros Hf Hb. cbn [accept_batches]. unfold bind at 1 3.
  destruct (fetch offset w) as [[items|e] w1] eqn:E; [|done]. apply Hf in E. unfold short in E.
  destruct items as [|item items]; [done|]. unfold bind.
  destruct (decorateIndexedMessagesWithTriage _ _ w1) as [[shown|e] w2]; [|done].
  cbv zeta. by rewrite (proj2 (Z.ltb_lt _ _)) by lia.
Qed.

Lemma accept_short userID fetch filter batchLimit offset :
  (forall o, yields (fetch o) (short 100)) -> 100 < batchLimit ->
  yields (accept_batches 1 userID fetch filter batchLimit offset []) (short 100).
Proof.
  intros Hf Hb. cbn [accept_batches]. eapply yields_bind; [apply Hf|]. intros items Hi.
  destruct items as [|item items]; [apply yields_ret; unfold short; simpl; lia|].
  eapply yields_bind; [apply decorate_length|]. intros shown Hs. cbv zeta. unfold short in Hi.
  rewrite (proj2 (Z.ltb_lt _ _)) by lia. apply yields_ret. rewrite app_nil_l.
  apply short_filter. unfold short. simpl in Hs. rewrite Hs. exact Hi.
Qed.

(** C27. The listing of the mail index asks the store for batches of at least
    120 messages, which answers at most 100 at a time, and takes a batch that
    is not full for the last one: it ends after the first batch, whatever
    number of rounds it may take, so that no page shows a message beyond the
    first 100 and the total never counts more. *)
Theorem index_listing_ends_after_one_batch (rounds : nat) (u : User) (accounts : list MailAccount)
    (mailbox : string) (mailboxFilters : gmap string (list string)) (filter : IndexedMessageFilter)
    (pageNo pageSize : Z) (sortOrder : string) (preferSearch : bool) (w : World TriageDB) :
  queryIndexedMessagesWithTriage (S rounds) u accounts mailbox mailboxFilters filter pageNo pageSize sortOrder
    preferSearch w
  = queryIndexedMessages u accounts mailbox mailboxFilters filter pageNo pageSize sortOrder preferSearch w
  /\ forall items total w',
       queryIndexedMessages u accounts mailbox mailboxFilters filter pageNo pageSize sortOrder preferSearch w
       = (Ok (items, total), w') ->
       total <= 100 /\ Z.of_nat (length items) <= total.
Proof.
  unfold queryIndexedMessages, queryIndexedMessagesWithTriage.
  destruct (indexedScopeAccountIDs accounts) as [|first more].
  { split; [done|]. intros items total w' [= <- <- _]. simpl. lia. }
  cbv zeta.
  match goal with |- context [accept_batches _ _ ?f _ _ _ _] => set (fetch := f) end.
  assert (Hf : forall o, yields (fetch o) (short 100)).
  { intros o. subst fetch. cbv beta.
    eapply (yields_bind _ _ (fun r => short 100 (fst r))); [|intros [items n] Hn; by apply yields_ret].
    apply yields_on_mail_index.
    destruct more, (preferSearch || _); first [apply list_short|apply search_short|apply merge_short]. }
  assert (Hb : 100 < Z.max 120 (pageSize * 3)) by lia. clearbody fetch. split.
  - match goal with |- bind ?m _ w = _ => unfold bind; destruct (m w) as [[emails|e] w1]; [|done] end.
    by rewrite accept_once.
  - intros items total w' (emails & w1 & _ & H)%bind_ok. apply bind_ok in H as (l & w2 & Hl & H).
    apply accept_short in Hl; [|done|done]. injection H as <- <- _.
    match goal with |- Z.of_nat (length ?x) <= _ /\ _ => assert (Hx : short 100 x) end.
    { destruct (mailTriageExplicitFilterActive filter), (mf_Waiting filter); unfold filterWaitingIndexedMessages;
        eauto 6 using short_order_by, short_collapse, short_filter. }
    split; [exact Hx|]. unfold page. rewrite length_take, length_drop. lia.
Qed.
End Reach.

(** ** Refreshing threads and rebuilding them *)

Section Sorted.
Context {R : Type} (leb : R -> R -> bool).
Hypothesis leb_total : forall x y, leb x y = true \/ leb y x = true.
Hypothesis leb_trans : forall x y z, leb x y = true -> leb y z = true -> leb x z = true.
Local Abbreviation sorted := (StronglySorted (fun x y => leb x y = true)).

Lemma insert_first x l : Forall (fun y => leb x y = true) l -> insert_by leb x l = x :: l.
Proof. intros H. destruct H as [|y l Hy _]; cbn; [done|by rewrite Hy]. Qed.

Lemma insert_sorted x l : sorted l -> sorted (insert_by leb x l).
Proof.
  induction 1 as [|y l Hl IH Hy]; cbn; [repeat constructor|]. destruct (leb x y) eqn:E.
  - constructor; [by constructor|]. constructor; [done|]. eapply List.Forall_impl; [|exact Hy]. cbn. eauto.
  - constructor; [done|]. apply List.Forall_forall. intros z [->|Hz]%in_insert_by; [by destruct (leb_total x y); congruence|].
    rewrite List.Forall_forall in Hy. auto.
Qed.

Lemma order_by_sorted l : sorted (order_by leb l).
Proof. induction l as [|x l IH]; cbn; [constructor|by apply insert_sorted]. Qed.

Lemma filter_insert p x l :
  sorted l -> List.filter p (insert_by leb x l) = if p x then insert_by leb x (List.filter p l) else List.filter p l.
Proof.
  induction 1 as [|y l Hl IH Hy]; cbn; [by destruct (p x)|]. destruct (leb x y) eqn:E; cbn.
  - destruct (p x); [|done]. symmetry. apply insert_first. destruct (p y); [constructor; [done|]|].
    all: apply List.Forall_forall; intros z [Hz _]%filter_In; rewrite List.Forall_forall in Hy; eauto.
  - rewrite IH. destruct (p x), (p y); cbn; by rewrite ?E.
Qed.

(** Choosing rows and ordering them commute. *)
Lemma filter_order_by p l : List.filter p (order_by leb l) = order_by leb (List.filter p l).
Proof.
  induction l as [|x l IH]; [done|]. change (order_by leb (x :: l)) with (insert_by leb x (order_by leb l)).
  rewrite filter_insert by apply order_by_sorted. cbn [List.filter]. rewrite IH. by destruct (p x).
Qed.
End Sorted.

Lemma filter_newest p rows : List.filter p (newest_internal rows) = newest_internal (List.filter p rows).
Proof. apply filter_order_by; intros; cbn in *; breflect; lia. Qed.

Lemma one_of_iff l x : one_of l x = true <-> In x l.
Proof.
  unfold one_of. rewrite existsb_exists. split; [intros (y & Hy & <-%String.eqb_eq)|]; [done|].
  intros H. exists x. split; [done|apply String.eqb_refl].
Qed.

Lemma one_of_sorted l x : one_of (sort_strings l) x = one_of l x.
Proof.
  apply eq_true_iff_eq. rewrite !one_of_iff. pose proof (sort_strings_perm l) as Hp.
  split; apply Permutation_in; [done|by symmetry].
Qed.

Definition thread_named (id : string) (rows : list ThreadRow) : option ThreadRow :=
  select1 (fun t => String.eqb (th_ID t) id) rows.
Definition agg_named (id : string) (aggs : list threadAgg) : option threadAgg :=
  List.find (fun a => String.eqb (ta_ID a) id) aggs.

Lemma named_upsert t id rows :
  thread_named id (upsert_thread t rows) = if String.eqb (th_ID t) id then Some t else thread_named id rows.
Proof.
  unfold upsert_thread, thread_named, select1. destruct (existsb (same_thread t) rows) eqn:E.
  - induction rows as [|r rows IH]; [done|]. cbn in *. unfold same_thread in *.
    destruct (String.eqb_spec (th_ID t) (th_ID r)) as [Et|Et]; cbn.
    + rewrite <- Et. destruct (String.eqb_spec (th_ID t) id) as [|En]; [done|].
      destruct (existsb (same_thread t) rows) eqn:Er; [unfold same_thread in *; auto|].
      clear IH E. induction rows as [|x rows IH]; [done|]. cbn in *. unfold same_thread in *.
      apply orb_false_iff in Er as [-> Er]. destruct (String.eqb (th_ID x) id); auto.
    + destruct (String.eqb_spec (th_ID r) id) as [<-|]; [|by apply IH].
      by apply String.eqb_neq in Et as ->.
  - rewrite (select1_app (fun t0 => String.eqb (th_ID t0) id)). unfold select1.
    destruct (String.eqb_spec (th_ID t) id) as [<-|]; [|by destruct (List.find _ rows)].
    destruct (List.find _ rows) as [r|] eqn:Ef; [|done]. apply find_In in Ef as [Hr Hid].
    exfalso. apply not_true_iff_false in E. apply E, existsb_exists. exists r. split; [done|].
    unfold same_thread. by rewrite String.eqb_sym.
Qed.

Lemma ids_upsert t rows : List.NoDup (map th_ID rows) -> List.NoDup (map th_ID (upsert_thread t rows)).
Proof.
  unfold upsert_thread. destruct (existsb (same_thread t) rows) eqn:E; intros Hd.
  - assert (map th_ID (update_rows (same_thread t) (fun _ => t) rows) = map th_ID rows) as ->; [|done].
    unfold update_rows. rewrite map_map. apply map_ext. intros r. unfold same_thread.
    by destruct (String.eqb_spec (th_ID t) (th_ID r)).
  - rewrite map_app. apply List.NoDup_app; [done|repeat constructor; auto|]. intros id Hid [<-|[]].
    apply in_map_iff in Hid as (r & Er & Hr). apply not_true_iff_false in E. apply E, existsb_exists.
    exists r. split; [done|]. apply String.eqb_eq. done.
Qed.

Lemma named_delete p id rows :
  List.NoDup (map th_ID rows) ->
  thread_named id (delete_rows p rows)
  = match thread_named id rows with Some r => if p r then None else Some r | None => None end.
Proof.
  unfold thread_named, select1, delete_rows. induction rows as [|r rows IH]; [done|]. cbn. intros [Hn Hd]%List.NoDup_cons_iff.
  specialize (IH Hd). destruct (String.eqb_spec (th_ID r) id) as [<-|Hid].
  - destruct (p r) eqn:Ep; cbn; [|by rewrite String.eqb_refl]. rewrite IH.
    destruct (List.find _ rows) as [x|] eqn:E; [|done]. apply find_In in E as [Hx Hxid%String.eqb_eq].
    exfalso. apply Hn. rewrite <- Hxid. by apply in_map.
  - destruct (p r); cbn; [done|]. by apply String.eqb_neq in Hid as ->.
Qed.

Section Threads.
Context {env : Env} {parsers : MailParsers} (accountID : string).

Definition upserted (now : Z) (aggs : list threadAgg) (rows : list ThreadRow) : list ThreadRow :=
  fold_left (fun rows a => upsert_thread (thread_row now a) rows) aggs rows.

Lemma ids_upserted now aggs rows :
  List.NoDup (map th_ID rows) -> List.NoDup (map th_ID (upserted now aggs rows)).
Proof. revert rows. induction aggs as [|a aggs IH]; intros rows H; [done|]. apply IH, ids_upsert, H. Qed.

Lemma named_upserted now id aggs rows :
  List.NoDup (map ta_ID aggs) ->
  thread_named id (upserted now aggs rows)
  = match agg_named id aggs with Some a => Some (thread_row now a) | None => thread_named id rows end.
Proof.
  revert rows. induction aggs as [|a aggs IH]; intros rows; [done|]. intros [Hn Hd]%List.NoDup_cons_iff.
  change (upserted now (a :: aggs) rows) with (upserted now aggs (upsert_thread (thread_row now a) rows)).
  rewrite IH, named_upsert by done. cbn [agg_named List.find thread_row th_ID]. fold (agg_named id aggs).
  destruct (String.eqb_spec (ta_ID a) id) as [<-|]; [|done].
  destruct (agg_named (ta_ID a) aggs) as [b|] eqn:E; [|done]. apply find_In in E as [Hb Hid%String.eqb_eq].
  exfalso. apply Hn. rewrite <- Hid. by apply in_map.
Qed.

Lemma upsert_threads_run now aggs w :
  w_faults w = [] ->
  upsert_threads now aggs w
  = (Ok tt, w <| w_db := w_db w <| ix_threads := upserted now aggs (ix_threads (w_db w)) |> |>).
Proof.
  revert w. induction aggs as [|a aggs IH]; intros w Hf; cbn [upsert_threads].
  - by destruct w as [[] ? ? ? ?].
  - rewrite bind_exec by done. by rewrite IH.
Qed.

(** *** Threads from messages *)

Definition thread_of (m : IndexedMessage) : string := NormalizeIndexedThreadID accountID (im_ThreadID m).
Definition in_thread (id : string) (m : IndexedMessage) : bool := String.eqb (thread_of m) id.

Lemma find_into id m aggs :
  agg_named id (into_threads accountID m aggs)
  = if in_thread id m
    then Some (count_message accountID m (default (new_thread accountID (thread_of m) m) (agg_named id aggs)))
    else agg_named id aggs.
Proof.
  unfold in_thread, agg_named. induction aggs as [|a aggs IH]; cbn.
  - fold (thread_of m). by destruct (String.eqb (thread_of m) id).
  - fold (thread_of m). destruct (String.eqb_spec (ta_ID a) (thread_of m)) as [E|E]; cbn.
    + rewrite <- E. by destruct (String.eqb (ta_ID a) id).
    + rewrite IH. destruct (String.eqb_spec (ta_ID a) id) as [<-|]; [|done].
      by rewrite (proj2 (String.eqb_neq _ _) (not_eq_sym E)).
Qed.

Lemma ids_into m aggs :
  map ta_ID (into_threads accountID m aggs)
  = if one_of (map ta_ID aggs) (thread_of m) then map ta_ID aggs else map ta_ID aggs ++ [thread_of m].
Proof.
  induction aggs as [|a aggs IH]; cbn; [done|]. fold (thread_of m). rewrite (String.eqb_sym (thread_of m)).
  destruct (String.eqb (ta_ID a) (thread_of m)); cbn; [done|]. rewrite IH.
  unfold one_of. by destruct (existsb _ (map ta_ID aggs)).
Qed.

Lemma agg_named_None id aggs : agg_named id aggs = None <-> one_of (map ta_ID aggs) id = false.
Proof.
  unfold agg_named, one_of. induction aggs as [|a aggs IH]; cbn; [done|]. rewrite (String.eqb_sym id).
  by destruct (String.eqb (ta_ID a) id).
Qed.

Lemma aggregate_from rows aggs :
  List.NoDup (map ta_ID aggs) ->
  let out := fold_left (fun aggs m => into_threads accountID m aggs) rows aggs in
  List.NoDup (map ta_ID out)
  /\ forall id, agg_named id out
       = fold_left (fun o m => Some (count_message accountID m (default (new_thread accountID (thread_of m) m) o)))
           (List.filter (in_thread id) rows) (agg_named id aggs).
Proof.
  revert aggs. induction rows as [|m rows IH]; intros aggs Hd; cbn; [done|].
  destruct (IH (into_threads accountID m aggs)) as [Hd' Hf].
  - rewrite ids_into. destruct (one_of (map ta_ID aggs) (thread_of m)) eqn:E; [done|].
    apply List.NoDup_app; [done|repeat constructor; auto|]. intros id Hid [<-|[]].
    apply not_true_iff_false in E. by apply E, one_of_iff.
  - split; [exact Hd'|]. intros id. etrans; [apply Hf|]. rewrite find_into. by destruct (in_thread id m).
Qed.

(** The aggregate of a thread is that of its messages alone. *)
Definition thread_total (rows : list IndexedMessage) : option threadAgg :=
  fold_left (fun o m => Some (count_message accountID m (default (new_thread accountID (thread_of m) m) o))) rows None.

Lemma aggregate_named id rows : agg_named id (aggregate accountID rows) = thread_total (List.filter (in_thread id) rows).
Proof. apply (aggregate_from rows [] (List.NoDup_nil _)). Qed.

Lemma aggregate_ids rows : List.NoDup (map ta_ID (aggregate accountID rows)).
Proof. apply (aggregate_from rows [] (List.NoDup_nil _)). Qed.

Lemma agg_named_id id aggs a : agg_named id aggs = Some a -> ta_ID a = id.
Proof. by intros [_ H%String.eqb_eq]%find_In. Qed.

Lemma agg_named_one id aggs :
  match agg_named id aggs with Some _ => true | None => false end = one_of (map ta_ID aggs) id.
Proof.
  destruct (agg_named id aggs) eqn:E; symmetry; [|by apply agg_named_None].
  apply not_false_iff_true. rewrite <- agg_named_None. congruence.
Qed.

Lemma one_of_filter q l x : one_of (List.filter q l) x = q x && one_of l x.
Proof.
  apply eq_true_iff_eq. rewrite andb_true_iff, !one_of_iff, filter_In. tauto.
Qed.

(** The messages of a thread among those a refresh reads. *)
Lemma same_messages id ids rows :
  (forall m, In m rows -> of_account accountID m = true -> thread_of m = im_ThreadID m) -> one_of ids id = true ->
  List.filter (in_thread id) (newest_internal (List.filter (fun m => of_account accountID m && one_of ids (im_ThreadID m)) rows))
  = List.filter (in_thread id) (newest_internal (List.filter (of_account accountID) rows)).
Proof.
  intros Hs Hid. rewrite !filter_newest. f_equal. induction rows as [|m rows IH]; [done|]. cbn.
  specialize (IH (fun x Hx => Hs x (or_intror Hx))).
  destruct (of_account accountID m) eqn:Ea; cbn; [|exact IH].
  destruct (one_of ids (im_ThreadID m)) eqn:Eo; cbn; [by rewrite IH|]. rewrite IH.
  unfold in_thread at 2. rewrite (Hs m (or_introl eq_refl) Ea).
  destruct (String.eqb_spec (im_ThreadID m) id) as [<-|]; [congruence|done].
Qed.

Lemma no_messages id ids rows :
  (forall m, In m rows -> of_account accountID m = true -> thread_of m = im_ThreadID m) -> one_of ids id = false ->
  List.filter (in_thread id) (List.filter (fun m => of_account accountID m && one_of ids (im_ThreadID m)) rows) = [].
Proof.
  intros Hs Hid. induction rows as [|m rows IH]; [done|]. cbn.
  specialize (IH (fun x Hx => Hs x (or_intror Hx))).
  destruct (of_account accountID m) eqn:Ea; cbn; [|exact IH].
  destruct (one_of ids (im_ThreadID m)) eqn:Eo; cbn; [|exact IH]. rewrite IH.
  unfold in_thread. rewrite (Hs m (or_introl eq_refl) Ea).
  destruct (String.eqb_spec (im_ThreadID m) id) as [<-|]; [congruence|done].
Qed.

Lemma delete_rows_ext {R} (p q : R -> bool) rows : (forall r, p r = q r) -> delete_rows p rows = delete_rows q rows.
Proof. intros H. apply List.filter_ext. intros r. by rewrite H. Qed.

(** Both end in a deletion after their upserts. *)
Lemma threads_transaction (p : ThreadRow -> bool) (body : Z -> IDB unit) aggs w :
  w_faults w = [] ->
  (forall w1, w_faults w1 = [] -> exists w2, body (env_now (w_tick w)) w1 = (Ok tt, w2) /\ w_faults w2 = []
     /\ ix_threads (w_db w2) = delete_rows p (ix_threads (w_db w1))) ->
  exists w', transaction (let! now := time_Now in do! upsert_threads now aggs in body now) w = (Ok tt, w')
             /\ ix_threads (w_db w') = delete_rows p (upserted (env_now (w_tick w)) aggs (ix_threads (w_db w))).
Proof.
  intros Hf Hb. set (now := env_now (w_tick w)) in *.
  destruct (Hb (w <| w_tick := S (w_tick w) |>
      <| w_db := w_db w <| ix_threads := upserted now aggs (ix_threads (w_db w)) |> |>)) as (w2 & H2 & Hf2 & Hd2); [done|].
  exists w2. split; [|exact Hd2]. apply transaction_run; [done| |done].
  unfold bind at 1. cbn [time_Now]. fold now. unfold bind. by rewrite upsert_threads_run.
Qed.

Lemma delete_threads_run p w :
  w_faults w = [] -> exists w2, delete_threads p w = (Ok tt, w2) /\ w_faults w2 = []
     /\ ix_threads (w_db w2) = delete_rows p (ix_threads (w_db w)).
Proof. intros Hf. eexists. unfold delete_threads. by rewrite exec_run. Qed.

Definition of_this_account (t : ThreadRow) : bool := String.eqb (th_AccountID t) accountID.

Lemma rebuild_run w :
  w_faults w = [] ->
  let aggs := aggregate accountID (newest_internal (List.filter (of_account accountID) (messages (w_db w)))) in
  exists w', RebuildThreadIndex accountID w = (Ok tt, w')
  /\ ix_threads (w_db w') = delete_rows (fun t => of_this_account t && negb (one_of (map ta_ID aggs) (th_ID t)))
                              (upserted (env_now (w_tick w)) aggs (ix_threads (w_db w))).
Proof.
  intros Hf aggs. unfold RebuildThreadIndex. rewrite bind_query by done. cbv beta iota zeta. fold aggs.
  apply (threads_transaction _ (fun _ => match aggs with [] => _ | _ :: _ => _ end)); [done|]. intros w1 Hf1.
  destruct aggs as [|a aggs'];
    (edestruct delete_threads_run as (w2 & H & Hf2 & Hd); [exact Hf1|]; exists w2; split; [exact H|]; split; [done|]);
    rewrite Hd; apply delete_rows_ext; intros t; [by rewrite andb_true_r|by rewrite one_of_sorted].
Qed.

Lemma refresh_run threadIDs w :
  w_faults w = [] ->
  let ids := normalizeThreadIDs accountID threadIDs in
  let aggs := aggregate accountID (newest_internal (List.filter
                (fun m => of_account accountID m && one_of ids (im_ThreadID m)) (messages (w_db w)))) in
  exists w', RefreshThreadIndex accountID threadIDs w = (Ok tt, w')
  /\ ix_threads (w_db w') = delete_rows (fun t => of_this_account t
                                && one_of (List.filter (fun id => negb (one_of (map ta_ID aggs) id)) ids) (th_ID t))
                              (upserted (env_now (w_tick w)) aggs (ix_threads (w_db w))).
Proof.
  intros Hf ids aggs. unfold RefreshThreadIndex. cbv zeta. fold ids. destruct ids as [|id ids'] eqn:Ei.
  { exists w. split; [done|].
    assert (E : forall rows, List.filter (fun m => of_account accountID m && false) rows = []).
    { induction rows as [|m rows IH]; [done|]. cbn. by rewrite andb_false_r. }
    subst aggs. cbn. rewrite E. unfold delete_rows. symmetry. apply filter_all. intros t _. by rewrite andb_false_r. }
  clear Ei ids. rewrite bind_query by done. cbv beta iota zeta. fold aggs.
  clearbody aggs. set (missing := List.filter _ (id :: ids')). clearbody missing.
  apply (threads_transaction _ (fun _ => match missing with [] => _ | _ :: _ => _ end)); [done|]. intros w1 Hf1.
  destruct missing as [|x missing'].
  - exists w1. split; [done|]. split; [done|]. unfold delete_rows. symmetry. apply filter_all.
    intros t _. cbn. by rewrite andb_false_r.
  - by edestruct delete_threads_run as (w2 & H & Hf2 & Hd); [exact Hf1|]; exists w2.
Qed.
End Threads.

(** C23. Refreshing some threads of an account gives each of them the row that
    rebuilding all of the account's threads would give it, or none if that
    gives none, and leaves every other row alone: the threads stored are those
    of the messages, provided the messages carry scoped thread identifiers. *)
Theorem refresh_agrees_with_rebuild {env : Env} {parsers : MailParsers} (accountID : string)
    (threadIDs : list string) (w : World IndexDB) :
  w_faults w = [] ->
  List.NoDup (map th_ID (ix_threads (w_db w))) ->
  (forall m, In m (messages (w_db w)) -> of_account accountID m = true ->
     NormalizeIndexedThreadID accountID (im_ThreadID m) = im_ThreadID m) ->
  exists refreshed rebuilt,
    RefreshThreadIndex accountID threadIDs w = (Ok tt, refreshed)
    /\ RebuildThreadIndex accountID w = (Ok tt, rebuilt)
    /\ forall id, thread_named id (ix_threads (w_db refreshed))
         = thread_named id (ix_threads (w_db (if one_of (normalizeThreadIDs accountID threadIDs) id then rebuilt else w))).
Proof.
  intros Hf Hd Hs.
  destruct (refresh_run accountID threadIDs w Hf) as (w1 & H1 & E1).
  destruct (rebuild_run accountID w Hf) as (w2 & H2 & E2). exists w1, w2. split; [done|]. split; [done|]. intros id.
  set (ids := normalizeThreadIDs accountID threadIDs) in *.
  rewrite E1, named_delete, named_upserted by auto using ids_upserted, aggregate_ids.
  set (some_aggs := aggregate accountID (newest_internal (List.filter (fun m => _ && _) _))) in *.
  set (missing := List.filter _ ids).
  assert (Hmissing : one_of missing id = negb (one_of (map ta_ID some_aggs) id) && one_of ids id) by apply one_of_filter.
  destruct (one_of ids id) eqn:Eid.
  - rewrite E2, named_delete, named_upserted by auto using ids_upserted, aggregate_ids.
    set (all_aggs := aggregate accountID (newest_internal (List.filter (of_account accountID) _))) in *.
    assert (Hsame : agg_named id some_aggs = agg_named id all_aggs).
    { unfold some_aggs, all_aggs. rewrite !aggregate_named. f_equal. apply same_messages; [|done].
      intros m Hm Ha. by apply Hs. }
    rewrite Hsame. rewrite <- agg_named_one, Hsame in Hmissing. pose proof (agg_named_one id all_aggs) as Hall.
    destruct (agg_named id all_aggs) as [a|] eqn:Ea; cbn in Hmissing.
    + apply agg_named_id in Ea. cbn [thread_row th_ID]. by rewrite Ea, Hmissing, <- Hall, !andb_false_r.
    + destruct (thread_named id (ix_threads (w_db w))) as [r|] eqn:Er; [|done].
      apply find_In in Er as [_ Er%String.eqb_eq]. by rewrite Er, Hmissing, <- Hall.
  - assert (Hnone : agg_named id some_aggs = None).
    { unfold some_aggs. rewrite aggregate_named, filter_newest, no_messages; [done| |done]. intros m Hm Ha. by apply Hs. }
    rewrite Hnone. rewrite andb_false_r in Hmissing.
    destruct (thread_named id (ix_threads (w_db w))) as [r|] eqn:Er; [|done].
    apply find_In in Er as [_ Er%String.eqb_eq]. by rewrite Er, Hmissing, andb_false_r.
Qed.

(** ** Samples *)

Definition no_search : FullText := {| fts_match q texts := true |}.

#[export] Instance index_parsers : MailParsers := {|
  parse_address_list s := if Contains s "@" then Some [s] else None;
  parse_address s := if Contains s "@" then Some s else None;
  decode_words s := Some s |}.

Definition index_of (rows : list IndexedMessage) : IndexDB :=
  mkIndexDB (mkOutboundDB (sender_db <| m_messages := rows |>) [] [] [] [] [] [] [] [] [] []) [] [] [].

Definition index_world (d : IndexDB) : World IndexDB := mkWorld d [] 0 0 [].
Definition triage_world (rows : list IndexedMessage) : World TriageDB :=
  mkWorld (mkTriageDB (index_of rows) [] [] [] []) [] 0 0 [].

Definition numbered_message (thread : string) (n : nat) : IndexedMessage :=
  let id := itoa (Z.of_nat n) in
  plain_message ("m" +:+ id) "acct-1" "INBOX" (Z.of_nat n) thread "" "" "" "carol@corp.test" "alice@work.test" ""
    "" ("Mail " +:+ id) "" "" "" false false false (Z.of_nat n) (Z.of_nat n) 0.

Definition no_filter : IndexedMessageFilter :=
  mkMessageFilter "" "" "" "" None None false false false false false false "" [] [].

(** How many messages a page shows, and of how many. *)
Definition shown_of {A} (r : Res (list A * Z) * World TriageDB) : option (nat * Z) :=
  match fst r with Ok (items, total) => Some (length items, total) | Fail _ => None end.

Lemma shown_within {A} (r : Res (list A * Z) * World TriageDB) n t :
  shown_of r = Some (n, t) ->
  (forall items total w', r = (Ok (items, total), w') -> total <= 100 /\ Z.of_nat (length items) <= total) ->
  Z.of_nat n <= t <= 100.
Proof.
  destruct r as [[[items total]|e] w']; [|done]. intros [= <- <-] H. by destruct (H _ _ _ eq_refl).
Qed.

Definition sample_listing (pageNo : Z) : Res (list ShownMessage * Z) * World TriageDB :=
  queryIndexedMessages (env := sample_env) (fts := no_search) sender_user
    [sender_account "acct-1" "user-1" "alice@work.test"] "INBOX" ∅ no_filter pageNo 10 "" false
    (triage_world (map (numbered_message "t") (seq 1 101))).

(** A mailbox of 101 messages shows 100, and nothing on the eleventh page of
    ten. *)
Lemma index_listing_ends_after_one_batch_witness :
  shown_of (sample_listing 1) = Some (10%nat, 100) /\ shown_of (sample_listing 11) = Some (0%nat, 100)
  /\ Z.of_nat 10 <= 100 <= 100.
Proof.
  assert (E : shown_of (sample_listing 1) = Some (10%nat, 100)) by (vm_compute; reflexivity).
  split; [exact E|]. split; [vm_compute; reflexivity|].
  exact (shown_within _ _ _ E (proj2 (index_listing_ends_after_one_batch (env := sample_env) (fts := no_search) 5
    sender_user [sender_account "acct-1" "user-1" "alice@work.test"] "INBOX" ∅ no_filter 1 10 "" false
    (triage_world (map (numbered_message "t") (seq 1 101)))))).
Defined.

Definition some_target : MailTriageTarget := mkTriageTarget "live" "" "conv:1" "INBOX" "Mail 1" "carol@corp.test".

Definition some_record (thread : string) (reminder : Z) : MailThreadTriageRecord :=
  (new_record "user-1" 0 (some_target <| tg_ThreadID := thread |>)) <| tr_ReminderAt := reminder |>.

Definition reminder_world : World TriageDB :=
  mkWorld (mkTriageDB (index_of []) [] [] [some_record "conv:1" 5; some_record "conv:2" 7] []) [] 0 0 [].

(** Two reminders are due; a poll for one reports the older, the next poll the
    other. *)
Lemma reminders_are_reported_once_witness :
  exists item w', PollDueMailTriageReminders (env := sample_env) "user-1" 1 reminder_world = (Ok [item], w')
  /\ tn_ThreadID item = "conv:1"
  /\ forall r later, In r (tx_records (w_db w')) -> one_of [tn_TriageKey item] (tr_TriageKey r) = true ->
       reminder_due "user-1" later r = false.
Proof.
  assert (Hd : List.NoDup (map tr_TriageKey (tx_records (w_db reminder_world)))).
  { vm_compute. repeat constructor; cbn; intuition discriminate. }
  destruct (PollDueMailTriageReminders (env := sample_env) "user-1" 1 reminder_world) as [r w'] eqn:E.
  assert (Hr : match r with Ok [i] => tn_ThreadID i = "conv:1" | _ => False end).
  { rewrite <- (f_equal fst E : _ = r). vm_compute. reflexivity. }
  destruct r as [[|item [|]]|]; try done. exists item, w'. split; [done|]. split; [exact Hr|].
  exact (proj1 (proj2 (proj2 (reminders_are_reported_once (env := sample_env) "user-1" 1 reminder_world w' [item] Hd E)))).
Defined.

Definition snooze : MailTriageMutation := mkTriageMutation (Some 99) false None false "" "Later" false [] ["x"] [] [] false.

Lemma clearing_undoes_triage_witness :
  let d := mkTriageDB (index_of []) [] [] [some_record "conv:2" 7] [] in
  let w := snd (ApplyMailThreadTriage (env := sample_env) "user-1" [some_target] snooze (mkWorld d [] 0 0 [])) in
  length (tx_records (w_db w)) = 2%nat /\ length (tx_links (w_db w)) = 1%nat
  /\ exists s w', ApplyMailThreadTriage (env := sample_env) "user-1" [some_target] clear_all w = (Ok s, w')
                  /\ tx_records (w_db w') = tx_records d /\ tx_links (w_db w') = tx_links d
                  /\ tx_index (w_db w') = tx_index d.
Proof.
  intros d w. split; [vm_compute; reflexivity|]. split; [vm_compute; reflexivity|].
  apply (clearing_undoes_triage (env := sample_env) "user-1" some_target some_target d).
  - vm_compute. reflexivity.
  - intros r now [<-|[]]. vm_compute. reflexivity.
  - intros l [].
  - split_and!; [vm_compute; reflexivity..| |];
      [exists (tx_categories (w_db w))|exists (tx_tags (w_db w))]; vm_compute; split; repeat constructor.
  - vm_compute. reflexivity.
Defined.

Definition stale_thread (id : string) : ThreadRow :=
  mkThreadRow id "acct-1" "INBOX" "old" "[]" 9 9 false false 0 "" 1 1.

Definition threaded_index : IndexDB :=
  let a := NormalizeIndexedThreadID "acct-1" "a" in
  let b := NormalizeIndexedThreadID "acct-1" "b" in
  index_of [numbered_message a 1; numbered_message a 2; numbered_message b 3]
    <| ix_threads := [stale_thread a; stale_thread (NormalizeIndexedThreadID "acct-1" "gone")] |>.

(** The refreshed thread counts its two messages, the one without messages is
    dropped, and the one not named stays absent. *)
Lemma refresh_agrees_with_rebuild_witness :
  let named d id := th_MessageCount <$> thread_named (NormalizeIndexedThreadID "acct-1" id) (ix_threads (w_db d)) in
  exists refreshed rebuilt,
    RefreshThreadIndex (env := sample_env) "acct-1" ["a"; "gone"] (index_world threaded_index) = (Ok tt, refreshed)
    /\ RebuildThreadIndex (env := sample_env) "acct-1" (index_world threaded_index) = (Ok tt, rebuilt)
    /\ named refreshed "a" = named rebuilt "a" /\ named refreshed "a" = Some 2
    /\ named refreshed "gone" = None /\ named refreshed "b" = None /\ named rebuilt "b" = Some 1.
Proof.
  intros named.
  destruct (refresh_agrees_with_rebuild (env := sample_env) "acct-1" ["a"; "gone"] (index_world threaded_index))
    as (w1 & w2 & H1 & H2 & H).
  - reflexivity.
  - vm_compute. repeat constructor; cbn; intuition discriminate.
  - intros m Hm _. destruct Hm as [<-|[<-|[<-|[]]]]; vm_compute; reflexivity.
  - assert (E1 : w1 = snd (RefreshThreadIndex (env := sample_env) "acct-1" ["a"; "gone"] (index_world threaded_index)))
      by (by rewrite H1).
    assert (E2 : w2 = snd (RebuildThreadIndex (env := sample_env) "acct-1" (index_world threaded_index))) by (by rewrite H2).
    exists w1, w2. split; [exact H1|]. split; [exact H2|]. split.
    + unfold named. by rewrite H.
    + rewrite E1, E2. vm_compute. repeat split.
Defined.
