(* ===== verification/SignIn.v ===== *)
(** * SignIn: signing in over HTTP (internal/api/router.go and router_v2.go)

    The handlers behind the guards of [Middleware]: what a request holds, how
    its JSON body is decoded, the answers with their cookies, signing in with a
    password or a passkey, trusted devices, and signing out.  A handler is a
    function of the request and of the user and session that [Authn] found; it
    answers in the monad of the service.  Request identifiers and the texts of
    the log are left out of the answers, and so are the preferences of the user
    interface. *)

From S2P Require Import Prelude GoStrings Effects GoStd GoText Json GoFmt GoTime MessageIds Threading.
From S2P Require Import Models Users Sessions Mfa Host FeatureFlags Identity Auth Admin Reset Middleware.
Local Open Scope Z_scope.

(** ** Requests and answers *)

(** What the handlers read of an [http.Request] besides what the guards read:
    the host, whether it came over TLS, two headers of proxies, the user agent,
    the body, the [{id}] of the route and the query. *)
Record APIRequest : Type := mkAPIRequest {
  aq_HTTP : HTTPRequest; aq_Host : string; aq_TLS : bool; aq_XForwardedHost : string; aq_XForwardedProto : string;
  aq_UserAgent : string; aq_Body : string; aq_ID : string; aq_Query : list (string * string)
}.
#[export] Instance eta_APIRequest : Eta APIRequest := fun r =>
  mkAPIRequest (aq_HTTP r) (aq_Host r) (aq_TLS r) (aq_XForwardedHost r) (aq_XForwardedProto r)
    (aq_UserAgent r) (aq_Body r) (aq_ID r) (aq_Query r).

(** The user and the session of the context; every route of these handlers that
    reads them is behind [Authn]. *)
Record Caller : Type := mkCaller { cl_User : User; cl_Session : option Session }.
#[export] Instance eta_Caller : Eta Caller := fun c => mkCaller (cl_User c) (cl_Session c).

Definition zero_session : Session :=
  mkSession "" "" "" "" "" "" "" None None ZeroTime ZeroTime ZeroTime ZeroTime None.
Definition session_of (c : Caller) : Session := default zero_session (cl_Session c).

Record SetCookie : Type := mkSetCookie {
  ck_Name : string; ck_Value : string; ck_HttpOnly : bool; ck_Secure : bool; ck_MaxAge : Z
}.
Record HTTPReply : Type := mkReply { rp_Status : Z; rp_Body : list (string * Json); rp_Cookies : list SetCookie }.
#[export] Instance eta_Reply : Eta HTTPReply := fun r => mkReply (rp_Status r) (rp_Body r) (rp_Cookies r).

(** [util.WriteJSON] and [util.WriteError]. *)
Definition WriteJSON (status : Z) (fields : list (string * Json)) : HTTPReply := mkReply status fields [].
Definition WriteError (status : Z) (code message : string) : HTTPReply :=
  WriteJSON status [("code", JText code); ("message", JText message)].
Definition setting_cookies (l : list SetCookie) (r : HTTPReply) : HTTPReply := r <| rp_Cookies := l ++ rp_Cookies r |>.

Definition JInteger (n : Z) : Json := JNumber (format_int n).
Definition JTime (t : Z) : Json := JText (rfc3339nano t).

(** [a, err := m; if err != nil { f(err); return }]. *)
Definition or_reply {A} (m : DBM A) (f : GoErr -> HTTPReply) (k : A -> DBM HTTPReply) : DBM HTTPReply :=
  let! r := attempt m in match r with Ok a => k a | Fail e => ret (f e) end.
Notation "'try!' x := m 'otherwise' f 'in' k" := (or_reply m f (fun x => k))
  (at level 10, x pattern, m at level 100, f at level 100, k at level 200) : despatch_scope.
Definition internal_error (message : string) (e : GoErr) : HTTPReply := WriteError 500 "internal_error" message.
Definition session_missing : HTTPReply := WriteError 401 "session_missing" "authentication required".

(** ** Bodies (json_decode.go) *)

Definition jsonLimitAuthControl : Z := 64 * 1024.
Definition jsonLimitMutation : Z := 256 * 1024.
Definition errJSONTooLarge : GoErr := ErrText "json request body too large".
Definition io_EOF : GoErr := ErrText "EOF".

(** The first value of the stream; a body without one within the limit counts
    as too large when it goes on. *)
Definition read_json (limitBytes : Z) (body : string) : Res Json :=
  let seen := of_bytes (take (Z.to_nat limitBytes) (bytes body)) in
  match json_decode seen with
  | Some v => Ok v
  | None => if limitBytes <? go_len body then Fail errJSONTooLarge
            else match skip_blanks (runes seen) with [] => Fail io_EOF | _ => Fail ErrSyntax end
  end.

Definition decodeJSON {A} (r : APIRequest) (limitBytes : Z) (allowEOF : bool) (zero : A)
    (f : list (string * Json) -> option A) : Res A :=
  match read_json limitBytes (aq_Body r) with
  | Ok JNull => Ok zero
  | Ok (JObject fields) => match f fields with Some a => Ok a | None => Fail ErrFieldType end
  | Ok _ => Fail ErrFieldType
  | Fail e => if allowEOF && bool_decide (e = io_EOF) then Ok zero else Fail e
  end.

Definition writeJSONDecodeError (e : GoErr) : HTTPReply :=
  if bool_decide (e = errJSONTooLarge) then WriteError 413 "request_too_large" "request body too large"
  else WriteError 400 "bad_request" "invalid json".

(** A body decoded into a [map[string]any]. *)
Definition decode_map (r : APIRequest) (limitBytes : Z) : Res (list (string * Json)) :=
  decodeJSON r limitBytes false [] Some.
Definition decode_text (name : string) (fields : list (string * Json)) : option string :=
  decode_text_field name "" fields.
Definition decode_flag (name : string) (fields : list (string * Json)) : option bool :=
  decode_bool_field name false fields.

(** A slice of strings; [null] elements are empty, and [null] is nil. *)
Fixpoint decode_texts (l : list Json) : option (list string) :=
  match l with
  | [] => Some []
  | JText s :: l' => rest ← decode_texts l'; Some (s :: rest)
  | JNull :: l' => rest ← decode_texts l'; Some ("" :: rest)
  | _ :: _ => None
  end.
Fixpoint decode_texts_field (name : string) (acc : list string) (fields : list (string * Json)) :
    option (list string) :=
  match fields with
  | [] => Some acc
  | (k, v) :: fields' =>
      if EqualFold k name then
        match v with
        | JArray l => texts ← decode_texts l; decode_texts_field name texts fields'
        | JNull => decode_texts_field name [] fields'
        | _ => None
        end
      else decode_texts_field name acc fields'
  end.

(** The values of a [map[string]any]. *)
Definition getMapValue (m : list (string * Json)) (key : string) : list (string * Json) :=
  match map_field key m with Some (JObject fields) => fields | _ => [] end.
Fixpoint getStringValue (m : list (string * Json)) (keys : list string) : string :=
  match keys with
  | [] => ""
  | key :: keys' =>
      match map_field key m with
      | Some (JText s) => let s := TrimSpace s in if String.eqb s "" then getStringValue m keys' else s
      | _ => getStringValue m keys'
      end
  end.
Definition getStringSliceValue (m : list (string * Json)) (key : string) : list string :=
  match map_field key m with
  | Some (JArray l) =>
      List.filter (fun s => negb (String.eqb s ""))
        (flat_map (fun v => match v with JText s => [TrimSpace s] | _ => [] end) l)
  | _ => []
  end.
(** The whole part of a [float64], exact below 2^53; answers of the security
    service are decoded without [UseNumber]. *)
Definition whole_number (text : string) : Z :=
  let '(neg, int, frac, exp) := number_parts (bytes text) in
  let n := decimal (int ++ frac) in
  let shift := exp - Z.of_nat (length frac) in
  let m := if 0 <=? shift then n * 10 ^ shift else n / 10 ^ (- shift) in
  if neg then - m else m.
Definition getInt64Value (m : list (string * Json)) (key : string) : option Z :=
  match map_field key m with Some (JNumber t) => Some (whole_number t) | _ => None end.
Definition getBoolValue (m : list (string * Json)) (key : string) : option bool :=
  match map_field key m with
  | Some (JBoolean b) => Some b
  | Some (JText s) =>
      let s := fold_trim s in
      if String.eqb s "true" then Some true else if String.eqb s "false" then Some false else None
  | _ => None
  end.

Fixpoint firstNonEmpty (values : list string) : string :=
  match values with
  | [] => ""
  | v :: values' => let s := TrimSpace v in if String.eqb s "" then firstNonEmpty values' else s
  end.
Fixpoint firstNonEmptySlice (values : list (list string)) : list string :=
  match values with
  | [] => []
  | v :: values' =>
      match List.filter (fun s => negb (String.eqb s "")) (map TrimSpace v) with
      | [] => firstNonEmptySlice values'
      | l => l
      end
  end.

(** ** The server's configuration and what it asks outside *)

(** The fields of [config.Config] that only the handlers read. *)
Class APIConfig : Type := {
  http_cfg : HTTPConfig;
  MFATrustedCookieName : string;
  WebAuthnRPID : string; WebAuthnAllowedOrigins : list string;
  MailSecSocket : string;
  CookieSecureMode : string; CookieSecure : bool;
  resetKey : string
}.

Record MailSecResponse : Type := mkMailSec {
  ms_OK : bool; ms_Code : string; ms_Error : string; ms_Result : option (list (string * Json))
}.

(** The mail security service (a program in Rust behind a socket), the packages
    otp and qrcode, [rand.Int], and of the library [url.Parse] (scheme and
    host) and [ParseIP(...).IsLoopback]. *)
Class Outside : Type := {
  mailsec_socket : nat -> bool;          (* whether [os.Stat] finds the socket *)
  mailsec_answer : nat -> string -> string -> list (string * Json) -> Res MailSecResponse;
  totp_Generate : nat -> string -> string -> Res (string * string);   (* secret and URL *)
  totp_Validate : Z -> string -> string -> bool;                      (* time, code, secret *)
  qrcode_Encode : string -> Res string;
  rand_Int : nat -> Z -> Res Z;
  url_Parse : string -> option (string * string);
  ip_IsLoopback : string -> bool
}.

Section SignIn.
Context {host : Host} {dep : Deployment} {acfg : APIConfig} {outside : Outside}.

(** ** The mail security service *)

Definition mailSecRuntimeEnabled : DBM bool := fun w =>
  (Ok (MailSecEnabled cfg
       || (negb (String.eqb (TrimSpace MailSecSocket) "") && mailsec_socket (w_tick w))), w).

Definition mailsec_Call (op accountID : string) (payload : list (string * Json)) : DBM MailSecResponse :=
  do! uuid_NewString in
  fun w => (mailsec_answer (w_fresh w) op (firstNonEmpty [accountID; "default"]) payload,
            w <| w_fresh := S (w_fresh w) |>).

Definition callMailSecOperation (op accountID : string) (payload : list (string * Json)) :
    DBM (list (string * Json)) :=
  let! enabled := mailSecRuntimeEnabled in
  if negb enabled then throw (ErrText "mailsec service is disabled")
  else
    let! resp := mailsec_Call op accountID payload in
    if negb (ms_OK resp) then throw (ErrText (TrimSpace (ms_Code resp) +:+ ": " +:+ TrimSpace (ms_Error resp)))
    else ret (default [] (ms_Result resp)).

(** ** Tokens and cookies *)

Definition randomToken : DBM string := let! buf := rand_Read in ret (base64url_encode (bytes buf)).

Definition trustedDeviceTokenHash (token : string) : string := sha256_hex (TrimSpace token).
Definition trustedDeviceUserAgentHash (userAgent : string) : string := sha256_hex (TrimSpace userAgent).
Definition first_bytes (n : nat) (s : string) : string := of_bytes (take n (bytes s)).
Definition trustedDeviceLabel (userAgent : string) : string :=
  let label := TrimSpace userAgent in
  if String.eqb label "" then "Trusted device"
  else if 120 <? go_len label then first_bytes 120 label else label.

Definition trustedDeviceCookieName : string :=
  let name := TrimSpace MFATrustedCookieName in
  if String.eqb name "" then "despatch_mfa_trusted" else name.
Definition trustedDeviceTTL : Z := 30 * 24 * Hour.

Definition forwardedProto (v : string) : string :=
  let p := TrimSpace (ToLower v) in
  TrimSpace (default "" (head (Split p (ascii_of 44)))).
Definition ResolveCookieSecure (r : APIRequest) : bool :=
  if String.eqb CookieSecureMode "always" then true
  else if String.eqb CookieSecureMode "never" then false
  else if String.eqb CookieSecureMode "auto" then
    aq_TLS r || (TrustProxy http_cfg && String.eqb (forwardedProto (aq_XForwardedProto r)) "https")
  else CookieSecure.

(** A cookie that lives until [expiresAt]; [time.Until] reads the clock. *)
Definition dated_cookie (r : APIRequest) (name value : string) (expiresAt : Z) : DBM SetCookie :=
  let! now := time_Now in
  ret (mkSetCookie name value true (ResolveCookieSecure r) (Z.max 0 (Z.quot (expiresAt - now) Second))).
Definition cleared_cookie (r : APIRequest) (name : string) (httpOnly : bool) : SetCookie :=
  mkSetCookie name "" httpOnly (ResolveCookieSecure r) (-1).

Definition setTrustedDeviceCookie (r : APIRequest) (token : string) (expiresAt : Z) : DBM SetCookie :=
  dated_cookie r trustedDeviceCookieName (TrimSpace token) expiresAt.
Definition clearTrustedDeviceCookie (r : APIRequest) : SetCookie :=
  cleared_cookie r trustedDeviceCookieName true.

(** The token of a form is also set under its first name when the name is
    another. *)
Definition csrf_names : list string :=
  CSRFCookieName http_cfg
  :: (if String.eqb (TrimSpace (CSRFCookieName http_cfg)) "despatch_csrf" then [] else ["despatch_csrf"]).
Definition setAuthCookies (r : APIRequest) (sessionToken csrfToken : string) : list SetCookie :=
  let secure := ResolveCookieSecure r in
  let maxAge := SessionAbsoluteDuration cfg / Second in
  mkSetCookie (SessionCookieName http_cfg) sessionToken true secure maxAge
  :: map (fun name => mkSetCookie name csrfToken false secure maxAge) csrf_names.
Definition clearAuthCookies (r : APIRequest) : list SetCookie :=
  cleared_cookie r (SessionCookieName http_cfg) true
  :: map (fun name => cleared_cookie r name false) csrf_names.

Definition client_ip (r : APIRequest) : string := ClientIP (aq_HTTP r) (TrustProxy http_cfg).

(** ** Trusted devices *)

Definition issueTrustedDevice (r : APIRequest) (userID : string) : DBM SetCookie :=
  let! now := time_Now in
  let! token := randomToken in
  let expiresAt := now + trustedDeviceTTL in
  let! id := uuid_NewString in
  let! _ := CreateMFATrustedDevice {|
    td_ID := id; td_UserID := userID; td_TokenHash := trustedDeviceTokenHash token;
    td_UAHash := trustedDeviceUserAgentHash (aq_UserAgent r); td_IPHint := client_ip r;
    td_DeviceLabel := trustedDeviceLabel (aq_UserAgent r); td_CreatedAt := now; td_LastUsedAt := Some now;
    td_ExpiresAt := expiresAt; td_RevokedAt := None |} in
  setTrustedDeviceCookie r token expiresAt.

Definition rotateTrustedDevice (r : APIRequest) (userID trustedDeviceID : string) : DBM SetCookie :=
  let! now := time_Now in
  let! token := randomToken in
  let expiresAt := now + trustedDeviceTTL in
  let! _ := RotateMFATrustedDeviceToken userID trustedDeviceID (trustedDeviceTokenHash token)
              (trustedDeviceUserAgentHash (aq_UserAgent r)) (client_ip r) expiresAt in
  setTrustedDeviceCookie r token expiresAt.

(** The cookie the device presents, unless it is blank. *)
Definition trusted_cookie (r : APIRequest) : option string :=
  match Cookie (aq_HTTP r) trustedDeviceCookieName with
  | Some v => if String.eqb (TrimSpace v) "" then None else Some v
  | None => None
  end.

(** The cookies set on the way come with the outcome. *)
Definition tryAuthenticateTrustedDevice (r : APIRequest) (user : User) (sess : Session) :
    DBM (list SetCookie * Res bool) :=
  match trusted_cookie r with
  | None => ret ([], Ok false)
  | Some value =>
      let! now := time_Now in
      let! found := attempt (GetActiveMFATrustedDeviceByTokenHash (u_ID user) (trustedDeviceTokenHash value) now) in
      match found with
      | Fail e => if errors_Is e ErrNotFound then ret ([clearTrustedDeviceCookie r], Ok false)
                  else ret ([], Fail e)
      | Ok trusted =>
          if negb (String.eqb (TrimSpace (td_UAHash trusted)) "")
             && negb (String.eqb (td_UAHash trusted) (trustedDeviceUserAgentHash (aq_UserAgent r)))
          then ret ([clearTrustedDeviceCookie r], Ok false)
          else
            let! marked := attempt (SetSessionMFAVerified (s_ID sess) "trusted_device") in
            match marked with
            | Fail e => ret ([], Fail e)
            | Ok _ =>
                let! rotated := attempt (rotateTrustedDevice r (u_ID user) (td_ID trusted)) in
                ret match rotated with Ok c => ([c], Ok true) | Fail e => ([], Fail e) end
            end
      end
  end.

(** ** The stage a sign-in reaches *)

Definition stage_text (s : AuthStage) : string :=
  match s with
  | AuthStageAuthenticated => "authenticated"
  | AuthStageMFARequired => "mfa_required"
  | AuthStageMFASetupNeeded => "mfa_setup_required"
  end.
Definition applyAuthStageFields (stage : MFAStage) : list (string * Json) :=
  [("auth_stage", JText (stage_text (st_AuthStage stage))); ("mfa_required", JBoolean (st_MFARequired stage));
   ("mfa_setup_required", JBoolean (st_MFASetupRequired stage));
   ("mfa_setup_method", JText (st_MFASetupMethod stage)); ("mfa_setup_step", JText (st_MFASetupStep stage));
   ("mfa_enrolled", JBoolean (st_MFAEnrolled stage)); ("legacy_mfa_prompt", JBoolean (st_LegacyMFAPrompt stage));
   ("mfa_preference", JText (st_MFAPreference stage)); ("mfa_trusted_supported", JBoolean true)].

Definition is_authenticated (stage : MFAStage) : bool := bool_decide (st_AuthStage stage = AuthStageAuthenticated).

(** What follows once a trusted device has been looked at. *)
Definition settle_stage (sess : Session) (stage : MFAStage) : DBM (Session * MFAStage) :=
  if negb (is_authenticated stage) then
    do! ClearSessionMFAVerified (s_ID sess) in
    ret (sess <| s_MFAVerifiedAt := None |>, stage)
  else match s_MFAVerifiedAt sess with
  | Some _ => ret (sess, stage)
  | None =>
      do! SetSessionMFAVerified (s_ID sess) "password" in
      let! now := time_Now in
      ret (sess <| s_MFAVerifiedAt := Some now |>, stage)
  end.

Definition resolveLoginStage (r : APIRequest) (token : string) (user : User) :
    DBM (list SetCookie * Res (Session * MFAStage)) :=
  let tokenHash := sha256_hex token in
  let read := let! sess := GetSessionByTokenHash tokenHash in
              let! stage := ResolveMFAStage user (Some sess) in
              ret (sess, stage) in
  let! first := attempt read in
  match first with
  | Fail e => ret ([], Fail e)
  | Ok (sess, stage) =>
      let! (cookies, again) :=
        if bool_decide (st_AuthStage stage = AuthStageMFARequired) then
          let! (cookies, trustedOK) := tryAuthenticateTrustedDevice r user sess in
          match trustedOK with
          | Fail e => ret (cookies, Fail e)
          | Ok false => ret (cookies, Ok (sess, stage))
          | Ok true => let! second := attempt read in ret (cookies, second)
          end
        else ret ([], Ok (sess, stage)) in
      match again with
      | Fail e => ret (cookies, Fail e)
      | Ok (sess, stage) => let! settled := attempt (settle_stage sess stage) in ret (cookies, settled)
      end
  end.

Definition ensureSetupComplete (k : DBM HTTPReply) : DBM HTTPReply :=
  try! status := SetupStatus otherwise (fun e => internal_error (err_text e) e) in
  if ss_Required status then ret (WriteError 423 "setup_required" "first-run setup is required") else k.

(** The fields every answer to a sign-in has. *)
Definition signed_in (user : User) (csrfToken : string) (sess : Session) (stage : MFAStage) : list (string * Json) :=
  [("user_id", JText (u_ID user)); ("email", JText (u_Email user)); ("role", JText (u_Role user));
   ("csrf_token", JText csrfToken); ("mail_secret_required", JBoolean (String.eqb (TrimSpace (s_MailSecret sess)) ""))]
  ++ applyAuthStageFields stage.

(** The end of a sign-in; the cookies set on the way are sent with an error too. *)
Definition after_stage (outcome : list SetCookie * Res (Session * MFAStage)) (k : Session -> MFAStage -> DBM HTTPReply) :
    DBM HTTPReply :=
  let (cookies, res) := outcome in
  let! reply := match res with
                | Fail e => ret (internal_error "cannot finalize login session" e)
                | Ok (sess, stage) => k sess stage
                end in
  ret (setting_cookies cookies reply).

(** ** Signing in with a password *)

Record loginRequest : Type := mkLoginRequest { lr_Email : string; lr_Identifier : string; lr_Password : string }.
Definition decode_login (r : APIRequest) : Res loginRequest :=
  decodeJSON r jsonLimitAuthControl false (mkLoginRequest "" "" "") (fun l =>
    email ← decode_text "email" l; identifier ← decode_text "identifier" l; password ← decode_text "password" l;
    Some (mkLoginRequest email identifier password)).
Definition loginRequestIdentifier (req : loginRequest) : string := firstNonEmpty [lr_Identifier req; lr_Email req].

(** [t.Truncate(d)] counts from the year 1. *)
Definition Truncate (t d : Z) : Z := t - (t - ZeroTime) mod d.

Definition pam_down_message (e : GoErr) : string :=
  let lowerErr := ToLower (err_text e) in
  if Contains lowerErr "x509" || Contains lowerErr "certificate" || Contains lowerErr "tls"
  then "IMAP TLS verification failed while validating PAM credentials. If using IMAP_HOST=127.0.0.1, set IMAP_INSECURE_SKIP_VERIFY=true or set IMAP_HOST to your mail FQDN."
  else "cannot validate PAM credentials because IMAP connectivity failed; check IMAP_HOST/IMAP_PORT/IMAP_TLS/IMAP_STARTTLS".

(** Status and code of a refused sign-in after [failCount] failures. *)
Definition login_refusal (e : GoErr) (failCount : Z) : HTTPReply :=
  let '(status, code) := if 6 <? failCount then (429, "rate_limited") else (401, "invalid_credentials") in
  let '(status, code) := if bool_decide (e = ErrPendingApproval) then (403, "pending_approval") else (status, code) in
  let '(status, code) := if bool_decide (e = ErrSuspended) then (403, "suspended") else (status, code) in
  WriteError status code (err_text e).

(** The pause after more than three failures changes nothing. *)
Definition login_failed (r : APIRequest) (identifier : string) (e : GoErr) : DBM HTTPReply :=
  let key := client_ip r +:+ "|" +:+ fold_trim identifier in
  let! now := time_Now in
  let! counted := attempt (IncrementRateEvent key "login_failed" (Truncate now (15 * Minute))) in
  let failCount := match counted with Ok n => n | Fail _ => 0 end in
  let! now := time_Now in
  do! ignore (CleanupRateEventsBefore (now - 24 * Hour)) in
  ret (login_refusal e failCount).

Definition HandleLogin (r : APIRequest) : DBM HTTPReply :=
  ensureSetupComplete (
    try! req := of_res (decode_login r) otherwise writeJSONDecodeError in
    let identifier := loginRequestIdentifier req in
    let! res := attempt (Login identifier (lr_Password req) (RemoteAddr (aq_HTTP r)) (aq_UserAgent r)) in
    match res with
    | Fail e =>
        if errors_Is e ErrPAMVerifierDown then ret (WriteError 502 "pam_verifier_unavailable" (pam_down_message e))
        else login_failed r identifier e
    | Ok (token, user) =>
        do! ignore (DeleteRateEvents (client_ip r +:+ "|" +:+ fold_trim identifier) "login_failed") in
        let! outcome := resolveLoginStage r token user in
        after_stage outcome (fun sess stage =>
          try! csrfToken := randomToken otherwise internal_error "failed to generate token" in
          ret (setting_cookies (setAuthCookies r token csrfToken)
                 (WriteJSON 200 (("identifier", JText (u_Email user)) :: signed_in user csrfToken sess stage))))
    end).

Definition V2Login (r : APIRequest) : DBM HTTPReply :=
  ensureSetupComplete (
    try! req := of_res (decode_login r) otherwise writeJSONDecodeError in
    let! res := attempt (Login (loginRequestIdentifier req) (lr_Password req) (RemoteAddr (aq_HTTP r)) (aq_UserAgent r)) in
    match res with
    | Fail e =>
        ret (if errors_Is e ErrPAMVerifierDown
             then WriteError 502 "pam_verifier_unavailable" "cannot validate PAM credentials"
             else login_refusal e 0)
    | Ok (token, user) =>
        try! csrfToken := randomToken otherwise internal_error "failed to generate token" in
        let! outcome := resolveLoginStage r token user in
        after_stage outcome (fun sess stage =>
          ret (setting_cookies (setAuthCookies r token csrfToken)
                 (WriteJSON 200 (("identifier", JText (u_Email user)) :: ("session_active", JBoolean true)
                                 :: signed_in user csrfToken sess stage))))
    end).

Definition HandleLogout (r : APIRequest) : DBM HTTPReply :=
  do! match Cookie (aq_HTTP r) (SessionCookieName http_cfg) with
      | Some v => when (negb (String.eqb v "")) (ignore (Logout v))
      | None => ret tt
      end in
  ret (setting_cookies (clearAuthCookies r) (WriteJSON 200 [("status", JText "ok")])).

Definition sessionMailSecretUnlock (r : APIRequest) (c : Caller) : DBM HTTPReply :=
  match cl_Session c with
  | None => ret session_missing
  | Some sess =>
      try! password := of_res (decodeJSON r jsonLimitAuthControl false "" (decode_text "password"))
        otherwise writeJSONDecodeError in
      try! _ := UnlockSessionMailSecret (u_ID (cl_User c)) (s_ID sess) password otherwise (fun e =>
        if errors_Is e ErrPAMVerifierDown then WriteError 502 "pam_verifier_unavailable" "cannot validate PAM credentials"
        else if errors_Is e ErrInvalidCredentials then WriteError 401 "invalid_credentials" "invalid credentials"
        else if errors_Is e ErrNotFound then WriteError 401 "session_invalid" "invalid session"
        else WriteError 500 "mail_secret_unlock_failed" (err_text e)) in
      ret (WriteJSON 200 [("status", JText "ok"); ("mail_secret_required", JBoolean false)])
  end.

(** ** Origins and relying parties *)

Definition count_byte (a : Ascii.ascii) (s : string) : nat :=
  length (List.filter (Ascii.eqb a) (String.list_ascii_of_string s)).
Definition trim_brackets_of (s : string) : string := TrimPrefix (TrimSuffix s "]") "[".

Definition hostWithoutPort (host : string) : string :=
  let host := TrimSpace host in
  let colons := count_byte (ascii_of 58) host in
  if String.eqb host "" then ""
  else if HasPrefix host "[" && Contains host "]" && Nat.leb 2 colons
  then TrimPrefix (default "" (head (Split host (ascii_of 93)))) "["
  else if Nat.eqb colons 0 then ToLower (TrimSpace host)
  else if Nat.ltb 1 colons then trim_brackets_of (fold_trim host)
  else match SplitHost host with
       | Some h => trim_brackets_of (fold_trim h)
       | None => ToLower (TrimSpace host)
       end.

Definition normalizeRPIDCandidate (raw : string) : string :=
  let value := TrimSpace (ToLower raw) in
  hostWithoutPort (TrimSuffix (TrimSuffix (TrimPrefix (TrimPrefix value "https://") "http://") "/") ".").

Definition normalizeOrigin (raw : string) : string :=
  match url_Parse (TrimSpace raw) with
  | Some (scheme, host) =>
      if String.eqb scheme "" || String.eqb host "" then ""
      else fold_trim scheme +:+ "://" +:+ fold_trim host
  | None => ""
  end.
Definition originHost (origin : string) : string :=
  match url_Parse (TrimSpace origin) with Some (_, host) => hostWithoutPort host | None => "" end.
Definition originInList (origin : string) (allowed : list string) : bool :=
  let normalized := normalizeOrigin origin in
  negb (String.eqb normalized "") && existsb (fun item => String.eqb (normalizeOrigin item) normalized) allowed.

Definition isLoopbackHost (host : string) : bool :=
  let host := trim_brackets_of (fold_trim host) in
  String.eqb host "localhost" || HasSuffix host ".localhost" || ip_IsLoopback host.
Definition isWebAuthnSecureOrigin (origin : string) : bool :=
  match url_Parse (TrimSpace origin) with
  | None => false
  | Some (scheme, host) =>
      let scheme := fold_trim scheme in
      if String.eqb scheme "https" then true
      else String.eqb scheme "http" && isLoopbackHost (hostWithoutPort host)
  end.
Definition hostMatchesRPID (host rpID : string) : bool :=
  let h := normalizeRPIDCandidate host in
  let rp := normalizeRPIDCandidate rpID in
  if String.eqb h "" || String.eqb rp "" then false else String.eqb h rp || HasSuffix h ("." +:+ rp).

(** The first element of a list that a proxy sends. *)
Definition first_element (s : string) : string := TrimSpace (default "" (head (Split s (ascii_of 44)))).
Definition requestHost (r : APIRequest) : string :=
  let xfh := TrimSpace (aq_XForwardedHost r) in
  if TrustProxy http_cfg && negb (String.eqb xfh "") then first_element xfh else TrimSpace (aq_Host r).

Definition mode_or_local : DBM string :=
  let! mode := attempt InstanceMode in
  ret match mode with Ok m => m | Fail _ => InstanceModeLocalStack end.

Definition webAuthnRPID (r : APIRequest) : DBM string :=
  let configured := normalizeRPIDCandidate WebAuthnRPID in
  if negb (String.eqb configured "") then ret configured
  else
    let! mode := mode_or_local in
    let! stored := attempt (GetSetting "base_domain") in
    let stored := match stored with Ok (Some raw) => normalizeRPIDCandidate raw | _ => "" end in
    let of_request := normalizeRPIDCandidate (hostWithoutPort (requestHost r)) in
    ret (if negb (String.eqb stored "") then stored
         else if String.eqb mode InstanceModeExternalAccounts then of_request
         else let raw := normalizeRPIDCandidate (BaseDomain cfg) in
              if negb (String.eqb raw "") then raw else of_request).

Definition webAuthnAllowedOrigins (requestOrigin : string) : list string :=
  match distinct_from [] (map normalizeOrigin WebAuthnAllowedOrigins) with
  | [] => let derived := normalizeOrigin requestOrigin in if String.eqb derived "" then [] else [derived]
  | l => l
  end.

Definition requestOrigin (r : APIRequest) : DBM string :=
  let xfp := TrimSpace (aq_XForwardedProto r) in
  let scheme :=
    if TrustProxy http_cfg && negb (String.eqb xfp "") then ToLower (first_element xfp)
    else if aq_TLS r then "https" else "http" in
  let! host := if String.eqb (requestHost r) "" then webAuthnRPID r else ret (requestHost r) in
  ret (if String.eqb host "" then "" else scheme +:+ "://" +:+ host).

Record webAuthnContext : Type := mkWebAuthnContext {
  wa_RPID : string; wa_Origins : list string; wa_RequestOrigin : string; wa_Reason : string
}.
#[export] Instance eta_webAuthnContext : Eta webAuthnContext := fun c =>
  mkWebAuthnContext (wa_RPID c) (wa_Origins c) (wa_RequestOrigin c) (wa_Reason c).

Definition resolveWebAuthnContext (r : APIRequest) : DBM webAuthnContext :=
  let! rpID := webAuthnRPID r in
  let! requestOrigin := requestOrigin r in
  let origins := webAuthnAllowedOrigins requestOrigin in
  let host := hostWithoutPort (requestHost r) in
  let host := if String.eqb host "" then originHost requestOrigin else host in
  ret (mkWebAuthnContext rpID origins requestOrigin
    (if negb (isWebAuthnSecureOrigin requestOrigin) then "insecure_origin"
     else if String.eqb (TrimSpace rpID) "" then "rp_mismatch"
     else if negb (originInList requestOrigin origins) then "origin_mismatch"
     else if negb (String.eqb host "") && negb (isLoopbackHost host) && negb (hostMatchesRPID host rpID)
     then "rp_mismatch" else "")).

Definition requireWebAuthnContext (r : APIRequest) (k : webAuthnContext -> DBM HTTPReply) : DBM HTTPReply :=
  let! resolved := resolveWebAuthnContext r in
  let reason := wa_Reason resolved in
  if String.eqb reason "" then k resolved
  else ret (if String.eqb reason "insecure_origin"
            then WriteError 400 "webauthn_insecure_origin" "webauthn requires HTTPS or localhost"
            else if String.eqb reason "rp_mismatch"
            then WriteError 400 "webauthn_rp_mismatch" "request host does not match configured webauthn rp_id"
            else if String.eqb reason "origin_mismatch"
            then WriteError 400 "webauthn_origin_mismatch" "request origin is not allowed for webauthn"
            else WriteError 400 "webauthn_context_invalid" "webauthn context is invalid").

(** Of [authCapabilities] what the handlers of this file read: whether passkeys
    can sign in, and why not. *)
Definition authCapabilities (r : APIRequest) : DBM (bool * string) :=
  let! _ := mode_or_local in
  let! mailsecAvailable := mailSecRuntimeEnabled in
  let! context := resolveWebAuthnContext r in
  let! enabled := attempt PasskeySignInEnabled in
  let passkeySignInEnabled := match enabled with Ok b => b | Fail _ => PasskeyPasswordlessEnabled cfg end in
  ret (mailsecAvailable && String.eqb (wa_Reason context) "" && passkeySignInEnabled,
       if negb mailsecAvailable then "mailsec_unavailable"
       else if negb (String.eqb (wa_Reason context) "") then wa_Reason context
       else if negb passkeySignInEnabled then "passwordless_disabled" else "").

(** ** Identifiers of credentials *)

Definition isHexCredentialID (raw : string) : bool :=
  let l := runes raw in
  negb (String.eqb raw "") && (go_len raw mod 2 =? 0)
  && forallb (fun c => is_digit c || ((97 <=? c) && (c <=? 102)) || ((65 <=? c) && (c <=? 70))) l.

Definition not_empty {A} (o : option (list A)) : option (list A) :=
  match o with Some (a :: l) => Some (a :: l) | _ => None end.
Definition or_else {A} (o o' : option A) : option A := match o with Some _ => o | None => o' end.

(** [base64.StdEncoding] and [URLEncoding] of a text. *)
Definition base64_with_pads (from : Z -> Z) (s : string) : option (list Z) :=
  padded_decode (map from (List.filter (fun b => negb ((b =? 10) || (b =? 13))) (bytes s))).

Definition decodeWebAuthnCredentialID (raw : string) : option (list Z) :=
  let cleaned := TrimSpace raw in
  if String.eqb cleaned "" then None
  else or_else (if isHexCredentialID cleaned then not_empty (hex_decode (bytes cleaned)) else None)
       (or_else (not_empty (base64url_decode cleaned))
       (or_else (not_empty (base64_with_pads from_url cleaned))
       (or_else (not_empty (base64_decode cleaned)) (not_empty (base64_with_pads (fun b => b) cleaned))))).

Definition canonicalWebAuthnCredentialID (raw : string) : string :=
  let trimmed := TrimSpace raw in
  if String.eqb trimmed "" then ""
  else match decodeWebAuthnCredentialID trimmed with Some l => base64url_encode l | None => trimmed end.

Definition webAuthnCredentialIDCandidates (raw : string) : list string :=
  let trimmed := TrimSpace raw in
  if String.eqb trimmed "" then []
  else distinct_from [] (trimmed :: match decodeWebAuthnCredentialID trimmed with
                                    | Some l => [base64url_encode l; hex_encode l; ToUpper (hex_encode l)]
                                    | None => []
                                    end).

Definition webAuthnCredentialIDEqual (left right : string) : bool :=
  let l := TrimSpace left in
  let r := TrimSpace right in
  if String.eqb l "" || String.eqb r "" then false
  else match decodeWebAuthnCredentialID l, decodeWebAuthnCredentialID r with
       | Some a, Some b => bool_decide (a = b)
       | _, _ => String.eqb l r
       end.

Fixpoint first_credential (get : string -> DBM WebAuthnCredential) (candidates : list string) : DBM WebAuthnCredential :=
  match candidates with
  | [] => throw ErrNotFound
  | candidate :: candidates' =>
      let! r := attempt (get candidate) in
      match r with
      | Ok item => ret item
      | Fail e => if errors_Is e ErrNotFound then first_credential get candidates' else throw e
      end
  end.
Definition findMFAWebAuthnCredentialAnyUserByAnyID (credentialID : string) : DBM WebAuthnCredential :=
  first_credential GetMFAWebAuthnCredentialByCredentialIDAnyUser (webAuthnCredentialIDCandidates credentialID).
Definition findMFAWebAuthnCredentialByAnyID (userID credentialID : string) : DBM WebAuthnCredential :=
  first_credential (GetMFAWebAuthnCredentialByCredentialID userID) (webAuthnCredentialIDCandidates credentialID).

(** ** Challenges, kept as settings *)

(** [GetSetting] of a state, decoded; a blank value counts as none. *)
Definition load_state {A} (decode : string -> Res A) (key : string) : DBM (option A) :=
  let! raw := GetSetting key in
  match raw with
  | None => ret None
  | Some raw => if String.eqb (TrimSpace raw) "" then ret None
                else let! state := of_res (decode raw) in ret (Some state)
  end.
Definition store_state (key : string) (encoded : Res string) : DBM unit :=
  let! b := of_res encoded in UpsertSetting key b.

Record passkeyLoginChallengeState : Type := mkPasskeyChallenge {
  pk_Challenge : string; pk_RPID : string; pk_Origins : list string; pk_ExpiresAt : Z; pk_AttemptCount : Z;
  pk_MaxAttempts : Z; pk_CookieTokenHash : string; pk_UserID : string; pk_AllowCredentials : list string
}.
#[export] Instance eta_passkeyLoginChallengeState : Eta passkeyLoginChallengeState := fun s =>
  mkPasskeyChallenge (pk_Challenge s) (pk_RPID s) (pk_Origins s) (pk_ExpiresAt s) (pk_AttemptCount s)
    (pk_MaxAttempts s) (pk_CookieTokenHash s) (pk_UserID s) (pk_AllowCredentials s).

Definition passkey_state_json (s : passkeyLoginChallengeState) : Res string :=
  if year_writable (pk_ExpiresAt s) then
    Ok (payload_struct [("challenge", PText (pk_Challenge s)); ("rp_id", PText (pk_RPID s)); ("origins", slice (pk_Origins s));
      ("expires_at", PTime (pk_ExpiresAt s)); ("attempt_count", PInt (pk_AttemptCount s));
      ("max_attempts", PInt (pk_MaxAttempts s)); ("cookie_token_hash", PText (pk_CookieTokenHash s));
      ("user_id", PText (pk_UserID s)); ("allow_credentials", slice (pk_AllowCredentials s))])
  else Fail ErrYear.
Definition decode_passkey_state : string -> Res passkeyLoginChallengeState :=
  decode_struct ["expires_at"] (mkPasskeyChallenge "" "" [] ZeroTime 0 0 "" "" []) (fun l =>
    challenge ← decode_text "challenge" l; rpID ← decode_text "rp_id" l;
    origins ← decode_texts_field "origins" [] l;
    attempts ← decode_int_field "attempt_count" 0 l; limit ← decode_int_field "max_attempts" 0 l;
    cookie ← decode_text "cookie_token_hash" l; user ← decode_text "user_id" l;
    allowed ← decode_texts_field "allow_credentials" [] l;
    Some (mkPasskeyChallenge challenge rpID origins (decode_time_field "expires_at" ZeroTime l) attempts limit
            cookie user allowed)).

Definition passkeyLoginChallengeSettingsPrefix : string := "auth:webauthn:challenge:passkey:".
Definition passkeyLoginChallengeSettingKey (challengeID : string) : string :=
  passkeyLoginChallengeSettingsPrefix +:+ TrimSpace challengeID.
Definition storePasskeyLoginChallenge (challengeID : string) (s : passkeyLoginChallengeState) : DBM unit :=
  store_state (passkeyLoginChallengeSettingKey challengeID) (passkey_state_json s).
Definition loadPasskeyLoginChallenge (challengeID : string) : DBM (option passkeyLoginChallengeState) :=
  load_state decode_passkey_state (passkeyLoginChallengeSettingKey challengeID).
Definition deletePasskeyLoginChallenge (challengeID : string) : DBM unit :=
  DeleteSetting (passkeyLoginChallengeSettingKey challengeID).

Definition passkeyLoginChallengeCookieName : string := "despatch_passkey_challenge".
Definition setPasskeyLoginChallengeCookie (r : APIRequest) (challengeID nonce : string) (expiresAt : Z) : DBM SetCookie :=
  dated_cookie r passkeyLoginChallengeCookieName (TrimSpace challengeID +:+ "." +:+ TrimSpace nonce) expiresAt.
Definition clearPasskeyLoginChallengeCookie (r : APIRequest) : SetCookie :=
  cleared_cookie r passkeyLoginChallengeCookieName true.
Definition readPasskeyLoginChallengeCookie (r : APIRequest) : option (string * string) :=
  value ← Cookie (aq_HTTP r) passkeyLoginChallengeCookieName;
  '(challengeID, nonce) ← Cut (TrimSpace value) (ascii_of 46);
  let challengeID := TrimSpace challengeID in
  let nonce := TrimSpace nonce in
  if String.eqb challengeID "" || String.eqb nonce "" then None else Some (challengeID, nonce).

(** ** Signing in with a passkey *)

Definition passkeyLoginBegin (r : APIRequest) : DBM HTTPReply :=
  ensureSetupComplete (
    let! (available, reason) := authCapabilities r in
    if negb available then
      ret (if String.eqb reason "mailsec_unavailable"
           then WriteError 503 "mailsec_unavailable" "mailsec service is required for passkey login"
           else if String.eqb reason "insecure_origin"
           then WriteError 400 "webauthn_insecure_origin" "passkey login requires HTTPS or localhost"
           else WriteError 503 "passkey_unavailable" "passkey login is not available")
    else requireWebAuthnContext r (fun context =>
      try! email := of_res (decodeJSON r jsonLimitAuthControl true "" (decode_text "email")) otherwise writeJSONDecodeError in
      let! now := time_Now in
      do! ignore (DeleteSettingsByPrefixOlderThan passkeyLoginChallengeSettingsPrefix (now - 30 * Minute)) in
      let! challengeID := uuid_NewString in
      let no_challenge _ := WriteError 500 "webauthn_begin_failed" "cannot generate challenge" in
      try! cookieNonce := randomToken otherwise no_challenge in
      try! challenge := randomToken otherwise no_challenge in
      let! now := time_Now in
      let state := mkPasskeyChallenge challenge (wa_RPID context) (wa_Origins context) (now + 5 * Minute) 0 5
                     (trustedDeviceTokenHash cookieNonce) "" [] in
      try! _ := storePasskeyLoginChallenge challengeID state
        otherwise (fun _ => WriteError 500 "webauthn_begin_failed" "cannot persist challenge") in
      let! cookie := setPasskeyLoginChallengeCookie r challengeID cookieNonce (pk_ExpiresAt state) in
      do! ignore (InsertAudit "anonymous" "auth.passkey.login.begin" "passkey"
            (payload_json [("mode", PText "usernameless");
                           ("email_provided", PBool (negb (String.eqb (TrimSpace email) "")))])) in
      ret (setting_cookies [cookie] (WriteJSON 200
        [("status", JText "challenge_created"); ("mode", JText "usernameless"); ("challenge_id", JText challengeID);
         ("challenge", JText challenge); ("timeout_ms", JInteger 300000); ("rp_id", JText (wa_RPID context));
         ("public_key", JObject [("challenge", JText challenge); ("rpId", JText (wa_RPID context));
            ("timeout", JInteger 300000); ("userVerification", JText "required"); ("allowCredentials", JArray [])]);
         ("allow_credentials", JArray [])])))).

(** What a browser sends of an assertion. *)
Record assertion : Type := mkAssertion {
  as_CredentialID : string; as_ClientData : string; as_AuthenticatorData : string; as_Signature : string
}.
Definition assertion_of (req : list (string * Json)) : assertion :=
  let resp := getMapValue req "response" in
  mkAssertion (getStringValue req ["credential_id"; "raw_id"; "rawId"; "id"])
    (getStringValue resp ["client_data_json"; "clientDataJSON"])
    (getStringValue resp ["authenticator_data"; "authenticatorData"]) (getStringValue resp ["signature"]).

(** The question put to the security service about it. *)
Definition assertion_payload (challenge rpID : string) (origins : list string) (a : assertion)
    (cred : WebAuthnCredential) (userVerification : bool) : list (string * Json) :=
  let id := canonicalWebAuthnCredentialID (as_CredentialID a) in
  [("challenge", JText challenge); ("rp_id", JText rpID); ("origins", JArray (map JText origins));
   ("credential_id", JText (if String.eqb id "" then TrimSpace (as_CredentialID a) else id));
   ("client_data_json_b64url", JText (as_ClientData a)); ("authenticator_data_b64url", JText (as_AuthenticatorData a));
   ("signature_b64url", JText (as_Signature a)); ("stored_public_key_cose_b64url", JText (wc_PublicKey cred));
   ("stored_sign_count", JInteger (wc_SignCount cred)); ("require_user_verification", JBoolean userVerification)].

Definition challenge_invalid (message : string) : HTTPReply := WriteError 401 "webauthn_challenge_invalid" message.
Definition invalid_credentials : HTTPReply := WriteError 401 "invalid_credentials" "invalid credentials".
Definition finish_failed (message : string) (e : GoErr) : HTTPReply := WriteError 500 "webauthn_finish_failed" message.

(** The challenge the cookie names, as it stands after this attempt has been
    counted. *)
Definition take_attempt (r : APIRequest) (challengeID cookieNonce : string)
    (k : passkeyLoginChallengeState -> DBM HTTPReply) : DBM HTTPReply :=
  let drop reply := do! ignore (deletePasskeyLoginChallenge challengeID) in
                    ret (setting_cookies [clearPasskeyLoginChallengeCookie r] reply) in
  try! found := loadPasskeyLoginChallenge challengeID otherwise finish_failed "cannot read challenge state" in
  let missing := challenge_invalid "challenge is missing or expired" in
  match found with
  | None => drop missing
  | Some state =>
      let! now := time_Now in
      if pk_ExpiresAt state <? now then drop missing
      else if negb (String.eqb (pk_CookieTokenHash state) (trustedDeviceTokenHash cookieNonce)) then drop missing
      else
        let state := state <| pk_AttemptCount := pk_AttemptCount state + 1 |>
          <| pk_MaxAttempts := if pk_MaxAttempts state <=? 0 then 5 else pk_MaxAttempts state |> in
        if pk_MaxAttempts state <? pk_AttemptCount state
        then drop (WriteError 429 "rate_limited" "too many requests")
        else
          try! _ := storePasskeyLoginChallenge challengeID state otherwise finish_failed "cannot persist challenge state" in
          k state
  end.

(** The credential an assertion names, when the challenge allows it, and its
    owner. *)
Definition passkey_owner (state : passkeyLoginChallengeState) (a : assertion)
    (k : WebAuthnCredential -> User -> DBM HTTPReply) : DBM HTTPReply :=
  try! cred := findMFAWebAuthnCredentialAnyUserByAnyID (as_CredentialID a) otherwise (fun _ => invalid_credentials) in
  if negb (String.eqb (TrimSpace (pk_UserID state)) "")
     && negb (String.eqb (TrimSpace (pk_UserID state)) (TrimSpace (wc_UserID cred)))
  then ret invalid_credentials
  else if match pk_AllowCredentials state with
          | [] => false
          | l => negb (existsb (fun item => webAuthnCredentialIDEqual item (as_CredentialID a)
                                            || webAuthnCredentialIDEqual item (wc_CredentialID cred)) l)
          end
  then ret invalid_credentials
  else
    try! user := GetUserByID (wc_UserID cred) otherwise (fun _ => invalid_credentials) in
    k cred user.

(** The session that a verified assertion opens. *)
Definition open_passkey_session (r : APIRequest) (challengeID : string) (cred : WebAuthnCredential) (user : User) :
    DBM HTTPReply :=
  let! stored := attempt (GetUserMailSecret (u_ID user)) in
  let mailSecret := match stored with Ok (Some secret) => secret | _ => "" end in
  try! (sessionToken, _) := CreatePasskeySession user (client_ip r) (aq_UserAgent r) mailSecret
    otherwise (fun _ => invalid_credentials) in
  try! csrfToken := randomToken otherwise internal_error "failed to generate token" in
  let! outcome := resolveLoginStage r sessionToken user in
  after_stage outcome (fun sess stage =>
    do! ignore (deletePasskeyLoginChallenge challengeID) in
    do! ignore (InsertAudit (u_ID user) "auth.passkey.login.finish" (u_ID user)
          (payload_json [("auth_method", PText "passkey"); ("credential", PText (wc_ID cred))])) in
    ret (setting_cookies (setAuthCookies r sessionToken csrfToken ++ [clearPasskeyLoginChallengeCookie r])
           (WriteJSON 200 (("session_active", JBoolean true) :: signed_in user csrfToken sess stage)))).

Definition passkeyLoginFinish (r : APIRequest) : DBM HTTPReply :=
  ensureSetupComplete (
    let! (available, _) := authCapabilities r in
    if negb available then ret (WriteError 503 "passkey_unavailable" "passkey login is not available")
    else requireWebAuthnContext r (fun context =>
      match readPasskeyLoginChallengeCookie r with
      | None => ret (challenge_invalid "challenge is missing or expired")
      | Some (challengeID, cookieNonce) => take_attempt r challengeID cookieNonce (fun state =>
          try! req := of_res (decode_map r jsonLimitAuthControl) otherwise writeJSONDecodeError in
          let named := getStringValue req ["challenge_id"] in
          let sent := getStringValue req ["challenge"] in
          if (negb (String.eqb named "") && negb (String.eqb named challengeID))
             || (negb (String.eqb sent "") && negb (String.eqb sent (pk_Challenge state)))
          then ret (challenge_invalid "challenge mismatch")
          else
            let a := assertion_of req in
            if existsb (fun s => String.eqb s "")
                 [as_CredentialID a; as_ClientData a; as_AuthenticatorData a; as_Signature a]
            then ret (WriteError 400 "bad_request" "credential and response fields are required")
            else passkey_owner state a (fun cred user =>
              try! result := callMailSecOperation "webauthn.assertion.finish" (u_ID user)
                   (assertion_payload (pk_Challenge state) (firstNonEmpty [pk_RPID state; wa_RPID context])
                      (firstNonEmptySlice [pk_Origins state; wa_Origins context]) a cred true)
                otherwise (fun _ => invalid_credentials) in
              match getInt64Value result "sign_count" with
              | None => ret (finish_failed "mailsec response missing sign_count" ErrDriver)
              | Some nextSignCount =>
                  if nextSignCount <? 0 then ret (finish_failed "mailsec response missing sign_count" ErrDriver)
                  else
                    try! _ := TouchMFAWebAuthnCredential (wc_UserID cred) (wc_ID cred) nextSignCount
                      otherwise finish_failed "cannot update credential state" in
                    open_passkey_session r challengeID cred user
              end))
      end)).

(** ** Password reset *)

(** HMAC-SHA256; blocks have 64 bytes. *)
Definition hmac_sha256 (key msg : list Z) : list Z :=
  let key := if Nat.ltb 64 (length key) then Sha256.sum key else key in
  let padded := key ++ repeat 0 (64 - length key) in
  Sha256.sum (map (Z.lxor 92) padded ++ Sha256.sum (map (Z.lxor 54) padded ++ msg)).

Definition resetIdentifierRateKey (normalizedEmail : string) : string :=
  let value := TrimSpace (ToLower normalizedEmail) in
  if String.eqb value "" then "" else first_bytes 20 (hex_encode (hmac_sha256 (bytes resetKey) (bytes value))).
Definition resetTokenPrefixRateKey (rawToken : string) : string :=
  let value := TrimSpace rawToken in
  if String.eqb value "" then "" else first_bytes 20 (sha256_hex value).

Definition allowResetRateKey (route key : string) (limit window : Z) : DBM bool :=
  let key := TrimSpace key in
  if String.eqb key "" || (limit <=? 0) then ret true
  else
    let! now := time_Now in
    let! counted := attempt (IncrementRateEvent key route (Truncate now window)) in
    match counted with
    | Fail _ => ret true
    | Ok count =>
        let! now := time_Now in
        do! ignore (CleanupRateEventsBefore (now - 24 * Hour)) in
        ret (count <=? limit)
    end.

Definition PasswordResetRequest (r : APIRequest) : DBM HTTPReply :=
  let accepted := WriteJSON 202 [("status", JText "accepted")] in
  ensureSetupComplete (
    try! email := of_res (decodeJSON r jsonLimitAuthControl false "" (decode_text "email")) otherwise writeJSONDecodeError in
    let! allowed := allowResetRateKey "reset_request_ident" (resetIdentifierRateKey (fold_trim email)) 6 (15 * Minute) in
    if negb allowed then ret accepted
    else
      try! _ := RequestPasswordReset email otherwise (fun e =>
        if errors_Is e ErrPasswordResetUnavailable
        then WriteError 503 "password_reset_unavailable" "password reset is currently unavailable" else accepted) in
      ret accepted).

Definition PasswordResetConfirm (r : APIRequest) : DBM HTTPReply :=
  ensureSetupComplete (
    try! (token, newPassword) := of_res (decodeJSON r jsonLimitAuthControl false ("", "") (fun l =>
        token ← decode_text "token" l; password ← decode_text "new_password" l; Some (token, password)))
      otherwise writeJSONDecodeError in
    let! allowed := allowResetRateKey "reset_confirm_token" (resetTokenPrefixRateKey token) 12 (15 * Minute) in
    if negb allowed then ret (WriteError 429 "rate_limited" "too many requests")
    else
      try! _ := ConfirmPasswordReset token newPassword otherwise (fun e =>
        if errors_Is e ErrPasswordResetUnavailable
        then WriteError 503 "password_reset_unavailable" "password reset is currently unavailable"
        else if errors_Is e ErrPasswordResetHelperDown
        then WriteError 503 "password_reset_helper_unavailable" "password reset helper is unavailable"
        else if errors_Is e ErrPasswordResetHelperFailed
        then WriteError 502 "password_reset_helper_failed" "password reset helper failed"
        else WriteError 400 "reset_failed" (err_text e)) in
      ret (WriteJSON 200 [("status", JText "updated")])).

(** ** The signed-in user *)

Definition Me (r : APIRequest) (c : Caller) : DBM HTTPReply :=
  let u := cl_User c in
  let sess := session_of c in
  try! stage := ResolveMFAStage u (Some sess) otherwise internal_error "cannot resolve mfa stage" in
  ret (WriteJSON 200
    ([("id", JText (u_ID u)); ("session_id", JText (s_ID sess)); ("email", JText (u_Email u));
      ("role", JText (u_Role u)); ("status", JText (user_status_text (u_Status u)));
      ("recovery_email", JText (TrimSpace (default "" (u_RecoveryEmail u))));
      ("needs_recovery_email", JBoolean (RecoveryEmailNeedsSetup (u_Email u) (u_RecoveryEmail u)));
      ("mail_secret_required", JBoolean (String.eqb (TrimSpace (s_MailSecret sess)) ""))]
     ++ applyAuthStageFields stage)).

Definition MeUpdateRecoveryEmail (r : APIRequest) (c : Caller) : DBM HTTPReply :=
  try! recoveryEmail := of_res (decodeJSON r jsonLimitAuthControl false "" (decode_text "recovery_email"))
    otherwise writeJSONDecodeError in
  try! normalized := UpdateRecoveryEmail (u_ID (cl_User c)) recoveryEmail otherwise (fun e =>
    if errors_Is e ErrInvalidRecoveryEmail || errors_Is e ErrRecoveryEmailRequired
    then WriteError 400 "invalid_recovery_email" "valid recovery_email is required"
    else if errors_Is e ErrRecoveryEmailMatchesLogin
    then WriteError 400 "recovery_email_matches_login" "recovery_email must differ from email"
    else internal_error (err_text e) e) in
  ret (WriteJSON 200 [("status", JText "ok"); ("recovery_email", JText normalized);
                      ("needs_recovery_email", JBoolean false)]).
End SignIn.
