(* ===== verification/SecondFactors.v ===== *)
(** * SecondFactors: the handlers of multi-factor authentication
    (internal/api/router_v2.go)

    Verifying a second factor of a session that is at the stage mfa_required
    (one-time codes, security keys, recovery codes, codes sent to the recovery
    address, approval by another device), setting factors up, and the devices
    and sessions of a user. *)

From S2P Require Import Prelude GoStrings Effects GoStd GoText Json GoFmt GoTime MessageIds Threading.
From S2P Require Import Models Users Sessions Mfa Host FeatureFlags Identity Auth Admin Reset Middleware.
From S2P Require Import SignIn.
Local Open Scope Z_scope.

Definition mfaRecoveryEmailCodeTTL : Z := 10 * Minute.
Definition mfaRecoveryEmailCodeDigits : Z := 8.
Definition mfaRecoveryEmailCodeResendCooldown : Z := 30 * Second.
Definition mfaRecoveryEmailCodeMaxAttempts : Z := 6.
Definition mfaDeviceApprovalTTL : Z := 10 * Minute.

(** ** States kept as settings *)

Record mfaRecoveryEmailChallengeState : Type := mkEmailChallenge {
  ec_SessionID : string; ec_UserID : string; ec_DeliveryEmail : string; ec_CodeHash : string; ec_SentAt : Z;
  ec_ExpiresAt : Z; ec_AttemptCount : Z; ec_MaxAttempts : Z
}.
#[export] Instance eta_mfaRecoveryEmailChallengeState : Eta mfaRecoveryEmailChallengeState := fun s =>
  mkEmailChallenge (ec_SessionID s) (ec_UserID s) (ec_DeliveryEmail s) (ec_CodeHash s) (ec_SentAt s)
    (ec_ExpiresAt s) (ec_AttemptCount s) (ec_MaxAttempts s).

Definition email_challenge_json (s : mfaRecoveryEmailChallengeState) : Res string :=
  marshal_struct [ec_SentAt s; ec_ExpiresAt s]
    (text_field "session_id" (ec_SessionID s) ++ text_field "user_id" (ec_UserID s)
     ++ text_field "delivery_email" (ec_DeliveryEmail s) ++ text_field "code_hash" (ec_CodeHash s)
     ++ time_field "sent_at" (ec_SentAt s) ++ time_field "expires_at" (ec_ExpiresAt s)
     ++ int_field "attempt_count" (ec_AttemptCount s) ++ int_field "max_attempts" (ec_MaxAttempts s)).
Definition decode_email_challenge : string -> Res mfaRecoveryEmailChallengeState :=
  decode_struct ["sent_at"; "expires_at"] (mkEmailChallenge "" "" "" "" ZeroTime ZeroTime 0 0) (fun l =>
    sess ← decode_text "session_id" l; user ← decode_text "user_id" l; email ← decode_text "delivery_email" l;
    hash ← decode_text "code_hash" l; attempts ← decode_int_field "attempt_count" 0 l;
    limit ← decode_int_field "max_attempts" 0 l;
    Some (mkEmailChallenge sess user email hash (decode_time_field "sent_at" ZeroTime l)
            (decode_time_field "expires_at" ZeroTime l) attempts limit)).

Record mfaDeviceApprovalRequestState : Type := mkApproval {
  ap_RequestID : string; ap_UserID : string; ap_SessionID : string; ap_RequestIPHint : string;
  ap_RequestUserAgent : string; ap_RequestDeviceLabel : string; ap_RequestedAt : Z; ap_ExpiresAt : Z;
  ap_Status : string; ap_RememberDevice : bool; ap_DecisionAt : Z; ap_DecisionBySessionID : string;
  ap_DecisionDeviceLabel : string
}.
#[export] Instance eta_mfaDeviceApprovalRequestState : Eta mfaDeviceApprovalRequestState := fun s =>
  mkApproval (ap_RequestID s) (ap_UserID s) (ap_SessionID s) (ap_RequestIPHint s) (ap_RequestUserAgent s)
    (ap_RequestDeviceLabel s) (ap_RequestedAt s) (ap_ExpiresAt s) (ap_Status s) (ap_RememberDevice s)
    (ap_DecisionAt s) (ap_DecisionBySessionID s) (ap_DecisionDeviceLabel s).

Definition approval_json (s : mfaDeviceApprovalRequestState) : Res string :=
  marshal_struct [ap_RequestedAt s; ap_ExpiresAt s; ap_DecisionAt s]
    (text_field "request_id" (ap_RequestID s) ++ text_field "user_id" (ap_UserID s)
     ++ text_field "session_id" (ap_SessionID s) ++ text_field "request_ip_hint" (ap_RequestIPHint s)
     ++ text_field "request_user_agent" (ap_RequestUserAgent s)
     ++ text_field "request_device_label" (ap_RequestDeviceLabel s) ++ time_field "requested_at" (ap_RequestedAt s)
     ++ time_field "expires_at" (ap_ExpiresAt s) ++ text_field "status" (ap_Status s)
     ++ bool_field "remember_device" (ap_RememberDevice s) ++ time_field "decision_at" (ap_DecisionAt s)
     ++ text_omitempty "decision_by_session_id" (ap_DecisionBySessionID s)
     ++ text_omitempty "decision_device_label" (ap_DecisionDeviceLabel s)).
Definition decode_approval : string -> Res mfaDeviceApprovalRequestState :=
  decode_struct ["requested_at"; "expires_at"; "decision_at"]
    (mkApproval "" "" "" "" "" "" ZeroTime ZeroTime "" false ZeroTime "" "") (fun l =>
    request ← decode_text "request_id" l; user ← decode_text "user_id" l; sess ← decode_text "session_id" l;
    ip ← decode_text "request_ip_hint" l; agent ← decode_text "request_user_agent" l;
    label ← decode_text "request_device_label" l; status ← decode_text "status" l;
    remember ← decode_flag "remember_device" l; by_ ← decode_text "decision_by_session_id" l;
    device ← decode_text "decision_device_label" l;
    Some (mkApproval request user sess ip agent label (decode_time_field "requested_at" ZeroTime l)
            (decode_time_field "expires_at" ZeroTime l) status remember (decode_time_field "decision_at" ZeroTime l)
            by_ device)).

Record webAuthnChallengeState : Type := mkWebAuthnChallenge {
  wn_UserID : string; wn_Mode : string; wn_Challenge : string; wn_RPID : string; wn_Origins : list string; wn_ExpiresAt : Z
}.
Definition webauthn_challenge_json (s : webAuthnChallengeState) : Res string :=
  if year_writable (wn_ExpiresAt s) then
    Ok (payload_struct [("user_id", PText (wn_UserID s)); ("mode", PText (wn_Mode s));
      ("challenge", PText (wn_Challenge s)); ("rp_id", PText (wn_RPID s)); ("origins", slice (wn_Origins s));
      ("expires_at", PTime (wn_ExpiresAt s))])
  else Fail ErrYear.
Definition decode_webauthn_challenge : string -> Res webAuthnChallengeState :=
  decode_struct ["expires_at"] (mkWebAuthnChallenge "" "" "" "" [] ZeroTime) (fun l =>
    user ← decode_text "user_id" l; mode ← decode_text "mode" l; challenge ← decode_text "challenge" l;
    rpID ← decode_text "rp_id" l; origins ← decode_texts_field "origins" [] l;
    Some (mkWebAuthnChallenge user mode challenge rpID origins (decode_time_field "expires_at" ZeroTime l))).

Definition webAuthnLoginChallengeSettingKey (sessionID : string) : string :=
  "mfa:webauthn:challenge:login:" +:+ TrimSpace sessionID.
Definition webAuthnRegisterChallengeSettingKey (userID : string) : string :=
  "mfa:webauthn:challenge:register:" +:+ TrimSpace userID.
Definition mfaRecoveryEmailChallengeSettingKey (sessionID : string) : string :=
  "mfa:recovery-email:challenge:" +:+ TrimSpace sessionID.
Definition mfaDeviceApprovalSettingsPrefix : string := "mfa:device-approval:".
Definition mfaDeviceApprovalRequestSettingsPrefix (userID : string) : string :=
  mfaDeviceApprovalSettingsPrefix +:+ TrimSpace userID +:+ ":".
Definition mfaDeviceApprovalRequestSettingKey (userID requestID : string) : string :=
  mfaDeviceApprovalRequestSettingsPrefix userID +:+ TrimSpace requestID.
Definition mfaTrustedPendingRememberSettingKey (sessionID : string) : string :=
  "mfa:trusted:remember:pending:" +:+ TrimSpace sessionID.

(** The metadata of an audit entry is blank when it cannot be marshalled. *)
Definition audit_meta (fields : list (string * Payload)) : string :=
  if forallb (fun kv => match snd kv with PTime t => year_writable t | _ => true end) fields
  then payload_json fields else "".

(** ** What is shown of a device *)

Definition contains_any (s : string) (l : list string) : bool := existsb (Contains s) l.

Definition detectTrustedDeviceBrowser (lowerUA : string) : string :=
  if contains_any lowerUA ["edg/"; "edge/"] then "Microsoft Edge"
  else if contains_any lowerUA ["opr/"; "opera"] then "Opera"
  else if Contains lowerUA "samsungbrowser/" then "Samsung Internet"
  else if contains_any lowerUA ["crios/"; "chrome/"] then "Google Chrome"
  else if contains_any lowerUA ["fxios/"; "firefox/"] then "Mozilla Firefox"
  else if Contains lowerUA "safari/" && negb (contains_any lowerUA ["chrome/"; "crios/"]) then "Safari"
  else "Unknown browser".
Definition detectTrustedDeviceOS (lowerUA : string) : string :=
  if Contains lowerUA "windows nt" then "Windows"
  else if contains_any lowerUA ["iphone"; "ipad"; "ios"] then "iOS"
  else if contains_any lowerUA ["mac os"; "macintosh"] then "macOS"
  else if Contains lowerUA "android" then "Android"
  else if Contains lowerUA "ubuntu" then "Ubuntu"
  else if Contains lowerUA "linux" then "Linux"
  else if Contains lowerUA "cros" then "ChromeOS" else "Unknown OS".
Definition detectTrustedDeviceType (lowerUA : string) : string :=
  if contains_any lowerUA ["ipad"; "tablet"] then "Tablet"
  else if contains_any lowerUA ["iphone"; "android"; "mobile"] then "Mobile"
  else if contains_any lowerUA ["windows"; "macintosh"; "linux"; "ubuntu"; "x11"] then "Desktop"
  else "Unknown device".

(** The label, the browser, the system and the kind of device. *)
Definition summarizeTrustedDeviceLabel (raw : string) : string * string * string * string :=
  let label := TrimSpace raw in
  let lower := ToLower label in
  let browser := detectTrustedDeviceBrowser lower in
  let osLabel := detectTrustedDeviceOS lower in
  let deviceType := detectTrustedDeviceType lower in
  let unless unknown s := if String.eqb s unknown then [] else [s] in
  let parts := unless "Unknown browser" browser ++ unless "Unknown OS" osLabel ++ unless "Unknown device" deviceType in
  (match parts with
   | [] => if String.eqb label "" then "Trusted device"
           else if 96 <? go_len label then first_bytes 96 label +:+ "..." else label
   | _ => Join " / " parts
   end, browser, osLabel, deviceType).

Definition summarizeApprovalDevice (s : mfaDeviceApprovalRequestState) : list (string * string) :=
  let '(display, browser, osLabel, deviceType) :=
    summarizeTrustedDeviceLabel (firstNonEmpty [ap_RequestDeviceLabel s; ap_RequestUserAgent s]) in
  [("request_device_label", firstNonEmpty [ap_RequestDeviceLabel s; ap_RequestUserAgent s; "Sign-in device"]);
   ("request_display_label", display); ("request_browser", browser); ("request_os", osLabel);
   ("request_device_type", deviceType)].

Definition approvalRequestResponse (s : mfaDeviceApprovalRequestState) (status : string) : list (string * Json) :=
  [("id", JText (ap_RequestID s)); ("request_id", JText (ap_RequestID s)); ("session_id", JText (ap_SessionID s));
   ("request_ip_hint", JText (ap_RequestIPHint s)); ("requested_at", JTime (ap_RequestedAt s));
   ("expires_at", JTime (ap_ExpiresAt s)); ("status", JText status);
   ("remember_device", JBoolean (ap_RememberDevice s))]
  ++ map (fun kv => (fst kv, JText (snd kv))) (summarizeApprovalDevice s)
  ++ (if IsZero (ap_DecisionAt s) then [] else [("decision_at", JTime (ap_DecisionAt s))]).

Definition maskEmailAddress (email : string) : string :=
  let email := TrimSpace (ToLower email) in
  match Split email (ascii_of 64) with
  | [local; domain] =>
      let n := length (bytes local) in
      if String.eqb local "" then "***@" +:+ domain
      else if Nat.eqb n 1 then local +:+ "***@" +:+ domain
      else first_bytes 1 local +:+ of_bytes (repeat 42 (Nat.min (n - 1) 4)) +:+ "@" +:+ domain
  | _ => email
  end.

Definition parseWebAuthnTransportsJSON (raw : string) : list string :=
  match json_unmarshal (TrimSpace raw) with
  | Some (JArray l) => default [] (decode_texts l)
  | _ => []
  end.

Section SecondFactors.
Context {host : Host} {dep : Deployment} {acfg : APIConfig} {outside : Outside}.

(** [generateNumericCode]: [%0*d] of a number below 10^[digits]. *)
Definition generateNumericCode (digits : Z) : DBM string :=
  let digits := if digits <=? 0 then 6 else digits in
  let! n := fun w => (rand_Int (w_fresh w) (10 ^ digits), w <| w_fresh := S (w_fresh w) |>) in
  let text := bytes (format_int n) in
  ret (of_bytes (repeat 48 (Z.to_nat digits - length text) ++ text)).

Fixpoint recovery_codes_of (n : nat) : DBM (list string) :=
  match n with
  | O => ret []
  | S n' => let! raw := randomToken in
            let! rest := recovery_codes_of n' in
            ret (ToUpper (first_bytes 12 raw) :: rest)
  end.
Definition generateRecoveryCodes (n : Z) : DBM (list string) :=
  recovery_codes_of (Z.to_nat (if n <=? 0 then 10 else n)).

Definition verifyTOTPCode (userID secret code : string) : DBM bool :=
  let code := TrimSpace code in
  if String.eqb code "" then ret false
  else if negb (MailSecEnabled cfg) then let! now := time_Now in ret (totp_Validate now code secret)
  else
    let! result := callMailSecOperation "totp.verify" userID
      [("secret", JText secret); ("code", JText code); ("period", JInteger 30); ("digits", JInteger 6);
       ("algorithm", JText "SHA1"); ("skew_past", JInteger 1); ("skew_future", JInteger 1)] in
    match getBoolValue result "valid" with
    | Some valid => ret valid
    | None => throw (ErrText "mailsec response missing valid flag")
    end.

(** A code and whether to remember the device. *)
Definition decode_code (r : APIRequest) : Res (string * bool) :=
  decodeJSON r jsonLimitAuthControl false ("", false) (fun l =>
    code ← decode_text "code" l; remember ← decode_flag "remember_device" l; Some (code, remember)).

Definition verified_reply : HTTPReply :=
  WriteJSON 200 [("status", JText "ok"); ("verified", JBoolean true); ("auth_stage", JText "authenticated")].

(** The device is remembered if asked for, and its cookie joins the answer. *)
Definition remembering (r : APIRequest) (userID : string) (remember : bool) (failed : GoErr -> HTTPReply)
    (k : DBM HTTPReply) : DBM HTTPReply :=
  if remember then
    try! cookie := issueTrustedDevice r userID otherwise failed in
    let! reply := k in ret (setting_cookies [cookie] reply)
  else k.

(** ** Verifying a second factor *)

Definition V2MFATOTPVerify (r : APIRequest) (c : Caller) : DBM HTTPReply :=
  let u := cl_User c in
  try! (code, remember) := of_res (decode_code r) otherwise writeJSONDecodeError in
  try! rec := GetMFATOTP (u_ID u) otherwise (fun e =>
    if errors_Is e ErrNotFound then WriteError 404 "totp_not_enrolled" "totp not enrolled"
    else internal_error (err_text e) e) in
  if negb (to_Enabled rec) then ret (WriteError 400 "totp_not_enabled" "totp is not enabled")
  else
    try! secret := of_res (DecryptString (to_SecretEnc rec)) otherwise internal_error "cannot read totp secret" in
    try! valid := verifyTOTPCode (u_ID u) secret code
      otherwise (fun e => WriteError 503 "totp_verifier_unavailable" (err_text e)) in
    if negb valid then ret (WriteError 401 "invalid_totp_code" "invalid code")
    else match cl_Session c with
    | None => ret session_missing
    | Some sess =>
        try! _ := SetSessionMFAVerified (s_ID sess) "totp" otherwise internal_error "cannot mark session mfa state" in
        remembering r (u_ID u) remember (internal_error "cannot remember trusted device") (ret verified_reply)
    end.

Definition credential_entry (cred : WebAuthnCredential) (id : string) : list (string * Json) :=
  [("id", JText id); ("type", JText "public-key");
   ("transports", JArray (map JText (parseWebAuthnTransportsJSON (wc_TransportsJSON cred))))].

Definition V2MFAWebAuthnBegin (r : APIRequest) (c : Caller) : DBM HTTPReply :=
  let u := cl_User c in
  let failed message (_ : GoErr) := WriteError 500 "webauthn_begin_failed" message in
  let! enabled := mailSecRuntimeEnabled in
  if negb enabled then ret (WriteError 503 "mailsec_unavailable" "mailsec service is required for webauthn")
  else match cl_Session c with
  | None => ret session_missing
  | Some sess =>
      try! creds := ListMFAWebAuthnCredentials (u_ID u) otherwise (fun e => failed (err_text e) e) in
      match creds with
      | [] => ret (WriteError 404 "webauthn_not_enrolled" "no webauthn credentials enrolled")
      | _ => requireWebAuthnContext r (fun context =>
          try! challenge := randomToken otherwise failed "cannot generate challenge" in
          let! now := time_Now in
          let state := mkWebAuthnChallenge (u_ID u) "login" challenge (wa_RPID context) (wa_Origins context)
                         (now + 5 * Minute) in
          try! _ := store_state (webAuthnLoginChallengeSettingKey (s_ID sess)) (webauthn_challenge_json state)
            otherwise failed "cannot persist challenge" in
          let allowed := JArray (map (fun cred =>
            let id := canonicalWebAuthnCredentialID (wc_CredentialID cred) in
            JObject (("name", JText (wc_Name cred))
                     :: credential_entry cred (if String.eqb id "" then TrimSpace (wc_CredentialID cred) else id))) creds) in
          ret (WriteJSON 200 [("status", JText "challenge_created"); ("challenge", JText challenge);
            ("timeout_ms", JInteger 300000); ("rp_id", JText (wa_RPID context));
            ("public_key", JObject [("challenge", JText challenge); ("rpId", JText (wa_RPID context));
               ("timeout", JInteger 300000); ("userVerification", JText "preferred"); ("allowCredentials", allowed)]);
            ("allow_credentials", allowed)]))
      end
  end.

(** Whether a stored challenge is the user's, for this purpose, and in time. *)
Definition challenge_stands (u : User) (mode : string) (now : Z) (s : webAuthnChallengeState) : bool :=
  String.eqb (wn_Mode s) mode && String.eqb (wn_UserID s) (u_ID u) && negb (wn_ExpiresAt s <? now).
Definition load_challenge (key : string) : DBM (option webAuthnChallengeState) :=
  load_state decode_webauthn_challenge key.
(** The clock is read once the mode and the user are right. *)
Definition standing_challenge (u : User) (mode : string) (found : option webAuthnChallengeState)
    (k : webAuthnChallengeState -> DBM HTTPReply) : DBM HTTPReply :=
  let refuse := challenge_invalid "challenge is missing or expired" in
  match found with
  | None => ret refuse
  | Some state =>
      if negb (String.eqb (wn_Mode state) mode && String.eqb (wn_UserID state) (u_ID u)) then ret refuse
      else let! now := time_Now in
           if challenge_stands u mode now state then k state else ret refuse
  end.

Definition V2MFAWebAuthnFinish (r : APIRequest) (c : Caller) : DBM HTTPReply :=
  let u := cl_User c in
  let! enabled := mailSecRuntimeEnabled in
  if negb enabled then ret (WriteError 503 "mailsec_unavailable" "mailsec service is required for webauthn")
  else requireWebAuthnContext r (fun context =>
    match cl_Session c with
    | None => ret session_missing
    | Some sess =>
        try! req := of_res (decode_map r jsonLimitAuthControl) otherwise writeJSONDecodeError in
        let remember := default false (getBoolValue req "remember_device") in
        let a := assertion_of req in
        if String.eqb (as_CredentialID a) "" then ret (WriteError 400 "bad_request" "credential id is required")
        else if existsb (fun s => String.eqb s "") [as_ClientData a; as_AuthenticatorData a; as_Signature a]
        then ret (WriteError 400 "bad_request" "response.clientDataJSON, response.authenticatorData and response.signature are required")
        else
          try! found := load_challenge (webAuthnLoginChallengeSettingKey (s_ID sess))
            otherwise finish_failed "cannot read challenge state" in
          standing_challenge u "login" found (fun state =>
            try! cred := findMFAWebAuthnCredentialByAnyID (u_ID u) (as_CredentialID a)
              otherwise (fun _ => WriteError 401 "webauthn_credential_invalid" "credential is not registered") in
            try! result := callMailSecOperation "webauthn.assertion.finish" (u_ID u)
                 (assertion_payload (wn_Challenge state) (firstNonEmpty [wn_RPID state; wa_RPID context])
                    (firstNonEmptySlice [wn_Origins state; wa_Origins context]) a cred false)
              otherwise (fun e => WriteError 401 "webauthn_verification_failed" (err_text e)) in
            match getInt64Value result "sign_count" with
            | None => ret (finish_failed "mailsec response missing sign_count" ErrDriver)
            | Some nextSignCount =>
                if nextSignCount <? 0 then ret (finish_failed "mailsec response missing sign_count" ErrDriver)
                else
                  try! _ := TouchMFAWebAuthnCredential (u_ID u) (wc_ID cred) nextSignCount
                    otherwise finish_failed "cannot update credential state" in
                  try! _ := SetSessionMFAVerified (s_ID sess) "webauthn"
                    otherwise finish_failed "cannot mark session mfa state" in
                  remembering r (u_ID u) remember (finish_failed "cannot remember trusted device") (
                    do! ignore (DeleteSetting (webAuthnLoginChallengeSettingKey (s_ID sess))) in
                    ret verified_reply)
            end)
    end).

Definition V2MFARecoveryCodeVerify (r : APIRequest) (c : Caller) : DBM HTTPReply :=
  let u := cl_User c in
  match cl_Session c with
  | None => ret session_missing
  | Some sess =>
      try! (code, remember) := of_res (decode_code r) otherwise writeJSONDecodeError in
      let code := TrimSpace code in
      if String.eqb code "" then ret (WriteError 400 "bad_request" "code is required")
      else
        try! ok := ConsumeRecoveryCodeHash (u_ID u) (sha256_hex code) otherwise (fun e => internal_error (err_text e) e) in
        if negb ok then ret (WriteError 401 "invalid_recovery_code" "invalid recovery code")
        else
          try! _ := SetSessionMFAVerified (s_ID sess) "recovery_code"
            otherwise internal_error "cannot mark session mfa state" in
          remembering r (u_ID u) remember (internal_error "cannot remember trusted device") (ret verified_reply)
  end.

Definition requirePendingMFAVerification (c : Caller) (k : User -> Session -> DBM HTTPReply) : DBM HTTPReply :=
  match cl_Session c with
  | None => ret session_missing
  | Some sess =>
      try! stage := ResolveMFAStage (cl_User c) (Some sess) otherwise internal_error "cannot resolve mfa stage" in
      match st_AuthStage stage with
      | AuthStageMFARequired => k (cl_User c) sess
      | AuthStageMFASetupNeeded =>
          ret (WriteError 409 "mfa_setup_required" "multi-factor setup must be completed first")
      | AuthStageAuthenticated =>
          ret (WriteError 409 "already_authenticated" "session is already fully authenticated")
      end
  end.

(** *** Codes sent to the recovery address *)

Definition storeMFARecoveryEmailChallenge (sessionID : string) (s : mfaRecoveryEmailChallengeState) : DBM unit :=
  store_state (mfaRecoveryEmailChallengeSettingKey sessionID) (email_challenge_json s).
Definition loadMFARecoveryEmailChallenge (sessionID : string) : DBM (option mfaRecoveryEmailChallengeState) :=
  load_state decode_email_challenge (mfaRecoveryEmailChallengeSettingKey sessionID).
Definition deleteMFARecoveryEmailChallenge (sessionID : string) : DBM unit :=
  DeleteSetting (mfaRecoveryEmailChallengeSettingKey sessionID).

Definition email_send_failed (message : string) (e : GoErr) : HTTPReply := WriteError 500 "recovery_email_send_failed" message.
Definition send_refused (e : GoErr) : HTTPReply :=
  if errors_Is e ErrRecoveryEmailRequired || errors_Is e ErrInvalidRecoveryEmail || errors_Is e ErrRecoveryEmailMatchesLogin
  then WriteError 409 "recovery_email_unavailable" "a distinct recovery email is required before this fallback can be used"
  else if errors_Is e ErrRecoveryEmailMFAUnavailable
  then WriteError 503 "recovery_email_unavailable" "recovery email verification is currently unavailable"
  else if errors_Is e ErrRecoveryEmailMFADelivery
  then WriteError 502 "recovery_email_send_failed" "failed to send recovery email verification code"
  else email_send_failed (err_text e) e.

Definition V2MFARecoveryEmailSend (r : APIRequest) (c : Caller) : DBM HTTPReply :=
  requirePendingMFAVerification c (fun u sess =>
    let! now := time_Now in
    try! found := loadMFARecoveryEmailChallenge (s_ID sess)
      otherwise email_send_failed "cannot read recovery email challenge state" in
    if match found with
       | Some state => (now <? ec_ExpiresAt state) && negb (IsZero (ec_SentAt state))
                       && (now - ec_SentAt state <? mfaRecoveryEmailCodeResendCooldown)
       | None => false
       end
    then ret (WriteError 429 "recovery_email_code_recently_sent" "a recovery email code was just sent; wait before requesting another")
    else
      try! code := generateNumericCode mfaRecoveryEmailCodeDigits otherwise email_send_failed "cannot generate verification code" in
      try! deliveryEmail := SendRecoveryEmailMFACode u code otherwise send_refused in
      let state := mkEmailChallenge (s_ID sess) (u_ID u) deliveryEmail (trustedDeviceTokenHash code) now
                     (now + mfaRecoveryEmailCodeTTL) 0 mfaRecoveryEmailCodeMaxAttempts in
      try! _ := storeMFARecoveryEmailChallenge (s_ID sess) state
        otherwise email_send_failed "cannot persist recovery email challenge" in
      do! ignore (InsertAudit (u_ID u) "auth.mfa.recovery_email.send" (s_ID sess) (audit_meta
            [("session_id", PText (s_ID sess)); ("delivery_hint", PText (maskEmailAddress deliveryEmail));
             ("expires_at", PTime (ec_ExpiresAt state)); ("code_length", PInt mfaRecoveryEmailCodeDigits);
             ("remember_bound", PBool false)])) in
      ret (WriteJSON 200 [("status", JText "sent"); ("delivery_hint", JText (maskEmailAddress deliveryEmail));
        ("expires_at", JTime (ec_ExpiresAt state)); ("code_length", JInteger mfaRecoveryEmailCodeDigits)])).

Definition verify_failed (message : string) (e : GoErr) : HTTPReply := WriteError 500 "recovery_email_verify_failed" message.
Definition too_many_attempts : HTTPReply := WriteError 429 "rate_limited" "too many attempts".

(** A code against the challenge, whose attempts are counted. *)
Definition check_emailed_code (r : APIRequest) (u : User) (sess : Session) (code : string) (remember : bool)
    (state : mfaRecoveryEmailChallengeState) : DBM HTTPReply :=
  let state := state <| ec_AttemptCount := ec_AttemptCount state + 1 |> in
  let exhausted := do! ignore (deleteMFARecoveryEmailChallenge (s_ID sess)) in ret too_many_attempts in
  if ec_MaxAttempts state <? ec_AttemptCount state then exhausted
  else if negb (String.eqb (ec_CodeHash state) (trustedDeviceTokenHash code)) then
    if ec_MaxAttempts state <=? ec_AttemptCount state then exhausted
    else
      try! _ := storeMFARecoveryEmailChallenge (s_ID sess) state
        otherwise verify_failed "cannot update verification attempt count" in
      ret (WriteError 401 "invalid_recovery_email_code" "invalid recovery email code")
  else
    try! _ := SetSessionMFAVerified (s_ID sess) "recovery_email" otherwise verify_failed "cannot mark session mfa state" in
    remembering r (u_ID u) remember (verify_failed "cannot remember trusted device") (
      do! ignore (deleteMFARecoveryEmailChallenge (s_ID sess)) in
      do! ignore (InsertAudit (u_ID u) "auth.mfa.recovery_email.verify" (s_ID sess) (audit_meta
            [("session_id", PText (s_ID sess)); ("delivery_hint", PText (maskEmailAddress (ec_DeliveryEmail state)));
             ("remember_device", PBool remember)])) in
      ret verified_reply).

Definition V2MFARecoveryEmailVerify (r : APIRequest) (c : Caller) : DBM HTTPReply :=
  requirePendingMFAVerification c (fun u sess =>
    try! (code, remember) := of_res (decode_code r) otherwise writeJSONDecodeError in
    let code := TrimSpace code in
    if String.eqb code "" then ret (WriteError 400 "bad_request" "code is required")
    else
      try! found := loadMFARecoveryEmailChallenge (s_ID sess)
        otherwise verify_failed "cannot read recovery email challenge state" in
      match found with
      | None => ret (WriteError 409 "recovery_email_code_missing" "request a recovery email code before verifying")
      | Some state =>
          if negb (String.eqb (ec_UserID state) (u_ID u)) || negb (String.eqb (ec_SessionID state) (s_ID sess))
          then ret (WriteError 409 "recovery_email_code_missing" "request a recovery email code before verifying")
          else
            let! now := time_Now in
            let state := state <| ec_MaxAttempts := if ec_MaxAttempts state <=? 0 then mfaRecoveryEmailCodeMaxAttempts
                                                    else ec_MaxAttempts state |> in
            if ec_ExpiresAt state <? now then
              do! ignore (deleteMFARecoveryEmailChallenge (s_ID sess)) in
              ret (WriteError 401 "invalid_recovery_email_code" "recovery email code is missing or expired")
            else check_emailed_code r u sess code remember state
      end).

(** *** Approval by another device *)

Definition storeMFADeviceApprovalRequest (userID requestID : string) (s : mfaDeviceApprovalRequestState) : DBM unit :=
  store_state (mfaDeviceApprovalRequestSettingKey userID requestID) (approval_json s).
Definition loadMFADeviceApprovalRequest (userID requestID : string) : DBM (option mfaDeviceApprovalRequestState) :=
  load_state decode_approval (mfaDeviceApprovalRequestSettingKey userID requestID).
Definition deleteMFADeviceApprovalRequest (userID requestID : string) : DBM unit :=
  DeleteSetting (mfaDeviceApprovalRequestSettingKey userID requestID).

(** The other sessions that could approve: live and verified. *)
Definition eligible_session (excludeSessionID : string) (now : Z) (s : Session) : bool :=
  negb (String.eqb (TrimSpace (s_ID s)) (TrimSpace excludeSessionID))
  && match s_RevokedAt s with None => true | Some t => IsZero t end
  && match s_MFAVerifiedAt s with None => false | Some t => negb (IsZero t) end
  && (IsZero (s_ExpiresAt s) || (now <? s_ExpiresAt s)) && (IsZero (s_IdleExpiresAt s) || (now <? s_IdleExpiresAt s)).
Definition countEligibleMFAApprovalSessions (userID excludeSessionID : string) (now : Z) : DBM Z :=
  let! items := ListSessionsMeta userID in
  ret (Z.of_nat (length (List.filter (fun m => eligible_session excludeSessionID now (smv_Session m)) items))).

Definition request_failed (message : string) (e : GoErr) : HTTPReply := WriteError 500 "device_approval_request_failed" message.

Definition V2MFADeviceApprovalRequest (r : APIRequest) (c : Caller) : DBM HTTPReply :=
  requirePendingMFAVerification c (fun u sess =>
    try! remember := of_res (decodeJSON r jsonLimitAuthControl false false (decode_flag "remember_device"))
      otherwise writeJSONDecodeError in
    let! now := time_Now in
    do! ignore (DeleteSettingsByPrefixOlderThan mfaDeviceApprovalSettingsPrefix (now - 2 * Hour)) in
    try! otherDeviceCount := countEligibleMFAApprovalSessions (u_ID u) (s_ID sess) now
      otherwise request_failed "cannot inspect existing sessions" in
    if otherDeviceCount =? 0
    then ret (WriteError 409 "authenticated_device_unavailable" "no other signed-in device is available to approve this login")
    else
      let! requestID := uuid_NewString in
      let state := mkApproval requestID (u_ID u) (s_ID sess) (client_ip r) (aq_UserAgent r)
                     (trustedDeviceLabel (aq_UserAgent r)) now (now + mfaDeviceApprovalTTL) "pending" remember
                     ZeroTime "" "" in
      try! _ := storeMFADeviceApprovalRequest (u_ID u) requestID state
        otherwise request_failed "cannot persist device approval request" in
      do! ignore (InsertAudit (u_ID u) "auth.mfa.device_approval.request" (s_ID sess) (audit_meta
            [("request_id", PText requestID); ("session_id", PText (s_ID sess));
             ("request_ip_hint", PText (ap_RequestIPHint state)); ("request_device", PObject (summarizeApprovalDevice state));
             ("remember_device", PBool remember); ("other_device_count", PInt otherDeviceCount);
             ("expires_at", PTime (ap_ExpiresAt state))])) in
      ret (WriteJSON 200 (approvalRequestResponse state "pending" ++ [("other_device_count", JInteger otherDeviceCount)]))).

Definition approval_not_found : HTTPReply := WriteError 404 "approval_request_not_found" "approval request not found".
Definition is_pending (s : mfaDeviceApprovalRequestState) : bool := String.eqb (TrimSpace (ap_Status s)) "pending".

Definition V2MFADeviceApprovalCancel (r : APIRequest) (c : Caller) : DBM HTTPReply :=
  requirePendingMFAVerification c (fun u sess =>
    let failed message (_ : GoErr) := WriteError 500 "device_approval_cancel_failed" message in
    try! requestID := of_res (decodeJSON r jsonLimitAuthControl false "" (decode_text "request_id"))
      otherwise writeJSONDecodeError in
    let requestID := TrimSpace requestID in
    if String.eqb requestID "" then ret (WriteError 400 "bad_request" "request_id is required")
    else
      try! found := loadMFADeviceApprovalRequest (u_ID u) requestID otherwise failed "cannot read device approval request" in
      let cancelled := WriteJSON 200 [("status", JText "cancelled")] in
      match found with
      | None => ret approval_not_found
      | Some state =>
          if negb (String.eqb (ap_SessionID state) (s_ID sess)) then ret approval_not_found
          else if is_pending state then
            let! now := time_Now in
            let state := state <| ap_Status := "cancelled" |> <| ap_DecisionAt := now |>
                               <| ap_DecisionBySessionID := s_ID sess |> in
            try! _ := storeMFADeviceApprovalRequest (u_ID u) requestID state
              otherwise failed "cannot cancel device approval request" in
            do! ignore (InsertAudit (u_ID u) "auth.mfa.device_approval.cancel" (s_ID sess)
                  (audit_meta [("request_id", PText requestID); ("session_id", PText (s_ID sess))])) in
            ret cancelled
          else ret cancelled
      end).

Definition one_status (status : string) : bool := existsb (String.eqb status) ["rejected"; "cancelled"; "expired"].
Definition query_value (r : APIRequest) (name : string) : string :=
  default "" (snd <$> List.find (fun kv => String.eqb (fst kv) name) (aq_Query r)).
Definition status_reply (status : string) : HTTPReply := WriteJSON 200 [("status", JText status)].
Definition approved_reply : HTTPReply :=
  WriteJSON 200 [("status", JText "approved"); ("verified", JBoolean true); ("auth_stage", JText "authenticated")].
Definition status_failed (message : string) (e : GoErr) : HTTPReply := WriteError 500 "device_approval_status_failed" message.

(** The session's own request, once it has been looked up. *)
Definition report_approval (r : APIRequest) (u : User) (sess : Session) (requestID : string)
    (state : mfaDeviceApprovalRequestState) : DBM HTTPReply :=
  let! now := time_Now in
  let expired := is_pending state && (ap_ExpiresAt state <? now) in
  let state := if expired then state <| ap_Status := "expired" |> <| ap_DecisionAt := now |> else state in
  do! when expired (ignore (storeMFADeviceApprovalRequest (u_ID u) requestID state)) in
  let status := TrimSpace (ap_Status state) in
  if String.eqb status "approved" then
    let finish := do! ignore (deleteMFADeviceApprovalRequest (u_ID u) requestID) in ret approved_reply in
    match s_MFAVerifiedAt sess with
    | Some _ => finish
    | None =>
        try! _ := SetSessionMFAVerified (s_ID sess) "device_approval" otherwise status_failed "cannot mark session mfa state" in
        remembering r (u_ID u) (ap_RememberDevice state) (status_failed "cannot remember trusted device") finish
    end
  else if one_status status then ret (status_reply status)
  else ret (WriteJSON 200 [("status", JText "pending"); ("expires_at", JTime (ap_ExpiresAt state))]).

Definition V2MFADeviceApprovalStatus (r : APIRequest) (c : Caller) : DBM HTTPReply :=
  let u := cl_User c in
  match cl_Session c with
  | None => ret session_missing
  | Some sess =>
      let requestID := TrimSpace (query_value r "request_id") in
      if String.eqb requestID "" then ret (WriteError 400 "bad_request" "request_id is required")
      else
        try! found := loadMFADeviceApprovalRequest (u_ID u) requestID
          otherwise status_failed "cannot read device approval request" in
        match found with
        | None =>
            try! stage := ResolveMFAStage u (Some sess) otherwise status_failed "cannot resolve mfa stage" in
            ret (if is_authenticated stage then approved_reply else status_reply "expired")
        | Some state =>
            if negb (String.eqb (ap_SessionID state) (s_ID sess)) then ret approval_not_found
            else report_approval r u sess requestID state
        end
  end.

(** The requests another session of the user may decide, latest first. *)
Definition listable (currentSessionID : string) (now : Z) (s : mfaDeviceApprovalRequestState) : bool :=
  is_pending s && (IsZero (ap_ExpiresAt s) || negb (ap_ExpiresAt s <? now))
  && (String.eqb currentSessionID "" || negb (String.eqb (ap_SessionID s) currentSessionID)).
Fixpoint decode_rows (rows : list SettingValue) : Res (list mfaDeviceApprovalRequestState) :=
  match rows with
  | [] => Ok []
  | row :: rows' =>
      if String.eqb (TrimSpace (sv_Value row)) "" then decode_rows rows'
      else match decode_approval (sv_Value row) with
           | Fail e => Fail e
           | Ok state => match decode_rows rows' with Ok l => Ok (state :: l) | Fail e => Fail e end
           end
  end.
Definition listPendingMFADeviceApprovalRequests (userID currentSessionID : string) (now : Z) :
    DBM (list mfaDeviceApprovalRequestState) :=
  let! rows := ListSettingsByPrefix (mfaDeviceApprovalRequestSettingsPrefix userID) 50 in
  let! states := of_res (decode_rows rows) in
  ret (order_by (in_order (fun s => KNum (ap_RequestedAt s)) DESC) (List.filter (listable currentSessionID now) states)).

Definition V2ListPendingMFADeviceApprovals (r : APIRequest) (c : Caller) : DBM HTTPReply :=
  let u := cl_User c in
  let! now := time_Now in
  do! ignore (DeleteSettingsByPrefixOlderThan mfaDeviceApprovalSettingsPrefix (now - 2 * Hour)) in
  try! items := listPendingMFADeviceApprovalRequests (u_ID u) (s_ID (session_of c)) now
    otherwise (fun _ => WriteError 500 "device_approvals_list_failed" "cannot load pending device approvals") in
  ret (WriteJSON 200 [("items", JArray (map (fun s => JObject (approvalRequestResponse s (TrimSpace (ap_Status s)))) items))]).

Definition decision_failed (message : string) (e : GoErr) : HTTPReply := WriteError 500 "device_approval_decision_failed" message.

Definition V2DecidePendingMFADeviceApproval (r : APIRequest) (c : Caller) : DBM HTTPReply :=
  let u := cl_User c in
  let sess := session_of c in
  let requestID := TrimSpace (aq_ID r) in
  if String.eqb requestID "" then ret (WriteError 400 "bad_request" "approval request id is required")
  else
    try! decision := of_res (decodeJSON r jsonLimitAuthControl false "" (decode_text "decision"))
      otherwise writeJSONDecodeError in
    let decision := fold_trim decision in
    if negb (String.eqb decision "approve") && negb (String.eqb decision "reject")
    then ret (WriteError 400 "bad_request" "decision must be approve or reject")
    else
      try! found := loadMFADeviceApprovalRequest (u_ID u) requestID otherwise decision_failed "cannot read device approval request" in
      match found with
      | None => ret approval_not_found
      | Some state =>
          let! now := time_Now in
          if ap_ExpiresAt state <? now then
            do! ignore (storeMFADeviceApprovalRequest (u_ID u) requestID
                          (state <| ap_Status := "expired" |> <| ap_DecisionAt := now |>)) in
            ret (WriteError 409 "approval_request_expired" "approval request has expired")
          else if negb (is_pending state)
          then ret (WriteError 409 "approval_request_resolved" "approval request has already been resolved")
          else
            let rejected := String.eqb decision "reject" in
            let label := trustedDeviceLabel (aq_UserAgent r) in
            let state := state <| ap_Status := if rejected then "rejected" else "approved" |> <| ap_DecisionAt := now |>
              <| ap_DecisionBySessionID := s_ID sess |> <| ap_DecisionDeviceLabel := label |> in
            try! _ := storeMFADeviceApprovalRequest (u_ID u) requestID state
              otherwise decision_failed "cannot persist device approval decision" in
            do! ignore (InsertAudit (u_ID u)
                  (if rejected then "auth.mfa.device_approval.reject" else "auth.mfa.device_approval.approve")
                  (ap_SessionID state) (audit_meta
                  [("request_id", PText requestID); ("request_session_id", PText (ap_SessionID state));
                   ("decision_session_id", PText (s_ID sess)); ("decision_device_label", PText label);
                   ("remember_device", PBool (ap_RememberDevice state))])) in
            ret (status_reply (ap_Status state))
      end.

(** ** Setting factors up *)

Definition V2GetMFAStatus (r : APIRequest) (c : Caller) : DBM HTTPReply :=
  let u := cl_User c in
  let failed message (_ : GoErr) := WriteError 500 "mfa_status_failed" message in
  try! status := GetMFAStatus (u_ID u) otherwise (fun e => failed (err_text e) e) in
  try! stage := ResolveMFAStage u (Some (session_of c)) otherwise failed "cannot resolve mfa stage" in
  ret (WriteJSON 200
    ([("has_totp", JBoolean (HasTOTP status)); ("totp_enabled", JBoolean (TOTPEnabled status));
      ("webauthn_credentials", JInteger (WebAuthnCount status)); ("recovery_codes", JInteger (RecoveryCodes status));
      ("recovery_unused", JInteger (RecoveryUnused status))] ++ applyAuthStageFields stage)).

(** New recovery codes, of which the hashes are stored. *)
Definition replace_recovery_codes (userID : string) (failed : string -> GoErr -> HTTPReply)
    (k : list string -> DBM HTTPReply) : DBM HTTPReply :=
  try! recoveryCodes := generateRecoveryCodes 10 otherwise failed "cannot generate recovery codes" in
  try! _ := ReplaceMFARecoveryCodes userID (map sha256_hex recoveryCodes)
    otherwise failed "cannot persist recovery codes" in
  k recoveryCodes.

(** The package otp draws the secret. *)
Definition totp_key (issuer account : string) : DBM (string * string) :=
  fun w => (totp_Generate (w_fresh w) issuer account, w <| w_fresh := S (w_fresh w) |>).

(** [base64.StdEncoding], which pads. *)
Definition std_base64 (s : string) : string :=
  base64_encode (bytes s) +:+ of_bytes (repeat 61 (Nat.modulo (3 - Nat.modulo (length (bytes s)) 3) 3)).

Definition V2MFAEnrollTOTP (r : APIRequest) (c : Caller) : DBM HTTPReply :=
  let u := cl_User c in
  let failed message (_ : GoErr) := WriteError 500 "totp_enroll_failed" message in
  try! issuer := of_res (decodeJSON r jsonLimitAuthControl true "" (decode_text "issuer")) otherwise writeJSONDecodeError in
  let issuer := if String.eqb (TrimSpace issuer) "" then "Despatch" else TrimSpace issuer in
  try! (secret, url) := totp_key issuer (u_Email u)
    otherwise (fun e => failed (err_text e) e) in
  try! enc := EncryptString secret otherwise failed "cannot persist secret" in
  let! now := time_Now in
  try! _ := UpsertMFATOTP {| to_UserID := u_ID u; to_SecretEnc := enc; to_Issuer := issuer;
                             to_AccountName := u_Email u; to_Enabled := false; to_EnrolledAt := None;
                             to_UpdatedAt := now |}
    otherwise (fun e => failed (err_text e) e) in
  replace_recovery_codes (u_ID u) failed (fun recoveryCodes =>
    try! qrPNG := of_res (qrcode_Encode url) otherwise failed "cannot generate setup qr code" in
    ret (WriteJSON 200 [("status", JText "pending_confirmation"); ("issuer", JText issuer);
      ("account_name", JText (u_Email u)); ("secret", JText secret); ("manual_entry_key", JText secret);
      ("otpauth_url", JText url); ("qr_png_data_url", JText ("data:image/png;base64," +:+ std_base64 qrPNG));
      ("setup_instructions", JArray (map JText
         ["Open an authenticator app on your phone."; "Scan the QR code (or use the manual key).";
          "Enter the 6-digit code from your app to finish setup.";
          "Save your recovery codes in a safe place before enabling MFA."]));
      ("recovery_codes", JArray (map JText recoveryCodes))])).

Definition acknowledgement_required : HTTPReply :=
  WriteError 400 "recovery_codes_ack_required" "you must confirm that recovery codes were saved".

(** The end of a setup: the session has been verified, and the caller's user and
    session are answered as they are now. *)
Definition complete_setup (c : Caller) (sess : Session) (status : string) (failed : string -> GoErr -> HTTPReply) : DBM HTTPReply :=
  let u := cl_User c in
  do! ignore (DeleteSetting (mfaTrustedPendingRememberSettingKey (s_ID sess))) in
  do! ignore (SetLegacyMFAPromptPending (u_ID u) false) in
  let! now := time_Now in
  try! stage := ResolveMFAStage (u <| u_MFABackupCompleted := true |>) (Some (sess <| s_MFAVerifiedAt := Some now |>))
    otherwise failed "cannot resolve mfa stage" in
  ret (WriteJSON 200 ([("status", JText status); ("verified", JBoolean true)] ++ applyAuthStageFields stage)).

(** A factor is set up: the user has completed the backup and the session is
    verified. *)
Definition verify_setup (u : User) (sess : Session) (method : string) (failed : string -> GoErr -> HTTPReply)
    (k : DBM HTTPReply) : DBM HTTPReply :=
  try! _ := SetUserMFABackupCompleted (u_ID u) true otherwise failed "cannot update mfa backup state" in
  try! _ := SetSessionMFAVerified (s_ID sess) method otherwise failed "cannot mark session mfa state" in
  k.

Definition V2MFAConfirmTOTP (r : APIRequest) (c : Caller) : DBM HTTPReply :=
  let u := cl_User c in
  let failed message (_ : GoErr) := WriteError 500 "totp_confirm_failed" message in
  match cl_Session c with
  | None => ret session_missing
  | Some sess =>
      try! (code, ack, remember) := of_res (decodeJSON r jsonLimitAuthControl false ("", false, false) (fun l =>
          code ← decode_text "code" l; ack ← decode_flag "recovery_codes_ack" l; remember ← decode_flag "remember_device" l;
          Some (code, ack, remember))) otherwise writeJSONDecodeError in
      if negb ack then ret acknowledgement_required
      else
        try! rec := GetMFATOTP (u_ID u) otherwise (fun _ => WriteError 404 "totp_not_enrolled" "totp not enrolled") in
        try! secret := of_res (DecryptString (to_SecretEnc rec)) otherwise failed "cannot read totp secret" in
        try! valid := verifyTOTPCode (u_ID u) secret code
          otherwise (fun e => WriteError 503 "totp_verifier_unavailable" (err_text e)) in
        if negb valid then ret (WriteError 401 "invalid_totp_code" "invalid code")
        else
          let! now := time_Now in
          try! _ := UpsertMFATOTP (rec <| to_Enabled := true |> <| to_EnrolledAt := Some now |>)
            otherwise (fun e => failed (err_text e) e) in
          verify_setup u sess "totp_setup" failed (
            remembering r (u_ID u) remember (failed "cannot remember trusted device")
              (complete_setup c sess "enabled" failed))
  end.

Definition transports_json (l : list string) : string := of_bytes (payload_value (PTexts l)).

Definition public_key_params : Json :=
  JArray [JObject [("type", JText "public-key"); ("alg", JInteger (-7))];
          JObject [("type", JText "public-key"); ("alg", JInteger (-257))]].

Definition V2MFAWebAuthnRegisterBegin (r : APIRequest) (c : Caller) : DBM HTTPReply :=
  let u := cl_User c in
  let failed message (_ : GoErr) := WriteError 500 "webauthn_register_begin_failed" message in
  let! enabled := mailSecRuntimeEnabled in
  if negb enabled then ret (WriteError 503 "mailsec_unavailable" "mailsec service is required for webauthn")
  else
    try! creds := ListMFAWebAuthnCredentials (u_ID u) otherwise (fun e => failed (err_text e) e) in
    requireWebAuthnContext r (fun context =>
      try! challenge := randomToken otherwise failed "cannot generate challenge" in
      let! now := time_Now in
      let state := mkWebAuthnChallenge (u_ID u) "register" challenge (wa_RPID context) (wa_Origins context)
                     (now + 5 * Minute) in
      try! _ := store_state (webAuthnRegisterChallengeSettingKey (u_ID u)) (webauthn_challenge_json state)
        otherwise failed "cannot persist challenge" in
      let excluded := JArray (map (fun cred => JObject (credential_entry cred (wc_CredentialID cred))) creds) in
      let rp := JObject [("id", JText (wa_RPID context)); ("name", JText "Despatch")] in
      let owner displayName := JObject [("id", JText (hex_encode (bytes (u_ID u)))); ("name", JText (u_Email u));
                                        (displayName, JText (u_Email u))] in
      ret (WriteJSON 200 [("status", JText "challenge_created"); ("challenge", JText challenge);
        ("timeout_ms", JInteger 300000); ("rp", rp); ("user", owner "display_name");
        ("pub_key_cred_params", public_key_params);
        ("public_key", JObject [("challenge", JText challenge); ("rp", rp); ("user", owner "displayName");
           ("pubKeyCredParams", public_key_params); ("excludeCredentials", excluded); ("attestation", JText "none");
           ("timeout", JInteger 300000);
           ("authenticatorSelection", JObject [("userVerification", JText "preferred")])]);
        ("exclude_credentials", excluded)])).

(** A credential as it is answered; a time that is not set is the zero time. *)
Definition credential_json (cred : WebAuthnCredential) : Json :=
  JObject [("id", JText (wc_ID cred)); ("user_id", JText (wc_UserID cred)); ("credential_id", JText (wc_CredentialID cred));
    ("public_key", JText (wc_PublicKey cred)); ("sign_count", JInteger (wc_SignCount cred));
    ("transports_json", JText (wc_TransportsJSON cred)); ("name", JText (wc_Name cred));
    ("created_at", JTime (wc_CreatedAt cred)); ("last_used_at", JTime (default ZeroTime (wc_LastUsedAt cred)))].

(** The registered credential is stored, and its owner gets new recovery codes. *)
Definition store_passkey (u : User) (sess : Session) (remember : bool) (cred : WebAuthnCredential) : DBM HTTPReply :=
  let failed message (_ : GoErr) := WriteError 500 "webauthn_register_finish_failed" message in
  try! created := UpsertMFAWebAuthnCredential cred otherwise (fun e => failed (err_text e) e) in
  do! ignore (InsertAudit (u_ID u) "auth.passkey.register" (u_ID u)
        (payload_json [("credential", PText (wc_ID created)); ("credential_id", PText (wc_CredentialID created));
                       ("name", PText (wc_Name created))])) in
  try! _ := SetUserMFABackupCompleted (u_ID u) false otherwise failed "cannot update mfa backup state" in
  replace_recovery_codes (u_ID u) failed (fun recoveryCodes =>
    let key := mfaTrustedPendingRememberSettingKey (s_ID sess) in
    try! _ := (if remember then UpsertSetting key "1" else ignore (DeleteSetting key))
      otherwise failed "cannot persist remember-device state" in
    do! ignore (DeleteSetting (webAuthnRegisterChallengeSettingKey (u_ID u))) in
    try! stage := ResolveMFAStage (u <| u_MFABackupCompleted := false |>) (Some sess)
      otherwise failed "cannot resolve mfa stage" in
    ret (WriteJSON 201 ([("status", JText "backup_ack_required"); ("backup_ack_required", JBoolean true);
      ("credential", credential_json created); ("recovery_codes", JArray (map JText recoveryCodes));
      ("remember_device", JBoolean remember);
      ("setup_instructions", JArray (map JText ["Your passkey is ready."; "Save your recovery codes now.";
         "Confirm that your recovery codes are saved to finish MFA setup."]))] ++ applyAuthStageFields stage))).

Definition V2MFAWebAuthnRegisterFinish (r : APIRequest) (c : Caller) : DBM HTTPReply :=
  let u := cl_User c in
  let failed message (_ : GoErr) := WriteError 500 "webauthn_register_finish_failed" message in
  let! enabled := mailSecRuntimeEnabled in
  if negb enabled then ret (WriteError 503 "mailsec_unavailable" "mailsec service is required for webauthn")
  else requireWebAuthnContext r (fun context =>
    match cl_Session c with
    | None => ret session_missing
    | Some sess =>
        try! req := of_res (decode_map r jsonLimitAuthControl) otherwise writeJSONDecodeError in
        let remember := default false (getBoolValue req "remember_device") in
        let resp := getMapValue req "response" in
        let clientDataJSON := getStringValue resp ["client_data_json"; "clientDataJSON"] in
        let attestationObject := getStringValue resp ["attestation_object"; "attestationObject"] in
        let challenge := getStringValue req ["challenge"] in
        if String.eqb clientDataJSON "" || String.eqb attestationObject ""
        then ret (WriteError 400 "bad_request" "response.clientDataJSON and response.attestationObject are required")
        else
          try! found := load_challenge (webAuthnRegisterChallengeSettingKey (u_ID u))
            otherwise failed "cannot read challenge state" in
          standing_challenge u "register" found (fun state =>
            if negb (String.eqb challenge "") && negb (String.eqb (wn_Challenge state) challenge)
            then ret (challenge_invalid "challenge mismatch")
            else
              try! result := callMailSecOperation "webauthn.register.finish" (u_ID u)
                   [("challenge", JText (wn_Challenge state));
                    ("rp_id", JText (firstNonEmpty [wn_RPID state; wa_RPID context]));
                    ("origins", JArray (map JText (firstNonEmptySlice [wn_Origins state; wa_Origins context])));
                    ("client_data_json_b64url", JText clientDataJSON);
                    ("attestation_object_b64url", JText attestationObject);
                    ("credential_id", JText (getStringValue req ["credential_id"; "raw_id"; "rawId"; "id"]));
                    ("require_user_verification", JBoolean false)]
                otherwise (fun e => WriteError 401 "webauthn_register_finish_failed" (err_text e)) in
              let credentialID := getStringValue result ["credential_id"] in
              let publicKey := getStringValue result ["public_key_cose_b64url"] in
              let signCount := default (-1) (getInt64Value result "sign_count") in
              if String.eqb credentialID "" || String.eqb publicKey "" || (signCount <? 0)
              then ret (failed "mailsec response is incomplete" ErrDriver)
              else
                let! id := uuid_NewString in
                let! now := time_Now in
                let transports := match getStringSliceValue req "transports" with
                                  | [] => getStringSliceValue resp "transports"
                                  | l => l
                                  end in
                let name := getStringValue req ["name"] in
                store_passkey u sess remember {| wc_ID := id; wc_UserID := u_ID u; wc_CredentialID := credentialID;
                  wc_PublicKey := publicKey; wc_SignCount := signCount; wc_TransportsJSON := transports_json transports;
                  wc_Name := if String.eqb name "" then "Passkey" else name; wc_CreatedAt := now;
                  wc_LastUsedAt := None |})
    end).

Definition V2MFARecoveryCodesAck (r : APIRequest) (c : Caller) : DBM HTTPReply :=
  let u := cl_User c in
  let failed message (_ : GoErr) := WriteError 500 "mfa_backup_ack_failed" message in
  match cl_Session c with
  | None => ret session_missing
  | Some sess =>
      try! (ack, remember) := of_res (decodeJSON r jsonLimitAuthControl false (false, false) (fun l =>
          ack ← decode_flag "recovery_codes_ack" l; remember ← decode_flag "remember_device" l; Some (ack, remember)))
        otherwise writeJSONDecodeError in
      if negb ack then ret acknowledgement_required
      else
        try! status := GetMFAStatus (u_ID u) otherwise failed "cannot load mfa status" in
        if negb (TOTPEnabled status) && (WebAuthnCount status =? 0)
        then ret (WriteError 409 "mfa_primary_factor_missing" "set up a primary MFA method before confirming recovery codes")
        else verify_setup u sess "mfa_backup_ack" failed (
          let! raw := attempt (GetSetting (mfaTrustedPendingRememberSettingKey (s_ID sess))) in
          let pending := match raw with Ok (Some s) => String.eqb (TrimSpace s) "1" | _ => false end in
          remembering r (u_ID u) (remember || pending) (failed "cannot remember trusted device")
            (complete_setup c sess "ok" failed))
  end.

Definition V2MFALegacyDismiss (r : APIRequest) (c : Caller) : DBM HTTPReply :=
  let u := cl_User c in
  let failed message (_ : GoErr) := WriteError 500 "mfa_legacy_dismiss_failed" message in
  try! _ := SetLegacyMFAPromptPending (u_ID u) false otherwise (fun e => failed (err_text e) e) in
  try! stage := ResolveMFAStage (u <| u_LegacyMFAPromptPending := false |>) (Some (session_of c))
    otherwise failed "cannot resolve mfa stage" in
  ret (WriteJSON 200 (("status", JText "dismissed") :: applyAuthStageFields stage)).

Definition is_factor (preference : string) : bool := String.eqb preference "totp" || String.eqb preference "webauthn".

Definition V2MFAUpdatePreference (r : APIRequest) (c : Caller) : DBM HTTPReply :=
  let u := cl_User c in
  let sess := session_of c in
  let failed message (_ : GoErr) := WriteError 500 "mfa_preference_update_failed" message in
  try! preference := of_res (decodeJSON r jsonLimitAuthControl false "" (decode_text "preference"))
    otherwise writeJSONDecodeError in
  let target := NormalizeMFAPreference preference in
  if negb (is_factor target) then ret (WriteError 400 "bad_request" "preference must be totp or webauthn")
  else
    try! stage := ResolveMFAStage u (Some sess) otherwise failed "cannot resolve mfa stage" in
    if negb (st_MFASetupRequired stage)
    then ret (WriteError 409 "mfa_preference_switch_not_allowed" "preference switch is only available during required setup")
    else if String.eqb (st_MFAPreference stage) target
    then ret (WriteJSON 200 (("status", JText "unchanged") :: applyAuthStageFields stage))
    else if negb (is_factor (st_MFAPreference stage))
    then ret (WriteError 409 "mfa_preference_switch_not_allowed" "preference switch is only supported between totp and webauthn")
    else if u_MFASetupSwitchUsed u
    then ret (WriteError 409 "mfa_preference_switch_exhausted" "mfa setup preference switch has already been used")
    else
      try! _ := UpdateUserMFAPreference (u_ID u) target otherwise (fun e => failed (err_text e) e) in
      try! _ := MarkMFASetupSwitchUsed (u_ID u) otherwise (fun e => failed (err_text e) e) in
      try! updatedUser := GetUserByID (u_ID u) otherwise failed "cannot load updated user preference" in
      try! nextStage := ResolveMFAStage updatedUser (Some sess) otherwise failed "cannot resolve mfa stage" in
      ret (WriteJSON 200 ([("status", JText "updated"); ("preference", JText (u_MFAPreference updatedUser))]
                          ++ applyAuthStageFields nextStage)).

(** ** Credentials, devices and sessions of a user *)

Definition missing_or (e : GoErr) (code missing failed : string) : HTTPReply :=
  if errors_Is e ErrNotFound then WriteError 404 code missing else WriteError 500 failed (err_text e).

Definition V2MFAWebAuthnDelete (r : APIRequest) (c : Caller) : DBM HTTPReply :=
  let u := cl_User c in
  let id := TrimSpace (aq_ID r) in
  if String.eqb id "" then ret (WriteError 400 "bad_request" "credential id is required")
  else
    try! _ := DeleteMFAWebAuthnCredential (u_ID u) id
      otherwise (fun e => missing_or e "credential_not_found" "webauthn credential not found" "webauthn_delete_failed") in
    do! ignore (InsertAudit (u_ID u) "auth.passkey.delete" (u_ID u) (payload_json [("credential", PText id)])) in
    ret (status_reply "deleted").

Definition V2MFAWebAuthnList (r : APIRequest) (c : Caller) : DBM HTTPReply :=
  try! items := ListMFAWebAuthnCredentials (u_ID (cl_User c))
    otherwise (fun e => WriteError 500 "webauthn_list_failed" (err_text e)) in
  ret (WriteJSON 200 [("items", JArray (map credential_json items))]).

Definition V2MFAWebAuthnRename (r : APIRequest) (c : Caller) : DBM HTTPReply :=
  let id := TrimSpace (aq_ID r) in
  if String.eqb id "" then ret (WriteError 400 "bad_request" "credential id is required")
  else
    try! name := of_res (decodeJSON r jsonLimitAuthControl false "" (decode_text "name")) otherwise writeJSONDecodeError in
    if String.eqb (TrimSpace name) "" then ret (WriteError 400 "bad_request" "credential name is required")
    else
      try! _ := RenameMFAWebAuthnCredential (u_ID (cl_User c)) id name
        otherwise (fun e => missing_or e "credential_not_found" "webauthn credential not found" "webauthn_rename_failed") in
      ret (status_reply "ok").

(** The identifier of the device that the cookie belongs to, or nothing. *)
Definition current_device (r : APIRequest) (u : User) : DBM string :=
  match trusted_cookie r with
  | None => ret ""
  | Some value =>
      let! now := time_Now in
      let! found := attempt (GetActiveMFATrustedDeviceByTokenHash (u_ID u) (trustedDeviceTokenHash value) now) in
      ret match found with Ok d => td_ID d | Fail _ => "" end
  end.
Definition is_current (current id : string) : bool := negb (String.eqb current "") && String.eqb id current.
Definition time_entry (name : string) (t : option Z) : list (string * Json) :=
  match t with Some t => if IsZero t then [] else [(name, JTime t)] | None => [] end.

Definition device_entry (current : string) (d : TrustedDevice) : list (string * Json) :=
  let '(display, browser, osLabel, deviceType) := summarizeTrustedDeviceLabel (td_DeviceLabel d) in
  [("id", JText (td_ID d)); ("user_id", JText (td_UserID d)); ("ip_hint", JText (td_IPHint d));
   ("device_label", JText (td_DeviceLabel d)); ("created_at", JTime (td_CreatedAt d)); ("expires_at", JTime (td_ExpiresAt d));
   ("is_current", JBoolean (is_current current (td_ID d))); ("display_label", JText display); ("browser", JText browser);
   ("os", JText osLabel); ("device_type", JText deviceType)]
  ++ time_entry "last_used_at" (td_LastUsedAt d) ++ time_entry "revoked_at" (td_RevokedAt d).

Definition V2ListTrustedDevices (r : APIRequest) (c : Caller) : DBM HTTPReply :=
  let u := cl_User c in
  let! now := time_Now in
  try! items := ListActiveMFATrustedDevices (u_ID u) now
    otherwise (fun e => WriteError 500 "trusted_devices_list_failed" (err_text e)) in
  let! current := current_device r u in
  ret (WriteJSON 200 [("items", JArray (map (fun d => JObject (device_entry current d)) items))]).

Definition V2RevokeTrustedDevice (r : APIRequest) (c : Caller) : DBM HTTPReply :=
  let u := cl_User c in
  let targetID := TrimSpace (aq_ID r) in
  if String.eqb targetID "" then ret (WriteError 400 "bad_request" "trusted device id is required")
  else
    let! current := current_device r u in
    try! _ := RevokeMFATrustedDevice (u_ID u) targetID
      otherwise (fun e => missing_or e "trusted_device_not_found" "trusted device not found" "trusted_device_revoke_failed") in
    ret (setting_cookies (if is_current current targetID then [clearTrustedDeviceCookie r] else [])
           (WriteJSON 200 [("status", JText "revoked"); ("id", JText targetID)])).

Definition V2RevokeAllTrustedDevices (r : APIRequest) (c : Caller) : DBM HTTPReply :=
  try! _ := RevokeAllMFATrustedDevices (u_ID (cl_User c))
    otherwise (fun e => WriteError 500 "trusted_device_revoke_failed" (err_text e)) in
  ret (setting_cookies [clearTrustedDeviceCookie r] (status_reply "revoked_all")).

Definition session_entry (current : string) (m : SessionMeta) : list (string * Json) :=
  let s := smv_Session m in
  [("session_id", JText (s_ID s)); ("user_id", JText (s_UserID s)); ("device_label", JText (smv_DeviceLabel m));
   ("ua_summary", JText (smv_UASummary m)); ("ip_hint", JText (smv_IPHint m)); ("auth_method", JText (s_AuthMethod s));
   ("created_at", JTime (s_CreatedAt s)); ("last_seen_at", JTime (s_LastSeenAt s)); ("expires_at", JTime (s_ExpiresAt s));
   ("idle_expires_at", JTime (s_IdleExpiresAt s)); ("is_current", JBoolean (is_current current (s_ID s)))]
  ++ time_entry "mfa_verified_at" (s_MFAVerifiedAt s) ++ time_entry "revoked_at" (s_RevokedAt s)
  ++ (if String.eqb (TrimSpace (smv_RevokedReason m)) "" then [] else [("revoked_reason", JText (smv_RevokedReason m))]).

Definition V2ListSessions (r : APIRequest) (c : Caller) : DBM HTTPReply :=
  try! items := ListSessionsMeta (u_ID (cl_User c))
    otherwise (fun e => WriteError 500 "sessions_list_failed" (err_text e)) in
  let current := TrimSpace (s_ID (session_of c)) in
  ret (WriteJSON 200 [("items", JArray (map (fun m => JObject (session_entry current m)) items))]).

Definition V2RevokeSession (r : APIRequest) (c : Caller) : DBM HTTPReply :=
  try! reason := of_res (decodeJSON r jsonLimitMutation true "" (decode_text "reason")) otherwise writeJSONDecodeError in
  try! _ := RevokeSessionWithReason (u_ID (cl_User c)) (aq_ID r) (TrimSpace reason)
    otherwise (fun e => missing_or e "session_not_found" "session not found" "session_revoke_failed") in
  ret (status_reply "revoked").
End SecondFactors.
