(* ===== verification/SignInFacts.v ===== *)
(** * SignInFacts: what the handlers of sign-in and second factors guarantee

    [Endpoint] lists the handlers of SignIn and SecondFactors, [answer] runs
    one.  They move the database along the machine of Lifecycle; a session is
    verified only with the evidence of a second factor, or by one of the two
    handlers that end a setup; a passkey opens a session only after the security
    service has accepted the assertion; and codes sent by mail run out. *)

From S2P Require Import Prelude GoStrings Effects GoStd GoText Json GoFmt GoTime MessageIds Threading.
From S2P Require Import Models Users Sessions Mfa MailAccounts Host FeatureFlags Identity Auth Admin Reset Lifecycle.
From S2P Require Import StoreRefinement ServiceRefinement Sample Middleware Routes Safety RateLimit SignIn SecondFactors.
Local Open Scope Z_scope.

(** The handlers; the second list is behind [Authn]. *)
Inductive Endpoint : Type :=
| E_Login | E_V2Login | E_Logout | E_PasskeyBegin | E_PasskeyFinish | E_ResetRequest | E_ResetConfirm
| E_Me | E_UpdateRecoveryEmail | E_Unlock
| E_TOTPVerify | E_WebAuthnBegin | E_WebAuthnFinish | E_RecoveryCode | E_EmailSend | E_EmailVerify
| E_ApprovalRequest | E_ApprovalCancel | E_ApprovalStatus | E_ApprovalList | E_ApprovalDecide
| E_MFAStatus | E_Enroll | E_Confirm | E_RegisterBegin | E_RegisterFinish | E_CodesAck | E_LegacyDismiss
| E_Preference | E_CredentialDelete | E_CredentialList | E_CredentialRename
| E_Devices | E_DeviceRevoke | E_DevicesRevokeAll | E_Sessions | E_SessionRevoke.

Section Answer.
Context {host : Host} {dep : Deployment} {acfg : APIConfig} {outside : Outside}.

Definition answer (e : Endpoint) (r : APIRequest) (c : Caller) : DBM HTTPReply :=
  match e with
  | E_Login => HandleLogin r | E_V2Login => V2Login r | E_Logout => HandleLogout r
  | E_PasskeyBegin => passkeyLoginBegin r | E_PasskeyFinish => passkeyLoginFinish r
  | E_ResetRequest => PasswordResetRequest r | E_ResetConfirm => PasswordResetConfirm r
  | E_Me => Me r c | E_UpdateRecoveryEmail => MeUpdateRecoveryEmail r c | E_Unlock => sessionMailSecretUnlock r c
  | E_TOTPVerify => V2MFATOTPVerify r c | E_WebAuthnBegin => V2MFAWebAuthnBegin r c
  | E_WebAuthnFinish => V2MFAWebAuthnFinish r c | E_RecoveryCode => V2MFARecoveryCodeVerify r c
  | E_EmailSend => V2MFARecoveryEmailSend r c | E_EmailVerify => V2MFARecoveryEmailVerify r c
  | E_ApprovalRequest => V2MFADeviceApprovalRequest r c | E_ApprovalCancel => V2MFADeviceApprovalCancel r c
  | E_ApprovalStatus => V2MFADeviceApprovalStatus r c | E_ApprovalList => V2ListPendingMFADeviceApprovals r c
  | E_ApprovalDecide => V2DecidePendingMFADeviceApproval r c
  | E_MFAStatus => V2GetMFAStatus r c | E_Enroll => V2MFAEnrollTOTP r c | E_Confirm => V2MFAConfirmTOTP r c
  | E_RegisterBegin => V2MFAWebAuthnRegisterBegin r c | E_RegisterFinish => V2MFAWebAuthnRegisterFinish r c
  | E_CodesAck => V2MFARecoveryCodesAck r c | E_LegacyDismiss => V2MFALegacyDismiss r c
  | E_Preference => V2MFAUpdatePreference r c | E_CredentialDelete => V2MFAWebAuthnDelete r c
  | E_CredentialList => V2MFAWebAuthnList r c | E_CredentialRename => V2MFAWebAuthnRename r c
  | E_Devices => V2ListTrustedDevices r c | E_DeviceRevoke => V2RevokeTrustedDevice r c
  | E_DevicesRevokeAll => V2RevokeAllTrustedDevices r c | E_Sessions => V2ListSessions r c
  | E_SessionRevoke => V2RevokeSession r c
  end.

(** Requests one after another; a request that panics or fails leaves what it
    has written. *)
Fixpoint answer_all (l : list (Endpoint * APIRequest * Caller)) (w : World Database) : World Database :=
  match l with
  | [] => w
  | (e, r, c) :: l' => answer_all l' (snd (answer e r c w))
  end.
End Answer.

(** ** The handlers move along the machine *)

Section Walk.
Context {host : Host} {dep : Deployment}.

Lemma spec_draw {A} step k D (f : nat -> Res A) :
  spec step k D (fun w : World Database => (f (w_fresh w), w <| w_fresh := S (w_fresh w) |>)) any.
Proof. intros w Hk HD. simpl. split_and!; [lia|done|by destruct (f _)]. Qed.
Lemma spec_or_reply {A} step k D (m : DBM A) f (g : A -> DBM HTTPReply) :
  spec step k anydb m any -> (forall a, spec step k anydb (g a) any) -> spec step k D (or_reply m f g) any.
Proof.
  intros Hm Hg. apply spec_seq; [by apply spec_attempt_any|]. intros [a|e]; [apply Hg|by apply spec_ret].
Qed.

End Walk.

(** Handlers of the API whose calls are in the [despatch] database. *)
Ltac api_walk :=
  intros; repeat first
    [ match goal with |- spec _ _ _ (or_reply _ _ _) any => apply spec_or_reply; [|intros ?] end
    | match goal with |- spec _ _ _ (let (_, _) := ?x in _) any => destruct x end
    | spec_step ].

Section Refine.
Context {host : Host} {dep : Deployment} {acfg : APIConfig} {outside : Outside}.

Lemma mailSecRuntimeEnabled_walks step k D : spec step k D mailSecRuntimeEnabled any.
Proof. intros w Hk HD. simpl. by split_and!. Qed.
Lemma mailsec_Call_walks step k D op acc payload : spec step k D (mailsec_Call op acc payload) any.
Proof. unfold mailsec_Call. apply spec_seq; [auto with despatch|]. intros id.
  apply (spec_draw _ _ _ (fun n => mailsec_answer n op (firstNonEmpty [acc; "default"]) payload)).
Qed.
Hint Resolve mailSecRuntimeEnabled_walks mailsec_Call_walks spec_draw : despatch.
Lemma callMailSec_walks step k D op acc payload : spec step k D (callMailSecOperation op acc payload) any.
Proof. unfold callMailSecOperation. spec_walk. Qed.

Lemma randomToken_walks step k D : spec step k D randomToken any.
Proof. unfold randomToken. spec_walk. Qed.
Hint Resolve callMailSec_walks randomToken_walks : despatch.
Lemma issueTrustedDevice_refines r u : refines (issueTrustedDevice r u).
Proof. unfold issueTrustedDevice, setTrustedDeviceCookie, dated_cookie. api_walk. Qed.
Lemma rotateTrustedDevice_refines r u id : refines (rotateTrustedDevice r u id).
Proof. unfold rotateTrustedDevice, setTrustedDeviceCookie, dated_cookie. api_walk. Qed.
Hint Resolve issueTrustedDevice_refines rotateTrustedDevice_refines : despatch.

Lemma load_state_walks {A} step k D (decode : string -> Res A) key : spec step k D (load_state decode key) any.
Proof. unfold load_state. api_walk. Qed.
Lemma store_state_refines key encoded : refines (store_state key encoded).
Proof. unfold store_state. api_walk. Qed.
Lemma first_credential_walks step k D get ids :
  (forall id, spec step k anydb (get id) any) -> spec step k D (first_credential get ids) any.
Proof. intros Hg. revert D. induction ids as [|id ids IH]; intros D; cbn; api_walk; auto. Qed.
Hint Resolve load_state_walks store_state_refines : despatch.
Hint Extern 2 (spec _ _ _ (first_credential _ _) any) =>
  apply first_credential_walks; intros ?; apply spec_query_any : despatch.
Lemma ListSessionsMeta_walks step k D u : spec step k D (ListSessionsMeta u) any.
Proof. apply spec_query_any. Qed.
Lemma ListSettings_walks step k D p n : spec step k D (ListSettingsByPrefix p n) any.
Proof. unfold ListSettingsByPrefix. api_walk. Qed.
Lemma ListActive_walks step k D u t : spec step k D (ListActiveMFATrustedDevices u t) any.
Proof. apply spec_query_any. Qed.
Lemma GetActiveDevice_walks step k D u h t : spec step k D (GetActiveMFATrustedDeviceByTokenHash u h t) any.
Proof. unfold GetActiveMFATrustedDeviceByTokenHash. api_walk. Qed.
Hint Resolve ListSessionsMeta_walks ListSettings_walks ListActive_walks GetActiveDevice_walks : despatch.

Lemma tryTrusted_refines r u s : refines (tryAuthenticateTrustedDevice r u s).
Proof. unfold tryAuthenticateTrustedDevice. api_walk. Qed.
Hint Resolve tryTrusted_refines : despatch.
Lemma settle_stage_refines s st : refines (settle_stage s st).
Proof. unfold settle_stage. api_walk. Qed.
Hint Resolve settle_stage_refines : despatch.
Lemma resolveLoginStage_refines r t u : refines (resolveLoginStage r t u).
Proof. unfold resolveLoginStage. cbv zeta. api_walk. Qed.
Hint Resolve resolveLoginStage_refines : despatch.

(** Reads of the service. *)
Lemma resolveFeatureFlagState_walks step k D def : spec step k D (resolveFeatureFlagState def) any.
Proof. unfold resolveFeatureFlagState, DefaultValue. api_walk. Qed.
Hint Resolve resolveFeatureFlagState_walks : despatch.
Lemma FeatureFlagEnabled_walks step k D id : spec step k D (FeatureFlagEnabled id) any.
Proof. unfold FeatureFlagEnabled. api_walk. Qed.
Hint Resolve FeatureFlagEnabled_walks : despatch.
Lemma AdminMFARequired_walks step k D : spec step k D AdminMFARequired any.
Proof. unfold AdminMFARequired. api_walk. Qed.
Lemma PasskeySignInEnabled_walks step k D : spec step k D PasskeySignInEnabled any.
Proof. unfold PasskeySignInEnabled. api_walk. Qed.
Lemma GetMFAStatus_walks step k D u : spec step k D (GetMFAStatus u) any.
Proof. unfold GetMFAStatus. api_walk. Qed.
Lemma InstanceMode_walks step k D : spec step k D InstanceMode any.
Proof. unfold InstanceMode. api_walk. Qed.
Hint Resolve AdminMFARequired_walks PasskeySignInEnabled_walks GetMFAStatus_walks InstanceMode_walks : despatch.
Lemma ResolveMFAStage_walks step k D u s : spec step k D (ResolveMFAStage u s) any.
Proof. unfold ResolveMFAStage. api_walk. Qed.
Lemma webAuthnRPID_walks step k D r : spec step k D (webAuthnRPID r) any.
Proof. unfold webAuthnRPID, mode_or_local. api_walk. Qed.
Hint Resolve ResolveMFAStage_walks webAuthnRPID_walks : despatch.
Lemma context_walks step k D r : spec step k D (resolveWebAuthnContext r) any.
Proof. unfold resolveWebAuthnContext, requestOrigin. api_walk. Qed.
Hint Resolve context_walks : despatch.
Lemma authCapabilities_walks step k D r : spec step k D (authCapabilities r) any.
Proof. unfold authCapabilities, mode_or_local. api_walk. Qed.
Lemma SetupStatus_walks step k D : spec step k D SetupStatus any.
Proof.
  unfold SetupStatus, baseDomain, passkey_or_config, StoredDefaultFormatLocale, StoredDefaultTimezone, stored_or_blank.
  api_walk.
Qed.
Hint Resolve authCapabilities_walks SetupStatus_walks : despatch.

(** Combinators that pass the continuation on. *)
Lemma ensureSetup_walks step k D m : spec step k anydb m any -> spec step k D (ensureSetupComplete m) any.
Proof. intros Hm. unfold ensureSetupComplete. api_walk. Qed.
Lemma after_stage_walks step k D o f :
  (forall s st, spec step k anydb (f s st) any) -> spec step k D (after_stage o f) any.
Proof.
  intros Hf. unfold after_stage. destruct o as [cs [[s st]|e]]; cbn; (apply spec_seq; [|intros ?]);
    [apply Hf| | |]; by apply spec_ret.
Qed.
Lemma pending_walks step k D c f :
  (forall u s, spec step k anydb (f u s) any) -> spec step k D (requirePendingMFAVerification c f) any.
Proof. intros Hf. unfold requirePendingMFAVerification. api_walk; try apply Hf. Qed.
Lemma context_passes step k D r f :
  (forall x, spec step k anydb (f x) any) -> spec step k D (requireWebAuthnContext r f) any.
Proof.
  intros Hf. unfold requireWebAuthnContext. apply spec_seq; [auto with despatch|]. intros x. cbv zeta.
  destruct (String.eqb _ ""); [apply Hf|by apply spec_ret].
Qed.
Lemma challenge_walks step k D u m o f :
  (forall s, spec step k anydb (f s) any) -> spec step k D (standing_challenge u m o f) any.
Proof. intros Hf. unfold standing_challenge. api_walk; try apply Hf. Qed.
Lemma remembering_refines k D r u b f m :
  spec (db_step k) k anydb m any -> spec (db_step k) k D (remembering r u b f m) any.
Proof. intros Hm. unfold remembering. destruct b; api_walk; by eapply spec_any. Qed.
End Refine.

#[export] Hint Resolve callMailSec_walks randomToken_walks mailSecRuntimeEnabled_walks spec_draw load_state_walks
  ListSessionsMeta_walks ListSettings_walks ListActive_walks GetActiveDevice_walks ResolveMFAStage_walks
  webAuthnRPID_walks context_walks authCapabilities_walks SetupStatus_walks GetMFAStatus_walks
  InstanceMode_walks AdminMFARequired_walks PasskeySignInEnabled_walks : despatch.

(** The combinators above, and the calls of the [despatch] database. *)
Ltac handler_walk :=
  intros; repeat first
    [ match goal with
      | |- spec _ _ _ (or_reply _ _ _) any => apply spec_or_reply; [|intros ?]
      | |- spec _ _ _ (ensureSetupComplete _) any => apply ensureSetup_walks
      | |- spec _ _ _ (after_stage _ _) any => apply after_stage_walks; intros ? ?
      | |- spec _ _ _ (requirePendingMFAVerification _ _) any => apply pending_walks; intros ? ?
      | |- spec _ _ _ (requireWebAuthnContext _ _) any => apply context_passes; intros ?
      | |- spec _ _ _ (standing_challenge _ _ _ _) any => apply challenge_walks; intros ?
      end
    | match goal with |- spec _ _ _ (let (_, _) := ?x in _) any => destruct x end
    | spec_step ].

Ltac open_state :=
  unfold loadMFARecoveryEmailChallenge, storeMFARecoveryEmailChallenge, deleteMFARecoveryEmailChallenge,
    loadMFADeviceApprovalRequest, storeMFADeviceApprovalRequest, deleteMFADeviceApprovalRequest, load_challenge in *.

Section Handlers.
Context {host : Host} {dep : Deployment} {acfg : APIConfig} {outside : Outside}.
Hint Resolve issueTrustedDevice_refines rotateTrustedDevice_refines store_state_refines tryTrusted_refines
  settle_stage_refines resolveLoginStage_refines : despatch.
Hint Extern 2 (spec _ _ _ (findMFAWebAuthnCredentialAnyUserByAnyID _) any) =>
  apply first_credential_walks; intros ?; apply spec_query_any : despatch.
Hint Extern 2 (spec _ _ _ (findMFAWebAuthnCredentialByAnyID _ _) any) =>
  apply first_credential_walks; intros ?; apply spec_query_any : despatch.

Lemma generateNumericCode_walks step k D n : spec step k D (generateNumericCode n) any.
Proof. unfold generateNumericCode. handler_walk. apply (spec_draw _ _ _ (fun i => rand_Int i _)). Qed.
Lemma generateRecoveryCodes_walks step k D n : spec step k D (generateRecoveryCodes n) any.
Proof.
  unfold generateRecoveryCodes. generalize (Z.to_nat (if n <=? 0 then 10 else n)). intros m. revert D.
  induction m as [|m IH]; intros D; cbn; handler_walk.
Qed.
Lemma totp_key_walks step k D i a : spec step k D (totp_key i a) any.
Proof. apply (spec_draw _ _ _ (fun n => totp_Generate n i a)). Qed.
Lemma verifyTOTPCode_walks step k D u s c : spec step k D (verifyTOTPCode u s c) any.
Proof. unfold verifyTOTPCode. handler_walk. Qed.
Lemma current_device_walks step k D r u : spec step k D (current_device r u) any.
Proof. unfold current_device. handler_walk. Qed.
Lemma listPending_walks step k D u s now : spec step k D (listPendingMFADeviceApprovalRequests u s now) any.
Proof. unfold listPendingMFADeviceApprovalRequests. handler_walk. Qed.
Lemma countEligible_walks step k D u s now : spec step k D (countEligibleMFAApprovalSessions u s now) any.
Proof. unfold countEligibleMFAApprovalSessions. handler_walk. Qed.
Hint Resolve generateNumericCode_walks generateRecoveryCodes_walks totp_key_walks verifyTOTPCode_walks current_device_walks
  listPending_walks countEligible_walks : despatch.

Lemma replace_codes_refines k D u f g :
  (forall l, spec (db_step k) k anydb (g l) any) -> spec (db_step k) k D (replace_recovery_codes u f g) any.
Proof. intros Hg. unfold replace_recovery_codes. handler_walk. Qed.
Lemma verify_setup_refines k D u s m f g :
  spec (db_step k) k anydb g any -> spec (db_step k) k D (verify_setup u s m f g) any.
Proof. intros Hg. unfold verify_setup. handler_walk. Qed.
Lemma complete_setup_refines c s t f : refines (complete_setup c s t f).
Proof. unfold complete_setup. handler_walk. Qed.
Lemma allowReset_refines a b c d : refines (allowResetRateKey a b c d).
Proof. unfold allowResetRateKey. handler_walk. Qed.
Hint Resolve complete_setup_refines allowReset_refines : despatch.

Ltac machine_walk :=
  handler_walk;
  repeat first
    [ match goal with
      | |- spec _ _ _ (remembering _ _ _ _ _) any => apply remembering_refines
      | |- spec _ _ _ (replace_recovery_codes _ _ _) any => apply replace_codes_refines; intros ?
      | |- spec _ _ _ (verify_setup _ _ _ _ _) any => apply verify_setup_refines
      end; handler_walk ].

Lemma login_failed_refines r i e : refines (login_failed r i e).
Proof. unfold login_failed. handler_walk. Qed.
Lemma V2Login_refines r : refines (V2Login r).
Proof. unfold V2Login. machine_walk. Qed.
Hint Resolve login_failed_refines : despatch.
Lemma HandleLogin_refines r : refines (HandleLogin r).
Proof. unfold HandleLogin. machine_walk. Qed.
Lemma HandleLogout_refines r : refines (HandleLogout r).
Proof. unfold HandleLogout. machine_walk. Qed.
Lemma passkeyLoginBegin_refines r : refines (passkeyLoginBegin r).
Proof. unfold passkeyLoginBegin, storePasskeyLoginChallenge, setPasskeyLoginChallengeCookie, dated_cookie. machine_walk. Qed.
Lemma take_attempt_refines k D r i n f :
  (forall s, spec (db_step k) k anydb (f s) any) -> spec (db_step k) k D (take_attempt r i n f) any.
Proof.
  intros Hf. unfold take_attempt, deletePasskeyLoginChallenge, loadPasskeyLoginChallenge, storePasskeyLoginChallenge.
  machine_walk.
Qed.
Lemma passkey_owner_refines k D s a f :
  (forall c u, spec (db_step k) k anydb (f c u) any) -> spec (db_step k) k D (passkey_owner s a f) any.
Proof. intros Hf. unfold passkey_owner. machine_walk. Qed.
Lemma open_session_refines r i c u : refines (open_passkey_session r i c u).
Proof. unfold open_passkey_session, deletePasskeyLoginChallenge. machine_walk. Qed.
Hint Resolve open_session_refines : despatch.
Lemma passkeyLoginFinish_refines r : refines (passkeyLoginFinish r).
Proof.
  unfold passkeyLoginFinish. machine_walk. apply take_attempt_refines. intros state. machine_walk.
  apply passkey_owner_refines. intros cred u. machine_walk.
Qed.

Lemma check_emailed_code_refines r u s code b st : refines (check_emailed_code r u s code b st).
Proof. unfold check_emailed_code. open_state. machine_walk. Qed.
Lemma report_approval_refines r u s i st : refines (report_approval r u s i st).
Proof. unfold report_approval. open_state. machine_walk. Qed.
Lemma store_passkey_refines u s b c : refines (store_passkey u s b c).
Proof. unfold store_passkey. machine_walk. Qed.
Hint Resolve HandleLogin_refines V2Login_refines HandleLogout_refines passkeyLoginBegin_refines
  passkeyLoginFinish_refines check_emailed_code_refines report_approval_refines store_passkey_refines : despatch.

Lemma answer_refines e r c : refines (answer e r c).
Proof.
  intros k D. destruct e; cbn [answer]; auto with despatch.
  all: unfold PasswordResetRequest, PasswordResetConfirm, Me, MeUpdateRecoveryEmail, sessionMailSecretUnlock,
    V2MFATOTPVerify, V2MFAWebAuthnBegin, V2MFAWebAuthnFinish, V2MFARecoveryCodeVerify, V2MFARecoveryEmailSend,
    V2MFARecoveryEmailVerify, V2MFADeviceApprovalRequest, V2MFADeviceApprovalCancel, V2MFADeviceApprovalStatus,
    V2ListPendingMFADeviceApprovals, V2DecidePendingMFADeviceApproval, V2GetMFAStatus, V2MFAEnrollTOTP,
    V2MFAConfirmTOTP, V2MFAWebAuthnRegisterBegin, V2MFAWebAuthnRegisterFinish, V2MFARecoveryCodesAck,
    V2MFALegacyDismiss, V2MFAUpdatePreference, V2MFAWebAuthnDelete, V2MFAWebAuthnList, V2MFAWebAuthnRename,
    V2ListTrustedDevices, V2RevokeTrustedDevice, V2RevokeAllTrustedDevices, V2ListSessions, V2RevokeSession;
    open_state; machine_walk.
Qed.

Lemma answer_all_steps l k w : (k <= w_fresh w)%nat -> rtc (db_step k) (w_db w) (w_db (answer_all l w)).
Proof.
  revert w. induction l as [|[[e r] c] l IH]; intros w Hk; [apply rtc_refl|]. cbn.
  destruct (answer_refines e r c k anydb w Hk I) as (Hk' & Hs & _). etrans; [exact Hs|]. by apply IH.
Qed.
End Handlers.
#[export] Hint Resolve generateNumericCode_walks generateRecoveryCodes_walks totp_key_walks verifyTOTPCode_walks
  current_device_walks listPending_walks countEligible_walks : despatch.

(** ** Only a second factor verifies a session *)

Definition verified_in (d : Database) (id : string) : Prop :=
  exists s, In s (sessions d) /\ s_ID s = id /\ s_MFAVerifiedAt s <> None.
(** The only session that may become verified is [id], and only if [P]. *)
Definition verifies (id : string) (P : Prop) (d d' : Database) : Prop :=
  forall i, verified_in d' i -> verified_in d i \/ (i = id /\ P).
#[export] Instance verifies_preorder id P : PreOrder (verifies id P).
Proof. split; [by intros d i Hi; left|]. intros a b c Hab Hbc i Hi. destruct (Hbc i Hi) as [H|H]; auto. Qed.

Lemma verified_update p f d i :
  (forall s, s_ID (f s) = s_ID s) -> (forall s, s_MFAVerifiedAt (f s) <> None -> s_MFAVerifiedAt s <> None) ->
  verified_in (d <| sessions := update_rows p f (sessions d) |>) i -> verified_in d i.
Proof.
  intros Hid Hv (s & Hs & Hi & Hm). simpl in Hs. apply in_update_rows in Hs as (s0 & Hs0 & ->). exists s0.
  destruct (p s0); [rewrite Hid in Hi; auto|done].
Qed.

(** Relations that hold between databases with the same sessions. *)
Definition session_blind (R : Database -> Database -> Prop) : Prop :=
  forall d d', sessions d' = sessions d -> R d d'.
Lemma verifies_blind id P : session_blind (verifies id P).
Proof. intros d d' Hs i (s & Hin & H). left. exists s. by rewrite Hs in Hin. Qed.
#[export] Hint Resolve verifies_blind : despatch.

(** A statement on another table. *)
Ltac other_table :=
  first [apply spec_exec_any | apply spec_statement];
  repeat match goal with
         | |- forall _, _ => intros ?
         | H : Ok _ = Ok _ |- _ => injection H as ?; subst
         | H : (match ?x with Ok _ => _ | Fail _ => _ end) = Ok _ |- _ => destruct x eqn:?; [|discriminate H]
         | H : (if ?x then _ else _) = Ok _ |- _ => destruct x eqn:?; [|discriminate H]
         | |- _ /\ any _ _ => split; [|done]
         end;
  apply rtc_once;
  match goal with HR : session_blind ?R |- ?R _ _ => by apply HR end.
Ltac blind_walk := spec_walk; other_table.

Section Blind.
Context {host : Host} {dep : Deployment}.
Local Abbreviation quiet m := (forall R D, session_blind R -> spec R 0 D m any).

Lemma quiet_UpsertSetting key v : quiet (UpsertSetting key v).
Proof. unfold UpsertSetting. blind_walk. Qed.
Lemma quiet_DeleteSetting key : quiet (DeleteSetting key).
Proof. unfold DeleteSetting. blind_walk. Qed.
Lemma quiet_DeletePrefix p t : quiet (DeleteSettingsByPrefixOlderThan p t).
Proof. unfold DeleteSettingsByPrefixOlderThan. blind_walk. Qed.
Lemma quiet_audit a b c m : quiet (InsertAudit a b c m).
Proof. unfold InsertAudit. blind_walk. Qed.
Lemma quiet_Touch u i n : quiet (TouchMFAWebAuthnCredential u i n).
Proof. unfold TouchMFAWebAuthnCredential, update_credentials_found. blind_walk. Qed.
Lemma quiet_DeleteCred u i : quiet (DeleteMFAWebAuthnCredential u i).
Proof. unfold DeleteMFAWebAuthnCredential, update_credentials_found. blind_walk. Qed.
Lemma quiet_Rename u i n : quiet (RenameMFAWebAuthnCredential u i n).
Proof. unfold RenameMFAWebAuthnCredential, update_credentials_found. blind_walk. Qed.
Lemma quiet_Upsert c : quiet (UpsertMFAWebAuthnCredential c).
Proof. unfold UpsertMFAWebAuthnCredential, GetMFAWebAuthnCredentialByCredentialID. blind_walk. Qed.
Lemma quiet_TOTP r : quiet (UpsertMFATOTP r).
Proof. unfold UpsertMFATOTP. blind_walk. Qed.
Lemma quiet_Create x : quiet (CreateMFATrustedDevice x).
Proof. unfold CreateMFATrustedDevice, GetMFATrustedDeviceByID. blind_walk. Qed.
Lemma quiet_RevokeDevice u i : quiet (RevokeMFATrustedDevice u i).
Proof. unfold RevokeMFATrustedDevice, update_devices_found. blind_walk. Qed.
Lemma quiet_RevokeAll u : quiet (RevokeAllMFATrustedDevices u).
Proof. unfold RevokeAllMFATrustedDevices. blind_walk. Qed.
Lemma quiet_update_user u f : quiet (update_user u f).
Proof. unfold update_user. blind_walk. Qed.
Lemma quiet_update_user_found u f : quiet (update_user_found u f).
Proof. unfold update_user_found. blind_walk. Qed.
Lemma quiet_Consume u h : quiet (ConsumeRecoveryCodeHash u h).
Proof. unfold ConsumeRecoveryCodeHash. blind_walk. Qed.
Lemma quiet_codes u now hs : quiet (insert_codes u now hs).
Proof. induction hs as [|h hs IH]; cbn; blind_walk. Qed.
Lemma quiet_Replace u hs : quiet (ReplaceMFARecoveryCodes u hs).
Proof. unfold ReplaceMFARecoveryCodes. pose proof quiet_codes. blind_walk. Qed.
Hint Resolve quiet_UpsertSetting quiet_DeleteSetting quiet_DeletePrefix quiet_audit quiet_Touch quiet_DeleteCred quiet_Rename quiet_Upsert quiet_TOTP quiet_Create quiet_RevokeDevice quiet_RevokeAll quiet_update_user quiet_update_user_found quiet_Consume quiet_Replace : despatch.
Lemma quiet_accounts : (forall a, quiet (CreateMailAccount a)) /\ (forall a, quiet (UpdateMailAccount a)).
Proof.
  split; intros a; [unfold CreateMailAccount, GetMailAccountByID|unfold UpdateMailAccount, GetMailAccountByID];
    blind_walk.
Qed.
Lemma quiet_Ensure u : quiet (EnsureAuthenticatedMailAccount u).
Proof.
  destruct quiet_accounts. unfold EnsureAuthenticatedMailAccount, ListMailAccounts. spec_walk.
Qed.
Lemma quiet_credentials u pw : quiet (check_credentials u pw).
Proof.
  unfold check_credentials, verifyMailCredentials, UpdateUserMailLogin. spec_walk; apply try_logins_read.
Qed.
Lemma quiet_Recovery u e : quiet (UpdateRecoveryEmail u e).
Proof. unfold UpdateRecoveryEmail, UpdateUserRecoveryEmail. spec_walk. Qed.
Lemma quiet_Send u c : quiet (SendRecoveryEmailMFACode u c).
Proof. unfold SendRecoveryEmailMFACode. spec_walk. Qed.
End Blind.
#[export] Hint Resolve quiet_UpsertSetting quiet_DeleteSetting quiet_DeletePrefix quiet_audit quiet_Touch quiet_DeleteCred
  quiet_Rename quiet_Upsert quiet_TOTP quiet_Create quiet_RevokeDevice quiet_RevokeAll
  quiet_update_user quiet_update_user_found quiet_Consume quiet_Replace quiet_Recovery quiet_Send
  quiet_Ensure quiet_credentials : despatch.

Section BlindHandlers.
Context {host : Host} {dep : Deployment} {acfg : APIConfig} {outside : Outside}.
Context (R : Database -> Database -> Prop) (HR : session_blind R).
Local Abbreviation quiet m := (forall D, spec R 0 D m any).

Lemma quiet_issue r v : quiet (issueTrustedDevice r v).
Proof. unfold issueTrustedDevice, setTrustedDeviceCookie, dated_cookie. handler_walk. Qed.
Lemma quiet_store key e : quiet (store_state key e).
Proof. unfold store_state. handler_walk. Qed.
Hint Resolve quiet_issue : despatch.
Lemma remembering_quiet D r v b f m : spec R 0 anydb m any -> spec R 0 D (remembering r v b f m) any.
Proof. intros Hm. unfold remembering. destruct b; handler_walk; by eapply spec_any. Qed.
Lemma complete_setup_quiet c s t f : quiet (complete_setup c s t f).
Proof. unfold complete_setup, SetLegacyMFAPromptPending. handler_walk. Qed.
End BlindHandlers.
#[export] Hint Resolve quiet_issue quiet_store complete_setup_quiet : despatch.

Section Verifying.
Context {host : Host} {dep : Deployment} {acfg : APIConfig} {outside : Outside}.
Context (id : string) (P : Prop).
Local Abbreviation quiet m := (forall D, spec (verifies id P) 0 D m any).

Lemma quiet_sessions p f : (forall s, s_ID (f s) = s_ID s) ->
  (forall s, s_MFAVerifiedAt (f s) <> None -> s_MFAVerifiedAt s <> None) -> quiet (update_sessions p f).
Proof. intros Hid Hv D. unfold update_sessions. apply spec_exec_any. intros d. apply rtc_once. intros i Hi. left.
  by eapply verified_update. Qed.
Lemma quiet_found p f : (forall s, s_ID (f s) = s_ID s) ->
  (forall s, s_MFAVerifiedAt (f s) <> None -> s_MFAVerifiedAt s <> None) -> quiet (update_sessions_found p f).
Proof.
  intros Hid Hv D. unfold update_sessions_found. spec_walk. apply spec_statement. intros d n d' _ [= _ <-].
  split; [|done]. apply rtc_once. intros i Hi. left. by eapply verified_update.
Qed.
Lemma quiet_Revoke u s reason : quiet (RevokeSessionWithReason u s reason).
Proof.
  pose proof (verifies_blind id P) as HR. unfold RevokeSessionWithReason. spec_walk; [by apply quiet_found|other_table].
Qed.
Lemma quiet_secret i x : quiet (UpdateSessionMailSecret i x).
Proof. intros D. unfold UpdateSessionMailSecret. by apply quiet_found. Qed.
Hint Resolve quiet_secret : despatch.
Lemma quiet_Unlock u s pw : quiet (UnlockSessionMailSecret u s pw).
Proof.
  unfold UnlockSessionMailSecret, EncryptString, UpsertUserMailSecret, insertAuditBestEffort. spec_walk.
Qed.
End Verifying.
#[export] Hint Resolve quiet_Revoke quiet_secret quiet_Unlock : despatch.

(** What a call of the security service answered. *)
Definition mailsec_said `{Deployment} `{Outside} (op account : string) (payload result : list (string * Json)) : Prop :=
  exists n resp, mailsec_answer n op (firstNonEmpty [account; "default"]) payload = Ok resp /\ ms_OK resp = true
                 /\ result = default [] (ms_Result resp).
(** A one-time code is right for a secret: the library finds it valid at some
    reading of the clock, or the security service says so. *)
Definition code_accepted `{Host} `{Deployment} `{Outside} (userID secret code : string) : Prop :=
  TrimSpace code <> "" /\
  if MailSecEnabled cfg then
    exists payload result, In ("secret", JText secret) payload /\ In ("code", JText (TrimSpace code)) payload
      /\ mailsec_said "totp.verify" userID payload result /\ getBoolValue result "valid" = Some true
  else exists n, totp_Validate (env_now n) (TrimSpace code) secret = true.
(** A state that the settings hold. *)
Definition stored {A} (decode : string -> Res A) (key : string) (d : Database) (state : A) : Prop :=
  exists raw, sv_Value <$> select1 (has_key key) (settings d) = Some raw /\ decode raw = Ok state.
Definition enrolled (u : User) (d : Database) : Prop :=
  (exists rec, In rec (mfa_totp d) /\ to_UserID rec = u_ID u /\ to_Enabled rec = true)
  \/ exists cred, In cred (webauthn d) /\ wc_UserID cred = u_ID u.

(** What a request to an endpoint proves about the user of a session, given the
    database it finds.  The last two are the ends of a setup. *)
Inductive evidence `{Host} `{Deployment} `{Outside} (r : APIRequest) (u : User) (sess : Session) (d : Database) :
    Endpoint -> Prop :=
| one_time_code rec secret code remember :
    decode_code r = Ok (code, remember) -> In rec (mfa_totp d) -> to_UserID rec = u_ID u -> to_Enabled rec = true ->
    DecryptString (to_SecretEnc rec) = Ok secret -> code_accepted (u_ID u) secret code ->
    evidence r u sess d E_TOTPVerify
| security_key req state cred rpID origins result n :
    decode_map r jsonLimitAuthControl = Ok req ->
    stored decode_webauthn_challenge (webAuthnLoginChallengeSettingKey (s_ID sess)) d state ->
    challenge_stands u "login" (env_now n) state = true -> In cred (webauthn d) -> wc_UserID cred = u_ID u ->
    In (wc_CredentialID cred) (webAuthnCredentialIDCandidates (as_CredentialID (assertion_of req))) ->
    mailsec_said "webauthn.assertion.finish" (u_ID u)
      (assertion_payload (wn_Challenge state) rpID origins (assertion_of req) cred false) result ->
    evidence r u sess d E_WebAuthnFinish
| recovery_code code remember c :
    decode_code r = Ok (code, remember) -> In c (recovery_codes d) ->
    spendable (u_ID u) (sha256_hex (TrimSpace code)) c = true -> evidence r u sess d E_RecoveryCode
| emailed_code code remember state n :
    decode_code r = Ok (code, remember) ->
    stored decode_email_challenge (mfaRecoveryEmailChallengeSettingKey (s_ID sess)) d state ->
    ec_UserID state = u_ID u -> ec_SessionID state = s_ID sess -> env_now n <= ec_ExpiresAt state ->
    ec_CodeHash state = trustedDeviceTokenHash (TrimSpace code) -> evidence r u sess d E_EmailVerify
| other_device state :
    stored decode_approval (mfaDeviceApprovalRequestSettingKey (u_ID u) (TrimSpace (query_value r "request_id"))) d state ->
    ap_SessionID state = s_ID sess -> TrimSpace (ap_Status state) = "approved" -> evidence r u sess d E_ApprovalStatus
| code_of_setup rec secret code :
    In rec (mfa_totp d) -> to_UserID rec = u_ID u -> DecryptString (to_SecretEnc rec) = Ok secret ->
    code_accepted (u_ID u) secret code -> evidence r u sess d E_Confirm
| acknowledged : enrolled u d -> evidence r u sess d E_CodesAck.

(** The endpoints of signed-in users. *)
Definition of_session (e : Endpoint) : bool :=
  match e with
  | E_Login | E_V2Login | E_Logout | E_PasskeyBegin | E_PasskeyFinish | E_ResetRequest | E_ResetConfirm => false
  | _ => true
  end.

Section Evidence.
Context {host : Host} {dep : Deployment} {acfg : APIConfig} {outside : Outside}.
Implicit Types (D : Database -> Prop).

(** The database a handler finds may be named. *)
Lemma spec_here {A} step k D (m : DBM A) Q :
  (forall d, D d -> spec step k (eq d) m Q) -> spec step k D m Q.
Proof. intros H w Hk HD. exact (H _ HD w Hk eq_refl). Qed.
Lemma spec_or_reply_keep {A} step k D (m : DBM A) f (g : A -> DBM HTTPReply) (Q : A -> Database -> Prop) :
  spec step k D m Q -> (forall a, spec step k (Q a) (g a) any) -> spec step k D (or_reply m f g) any.
Proof.
  intros Hm Hg. unfold or_reply. eapply spec_bind; [by apply spec_attempt|]. intros [a|e]; [apply Hg|by apply spec_ret].
Qed.
Lemma spec_clock step k D : spec step k D time_Now (fun t d => D d /\ exists n, t = env_now n).
Proof. intros w Hk HD. refine (conj Hk (conj (rtc_refl _ _) (conj HD _))). by eexists. Qed.

Lemma mailsec_spec step k D op acc payload :
  spec step k D (callMailSecOperation op acc payload) (fun result d => D d /\ mailsec_said op acc payload result).
Proof.
  unfold callMailSecOperation. eapply spec_bind; [apply (keeps step k D _ mailSecRuntimeEnabled_walks)|].
  intros [|]; [|apply spec_throw]. cbn [negb].
  eapply spec_bind with (Q := fun resp d => D d /\ exists n,
    mailsec_answer n op (firstNonEmpty [acc; "default"]) payload = Ok resp).
  - unfold mailsec_Call. eapply spec_bind; [apply spec_uuid|]. intros id w Hk [HD _]. simpl.
    split_and!; [lia|done|]. destruct (mailsec_answer _ _ _ _) eqn:E; eauto.
  - intros resp. destruct (ms_OK resp) eqn:E; [|apply spec_throw]. apply spec_ret.
    intros d [HD [n Hn]]. split; [done|]. by exists n, resp.
Qed.

Lemma verifyTOTPCode_spec step k D u secret code :
  spec step k D (verifyTOTPCode u secret code) (fun b d => D d /\ (b = true -> code_accepted u secret code)).
Proof.
  unfold verifyTOTPCode, code_accepted. cbv zeta. destruct (String.eqb (TrimSpace code) "") eqn:E.
  { apply spec_ret. by intros d HD. }
  apply String.eqb_neq in E. destruct (MailSecEnabled cfg); cbn [negb].
  - eapply spec_bind; [apply mailsec_spec|]. intros result. destruct (getBoolValue result "valid") eqn:Ev; [|apply spec_throw].
    apply spec_ret. intros d [HD Hs]. split; [done|]. intros ->. split; [done|]. do 2 eexists.
    split_and!; [| |exact Hs|exact Ev]; simpl; tauto.
  - eapply spec_bind; [apply spec_clock|]. intros now. apply spec_ret. intros d [HD [n ->]]. eauto.
Qed.

Lemma spec_decoded {A} (step : Database -> Database -> Prop) k d (r : Res A) : spec step k (eq d) (of_res r) (fun a d' => d = d' /\ r = Ok a).
Proof. apply spec_of_res. by intros a d' -> <-. Qed.
Lemma load_state_spec {A} step k d (decode : string -> Res A) key :
  spec step k (eq d) (load_state decode key)
    (fun o d' => d = d' /\ match o with Some st => stored decode key d st | None => True end).
Proof.
  unfold load_state, GetSetting. eapply spec_bind; [apply spec_query|]. intros [raw|]; [|apply spec_ret; by intros ? [-> _]].
  destruct (String.eqb _ ""); [apply spec_ret; by intros ? [-> _]|].
  eapply spec_bind; [apply spec_of_res; intros st d' Hst Hd; exact (conj Hst Hd)|]. intros st. apply spec_ret.
  intros d' (Hst & -> & [= Hq]). split; [done|]. by exists raw.
Qed.

(** Looking a credential up under several identifiers. *)
Lemma first_credential_spec step k d get (p : string -> WebAuthnCredential -> bool) ids :
  (forall id, get id = query (fun d => match select1 (p id) (webauthn d) with Some c => Ok c | None => Fail ErrNotFound end)) ->
  spec step k (eq d) (first_credential get ids)
    (fun c d' => d = d' /\ In c (webauthn d) /\ exists id, In id ids /\ p id c = true).
Proof.
  intros Hget. induction ids as [|id ids IH]; cbn; [apply spec_throw|]. intros w Hk HD. subst d.
  unfold bind, attempt. rewrite Hget, query_eq. destruct (faulty w); [by split_and!|].
  destruct (select1 (p id) (webauthn (w_db w))) as [c|] eqn:E; cbn.
  - apply List.find_some in E as [Hin Hp]. cbn. split_and!; [done|done|done|done|]. exists id. auto.
  - destruct (IH (next w) Hk eq_refl) as (? & ? & H). split_and!; [done|done|].
    destruct (fst _); [|done]. destruct H as (? & ? & id' & ? & ?). split_and!; [done|done|]. exists id'. auto.
Qed.

(** A status that shows a factor shows one that is stored. *)
Lemma GetMFAStatus_spec step k d u :
  spec step k (eq d) (GetMFAStatus (u_ID u))
    (fun status d' => d = d' /\ (TOTPEnabled status = true \/ WebAuthnCount status <> 0 -> enrolled u d)).
Proof.
  unfold GetMFAStatus.
  assert (Hread : forall A (z : A) f (P : A -> Prop), (forall a, f d = Ok a -> P a) -> P z ->
    spec step k (eq d) (let! r := attempt (query f) in ret match r with Ok a => a | Fail _ => z end)
      (fun a d' => d = d' /\ P a)).
  { intros A z f P Hok Hz w Hk ->. unfold bind, attempt. rewrite query_eq. destruct (faulty w); [by split_and!|].
    destruct (f (w_db w)) eqn:E; cbn; (split; [done|split; [apply rtc_refl|]]); auto. }
  eapply spec_bind; [apply (Hread _ _ _ (fun x : bool * bool => snd x = true -> enrolled u d)); [|done]|].
  { intros [hs en]. destruct (select1 _ _) as [rec|] eqn:E; [|done]. intros [= _ <-] Hen. left. exists rec.
    apply List.find_some in E as [Hin Ho]. unfold totp_of in Ho. breflect. done. }
  intros [hs en]. apply spec_here. intros ? [<- Hen].
  eapply spec_bind; [apply (Hread _ _ _ (fun n : Z => n <> 0 -> enrolled u d)); [|done]|].
  { intros n [= <-] Hn. right. unfold affected in Hn. destruct (List.filter _ _) as [|c l] eqn:E; [done|].
    assert (Hc : In c (List.filter (cred_of (u_ID u)) (webauthn d))) by (rewrite E; by left).
    apply filter_In in Hc as [Hin Ho]. exists c. unfold cred_of in Ho. breflect. done. }
  intros n. apply spec_here. intros ? [<- Hn].
  do 2 (eapply spec_bind; [apply (Hread _ _ _ (fun _ => True)); done|]; intros ?; apply spec_here; intros ? [<- _]).
  apply spec_ret. intros ? <-. cbn. naive_solver.
Qed.

End Evidence.

(** A call that leaves the database alone, by the lemma that says what it answers. *)
Tactic Notation "reads" uconstr(lem) "as" simple_intropattern(x) :=
  first [eapply spec_or_reply_keep | eapply spec_bind]; [eapply lem | intros x; apply spec_here].

Section Proofs.
Context {host : Host} {dep : Deployment} {acfg : APIConfig} {outside : Outside}.

Section Prove.
Context (u : User) (sess : Session) (P : Prop).
Local Abbreviation R := (verifies (s_ID sess) P).
Local Abbreviation quiet m := (forall D, spec R 0 D m any).

Lemma set_verified D m : P -> spec R 0 D (SetSessionMFAVerified (s_ID sess) m) any.
Proof.
  intros HP. unfold SetSessionMFAVerified. apply spec_seq; [auto with despatch|]. intros now. apply spec_exec_any.
  intros d. apply rtc_once. intros i (s & Hs & Hi & Hm). simpl in Hs. apply in_update_rows in Hs as (s0 & Hs0 & ->).
  unfold sess_has_id in *. destruct (String.eqb (s_ID s0) (s_ID sess)) eqn:E; [|left; by exists s0].
  right. apply String.eqb_eq in E. cbn in Hi. by rewrite <- Hi, E.
Qed.

(** The rest of a handler, once [P] is known. *)
Ltac proven_walk :=
  handler_walk;
  repeat first
    [ match goal with
      | |- spec _ _ _ (remembering _ _ _ _ _) any => apply remembering_quiet; [apply verifies_blind|]
      | |- spec _ _ _ (SetSessionMFAVerified _ _) any => by apply set_verified
      end; handler_walk ].

Lemma totp_verifies d r :
  (evidence r u sess d E_TOTPVerify -> P) -> spec R 0 (eq d) (V2MFATOTPVerify r (mkCaller u (Some sess))) any.
Proof.
  intros HP. unfold V2MFATOTPVerify. cbn [cl_User cl_Session]. cbv zeta.
  reads spec_decoded as [code b]. intros ? [<- Hdec].
  reads spec_query as rec. intros ? [<- Hrec].
  destruct (select1 _ _) eqn:E in Hrec; [|done]. injection Hrec as ->. apply List.find_some in E as [Hin Ho].
  unfold totp_of in Ho. apply String.eqb_eq in Ho.
  destruct (to_Enabled rec) eqn:Hen; cbn [negb]; [|by apply spec_ret].
  reads spec_decoded as secret. intros ? [<- Hsec].
  reads verifyTOTPCode_spec as valid. intros ? [<- Hacc]. destruct valid; cbn [negb]; [|by apply spec_ret].
  assert (HP' : P) by (apply HP; econstructor; eauto). proven_walk.
Qed.

Lemma recovery_verifies d r :
  (evidence r u sess d E_RecoveryCode -> P) -> spec R 0 (eq d) (V2MFARecoveryCodeVerify r (mkCaller u (Some sess))) any.
Proof.
  intros HP. unfold V2MFARecoveryCodeVerify. cbn [cl_User cl_Session]. cbv zeta.
  reads spec_decoded as [code b]. intros ? [<- Hdec].
  destruct (String.eqb _ ""); [by apply spec_ret|].
  eapply (spec_or_reply_keep _ _ _ _ _ _ (fun ok _ => ok = true -> P)).
  { unfold ConsumeRecoveryCodeHash. eapply spec_bind; [apply spec_now|]. intros now.
    eapply (spec_bind _ _ _ _ _ (fun n _ => n <> 0%nat -> P)); [|intros n; apply spec_ret; intros ? Hn Ho; apply Hn; by destruct n].
    apply spec_statement. intros ? n d' <- [= <- <-]. split.
    - apply rtc_once. intros i Hi. by left.
    - intros Hn. destruct (List.filter (spendable (u_ID u) (sha256_hex (TrimSpace code))) (recovery_codes d)) as [|c l] eqn:E.
      { unfold affected in Hn. by rewrite E in Hn. }
      assert (Hc : In c (c :: l)) by by left. rewrite <- E in Hc. apply filter_In in Hc as [Hin Hs].
      apply HP. by econstructor. }
  intros [|]; cbn [negb]; [|by apply spec_ret]. apply spec_here. intros d' HP'. specialize (HP' eq_refl). proven_walk.
Qed.

Lemma passkey_verifies d r :
  (evidence r u sess d E_WebAuthnFinish -> P) -> spec R 0 (eq d) (V2MFAWebAuthnFinish r (mkCaller u (Some sess))) any.
Proof.
  intros HP. unfold V2MFAWebAuthnFinish. cbn [cl_User cl_Session]. cbv zeta.
  reads (keeps R 0 (eq d) mailSecRuntimeEnabled mailSecRuntimeEnabled_walks) as enabled. intros ? <-.
  destruct enabled; cbn [negb]; [|by apply spec_ret].
  unfold requireWebAuthnContext.
  eapply spec_bind; [apply (keeps R 0 (eq d) (resolveWebAuthnContext r)); intros; apply context_walks|]. intros ctx. cbv zeta.
  destruct (String.eqb _ ""); [|by apply spec_ret].
  reads spec_decoded as req. intros ? [<- Hdec].
  destruct (String.eqb _ ""); [by apply spec_ret|]. destruct (existsb _ _); [by apply spec_ret|].
  reads load_state_spec as found. intros ? [<- Hst].
  unfold standing_challenge. destruct found as [state|]; [|by apply spec_ret].
  destruct (negb _); [by apply spec_ret|].
  reads spec_clock as now. intros ? [<- [n ->]]. destruct (challenge_stands _ _ _ _) eqn:Hc; [|by apply spec_ret].
  eapply spec_or_reply_keep.
  { apply (first_credential_spec _ _ _ _ (fun id c => cred_of (u_ID u) c && cred_has id c)). done. }
  intros cred. apply spec_here. intros ? (<- & Hin & id & Hid & Hown). apply andb_true_iff in Hown as [Ho Hh].
  unfold cred_of, cred_has in Ho, Hh. apply String.eqb_eq in Ho, Hh. subst id.
  reads mailsec_spec as result. intros ? [<- Hsaid].
  assert (HP' : P) by (apply HP; econstructor; eauto). proven_walk.
Qed.

Lemma email_verifies d r :
  (evidence r u sess d E_EmailVerify -> P) -> spec R 0 (eq d) (V2MFARecoveryEmailVerify r (mkCaller u (Some sess))) any.
Proof.
  intros HP. unfold V2MFARecoveryEmailVerify, requirePendingMFAVerification. cbn [cl_User cl_Session].
  reads (keeps R 0 (eq d) (ResolveMFAStage u (Some sess)) ltac:(intros; apply ResolveMFAStage_walks)) as stage. intros ? <-.
  destruct (st_AuthStage stage); try by apply spec_ret.
  reads spec_decoded as [code b]. intros ? [<- Hdec]. cbv zeta.
  destruct (String.eqb _ ""); [by apply spec_ret|].
  reads load_state_spec as found. intros ? [<- Hst]. destruct found as [state|]; [|by apply spec_ret].
  destruct (negb _ || negb _) eqn:Hown; [by apply spec_ret|].
  apply orb_false_iff in Hown as [Hu Hs]. apply negb_false_iff, String.eqb_eq in Hu, Hs.
  reads spec_clock as now. intros ? [<- [n ->]].
  destruct (_ <? _) eqn:Hexp; [open_state; handler_walk|]. apply Z.ltb_ge in Hexp.
  unfold check_emailed_code. cbv zeta. open_state.
  destruct (_ <? _); [handler_walk|]. destruct (negb _) eqn:Hhash; [handler_walk|].
  apply negb_false_iff, String.eqb_eq in Hhash.
  assert (HP' : P) by (apply HP; econstructor; eauto). proven_walk.
Qed.

Lemma approval_verifies d r :
  (evidence r u sess d E_ApprovalStatus -> P) -> spec R 0 (eq d) (V2MFADeviceApprovalStatus r (mkCaller u (Some sess))) any.
Proof.
  intros HP. unfold V2MFADeviceApprovalStatus. cbn [cl_User cl_Session]. cbv zeta.
  destruct (String.eqb _ ""); [by apply spec_ret|].
  reads load_state_spec as found. intros ? [<- Hst]. destruct found as [state|]; [|handler_walk].
  destruct (negb _) eqn:Hown; [by apply spec_ret|]. apply negb_false_iff, String.eqb_eq in Hown.
  unfold report_approval. open_state.
  reads spec_clock as now. intros ? [<- [n ->]]. cbv zeta.
  destruct (is_pending state && _); cbn [when].
  { apply spec_seq; [handler_walk|]. intros _.
    assert (Hs : String.eqb (TrimSpace (ap_Status (state <| ap_Status := "expired" |> <| ap_DecisionAt := env_now n |>)))
                   "approved" = false) by done.
    rewrite Hs. handler_walk. }
  reads (spec_ret R 0 (eq d) tt (fun _ => eq d) ltac:(done)) as []. intros ? <-.
  destruct (String.eqb _ "approved") eqn:Hap; [|handler_walk]. apply String.eqb_eq in Hap.
  assert (HP' : P) by (apply HP; econstructor; eauto). proven_walk.
Qed.

Lemma verify_setup_spec D m f g : P -> spec R 0 anydb g any -> spec R 0 D (verify_setup u sess m f g) any.
Proof. intros HP Hg. unfold verify_setup, SetUserMFABackupCompleted. proven_walk. Qed.
Lemma confirm_verifies d r :
  (evidence r u sess d E_Confirm -> P) -> spec R 0 (eq d) (V2MFAConfirmTOTP r (mkCaller u (Some sess))) any.
Proof.
  intros HP. unfold V2MFAConfirmTOTP. cbn [cl_User cl_Session]. cbv zeta.
  reads spec_decoded as [[code ack] b]. intros ? [<- Hdec].
  destruct ack; cbn [negb]; [|by apply spec_ret].
  reads spec_query as rec. intros ? [<- Hrec].
  destruct (select1 _ _) eqn:E in Hrec; [|done]. injection Hrec as ->. apply List.find_some in E as [Hin Ho].
  unfold totp_of in Ho. apply String.eqb_eq in Ho.
  reads spec_decoded as secret. intros ? [<- Hsec].
  reads verifyTOTPCode_spec as valid. intros ? [<- Hacc]. destruct valid; cbn [negb]; [|by apply spec_ret].
  assert (HP' : P) by (apply HP; econstructor; eauto). handler_walk.
  apply verify_setup_spec; [done|]. proven_walk.
Qed.

Lemma acknowledged_verifies d r :
  (evidence r u sess d E_CodesAck -> P) -> spec R 0 (eq d) (V2MFARecoveryCodesAck r (mkCaller u (Some sess))) any.
Proof.
  intros HP. unfold V2MFARecoveryCodesAck. cbn [cl_User cl_Session]. cbv zeta.
  reads spec_decoded as [ack b]. intros ? [<- Hdec].
  destruct ack; cbn [negb]; [|by apply spec_ret].
  reads GetMFAStatus_spec as status. intros ? [<- Hst].
  destruct (negb _ && _) eqn:E; [by apply spec_ret|].
  assert (HP' : P).
  { apply HP. constructor. apply Hst. destruct (TOTPEnabled status); [by left|]. right. by apply Z.eqb_neq. }
  apply verify_setup_spec; [done|]. proven_walk.
Qed.

(** The other endpoints of signed-in users verify nothing. *)
Lemma others_quiet e r c :
  of_session e = true ->
  match e with
  | E_TOTPVerify | E_WebAuthnFinish | E_RecoveryCode | E_EmailVerify | E_ApprovalStatus | E_Confirm | E_CodesAck => False
  | _ => True
  end -> spec R 0 anydb (answer e r c) any.
Proof.
  intros He Ho. destruct e; try discriminate He; try destruct Ho; cbn [answer].
  all: unfold PasswordResetRequest, PasswordResetConfirm, Me, MeUpdateRecoveryEmail, sessionMailSecretUnlock,
    V2MFAWebAuthnBegin, V2MFARecoveryEmailSend,
    V2MFADeviceApprovalRequest, V2MFADeviceApprovalCancel,
    V2ListPendingMFADeviceApprovals, V2DecidePendingMFADeviceApproval, V2GetMFAStatus, V2MFAEnrollTOTP,
    V2MFAWebAuthnRegisterBegin, V2MFAWebAuthnRegisterFinish, store_passkey, replace_recovery_codes,
    V2MFALegacyDismiss, V2MFAUpdatePreference, V2MFAWebAuthnDelete, V2MFAWebAuthnList, V2MFAWebAuthnRename,
    V2ListTrustedDevices, V2RevokeTrustedDevice, V2RevokeAllTrustedDevices, V2ListSessions, V2RevokeSession,
    EncryptString, SetUserMFABackupCompleted, SetLegacyMFAPromptPending, UpdateUserMFAPreference, MarkMFASetupSwitchUsed;
    open_state; handler_walk.
Qed.
End Prove.

Lemma answer_verifies e r u sess d :
  of_session e = true ->
  spec (verifies (s_ID sess) (evidence r u sess d e)) 0 (eq d) (answer e r (mkCaller u (Some sess))) any.
Proof.
  intros He. destruct e; try (eapply spec_any, others_quiet; done); cbn [answer].
  - by apply totp_verifies.
  - by apply passkey_verifies.
  - by apply recovery_verifies.
  - by apply email_verifies.
  - by apply approval_verifies.
  - by apply confirm_verifies.
  - by apply acknowledged_verifies.
Qed.

(** C6. Whatever request reaches whatever endpoint of signed-in users, under
    any driver faults and any answers of clock and services, the only session
    that becomes verified is the caller's, and only with the evidence that
    [evidence] names for the endpoint: a one-time code that is right for the
    enabled secret, an assertion of a registered key that the security service
    accepts for the standing challenge of this session, an unspent recovery
    code, the unexpired code mailed for this session, a request of this session
    that was approved; or the end of a setup: a code for the stored secret, or a
    factor that is enrolled. *)
Theorem second_factor_needed e r c w i (He : of_session e = true) :
  verified_in (w_db (snd (answer e r c w))) i ->
  verified_in (w_db w) i
  \/ exists sess, cl_Session c = Some sess /\ i = s_ID sess /\ evidence r (cl_User c) sess (w_db w) e.
Proof.
  intros Hi. destruct c as [u [sess|]].
  - destruct (answer_verifies e r u sess (w_db w) He w (Nat.le_0_l _) eq_refl) as (_ & Hs & _).
    apply rtc_collapse in Hs; [|apply _]. destruct (Hs i Hi) as [H|[-> H]]; [by left|]. right. by exists sess.
  - left. assert (Hq : spec (verifies (s_ID zero_session) False) 0 anydb (answer e r (mkCaller u None)) any).
    { destruct e; try (by apply others_quiet); cbn [answer];
        unfold V2MFARecoveryCodeVerify, V2MFARecoveryEmailVerify, V2MFADeviceApprovalStatus, V2MFAConfirmTOTP,
          V2MFARecoveryCodesAck, requirePendingMFAVerification; cbn [cl_Session]; try by apply spec_ret.
      - unfold V2MFATOTPVerify. cbn [cl_Session]. handler_walk.
      - unfold V2MFAWebAuthnFinish. cbn [cl_Session]. handler_walk. }
    destruct (Hq w (Nat.le_0_l _) I) as (_ & Hs & _). apply rtc_collapse in Hs; [|apply _].
    by destruct (Hs i Hi) as [H|[_ []]].
Qed.
End Proofs.

(** ** Codes that are spent, and acknowledgements *)

Section Codes.
Context {host : Host} {dep : Deployment} {acfg : APIConfig} {outside : Outside}.

Lemma spec_or_reply_post {A} step k D (m : DBM A) f (g : A -> DBM HTTPReply) Q S :
  spec step k D m Q -> (forall a, spec step k (Q a) (g a) S) -> (forall e d, S (f e) d) ->
  spec step k D (or_reply m f g) S.
Proof.
  intros Hm Hg He. unfold or_reply. eapply spec_bind; [by apply spec_attempt|]. intros [a|e]; [apply Hg|].
  apply spec_ret. intros d _. apply He.
Qed.

(** Spending codes of one hash leaves none of them unspent. *)
Lemma spent_after u h now d c :
  well_formed d -> In c (recovery_codes d) -> spendable u h c = true ->
  spent_code (rc_ID c) (d <| recovery_codes := update_rows (spendable u h) (fun c => c <| rc_UsedAt := Some now |>)
                                                 (recovery_codes d) |>).
Proof.
  intros Hw Hin Hs x Hx Hid. simpl in Hx. apply in_update_rows in Hx as (x0 & Hx0 & ->).
  destruct (spendable u h x0) eqn:E; [done|]. exfalso.
  simpl in Hid.
  assert (x0 = c) as ->; [|congruence].
  apply (unique_eq code_clash _ _ _ (wf_codes _ Hw) Hx0 Hin); apply String.eqb_eq; congruence.
Qed.

Lemma Consume_spends k d u h :
  well_formed d ->
  spec (db_step k) k (eq d) (ConsumeRecoveryCodeHash u h) (fun ok d' => ok = true ->
    exists x, In x (recovery_codes d) /\ spendable u h x = true /\ well_formed d' /\ spent_code (rc_ID x) d').
Proof.
  intros Hw. unfold ConsumeRecoveryCodeHash. eapply spec_bind; [apply spec_now|]. intros now.
  eapply (spec_bind _ _ _ _ _ (fun n d' => n <> 0%nat -> exists x, In x (recovery_codes d) /\ spendable u h x = true
    /\ well_formed d' /\ spent_code (rc_ID x) d')); [|intros n; apply spec_ret; intros ? Hn Ho; apply Hn; by destruct n].
  apply spec_statement. intros ? n d' <- [= <- <-].
  assert (Hs : db_step k d (d <| recovery_codes := update_rows (spendable u h)
            (fun c => c <| rc_UsedAt := Some now |>) (recovery_codes d) |>)).
  { apply on_codes, update_step; [|keys_kept]. intros c. unfold spendable. intros Hc. breflect. by split_and!. }
  split; [by apply rtc_once|]. intros Hn.
  destruct (List.filter (spendable u h) (recovery_codes d)) as [|c l] eqn:E.
  { unfold affected in Hn. by rewrite E in Hn. }
  assert (Hc : In c (c :: l)) by by left. rewrite <- E in Hc. apply filter_In in Hc as [Hin Hsp].
  exists c. split_and!; [done|done|by eapply db_step_well_formed|by apply spent_after].
Qed.

Lemma verify_spends k d r c :
  well_formed d -> (forall x, In x (recovery_codes d) -> ~ fresh_id k (rc_ID x)) ->
  spec (db_step k) k (eq d) (V2MFARecoveryCodeVerify r c) (fun reply d' => rp_Status reply = 200 ->
    exists x code remember, decode_code r = Ok (code, remember) /\ In x (recovery_codes d)
      /\ spendable (u_ID (cl_User c)) (sha256_hex (TrimSpace code)) x = true /\ well_formed d' /\ spent_code (rc_ID x) d').
Proof.
  intros Hw Hf. unfold V2MFARecoveryCodeVerify. cbv zeta. destruct (cl_Session c) as [sess|]; [|by apply spec_ret].
  eapply spec_or_reply_post; [apply spec_decoded| |].
  2: { intros e ?. unfold writeJSONDecodeError. by case_bool_decide. }
  intros [code b]. apply spec_here. intros ? [<- Hdec]. destruct (String.eqb _ ""); [by apply spec_ret|].
  eapply spec_or_reply_post; [by apply Consume_spends| |done].
  intros [|]; cbn [negb]; [|by apply spec_ret]. apply spec_here. intros d' H.
  destruct (H eq_refl) as (x & Hin & Hsp & Hw' & Hs).
  eapply spec_weaken; [apply (spec_invariant k (spent_code (rc_ID x)))| |].
  - intros a a' Hstep _. apply (spent_code_step k); [by apply Hf|done].
  - handler_walk; first [apply SetSessionMFAVerified_refines|apply remembering_refines; handler_walk].
  - by intros ? <-.
  - intros reply a [Ha Hx] _. exists x, code, b. by split_and!.
Qed.

(** C9. A recovery code verifies one session: when the handler answers 200, a
    stored code of the user had the hash of the code in the request and was
    unspent, and it is spent after any sequence of requests to the handlers,
    under any faults, that draws no identifier again. *)
Theorem recovery_code_works_once r c l w reply w' :
  well_formed (w_db w) -> V2MFARecoveryCodeVerify r c w = (Ok reply, w') -> rp_Status reply = 200 ->
  (forall x, In x (recovery_codes (w_db w)) -> ~ fresh_id (w_fresh w) (rc_ID x)) ->
  exists x code remember, decode_code r = Ok (code, remember) /\ In x (recovery_codes (w_db w))
    /\ spendable (u_ID (cl_User c)) (sha256_hex (TrimSpace code)) x = true
    /\ spent_code (rc_ID x) (w_db (answer_all l w')).
Proof.
  intros Hw Hok Hst Hf.
  destruct (spec_success _ _ _ _ _ _ _ _ (verify_spends (w_fresh w) (w_db w) r c Hw Hf) (le_n _) eq_refl Hok) as [Hk Hq].
  destruct (Hq Hst) as (x & code & b & Hdec & Hin & Hsp & Hw' & Hs). exists x, code, b. split_and!; [done..|].
  apply (rtc_invariant (w_fresh w) (spent_code (rc_ID x)) (w_db w')); [|by apply answer_all_steps|done|done].
  intros d d' Hd _. apply (spent_code_step (w_fresh w)); [by apply Hf|done].
Qed.
End Codes.

(** ** The gap: an acknowledgement counts as a factor *)

Section Gap.
Context {host : Host} {dep : Deployment} {acfg : APIConfig} {outside : Outside}.

Definition same_sessions (d d' : Database) : Prop := sessions d' = sessions d.
#[local] Instance same_sessions_preorder : PreOrder same_sessions.
Proof. split; [by intros d|]. intros a b c Hab Hbc. unfold same_sessions in *. by etrans. Qed.

Lemma same_sessions_blind : session_blind same_sessions.
Proof. by intros d d'. Qed.
Hint Resolve same_sessions_blind : despatch.

Lemma or_reply_ok {A} (m : DBM A) f (g : A -> DBM HTTPReply) w a w1 : m w = (Ok a, w1) -> or_reply m f g w = g a w1.
Proof. intros Hm. unfold or_reply. by rewrite bind_attempt, Hm. Qed.

Lemma enrolled_status u d w rec :
  w_faults w = [] -> w_db w = d -> select1 (totp_of u) (mfa_totp d) = Some rec ->
  exists status, GetMFAStatus u w = (Ok status, w) /\ TOTPEnabled status = to_Enabled rec.
Proof.
  intros Hf <- Hrec.
  assert (Hread : forall A (z : A) f, (let! r := attempt (query f) in ret match r with Ok a => a | Fail _ => z end) w
                    = (Ok match f (w_db w) with Ok a => a | Fail _ => z end, w)).
  { intros A z f. by rewrite bind_attempt, query_run. }
  eexists. unfold GetMFAStatus. cbv beta zeta. erewrite bind_eq by apply Hread. rewrite Hrec. cbv beta iota.
  do 3 (erewrite bind_eq by apply Hread; cbv beta). split; reflexivity.
Qed.

(** What [verify_setup] has written when it goes on. *)
Lemma verify_setup_run u sess m f g w :
  w_faults w = [] -> existsb (has_id (u_ID u)) (users (w_db w)) = true ->
  exists w1, verify_setup u sess m f g w = g w1
    /\ map s_ID (sessions (w_db w1)) = map s_ID (sessions (w_db w))
    /\ forall s, In s (sessions (w_db w1)) -> s_ID s = s_ID sess -> s_MFAVerifiedAt s <> None.
Proof.
  intros Hf Hu. unfold verify_setup.
  assert (Hb : exists w0, SetUserMFABackupCompleted (u_ID u) true w = (Ok tt, w0) /\ w_faults w0 = []
                        /\ sessions (w_db w0) = sessions (w_db w)).
  { unfold SetUserMFABackupCompleted, update_user_found. eexists. erewrite bind_eq by (rewrite statement_run by done; reflexivity).
    cbv beta. assert (Hn : Nat.eqb (affected (has_id (u_ID u)) (users (w_db w))) 0 = false).
    { apply Nat.eqb_neq. intros H0. apply existsb_exists in Hu as (x & Hx & Hp). rewrite affected_0 in H0.
      specialize (H0 x Hx). congruence. }
    rewrite Hn. by split. }
  destruct Hb as (w0 & Hb & Hf0 & Hs0). erewrite or_reply_ok by exact Hb.
  eexists. split; [refine (or_reply_ok _ _ (fun _ => g) _ tt _ _); unfold SetSessionMFAVerified; erewrite bind_eq by reflexivity; unfold update_sessions;
                   rewrite exec_run by done; reflexivity|].
  split; [simpl; by rewrite map_update_rows, Hs0|].
  intros s Hs Hid. simpl in Hs. apply in_update_rows in Hs as (s0 & _ & ->). unfold sess_has_id in *.
  destruct (String.eqb (s_ID s0) (s_ID sess)) eqn:E; [done|]. apply String.eqb_neq in E. congruence.
Qed.

Lemma verified_never_required status pref u : st_AuthStage (decide_stage status pref u true) <> AuthStageMFARequired.
Proof.
  unfold decide_stage. destruct (if String.eqb pref "totp" then _ else _) as [[a b] c].
  destruct (if negb a && _ && _ then _ else _) as [[a' b'] c']. cbn. destruct a'; cbn; [done|].
  by rewrite andb_false_r.
Qed.

(** V2MFARecoveryCodesAck asks for no factor: for every user with an enabled
    one-time code, a request that only says that the recovery codes were saved
    leaves the caller's stored session there and marked as verified, also when it
    was at the stage that asks for that code; from then on its stage is not
    resolved as mfa_required again, whatever the database answers later.  The
    route is registered among those that need a session but no second factor. *)
Theorem acknowledgement_needs_no_factor r c sess remember w rec :
  cl_Session c = Some sess -> w_faults w = [] ->
  decodeJSON r jsonLimitAuthControl false (false, false) (fun l =>
    ack ← decode_flag "recovery_codes_ack" l; remember ← decode_flag "remember_device" l; Some (ack, remember))
    = Ok (true, remember) ->
  select1 (totp_of (u_ID (cl_User c))) (mfa_totp (w_db w)) = Some rec -> to_Enabled rec = true ->
  existsb (has_id (u_ID (cl_User c))) (users (w_db w)) = true ->
  In (s_ID sess) (map s_ID (sessions (w_db w))) ->
  let after := sessions (w_db (snd (V2MFARecoveryCodesAck r c w))) in
  In (s_ID sess) (map s_ID after)
  /\ forall s, In s after -> s_ID s = s_ID sess ->
       s_MFAVerifiedAt s <> None
       /\ forall u w2 stage, fst (ResolveMFAStage u (Some s) w2) = Ok stage ->
            st_AuthStage stage <> AuthStageMFARequired.
Proof.
  intros Hsess Hf Hdec Hrec Hen Hu Hthere after. unfold after. clear after.
  assert (Hack : exists w1, sessions (w_db (snd (V2MFARecoveryCodesAck r c w))) = sessions (w_db w1)
            /\ map s_ID (sessions (w_db w1)) = map s_ID (sessions (w_db w))
            /\ forall s, In s (sessions (w_db w1)) -> s_ID s = s_ID sess -> s_MFAVerifiedAt s <> None).
  { unfold V2MFARecoveryCodesAck. cbv zeta. rewrite Hsess, Hdec.
    erewrite or_reply_ok by reflexivity. cbn [negb].
    destruct (enrolled_status _ _ w rec Hf eq_refl Hrec) as (status & Hst & Hte).
    erewrite or_reply_ok by exact Hst. rewrite Hte, Hen. cbn [negb andb].
    match goal with |- context [verify_setup ?u ?ss ?m ?f ?g w] =>
      destruct (verify_setup_run u ss m f g w Hf Hu) as (w1 & Hrun & Hids & Hall); rewrite Hrun;
      assert (Hg : spec same_sessions 0 anydb g any) end.
    { apply spec_seq; [handler_walk|]. intros raw. cbv zeta. apply remembering_quiet; auto with despatch. }
    destruct (Hg w1 (Nat.le_0_l _) I) as (_ & Hsame & _). apply rtc_collapse in Hsame; [|apply _].
    by exists w1. }
  destruct Hack as (w1 & -> & -> & Hall). split; [exact Hthere|]. intros s Hs Hid.
  pose proof (Hall s Hs Hid) as Hv.
  split; [done|]. intros u w2 stage Hstage. unfold ResolveMFAStage in Hstage.
  destruct (s_MFAVerifiedAt s); [|done]. unfold bind in Hstage.
  destruct (GetMFAStatus (u_ID u) w2) as [[status|] w3]; [|done].
  destruct ((if EqualFold _ _ then AdminMFARequired else ret false) w3) as [[b|] w4]; [|done]. cbn in Hstage. injection Hstage as <-. apply verified_never_required.
Qed.
End Gap.

(** ** A passkey opens a session for its owner only *)

(** What an attempt at the end of a passkey sign-in shows about a user: the
    cookie names a stored challenge in time and with attempts left, and the
    security service accepts, for that challenge and with user verification, an
    assertion of a credential registered to the user, who may hold a session. *)
Inductive passkey_evidence `{Deployment} `{Host} `{Outside} (r : APIRequest) (d : Database) (userID : string) : Prop :=
| passkey_shown challengeID nonce state req cred row rpID origins result n :
    readPasskeyLoginChallengeCookie r = Some (challengeID, nonce) ->
    stored decode_passkey_state (passkeyLoginChallengeSettingKey challengeID) d state ->
    env_now n <= pk_ExpiresAt state -> pk_CookieTokenHash state = trustedDeviceTokenHash nonce ->
    pk_AttemptCount state < (if pk_MaxAttempts state <=? 0 then 5 else pk_MaxAttempts state) ->
    decode_map r jsonLimitAuthControl = Ok req -> In cred (webauthn d) -> wc_UserID cred = userID ->
    In (wc_CredentialID cred) (webAuthnCredentialIDCandidates (as_CredentialID (assertion_of req))) ->
    mailsec_said "webauthn.assertion.finish" userID
      (assertion_payload (pk_Challenge state) rpID origins (assertion_of req) cred true) result ->
    In row (users d) -> ur_id row = userID -> (ur_status row = UserActive \/ ur_role row = "admin") ->
    passkey_evidence r d userID.

(** Every session is an old one of the same user, or its user has [P]. *)
Definition opens (P : string -> Prop) (d d' : Database) : Prop :=
  forall s, In s (sessions d') ->
    (exists s0, In s0 (sessions d) /\ s_ID s0 = s_ID s /\ s_UserID s0 = s_UserID s) \/ P (s_UserID s).
#[export] Instance opens_preorder P : PreOrder (opens P).
Proof.
  split; [intros d s Hs; left; by exists s|]. intros a b c Hab Hbc s Hs.
  destruct (Hbc s Hs) as [(s1 & H1 & <- & <-)|H]; [|by right]. auto.
Qed.
Lemma opens_blind P : session_blind (opens P).
Proof. intros d d' Hs s Hin. left. exists s. by rewrite <- Hs. Qed.
#[export] Hint Resolve opens_blind : despatch.

Section Passkey.
Context {host : Host} {dep : Deployment} {acfg : APIConfig} {outside : Outside}.
Context (P : string -> Prop).
Local Abbreviation R := (opens P).
Local Abbreviation quiet m := (forall D, spec R 0 D m any).

Lemma opens_update p f : (forall s, s_ID (f s) = s_ID s /\ s_UserID (f s) = s_UserID s) -> quiet (update_sessions p f).
Proof.
  intros Hf D. unfold update_sessions. apply spec_exec_any. intros d. apply rtc_once. intros s Hs. left.
  simpl in Hs. apply in_update_rows in Hs as (s0 & Hin & ->). exists s0. destruct (p s0); [|done].
  destruct (Hf s0). by split_and!.
Qed.
Lemma opens_set i m : quiet (SetSessionMFAVerified i m).
Proof. unfold SetSessionMFAVerified. spec_walk. by apply opens_update. Qed.
Lemma opens_clear i : quiet (ClearSessionMFAVerified i).
Proof. unfold ClearSessionMFAVerified. spec_walk. by apply opens_update. Qed.
Lemma quiet_Rotate u i h ua ip e : quiet (RotateMFATrustedDeviceToken u i h ua ip e).
Proof.
  pose proof (opens_blind P). unfold RotateMFATrustedDeviceToken, update_devices_found, GetMFATrustedDeviceByID.
  spec_walk; other_table.
Qed.
Hint Resolve opens_set opens_clear quiet_Rotate : despatch.
Lemma opens_trusted r u s : quiet (tryAuthenticateTrustedDevice r u s).
Proof.
  unfold tryAuthenticateTrustedDevice, rotateTrustedDevice, setTrustedDeviceCookie, dated_cookie. handler_walk.
Qed.
Hint Resolve opens_trusted : despatch.
Lemma opens_stage r t u : quiet (resolveLoginStage r t u).
Proof. unfold resolveLoginStage, settle_stage. cbv zeta. handler_walk. Qed.
Hint Resolve opens_stage : despatch.

Lemma opens_create D s : P (s_UserID s) -> spec R 0 D (CreateSession s) any.
Proof.
  intros HP. unfold CreateSession. cbv zeta. apply spec_statement. intros d [] d' _ E. unfold insert_row in E.
  destruct (existsb _ _); [done|]. injection E as <-. split; [|done]. apply rtc_once. intros x Hx. simpl in Hx.
  apply in_app_iff in Hx as [Hx|[<-|[]]]; [left; by exists x|by right].
Qed.
Lemma opens_session r i cred u D : (may_hold_session u = true -> P (u_ID u)) -> spec R 0 D (open_passkey_session r i cred u) any.
Proof.
  intros HP. unfold open_passkey_session, CreatePasskeySession, deletePasskeyLoginChallenge, NewOpaqueToken,
    TouchUserLastLogin, GetUserMailSecret.
  apply spec_seq; [handler_walk|]. intros stored. cbv zeta. apply spec_or_reply.
  - destruct (may_hold_session u); cbn [negb]; [|apply spec_throw]. specialize (HP eq_refl).
    handler_walk; by apply opens_create.
  - intros [tok s]. handler_walk.
Qed.
End Passkey.

Section PasskeyLogin.
Context {host : Host} {dep : Deployment} {acfg : APIConfig} {outside : Outside}.

(** Challenges are written to the settings alone. *)
Definition same_owners (d d' : Database) : Prop := webauthn d' = webauthn d /\ users d' = users d.
Lemma store_state_owners R d key e :
  session_blind R -> spec R 0 (eq d) (store_state key e) (fun _ => same_owners d).
Proof.
  intros HR. unfold store_state, UpsertSetting. eapply spec_bind; [apply spec_decoded|]. intros b.
  apply spec_here. intros ? [<- _]. eapply spec_bind; [apply spec_now|]. intros now. apply spec_exec.
  intros ? <-. split; [apply rtc_once; by apply HR|done].
Qed.

Lemma passkeyLoginFinish_opens r d :
  spec (opens (passkey_evidence r d)) 0 (eq d) (passkeyLoginFinish r) any.
Proof.
  unfold passkeyLoginFinish, ensureSetupComplete.
  reads (keeps _ 0 (eq d) SetupStatus ltac:(intros; apply SetupStatus_walks)) as status. intros ? <-.
  destruct (ss_Required status); [by apply spec_ret|].
  reads (keeps _ 0 (eq d) (authCapabilities r) ltac:(intros; apply authCapabilities_walks)) as [available reason]. intros ? <-.
  destruct available; cbn [negb]; [|by apply spec_ret]. unfold requireWebAuthnContext.
  reads (keeps _ 0 (eq d) (resolveWebAuthnContext r) ltac:(intros; apply context_walks)) as ctx. intros ? <-. cbv zeta.
  destruct (String.eqb _ ""); [|by apply spec_ret].
  destruct (readPasskeyLoginChallengeCookie r) as [[challengeID nonce]|] eqn:Hcookie; [|by apply spec_ret].
  unfold take_attempt, deletePasskeyLoginChallenge, storePasskeyLoginChallenge, loadPasskeyLoginChallenge.
  reads load_state_spec as found. intros ? [<- Hst]. cbv zeta. destruct found as [state|]; [|handler_walk].
  reads spec_clock as now. intros ? [<- [n ->]].
  destruct (_ <? _) eqn:Hexp; [handler_walk|]. apply Z.ltb_ge in Hexp.
  destruct (negb _) eqn:Hnonce; [handler_walk|]. apply negb_false_iff, String.eqb_eq in Hnonce.
  destruct (_ <? _) eqn:Hleft; [handler_walk|]. apply Z.ltb_ge in Hleft. cbn in Hleft.
  reads (store_state_owners _ d _ _ (opens_blind _)) as []. intros d1 [Hwa Hus].
  reads spec_decoded as req. intros ? [<- Hreq].
  destruct (_ || _); [by apply spec_ret|]. destruct (existsb _ _); [by apply spec_ret|].
  unfold passkey_owner.
  eapply spec_or_reply_keep; [apply (first_credential_spec _ _ _ _ (fun id c => cred_has id c)); done|].
  intros cred. apply spec_here. intros ? (<- & Hin & id & Hid & Hhas). cbv beta in Hhas. unfold cred_has in Hhas. apply String.eqb_eq in Hhas. subst id.
  destruct (_ && _); [by apply spec_ret|].
  destruct (match pk_AllowCredentials _ with [] => false | _ => _ end); [by apply spec_ret|].
  reads spec_query as user. intros ? [<- Huser].
  destruct (select1 _ _) as [row|] eqn:Erow in Huser; [|done]. injection Huser as <-.
  apply List.find_some in Erow as [Hrow Hrid]. unfold has_id in Hrid. apply String.eqb_eq in Hrid.
  rewrite Hwa in Hin. rewrite Hus in Hrow.
  reads mailsec_spec as result. intros ? [<- Hsaid].
  destruct (getInt64Value _ _) as [count|]; [|by apply spec_ret]. destruct (count <? 0); [by apply spec_ret|].
  apply spec_or_reply; [auto with despatch|]. intros []. apply opens_session. intros Hmay. cbn [u_ID scanUserCore].
  change (u_ID (scanUserCore row)) with (ur_id row) in *.
  refine (passkey_shown r d _ challengeID nonce state req cred row _ _ result n Hcookie Hst Hexp Hnonce _ Hreq Hin _ Hid _ Hrow eq_refl _).
  - cbn. lia.
  - congruence.
  - exact Hsaid.
  - unfold may_hold_session in Hmay. apply orb_true_iff in Hmay as [H|H]; [left; by apply bool_decide_eq_true in H|].
    right. by apply String.eqb_eq in H.
Qed.

(** C7. Whatever is sent to passkeyLoginFinish, under any faults and whatever
    the clock, the random source and the services answer, every session that is
    stored afterwards was stored before, for the same user, or belongs to a user
    for whom the request has shown a passkey ([passkey_evidence]). *)
Theorem passkey_opens_own_session r w s :
  In s (sessions (w_db (snd (passkeyLoginFinish r w)))) ->
  (exists s0, In s0 (sessions (w_db w)) /\ s_ID s0 = s_ID s /\ s_UserID s0 = s_UserID s)
  \/ passkey_evidence r (w_db w) (s_UserID s).
Proof.
  intros Hs. destruct (passkeyLoginFinish_opens r (w_db w) w (Nat.le_0_l _) eq_refl) as (_ & Hsteps & _).
  apply rtc_collapse in Hsteps; [|apply _]. exact (Hsteps s Hs).
Qed.
End PasskeyLogin.

(** ** Codes sent by mail run out *)

Definition clean_challenge (s : mfaRecoveryEmailChallengeState) : mfaRecoveryEmailChallengeState :=
  mkEmailChallenge (clean (ec_SessionID s)) (clean (ec_UserID s)) (clean (ec_DeliveryEmail s)) (clean (ec_CodeHash s))
    (ec_SentAt s) (ec_ExpiresAt s) (ec_AttemptCount s) (ec_MaxAttempts s).

Lemma small_int_back n : 0 <= n <= 6 -> int64_text (of_bytes (json_value (JInt n))) = Some n /\ readable (JInt n) = true.
Proof.
  intros Hn. assert (H : n = 0 \/ n = 1 \/ n = 2 \/ n = 3 \/ n = 4 \/ n = 5 \/ n = 6) by lia.
  repeat (destruct H as [H|H]; [by subst|]). by subst.
Qed.

(** A challenge is read back as it was written, its texts cleaned. *)
Lemma email_challenge_back s raw :
  email_challenge_json s = Ok raw -> 0 <= ec_AttemptCount s <= 6 -> 0 <= ec_MaxAttempts s <= 6 ->
  decode_email_challenge raw = Ok (clean_challenge s).
Proof.
  unfold email_challenge_json, marshal_struct. destruct (forallb _ _) eqn:Hw; [|done]. intros [= <-] Hc Hm.
  simpl in Hw. rewrite andb_true_r in Hw. apply andb_true_iff in Hw as [Hs He]. apply year_writable_iff in Hs, He.
  pose proof (parse_rfc3339nano _ Hs) as Hps. pose proof (rfc3339nano_clean _ Hs) as Hcs.
  pose proof (parse_rfc3339nano _ He) as Hpe. pose proof (rfc3339nano_clean _ He) as Hce.
  destruct (small_int_back _ Hc) as [Hc1 Hc2]. destruct (small_int_back _ Hm) as [Hm1 Hm2].
  destruct s as [sid u email hash sent expires count limit].
  cbn [ec_SessionID ec_UserID ec_DeliveryEmail ec_CodeHash ec_SentAt ec_ExpiresAt ec_AttemptCount ec_MaxAttempts] in *.
  unfold decode_email_challenge, decode_struct, text_field, time_field, int_field. cbn [app].
  set (date1 := rfc3339nano sent) in *. set (date2 := rfc3339nano expires) in *. clearbody date1 date2.
  rewrite json_struct_unmarshal by (cbn [forallb snd]; by rewrite Hc2, Hm2).
  cbn [map forallb]; unfold read_back; cbn [fst snd]; rewrite ?Hcs, ?Hce.
  change (clean "session_id") with "session_id". change (clean "user_id") with "user_id".
  change (clean "delivery_email") with "delivery_email". change (clean "code_hash") with "code_hash".
  change (clean "sent_at") with "sent_at". change (clean "expires_at") with "expires_at".
  change (clean "attempt_count") with "attempt_count". change (clean "max_attempts") with "max_attempts".
  fields.
  set (c1 := of_bytes (json_value (JInt count))) in *. set (c2 := of_bytes (json_value (JInt limit))) in *.
  clearbody c1 c2. unfold decode_text. fields. done.
Qed.

(** At most [n] more wrong codes are answered as wrong: what is stored for the
    session, if anything, is a challenge whose six attempts leave no more. *)
Definition wrong_codes_left (sessionID : string) (n : nat) (d : Database) : Prop :=
  forall raw, sv_Value <$> select1 (has_key (mfaRecoveryEmailChallengeSettingKey sessionID)) (settings d) = Some raw ->
  exists s, decode_email_challenge raw = Ok s /\ 0 <= ec_AttemptCount s < ec_MaxAttempts s /\ ec_MaxAttempts s = 6
            /\ 5 - ec_AttemptCount s <= Z.of_nat n.
(** No step of a handler adds to them. *)
Definition no_more_codes (sessionID : string) (d d' : Database) : Prop :=
  forall n, wrong_codes_left sessionID n d -> wrong_codes_left sessionID n d'.
#[export] Instance no_more_codes_preorder i : PreOrder (no_more_codes i).
Proof. split; [by intros d n H|]. intros a b c Hab Hbc n H. by apply Hbc, Hab. Qed.

Definition wrong_code : HTTPReply := WriteError 401 "invalid_recovery_email_code" "invalid recovery email code".

Section Emailed.
Context {host : Host} {dep : Deployment} {acfg : APIConfig} {outside : Outside}.
Context (sid : string).
Local Abbreviation R := (no_more_codes sid).
Local Abbreviation key := (mfaRecoveryEmailChallengeSettingKey sid).

(** Statements that leave the settings alone. *)
Ltac settings_kept :=
  first [apply spec_exec_any | apply spec_statement];
  repeat match goal with
         | |- forall _, _ => intros ?
         | H : Ok _ = Ok _ |- _ => injection H as ?; subst
         | H : (match ?x with Ok _ => _ | Fail _ => _ end) = Ok _ |- _ => destruct x eqn:?; [|discriminate H]
         | |- _ /\ any _ _ => split; [|done]
         end;
  apply rtc_once; intros ? Hleft; exact Hleft.

Lemma codes_issue D r v : spec R 0 D (issueTrustedDevice r v) any.
Proof.
  unfold issueTrustedDevice, setTrustedDeviceCookie, dated_cookie, CreateMFATrustedDevice, GetMFATrustedDeviceByID.
  handler_walk. settings_kept.
Qed.
Lemma codes_audit D a b c m : spec R 0 D (InsertAudit a b c m) any.
Proof. unfold InsertAudit. handler_walk. settings_kept. Qed.
Lemma codes_verified D i m : spec R 0 D (SetSessionMFAVerified i m) any.
Proof. unfold SetSessionMFAVerified, update_sessions. handler_walk. settings_kept. Qed.
Lemma codes_delete D : spec R 0 D (DeleteSetting key) any.
Proof.
  unfold DeleteSetting. apply spec_exec_any. intros d. apply rtc_once. intros n _ raw Hraw. exfalso. simpl in Hraw.
  destruct (select1 _ _) as [x|] eqn:E; [|done]. apply List.find_some in E as [Hin Hk].
  apply in_delete_rows in Hin as [_ Hn]. congruence.
Qed.
Hint Resolve codes_issue codes_audit codes_verified codes_delete : despatch.

(** What is left once a challenge has been stored. *)
Lemma stored_left st n raw now d :
  email_challenge_json st = Ok raw -> 0 <= ec_AttemptCount st < ec_MaxAttempts st -> ec_MaxAttempts st = 6 ->
  5 - ec_AttemptCount st <= Z.of_nat n ->
  wrong_codes_left sid n (d <| settings := upsert_setting (mkSetting key raw now) (settings d) |>).
Proof.
  intros Hj Hc Hm Hn raw' Hraw'. simpl in Hraw'. rewrite setting_upsert, String.eqb_refl in Hraw'. injection Hraw' as <-.
  exists (clean_challenge st). split; [apply email_challenge_back; [done|lia|lia]|done].
Qed.
Lemma codes_store step st n D :
  0 <= ec_AttemptCount st < ec_MaxAttempts st -> ec_MaxAttempts st = 6 -> 5 - ec_AttemptCount st <= Z.of_nat n ->
  (forall d d', D d -> wrong_codes_left sid n d' -> step d d') ->
  spec step 0 D (storeMFARecoveryEmailChallenge sid st) (fun _ => wrong_codes_left sid n).
Proof.
  intros Hc Hm Hn HD. unfold storeMFARecoveryEmailChallenge, store_state, UpsertSetting.
  eapply (spec_bind _ _ _ _ _ (fun raw d => D d /\ email_challenge_json st = Ok raw)).
  { apply spec_of_res. auto. }
  intros raw. eapply (spec_bind _ _ _ _ _ (fun _ d => D d /\ email_challenge_json st = Ok raw)); [apply spec_now|].
  intros now. apply spec_exec. intros d [Hd Hraw].
  pose proof (stored_left st n raw now d Hraw Hc Hm Hn) as Hleft. split; [|done]. apply rtc_once. by apply HD.
Qed.

Lemma left_mono n m d : (n <= m)%nat -> wrong_codes_left sid n d -> wrong_codes_left sid m d.
Proof. intros Hle H raw Hraw. destruct (H raw Hraw) as (s & ? & ? & ? & ?). exists s. split_and!; (done || lia). Qed.

Definition message_of (reply : HTTPReply) : string :=
  match rp_Body reply with [_; (_, JText m)] => m | _ => "" end.
Definition answered_wrong (res : Res HTTPReply) : bool :=
  match res with Ok reply => String.eqb (message_of reply) "invalid recovery email code" | Fail _ => false end.

Definition harmless (reply : HTTPReply) (d : Database) : Prop := answered_wrong (Ok reply) = false.
Lemma harmless_ret D reply : answered_wrong (Ok reply) = false -> spec R 0 D (ret reply) harmless.
Proof. intros Hr. by apply spec_ret. Qed.
Lemma harmless_seq {A} D (m : DBM A) reply :
  answered_wrong (Ok reply) = false -> spec R 0 anydb m any -> spec R 0 D (bind m (fun _ => ret reply)) harmless.
Proof. intros Hr Hm. apply spec_seq; [done|]. intros _. by apply spec_ret. Qed.
Lemma remembering_harmless D r v b f m :
  (forall e, answered_wrong (Ok (f e)) = false) -> (forall D, spec R 0 D m harmless) ->
  spec R 0 D (remembering r v b f m) harmless.
Proof.
  intros Hf Hm. unfold remembering. destruct b; [|apply Hm].
  eapply spec_or_reply_post; [apply codes_issue| |intros e d; apply Hf]. intros cookie.
  eapply spec_bind; [apply Hm|]. intros reply. by apply spec_ret.
Qed.

(** A wrong code uses one up. *)
Definition counts (n : nat) (reply : HTTPReply) (d : Database) : Prop :=
  answered_wrong (Ok reply) = true -> (1 <= n)%nat /\ wrong_codes_left sid (n - 1) d.
Lemma harmless_counts n D m : spec R 0 D m harmless -> spec R 0 D m (counts n).
Proof. intros Hm. eapply spec_weaken; [exact Hm|done|]. intros reply d Hh Hw. unfold harmless in Hh. congruence. Qed.

Lemma check_counts n r u sess code b st d raw :
  s_ID sess = sid -> wrong_codes_left sid n d ->
  sv_Value <$> select1 (has_key key) (settings d) = Some raw -> decode_email_challenge raw = Ok st ->
  spec R 0 (eq d) (check_emailed_code r u sess code b st) (counts n).
Proof.
  intros Hsid Hleft Hraw Hst. destruct (Hleft raw Hraw) as (s & Hs & Hc & Hm & Hn).
  rewrite Hst in Hs. injection Hs as <-. unfold check_emailed_code, deleteMFARecoveryEmailChallenge. cbv zeta.
  rewrite Hsid.
  destruct (_ <? _); [apply harmless_counts, harmless_seq; [done|apply spec_ignore, codes_delete]|].
  destruct (negb _).
  - destruct (_ <=? _) eqn:Hlast; [apply harmless_counts, harmless_seq; [done|apply spec_ignore, codes_delete]|].
    apply Z.leb_gt in Hlast. cbn in Hlast.
    set (left := Z.to_nat (4 - ec_AttemptCount st)).
    eapply spec_or_reply_post; [eapply (codes_store _ _ left)| |done]; cbn; try lia.
    + intros d1 d2 <- Hleft2 m Hm'. apply (left_mono left); [|done].
      destruct (Hm' raw Hraw) as (s' & Hs' & _ & _ & Hn'). rewrite Hst in Hs'. injection Hs' as <-. lia.
    + intros []. apply spec_ret. intros d1 Hd1 _. split; [lia|]. by apply (left_mono left); [lia|].
  - apply harmless_counts. eapply spec_or_reply_post; [apply codes_verified| |done]. intros [].
    apply remembering_harmless; [done|]. intros D. do 2 (apply spec_seq; [apply spec_ignore; auto with despatch|]; intros _).
    by apply harmless_ret.
Qed.

Lemma verify_counts n d r c :
  s_ID (session_of c) = sid -> wrong_codes_left sid n d ->
  spec R 0 (eq d) (V2MFARecoveryEmailVerify r c) (counts n).
Proof.
  intros Hsid Hleft. unfold V2MFARecoveryEmailVerify, requirePendingMFAVerification.
  destruct c as [u [sess|]]; cbn [cl_Session cl_User]; [|by apply harmless_counts, harmless_ret]. change (s_ID sess = sid) in Hsid.
  eapply spec_or_reply_post; [apply (keeps _ 0 (eq d) (ResolveMFAStage u (Some sess))); intros; apply ResolveMFAStage_walks| |done].
  intros stage. destruct (st_AuthStage stage); try by apply harmless_counts, harmless_ret.
  eapply spec_or_reply_post; [apply spec_decoded| |].
  2: { intros e ? . unfold writeJSONDecodeError. by case_bool_decide. }
  intros [code b]. apply spec_here. intros ? [<- _]. cbv zeta.
  destruct (String.eqb _ ""); [by apply harmless_counts, harmless_ret|].
  eapply spec_or_reply_post; [apply load_state_spec| |done]. intros found. apply spec_here. intros ? [<- Hst].
  destruct found as [state|]; [|by apply harmless_counts, harmless_ret]. destruct Hst as (raw & Hraw & Hst). rewrite Hsid in Hraw.
  destruct (negb _ || negb _); [by apply harmless_counts, harmless_ret|].
  eapply spec_bind; [apply spec_now|]. intros now. destruct (Hleft raw Hraw) as (s & Hs & _ & Hm & _).
  rewrite Hst in Hs. injection Hs as <-.
  destruct (_ <? now); [unfold deleteMFARecoveryEmailChallenge; rewrite Hsid; apply harmless_counts, harmless_seq; [done|apply spec_ignore, codes_delete]|].
  assert (Heta : state <| ec_MaxAttempts := if ec_MaxAttempts state <=? 0 then mfaRecoveryEmailCodeMaxAttempts
                                           else ec_MaxAttempts state |> = state).
  { rewrite Hm. destruct state. cbn in *. by subst. }
  rewrite Heta. by eapply check_counts.
Qed.

(** The wrong codes among requests to verify one, made one after another. *)
Fixpoint wrong_answers (l : list (APIRequest * Caller)) (w : World Database) : nat :=
  match l with
  | [] => 0
  | (r, c) :: l' =>
      let (res, w1) := V2MFARecoveryEmailVerify r c w in
      (if answered_wrong res then 1 else 0) + wrong_answers l' w1
  end.

Lemma wrong_answers_bounded l n w :
  (forall r c, In (r, c) l -> s_ID (session_of c) = sid) -> wrong_codes_left sid n (w_db w) -> (wrong_answers l w <= n)%nat.
Proof.
  revert n w. induction l as [|[r c] l IH]; intros n w Hl Hleft; cbn; [lia|].
  destruct (verify_counts n (w_db w) r c (Hl r c (or_introl eq_refl)) Hleft w (Nat.le_0_l _) eq_refl) as (_ & Hs & Hq).
  apply rtc_collapse in Hs; [|apply _]. destruct (V2MFARecoveryEmailVerify r c w) as [res w1]. cbn in *.
  assert (IHl : forall m, wrong_codes_left sid m (w_db w1) -> (wrong_answers l w1 <= m)%nat).
  { intros m. apply IH. intros r' c' Hin. apply (Hl r' c'). by right. }
  destruct (answered_wrong res) eqn:E; [|by apply IHl, Hs].
  destruct res as [reply|e]; [|done]. destruct (Hq E) as [Hn Hl1]. specialize (IHl _ Hl1). lia.
Qed.
End Emailed.

Section Sent.
Context {host : Host} {dep : Deployment} {acfg : APIConfig} {outside : Outside}.
Local Abbreviation anywhere := (fun _ _ : Database => True).

Lemma left_kept {A} i n (m : DBM A) :
  spec (no_more_codes i) 0 anydb m any -> spec anywhere 0 (wrong_codes_left i n) m (fun _ => wrong_codes_left i n).
Proof.
  intros Hm w Hk Hleft. destruct (Hm w Hk I) as (Hk' & Hs & _). split; [exact Hk'|]. split; [by apply rtc_once|].
  apply rtc_collapse in Hs; [|apply _]. destruct (fst _); [|done]. by apply Hs.
Qed.

Lemma send_leaves r c :
  spec anywhere 0 anydb (V2MFARecoveryEmailSend r c) (fun reply d =>
    rp_Status reply = 200 -> wrong_codes_left (s_ID (session_of c)) 5 d).
Proof.
  unfold V2MFARecoveryEmailSend, requirePendingMFAVerification.
  destruct c as [u [sess|]]; cbn [cl_Session cl_User]; [|by apply spec_ret]. change (session_of _) with sess.
  eapply spec_or_reply_post; [apply ResolveMFAStage_walks| |done].
  intros stage. destruct (st_AuthStage stage); try by apply spec_ret.
  eapply spec_bind; [apply spec_now|]. intros now.
  eapply spec_or_reply_post; [apply load_state_walks| |done]. intros found.
  destruct (match found with Some _ => _ | None => _ end); [by apply spec_ret|].
  eapply spec_or_reply_post; [apply generateNumericCode_walks| |done]. intros code.
  eapply spec_or_reply_post; [apply quiet_Send; by intros ? ? _| |].
  2: { intros e d. unfold send_refused. by repeat case_match. }
  intros email. cbv zeta. eapply spec_or_reply_post; [by apply (codes_store (s_ID sess) _ _ 5); cbn; try lia| |done].
  intros []. eapply (spec_bind _ _ _ _ _ (fun _ => wrong_codes_left (s_ID sess) 5)); [|intros []; by apply spec_ret].
  apply left_kept, spec_ignore, codes_audit.
Qed.

(** C8. After a code has been sent to the recovery address of a session (the
    handler answered 200), at most five wrong codes are answered as wrong, however
    many requests to verify one follow for that session, from whatever addresses,
    and whatever statements fail: the attempts are stored with the challenge, in
    JSON, and read back.  (When the statement that stores the count fails, the
    answer is an error of the server.) *)
Theorem emailed_code_attempts_bounded r c l w reply w' :
  V2MFARecoveryEmailSend r c w = (Ok reply, w') -> rp_Status reply = 200 ->
  (forall r' c', In (r', c') l -> s_ID (session_of c') = s_ID (session_of c)) ->
  (wrong_answers l w' <= 5)%nat.
Proof.
  intros Hsend Hst Hl. destruct (send_leaves r c w (Nat.le_0_l _) I) as (_ & _ & Hq). rewrite Hsend in Hq.
  apply (wrong_answers_bounded (s_ID (session_of c))); [done|]. by apply Hq.
Qed.
End Sent.

(** ** A server at work *)

#[local] Instance sample_api : APIConfig := {|
  http_cfg := sample_http; MFATrustedCookieName := ""; WebAuthnRPID := "example.org"; WebAuthnAllowedOrigins := [];
  MailSecSocket := "/run/despatch/mailsec.sock"; CookieSecureMode := "auto"; CookieSecure := false; resetKey := "key" |}.

(** The security service accepts assertions signed ["good"]; 123456 is the code
    of the secret ["S"]. *)
#[local] Instance sample_outside : Outside := {|
  mailsec_socket _ := true;
  mailsec_answer _ op _ payload :=
    if String.eqb op "webauthn.assertion.finish" && String.eqb (getStringValue payload ["signature_b64url"]) "good"
    then Ok (mkMailSec true "" "" (Some [("sign_count", JNumber "7")])) else Ok (mkMailSec false "refused" "" None);
  totp_Generate _ _ _ := Ok ("S", "otpauth://totp/S");
  totp_Validate _ code secret := String.eqb code "123456" && String.eqb secret "S";
  qrcode_Encode s := Ok s;
  rand_Int _ _ := Ok 4711;
  url_Parse s := match GoStrings.Split s (ascii_of 58) with
                 | [scheme; rest] => Some (scheme, TrimPrefix rest "//")
                 | _ => None
                 end;
  ip_IsLoopback _ := false
|}.

Definition json_of (s : string) : string := of_bytes (map (fun b => if b =? 39 then 34 else b) (bytes s)).
Definition post (cookies : list (string * string)) (body : string) : APIRequest :=
  mkAPIRequest {| Method := "POST"; XCSRFToken := "token"; XForwardedFor := ""; RemoteAddr := "10.0.0.1:5000";
                  Cookies := [("despatch_session", "alice's token"); ("despatch_csrf", "token")] ++ cookies |}
    "example.org" true "" "" "Mozilla/5.0" (json_of body) "" [].

(** alice has an enabled one-time code, two recovery codes and a passkey. *)
Definition guarded_db : Database := sample_db
  <| mfa_totp := [mkTOTP "user-1" "S" "Despatch" "alice@example.org" true (Some 1) 1] |>
  <| recovery_codes := [mkRecoveryCode "code-1" "user-1" (sha256_hex "FIRST") None 1;
                        mkRecoveryCode "code-2" "user-1" (sha256_hex "SECOND") None 1] |>
  <| webauthn := [mkCredential "cred-1" "user-1" "AAEC" "key" 3 "[]" "Passkey" 1 None] |>
  <| settings := [mkSetting "feature_flag.passkey_sign_in" "true" 1] |>.
Definition alice : Caller :=
  mkCaller (scanUserCore (sample_user "user-1" "alice@example.org" "user" UserActive))
           (Some (sample_session "sess-1" "user-1" "alice's token")).
Definition guarded_world : World Database := sample_world guarded_db [].

Lemma alice_unverified : ~ verified_in guarded_db "sess-1".
Proof. intros (s & Hs & _ & Hv). destruct Hs as [<-|[<-|[]]]; by apply Hv. Qed.

Lemma second_factor_needed_witness :
  let r := post [] "{'code':'123456'}" in
  verified_in (w_db (snd (answer E_TOTPVerify r alice guarded_world))) "sess-1"
  /\ evidence r (cl_User alice) (session_of alice) guarded_db E_TOTPVerify.
Proof.
  intros r.
  assert (Hv : verified_in (w_db (snd (answer E_TOTPVerify r alice guarded_world))) "sess-1").
  { eexists. split; [left; vm_compute; reflexivity|]. split; [reflexivity|discriminate]. }
  split; [exact Hv|].
  destruct (second_factor_needed E_TOTPVerify r alice guarded_world "sess-1" eq_refl Hv) as [H|(sess & Hs & _ & He)].
  - destruct (alice_unverified H).
  - injection Hs as <-. exact He.
Defined.

Lemma recovery_code_works_once_witness :
  let r := post [] "{'code':'FIRST'}" in
  let w := snd (V2MFARecoveryCodeVerify r alice guarded_world) in
  exists x, spendable "user-1" (sha256_hex "FIRST") x = true
            /\ spent_code (rc_ID x) (w_db (answer_all [(E_Confirm, r, alice); (E_RecoveryCode, r, alice)] w)).
Proof.
  intros r w.
  assert (Hrun : V2MFARecoveryCodeVerify r alice guarded_world = (Ok verified_reply, w))
    by (apply pair_of_fst; vm_compute; reflexivity).
  destruct (recovery_code_works_once r alice [(E_Confirm, r, alice); (E_RecoveryCode, r, alice)] guarded_world _ w
              ltac:(apply well_formedb_sound; vm_compute; reflexivity) Hrun eq_refl) as (x & code & b & Hdec & _ & Hs & Hspent).
  - intros x Hx. apply sample_not_fresh_id. destruct Hx as [<-|[<-|[]]]; reflexivity.
  - exists x. split; [|exact Hspent]. assert (code = "FIRST") as -> by (vm_compute in Hdec; congruence). exact Hs.
Defined.

(** Seven wrong codes: five are answered as wrong, the sixth ends the challenge. *)
Definition guess : APIRequest * Caller := (post [] "{'code':'00000000'}", alice).
Definition sent : World Database := snd (V2MFARecoveryEmailSend (post [] "") alice guarded_world).
Example five_wrong_answers : wrong_answers (repeat guess 7) sent = 5%nat.
Proof. vm_compute. reflexivity. Qed.

Lemma emailed_code_attempts_bounded_witness : (wrong_answers (repeat guess 7) (snd (V2MFARecoveryEmailSend (post [] "") alice guarded_world)) <= 5)%nat.
Proof.
  assert (Hrun : exists reply, fst (V2MFARecoveryEmailSend (post [] "") alice guarded_world) = Ok reply /\ rp_Status reply = 200).
  { eexists. split; [vm_compute; reflexivity|reflexivity]. }
  destruct Hrun as (reply & Hrun%pair_of_fst & Hst).
  apply (emailed_code_attempts_bounded (post [] "") alice (repeat guess 7) guarded_world reply _ Hrun Hst).
  intros r' c' Hin. apply repeat_spec in Hin. injection Hin as -> ->. reflexivity.
Defined.

Definition ack : APIRequest := post [] "{'recovery_codes_ack':true}".
Lemma acknowledgement_needs_no_factor_witness :
  let after := sessions (w_db (snd (V2MFARecoveryCodesAck ack alice guarded_world))) in
  In "sess-1" (map s_ID after) /\ forall s, In s after -> s_ID s = "sess-1" -> s_MFAVerifiedAt s <> None.
Proof.
  destruct (acknowledgement_needs_no_factor ack alice (session_of alice) false guarded_world _
    eq_refl eq_refl ltac:(vm_compute; reflexivity) eq_refl eq_refl eq_refl ltac:(vm_compute; tauto)) as [Hin Hall].
  split; [exact Hin|]. intros s Hs Hid. exact (proj1 (Hall s Hs Hid)).
Defined.

(** A sign-in with a passkey, from the challenge to the session. *)
Definition begun : Res HTTPReply * World Database := passkeyLoginBegin (post [] "") guarded_world.
Definition challenge_cookie : list (string * string) :=
  match fst begun with Ok reply => map (fun c => (ck_Name c, ck_Value c)) (rp_Cookies reply) | Fail _ => [] end.
Definition passkey_post : APIRequest :=
  post challenge_cookie
    "{'id':'AAEC','response':{'clientDataJSON':'c','authenticatorData':'a','signature':'good'}}".

Lemma passkey_opens_own_session_witness :
  exists s, In s (sessions (w_db (snd (passkeyLoginFinish passkey_post (snd begun))))) /\ s_UserID s = "user-1"
            /\ passkey_evidence passkey_post (w_db (snd begun)) "user-1".
Proof.
  assert (Hs : exists s, nth_error (sessions (w_db (snd (passkeyLoginFinish passkey_post (snd begun))))) 2 = Some s
                         /\ s_UserID s = "user-1"
                         /\ forallb (fun s0 => negb (String.eqb (s_ID s0) (s_ID s))) (sessions (w_db (snd begun))) = true).
  { eexists. split; [vm_compute; reflexivity|]. split; [reflexivity|vm_compute; reflexivity]. }
  destruct Hs as (s & Hlast & Hu & Hnew). apply nth_error_In in Hlast.
  exists s. refine (conj Hlast (conj Hu _)).
  destruct (passkey_opens_own_session passkey_post (snd begun) s Hlast) as [(s0 & Hs0 & Hid & _)|H].
  - rewrite forallb_forall in Hnew. specialize (Hnew s0 Hs0). apply negb_true_iff, String.eqb_neq in Hnew.
    destruct (Hnew Hid).
  - rewrite Hu in H. exact H.
Defined.

(** A password is enough: a session at the stage mfa_required is refused the
    list of devices, posts the acknowledgement through all guards of its route,
    and is served the list. *)
Definition run_on (h : APIRequest -> Caller -> DBM HTTPReply) (r : APIRequest) : Handler HTTPReply := fun _ ctx s =>
  match ctxUser ctx with
  | None => (Refused 401 "" "" None, s)
  | Some u => match h r (mkCaller u (ctxSession ctx)) (sv_world s) with
              | (Ok reply, w) => (Served reply, mkServer w (sv_limiter s))
              | (Fail _, w) => (Refused 500 "" "" None, mkServer w (sv_limiter s))
              end
  end.
Definition named (l : list Route) (handler : string) : Route :=
  default login_route (List.find (fun t => String.eqb (rt_Handler t) handler) l).
Example password_is_enough :
  let asked handler h s := serve sample_http (fun _ => run_on h ack) (named routes handler) (aq_HTTP ack) s in
  let list := asked "V2ListTrustedDevices" V2ListTrustedDevices in
  let s0 := mkServer guarded_world (NewLimiter 0) in
  let s1 := snd (asked "V2MFARecoveryCodesAck" V2MFARecoveryCodesAck s0) in
  match fst (list s0), fst (list s1) with
  | StageRefused code _ _, Served reply => String.eqb code "mfa_required" && (rp_Status reply =? 200)
  | _, _ => false
  end = true.
Proof. vm_compute. reflexivity. Qed.
